(* ===== verification/_CoqProject ===== *)
-Q . S2P
Prelude.v
Regex.v
Json.v
Clock.v
JsonParse.v
Validation.v
Runtime.v
Sql.v
Schema.v
StorageCapacity.v
StorageContract.v
RuntimeVersions.v
DeploymentConfig.v
Sha256.v
Operations.v
FinishingRetries.v
OperationsSpec.v
AdmissionSpec.v
FinishingRetriesSpec.v
Executor.v
ExecutorSpec.v
Applications.v
ApplicationsSpec.v
Fingerprint.v
Sizing.v
SizingSpec.v
Resources.v
ResourcesSpec.v
ManagementDb.v
ManagementJournal.v
ManagementJournalSpec.v
Totp.v
NomadJobs.v
Service.v
Rollout.v
RolloutSpec.v
StorageLimits.v
StorageLimitsSpec.v
IpAddress.v
OpenStack.v
OpenStackSpec.v
FloatingIp.v
FixedIp.v
PublicIp.v
RetainedPort.v
PublicIpSpec.v
RetainedPortSpec.v
WorkerHelperSpec.v
Finishing.v
FinishingSpec.v
ApplicationService.v
ApplicationServiceSpec.v
Storage.v
Maintenance.v
Environment.v
StorageSpec.v
StorageDoneSpec.v
EnvironmentSpec.v
MaintenanceSpec.v
LocalAuth.v
LocalAuthSpec.v
Durable.v
DurableSpec.v
BackupRetention.v
BackupRetentionSpec.v
BackupPolicySpec.v
