(* ===== verification/Prelude.v ===== *)
(** * Verification of the course application platform

    The platform runs students' applications on OpenStack.  Its control plane is
    the Python package src/openstack_platform: a _controller_ that accepts
    requests, journals every operation in SQLite and works through them on
    worker threads; a root _helper_ that touches the host; a _management broker_
    that turns a browser's change into a journalled request to the controller;
    and scripts that install, back up and restore it all.  This development
    models the core the rest leans on: the records, who may write them when,
    and what survives failures.  Functions keep their Python names.

    ** Files and what they model

    Libraries, shared by every component:
    - [Prelude]: exceptions as constructors of [error]; [result]; the state and
      error monad [M], in which the state after a raise is kept, as in Python;
    - [Regex]: a backtracking matcher with the priorities of Python's [re], and
      a declarative language it decides; [Json], [JsonParse]: Python's canonical
      JSON text and its decoder; [Sha256]; [Clock]: timestamps;
    - [Sql]: SQLite as the code uses it.  [Table] is the interface between SQL
      statements and a schema (constraints, keys, triggers), [evolves] and
      [atomic] the logic in which clients prove what calls preserve.

    Components, each a file of definitions with its theorems at its end or in
    the file of the same name with [Spec]:
    - [Validation] (validation.py), [Runtime] (redaction in runtime.py);
    - [Schema] (the tables of controller/database.py);
    - [Operations], [OperationsSpec], [AdmissionSpec]: idempotency requests,
      dispatches and operations (controller/database.py);
    - [FinishingRetries] (controller/finishing_retries.py) and [Executor]
      (controller/async_operations.py), which call [Operations];
    - [Applications] (applications, deployment attempts, environments in
      controller/database.py), on [DeploymentConfig]
      (controller/deployment_config.py) and [StorageContract]
      (controller/storage_contract.py);
    - [Resources] (managed storage in controller/database.py), on
      [StorageCapacity] (controller/storage_capacity.py, instance_contract.py);
    - [RuntimeVersions] (runtime_versions.py);
    - [Fingerprint] (request_fingerprint in controller/database.py) and
      [Sizing] (controller/sizing.py, the flavor projection of openstack.py,
      helper/worker_capacity.py, the allocation in
      controller/deployment_service.py);
    - [ManagementDb], [ManagementJournal] (management/broker/database.py,
      journal.py and the path check of client.py);
    - [NomadJobs] (controller/nomad_jobs.py), the text of a job and its readers;
    - [Service] (controller/service_support.py): the setting of the services, a
      [World] of the database, what was asked of the helper, the OpenStack client,
      the public route and the locks, and the answers to come;
    - [Rollout] (controller/application_runtime.py, from the evidence of a start
      to acceptance and the workflow around them) and [StorageLimits]
      (controller/storage_limits.py), on [Service] and [NomadJobs];
    - [OpenStack] (the command layer of openstack.py, the reads of provider.py),
      [IpAddress] (Python's ipaddress); on them [FloatingIp] (floating_ip.py) and
      [FixedIp] (fixed_ip.py), the two kinds of address at the provider, and
      [PublicIp] (controller/public_ip_service.py) and [RetainedPort]
      (controller/fixed_ip_service.py), their reservations; theorems in
      [OpenStackSpec], [PublicIpSpec], [RetainedPortSpec], [WorkerHelperSpec];
    - [Finishing] (what follows the acceptance of a deployment in
      controller/deployment_service.py) and [ApplicationService]
      (controller/application_service.py: declare, restart, disable, enable and
      delete), on [Rollout] and the services of addresses; theorems in
      [FinishingSpec], [ApplicationServiceSpec];
    - [Storage] (controller/storage.py, storage_service.py: create, verify, rotate
      and remove), [Environment] (controller/environment_service.py) and
      [Maintenance] (controller/maintenance.py, worker_reuse.py, rollback.py,
      source_repository of deployment_reads.py), on the same; theorems in
      [StorageSpec], [StorageDoneSpec], [EnvironmentSpec], [MaintenanceSpec];
    - [Totp] and [LocalAuth] (management/broker/local_auth.py, the passwords and
      codes of local_security.py, the recognition of known_device.py);
    - [Durable] (durable.py) and [BackupRetention] (backup_retention.py); theorems
      in [DurableSpec], [BackupRetentionSpec] and, against a policy stated of the
      files of the directory alone, [BackupPolicySpec].

    ** State and operations

    A database is a record of tables ([Schema.Db], [ManagementDb.MDb]), a table
    a list of rows; [Sql.conn] adds the transaction flag and the readings of
    the clock and of [uuid4] still to come.  A function of database.py is a
    [DB] computation with the same transaction; a property of "any reachable
    database" is an induction over all the calls of the component
    ([journal_call], [app_reachable] and the like).  The executor's threads
    interleave at every database call: a worker's code is a tree of calls
    ([Executor.code]) and [Executor.step] lets any thread take the next one.
    A service calls the database many times: before each call the other threads
    may have written anything ([Service.interfere]); [drifts] says only they did,
    [acts P] that this service's own calls each satisfied [P], [obeys allow] that
    each request was allowed where it was asked; [Service.justified allow
    change] says both of a call, its requests allowed and its own writes within
    [change], a relation that may look at the answer just given.  The helper's, the client's and
    the route's answers are functions of everything asked before.
    A controller, command line or file reader outside the repository is an
    argument of the definitions that use it ([controller], [openstack],
    [nomad], [read_file], [scrypt]).  In [Durable] a crash leaves
    under each name one of the files it has had since the directory was synced,
    whole only if the file was synced too.

    ** What the theorems show

    - Journal: finished operations are final; admission, queueing, claims and
      the finishing lane behave as specified on every branch and are exactly
      once; a raising call writes nothing; stored references hold no secret key.
    - Executor: in every interleaving a dispatch is queued, held by a worker or
      left by a worker that died, which a restart puts to rest; no slot leaks.
      Finishing retries are bounded and end with an operator, and a retry comes
      due while no more than [DUE_LIMIT] are.
    - Applications: retired slugs stay retired, the accepted deployment can
      always be read, environments advance by compare-and-swap, deletion keeps
      history.
    - Services: a rollout ends observed healthy, with its candidate's removal, or
      with a submission that was not confirmed; a deployment is accepted, with its
      placement, and a limit changed, only on confirmed evidence of exactly that
      job or change, whatever other threads write; collecting usage changes no
      limit and asks for none but those on record.
    - Lifecycle: a deletion takes an application apart in order, each step after
      the one before was confirmed, its storage loop ends, and one that returns is
      complete; a restart is never replayed; finishing removes only the recorded
      predecessor, after the accepted deployment was seen healthy again if the
      application is to run.
    - Storage: a resource is destroyed only after its removal was confirmed by
      name, recorded, and preceded by accepted preflights of exactly what is
      pending, with no running deployment using it; rows are dropped and become
      active only on the evidence of the newest request; a mutation that returns
      is complete, type by type.
    - Environments: variables of the platform or of storage are never changed, a
      change is on record before it is asked for, and no name is recorded that
      the helper did not show.
    - Replacement in place: only the recorded job of the accepted deployment is
      stopped, after its worker was identified, and the call returns only with the
      stop confirmed and on record, or where nothing is to run.
    - Addresses: the provider's floating addresses and ports are changed only with
      the intent on record and right after the exact resource was observed;
      allocations are asked for at most once; a handover or release that returns
      has been observed; a worker is created on a retained port only with its
      creation on record, and deleted only once its address is revoked.
    - Configuration, storage contract, runtimes: round trips; variable names
      never collide; an accepted runtime is the policy's or a pinned official
      image of a release that was asked for (with [lts/*], any from 20 up);
      version ranges mean what npm says.
    - Capacity: after an admission every budget holds; an allocation leaves the
      reserve; a reviewed plan is used only while it is current.
    - Broker: nothing is sent without authority, and what is recorded is what
      the controller showed.
    - Sign-in: an accepted attempt proved a password and a fresh code; no code of a
      secret is accepted twice, through resets and enrolments; the hourly guessing budgets hold for every interleaving.
    - Durable files: a crash leaves the old contents or the whole new ones.
    - Retention: [prune] unlinks what a declarative policy has expired; the newest backups
      survive; a crash leaves no manifest without its files.
    - Some theorems show what the code does not do as intended
      ([renamed_application_hidden], [snapshot_too_large],
      [unhashable_runtime]).

    ** Bounds and fuel

    A repetition in [Regex] has fuel its lower bound plus the length of the
    text: an iteration beyond the lower bound must consume a character
    ([fullmatch_iff] shows nothing is lost).  [JsonParse.loads] has fuel twice
    the length of its text and one, and [loads_dumps] shows it suffices for
    every encoded value.  [ApplicationService.delete] has fuel for its loop over
    the application's resources, and [deletion_terminates] shows one more turn
    than there are resources suffices.  Everything else is structural; a thread's
    handling of an item is a finite tree.

    ** Not modelled

    Text is code points below 256.  Floats are absent from JSON; the broker's
    REAL times and the controller's clock are exact instants.  Python's
    recursion limit, out-of-memory and interrupts are left out, and so are
    SQLite's own failures (locked or corrupt files): a statement fails only by
    its constraints.  Where SQLite leaves the order of rows open the model takes
    insertion order; [get_application] prefers an identifier to a slug.
    The column snapshot_kind, the constant 'strict', is left out.

    In the services, seconds are whole microseconds, the cause chained to an
    exception and log lines are left out, and the collector's pool of threads is
    one visit after the other.  Arguments of a helper call that the callers always
    pass as text are taken as text, and a record's JSON column is the record
    ([record_round_trip]).  An instance port that the helper gives as text is
    refused ([port_column]), where SQLite would store the number it reads as.

    Left out: the other services over the database (the build and deployment of a
    checkout, storage instances and their migration, images, logs), sagas like
    the modelled ones; [prepared] and [configuration_snapshot], which reshape
    records; the HTTP
    interface and status pages; the helper's actions on the host; accounts,
    sessions and in-memory admission windows of the broker; and installation, image building, SSH, dumps and
    restores, acceptance drivers, dashboards and the TypeScript frontends, whose
    substance is the effect on systems outside the repository. *)

From Stdlib Require Export Ascii String ZArith Lia.
From stdpp Require Export base strings numbers sorting option list.

Open Scope Z_scope.
Set Default Goal Selector "!".
#[global] Arguments String.append !_ _ / : simpl nomatch.

(** ** Python values that JSON expresses

    Floating point numbers are left out: no record of the modelled code holds
    one. *)

Inductive json :=
  | JNull
  | JBool (b : bool)
  | JInt (z : Z)
  | JStr (s : string)
  | JArr (l : list json)
  | JObj (l : list (string * json)).

Fixpoint json_dec (a b : json) {struct a} : Decision (a = b).
Proof.
  refine (match a, b with
    | JNull, JNull => left eq_refl
    | JBool x, JBool y => cast_if (decide (x = y))
    | JInt x, JInt y => cast_if (decide (x = y))
    | JStr x, JStr y => cast_if (decide (x = y))
    | JArr l, JArr m =>
        cast_if ((fix go (l m : list json) : Decision (l = m) :=
          match l, m with
          | [], [] => left eq_refl
          | x :: l, y :: m => cast_if_and (json_dec x y) (go l m)
          | _, _ => right _
          end) l m)
    | JObj l, JObj m =>
        cast_if ((fix go (l m : list (string * json)) : Decision (l = m) :=
          match l, m with
          | [], [] => left eq_refl
          | (j, x) :: l, (k, y) :: m => cast_if_and3 (decide (j = k)) (json_dec x y) (go l m)
          | _, _ => right _
          end) l m)
    | _, _ => right _
    end); abstract congruence.
Defined.
#[export] Instance json_eq_dec : EqDecision json := json_dec.

(** ** Errors

    One constructor per exception class the modelled code raises; messages
    that distinguish two raises of the same class are kept. *)

Inductive error :=
  | ValidationError (message : string)
  | RuntimeVersionError (message : string)
  | CapacityError (code : string)
  | DatabaseError (message : string)
  | IdempotencyConflictError (message : string)
  | DispatchQueueFullError (message : string)
  | FinishingOperationConflictError (operation_id : string)
  | UnfinishedOperationError (scope operation_id kind : string)
  | IntegrityError
  | AssertionError
  | KeyError
  | OverflowError
  | IndexError
  | ProgrammingError
  | TypeError
  | ValueError
  | RetentionError (reason : string)
  | OpenStackError (message : string)
  | DriftError (message : string)
  | RecoveryRequired (message : string)
  | CapabilityUnavailable (message : string)
  | CommandFailure
  | AttributeError
  | ApplicationError (message : string)
  | OSError
  | DurableReplaceError (message : string)
  | HelperError (code : string)
  | StorageOperationError (message : string)
  | ServiceDeadlineError
  | LockBusy
  | PlatformBusyError
  | DeploymentDeadlineError
  | DeploymentFailed (cleanup_succeeded : bool) (startup : option (list (string * json))).

#[export] Instance error_eq_dec : EqDecision error.
Proof. solve_decision. Defined.

(** [except db.DatabaseError]: the classes derived from [DatabaseError] in
    controller/database.py. *)
Definition is_database_error (e : error) : bool :=
  match e with
  | DatabaseError _ | IdempotencyConflictError _ | DispatchQueueFullError _
  | FinishingOperationConflictError _ | UnfinishedOperationError _ _ _ => true
  | _ => false
  end.

(** ** Results: a Python call returns a value or raises *)

Inductive result (A : Type) :=
  | Ok (a : A)
  | Raise (e : error).
Arguments Ok {A} a.
Arguments Raise {A} e.

#[export] Instance result_eq_dec {A} `{EqDecision A} : EqDecision (result A).
Proof. solve_decision. Defined.

#[export] Instance result_ret : MRet result := fun A a => Ok a.
#[export] Instance result_bind : MBind result :=
  fun A B f m => match m with Ok a => f a | Raise e => Raise e end.

#[export] Instance result_fmap : FMap result :=
  fun A B f m => match m with Ok a => Ok (f a) | Raise e => Raise e end.

Lemma rbind_ok {A B} (m : result A) (f : A -> result B) b : m ≫= f = Ok b <-> exists a, m = Ok a /\ f a = Ok b.
Proof.
  destruct m as [a|e]; split.
  - intros H. by exists a.
  - by intros (a' & [= <-] & H).
  - done.
  - by intros (a' & H & _).
Qed.

Definition guard_else (b : bool) (e : error) : result unit :=
  if b then Ok tt else Raise e.

Definition is_ok {A} (r : result A) : bool :=
  match r with Ok _ => true | Raise _ => false end.

(** ** Stateful calls: the state after a call that raises is kept, because
    Python does not undo effects when an exception propagates. *)

Definition M (S A : Type) : Type := S -> result A * S.

#[export] Instance M_ret {S} : MRet (M S) := fun A a s => (Ok a, s).
#[export] Instance M_bind {S} : MBind (M S) :=
  fun A B f m s =>
    match m s with
    | (Ok a, s') => f a s'
    | (Raise e, s') => (Raise e, s')
    end.

(** Executing a call symbolically *)

Lemma bind_ok {S A B} (m : M S A) (f : A -> M S B) s b s' :
  (m ≫= f) s = (Ok b, s') ->
  exists a s1, m s = (Ok a, s1) /\ f a s1 = (Ok b, s').
Proof. unfold mbind, M_bind. destruct (m s) as [[a|e] s1]; naive_solver. Qed.

Lemma bind_raise {S A B} (m : M S A) (f : A -> M S B) s e s' :
  (m ≫= f) s = (Raise e, s') ->
  m s = (Raise e, s') \/ exists a s1, m s = (Ok a, s1) /\ f a s1 = (Raise e, s').
Proof. unfold mbind, M_bind. destruct (m s) as [[a|e'] s1]; naive_solver. Qed.

Lemma bind_eq {S A B} (m : M S A) (f : A -> M S B) s a s1 :
  m s = (Ok a, s1) -> (m ≫= f) s = f a s1.
Proof. unfold mbind, M_bind. by intros ->. Qed.

Lemma bind_raises {S A B} (m : M S A) (f : A -> M S B) s e s1 :
  m s = (Raise e, s1) -> (m ≫= f) s = (Raise e, s1).
Proof. unfold mbind, M_bind. by intros ->. Qed.

Definition raise {S A} (e : error) : M S A := fun s => (Raise e, s).
Definition lift {S A} (r : result A) : M S A := fun s => (r, s).
Definition require {S} (b : bool) (e : error) : M S unit :=
  fun s => (guard_else b e, s).
Definition gets {S A} (f : S -> A) : M S A := fun s => (Ok (f s), s).

(** [try: m except E: h] *)
Definition catch {S A} (m : M S A) (h : error -> M S A) : M S A :=
  fun s => match m s with
           | (Ok a, s') => (Ok a, s')
           | (Raise e, s') => h e s'
           end.

(** [for x in l: f(x)] *)
Fixpoint for_each {S A} (l : list A) (f : A -> M S unit) : M S unit :=
  match l with
  | [] => mret tt
  | x :: l' => f x ≫= fun _ => for_each l' f
  end.

Definition sum (l : list Z) : Z := fold_right Z.add 0 l.
