(* ===== verification/Regex.v ===== *)
(** * Regular expressions as Python's [re] module runs them

    The validators and parsers of src/openstack_platform are written with
    compiled patterns.  [go] is a backtracking matcher with the module's
    priorities: alternation tries its left branch first, a greedy repetition
    tries one more iteration before stopping, a lazy one the other way round,
    and a group records the text of its last iteration.  [lang] is the language
    of a pattern, and [fullmatch_iff] shows that the matcher decides it.

    Text is a sequence of code points below 256 ([string]). *)

From S2P Require Import Prelude.

(** ** Characters *)

Definition code (a : ascii) : Z := Z.of_N (N_of_ascii a).
Definition chr (z : Z) : ascii := ascii_of_N (Z.to_N z).
Definition between (lo hi : Z) (a : ascii) : bool := (lo <=? code a) && (code a <=? hi).
Definition is_char (c a : ascii) : bool := Ascii.eqb c a.
Definition rng (lo hi : ascii) (a : ascii) : bool := between (code lo) (code hi) a.
Definition either (f g : ascii -> bool) (a : ascii) : bool := f a || g a.
Definition digit : ascii -> bool := rng "0" "9".
Definition lower : ascii -> bool := rng "a" "z".
Definition upper : ascii -> bool := rng "A" "Z".
Definition hexdigit : ascii -> bool := either digit (rng "a" "f").
Definition one_of (s : string) (a : ascii) : bool :=
  existsb (Ascii.eqb a) (list_ascii_of_string s).

(** [\s]: the characters Python calls white space below 256. *)
Definition whitespace (a : ascii) : bool :=
  between 9 13 a || between 28 32 a || (code a =? 133) || (code a =? 160).

(** [\w]: letters, digits and the underscore; above 127 the Latin-1 letters. *)
Definition word (a : ascii) : bool :=
  digit a || lower a || upper a || is_char "_" a || (code a =? 170) || (code a =? 178)
  || (code a =? 179) || (code a =? 181) || (code a =? 185) || (code a =? 186)
  || between 188 190 a || between 192 214 a || between 216 246 a || between 248 255 a.

Definition lower_char (a : ascii) : ascii :=
  if upper a then chr (code a + 32) else a.

(** A character under [re.IGNORECASE], for an ASCII letter of the pattern. *)
Definition is_char_i (c a : ascii) : bool := Ascii.eqb (lower_char c) (lower_char a).

(** ** Patterns *)

Inductive re :=
  | Eps
  | Bos                      (* ^ *)
  | Eos                      (* $ *)
  | WordB                    (* \b *)
  | Cls (f : ascii -> bool)
  | Cat (r1 r2 : re)
  | Alt (r1 r2 : re)
  | Rep (lo : nat) (hi : option nat) (greedy : bool) (r : re)
  | Grp (n : nat) (r : re).

Definition Star : re -> re := Rep 0 None true.
Definition Plus : re -> re := Rep 1 None true.
Definition Opt : re -> re := Rep 0 (Some 1%nat) true.
Definition Times (n : nat) : re -> re := Rep n (Some n) true.

Fixpoint lit (s : string) : re :=
  match s with
  | EmptyString => Eps
  | String a s' => Cat (Cls (is_char a)) (lit s')
  end.

Fixpoint lit_i (s : string) : re :=
  match s with
  | EmptyString => Eps
  | String a s' => Cat (Cls (is_char_i a)) (lit_i s')
  end.

Fixpoint cats (l : list re) : re :=
  match l with [] => Eps | [r] => r | r :: l' => Cat r (cats l') end.

Fixpoint alts (l : list re) : re :=
  match l with [] => Cls (fun _ => false) | [r] => r | r :: l' => Alt r (alts l') end.

(** ** The matcher *)

(** The character before the position, and the text after it. *)
Definition pos : Type := option ascii * string.
Definition caps : Type := list (nat * string).

Definition consumed (p p' : pos) : string :=
  String.substring 0 (String.length p.2 - String.length p'.2) p.2.

Definition first_some {A} (x y : option A) : option A :=
  match x with Some _ => x | None => y end.

Definition at_end (p : pos) : bool :=
  match p.2 with
  | EmptyString => true
  | String a EmptyString => code a =? 10
  | _ => false
  end.

Definition at_boundary (p : pos) : bool :=
  let before := match p.1 with Some a => word a | None => false end in
  let after := match p.2 with String a _ => word a | EmptyString => false end in
  xorb before after.

Section Matcher.
Context {A : Type}.

(** Repetition; an optional iteration has to consume a character. *)
Fixpoint rep (step : (pos -> caps -> option A) -> pos -> caps -> option A)
    (lo : nat) (hi : option nat) (greedy : bool) (fuel : nat)
    (k : pos -> caps -> option A) (p : pos) (c : caps) {struct fuel} : option A :=
  let stop := if Nat.eqb lo 0 then k p c else None in
  match fuel with
  | O => stop
  | S fuel' =>
      let more :=
        match hi with
        | Some O => None
        | _ => step (fun p' c' =>
                 if Nat.eqb lo 0 && Nat.eqb (String.length p'.2) (String.length p.2) then None
                 else rep step (pred lo) (pred <$> hi) greedy fuel' k p' c') p c
        end in
      if greedy then first_some more stop else first_some stop more
  end.

Fixpoint go (r : re) (k : pos -> caps -> option A) (p : pos) (c : caps) {struct r}
    : option A :=
  match r with
  | Eps => k p c
  | Bos => match p.1 with None => k p c | Some _ => None end
  | Eos => if at_end p then k p c else None
  | WordB => if at_boundary p then k p c else None
  | Cls f => match p.2 with
             | String a s => if f a then k (Some a, s) c else None
             | EmptyString => None
             end
  | Cat r1 r2 => go r1 (fun p' c' => go r2 k p' c') p c
  | Alt r1 r2 => first_some (go r1 k p c) (go r2 k p c)
  | Rep lo hi g r1 => rep (go r1) lo hi g (lo + S (String.length p.2))%nat k p c
  | Grp n r1 => go r1 (fun p' c' => k p' ((n, consumed p p') :: c')) p c
  end.
End Matcher.

(** [pattern.fullmatch(s)] and the groups it recorded. *)
Definition fullmatch_groups (r : re) (s : string) : option caps :=
  go r (fun p c => match p.2 with EmptyString => Some c | _ => None end) (None, s) [].

Definition fullmatch (r : re) (s : string) : bool :=
  match fullmatch_groups r s with Some _ => true | None => false end.

(** [match[n]]: [None] for a group that took no part. *)
Definition group (n : nat) (c : caps) : option string :=
  snd <$> List.find (fun g => Nat.eqb g.1 n) c.

(** [pattern.match] at a position: the groups and where the match ends. *)
Definition match_at (r : re) (p : pos) : option (caps * pos) :=
  go r (fun p' c => Some (c, p')) p [].

(** [pattern.search(s)], as a test. *)
Fixpoint search_from (r : re) (prev : option ascii) (s : string) : bool :=
  match match_at r (prev, s) with
  | Some _ => true
  | None => match s with
            | EmptyString => false
            | String a s' => search_from r (Some a) s'
            end
  end.

Definition search (r : re) (s : string) : bool := search_from r None s.

(** [pattern.sub(replace, s)] for a pattern that never matches the empty text. *)
Fixpoint sub_from (r : re) (replace : caps -> string) (fuel : nat) (p : pos) : string :=
  match fuel with
  | O => p.2
  | S fuel' =>
      match match_at r p with
      | Some (c, p') =>
          if Nat.eqb (String.length p'.2) (String.length p.2) then p.2
          else replace c +:+ sub_from r replace fuel' p'
      | None => match p.2 with
                | EmptyString => EmptyString
                | String a s' => String a (sub_from r replace fuel' (Some a, s'))
                end
      end
  end.

Definition sub (r : re) (replace : caps -> string) (s : string) : string :=
  sub_from r replace (S (String.length s)) (None, s).

(** ** The language of a pattern *)

Fixpoint concat_all (ss : list string) : string :=
  match ss with [] => "" | s :: ss' => s +:+ concat_all ss' end.

Definition below (n : nat) (hi : option nat) : Prop :=
  match hi with Some m => (n <= m)%nat | None => True end.

Fixpoint lang (r : re) (s : string) : Prop :=
  match r with
  | Eps | Bos | Eos | WordB => s = ""
  | Cls f => exists a, s = String a "" /\ f a = true
  | Cat r1 r2 => exists s1 s2, s = s1 +:+ s2 /\ lang r1 s1 /\ lang r2 s2
  | Alt r1 r2 => lang r1 s \/ lang r2 s
  | Rep lo hi _ r1 => exists ss, s = concat_all ss /\ Forall (lang r1) ss
                        /\ (lo <= length ss)%nat /\ below (length ss) hi
  | Grp _ r1 => lang r1 s
  end.

Fixpoint nullable (r : re) : bool :=
  match r with
  | Eps | Bos | Eos | WordB => true
  | Cls _ => false
  | Cat r1 r2 => nullable r1 && nullable r2
  | Alt r1 r2 => nullable r1 || nullable r2
  | Rep lo _ _ r1 => Nat.eqb lo 0 || nullable r1
  | Grp _ r1 => nullable r1
  end.

(** No zero-width assertion, and no repetition of a pattern that matches the
    empty text: every pattern of the validators. *)
Fixpoint plain (r : re) : bool :=
  match r with
  | Eps | Cls _ => true
  | Bos | Eos | WordB => false
  | Cat r1 r2 | Alt r1 r2 => plain r1 && plain r2
  | Rep _ _ _ r1 => plain r1 && negb (nullable r1)
  | Grp _ r1 => plain r1
  end.

(** ** The matcher decides the language *)

Lemma str_app_assoc (a b c : string) : a +:+ b +:+ c = (a +:+ b) +:+ c.
Proof. induction a; simpl; congruence. Qed.

Lemma str_app_nil_r (a : string) : a +:+ "" = a.
Proof. induction a; simpl; congruence. Qed.

Lemma str_length_app (a b : string) :
  String.length (a +:+ b) = (String.length a + String.length b)%nat.
Proof. induction a; simpl; congruence. Qed.

Lemma first_some_inv {A} (x y : option A) z :
  first_some x y = Some z -> x = Some z \/ y = Some z.
Proof. destruct x; naive_solver. Qed.

Lemma nullable_lang r : lang r "" -> nullable r = true.
Proof.
  induction r as [| | | |f|r1 IH1 r2 IH2|r1 IH1 r2 IH2|lo hi g r IH|n r IH]; simpl; auto.
  - by intros (a & ? & _).
  - intros ([|] & [|] & ? & ? & ?); simplify_eq/=. by rewrite IH1, IH2.
  - intros [H|H]; [rewrite IH1 by done | rewrite IH2 by done]; auto using orb_true_r.
  - intros (ss & Hs & Hall & Hlo & _). destruct ss as [|s ss].
    + destruct lo; simpl in *; [done|lia].
    + destruct s; simplify_eq/=. inversion Hall; subst. rewrite IH by done.
      apply orb_true_r.
Qed.

(** ** What a match records *)

(** The groups of a pattern, with what each encloses. *)
Fixpoint groups (r : re) : list (nat * re) :=
  match r with
  | Eps | Bos | Eos | WordB | Cls _ => []
  | Cat r1 r2 | Alt r1 r2 => groups r1 ++ groups r2
  | Rep _ _ _ r1 => groups r1
  | Grp n r1 => (n, r1) :: groups r1
  end.

(** The records a match of [r] adds: each is the text of one of its groups. *)
Definition recorded (r : re) (c c' : caps) : Prop :=
  exists new, c' = new ++ c
    /\ Forall (fun g => exists r', In (g.1, r') (groups r) /\ lang r' g.2) new.

Lemma recorded_refl r c : recorded r c c.
Proof. by exists []. Qed.

Lemma recorded_trans r c1 c2 c3 : recorded r c1 c2 -> recorded r c2 c3 -> recorded r c1 c3.
Proof.
  intros (n1 & -> & H1) (n2 & -> & H2). exists (n2 ++ n1). split; [by rewrite app_assoc|].
  by apply Forall_app_2.
Qed.

Lemma recorded_in r r' c c' : incl (groups r') (groups r) -> recorded r' c c' -> recorded r c c'.
Proof.
  intros Hi (n & -> & H). exists n. split; [done|]. eapply Forall_impl; [exact H|].
  intros g (r1 & ? & ?). exists r1. auto.
Qed.

Lemma consumed_app p p' s : p.2 = s +:+ p'.2 -> consumed p p' = s.
Proof.
  intros H. unfold consumed. rewrite H, str_length_app, Nat.add_sub. generalize (p'.2). clear H. intros t.
  induction s as [|a s IH]; simpl; [by destruct t|by rewrite IH].
Qed.

Lemma rep_sound {A} r (IH : forall (k : pos -> caps -> option A) p c x,
    go r k p c = Some x ->
    exists s p' c', p.2 = s +:+ p'.2 /\ lang r s /\ recorded r c c' /\ k p' c' = Some x) fuel :
  forall lo hi g (k : pos -> caps -> option A) p c x,
    rep (go r) lo hi g fuel k p c = Some x ->
    exists ss p' c', p.2 = concat_all ss +:+ p'.2 /\ Forall (lang r) ss
      /\ (lo <= length ss)%nat /\ below (length ss) hi /\ recorded r c c' /\ k p' c' = Some x.
Proof.
  induction fuel as [|fuel IHf]; intros lo hi g k p c x; simpl.
  - destruct lo; simpl; [|done]. intros. exists [], p, c. split_and!; auto using recorded_refl. destruct hi; simpl; auto; lia.
  - intros Hx.
    assert (Hcases : (lo = 0%nat /\ k p c = Some x) \/
      (hi <> Some 0%nat /\ exists ss p' c', p.2 = concat_all ss +:+ p'.2 /\ Forall (lang r) ss
      /\ (lo <= length ss)%nat /\ below (length ss) hi /\ recorded r c c' /\ k p' c' = Some x)).
    { assert (Hor : (if Nat.eqb lo 0 then k p c else None) = Some x \/
        match hi with Some O => None | _ => go r (fun p' c' =>
                 if Nat.eqb lo 0 && Nat.eqb (String.length p'.2) (String.length p.2) then None
                 else rep (go r) (pred lo) (pred <$> hi) g fuel k p' c') p c end = Some x).
      { destruct g; apply first_some_inv in Hx; tauto. }
      destruct Hor as [Hor|Hor].
      - left. destruct lo; [done|]. done.
      - right. split; [destruct hi as [[]|]; done|].
        assert (Hgo : go r (fun p' c' =>
                 if Nat.eqb lo 0 && Nat.eqb (String.length p'.2) (String.length p.2) then None
                 else rep (go r) (pred lo) (pred <$> hi) g fuel k p' c') p c = Some x)
          by (destruct hi as [[]|]; done).
        apply IH in Hgo as (s & p1 & c1 & Hp & Hs & Hrec & Hk).
        destruct (_ && _); [done|].
        apply IHf in Hk as (ss & p2 & c2 & Hp2 & Hall & Hlo & Hhi & Hrec2 & Hk).
        exists (s :: ss), p2, c2. simpl. split_and!; auto; [|lia| |by eapply recorded_trans].
        + by rewrite Hp, Hp2, str_app_assoc.
        + destruct hi as [[|h]|]; simpl in *; [done|lia|done]. }
    destruct Hcases as [[-> Hk]|[_ ?]]; [|done].
    exists [], p, c. split_and!; auto using recorded_refl; destruct hi; simpl; auto; lia.
Qed.

(** A successful match consumed a word of the language and recorded words of
    its groups. *)
Lemma go_sound {A} r : forall (k : pos -> caps -> option A) p c x,
  go r k p c = Some x ->
  exists s p' c', p.2 = s +:+ p'.2 /\ lang r s /\ recorded r c c' /\ k p' c' = Some x.
Proof.
  induction r as [| | | |f|r1 IH1 r2 IH2|r1 IH1 r2 IH2|lo hi g r IH|n r IH];
    intros k p c x; simpl.
  - intros; exists "", p, c; auto using recorded_refl.
  - destruct (p.1); [done|]. intros; exists "", p, c; auto using recorded_refl.
  - destruct (at_end p); [|done]. intros; exists "", p, c; auto using recorded_refl.
  - destruct (at_boundary p); [|done]. intros; exists "", p, c; auto using recorded_refl.
  - destruct p as [o [|a s]]; simpl; [done|]. destruct (f a) eqn:Hf; [|done].
    intros. exists (String a ""), (Some a, s), c. simpl; split_and!; eauto using recorded_refl.
  - intros (s1 & p1 & c1 & Hp & H1 & Hr1 & Hk)%IH1.
    apply IH2 in Hk as (s2 & p2 & c2 & Hp2 & H2 & Hr2 & Hk).
    exists (s1 +:+ s2), p2, c2. split_and!; [by rewrite Hp, Hp2, str_app_assoc|eauto| |done].
    eapply recorded_trans; eapply recorded_in; try eassumption; simpl; auto with datatypes.
  - intros [H|H]%first_some_inv; [apply IH1 in H|apply IH2 in H];
      destruct H as (s & p1 & c1 & Hp & Hl & Hr & Hk); exists s, p1, c1;
      (split_and!; [done|auto|eapply recorded_in; [|exact Hr]; simpl; auto with datatypes|done]).
  - intros (ss & p' & c' & Hp & ? & ? & ? & ? & ?)%(rep_sound r IH).
    exists (concat_all ss), p', c'. split_and!; eauto.
  - intros (s & p' & c' & Hp & Hl & (new & -> & Hnew) & Hk)%IH.
    exists s, p', ((n, consumed p p') :: new ++ c). split_and!; [done|done| |done].
    exists ((n, consumed p p') :: new). split; [done|]. rewrite (consumed_app _ _ _ Hp). constructor.
    + exists r. simpl. auto.
    + eapply Forall_impl; [exact Hnew|]. intros x' (r' & ? & ?). exists r'. simpl. auto.
Qed.

Lemma concat_length ss : Forall (fun s => s <> "") ss ->
  (length ss <= String.length (concat_all ss))%nat.
Proof.
  induction 1 as [|s ss Hs _ IH]; simpl; [lia|].
  rewrite str_length_app. destruct s; [done|simpl; lia].
Qed.

Lemma rep_complete {A} r (Hnull : ~ lang r "")
    (IH : forall s1 s2 (k : pos -> caps -> option A) o c,
      lang r s1 -> (forall o' c', is_Some (k (o', s2) c')) ->
      is_Some (go r k (o, s1 +:+ s2) c)) ss :
  forall lo hi g fuel s2 (k : pos -> caps -> option A) o c,
    Forall (lang r) ss -> (lo <= length ss)%nat -> below (length ss) hi ->
    (length ss <= fuel)%nat -> (forall o' c', is_Some (k (o', s2) c')) ->
    is_Some (rep (go r) lo hi g fuel k (o, concat_all ss +:+ s2) c).
Proof.
  induction ss as [|s ss IHss]; intros lo hi g fuel s2 k o c Hall Hlo Hhi Hfuel Hk.
  - simpl in *. assert (lo = 0%nat) as -> by lia. destruct (Hk o c) as [x Hx].
    destruct fuel; simpl; rewrite Hx; [done|].
    destruct g; simpl; [|done]. unfold first_some. by repeat case_match.
  - destruct fuel as [|fuel]; simpl in *; [lia|].
    inversion Hall as [|? ? Hs Hall']; subst.
    assert (Hmore : is_Some (go r (fun p' c' =>
                 if Nat.eqb lo 0 && Nat.eqb (String.length p'.2)
                    (String.length ((s +:+ concat_all ss) +:+ s2)) then None
                 else rep (go r) (pred lo) (pred <$> hi) g fuel k p' c')
                 (o, (s +:+ concat_all ss) +:+ s2) c)).
    { rewrite <- (str_app_assoc s). apply IH; [done|].
      intros o' c'. destruct (Nat.eqb lo 0 && _) eqn:Hb.
      - apply andb_true_iff in Hb as [_ Hb%Nat.eqb_eq]. simpl in Hb.
        rewrite !str_length_app in Hb. destruct s; [done|simpl in Hb; lia].
      - apply IHss; auto; [lia| |lia]. destruct hi as [[]|]; simpl in *; lia || done. }
    destruct Hmore as [x Hx].
    destruct hi as [[|h]|]; [simpl in Hhi; lia| |]; simpl in *; rewrite Hx;
      (destruct g; simpl; [done|]); by destruct (if Nat.eqb lo 0 then _ else _).
Qed.

(** A word of the language is found, whatever follows it. *)
Lemma go_complete {A} r : plain r = true -> forall s1 s2 (k : pos -> caps -> option A) o c,
  lang r s1 -> (forall o' c', is_Some (k (o', s2) c')) ->
  is_Some (go r k (o, s1 +:+ s2) c).
Proof.
  induction r as [| | | |f|r1 IH1 r2 IH2|r1 IH1 r2 IH2|lo hi g r IH|n r IH];
    simpl; intros Hp s1 s2 k o c Hl Hk; try done.
  - by subst.
  - destruct Hl as (a & -> & Ha). simpl. by rewrite Ha.
  - apply andb_true_iff in Hp as [Hp1 Hp2]. destruct Hl as (t1 & t2 & -> & H1 & H2).
    rewrite <- str_app_assoc. apply IH1; auto.
  - apply andb_true_iff in Hp as [Hp1 Hp2]. destruct Hl as [H|H].
    + destruct (IH1 Hp1 _ _ k o c H Hk) as [x Hx]. by rewrite Hx.
    + destruct (IH2 Hp2 _ _ k o c H Hk) as [x Hx]. rewrite Hx. by destruct (go r1 _ _ _).
  - apply andb_true_iff in Hp as [Hp1 Hp2%negb_true_iff].
    assert (Hnull : ~ lang r "") by (intros H%nullable_lang; congruence).
    destruct Hl as (ss & -> & Hall & Hlo & Hhi).
    apply rep_complete; auto.
    assert (length ss <= String.length (concat_all ss))%nat.
    { apply concat_length. eapply Forall_impl; [exact Hall|]. intros s Hs ->. auto. }
    simpl. rewrite str_length_app. lia.
  - apply IH; auto.
Qed.

(** The matcher decides the language of a plain pattern. *)
Lemma fullmatch_iff r s : plain r = true -> fullmatch r s = true <-> lang r s.
Proof.
  intros Hp. unfold fullmatch, fullmatch_groups. split.
  - destruct (go _ _ _ _) eqn:Hgo; [|done]. intros _.
    apply go_sound in Hgo as (t & p' & c' & Ht & Hl & _ & Hk).
    destruct p' as [o [|]]; simplify_eq/=. by rewrite str_app_nil_r.
  - intros Hl. destruct (go_complete (A := caps) r Hp s ""
      (fun p c => match p.2 with EmptyString => Some c | _ => None end) None []) as [x Hx];
      [done|intros; done|].
    rewrite str_app_nil_r in Hx. by rewrite Hx.
Qed.

(** What holds of a match without the [plain] proviso. *)
Lemma fullmatch_lang r s : fullmatch r s = true -> lang r s.
Proof.
  unfold fullmatch, fullmatch_groups. destruct (go _ _ _ _) eqn:Hgo; [|done]. intros _.
  apply go_sound in Hgo as (t & p' & c' & Ht & Hl & _ & Hk).
  destruct p' as [o [|]]; simplify_eq/=. by rewrite str_app_nil_r.
Qed.
