(* ===== verification/Json.v ===== *)
(** * JSON values and Python's canonical encoding of them

    The controller stores every variable record as
    [json.dumps(value, sort_keys=True, separators=(",", ":"), ensure_ascii=True)];
    [dumps] is that encoder.  A dict is an association list in insertion order
    with unique keys ([dict_set] replaces in place, as Python does). *)

From stdpp Require Import pretty.
From S2P Require Import Prelude Regex.

(** A validator takes any Python object; text is the common case. *)
Coercion JStr : string >-> json.

Abbreviation dict := (list (string * json)).

(** ** Dictionaries *)

Fixpoint dict_get {A} (k : string) (d : list (string * A)) : option A :=
  match d with
  | [] => None
  | (k', v) :: d' => if String.eqb k k' then Some v else dict_get k d'
  end.

Fixpoint dict_set {A} (k : string) (v : A) (d : list (string * A)) : list (string * A) :=
  match d with
  | [] => [(k, v)]
  | (k', v') :: d' => if String.eqb k k' then (k, v) :: d' else (k', v') :: dict_set k v d'
  end.

Fixpoint dict_pop {A} (k : string) (d : list (string * A)) : list (string * A) :=
  match d with
  | [] => []
  | (k', v) :: d' => if String.eqb k k' then d' else (k', v) :: dict_pop k d'
  end.

(** [{**a, **b}] *)
Definition dict_merge {A} (a b : list (string * A)) : list (string * A) :=
  fold_left (fun acc kv => dict_set kv.1 kv.2 acc) b a.

Definition dict_keys {A} (d : list (string * A)) : list string := map fst d.

(** ** Text order: code points, the order of [sorted], [<] on str and SQLite *)

Fixpoint str_ltb (a b : string) : bool :=
  match a, b with
  | _, EmptyString => false
  | EmptyString, String _ _ => true
  | String x a', String y b' =>
      if code x <? code y then true
      else if code y <? code x then false else str_ltb a' b'
  end.

Definition str_leb (a b : string) : bool := negb (str_ltb b a).

Fixpoint insert_by {A} (le : A -> A -> bool) (x : A) (l : list A) : list A :=
  match l with
  | [] => [x]
  | y :: l' => if le x y then x :: l else y :: insert_by le x l'
  end.

(** [sorted(l, key=...)]: a stable sort. *)
Fixpoint sort_by {A} (le : A -> A -> bool) (l : list A) : list A :=
  match l with [] => [] | x :: l' => insert_by le x (sort_by le l') end.

Definition sort_items {A} (d : list (string * A)) : list (string * A) :=
  sort_by (fun a b => str_leb a.1 b.1) d.

(** ** The encoder *)

Definition hex_char (n : Z) : ascii := if n <? 10 then chr (48 + n) else chr (87 + n).

Definition escape_char (a : ascii) : string :=
  let c := code a in
  if c =? 34 then String "092" (String (chr 34) "")
  else if c =? 92 then String "092" (String "092" "")
  else if c =? 10 then String "092" "n"
  else if c =? 13 then String "092" "r"
  else if c =? 9 then String "092" "t"
  else if c =? 12 then String "092" "f"
  else if c =? 8 then String "092" "b"
  else if (32 <=? c) && (c <=? 126) then String a ""
  else String "092" ("u00" +:+ String (hex_char (c / 16)) (String (hex_char (c mod 16)) "")).

Fixpoint escape (s : string) : string :=
  match s with EmptyString => "" | String a s' => escape_char a +:+ escape s' end.

Definition quote : string := String (chr 34) "".

Definition dumps_string (s : string) : string := quote +:+ escape s +:+ quote.

Fixpoint join (sep : string) (l : list string) : string :=
  match l with
  | [] => ""
  | [s] => s
  | s :: l' => s +:+ sep +:+ join sep l'
  end.

Fixpoint dumps (v : json) : string :=
  match v with
  | JNull => "null"
  | JBool true => "true"
  | JBool false => "false"
  | JInt z => pretty z
  | JStr s => dumps_string s
  | JArr l => "[" +:+ join "," (map dumps l) +:+ "]"
  | JObj d => "{" +:+ join ","
      (map (fun kv => dumps_string kv.1 +:+ ":" +:+ kv.2)
        (sort_items (map (fun kv => (kv.1, dumps kv.2)) d))) +:+ "}"
  end.

(** The value read back from the text of [dumps]: keys in sorted order. *)
Fixpoint canonical (v : json) : json :=
  match v with
  | JArr l => JArr (map canonical l)
  | JObj d => JObj (sort_items (map (fun kv => (kv.1, canonical kv.2)) d))
  | v => v
  end.

(** Length in bytes of [s.encode("utf-8")]. *)
Fixpoint utf8_length (s : string) : Z :=
  match s with
  | EmptyString => 0
  | String a s' => (if code a <? 128 then 1 else 2) + utf8_length s'
  end.

(** ** Equality *)

Fixpoint json_eqb (a b : json) : bool :=
  match a, b with
  | JNull, JNull => true
  | JBool x, JBool y => Bool.eqb x y
  | JInt x, JInt y => x =? y
  | JStr x, JStr y => String.eqb x y
  | JArr l, JArr m =>
      (fix go l m := match l, m with
        | [], [] => true
        | x :: l', y :: m' => json_eqb x y && go l' m'
        | _, _ => false
        end) l m
  | JObj l, JObj m =>
      (fix go l m := match l, m with
        | [], [] => true
        | x :: l', y :: m' => String.eqb x.1 y.1 && json_eqb x.2 y.2 && go l' m'
        | _, _ => false
        end) l m
  | _, _ => false
  end.

(** Python's [==] on dicts does not see the order of keys. *)
Definition py_eqb (a b : json) : bool := json_eqb (canonical a) (canonical b).

(** What may be absent, [None] is [null]. *)
Definition opt_json {A} (f : A -> json) (o : option A) : json := match o with Some a => f a | None => JNull end.

(** ** Lemmas *)

Lemma dict_get_set_eq {A} k (v : A) d : dict_get k (dict_set k v d) = Some v.
Proof.
  induction d as [|[k' v'] d IH]; simpl; [by rewrite String.eqb_refl|].
  destruct (String.eqb_spec k k'); simpl; [by rewrite String.eqb_refl|].
  by destruct (String.eqb_spec k k').
Qed.

Lemma dict_get_set_ne {A} k k' (v : A) d :
  k <> k' -> dict_get k (dict_set k' v d) = dict_get k d.
Proof.
  intros Hne. induction d as [|[j w] d IH]; simpl.
  - by destruct (String.eqb_spec k k').
  - destruct (String.eqb_spec k' j); simpl; [subst|by rewrite IH].
    by destruct (String.eqb_spec k j).
Qed.

Lemma dict_get_merge {A} k (a b : list (string * A)) :
  ~ In k (dict_keys b) -> dict_get k (dict_merge a b) = dict_get k a.
Proof.
  unfold dict_merge. revert a. induction b as [|[j w] b IH]; intros a Hk; simpl in *; [done|].
  rewrite IH by tauto. apply dict_get_set_ne. intros ->. tauto.
Qed.

Lemma insert_by_perm {A} (le : A -> A -> bool) x l : insert_by le x l ≡ₚ x :: l.
Proof.
  induction l as [|y l IH]; simpl; [done|]. destruct (le x y); [done|].
  rewrite IH. constructor.
Qed.

Lemma sort_by_perm {A} (le : A -> A -> bool) l : sort_by le l ≡ₚ l.
Proof.
  induction l as [|x l IH]; simpl; [done|]. by rewrite insert_by_perm, IH.
Qed.

(** ** Induction over nested values *)

Lemma json_nested_ind (P : json -> Prop) :
  P JNull -> (forall b, P (JBool b)) -> (forall z, P (JInt z)) -> (forall s, P (JStr s)) ->
  (forall l, Forall P l -> P (JArr l)) ->
  (forall d, Forall (fun kv => P kv.2) d -> P (JObj d)) ->
  forall v, P v.
Proof.
  intros Hn Hb Hi Hs Ha Ho. fix IH 1. intros [|b|z|s|l|d]; [apply Hn|apply Hb|apply Hi|apply Hs| |].
  - apply Ha. induction l as [|x l IHl]; constructor; [apply IH|exact IHl].
  - apply Ho. induction d as [|[k x] d IHd]; constructor; [apply IH|exact IHd].
Qed.

Lemma forallb_perm {A} (p : A -> bool) l l' : l ≡ₚ l' -> forallb p l = forallb p l'.
Proof.
  intros Hp. apply eq_true_iff_eq. rewrite !forallb_forall.
  setoid_rewrite <- list_elem_of_In. by setoid_rewrite Hp.
Qed.

Lemma sort_items_perm {A} (d : list (string * A)) : sort_items d ≡ₚ d.
Proof. apply sort_by_perm. Qed.

(** ** The stored text does not depend on the order of keys *)

Section SortBy.
Context {A : Type} (le : A -> A -> bool).
Hypothesis le_total : forall x y, le x y = false -> le y x = true.

Inductive ascending : list A -> Prop :=
  | ascending_nil : ascending []
  | ascending_one x : ascending [x]
  | ascending_cons x y l : le x y = true -> ascending (y :: l) -> ascending (x :: y :: l).

Lemma insert_by_ascending x l : ascending l -> ascending (insert_by le x l).
Proof.
  induction 1 as [|y|y z l Hyz Hl IH]; simpl; [constructor| |].
  - destruct (le x y) eqn:E; repeat constructor; auto.
  - destruct (le x y) eqn:E; [repeat constructor; auto|].
    simpl in IH. destruct (le x z) eqn:E2; constructor; auto.
Qed.

Lemma sort_by_ascending l : ascending (sort_by le l).
Proof. induction l; simpl; [constructor|by apply insert_by_ascending]. Qed.

Lemma sort_by_id l : ascending l -> sort_by le l = l.
Proof.
  induction 1 as [|x|x y l Hxy Hl IH]; [done|done|].
  change (insert_by le x (sort_by le (y :: l)) = x :: y :: l).
  rewrite IH. simpl. by rewrite Hxy.
Qed.
End SortBy.

Lemma sort_by_map {A B} (leA : A -> A -> bool) (leB : B -> B -> bool) (f : A -> B) l :
  (forall x y, leB (f x) (f y) = leA x y) ->
  sort_by leB (map f l) = map f (sort_by leA l).
Proof.
  intros Hf. assert (Hi : forall x l, insert_by leB (f x) (map f l) = map f (insert_by leA x l)).
  { intros x m. induction m as [|y m IH]; simpl; [done|]. rewrite Hf. destruct (leA x y); [done|].
    simpl. by rewrite IH. }
  induction l as [|x l IH]; simpl; [done|]. by rewrite IH, Hi.
Qed.

Lemma str_ltb_irrefl_total a b : str_ltb a b = true -> str_ltb b a = false.
Proof.
  revert b. induction a as [|x a IH]; intros [|y b]; simpl; try done.
  destruct (code x <? code y) eqn:E1; destruct (code y <? code x) eqn:E2; simpl; try done; try lia.
  auto.
Qed.

Lemma str_leb_total a b : str_leb a b = false -> str_leb b a = true.
Proof. unfold str_leb. intros H%negb_false_iff. by rewrite str_ltb_irrefl_total. Qed.

Lemma sort_items_map {A B} (f : A -> B) (d : list (string * A)) :
  sort_items (map (fun kv => (kv.1, f kv.2)) d) = map (fun kv => (kv.1, f kv.2)) (sort_items d).
Proof. by apply sort_by_map. Qed.

Lemma sort_items_idem {A} (d : list (string * A)) : sort_items (sort_items d) = sort_items d.
Proof.
  assert (Ht : forall x y : string * A, str_leb x.1 y.1 = false -> str_leb y.1 x.1 = true)
    by (intros; by apply str_leb_total).
  apply (sort_by_id _ _ (sort_by_ascending _ Ht d)).
Qed.

(** Encoding the value that was read back gives the text it was read from. *)
Lemma dumps_canonical v : dumps (canonical v) = dumps v.
Proof.
  induction v as [| | | |l IH|d IH] using json_nested_ind; try done.
  - simpl. do 3 f_equal. rewrite map_map. induction IH as [|x l Hx _ IHl]; simpl; [done|].
    by rewrite Hx, IHl.
  - simpl. do 3 f_equal. f_equal.
    rewrite !sort_items_map, sort_items_idem, !map_map. simpl.
    assert (Hd : Forall (fun kv => dumps (canonical kv.2) = dumps kv.2) (sort_items d))
      by (by rewrite sort_items_perm).
    induction Hd as [|x e Hx _ IHe]; simpl; [done|]. by rewrite Hx, IHe.
Qed.
Lemma utf8_length_app s t : utf8_length (s +:+ t) = utf8_length s + utf8_length t.
Proof. induction s; simpl; [done|]. rewrite IHs. lia. Qed.

(** A value of a set or a key of a dict has to be hashable. *)
Definition hashable (v : json) : bool := match v with JArr _ | JObj _ => false | _ => true end.

(** ** Looking up a key after sorting or mapping *)

Lemma str_ltb_irrefl a : str_ltb a a = false.
Proof. induction a as [|x a IH]; simpl; [done|]. by rewrite Z.ltb_irrefl. Qed.

Lemma dict_get_absent {A} k (d : list (string * A)) : dict_get k d = None -> ~ In k (dict_keys d).
Proof.
  induction d as [|[j w] d IH]; simpl; [tauto|]. destruct (String.eqb_spec k j); [done|]. intros H [|]; [congruence|tauto].
Qed.

Lemma dict_get_insert {A} k (x : string * A) l :
  dict_get k (insert_by (fun a b => str_leb a.1 b.1) x l)
  = if String.eqb k x.1 then Some x.2 else dict_get k l.
Proof.
  destruct x as [kx vx]. induction l as [|[ky vy] l IH]; simpl; [by destruct (String.eqb k kx)|].
  destruct (str_leb kx ky) eqn:E; simpl; [done|]. rewrite IH. simpl.
  destruct (String.eqb_spec k ky) as [->|]; [|done]. destruct (String.eqb_spec ky kx) as [->|]; [|done].
  unfold str_leb in E. by rewrite str_ltb_irrefl in E.
Qed.

Lemma dict_get_sorted {A} k (d : list (string * A)) : dict_get k (sort_items d) = dict_get k d.
Proof.
  unfold sort_items. induction d as [|[k' v] d IH]; simpl; [done|]. by rewrite dict_get_insert, IH.
Qed.

Lemma dict_get_map {A B} (f : A -> B) k (d : list (string * A)) :
  dict_get k (map (fun kv => (kv.1, f kv.2)) d) = f <$> dict_get k d.
Proof. induction d as [|[k' v] d IH]; simpl; [done|]. by destruct (String.eqb k k'). Qed.

Lemma dict_get_canonical k d : 
  dict_get k (sort_items (map (fun kv => (kv.1, canonical kv.2)) d)) = canonical <$> dict_get k d.
Proof. by rewrite dict_get_sorted, dict_get_map. Qed.
