(* ===== verification/Clock.v ===== *)
(** * Time (utc_now of src/openstack_platform/controller/database.py)

    An instant is a number of microseconds since 0001-01-01 UTC.  Stored
    timestamps are texts, and the code compares them as texts: [text_order]
    shows that this is the order of time, up to the fraction of a second the
    shorter format drops. *)

From S2P Require Import Prelude Regex Json.

(** ** The calendar *)

Definition leap (year : Z) : bool :=
  (year mod 4 =? 0) && (negb (year mod 100 =? 0) || (year mod 400 =? 0)).

Definition days_before_year (year : Z) : Z :=
  let y := year - 1 in y * 365 + y / 4 - y / 100 + y / 400.

Definition month_lengths (year : Z) : list Z :=
  [31; if leap year then 29 else 28; 31; 30; 31; 30; 31; 31; 30; 31; 30; 31].

Definition days_before_month (year month : Z) : Z :=
  sum (take (Z.to_nat (month - 1)) (month_lengths year)).

Definition second : Z := 1000000.
Definition day : Z := 86400 * second.

(** The year of a day number. *)
Definition year_of (n : Z) : Z :=
  let y := n * 400 / 146097 + 1 in
  if days_before_year (y + 1) <=? n then y + 1
  else if n <? days_before_year y then y - 1 else y.

(** Month and day of a day of the year, counted from 0. *)
Fixpoint month_from (month : Z) (lengths : list Z) (d : Z) : Z * Z :=
  match lengths with
  | [] => (month, d + 1)
  | l :: rest => if d <? l then (month, d + 1) else month_from (month + 1) rest (d - l)
  end.

Definition month_of (n : Z) : Z * Z :=
  month_from 1 (month_lengths (year_of n)) (n - days_before_year (year_of n)).

(** ** Texts *)

Definition digit_char (d : Z) : ascii := chr (48 + d).

(** [n] in decimal, zero-padded to a width *)
Fixpoint digits (width : nat) (n : Z) : string :=
  match width with
  | O => ""
  | S w => digits w (n / 10) +:+ String (digit_char (n mod 10)) ""
  end.

(** [datetime.isoformat(timespec="seconds")] without the zone *)
Definition isoformat (t : Z) : string :=
  let n := t / day in
  let s := t mod day / second in
  digits 4 (year_of n) +:+ "-" +:+ digits 2 (month_of n).1 +:+ "-" +:+ digits 2 (month_of n).2
  +:+ "T" +:+ digits 2 (s / 3600) +:+ ":" +:+ digits 2 (s / 60 mod 60) +:+ ":" +:+ digits 2 (s mod 60).

(** [utc_now] at an instant *)
Definition utc_text (t : Z) : string := isoformat t +:+ "Z".

(** [isoformat(timespec="microseconds")], zone [Z] *)
Definition utc_text_micro (t : Z) : string := isoformat t +:+ "." +:+ digits 6 (t mod second) +:+ "Z".

(** The years 1 to 9999 of [datetime]. *)
Definition datetime_max : Z := days_before_year 10000 * day.

Example epoch_text : utc_text (days_before_year 2025 * day + 59 * day + 3661 * second) = "2025-03-01T01:01:01Z".
Proof. vm_compute. reflexivity. Qed.

(** ** Correctness of the calendar *)

Ltac zdiv := Z.div_mod_to_equations; lia.

Lemma dby_step y : 1 <= y -> days_before_year (y + 1) = days_before_year y + sum (month_lengths y).
Proof.
  intros Hy. unfold days_before_year, month_lengths, leap, sum. simpl.
  destruct (y mod 4 =? 0) eqn:E4, (y mod 100 =? 0) eqn:E100, (y mod 400 =? 0) eqn:E400; simpl;
    rewrite ?Z.eqb_eq, ?Z.eqb_neq in *; zdiv.
Qed.

Lemma year_of_spec n : 0 <= n -> 1 <= year_of n /\ days_before_year (year_of n) <= n < days_before_year (year_of n + 1).
Proof.
  intros Hn. unfold year_of. set (y := n * 400 / 146097 + 1).
  destruct (days_before_year (y + 1) <=? n) eqn:E1; [apply Z.leb_le in E1|apply Z.leb_gt in E1].
  - subst y. unfold days_before_year in *. zdiv.
  - destruct (n <? days_before_year y) eqn:E2; [apply Z.ltb_lt in E2|apply Z.ltb_ge in E2];
      subst y; unfold days_before_year in *; zdiv.
Qed.

Lemma dby_mono y z : y < z -> 1 <= y -> days_before_year (y + 1) <= days_before_year z.
Proof. intros H1 H2. unfold days_before_year. zdiv. Qed.

(** The days of a year are counted by its months. *)
Lemma month_from_spec m lengths d : 0 <= d < sum lengths ->
  exists k, nth_error lengths k = Some (nth k lengths 0) /\ (month_from m lengths d).1 = m + Z.of_nat k
    /\ (month_from m lengths d).2 = d - sum (take k lengths) + 1
    /\ 1 <= (month_from m lengths d).2 <= nth k lengths 0.
Proof.
  revert m d. induction lengths as [|l rest IH]; simpl; intros m d Hd; [lia|].
  destruct (Z.ltb_spec d l).
  - exists 0%nat. simpl. split_and!; try done; lia.
  - destruct (IH (m + 1) (d - l)) as (k & Hk & Hm & Hdom & Hb); [lia|].
    exists (S k). simpl. split_and!; try done; try lia.
Qed.

Lemma month_of_spec n : 0 <= n -> exists k, (k < 12)%nat /\ (month_of n).1 = Z.of_nat k + 1
  /\ n = days_before_year (year_of n) + days_before_month (year_of n) (month_of n).1 + ((month_of n).2 - 1)
  /\ 1 <= (month_of n).2 <= nth k (month_lengths (year_of n)) 0.
Proof.
  intros Hn. destruct (year_of_spec n Hn) as [Hy Hb]. unfold month_of.
  rewrite dby_step in Hb by done.
  destruct (month_from_spec 1 (month_lengths (year_of n)) (n - days_before_year (year_of n)))
    as (k & Hk & Hm & Hd & Hr); [lia|].
  exists k. split_and!.
  - apply (nth_error_Some (month_lengths (year_of n))). by rewrite Hk.
  - lia.
  - unfold days_before_month. rewrite Hm. replace (Z.to_nat (1 + Z.of_nat k - 1)) with k by lia. lia.
  - lia.
  - lia.
Qed.

Lemma month_mono y j k : (j < k)%nat -> (k < 12)%nat ->
  sum (take j (month_lengths y)) + nth j (month_lengths y) 0 <= sum (take k (month_lengths y)).
Proof.
  intros Hj Hk. unfold month_lengths.
  do 12 (destruct j as [|j]; [do 12 (destruct k as [|k]; [try (exfalso; lia); simpl; destruct (leap y); simpl; lia|]); lia|]).
  lia.
Qed.

(** First the numbers, then what follows them. *)
Definition lexb (m n : Z) (rest : bool) : bool := (m <? n) || ((m =? n) && rest).

Ltac lexb := unfold lexb; repeat match goal with
  | |- context [?a <? ?b] => destruct (Z.ltb_spec a b)
  | |- context [?a =? ?b] => destruct (Z.eqb_spec a b)
  end; simpl; try done; try (exfalso; nia).

Lemma prefix_order p x y : str_ltb (p +:+ x) (p +:+ y) = str_ltb x y.
Proof. induction p as [|a p IH]; [done|]. simpl. by rewrite Z.ltb_irrefl. Qed.

Lemma digit_code d : 0 <= d < 10 -> code (digit_char d) = 48 + d.
Proof. intros H. unfold code, digit_char, chr. rewrite N_ascii_embedding by lia. lia. Qed.

Lemma digits_order w : forall m n x y, 0 <= m < 10 ^ Z.of_nat w -> 0 <= n < 10 ^ Z.of_nat w ->
  str_ltb (digits w m +:+ x) (digits w n +:+ y) = lexb m n (str_ltb x y).
Proof.
  induction w as [|w IH]; intros m n x y Hm Hn.
  - simpl in *. assert (m = 0) as -> by lia. assert (n = 0) as -> by lia. done.
  - cbn [digits]. rewrite <- !str_app_assoc.
    assert (10 ^ Z.of_nat (S w) = 10 * 10 ^ Z.of_nat w) as Hp by (rewrite Nat2Z.inj_succ, Z.pow_succ_r by lia; lia).
    rewrite IH by zdiv. cbn [String.append str_ltb]. rewrite !digit_code by zdiv.
    pose proof (Z.div_mod m 10). pose proof (Z.div_mod n 10).
    pose proof (Z.mod_pos_bound m 10). pose proof (Z.mod_pos_bound n 10). lexb.
Qed.

Lemma lexb_lt m n r : m < n -> lexb m n r = true.
Proof. intros. lexb; lia. Qed.
Lemma lexb_gt m n r : n < m -> lexb m n r = false.
Proof. intros. lexb; lia. Qed.
Lemma lexb_eq m r : lexb m m r = r.
Proof. unfold lexb. by rewrite Z.ltb_irrefl, Z.eqb_refl. Qed.

Lemma day_order m n r : 0 <= m -> 0 <= n ->
  lexb (year_of m) (year_of n) (lexb (month_of m).1 (month_of n).1 (lexb (month_of m).2 (month_of n).2 r))
  = lexb m n r.
Proof.
  intros Hm Hn. destruct (year_of_spec m Hm) as [Ym Bm], (year_of_spec n Hn) as [Yn Bn].
  destruct (month_of_spec m Hm) as (j & Hj & Mj & Em & Rj), (month_of_spec n Hn) as (k & Hk & Mk & En & Rk).
  destruct (Z.lt_trichotomy (year_of m) (year_of n)) as [H|[H|H]].
  - pose proof (dby_mono _ _ H Ym). rewrite !lexb_lt by lia. done.
  - rewrite <- H in *. rewrite lexb_eq, Mj, Mk in *. unfold days_before_month in *.
    replace (Z.to_nat (Z.of_nat j + 1 - 1)) with j in Em by lia.
    replace (Z.to_nat (Z.of_nat k + 1 - 1)) with k in En by lia.
    destruct (Nat.lt_trichotomy j k) as [L|[L|L]].
    + pose proof (month_mono (year_of m) j k L Hk). rewrite !lexb_lt by lia. done.
    + subst k. rewrite lexb_eq. lexb; lia.
    + pose proof (month_mono (year_of m) k j L Hj). rewrite !lexb_gt by lia. done.
  - pose proof (dby_mono _ _ H Yn). rewrite !lexb_gt by lia. done.
Qed.

Lemma clock_order s s' r : 0 <= s -> 0 <= s' ->
  lexb (s / 3600) (s' / 3600) (lexb (s / 60 mod 60) (s' / 60 mod 60) (lexb (s mod 60) (s' mod 60) r)) = lexb s s' r.
Proof.
  intros H H'.
  assert (E : forall s, 0 <= s -> s = 3600 * (s / 3600) + 60 * (s / 60 mod 60) + s mod 60
    /\ 0 <= s / 60 mod 60 < 60 /\ 0 <= s mod 60 < 60) by (clear; intros; zdiv).
  destruct (E s H) as (E1 & B1 & C1), (E s' H') as (E2 & B2 & C2). clear E.
  generalize dependent (s / 3600). generalize dependent (s / 60 mod 60). generalize dependent (s mod 60).
  generalize dependent (s' / 3600). generalize dependent (s' / 60 mod 60). generalize dependent (s' mod 60).
  intros. subst. lexb; lia.
Qed.

Lemma instant_order t t' r : 0 <= t -> 0 <= t' ->
  lexb (t / day) (t' / day) (lexb (t mod day / second) (t' mod day / second) r) = lexb (t / second) (t' / second) r.
Proof.
  intros H H'.
  assert (E : forall t, 0 <= t -> t / second = 86400 * (t / day) + t mod day / second
    /\ 0 <= t mod day / second < 86400) by (clear; unfold day, second; intros; zdiv).
  destruct (E t H) as (E1 & B1), (E t' H') as (E2 & B2). rewrite E1, E2.
  generalize dependent (t / day). generalize dependent (t mod day / second).
  generalize dependent (t' / day). generalize dependent (t' mod day / second). intros. lexb; lia.
Qed.

Definition datetime (t : Z) : Prop := 0 <= t < datetime_max.

Lemma isoformat_order t t' x y : datetime t -> datetime t' ->
  str_ltb (isoformat t +:+ x) (isoformat t' +:+ y) = lexb (t / second) (t' / second) (str_ltb x y).
Proof.
  intros H H'. unfold isoformat. rewrite <- !str_app_assoc.
  assert (B : forall t, datetime t -> 0 <= t / day /\ 0 <= year_of (t / day) < 10 ^ Z.of_nat 4
    /\ 0 <= (month_of (t / day)).1 < 10 ^ Z.of_nat 2 /\ 0 <= (month_of (t / day)).2 < 10 ^ Z.of_nat 2
    /\ 0 <= t mod day / second < 86400).
  { clear. intros t H. assert (Hn : 0 <= t / day < days_before_year 10000).
    { unfold datetime, datetime_max in H. split; [apply Z.div_pos; unfold day, second; lia|].
      apply Z.div_lt_upper_bound; [done|lia]. }
    destruct (year_of_spec (t / day)) as [Y B]; [lia|].
    destruct (month_of_spec (t / day)) as (k & Hk & M & _ & R); [lia|].
    assert (year_of (t / day) < 10000).
    { destruct (Z.lt_ge_cases (year_of (t / day)) 10000); [done|].
      pose proof (dby_mono 9999 (year_of (t / day)) ltac:(lia) ltac:(lia)) as L. change (9999 + 1) with 10000 in L. lia. }
    assert (nth k (month_lengths (year_of (t / day))) 0 <= 31).
    { unfold month_lengths. destruct (leap (year_of (t / day))); do 12 (destruct k as [|k]; [simpl; lia|]); lia. }
    split_and!; try lia.
    - apply Z.div_pos; [apply Z.mod_pos_bound; done|done].
    - unfold day, second in *. zdiv. }
  destruct (B t H) as (N & Y & M & D & S), (B t' H') as (N' & Y' & M' & D' & S').
  assert (C : forall s, 0 <= s < 86400 -> 0 <= s / 3600 < 10 ^ Z.of_nat 2 /\ 0 <= s / 60 mod 60 < 10 ^ Z.of_nat 2
    /\ 0 <= s mod 60 < 10 ^ Z.of_nat 2) by (clear; simpl; intros; zdiv).
  destruct (C _ S) as (S1 & S2 & S3), (C _ S') as (S1' & S2' & S3').
  repeat (rewrite digits_order by done; rewrite ?prefix_order).
  rewrite clock_order, day_order, instant_order by (try lia; destruct H, H'; lia). done.
Qed.

(** The text comparisons of the code compare instants: on the instants a
    [datetime] has, [utc_now] texts are ordered as their seconds, and so is a
    text with microseconds next to one without, whose fraction is ignored. *)
Theorem text_order t t' : datetime t -> datetime t' ->
  str_ltb (utc_text t) (utc_text t') = (t / second <? t' / second)
  /\ str_leb (utc_text_micro t) (utc_text t') = (t / second <=? t' / second)
  /\ str_ltb (utc_text t) (utc_text_micro t') = (t / second <? t' / second).
Proof.
  intros H H'. unfold str_leb, utc_text, utc_text_micro. rewrite !isoformat_order by done. simpl.
  unfold lexb. rewrite !andb_false_r, !orb_false_r, Z.leb_antisym. done.
Qed.

Lemma text_order_witness :
  let t := days_before_year 2025 * day in
  datetime t /\ str_ltb (utc_text t) (utc_text (t + second)) = true.
Proof.
  intros t. split; [by split; vm_compute|].
  destruct (text_order t (t + second)) as [H _]; [by split; vm_compute|by split; vm_compute|].
  rewrite H. vm_compute. reflexivity.
Defined.
