(* ===== verification/JsonParse.v ===== *)
(** * Reading JSON text: [json.loads] and its inverse law

    [loads] is the decoder of Python's standard library as
    controller/deployment_config.py uses it: strict strings, an error for a
    repeated key ([object_pairs_hook]) and for [NaN] and the infinities
    ([parse_constant]).  A number with a fraction or an exponent and a [\u]
    escape above U+00FF are outside the model and are refused.

    [loads_dumps]: decoding the encoder's text gives the encoded value, with
    its keys in sorted order. *)

From stdpp Require Import pretty.
From S2P Require Import Prelude Regex Json.

(** ** The decoder *)

Definition json_space (a : ascii) : bool := one_of (String " " (String "009" (String "010" (String "013" "")))) a.

Fixpoint skip_space (s : string) : string :=
  match s with
  | String a s' => if json_space a then skip_space s' else s
  | EmptyString => ""
  end.

Definition nibble (a : ascii) : option Z :=
  let c := code a in
  if digit a then Some (c - 48)
  else if (97 <=? c) && (c <=? 102) then Some (c - 87)
  else if (65 <=? c) && (c <=? 70) then Some (c - 55)
  else None.

Definition simple_escape (a : ascii) : option ascii :=
  let c := code a in
  if (c =? 34) || (c =? 92) || (c =? 47) then Some a
  else if c =? 98 then Some (chr 8)
  else if c =? 102 then Some (chr 12)
  else if c =? 110 then Some (chr 10)
  else if c =? 114 then Some (chr 13)
  else if c =? 116 then Some (chr 9)
  else None.

(** One character of a string literal: the closing quote is [None]. *)
Definition scan_char (s : string) : option (option ascii * string) :=
  match s with
  | String a r =>
      if code a =? 34 then Some (None, r)
      else if code a =? 92 then
        match r with
        | String e r1 =>
            if code e =? 117 then
              match r1 with
              | String h1 (String h2 (String h3 (String h4 r2))) =>
                  match nibble h1, nibble h2, nibble h3, nibble h4 with
                  | Some 0, Some 0, Some c, Some d => Some (Some (chr (16 * c + d)), r2)
                  | _, _, _, _ => None
                  end
              | _ => None
              end
            else match simple_escape e with Some b => Some (Some b, r1) | None => None end
        | EmptyString => None
        end
      else if code a <? 32 then None else Some (Some a, r)
  | EmptyString => None
  end.

(** The rest of a string literal, after its opening quote. *)
Fixpoint scan_string (n : nat) (s : string) : option (string * string) :=
  match n with
  | O => None
  | S n' =>
      match scan_char s with
      | Some (None, r) => Some ("", r)
      | Some (Some a, r) => '(t, r') ← scan_string n' r; Some (String a t, r')
      | None => None
      end
  end.

Fixpoint span_digits (s : string) : string * string :=
  match s with
  | String a s' => if digit a then let (d, r) := span_digits s' in (String a d, r) else ("", s)
  | EmptyString => ("", "")
  end.

Fixpoint decimal (acc : N) (s : string) : N :=
  match s with
  | EmptyString => acc
  | String a s' => decimal (10 * acc + (N_of_ascii a - 48)) s'
  end.

(** What may follow an integer: a fraction or an exponent makes it a float. *)
Definition float_mark (r : string) : bool :=
  match r with String a _ => one_of ".eE" a | EmptyString => false end.

(** An unsigned integer without leading zeros; [int()] refuses more than 4300
    digits. *)
Definition scan_natural (s : string) : option (N * string) :=
  match s with
  | String a r =>
      if code a =? 48 then if float_mark r then None else Some (0%N, r)
      else
        let (d, r') := span_digits s in
        if String.eqb d "" || (4300 <? String.length d)%nat || float_mark r' then None
        else Some (decimal 0 d, r')
  | EmptyString => None
  end.

Definition scan_number (s : string) : option (json * string) :=
  match s with
  | String a r =>
      if code a =? 45 then '(n, r') ← scan_natural r; Some (JInt (- Z.of_N n), r')
      else '(n, r') ← scan_natural s; Some (JInt (Z.of_N n), r')
  | EmptyString => None
  end.

(** [s.startswith(word)], and what follows. *)
Fixpoint after_word (word s : string) : option string :=
  match word, s with
  | EmptyString, _ => Some s
  | String a w, String b s' => if Ascii.eqb a b then after_word w s' else None
  | _, EmptyString => None
  end.

Definition scan_word (s : string) : option (json * string) :=
  match after_word "null" s, after_word "true" s, after_word "false" s with
  | Some r, _, _ => Some (JNull, r)
  | _, Some r, _ => Some (JBool true, r)
  | _, _, Some r => Some (JBool false, r)
  | _, _, _ => scan_number s
  end.

(** [fuel] bounds the number of nested calls; two calls per character
    are enough. *)
Fixpoint scan_value (n : nat) (s : string) : option (json * string) :=
  match n with
  | O => None
  | S n' =>
      match s with
      | String a r =>
          if code a =? 34 then '(t, r') ← scan_string n' r; Some (JStr t, r')
          else if code a =? 91 then
            match skip_space r with
            | String b r' =>
                if code b =? 93 then Some (JArr [], r')
                else '(l, r'') ← scan_items n' (skip_space r); Some (JArr l, r'')
            | EmptyString => None
            end
          else if code a =? 123 then
            match skip_space r with
            | String b r' =>
                if code b =? 125 then Some (JObj [], r')
                else '(d, r'') ← scan_members n' (skip_space r);
                     if bool_decide (NoDup (dict_keys d)) then Some (JObj d, r'') else None
            | EmptyString => None
            end
          else scan_word s
      | EmptyString => None
      end
  end
with scan_items (n : nat) (s : string) : option (list json * string) :=
  match n with
  | O => None
  | S n' =>
      '(v, r) ← scan_value n' s;
      match skip_space r with
      | String b r' =>
          if code b =? 93 then Some ([v], r')
          else if code b =? 44 then
            '(l, r'') ← scan_items n' (skip_space r'); Some (v :: l, r'')
          else None
      | EmptyString => None
      end
  end
with scan_members (n : nat) (s : string) : option (dict * string) :=
  match n with
  | O => None
  | S n' =>
      match s with
      | String q r =>
          if negb (code q =? 34) then None else
          '(k, r1) ← scan_string n' r;
          match skip_space r1 with
          | String c r2 =>
              if negb (code c =? 58) then None else
              '(v, r3) ← scan_value n' (skip_space r2);
              match skip_space r3 with
              | String b r4 =>
                  if code b =? 125 then Some ([(k, v)], r4)
                  else if code b =? 44 then
                    '(d, r5) ← scan_members n' (skip_space r4); Some ((k, v) :: d, r5)
                  else None
              | EmptyString => None
              end
          | EmptyString => None
          end
      | EmptyString => None
      end
  end.

Definition loads (s : string) : option json :=
  match scan_value (S (2 * String.length s)) (skip_space s) with
  | Some (v, r) => if String.eqb (skip_space r) "" then Some v else None
  | None => None
  end.

(** ** Decoding what the encoder wrote *)

(** Values the encoder writes and the decoder accepts: keys are unique at every
    depth and no integer has more than 4300 digits. *)
Fixpoint encodable (v : json) : Prop :=
  match v with
  | JInt z => (String.length (pretty (Z.to_N (Z.abs z))) <= 4300)%nat
  | JArr l => (fix go l := match l with [] => True | x :: l' => encodable x /\ go l' end) l
  | JObj d => NoDup (dict_keys d)
      /\ (fix go d := match d with [] => True | x :: d' => encodable x.2 /\ go d' end) d
  | _ => True
  end.

Lemma encodable_arr l : encodable (JArr l) <-> Forall encodable l.
Proof.
  simpl. induction l as [|x l IH]; [done|]. rewrite Forall_cons, IH. done.
Qed.

Lemma encodable_obj d :
  encodable (JObj d) <-> NoDup (dict_keys d) /\ Forall (fun kv => encodable kv.2) d.
Proof.
  simpl. apply and_iff_compat_l. induction d as [|x d IH]; [done|]. rewrite Forall_cons, IH. done.
Qed.

(** What may follow a value in encoded text. *)
Definition delimited (r : string) : bool :=
  match r with String a _ => negb (digit a || one_of ".eE" a) | EmptyString => true end.

Lemma scan_escaped a r : scan_char (escape_char a +:+ r) = Some (Some a, r).
Proof. destruct a as [[] [] [] [] [] [] [] []]; reflexivity. Qed.

Lemma scan_string_escape s r n :
  (String.length s < n)%nat ->
  scan_string n (escape s +:+ quote +:+ r) = Some (s, r).
Proof.
  revert n. induction s as [|a s IH]; intros [|n] Hn; cbn [escape String.length] in *; try lia; [done|].
  rewrite <- str_app_assoc. cbn [scan_string]. rewrite scan_escaped, IH by lia. done.
Qed.

(** *** Integers *)

Lemma decimal_app acc a b : decimal acc (a +:+ b) = decimal (decimal acc a) b.
Proof. revert acc. induction a as [|c a IH]; intros acc; simpl; [done|apply IH]. Qed.

Definition digits (s : string) : Prop := forallb digit (list_ascii_of_string s) = true.

Lemma pretty_char_digit x : (x < 10)%N ->
  digit (pretty_N_char x) = true /\ (N_of_ascii (pretty_N_char x) - 48 = x)%N
  /\ (x <> 0%N -> (code (pretty_N_char x) =? 48) = false) /\ code (pretty_N_char x) <> 45.
Proof.
  intros Hx.
  assert (x = 0 ∨ x = 1 ∨ x = 2 ∨ x = 3 ∨ x = 4 ∨ x = 5 ∨ x = 6 ∨ x = 7 ∨ x = 8 ∨ x = 9)%N
    as H by lia.
  repeat destruct H as [->|H]; [..|subst]; vm_compute; (split_and!; [done..|congruence|congruence]).
Qed.

Lemma pretty_go_digits x s :
  digits s -> digits (pretty_N_go x s) /\ decimal 0 (pretty_N_go x s) = decimal x s.
Proof.
  revert s. induction (N.lt_wf_0 x) as [x _ IH]; intros s Hs.
  destruct (decide (x = 0%N)) as [->|Hx]; [done|].
  rewrite pretty_N_go_step by lia.
  destruct (pretty_char_digit (x mod 10)) as (Hd & Hv & _); [apply N.mod_lt; lia|].
  destruct (IH (x / 10)%N ltac:(apply N.div_lt; lia) (String (pretty_N_char (x mod 10)) s))
    as [Hd' Hv']; [unfold digits in *; simpl; by rewrite Hd|].
  split; [done|]. rewrite Hv'. simpl. rewrite Hv. f_equal. symmetry. apply (N.div_mod x 10). lia.
Qed.

Lemma pretty_go_head x s : (0 < x)%N ->
  exists a t, pretty_N_go x s = String a t /\ (code a =? 48) = false /\ digit a = true
    /\ code a <> 45.
Proof.
  revert s. induction (N.lt_wf_0 x) as [x _ IH]; intros s Hx.
  rewrite pretty_N_go_step by lia.
  destruct (decide (x / 10 = 0)%N) as [E|E].
  - rewrite E. assert (x < 10)%N as Hlt by (apply N.div_small_iff in E; lia).
    rewrite N.mod_small by done.
    destruct (pretty_char_digit x Hlt) as (Hd & _ & Hz & Hm). eexists _, _. split; [done|].
    split_and!; auto. apply Hz. lia.
  - apply IH; [by apply N.div_lt|by apply N.neq_0_lt_0].
Qed.

Lemma span_digits_app d r :
  digits d -> delimited r = true -> span_digits (d +:+ r) = (d, r).
Proof.
  intros Hd Hr. induction d as [|a d IH]; simpl.
  - destruct r as [|b r]; [done|]. simpl in *. by destruct (digit b).
  - unfold digits in Hd. simpl in Hd. apply andb_true_iff in Hd as [-> Hd]. by rewrite IH.
Qed.

Lemma delimited_mark r : delimited r = true -> float_mark r = false.
Proof. destruct r as [|a r]; [done|]. simpl. by destruct (digit a), (one_of _ a). Qed.

Lemma scan_natural_pretty n r :
  (String.length (pretty n) <= 4300)%nat -> delimited r = true ->
  scan_natural (pretty n +:+ r) = Some (n, r).
Proof.
  unfold pretty, pretty_N. intros Hl Hr. destruct (decide (n = 0%N)) as [->|Hn].
  { cbn. by rewrite delimited_mark. }
  destruct (pretty_go_digits n "" eq_refl) as [Hd Hv].
  destruct (pretty_go_head n "") as (a & t & Ht & Ha & _); [lia|].
  pose proof (span_digits_app _ _ Hd Hr) as Hspan. rewrite Ht in *.
  cbn [String.append] in *. cbn [scan_natural]. rewrite Ha, Hspan.
  assert ((4300 <? String.length (String a t))%nat = false) as -> by (apply Nat.ltb_ge; lia).
  rewrite delimited_mark by done. cbn [String.eqb orb]. by rewrite Hv.
Qed.

Lemma digit_no_word a t : digit a = true \/ code a = 45 ->
  scan_word (String a t) = scan_number (String a t).
Proof.
  intros Ha. unfold scan_word. cbn [after_word].
  assert (Ascii.eqb "n" a = false /\ Ascii.eqb "t" a = false /\ Ascii.eqb "f" a = false)
    as (-> & -> & ->); [|done].
  destruct Ha as [Ha|Ha]; split_and!; apply Ascii.eqb_neq; intros <-; discriminate.
Qed.

(** *** Values *)

Definition opens (a : ascii) : bool :=
  negb (json_space a) && negb (code a =? 93) && negb (code a =? 125).

Lemma dumps_opens v : exists a t, dumps v = String a t /\ opens a = true.
Proof.
  destruct v as [|[]|z|s|l|d]; try by eexists _, _.
  unfold dumps. cbn. destruct z as [|p|p]; [by eexists _, _| |by eexists _, _].
  destruct (pretty_go_head (N.pos p) "") as (a & t & Ht & _ & Ha & _); [lia|].
  exists a, t. split; [exact Ht|]. destruct a as [[] [] [] [] [] [] [] []]; done.
Qed.

Lemma skip_opens v r : skip_space (dumps v +:+ r) = dumps v +:+ r.
Proof.
  destruct (dumps_opens v) as (a & t & -> & Ha). simpl.
  unfold opens in Ha. by destruct (json_space a).
Qed.

Definition reads_back (v : json) : Prop := forall n r,
  encodable v -> (2 * String.length (dumps v) <= n)%nat -> delimited r = true ->
  scan_value n (dumps v +:+ r) = Some (canonical v, r).

Lemma reads_back_int z : reads_back (JInt z).
Proof.
  intros n r He Hn Hr. destruct n as [|n].
  { destruct (dumps_opens (JInt z)) as (a & t & E & _). rewrite E in Hn. simpl in Hn. lia. }
  assert (Hscan : forall m, (String.length (pretty m) <= 4300)%nat ->
    scan_natural (pretty m +:+ r) = Some (m, r)) by (intros; by apply scan_natural_pretty).
  simpl in He. destruct z as [|p|p].
  - cbn. by rewrite delimited_mark.
  - simpl in He. specialize (Hscan (N.pos p) He).
    change (dumps (JInt (Z.pos p))) with (pretty (N.pos p)).
    destruct (pretty_go_head (N.pos p) "") as (a & t & Ht & _ & Ha & Hm); [lia|].
    change (pretty (N.pos p)) with (pretty_N_go (N.pos p) "") in *. rewrite Ht in *.
    cbn [String.append] in *. cbn [scan_value].
    assert (code a <> 34 /\ code a <> 91 /\ code a <> 123) as (H1 & H2 & H3)
      by (destruct a as [[] [] [] [] [] [] [] []]; try discriminate Ha; vm_compute; split_and!; congruence).
    apply Z.eqb_neq in H1, H2, H3, Hm. rewrite H1, H2, H3, digit_no_word by auto.
    unfold scan_number. rewrite Hm, Hscan. done.
  - simpl in He. specialize (Hscan (N.pos p) He).
    change (dumps (JInt (Z.neg p))) with (String "-" (pretty (N.pos p))).
    cbn [String.append scan_value].
    change (code "-" =? 34) with false. change (code "-" =? 91) with false.
    change (code "-" =? 123) with false. cbv iota.
    rewrite digit_no_word by (by right). unfold scan_number.
    change (code "-" =? 45) with true. cbv iota. rewrite Hscan. done.
Qed.

Lemma escape_length s : (String.length s <= String.length (escape s))%nat.
Proof.
  induction s as [|a s IH]; [done|]. cbn [escape]. rewrite str_length_app.
  assert (1 <= String.length (escape_char a))%nat
    by (destruct a as [[] [] [] [] [] [] [] []]; vm_compute; lia). simpl. lia.
Qed.

Lemma reads_back_string s n r : (2 * String.length (dumps (JStr s)) <= n)%nat ->
  scan_value n (dumps (JStr s) +:+ r) = Some (JStr s, r).
Proof.
  intros Hn. destruct n as [|n]; [simpl in Hn; lia|].
  cbn [dumps] in *. unfold dumps_string in *. simpl in Hn.
  change (quote +:+ escape s +:+ quote) with (String (chr 34) (escape s +:+ quote)).
  cbn [String.append scan_value]. change (code (chr 34) =? 34) with true. cbv iota.
  rewrite <- str_app_assoc, scan_string_escape; [done|].
  pose proof (escape_length s). rewrite str_length_app in Hn. lia.
Qed.

Lemma comma_length x : String.length ("," +:+ x) = S (String.length x).
Proof. done. Qed.

Lemma join_cons x l : join "," (x :: l) = x +:+ (match l with [] => "" | _ => "," +:+ join "," l end).
Proof. destruct l; simpl; [|done]. by rewrite str_app_nil_r. Qed.

Lemma items_read_back l n r :
  l <> [] -> Forall reads_back l -> Forall encodable l ->
  (2 * String.length (join "," (map dumps l)) < n)%nat ->
  scan_items n (join "," (map dumps l) +:+ "]" +:+ r) = Some (map canonical l, r).
Proof.
  intros Hne Hl He. revert n Hne. induction Hl as [|v l Hv Hl IH]; intros n Hne Hn; [done|].
  apply Forall_cons in He as [Hev He]. destruct n as [|n]; [lia|].
  cbn [map] in *. rewrite join_cons in *. rewrite str_length_app in Hn. rewrite <- str_app_assoc.
  cbn [scan_items]. destruct l as [|w l].
  - cbn [map]. change ("" +:+ "]" +:+ r) with ("]" +:+ r).
    rewrite Hv by (done || lia). done.
  - rewrite Hv; [|done|lia|done]. cbn [map]. cbn [mbind option_bind].
    change (("," +:+ join "," (dumps w :: map dumps l)) +:+ "]" +:+ r)
      with (String "," (join "," (dumps w :: map dumps l) +:+ "]" +:+ r)).
    cbn [skip_space]. change (json_space ",") with false. cbv iota.
    change (code "," =? 93) with false. change (code "," =? 44) with true. cbv iota.
    assert (Hskip : skip_space (join "," (dumps w :: map dumps l) +:+ "]" +:+ r)
      = join "," (dumps w :: map dumps l) +:+ "]" +:+ r)
      by (rewrite join_cons, <- str_app_assoc; apply skip_opens).
    rewrite Hskip. change (dumps w :: map dumps l) with (map dumps (w :: l)) in *.
    rewrite IH; [done|done|done|].
    cbn [map] in Hn |- *. rewrite comma_length in Hn. lia.
Qed.

Definition member_text (kv : string * string) : string := dumps_string kv.1 +:+ ":" +:+ kv.2.

Lemma member_length kv : (String.length kv.1 + String.length kv.2 + 3 <= String.length (member_text kv))%nat.
Proof.
  unfold member_text, dumps_string. pose proof (escape_length kv.1).
  rewrite !str_length_app. change (String.length quote) with 1%nat.
  change (String.length ":") with 1%nat. lia.
Qed.

Lemma member_reads_back n k v r :
  reads_back v -> encodable v -> delimited r = true ->
  (2 * String.length (member_text (k, dumps v)) <= n)%nat ->
  scan_members (S n) (member_text (k, dumps v) +:+ r) =
    match skip_space r with
    | String b r4 =>
        if code b =? 125 then Some ([(k, canonical v)], r4)
        else if code b =? 44 then
          '(d, r5) ← scan_members n (skip_space r4); Some ((k, canonical v) :: d, r5)
        else None
    | EmptyString => None
    end.
Proof.
  intros Hv He Hr Hn. pose proof (member_length (k, dumps v)) as Hlen. cbn [fst snd] in Hlen.
  unfold member_text, dumps_string. cbn [fst snd].
  change ((quote +:+ escape k +:+ quote) +:+ ":" +:+ dumps v)
    with (String (chr 34) ((escape k +:+ quote) +:+ ":" +:+ dumps v)).
  cbn [String.append scan_members]. change (code (chr 34) =? 34) with true. cbn [negb].
  rewrite <- !str_app_assoc, scan_string_escape by lia. cbn [mbind option_bind].
  change (String ":" (dumps v) +:+ r) with (String ":" (dumps v +:+ r)).
  cbn [skip_space]. change (json_space ":") with false. cbv iota.
  change (code ":" =? 58) with true. cbn [negb]. rewrite skip_opens, Hv by (done || lia).
  done.
Qed.

Lemma members_read_back d n r :
  d <> [] -> Forall (fun kv => reads_back kv.2) d -> Forall (fun kv => encodable kv.2) d ->
  let text := join "," (map member_text (map (fun kv => (kv.1, dumps kv.2)) d)) in
  (2 * String.length text < n)%nat ->
  scan_members n (text +:+ "}" +:+ r) = Some (map (fun kv => (kv.1, canonical kv.2)) d, r).
Proof.
  intros Hne Hd He. revert n Hne. induction Hd as [|[k v] d Hv Hd IH]; intros n Hne text Hn; [done|].
  apply Forall_cons in He as [Hev He]. destruct n as [|n]; [lia|]. subst text.
  cbn [map fst snd] in *. rewrite join_cons in *. rewrite str_length_app in Hn.
  rewrite <- str_app_assoc. destruct d as [|[k' w] d].
  - cbn [map]. change ("" +:+ "}" +:+ r) with (String "}" r).
    rewrite member_reads_back by (done || lia). done.
  - cbn [map fst snd] in *.
    set (rest := member_text (k', dumps w) :: _) in *.
    change (("," +:+ join "," rest) +:+ "}" +:+ r) with (String "," (join "," rest +:+ "}" +:+ r)).
    rewrite member_reads_back by (done || lia).
    cbn [skip_space]. change (json_space ",") with false. cbv iota.
    change (code "," =? 125) with false. change (code "," =? 44) with true. cbv iota.
    assert (Hskip : skip_space (join "," rest +:+ "}" +:+ r) = join "," rest +:+ "}" +:+ r).
    { unfold rest. rewrite join_cons, <- str_app_assoc. done. }
    rewrite Hskip, IH; [done|done|done|]. rewrite comma_length in Hn. lia.
Qed.

Lemma canonical_keys d :
  dict_keys (map (fun kv : string * json => (kv.1, canonical kv.2)) d) = dict_keys d.
Proof. unfold dict_keys. rewrite map_map. done. Qed.

Lemma value_reads_back v : reads_back v.
Proof.
  induction v as [|b|z|s|l IH|d IH] using json_nested_ind; intros n r He Hn Hr.
  - destruct n as [|n]; [simpl in Hn; lia|done].
  - destruct b, n as [|n]; (simpl in Hn; lia) || done.
  - by apply reads_back_int.
  - by apply reads_back_string.
  - apply encodable_arr in He. destruct n as [|n]; [simpl in Hn; lia|].
    cbn [dumps canonical]. destruct l as [|v l]; [done|].
    change ("[" +:+ join "," (map dumps (v :: l)) +:+ "]")
      with (String "[" (join "," (map dumps (v :: l)) +:+ "]")).
    cbn [dumps] in Hn. rewrite !str_length_app in Hn. cbn [String.append scan_value].
    change (code "[" =? 34) with false. change (code "[" =? 91) with true. cbv iota.
    rewrite <- str_app_assoc.
    assert (Hskip : skip_space (join "," (map dumps (v :: l)) +:+ "]" +:+ r)
      = join "," (map dumps (v :: l)) +:+ "]" +:+ r)
      by (cbn [map]; rewrite join_cons, <- str_app_assoc; apply skip_opens).
    rewrite Hskip. rewrite items_read_back by (done || (simpl in Hn |- *; lia)).
    cbn [map]. rewrite join_cons, <- str_app_assoc.
    destruct (dumps_opens v) as (a & t & -> & Ha). cbn [String.append].
    unfold opens in Ha. apply andb_true_iff in Ha as [[_ Ha]%andb_true_iff _].
    apply negb_true_iff in Ha as ->. done.
  - apply encodable_obj in He as [Hnd He]. destruct n as [|n]; [simpl in Hn; lia|].
    cbn [dumps canonical] in *. rewrite !sort_items_map in *.
    pose proof (sort_items_perm d) as Hp.
    set (e := sort_items d) in *. clearbody e.
    rewrite <- Hp in He, IH.
    assert (Hnd' : NoDup (dict_keys e)) by (unfold dict_keys in *; by rewrite Hp). clear Hp Hnd.
    fold member_text in *. change (fun kv : string * string => dumps_string kv.1 +:+ ":" +:+ kv.2)
      with member_text in *.
    destruct e as [|[k v] e]; [done|].
    set (text := join "," (map member_text (map (fun kv => (kv.1, dumps kv.2)) ((k, v) :: e)))) in *.
    change ("{" +:+ text +:+ "}") with (String "{" (text +:+ "}")).
    rewrite !str_length_app in Hn. cbn [String.append scan_value].
    change (code "{" =? 34) with false. change (code "{" =? 91) with false.
    change (code "{" =? 123) with true. cbv iota. rewrite <- str_app_assoc.
    assert (Hskip : skip_space (text +:+ "}" +:+ r) = text +:+ "}" +:+ r).
    { unfold text. cbn [map]. rewrite join_cons, <- str_app_assoc. done. }
    rewrite Hskip. change (String.length "{") with 1%nat in Hn. change (String.length "}") with 1%nat in Hn.
    unfold text. rewrite members_read_back; [|done..|fold text; lia].
    cbn [map]. rewrite join_cons, <- str_app_assoc. unfold member_text at 1.
    cbn [fst snd]. unfold dumps_string. cbn [String.append quote].
    change (code (chr 34) =? 125) with false. cbv iota. cbn [mbind option_bind].
    rewrite bool_decide_true; [done|]. 
    change (NoDup (dict_keys (map (fun kv : string * json => (kv.1, canonical kv.2)) ((k, v) :: e)))).
    by rewrite canonical_keys.
Qed.

(** Decoding the encoder's text gives the encoded value, with sorted keys. *)
Lemma loads_dumps v : encodable v -> loads (dumps v) = Some (canonical v).
Proof.
  intros He. unfold loads. rewrite <- (str_app_nil_r (dumps v)).
  rewrite skip_opens, value_reads_back; [done|done| |done].
  rewrite str_length_app. simpl. lia.
Qed.
