(* ===== verification/Validation.v ===== *)
(** * Strict validators (src/openstack_platform/validation.py)

    Each validator takes an arbitrary Python object and returns the accepted
    text or raises [ValidationError].  The regular expressions are those of the
    module, read by the matcher of [Regex]. *)

From S2P Require Import Prelude Regex Json.

(** ** Patterns *)

Definition slug_char : ascii -> bool := either lower (either digit (is_char "-")).
Definition lower_alnum : ascii -> bool := either lower digit.
Definition alnum : ascii -> bool := either lower (either upper digit).

Definition _SLUG : re :=
  Cat (Cls lower) (Cat (Rep 1 (Some 38%nat) true (Cls slug_char)) (Cls lower_alnum)).
Definition _RESOURCE_NAME : re :=
  Alt (Cat (Cls lower) (Cat (Rep 0 (Some 38%nat) true (Cls slug_char)) (Cls lower_alnum)))
      (Cls lower).
Definition _COMMIT : re := Times 40 (Cls hexdigit).
Definition _ENV_KEY : re :=
  Cat (Cls upper) (Rep 0 (Some 127%nat) true (Cls (either upper (either digit (is_char "_"))))).
Definition _SCRIPT_NAME : re :=
  Cat (Cls alnum) (Rep 0 (Some 127%nat) true (Cls (either alnum (one_of ":._-")))).
Definition _SAFE_CODE : re :=
  Cat (Cls upper) (Rep 0 (Some 63%nat) true (Cls (either upper (either digit (is_char "_"))))).
Definition _SHA256_HEX : re := Times 64 (Cls hexdigit).
Definition _OPENSTACK_UUID_HEX : re := Times 32 (Cls hexdigit).
Definition reference_char (a : ascii) : bool := negb (whitespace a || is_char "/" a || is_char "@" a).
Definition _OCI_DIGEST : re :=
  Cat (Plus (Cls reference_char))
  (Cat (Plus (Cat (Cls (is_char "/")) (Plus (Cls reference_char))))
  (Cat (lit "@sha256:") (Times 64 (Cls hexdigit)))).
Definition _AGE_RECIPIENT : re :=
  Cat (lit "age1") (Times 58 (Cls (one_of "023456789acdefghjklmnpqrstuvwxyz"))).
Definition _FLAVOR : re :=
  Cat (Cls alnum) (Rep 0 (Some 254%nat) true (Cls (either alnum (one_of "._-")))).

(** ** Text helpers *)

(** [needle in s] *)
Fixpoint contains (needle s : string) : bool :=
  String.prefix needle s ||
  match s with EmptyString => false | String _ s' => contains needle s' end.

Definition startswith (s prefix : string) : bool := String.prefix prefix s.

(** [s.split("/")] for a one-character separator. *)
Fixpoint split_on (sep : ascii) (s : string) : list string :=
  match s with
  | EmptyString => [""]
  | String a s' =>
      if Ascii.eqb a sep then "" :: split_on sep s'
      else match split_on sep s' with
           | x :: l => String a x :: l
           | [] => [String a ""]
           end
  end.

(** [PurePosixPath(value).parts] below the root, and [str] of it. *)
Definition path_parts (s : string) : list string :=
  List.filter (fun x => negb (String.eqb x "" || String.eqb x ".")) (split_on "/" s).
Definition is_absolute (s : string) : bool := startswith s "/".
Definition path_str (s : string) : string :=
  match path_parts s with [] => "." | l => join "/" l end.

(** ** Validators *)

Definition matching (r : re) (message : string) (value : json) : result string :=
  match value with
  | JStr s => if fullmatch r s then Ok s else Raise (ValidationError message)
  | _ => Raise (ValidationError message)
  end.

Definition slug (value : json) : result string :=
  s ← matching _SLUG "slug must be 3-40 lowercase letters, numbers, or interior hyphens" value;
  if contains "--" s then Raise (ValidationError "slug must not contain consecutive hyphens")
  else Ok s.

Definition resource_name (value : json) : result string :=
  s ← matching _RESOURCE_NAME
        "resource name must be 1-40 lowercase letters, numbers, or interior hyphens" value;
  if contains "--" s
  then Raise (ValidationError "resource name must not contain consecutive hyphens")
  else Ok s.

(** [uuid_module.UUID(value)] keeps the 128-bit number of the 32 hexadecimal
    digits left after the hyphens are dropped; the other spellings it accepts
    (braces, urn:, underscores, upper case) never print back as [value], so they
    end in the same error. *)
Definition hex_value (a : ascii) : option Z :=
  if digit a then Some (code a - 48)
  else if rng "a" "f" a then Some (code a - 87)
  else if rng "A" "F" a then Some (code a - 55)
  else None.

Fixpoint hex_int (acc : Z) (l : list ascii) : option Z :=
  match l with
  | [] => Some acc
  | a :: l' => v ← hex_value a; hex_int (acc * 16 + v) l'
  end.

Fixpoint hex_digits (n : nat) (z : Z) (acc : list ascii) : list ascii :=
  match n with
  | O => acc
  | S n' => hex_digits n' (z / 16) (hex_char (z mod 16) :: acc)
  end.

Definition dash_positions (l : list ascii) : list ascii :=
  take 8 l ++ ["-"%char] ++ take 4 (drop 8 l) ++ ["-"%char] ++ take 4 (drop 12 l)
  ++ ["-"%char] ++ take 4 (drop 16 l) ++ ["-"%char] ++ drop 20 l.

Definition uuid_str (z : Z) : string :=
  string_of_list_ascii (dash_positions (hex_digits 32 z [])).

Definition uuid_int (s : string) : option Z :=
  let l := List.filter (fun a => negb (is_char "-" a)) (list_ascii_of_string s) in
  if Nat.eqb (length l) 32 then hex_int 0 l else None.

Definition uuid (value : json) : result string :=
  match value with
  | JStr s =>
      match uuid_int s with
      | None => Raise (ValidationError "must be a canonical UUID")
      | Some parsed =>
          if String.eqb (uuid_str parsed) s then Ok s
          else Raise (ValidationError "must be a canonical lowercase UUID")
      end
  | _ => Raise (ValidationError "must be a canonical UUID")
  end.

Definition openstack_uuid (value : json) : result string :=
  match value with
  | JStr s =>
      if fullmatch _OPENSTACK_UUID_HEX s then
        match uuid_int s with
        | Some z => Ok (uuid_str z)
        | None => Raise ValueError
        end
      else uuid value
  | _ => uuid value
  end.

Definition flavor_reference (value : json) : result string :=
  matching _FLAVOR "flavor must be 1-255 letters, digits, dots, underscores or hyphens" value.

Definition commit (value : json) : result string :=
  matching _COMMIT "commit must be exactly 40 lowercase hexadecimal characters" value.

Definition env_key (value : json) : result string :=
  matching _ENV_KEY "environment key must start with A-Z and contain only A-Z, 0-9, or _" value.

Definition script_name (value : json) : result string :=
  matching _SCRIPT_NAME "script name contains unsupported characters" value.

Definition safe_code (value : json) : result string :=
  matching _SAFE_CODE "error code is malformed" value.

Definition sha256_hex (value : json) : result string :=
  matching _SHA256_HEX "must be 64 lowercase hexadecimal characters" value.

Definition age_recipient (value : json) : result string :=
  matching _AGE_RECIPIENT "backupAgeRecipient must be a canonical age recipient" value.

Definition oci_digest_pin (value : json) : result string :=
  match value with
  | JStr s =>
      if (512 <? String.length s)%nat then
        Raise (ValidationError "must be an image@sha256 digest pin")
      else matching _OCI_DIGEST "must be an image@sha256 digest pin" value
  | _ => Raise (ValidationError "must be an image@sha256 digest pin")
  end.

Definition relative_path (allow_dot : bool) (value : json) : result string :=
  match value with
  | JStr s =>
      if String.eqb s "" || (1024 <? utf8_length s) then
        Raise (ValidationError "must be a non-empty repository-relative path")
      else if contains (String (chr 92) "") s || contains (String (chr 0) "") s then
        Raise (ValidationError "contains unsupported characters")
      else if is_absolute s || bool_decide (".."%string ∈ path_parts s) then
        Raise (ValidationError "must remain inside the repository")
      else if String.eqb (path_str s) "." && negb allow_dot then
        Raise (ValidationError "must name a file below the repository root")
      else if startswith s "./" || contains "//" s then
        Raise (ValidationError "must be normalized")
      else Ok (path_str s)
  | _ => Raise (ValidationError "must be a non-empty repository-relative path")
  end.

Definition health_path (value : json) : result string :=
  match value with
  | JStr s =>
      if negb ((1 <=? String.length s)%nat && (String.length s <=? 256)%nat) then
        Raise (ValidationError "health path is malformed")
      else if negb (startswith s "/") || startswith s "//" || contains "?" s || contains "#" s
      then Raise (ValidationError "health path must be an absolute path without query or fragment")
      else if existsb (fun a => (code a <? 33) || (126 <? code a)) (list_ascii_of_string s) then
        Raise (ValidationError "health path contains unsupported characters")
      else if bool_decide (".."%string ∈ path_parts s) || contains (String (chr 92) "") s then
        Raise (ValidationError "health path must be normalized")
      else Ok s
  | _ => Raise (ValidationError "health path is malformed")
  end.

Definition bounded_text (maximum : Z) (value : json) : result string :=
  match value with
  | JStr s =>
      if contains (String (chr 0) "") s then
        Raise (ValidationError "must be text without NUL bytes")
      else if maximum <? utf8_length s then Raise (ValidationError "exceeds its byte limit")
      else Ok s
  | _ => Raise (ValidationError "must be text without NUL bytes")
  end.

(** ** Repository addresses *)

Definition endswith (s suffix : string) : bool :=
  (String.length suffix <=? String.length s)%nat
  && String.eqb (String.substring (String.length s - String.length suffix) (String.length suffix) s)
       suffix.

Definition _GITHUB_COMPONENT : re :=
  Cat (Cls alnum) (Opt (Cat (Rep 0 (Some 98%nat) true (Cls (either alnum (one_of "._-")))) (Cls alnum))).

Fixpoint drop_while (f : ascii -> bool) (l : list ascii) : list ascii :=
  match l with a :: l' => if f a then drop_while f l' else l | [] => [] end.

(** The text before the first character of [stop], and the rest from it on *)
Fixpoint break_at (stop : ascii -> bool) (l : list ascii) : list ascii * list ascii :=
  match l with
  | a :: l' => if stop a then ([], l) else let (x, y) := break_at stop l' in (a :: x, y)
  | [] => ([], [])
  end.

Definition scheme_char : ascii -> bool := either alnum (one_of "+-.").

(** [urlsplit]: scheme, netloc, path, query and fragment.  Its own [ValueError]
    for a netloc with malformed brackets or characters is not kept: the caller
    refuses such a netloc with a subclass of it. *)
Definition urlsplit (s : string) : string * string * string * string * string :=
  let l := List.filter (fun a => negb ((code a =? 9) || (code a =? 10) || (code a =? 13)))
             (drop_while (fun a => code a <=? 32) (list_ascii_of_string s)) in
  let (name, after) := break_at (is_char ":") l in
  let '(scheme, url) :=
    match name, after with
    | a :: _, _ :: rest =>
        if either lower upper a && forallb scheme_char name then (map lower_char name, rest) else ([], l)
    | _, _ => ([], l)
    end in
  let '(netloc, url) :=
    match url with
    | a :: b :: rest => if is_char "/" a && is_char "/" b then break_at (one_of "/?#") rest else ([], url)
    | _ => ([], url)
    end in
  let (url, fragment) := break_at (is_char "#") url in
  let (path, query) := break_at (is_char "?") url in
  let text := string_of_list_ascii in
  (text scheme, text netloc, text path, text (tail query), text (tail fragment)).

Definition repository_url (value : json) : result string :=
  match value with
  | JStr s =>
      if (256 <? String.length s)%nat then Raise (ValidationError "repository URL is malformed")
      else
        let '(scheme, netloc, path, query, fragment) := urlsplit s in
        if negb (String.eqb scheme "https") || negb (String.eqb netloc "github.com")
           || negb (String.eqb query "") || negb (String.eqb fragment "") then
          Raise (ValidationError "repository must be a credential-free https://github.com/OWNER/REPOSITORY URL")
        else match split_on "/" path with
             | [_; owner; repository] =>
                 if String.eqb owner "" || String.eqb repository "" || endswith path "/" then
                   Raise (ValidationError "repository URL must contain exactly an owner and repository")
                 else
                   let repository := if endswith repository ".git"
                     then String.substring 0 (String.length repository - 4) repository else repository in
                   if negb (fullmatch _GITHUB_COMPONENT owner) || negb (fullmatch _GITHUB_COMPONENT repository) then
                     Raise (ValidationError "repository owner or name contains unsupported characters")
                   else Ok ("https://github.com/" +:+ owner +:+ "/" +:+ repository)
             | _ => Raise (ValidationError "repository URL must contain exactly an owner and repository")
             end
  | _ => Raise (ValidationError "repository URL is malformed")
  end.

#[global] Arguments matching : simpl never.
#[global] Arguments slug : simpl never.
#[global] Arguments resource_name : simpl never.
#[global] Arguments uuid : simpl never.
#[global] Arguments repository_url : simpl never.
#[global] Arguments fullmatch : simpl never.
#[global] Strategy 1000 [matching uuid fullmatch].

(** ** What acceptance means *)

Lemma matching_ok r m v s : matching r m v = Ok s <-> v = JStr s /\ fullmatch r s = true.
Proof.
  unfold matching. destruct v; try (split; [done|intros [? ?]; done]).
  destruct (fullmatch r s0) eqn:E; (split; [intros [= ?]|intros [[= ->] ?]]); subst;
    (done || congruence).
Qed.

Lemma slug_ok v s :
  slug v = Ok s <-> v = JStr s /\ lang _SLUG s /\ contains "--" s = false.
Proof.
  unfold slug, mbind, result_bind. destruct (matching _ _ v) as [t|e] eqn:E.
  - apply matching_ok in E as [-> E]. apply (fullmatch_iff _SLUG t eq_refl) in E.
    destruct (contains "--" t) eqn:C; split; [done|intros ([= ->] & _ & ?); congruence| |].
    + by intros [= <-].
    + by intros ([= ->] & _ & _).
  - split; [done|]. intros (-> & Hl%(fullmatch_iff _SLUG s eq_refl) & _).
    unfold matching in E. rewrite Hl in E. done.
Qed.

Lemma cls_length f s : lang (Cls f) s -> String.length s = 1%nat /\
  forallb f (list_ascii_of_string s) = true.
Proof. intros (a & -> & Ha). simpl. by rewrite Ha. Qed.

Lemma list_ascii_app s t :
  list_ascii_of_string (s +:+ t) = list_ascii_of_string s ++ list_ascii_of_string t.
Proof. induction s; simpl; congruence. Qed.

(** A repeated class: length within the bounds, every character in the class. *)
Lemma rep_cls lo hi g f s : lang (Rep lo hi g (Cls f)) s ->
  (lo <= String.length s)%nat /\ below (String.length s) hi
  /\ forallb f (list_ascii_of_string s) = true.
Proof.
  intros (ss & -> & Hall & Hlo & Hhi).
  assert (String.length (concat_all ss) = length ss /\
    forallb f (list_ascii_of_string (concat_all ss)) = true) as [-> ?]; [|done].
  clear Hlo Hhi. induction Hall as [|s ss Hs _ [IH1 IH2]]; simpl; [done|].
  apply cls_length in Hs as [Hl Hf].
  by rewrite str_length_app, list_ascii_app, forallb_app, Hl, Hf, IH1, IH2.
Qed.

Lemma forallb_impl {A} (f g : A -> bool) l :
  (forall x, f x = true -> g x = true) -> forallb f l = true -> forallb g l = true.
Proof. rewrite !forallb_forall. auto. Qed.

(** Hexadecimal digests of a fixed length. *)
Lemma times_hex n s : lang (Times n (Cls hexdigit)) s ->
  String.length s = n /\ forallb hexdigit (list_ascii_of_string s) = true.
Proof. intros (H1 & H2 & H3)%rep_cls. simpl in H2. split; [lia|done]. Qed.

Lemma sha256_hex_ok v s : sha256_hex v = Ok s ->
  v = JStr s /\ String.length s = 64%nat /\ forallb hexdigit (list_ascii_of_string s) = true.
Proof.
  unfold sha256_hex. intros [-> H]%matching_ok. split; [done|].
  by apply times_hex, fullmatch_lang.
Qed.

(** *** UUIDs *)

Lemma hex_value_char v : 0 <= v < 16 -> hex_value (hex_char v) = Some v.
Proof.
  intros Hv. rewrite <- (Z2Nat.id v) by lia. assert (Hn : (Z.to_nat v < 16)%nat) by lia.
  revert Hn. generalize (Z.to_nat v) as n. intros n Hn.
  do 16 (destruct n as [|n]; [reflexivity|]). lia.
Qed.

Lemma hex_char_not_dash v : 0 <= v < 16 -> is_char "-" (hex_char v) = false.
Proof.
  intros Hv. rewrite <- (Z2Nat.id v) by lia. assert (Hn : (Z.to_nat v < 16)%nat) by lia.
  revert Hn. generalize (Z.to_nat v) as n. intros n Hn.
  do 16 (destruct n as [|n]; [reflexivity|]). lia.
Qed.

Lemma hex_int_digits n : forall a z acc, 0 <= z ->
  hex_int a (hex_digits n z acc) = hex_int (a * 16 ^ Z.of_nat n + z mod 16 ^ Z.of_nat n) acc.
Proof.
  induction n as [|n IH]; intros a z acc Hz; cbn [hex_digits].
  - simpl. rewrite Z.mod_1_r. f_equal. lia.
  - rewrite IH by (apply Z.div_pos; lia). cbn [hex_int].
    pose proof (Z.mod_pos_bound z 16). rewrite hex_value_char by lia. simpl. f_equal.
    rewrite Nat2Z.inj_succ, Z.pow_succ_r by lia.
    rewrite Z.rem_mul_r by lia. lia.
Qed.

Lemma hex_int_bound l : forall a z, 0 <= a -> hex_int a l = Some z ->
  0 <= z < (a + 1) * 16 ^ Z.of_nat (length l).
Proof.
  induction l as [|c l IH]; intros a z Ha; simpl; [intros [= <-]; lia|].
  destruct (hex_value c) as [v|] eqn:Hv; simpl; [|done].
  assert (0 <= v < 16).
  { unfold hex_value, digit, rng, between in Hv.
    change (code "0") with 48 in Hv. change (code "9") with 57 in Hv.
    change (code "a") with 97 in Hv. change (code "f") with 102 in Hv.
    change (code "A") with 65 in Hv. change (code "F") with 70 in Hv.
    repeat case_match; simplify_eq; lia. }
  intros Hz%IH; [|lia]. rewrite Nat2Z.inj_succ, Z.pow_succ_r by lia. nia.
Qed.

Lemma hex_digits_length n : forall z acc,
  length (hex_digits n z acc) = (n + length acc)%nat.
Proof. induction n; intros; simpl; [done|]. rewrite IHn. simpl. lia. Qed.

Lemma hex_digits_no_dash n : forall z acc, 0 <= z ->
  Forall (fun a => is_char "-" a = false) acc ->
  Forall (fun a => is_char "-" a = false) (hex_digits n z acc).
Proof.
  induction n; intros z acc Hz Hacc; simpl; [done|].
  apply IHn; [apply Z.div_pos; lia|]. constructor; [|done].
  apply hex_char_not_dash. apply Z.mod_pos_bound. lia.
Qed.

Lemma filter_no_dash l : Forall (fun a => is_char "-" a = false) l ->
  List.filter (fun a => negb (is_char "-" a)) l = l.
Proof. induction 1 as [|a l Ha _ IH]; cbn [List.filter]; [done|]. by rewrite Ha, IH. Qed.

Lemma take_drop_next {A} n m (l : list A) :
  take n (drop m l) ++ drop (m + n) l = drop m l.
Proof. rewrite <- drop_drop. apply take_drop. Qed.

Lemma filter_dash_positions l : Forall (fun a => is_char "-" a = false) l ->
  List.filter (fun a => negb (is_char "-" a)) (dash_positions l) = l.
Proof.
  intros Hl. unfold dash_positions. rewrite !List.filter_app.
  assert (Hd : List.filter (fun a => negb (is_char "-" a)) ["-"%char] = []) by done.
  rewrite !Hd. rewrite !filter_no_dash by (repeat first [apply Forall_take | apply Forall_drop]; done).
  rewrite !app_nil_l.
  rewrite (take_drop_next 4 16 l : _ ++ drop 20 l = _), (take_drop_next 4 12 l : _ ++ drop 16 l = _),
    (take_drop_next 4 8 l : _ ++ drop 12 l = _).
  apply take_drop.
Qed.

Lemma uuid_int_str z : 0 <= z < 16 ^ 32 -> uuid_int (uuid_str z) = Some z.
Proof.
  intros Hz. unfold uuid_int, uuid_str. rewrite list_ascii_of_string_of_list_ascii.
  rewrite filter_dash_positions by (apply hex_digits_no_dash; [lia|constructor]).
  rewrite hex_digits_length. simpl length. cbn [Nat.add Nat.eqb].
  rewrite hex_int_digits by lia. cbn [hex_int]. f_equal.
  rewrite Z.mod_small; [lia|done].
Qed.

Lemma uuid_int_bound s z : uuid_int s = Some z -> 0 <= z < 16 ^ 32.
Proof.
  unfold uuid_int. destruct (Nat.eqb _ 32) eqn:E; [|done]. apply Nat.eqb_eq in E.
  intros H%hex_int_bound; [|lia]. rewrite E in H. lia.
Qed.

Lemma uuid_ok v s : uuid v = Ok s -> v = JStr s.
Proof.
  unfold uuid. destruct v; try done. destruct (uuid_int s0); [|done].
  destruct (String.eqb_spec (uuid_str z) s0); naive_solver.
Qed.

(** Canonical text is the image of the printer. *)
Lemma uuid_iff s : uuid (JStr s) = Ok s <-> exists z, 0 <= z < 16 ^ 32 /\ s = uuid_str z.
Proof.
  unfold uuid. split.
  - destruct (uuid_int s) as [z|] eqn:E; [|done].
    destruct (String.eqb_spec (uuid_str z) s) as [<-|]; [|done]. intros _.
    exists z. split; [by eapply uuid_int_bound|done].
  - intros (z & Hz & ->). by rewrite uuid_int_str, String.eqb_refl.
Qed.

(** *** Paths *)

Definition no_char (c : ascii) (s : string) : Prop := ~ In c (list_ascii_of_string s).

Lemma split_on_no_char c s : Forall (no_char c) (split_on c s).
Proof.
  induction s as [|a s IH]; simpl; [repeat constructor; intros []|].
  destruct (Ascii.eqb_spec a c) as [->|Hne]; [constructor; [intros []|done]|].
  destruct (split_on c s) as [|x l] eqn:E.
  - constructor; [|constructor]. intros [->|[]]. done.
  - inversion IH; subst. constructor; [|done]. intros [->|Hin]; [done|]. auto.
Qed.

Lemma split_on_single c s : no_char c s -> split_on c s = [s].
Proof.
  unfold no_char. induction s as [|a s IH]; simpl; [done|]. intros Hn.
  destruct (Ascii.eqb_spec a c); [subst; tauto|]. rewrite IH by tauto. done.
Qed.

Lemma split_on_app c x s : no_char c x ->
  split_on c (x +:+ String c s) = x :: split_on c s.
Proof.
  unfold no_char. induction x as [|a x IH]; simpl; intros Hn.
  - by rewrite Ascii.eqb_refl.
  - destruct (Ascii.eqb_spec a c); [subst; tauto|]. rewrite IH by tauto. done.
Qed.

Lemma split_on_join c l : l <> [] -> Forall (no_char c) l ->
  split_on c (join (String c "") l) = l.
Proof.
  intros Hne Hl. induction Hl as [|x l Hx Hl IH]; [done|].
  destruct l as [|y l]; [by apply split_on_single|].
  change (join (String c "") (x :: y :: l))
    with (x +:+ String c (join (String c "") (y :: l))).
  rewrite split_on_app by done. by rewrite IH.
Qed.

Lemma path_parts_no_slash s : Forall (no_char "/") (path_parts s).
Proof.
  unfold path_parts. pose proof (split_on_no_char "/" s) as H.
  rewrite Forall_forall in *. intros x Hx. apply H.
  rewrite list_elem_of_In in *. by apply filter_In in Hx as [? _].
Qed.

Lemma path_parts_filter s :
  List.filter (fun x => negb (String.eqb x "" || String.eqb x ".")) (path_parts s) = path_parts s.
Proof.
  unfold path_parts. induction (split_on "/" s) as [|x l IH]; [done|]. cbn [List.filter].
  destruct (negb _) eqn:E; [|done]. cbn [List.filter]. by rewrite E, IH.
Qed.

(** The printed path has the components of the path it was printed from. *)
Lemma path_parts_str s : path_parts (path_str s) = path_parts s.
Proof.
  unfold path_str. destruct (path_parts s) as [|x l] eqn:E; [done|].
  pose proof (path_parts_no_slash s) as Hn. pose proof (path_parts_filter s) as Hf.
  rewrite E in Hn, Hf. unfold path_parts at 1. rewrite split_on_join by done. done.
Qed.

Lemma path_str_relative s : is_absolute (path_str s) = false.
Proof.
  unfold path_str. destruct (path_parts s) as [|x l] eqn:E; [done|].
  pose proof (path_parts_no_slash s) as Hn. pose proof (path_parts_filter s) as Hf.
  rewrite E in Hn, Hf. apply Forall_cons in Hn as [Hx _].
  destruct x as [|a x].
  { cbn [List.filter] in Hf. simpl in Hf.
    assert (Hin : In ""%string (List.filter (fun x => negb (String.eqb x "" || String.eqb x ".")) l))
      by (rewrite Hf; left; done).
    apply filter_In in Hin as [_ Hin]. done. }
  assert (a <> "/"%char) by (intros ->; apply Hx; left; done).
  unfold is_absolute, startswith. destruct l; cbn [join String.append String.prefix];
    destruct (ascii_dec _ _); congruence.
Qed.

(** A path accepted by [relative_path] stays inside the checkout: the
    returned text is not absolute, none of its components is [..], and it has
    exactly the components of the path that was asked for. *)
Theorem relative_path_confined allow_dot v p :
  relative_path allow_dot v = Ok p ->
  is_absolute p = false /\ ~ In ".."%string (path_parts p)
  /\ exists s, v = JStr s /\ path_parts p = path_parts s.
Proof.
  unfold relative_path. destruct v as [| | |s| |]; try done.
  destruct (String.eqb s "" || _); [done|].
  destruct (contains (String (chr 92) "") s || _); [done|].
  destruct (is_absolute s || _) eqn:E; [done|].
  destruct (String.eqb (path_str s) "." && _); [done|].
  destruct (startswith s "./" || _); [done|]. intros [= <-].
  apply orb_false_iff in E as [_ E%bool_decide_eq_false]. rewrite list_elem_of_In in E.
  split_and!; [apply path_str_relative|by rewrite path_parts_str|].
  exists s. by rewrite path_parts_str.
Qed.

Lemma relative_path_confined_witness :
  relative_path true "app/./src" = Ok "app/src"%string /\ is_absolute "app/src" = false.
Proof.
  split; [vm_compute; reflexivity|].
  apply (relative_path_confined true "app/./src" "app/src"). vm_compute; reflexivity.
Defined.

(** The text accepted as a UUID is exactly the canonical lower-case form of
    some 128-bit number, and [openstack_uuid] only ever returns such text. *)
Theorem openstack_uuid_canonical v s :
  openstack_uuid v = Ok s ->
  uuid (JStr s) = Ok s /\ exists z, 0 <= z < 2 ^ 128 /\ s = uuid_str z.
Proof.
  intros H. assert (Hu : uuid (JStr s) = Ok s).
  { unfold openstack_uuid in H. destruct v as [| | |t| |]; try done.
    destruct (fullmatch _ t); [|by pose proof (uuid_ok _ _ H) as [= ->]].
    destruct (uuid_int t) as [z|] eqn:E; [|done]. injection H as <-.
    apply uuid_iff. exists z. split; [by eapply uuid_int_bound|done]. }
  split; [done|]. apply uuid_iff in Hu. change (2 ^ 128) with (16 ^ 32). done.
Qed.

Lemma openstack_uuid_canonical_witness :
  openstack_uuid "a123456789ab4cde8f0123456789abcd" = Ok "a1234567-89ab-4cde-8f01-23456789abcd"%string
  /\ uuid "a1234567-89ab-4cde-8f01-23456789abcd" = Ok "a1234567-89ab-4cde-8f01-23456789abcd"%string.
Proof.
  split; [vm_compute; reflexivity|].
  refine (proj1 (openstack_uuid_canonical "a123456789ab4cde8f0123456789abcd" _ _)).
  vm_compute; reflexivity.
Defined.

#[local] Arguments ascii_dec : simpl never.

(** *** A normalized path is accepted as it is *)

Lemma contains_char c s : contains (String c "") s = false <-> no_char c s.
Proof.
  unfold no_char. induction s as [|a s IH]; [simpl; tauto|].
  change (contains (String c "") (String a s))
    with ((if ascii_dec c a then String.prefix "" s else false) || contains (String c "") s).
  change (list_ascii_of_string (String a s)) with (a :: list_ascii_of_string s).
  rewrite orb_false_iff, IH. simpl. destruct (ascii_dec c a) as [->|Hne].
  - assert (String.prefix "" s = true) as -> by (by destruct s). naive_solver.
  - naive_solver.
Qed.

Lemma utf8_length_pos s : 0 <= utf8_length s.
Proof. induction s as [|a s IH]; simpl; [done|]. destruct (_ <? _); lia. Qed.

Lemma join_cons_app sep x y l : join sep (x :: y :: l) = x +:+ sep +:+ join sep (y :: l).
Proof. done. Qed.

Lemma join_split c s : join (String c "") (split_on c s) = s.
Proof.
  induction s as [|a s IH]; [done|]. cbn [split_on]. destruct (Ascii.eqb_spec a c) as [->|Hne].
  - destruct (split_on c s) as [|x l] eqn:E; [|rewrite join_cons_app, IH; done].
    simpl in IH. by subst.
  - destruct (split_on c s) as [|x l] eqn:E; [simpl in IH; by subst|].
    destruct l; simpl in *; by rewrite IH.
Qed.

Lemma join_filter_length f l :
  utf8_length (join "/" (List.filter f l)) <= utf8_length (join "/" l).
Proof.
  induction l as [|x l IH]; [done|]. cbn [List.filter].
  assert (Hl : utf8_length (join "/" l) <= utf8_length (join "/" (x :: l))).
  { destruct l as [|y l]; [apply utf8_length_pos|].
    rewrite join_cons_app, !utf8_length_app. pose proof (utf8_length_pos x). simpl. lia. }
  destruct (f x); [|lia]. destruct (List.filter f l) as [|z m] eqn:E.
  - destruct l as [|y l]; [done|]. rewrite join_cons_app, utf8_length_app.
    pose proof (utf8_length_pos ("/" +:+ join "/" (y :: l))). simpl in *. lia.
  - destruct l as [|y l]; [done|]. rewrite !join_cons_app, !utf8_length_app. lia.
Qed.

Lemma in_join c sep l : In c (list_ascii_of_string (join sep l)) ->
  In c (list_ascii_of_string sep) \/ exists x, In x l /\ In c (list_ascii_of_string x).
Proof.
  induction l as [|x l IH]; [done|]. destruct l as [|y l].
  - intros Hc. right. exists x. simpl. tauto.
  - rewrite join_cons_app, !list_ascii_app, !in_app_iff. intros [Hc|[Hc|Hc]]; [|tauto|].
    + right. exists x. simpl. tauto.
    + destruct (IH Hc) as [?|(z & Hz & ?)]; [tauto|]. right. exists z. split; [right|]; done.
Qed.

Lemma in_split c s x a : In x (split_on c s) -> In a (list_ascii_of_string x) ->
  In a (list_ascii_of_string s).
Proof.
  revert x. induction s as [|b s IH]; intros x; simpl; [by intros [<-|[]]|].
  destruct (Ascii.eqb b c); [intros [<-|Hx]; [done|eauto]|].
  destruct (split_on c s) as [|y l].
  - intros [<-|[]] Ha. simpl in Ha. tauto.
  - intros [<-|Hx] Ha; [simpl in Ha; destruct Ha as [->|Ha]; [by left|]|];
      right; (eapply IH; [|exact Ha]); simpl; tauto.
Qed.

Definition plain_part (x : string) : Prop :=
  x <> "" /\ x <> "." /\ no_char "/" x.

Lemma path_parts_plain s : Forall plain_part (path_parts s).
Proof.
  pose proof (path_parts_no_slash s) as Hn. rewrite Forall_forall in *. intros x Hx.
  split_and!; [| |auto]; intros ->; unfold path_parts in Hx;
    rewrite list_elem_of_In in Hx; by apply filter_In in Hx as [_ ?].
Qed.

Lemma no_double_slash x r : no_char "/" x -> contains "//" r = false ->
  contains "//" (x +:+ r) = false.
Proof.
  unfold no_char. induction x as [|a x IH]; [done|]. intros Hn Hr. simpl in Hn.
  change (contains "//" (String a x +:+ r))
    with ((if ascii_dec "/" a then String.prefix "/" (x +:+ r) else false)
          || contains "//" (x +:+ r)).
  rewrite IH by tauto. destruct (ascii_dec "/" a) as [<-|]; [tauto|done].
Qed.

Lemma join_plain l : Forall plain_part l -> contains "//" (join "/" l) = false
  /\ startswith (join "/" l) "/" = false.
Proof.
  induction 1 as [|x l (Hne & Hdot & Hx) Hl [IH1 IH2]]; [done|].
  assert (Hs : forall r, startswith (x +:+ r) "/" = false).
  { intros r. destruct x as [|a x]; [done|]. unfold startswith. simpl.
    destruct (ascii_dec "/" a) as [<-|]; [|done]. by destruct Hx; left. }
  destruct l as [|y l].
  - rewrite <- (str_app_nil_r x). split; [by apply no_double_slash|].
    rewrite str_app_nil_r. simpl. rewrite <- (str_app_nil_r x). apply Hs.
  - rewrite join_cons_app. split; [|apply Hs]. apply no_double_slash; [done|].
    change (contains "//" ("/" +:+ join "/" (y :: l)))
      with (startswith (join "/" (y :: l)) "/" || contains "//" (join "/" (y :: l))).
    by rewrite IH1, IH2.
Qed.

Lemma path_str_no_dot s : startswith (path_str s) "./" = false.
Proof.
  unfold path_str. pose proof (path_parts_plain s) as H. destruct H as [|x l (Hne & Hdot & Hx) _]; [done|].
  assert (Hs : forall r, startswith (x +:+ r) "./" = false).
  { intros r. destruct x as [|a [|b x]]; [done| |]; unfold startswith; cbn [String.append String.prefix].
    - destruct (ascii_dec "." a) as [<-|]; [by destruct Hdot|done].
    - destruct (ascii_dec "." a) as [<-|]; [|done].
      destruct (ascii_dec "/" b) as [<-|]; [|done]. exfalso. apply Hx. right. by left. }
  destruct l as [|y l]; [rewrite <- (str_app_nil_r (join _ _)); apply Hs|].
  rewrite join_cons_app. apply Hs.
Qed.

Lemma path_str_chars c s : c <> "/"%char -> c <> "."%char ->
  no_char c s -> no_char c (path_str s).
Proof.
  intros Hs Hd Hn Hin. unfold path_str in Hin. destruct (path_parts s) as [|x l] eqn:E.
  { destruct Hin as [<-|[]]; done. }
  apply in_join in Hin as [[<-|[]]|(y & Hy & Hc)]; [done|]. rewrite <- E in Hy.
  unfold path_parts in Hy. apply filter_In in Hy as [Hy _]. apply Hn. by eapply in_split.
Qed.

Lemma path_str_length s : 0 < utf8_length s -> utf8_length (path_str s) <= utf8_length s.
Proof.
  intros Hpos. unfold path_str. destruct (path_parts s) as [|x l] eqn:E; [simpl; lia|].
  rewrite <- E. unfold path_parts. rewrite <- (join_split "/" s) at 2. apply join_filter_length.
Qed.

Lemma path_str_not_empty s : path_str s <> "".
Proof.
  unfold path_str. pose proof (path_parts_plain s) as H. destruct H as [|x l (Hne & _) _]; [done|].
  destruct x; [done|]. by destruct l.
Qed.

(** What [relative_path] returns it accepts unchanged. *)
Lemma relative_path_stable allow_dot v p :
  relative_path allow_dot v = Ok p -> relative_path allow_dot (JStr p) = Ok p.
Proof.
  unfold relative_path. destruct v as [| | |s| |]; try done.
  destruct (String.eqb s "" || _) eqn:E1; [done|].
  destruct (contains (String (chr 92) "") s || _) eqn:E2; [done|].
  destruct (is_absolute s || _) eqn:E3; [done|].
  destruct (String.eqb (path_str s) "." && _) eqn:E4; [done|].
  destruct (startswith s "./" || _); [done|]. intros [= <-].
  assert (Hidem : path_str (path_str s) = path_str s)
    by (unfold path_str at 1; by rewrite path_parts_str).
  apply orb_false_iff in E1 as [E1%String.eqb_neq E1'%Z.ltb_ge], E2 as [E2 E2'], E3 as [_ E3].
  assert (Hpos : 0 < utf8_length s).
  { destruct s as [|a s]; [done|]. simpl. pose proof (utf8_length_pos s). destruct (_ <? _); lia. }
  rewrite contains_char in E2, E2'.
  rewrite (proj2 (String.eqb_neq _ _) (path_str_not_empty s)).
  rewrite (proj2 (Z.ltb_ge _ _)) by (etransitivity; [by apply path_str_length|done]).
  rewrite !(proj2 (contains_char _ _)) by (apply path_str_chars; done).
  rewrite path_str_relative, path_parts_str, Hidem, E4, path_str_no_dot. cbn [orb].
  destruct (bool_decide _); [done|]. 
  assert (contains "//" (path_str s) = false) as ->; [|done].
  unfold path_str. pose proof (path_parts_plain s) as Hp.
  destruct (path_parts s) as [|x l]; [done|]. by apply join_plain.
Qed.
