(* ===== verification/Runtime.v ===== *)
(** * Safe diagnostics (src/openstack_platform/runtime.py)

    [redact_text] and [safe_summary]: what the controller may store in a
    [safe_error] column or print.  Called without explicit secrets, as every
    modelled caller does. *)

From S2P Require Import Prelude Regex Json.

(** What callers pass as an error: an exception, by class name, or fixed text. *)
Inductive failure :=
  | Exn (class_name : string)
  | Text (s : string).

(** [type(error).__name__] *)
Definition error_name (e : error) : string :=
  match e with
  | ValidationError _ => "ValidationError"
  | RuntimeVersionError _ => "RuntimeVersionError"
  | CapacityError _ => "CapacityError"
  | DatabaseError _ => "DatabaseError"
  | IdempotencyConflictError _ => "IdempotencyConflictError"
  | DispatchQueueFullError _ => "DispatchQueueFullError"
  | FinishingOperationConflictError _ => "FinishingOperationConflictError"
  | UnfinishedOperationError _ _ _ => "UnfinishedOperationError"
  | IntegrityError => "IntegrityError"
  | AssertionError => "AssertionError"
  | KeyError => "KeyError"
  | OverflowError => "OverflowError"
  | IndexError => "IndexError"
  | ProgrammingError => "ProgrammingError"
  | TypeError => "TypeError"
  | ValueError => "ValueError"
  | RetentionError _ => "RetentionError"
  | OpenStackError _ => "OpenStackError"
  | DriftError _ => "DriftError"
  | RecoveryRequired _ => "RecoveryRequired"
  | CapabilityUnavailable _ => "CapabilityUnavailable"
  | CommandFailure => "CommandFailure"
  | AttributeError => "AttributeError"
  | ApplicationError _ => "ApplicationError"
  | OSError => "OSError"
  | DurableReplaceError _ => "DurableReplaceError"
  | HelperError _ => "HelperError"
  | StorageOperationError _ => "StorageOperationError"
  | ServiceDeadlineError => "ServiceDeadlineError"
  | LockBusy => "LockBusy"
  | PlatformBusyError => "PlatformBusyError"
  | DeploymentDeadlineError => "DeploymentDeadlineError"
  | DeploymentFailed _ _ => "DeploymentFailed"
  end.

Definition ws : re := Star (Cls whitespace).

Definition _SECRET_ASSIGNMENT : re :=
  cats [WordB;
    Grp 1 (alts [lit_i "password"; lit_i "passwd"; lit_i "secret"; lit_i "token";
      lit_i "credential";
      cats [lit_i "private"; Opt (Cls (one_of "_-")); lit_i "key"];
      cats [lit_i "access"; Opt (Cls (one_of "_-")); lit_i "key"]]);
    ws; Grp 2 (Cls (one_of "=:")); ws;
    Grp 3 (Plus (Cls (fun a => negb (whitespace a || one_of ",;" a))))].

Definition letter_or_digit : ascii -> bool := either lower (either upper digit).

Definition _BEARER : re :=
  cats [WordB; lit_i "Bearer"; Plus (Cls whitespace);
    Plus (Cls (either letter_or_digit (one_of "._~+/=-")))].

Definition _URI_USERINFO : re :=
  cats [Grp 1 (cats [Cls (either lower upper);
      Star (Cls (either letter_or_digit (one_of "+.-"))); lit "://"]);
    Plus (Cls (fun a => negb (is_char "/" a || is_char "@" a || whitespace a))); lit "@"].

Definition not_dash (a : ascii) : bool := negb (is_char "-" a).

Definition _PEM : re :=
  cats [lit "-----BEGIN "; Plus (Cls not_dash); lit "-----";
    Rep 0 None false (Cls (fun _ => true));
    lit "-----END "; Plus (Cls not_dash); lit "-----"].

Definition group_text (n : nat) (c : caps) : string := default "" (group n c).

Definition redact_text (value : string) : string :=
  let text := sub _SECRET_ASSIGNMENT
    (fun m => group_text 1 m +:+ group_text 2 m +:+ "[REDACTED]") value in
  let text := sub _BEARER (fun _ => "Bearer [REDACTED]") text in
  let text := sub _URI_USERINFO (fun m => group_text 1 m +:+ "[REDACTED]@") text in
  sub _PEM (fun _ => "[REDACTED PEM]") text.

Definition map_string (f : ascii -> ascii) (s : string) : string :=
  string_of_list_ascii (map f (list_ascii_of_string s)).

(** [text.replace("\x00", "?")] *)
Definition replace_nul : string -> string :=
  map_string (fun a => if code a =? 0 then "?"%char else a).

(** The line boundaries of [str.splitlines] below 256. *)
Definition line_break (a : ascii) : bool :=
  between 10 13 a || between 28 30 a || (code a =? 133).

(** [str.splitlines]: a line break ends a line, CR LF is one break, and no
    empty line follows a final break. *)
Fixpoint splitlines_from (line : string) (s : string) : list string :=
  match s with
  | EmptyString => if String.eqb line "" then [] else [line]
  | String a s' =>
      if line_break a then
        line :: match s' with
                | String b s'' =>
                    if (code a =? 13) && (code b =? 10) then splitlines_from "" s''
                    else splitlines_from "" s'
                | EmptyString => []
                end
      else splitlines_from (line +:+ String a "") s'
  end.

Definition splitlines : string -> list string := splitlines_from "".

Fixpoint lstrip (f : ascii -> bool) (l : list ascii) : list ascii :=
  match l with a :: l' => if f a then lstrip f l' else l | [] => [] end.

(** [s.strip(chars)] *)
Definition strip (f : ascii -> bool) (s : string) : string :=
  string_of_list_ascii (rev (lstrip f (rev (lstrip f (list_ascii_of_string s))))).

(** [s.encode("utf-8")[:n].decode("utf-8", errors="ignore")] *)
Fixpoint take_bytes (n : Z) (s : string) : string :=
  match s with
  | EmptyString => ""
  | String a s' =>
      let w := if code a <? 128 then 1 else 2 in
      if w <=? n then String a (take_bytes (n - w) s') else ""
  end.

Definition class_name (e : failure) : string :=
  match e with Exn c => c | Text _ => "str" end.

Definition safe_summary (maximum : Z) (e : failure) : string :=
  let summary := match e with
    | Exn c => c +:+ ": details redacted"
    | Text s => replace_nul (redact_text s)
    end in
  let line := strip whitespace (join " " (splitlines summary)) in
  let summary := if String.eqb line "" then class_name e else line in
  if maximum <? utf8_length summary then take_bytes (maximum - 3) summary +:+ "..."
  else summary.

(** The default bound of the callers. *)
Definition SUMMARY_LIMIT : Z := 1024.

(** ** Properties *)

Lemma utf8_length_chars s : Z.of_nat (String.length s) <= utf8_length s.
Proof. induction s; simpl; [done|]. destruct (_ <? _); lia. Qed.

Lemma take_bytes_bound n s : 0 <= n -> utf8_length (take_bytes n s) <= n.
Proof.
  revert n. induction s as [|a s IH]; intros n Hn; simpl; [done|].
  destruct (_ <=? n) eqn:E; simpl; [|done]. apply Z.leb_le in E.
  specialize (IH (n - (if code a <? 128 then 1 else 2))). lia.
Qed.

Lemma safe_summary_bytes maximum e :
  3 <= maximum -> utf8_length (safe_summary maximum e) <= maximum.
Proof.
  intros Hm. unfold safe_summary.
  set (s := if String.eqb _ "" then _ else _).
  destruct (maximum <? utf8_length s) eqn:E; [|lia].
  rewrite utf8_length_app. pose proof (take_bytes_bound (maximum - 3) s).
  assert (utf8_length "..." = 3) by done. lia.
Qed.

(** The column bound: at most 1024 characters are stored. *)
Lemma safe_summary_length e :
  Z.of_nat (String.length (safe_summary SUMMARY_LIMIT e)) <= 1024.
Proof.
  pose proof (utf8_length_chars (safe_summary SUMMARY_LIMIT e)).
  pose proof (safe_summary_bytes SUMMARY_LIMIT e). unfold SUMMARY_LIMIT in *. lia.
Qed.
