(* ===== verification/Sql.v ===== *)
(** * SQLite as the controller uses it

    A connection holds the whole database value [D], the transaction flag, and
    what the environment supplies to the code: the successive readings of the
    clock and of [uuid4].  A table is a list of rows; a statement computes the
    new list and fails with [IntegrityError], leaving the table alone, when a
    CHECK, UNIQUE, FOREIGN KEY or trigger of the schema refuses it.

    [Table] is the interface between the statements and a schema; [evolves] is
    the logic in which the clients prove what their statements preserve. *)

From S2P Require Import Prelude Clock.

(** ** Connections *)

Record conn (D : Type) := Conn {
  store : D;
  in_transaction : bool;
  clock : nat -> Z;
  uuids : nat -> string;
  ticks : nat;
}.
Arguments Conn {D}.
Arguments store {D}.
Arguments in_transaction {D}.
Arguments clock {D}.
Arguments uuids {D}.
Arguments ticks {D}.

Definition with_store {D} (d : D) (c : conn D) : conn D :=
  Conn d (in_transaction c) (clock c) (uuids c) (ticks c).
Definition with_transaction {D} (b : bool) (c : conn D) : conn D :=
  Conn (store c) b (clock c) (uuids c) (ticks c).
Definition tick {D} (c : conn D) : conn D :=
  Conn (store c) (in_transaction c) (clock c) (uuids c) (S (ticks c)).

Abbreviation db D := (M (conn D)).

(** [datetime.now(UTC)] and [utc_now()] *)
Definition datetime_now {D} : db D Z := fun c => (Ok (clock c (ticks c)), tick c).
Definition read_clock {D} : db D string := t ← datetime_now; mret (utc_text t).
Definition fresh_uuid {D} : db D string := fun c => (Ok (uuids c (ticks c)), tick c).

(** ** Tables *)

(** A unique index maps a row to its key; a row outside a partial index, or
    with a NULL in the key, has none. *)
Definition key : Type := option (list string).

Class Table (D R : Type) := {
  rows : D -> list R;
  put_rows : list R -> D -> D;
  row_check : R -> bool;
  references : D -> R -> bool;
  unique_keys : list (R -> key);
  update_guard : R -> R -> bool;
  rows_put : forall t d, rows (put_rows t d) = t;
}.

Definition unique_on {R} (k : R -> key) (t : list R) : Prop := NoDup (omap k t).

#[export] Instance unique_on_dec {R} (k : R -> key) t : Decision (unique_on k t).
Proof. unfold unique_on. apply _. Defined.

Definition table_ok {D R} `{Table D R} (d : D) (t : list R) : bool :=
  forallb row_check t && forallb (references d) t
  && forallb (fun k => bool_decide (unique_on k t)) unique_keys.

Section Statements.
Context {D R : Type} `{Table D R}.

Definition select (p : R -> bool) : db D (list R) :=
  gets (fun c => List.filter p (rows (store c))).

(** [SELECT ... WHERE p].fetchone() *)
Definition fetchone (p : R -> bool) : db D (option R) :=
  gets (fun c => List.find p (rows (store c))).

Definition write (t : list R) : db D unit := fun c =>
  if table_ok (store c) t then (Ok tt, with_store (put_rows t (store c)) c)
  else (Raise IntegrityError, c).

Definition insert (r : R) : db D unit := fun c => write (rows (store c) ++ [r]) c.

Definition apply_where (p : R -> bool) (f : R -> R) (t : list R) : list R :=
  map (fun r => if p r then f r else r) t.

(** [UPDATE ... SET f WHERE p]; the result is [cursor.rowcount]. *)
Definition update (p : R -> bool) (f : R -> R) : db D nat := fun c =>
  let t := rows (store c) in
  let hit := List.filter p t in
  if forallb (fun r => update_guard r (f r)) hit then
    match write (apply_where p f t) c with
    | (Ok _, c') => (Ok (length hit), c')
    | (Raise e, c') => (Raise e, c')
    end
  else (Raise IntegrityError, c).

Definition delete (p : R -> bool) : db D unit := fun c =>
  write (List.filter (fun r => negb (p r)) (rows (store c))) c.

(** [INSERT ... ON CONFLICT(p) DO UPDATE SET f] *)
Definition upsert (p : R -> bool) (r : R) (f : R -> R) : db D unit := fun c =>
  if existsb p (rows (store c)) then (update p f ≫= fun _ => mret tt) c else insert r c.

(** [INSERT ... ON CONFLICT(p) DO NOTHING] *)
Definition insert_or_ignore (p : R -> bool) (r : R) : db D unit := fun c =>
  if existsb p (rows (store c)) then (Ok tt, c) else insert r c.
End Statements.

(** ** Transactions: commit on return, roll back when an exception propagates *)

Definition nested_message : string :=
  "nested or long-lived database transactions are not supported".

Definition transaction {D A} (m : db D A) : db D A := fun c =>
  if in_transaction c then (Raise (DatabaseError nested_message), c)
  else match m (with_transaction true c) with
       | (Ok a, c') => (Ok a, with_transaction false c')
       | (Raise e, c') => (Raise e, with_transaction false (with_store (store c) c'))
       end.

(** [_acceptance_write]: join the caller's transaction or open one. *)
Definition acceptance_write {D A} (within_transaction : bool) (m : db D A) : db D A := fun c =>
  if within_transaction then
    if in_transaction c then m c
    else (Raise (DatabaseError "acceptance write requires an active transaction"), c)
  else transaction m c.

(** ** What a call does to the database *)

Definition evolves {D A} (P : D -> D -> Prop) (m : db D A) : Prop :=
  forall c, P (store c) (store (m c).2).

Create HintDb evolve discriminated.

Section Evolves.
Context {D : Type} (P : D -> D -> Prop) `{!Reflexive P}.

Lemma evolves_ret {A} (a : A) : evolves P (mret a).
Proof. by intros c. Qed.

Lemma evolves_raise {A} e : evolves P (raise e : db D A).
Proof. by intros c. Qed.

Lemma evolves_lift {A} (r : result A) : evolves P (lift r : db D A).
Proof. by intros c. Qed.

Lemma evolves_require b e : evolves P (require b e : db D unit).
Proof. by intros c. Qed.

Lemma evolves_gets {A} (f : conn D -> A) : evolves P (gets f : db D A).
Proof. by intros c. Qed.

Lemma evolves_datetime : evolves P (datetime_now : db D Z).
Proof. by intros c. Qed.

Lemma evolves_clock : evolves P (read_clock : db D string).
Proof. by intros c. Qed.

Lemma evolves_uuid : evolves P (fresh_uuid : db D string).
Proof. by intros c. Qed.

Lemma evolves_transaction {A} (m : db D A) : evolves P m -> evolves P (transaction m).
Proof.
  intros Hm c. unfold transaction. destruct (in_transaction c); simpl; [done|].
  specialize (Hm (with_transaction true c)). by destruct (m _) as [[a|e] c'].
Qed.

Lemma evolves_acceptance {A} b (m : db D A) : evolves P m -> evolves P (acceptance_write b m).
Proof.
  intros Hm c. unfold acceptance_write. destruct b; [|by apply evolves_transaction].
  destruct (in_transaction c); simpl; [apply Hm|done].
Qed.

Lemma evolves_bind `{!Transitive P} {A B} (m : db D A) (f : A -> db D B) :
  evolves P m -> (forall a, evolves P (f a)) -> evolves P (m ≫= f).
Proof.
  intros Hm Hf c. specialize (Hm c). unfold mbind, M_bind.
  destruct (m c) as [[a|e] c']; simpl in *; [|done].
  etrans; [exact Hm|apply Hf].
Qed.

(** Checked arguments: the continuation knows what the check returned. *)
Lemma evolves_bind_lift {A B} (r : result A) (f : A -> db D B) :
  (forall a, r = Ok a -> evolves P (f a)) -> evolves P (lift r ≫= f).
Proof. intros Hf c. unfold mbind, M_bind, lift. destruct r; [by apply Hf|done]. Qed.

Lemma evolves_still {A} (m : db D A) : evolves eq m -> evolves P m.
Proof. intros Hm c. by rewrite <- (Hm c). Qed.

Lemma evolves_catch `{!Transitive P} {A} (m : db D A) (h : error -> db D A) :
  evolves P m -> (forall e, evolves P (h e)) -> evolves P (catch m h).
Proof.
  intros Hm Hh c. specialize (Hm c). unfold catch.
  destruct (m c) as [[a|e] c']; simpl in *; [done|].
  etrans; [exact Hm|apply Hh].
Qed.

Lemma evolves_for_each `{!Transitive P} {A} (l : list A) (f : A -> db D unit) :
  (forall a, evolves P (f a)) -> evolves P (for_each l f).
Proof.
  intros Hf. induction l as [|x l IH]; simpl; [apply evolves_ret|].
  by apply evolves_bind.
Qed.
End Evolves.

Section EvolvesStatements.
Context {D R : Type} `{Table D R} (P : D -> D -> Prop) `{!Reflexive P}.

Lemma evolves_select p : evolves P (select p : db D (list R)).
Proof. by intros c. Qed.

Lemma evolves_fetchone p : evolves P (fetchone p : db D (option R)).
Proof. by intros c. Qed.

Lemma evolves_write (t : list R) :
  (forall d, table_ok d t = true -> P d (put_rows t d)) -> evolves P (write t).
Proof. intros Ht c. unfold write. destruct (table_ok _ _) eqn:E; simpl; auto. Qed.

Lemma evolves_insert r :
  (forall d, table_ok d (rows d ++ [r]) = true -> P d (put_rows (rows d ++ [r]) d)) ->
  evolves P (insert r).
Proof. intros Hr c. unfold insert, write. destruct (table_ok _ _) eqn:E; simpl; auto. Qed.

Lemma evolves_update p f :
  (forall d, table_ok d (apply_where p f (rows d)) = true ->
     P d (put_rows (apply_where p f (rows d)) d)) ->
  evolves P (update p f).
Proof.
  intros Hu c. unfold update, write. destruct (forallb _ _); simpl; [|done].
  destruct (table_ok _ _) eqn:E; simpl; auto.
Qed.

Lemma evolves_delete p :
  (forall d, P d (put_rows (List.filter (fun r => negb (p r)) (rows d)) d)) ->
  evolves P (delete p).
Proof. intros Hd c. unfold delete, write. destruct (table_ok _ _); simpl; auto. Qed.

Lemma evolves_upsert `{!Transitive P} p r f :
  evolves P (insert r) -> evolves P (update p f) -> evolves P (upsert p r f).
Proof.
  intros Hi Hu c. unfold upsert. destruct (existsb _ _); [|apply Hi].
  by apply (evolves_bind P); [|intros; apply evolves_ret].
Qed.

Lemma evolves_insert_or_ignore p r :
  evolves P (insert r) -> evolves P (insert_or_ignore p r).
Proof. intros Hi c. unfold insert_or_ignore. destruct (existsb _ _); simpl; auto. Qed.
End EvolvesStatements.

(** Splits a call into its statements; the table writes are left. *)
Ltac evolve_step :=
  match goal with
  | |- evolves ?P (lift _ ≫= _) => apply (evolves_bind_lift P); intros ? ?
  | |- evolves ?P (_ ≫= _) => apply (evolves_bind P); [| intros ?]
  | |- evolves _ (let _ := _ in _) => cbv zeta
  | |- evolves _ (match ?x with _ => _ end) => destruct x
  | |- evolves ?P (catch _ _) => apply (evolves_catch P); [| intros ?]
  | |- evolves ?P (for_each _ _) => apply (evolves_for_each P); intros ?
  | |- evolves ?P (transaction _) => apply (evolves_transaction P)
  | |- evolves ?P (acceptance_write _ _) => apply (evolves_acceptance P)
  | |- evolves ?P (upsert _ _ _) => apply (evolves_upsert P)
  | |- evolves ?P (insert_or_ignore _ _) => apply (evolves_insert_or_ignore P)
  | |- evolves ?P (mret _) => apply (evolves_ret P)
  | |- evolves ?P (raise _) => apply (evolves_raise P)
  | |- evolves ?P (lift _) => apply (evolves_lift P)
  | |- evolves ?P (require _ _) => apply (evolves_require P)
  | |- evolves ?P (gets _) => apply (evolves_gets P)
  | |- evolves ?P read_clock => apply (evolves_clock P)
  | |- evolves ?P datetime_now => apply (evolves_datetime P)
  | |- evolves ?P fresh_uuid => apply (evolves_uuid P)
  | |- evolves ?P (select _) => apply (evolves_select P)
  | |- evolves ?P (fetchone _) => apply (evolves_fetchone P)
  | |- evolves ?P (insert _) => apply (evolves_insert P); intros ? ?
  | |- evolves ?P (update _ _) => apply (evolves_update P); intros ? ?
  | |- evolves ?P (delete _) => apply (evolves_delete P); intros ?
  | |- evolves _ _ => solve [auto with evolve]
  end.
Ltac evolve := repeat evolve_step.

(** ** Executing a call symbolically *)

Section Execution.
Context {D : Type}.

Lemma transaction_ok {A} (m : db D A) c a c' :
  transaction m c = (Ok a, c') ->
  exists c1, m (with_transaction true c) = (Ok a, c1) /\ c' = with_transaction false c1
    /\ in_transaction c = false.
Proof.
  unfold transaction. destruct (in_transaction c); [done|].
  destruct (m _) as [[a'|e] c1]; naive_solver.
Qed.

(** A transaction that raises leaves the database as it was. *)
Lemma transaction_raise {A} (m : db D A) c e c' :
  transaction m c = (Raise e, c') -> store c' = store c.
Proof.
  unfold transaction. destruct (in_transaction c) eqn:Ht; [naive_solver|].
  destruct (m _) as [[a|e'] c1]; [done|]. by intros [= -> <-].
Qed.

Context {R : Type} `{Table D R}.

Lemma insert_ok (r : R) c u c' :
  insert r c = (Ok u, c') ->
  c' = with_store (put_rows (rows (store c) ++ [r]) (store c)) c
  /\ table_ok (store c) (rows (store c) ++ [r]) = true.
Proof. unfold insert, write. destruct (table_ok _ _); naive_solver. Qed.

Lemma update_ok (p : R -> bool) f c n c' :
  update p f c = (Ok n, c') ->
  c' = with_store (put_rows (apply_where p f (rows (store c))) (store c)) c
  /\ n = length (List.filter p (rows (store c)))
  /\ table_ok (store c) (apply_where p f (rows (store c))) = true.
Proof.
  unfold update, write. destruct (forallb _ _); [|done].
  destruct (table_ok _ _); naive_solver.
Qed.

Lemma delete_ok (p : R -> bool) c u c' :
  delete p c = (Ok u, c') ->
  c' = with_store (put_rows (List.filter (fun r => negb (p r)) (rows (store c))) (store c)) c.
Proof. unfold delete, write. destruct (table_ok _ _); naive_solver. Qed.
End Execution.

(** ** Rows and unique keys *)

Section Rows.
Context {R : Type}.
Implicit Types (t : list R) (p : R -> bool) (k : R -> key).

Lemma in_apply_where p f t r :
  In r (apply_where p f t) <->
  exists r0, In r0 t /\ r = if p r0 then f r0 else r0.
Proof. unfold apply_where. rewrite in_map_iff. naive_solver. Qed.

Lemma find_some_in p t r : List.find p t = Some r -> In r t /\ p r = true.
Proof. apply find_some. Qed.

Lemma find_none_in p t r : List.find p t = None -> In r t -> p r = false.
Proof. intros Hf Hin. exact (find_none _ _ Hf _ Hin). Qed.

Lemma omap_In {B} (f : R -> option B) t b :
  In b (omap f t) <-> exists r, In r t /\ f r = Some b.
Proof. rewrite <- list_elem_of_In, list_elem_of_omap. setoid_rewrite list_elem_of_In. done. Qed.

Lemma unique_on_cons k r t :
  unique_on k (r :: t) <->
  unique_on k t /\ forall x, k r = Some x -> forall r', In r' t -> k r' <> Some x.
Proof.
  unfold unique_on. simpl. destruct (k r) as [x|] eqn:E; [|naive_solver].
  change (NoDup (x :: omap k t) <-> NoDup (omap k t) /\
    forall y, Some x = Some y -> forall r', In r' t -> k r' <> Some y).
  rewrite NoDup_cons, list_elem_of_In, omap_In. naive_solver.
Qed.

Lemma unique_on_inj k t r1 r2 x :
  unique_on k t -> In r1 t -> In r2 t -> k r1 = Some x -> k r2 = Some x -> r1 = r2.
Proof.
  intros Hu. induction t as [|r t IH]; simpl; [done|].
  apply unique_on_cons in Hu as [Hu Hr].
  intros [->|H1] [->|H2] Hk1 Hk2; auto.
  - destruct (Hr x Hk1 r2 H2 Hk2).
  - destruct (Hr x Hk2 r1 H1 Hk1).
Qed.

Lemma unique_on_app k t r :
  unique_on k (t ++ [r]) <->
  unique_on k t /\ forall x, k r = Some x -> forall r', In r' t -> k r' <> Some x.
Proof.
  unfold unique_on. rewrite omap_app, NoDup_app. simpl.
  setoid_rewrite list_elem_of_In. setoid_rewrite omap_In.
  destruct (k r) as [x|] eqn:E; simpl; split.
  - intros (H1 & H2 & _). split; [done|]. intros y [= <-] r' Hr' Hk. eapply H2; eauto.
  - intros (H1 & H2). split_and!; [done| |apply NoDup_singleton].
    intros y (r' & Hr' & Hk) [<-|[]]. eapply H2; eauto.
  - naive_solver.
  - intros [H1 _]. split_and!; [done| |constructor]. naive_solver.
Qed.

(** An update that keeps each touched row's key, or takes it out of the index. *)
Lemma unique_on_apply_where k p f t :
  unique_on k t ->
  (forall r, In r t -> p r = true -> k (f r) = k r \/ k (f r) = None) ->
  unique_on k (apply_where p f t).
Proof.
  intros Hu. induction t as [|r t IH]; intros Hf; [done|].
  apply unique_on_cons in Hu as [Hu Hr].
  change (unique_on k ((if p r then f r else r) :: apply_where p f t)).
  apply unique_on_cons. split; [apply IH; naive_solver|].
  intros x Hx r' (r0 & Hr0 & ->)%in_apply_where Hk.
  assert (k r = Some x).
  { destruct (p r) eqn:Hp; [|done]. destruct (Hf r) as [He|He]; simpl; auto; congruence. }
  apply (Hr x H r0 Hr0). destruct (p r0) eqn:Hp; [|done].
  destruct (Hf r0) as [He|He]; simpl; auto; congruence.
Qed.

Lemma unique_on_filter k p t : unique_on k t -> unique_on k (List.filter p t).
Proof.
  induction t as [|r t IH]; [done|]. intros [Hu Hr]%unique_on_cons. simpl.
  destruct (p r); [|auto]. apply unique_on_cons. split; [auto|].
  intros x Hx r' [Hin _]%filter_In. eauto.
Qed.
End Rows.

(** ** Calls that only read *)

(** What a call returns on a database, for calls that neither write nor read
    the clock. *)
Definition peek {D A} (m : db D A) (d : D) : result A :=
  (m (Conn d false (fun _ => 0) (fun _ => ""%string) 0)).1.

Definition reads {D A} (m : db D A) : Prop := forall c, m c = (peek m (store c), c).

Section Reads.
Context {D : Type}.

Lemma reads_ret {A} (a : A) : reads (mret a : db D A).
Proof. done. Qed.
Lemma reads_raise {A} e : reads (raise e : db D A).
Proof. done. Qed.
Lemma reads_lift {A} (r : result A) : reads (lift r : db D A).
Proof. done. Qed.
Lemma reads_fetchone {R} `{Table D R} p : reads (fetchone p : db D (option R)).
Proof. done. Qed.
Lemma reads_gets {A} (f : D -> A) : reads (gets (fun c => f (store c)) : db D A).
Proof. done. Qed.

Lemma reads_bind {A B} (m : db D A) (f : A -> db D B) :
  reads m -> (forall a, reads (f a)) -> reads (m ≫= f).
Proof.
  intros Hm Hf c. unfold mbind, M_bind, peek. rewrite Hm.
  rewrite (Hm (Conn _ _ _ _ _)). simpl.
  destruct (peek m (store c)) as [a|e]; [|done]. by rewrite Hf.
Qed.

Lemma peek_lift {A} (r : result A) (d : D) : peek (lift r) d = r.
Proof. done. Qed.
Lemma peek_fetchone {R} `{Table D R} p d :
  peek (fetchone p : db D (option R)) d = Ok (List.find p (rows d)).
Proof. done. Qed.

Lemma peek_bind {A B} (m : db D A) (f : A -> db D B) d :
  reads m -> peek (m ≫= f) d = (a ← peek m d; peek (f a) d).
Proof.
  intros Hm. unfold peek at 1. unfold mbind at 1, M_bind. rewrite Hm. simpl.
  by destruct (peek m d).
Qed.
End Reads.

Create HintDb reads discriminated.
#[export] Hint Resolve reads_ret reads_raise reads_lift reads_fetchone reads_gets : reads.

Ltac reads :=
  repeat match goal with
  | |- reads (_ ≫= _) => apply reads_bind; [| intros ?]
  | |- reads (let _ := _ in _) => cbv zeta
  | |- reads (match ?x with _ => _ end) => destruct x
  | |- reads _ => solve [auto with reads]
  end.

(** ** Following a call that returned *)

Lemma lift_ok {S A} (r : result A) (s s' : S) a :
  lift r s = (Ok a, s') -> r = Ok a /\ s' = s.
Proof. unfold lift. naive_solver. Qed.

Lemma reads_ok {D A} (m : db D A) c a c' :
  reads m -> m c = (Ok a, c') -> peek m (store c) = Ok a /\ c' = c.
Proof. intros Hm. rewrite Hm. naive_solver. Qed.

(** Only the clock of the connection moved. *)
Definition same_store {D} (c c' : conn D) : Prop :=
  store c' = store c /\ in_transaction c' = in_transaction c.

(** Names the steps of a call known to have returned. *)
Ltac follow_step :=
  match goal with
  | H : (_ ≫= _) _ = (Ok _, _) |- _ =>
      let a := fresh "a" in let s := fresh "s" in let E := fresh "E" in
      apply bind_ok in H as (a & s & E & H)
  | H : lift _ _ = (Ok _, _) |- _ =>
      let E := fresh "E" in apply lift_ok in H as [E ->]
  | H : mret _ _ = (Ok _, _) |- _ => injection H as H; subst
  | H : raise _ _ = (Ok _, _) |- _ => discriminate H
  | H : fetchone _ _ = (Ok _, _) |- _ => injection H as H; subst
  | H : gets _ _ = (Ok _, _) |- _ => injection H as H; subst
  | H : transaction _ _ = (Ok _, _) |- _ =>
      let c1 := fresh "c" in let E := fresh "E" in let T := fresh "T" in
      apply transaction_ok in H as (c1 & E & -> & T)
  | H : insert _ _ = (Ok _, _) |- _ =>
      let E := fresh "E" in apply insert_ok in H as [-> E]
  | H : update _ _ _ = (Ok _, _) |- _ =>
      let E := fresh "E" in apply update_ok in H as (-> & -> & E)
  end.
Ltac follow := repeat (follow_step; simpl in *).

(** ** Transactions around reads, and rows after an update *)

Lemma with_transaction_id {D} (c : conn D) b :
  in_transaction c = b -> with_transaction b (with_transaction true c) = c.
Proof. destruct c. simpl. by intros ->. Qed.

Lemma transaction_peek {D A} (m : db D A) c :
  in_transaction c = false -> reads m -> transaction m c = (peek m (store c), c).
Proof.
  intros Ht Hm. unfold transaction. rewrite Ht, Hm. simpl.
  destruct (peek m (store c)); [by rewrite with_transaction_id|].
  destruct c; simpl in *; by subst.
Qed.

Lemma find_app_left {R} (p : R -> bool) t u r :
  List.find p t = Some r -> List.find p (t ++ u) = Some r.
Proof. induction t as [|x t IH]; simpl; [done|]. by destruct (p x). Qed.

Lemma find_app_some {R} (p : R -> bool) t r :
  List.find p t = None -> p r = true -> List.find p (t ++ [r]) = Some r.
Proof.
  induction t as [|x t IH]; simpl; [by intros _ ->|].
  destruct (p x); [done|auto].
Qed.

Lemma find_apply_where {R} (p q : R -> bool) f t :
  (forall r, p r = true -> q r = true /\ q (f r) = true) ->
  (0 < length (List.filter p t))%nat -> is_Some (List.find q (apply_where p f t)).
Proof.
  intros Hpq. induction t as [|r t IH]; simpl; [lia|].
  destruct (p r) eqn:E; simpl.
  - intros _. destruct (Hpq r E) as [_ ->]. done.
  - intros Hl. destruct (q r); [done|]. auto.
Qed.

Lemma filter_none_find {R} (p : R -> bool) t :
  List.find p t = None <-> List.filter p t = [].
Proof.
  induction t as [|r t IH]; simpl; [done|]. destruct (p r); [done|]. done.
Qed.

Lemma unique_filter_length {R} (k : R -> key) (p : R -> bool) x t :
  unique_on k t -> (forall r, p r = true -> k r = Some x) ->
  (length (List.filter p t) <= 1)%nat.
Proof.
  intros Hu Hp. induction t as [|r t IH]; simpl; [lia|].
  apply unique_on_cons in Hu as [Hu Hr].
  destruct (p r) eqn:E; [|auto]. simpl.
  destruct (List.filter p t) as [|r' l] eqn:F; simpl; [lia|].
  assert (In r' (List.filter p t)) as [Hin Hpr]%filter_In by (rewrite F; left; done).
  destruct (Hr x (Hp _ E) r' Hin). auto.
Qed.

Lemma table_ok_unique {D R} `{Table D R} (d : D) t k :
  table_ok d t = true -> In k unique_keys -> unique_on k t.
Proof.
  unfold table_ok. rewrite !andb_true_iff, !forallb_forall. intros [_ Hk] Hin.
  by apply Hk, bool_decide_eq_true in Hin.
Qed.

Lemma table_ok_row {D R} `{Table D R} (d : D) t r :
  table_ok d t = true -> In r t -> row_check r = true /\ references d r = true.
Proof. unfold table_ok. rewrite !andb_true_iff, !forallb_forall. naive_solver. Qed.

(** ** Guarded writes: what a call does to a database it has just read *)

Definition evolves_from {D A} (d : D) (P : D -> D -> Prop) (m : db D A) : Prop :=
  forall c, store c = d -> P d (store (m c).2).

Section EvolvesFrom.
Context {D : Type} (P : D -> D -> Prop).

Lemma evolves_of_from {A} (m : db D A) : (forall d, evolves_from d P m) -> evolves P m.
Proof. intros Hm c. by apply Hm. Qed.

Lemma from_evolves {A} d (m : db D A) : evolves P m -> evolves_from d P m.
Proof. intros Hm c <-. apply Hm. Qed.

Lemma from_reads `{!Reflexive P} {A B} d (m : db D A) (f : A -> db D B) :
  reads m -> (forall a, peek m d = Ok a -> evolves_from d P (f a)) ->
  evolves_from d P (m ≫= f).
Proof.
  intros Hm Hf c <-. unfold mbind, M_bind. rewrite Hm. simpl.
  destruct (peek m (store c)) as [a|e] eqn:E; [|done]. by apply Hf.
Qed.

(** After a step that leaves the database alone, such as reading the clock. *)
Lemma from_still `{!Reflexive P} {A B} d (m : db D A) (f : A -> db D B) :
  evolves eq m -> (forall a, evolves_from d P (f a)) -> evolves_from d P (m ≫= f).
Proof.
  intros Hm Hf c <-. unfold mbind, M_bind. specialize (Hm c).
  destruct (m c) as [[a|e] c']; simpl in *; [|by rewrite <- Hm].
  by apply Hf.
Qed.

Lemma from_bind `{!Transitive P} {A B} d (m : db D A) (f : A -> db D B) :
  evolves_from d P m -> (forall a, evolves P (f a)) -> evolves_from d P (m ≫= f).
Proof.
  intros Hm Hf c Hc. specialize (Hm c Hc). unfold mbind, M_bind.
  destruct (m c) as [[a|e] c']; simpl in *; [|done].
  etrans; [exact Hm|apply Hf].
Qed.

Lemma from_transaction `{!Reflexive P} {A} d (m : db D A) :
  evolves_from d P m -> evolves_from d P (transaction m).
Proof.
  intros Hm c Hc. unfold transaction. destruct (in_transaction c); simpl; [by rewrite Hc|].
  specialize (Hm (with_transaction true c) Hc). destruct (m _) as [[a|e] c']; simpl in *; [done|].
  by rewrite Hc.
Qed.

Lemma from_update `{!Reflexive P} {R} `{Table D R} d p f :
  (table_ok d (apply_where p f (rows d)) = true -> P d (put_rows (apply_where p f (rows d)) d)) ->
  evolves_from d P (update p f).
Proof.
  intros Hu c <-. unfold update, write. destruct (forallb _ _); simpl; [|done].
  destruct (table_ok _ _) eqn:E; simpl; auto.
Qed.

Lemma from_insert `{!Reflexive P} {R} `{Table D R} d r :
  (table_ok d (rows d ++ [r]) = true -> P d (put_rows (rows d ++ [r]) d)) ->
  evolves_from d P (insert r).
Proof. intros Hu c <-. unfold insert, write. destruct (table_ok _ _) eqn:E; simpl; auto. Qed.

(** Before a step that leaves the database alone, such as reading back a row. *)
Lemma from_last {A B} d (m : db D A) (f : A -> db D B) :
  evolves_from d P m -> (forall a, evolves eq (f a)) -> evolves_from d P (m ≫= f).
Proof.
  intros Hm Hf c Hc. specialize (Hm c Hc). unfold mbind, M_bind.
  destruct (m c) as [[a|e] c']; simpl in *; [|done]. by rewrite <- (Hf a c').
Qed.

Lemma from_delete `{!Reflexive P} {R} `{Table D R} d p :
  P d (put_rows (List.filter (fun r => negb (p r)) (rows d)) d) -> evolves_from d P (delete p).
Proof. intros Hd c <-. unfold delete, write. destruct (table_ok _ _); simpl; auto. Qed.

Lemma from_upsert `{!Reflexive P} {R} `{Table D R} d p r f :
  evolves_from d P (insert r) -> evolves_from d P (update p f) -> evolves_from d P (upsert p r f).
Proof.
  intros Hi Hu c Hc. unfold upsert. destruct (existsb _ _); [|by apply Hi].
  apply (from_last d (update p f)); [done| |done]. intros a c'. done.
Qed.
End EvolvesFrom.

(** ** What a call returns *)

Definition returns {D A} (Q : A -> Prop) (m : db D A) : Prop :=
  forall c a c', m c = (Ok a, c') -> Q a.

Lemma evolves_bind_returns {D} (P : D -> D -> Prop) `{!Transitive P} {A B} (Q : A -> Prop)
    (m : db D A) (f : A -> db D B) :
  evolves P m -> returns Q m -> (forall a, Q a -> evolves P (f a)) -> evolves P (m ≫= f).
Proof.
  intros Hm HQ Hf c. specialize (Hm c). specialize (HQ c). unfold mbind, M_bind.
  destruct (m c) as [[a|e] c'] eqn:E; simpl in *; [|done].
  etrans; [exact Hm|]. apply Hf. eauto.
Qed.

Lemma returns_lift {D A} (Q : A -> Prop) (r : result A) :
  (forall a, r = Ok a -> Q a) -> returns Q (lift r : db D A).
Proof. intros Hr c a c' [-> _]%lift_ok. auto. Qed.

Lemma returns_bind {D A B} (Q : B -> Prop) (m : db D A) (f : A -> db D B) :
  (forall a, returns Q (f a)) -> returns Q (m ≫= f).
Proof. intros Hf c b c' (a & c1 & _ & H)%bind_ok. by apply (Hf a) in H. Qed.

Lemma returns_bind_with {D A B} (R : A -> Prop) (Q : B -> Prop) (m : db D A) (f : A -> db D B) :
  returns R m -> (forall a, R a -> returns Q (f a)) -> returns Q (m ≫= f).
Proof. intros Hm Hf c b c' (a & c1 & H1 & H)%bind_ok. apply Hm in H1. by apply (Hf a) in H. Qed.

Lemma returns_ret {D A} (Q : A -> Prop) a : Q a -> returns Q (mret a : db D A).
Proof. intros Ha c b c' H. injection H as <- _. done. Qed.

Lemma returns_raise {D A} (Q : A -> Prop) e : returns Q (raise e : db D A).
Proof. intros c b c' H. discriminate H. Qed.

(** ** Calls whose errors leave no trace *)

Definition atomic {D A} (m : db D A) : Prop :=
  forall c e c', m c = (Raise e, c') -> store c' = store c.

Section Atomic.
Context {D : Type}.

Lemma atomic_still {A} (m : db D A) : evolves eq m -> atomic m.
Proof. intros Hm c e c' H. specialize (Hm c). by rewrite H in Hm. Qed.

Lemma atomic_transaction {A} (m : db D A) : atomic (transaction m).
Proof. intros c e c'. apply transaction_raise. Qed.

Lemma atomic_bind_still {A B} (m : db D A) (f : A -> db D B) :
  evolves eq m -> (forall c a c', m c = (Ok a, c') -> atomic (f a)) -> atomic (m ≫= f).
Proof.
  intros Hm Hf c e c' [H|(a & c1 & H1 & H)]%bind_raise; specialize (Hm c).
  - by rewrite H in Hm.
  - rewrite H1 in Hm. simpl in Hm. rewrite Hm. by eapply Hf.
Qed.

(** The work after the commit cannot fail. *)
Lemma atomic_commit {A B} (m : db D A) (f : A -> db D B) :
  (forall c a c1, transaction m c = (Ok a, c1) -> exists b, (f a c1).1 = Ok b) ->
  atomic (transaction m ≫= f).
Proof.
  intros Hf c e c' [H|(a & c1 & H1 & H)]%bind_raise; [by eapply transaction_raise|].
  destruct (Hf _ _ _ H1) as [b Hb]. rewrite H in Hb. done.
Qed.

Lemma atomic_then_ret {A B} (m : db D A) (g : A -> B) : atomic m -> atomic (a ← m; mret (g a)).
Proof. intros Hm c e c' [H|(a & c1 & _ & H)]%bind_raise; [by eapply Hm|done]. Qed.
End Atomic.
