(* ===== verification/Schema.v ===== *)
(** * The controller's tables (src/openstack_platform/controller/database.py)

    One record per table of [MIGRATIONS], a [Db] that holds them all, and a
    [Table] instance per table with its CHECK constraints, foreign keys, unique
    and partial unique indexes and triggers.  A column restricted by CHECK to
    fixed words that the code always writes as literals is an inductive type;
    [refs_json] and [usage_json] hold the value their text decodes to. *)

From S2P Require Import Prelude Regex Json Validation Runtime Sql.

(** ** Rows *)

Inductive op_status := op_running | op_succeeded | op_failed | op_recovery_required.
Inductive dispatch_status := d_pending | d_running | d_finished | d_recovery_required.
Inductive attempt_status :=
  | a_queued | a_building | a_deploying | a_succeeded | a_failed | a_recovery_required.
Inductive lifecycle := l_running | l_stopped.

#[export] Instance op_status_eq : EqDecision op_status.
Proof. solve_decision. Defined.
#[export] Instance dispatch_status_eq : EqDecision dispatch_status.
Proof. solve_decision. Defined.
#[export] Instance attempt_status_eq : EqDecision attempt_status.
Proof. solve_decision. Defined.
#[export] Instance lifecycle_eq : EqDecision lifecycle.
Proof. solve_decision. Defined.

Record IdempotencyRequest := {
  rq_request_id : string;
  rq_request_fingerprint : string;
  rq_result_kind : option string;
  rq_result_id : option string;
  rq_created_at : string;
  rq_completed_at : option string;
}.

Record Operation := {
  op_operation_id : string;
  op_kind : string;
  op_scope : string;
  op_st : op_status;
  op_phase : string;
  op_started_at : string;
  op_updated_at : string;
  op_deadline_at : string;
  op_refs : dict;
  op_candidate_digest : option string;
  op_safe_error : option string;
  op_cleanup_state : string;
  op_finishing : bool;
}.

Record OperationDispatch := {
  dp_operation_id : string;
  dp_kind : string;
  dp_scope : string;
  dp_st : dispatch_status;
  dp_created_at : string;
  dp_updated_at : string;
  dp_safe_error : option string;
  dp_finishing : bool;
}.

Record Application := {
  app_application_id : string;
  app_slug : string;
  app_repository_url : option string;
  app_desired_running : bool;
  app_url : option string;
  app_worker_server_id : option string;
  app_worker_server_name : option string;
  app_worker_port_id : option string;
  app_worker_port_name : option string;
  app_worker_flavor : string;
  app_scheduler_cpu_mhz : Z;
  app_scheduler_memory_mib : Z;
  app_created_at : string;
  app_updated_at : string;
  app_builder_flavor : option string;
}.

Record SlugTombstone := {
  ts_slug : string;
  ts_application_id : string;
  ts_deleted_at : string;
}.

Record EnvironmentRevision := {
  er_application_id : string;
  er_revision : Z;
  er_updated_at : string;
}.

Record EnvironmentKey := {
  ek_application_id : string;
  ek_key_name : string;
  ek_owner : string;
}.

Record DeploymentAttempt := {
  at_deployment_id : string;
  at_application_id : string;
  at_st : attempt_status;
  at_source_commit : string;
  at_requested_ref : option string;
  at_configuration_revision : option Z;
  at_configuration_json : string;
  at_configuration_sha256 : string;
  at_environment_revision : option Z;
  at_idempotency_request_id : option string;
  at_recipe_hash : option string;
  at_image_digest : option string;
  at_nomad_job : option string;
  at_nomad_job_sha256 : option string;
  at_nomad_version : option Z;
  at_health_path : option string;
  at_application_port : option Z;
  at_build_log_path : option string;
  at_safe_error : option string;
  at_cleanup_state : option string;
  at_requested_at : string;
  at_updated_at : string;
  at_accepted_at : option string;
  at_last_healthy_at : option string;
}.

Record ActiveDeployment := {
  ac_application_id : string;
  ac_deployment_id : string;
  ac_lifecycle_state : lifecycle;
  ac_updated_at : string;
}.

Record ManagedResource := {
  mr_resource_id : string;
  mr_application_id : string;
  mr_resource_type : string;
  mr_resource_name : string;
  mr_display_label : string;
  mr_provider_id : option string;
  mr_provider_name : string;
  mr_lifecycle_state : string;
  mr_postgres_connections : option Z;
  mr_measured_target_bytes : option Z;
  mr_s3_bytes : option Z;
  mr_s3_objects : option Z;
  mr_last_verified_at : option string;
  mr_created_at : string;
  mr_updated_at : string;
  mr_usage : dict;
  mr_usage_error : option string;
  mr_write_blocked : bool;
  mr_blocked_since : option string;
  mr_memory_bytes : option Z;
  mr_cpu_millicores : option Z;
  mr_mongo_connections : option Z;
  mr_instance_id : option string;
  mr_instance_port : option Z;
  mr_migration_state : option string;
}.

Record ImageSelection := {
  im_role : string;
  im_image_id : string;
  im_display_name : string;
  im_source_commit : string;
  im_compatibility_hash : string;
  im_selected_at : string;
}.

(** Singleton tables. *)
Record BuilderSettings := { bs_flavor : string }.
Record StorageHostUsage := { hu_usage : dict }.

(** The retained port of an application (controller/fixed_ip_service.py):
    [record_json] holds the fields of [PortRecord]. *)
Inductive port_phase := po_allocating | po_reserved | po_deleting.
#[export] Instance port_phase_eq : EqDecision port_phase.
Proof. solve_decision. Defined.

Record PortRecord := {
  po_application_id : string;
  po_request_id : string;
  po_project_id : string;
  po_network_id : string;
  po_subnet_id : string;
  po_address : string;
  po_security_group_id : string;
  po_port_id : option string;
  po_name : string;
  po_description : string;
  po_phase : port_phase;
  po_worker_slot_id : option string;
  po_worker_create_pending : bool;
}.

Record FixedPort := { fp_application_id : string; fp_port_id : option string; fp_record : PortRecord }.

(** The addresses from which an application's instances may be reached, as last
    applied: [record_json] holds the instances and the address of each slot. *)
Record WorkerAllowlist := {
  wa_application_id : string;
  wa_instance_ids : list string;
  wa_slots : list (string * option string);
}.

(** The floating address of an application (controller/public_ip_service.py):
    [record_json] holds the fields of [Reservation], the whole worker slot of a
    port in [port] and [pending_port]. *)
Inductive ip_phase :=
  | ip_allocating | ip_reserved | ip_assigning | ip_active | ip_releasing | ip_detached | ip_deleting.
#[export] Instance ip_phase_eq : EqDecision ip_phase.
Proof. solve_decision. Defined.

Record WorkerSlot := {
  ws_slot_id : string;
  ws_slug : string;
  ws_server_id : string;
  ws_server_name : string;
  ws_port_id : string;
  ws_port_name : string;
}.
#[export] Instance worker_slot_eq : EqDecision WorkerSlot.
Proof. solve_decision. Defined.

(** A worker slot with its [fixed_ip] *)
Record Binding := { bi_slot : WorkerSlot; bi_fixed_ip : string }.
#[export] Instance binding_eq : EqDecision Binding.
Proof. solve_decision. Defined.

Record Reservation := {
  re_request_id : string;
  re_project_id : string;
  re_network_id : string;
  re_floating_ip_id : option string;
  re_address : option string;
  re_description : json;
  re_allocated : bool;
  re_phase : ip_phase;
  re_port : option Binding;
  re_pending_port : option Binding;
}.

Record FloatingIp := { fi_application_id : string; fi_floating_ip_id : option string; fi_record : Reservation }.

(** ** The database *)

Record Db := {
  idempotency_requests : list IdempotencyRequest;
  operations : list Operation;
  operation_dispatches : list OperationDispatch;
  applications : list Application;
  application_slug_tombstones : list SlugTombstone;
  environment_revisions : list EnvironmentRevision;
  environment_keys : list EnvironmentKey;
  deployment_attempts : list DeploymentAttempt;
  active_deployments : list ActiveDeployment;
  managed_resources : list ManagedResource;
  image_selections : list ImageSelection;
  builder_settings : list BuilderSettings;
  storage_host_usage : list StorageHostUsage;
  application_fixed_ports : list FixedPort;
  application_floating_ips : list FloatingIp;
  storage_worker_allowlists : list WorkerAllowlist;
}.

Definition empty_db : Db := {|
  idempotency_requests := [];
  operations := [];
  operation_dispatches := [];
  applications := [];
  application_slug_tombstones := [];
  environment_revisions := [];
  environment_keys := [];
  deployment_attempts := [];
  active_deployments := [];
  managed_resources := [];
  image_selections := [];
  builder_settings := [];
  storage_host_usage := [];
  application_fixed_ports := [];
  application_floating_ips := [];
  storage_worker_allowlists := [];
|}.

Definition with_idempotency_requests (rs : list IdempotencyRequest) (d : Db) : Db := {|
  idempotency_requests := rs;
  operations := operations d;
  operation_dispatches := operation_dispatches d;
  applications := applications d;
  application_slug_tombstones := application_slug_tombstones d;
  environment_revisions := environment_revisions d;
  environment_keys := environment_keys d;
  deployment_attempts := deployment_attempts d;
  active_deployments := active_deployments d;
  managed_resources := managed_resources d;
  image_selections := image_selections d;
  builder_settings := builder_settings d;
  storage_host_usage := storage_host_usage d;
  application_fixed_ports := application_fixed_ports d;
  application_floating_ips := application_floating_ips d;
  storage_worker_allowlists := storage_worker_allowlists d;
|}.

Definition with_operations (rs : list Operation) (d : Db) : Db := {|
  idempotency_requests := idempotency_requests d;
  operations := rs;
  operation_dispatches := operation_dispatches d;
  applications := applications d;
  application_slug_tombstones := application_slug_tombstones d;
  environment_revisions := environment_revisions d;
  environment_keys := environment_keys d;
  deployment_attempts := deployment_attempts d;
  active_deployments := active_deployments d;
  managed_resources := managed_resources d;
  image_selections := image_selections d;
  builder_settings := builder_settings d;
  storage_host_usage := storage_host_usage d;
  application_fixed_ports := application_fixed_ports d;
  application_floating_ips := application_floating_ips d;
  storage_worker_allowlists := storage_worker_allowlists d;
|}.

Definition with_operation_dispatches (rs : list OperationDispatch) (d : Db) : Db := {|
  idempotency_requests := idempotency_requests d;
  operations := operations d;
  operation_dispatches := rs;
  applications := applications d;
  application_slug_tombstones := application_slug_tombstones d;
  environment_revisions := environment_revisions d;
  environment_keys := environment_keys d;
  deployment_attempts := deployment_attempts d;
  active_deployments := active_deployments d;
  managed_resources := managed_resources d;
  image_selections := image_selections d;
  builder_settings := builder_settings d;
  storage_host_usage := storage_host_usage d;
  application_fixed_ports := application_fixed_ports d;
  application_floating_ips := application_floating_ips d;
  storage_worker_allowlists := storage_worker_allowlists d;
|}.

Definition with_applications (rs : list Application) (d : Db) : Db := {|
  idempotency_requests := idempotency_requests d;
  operations := operations d;
  operation_dispatches := operation_dispatches d;
  applications := rs;
  application_slug_tombstones := application_slug_tombstones d;
  environment_revisions := environment_revisions d;
  environment_keys := environment_keys d;
  deployment_attempts := deployment_attempts d;
  active_deployments := active_deployments d;
  managed_resources := managed_resources d;
  image_selections := image_selections d;
  builder_settings := builder_settings d;
  storage_host_usage := storage_host_usage d;
  application_fixed_ports := application_fixed_ports d;
  application_floating_ips := application_floating_ips d;
  storage_worker_allowlists := storage_worker_allowlists d;
|}.

Definition with_application_slug_tombstones (rs : list SlugTombstone) (d : Db) : Db := {|
  idempotency_requests := idempotency_requests d;
  operations := operations d;
  operation_dispatches := operation_dispatches d;
  applications := applications d;
  application_slug_tombstones := rs;
  environment_revisions := environment_revisions d;
  environment_keys := environment_keys d;
  deployment_attempts := deployment_attempts d;
  active_deployments := active_deployments d;
  managed_resources := managed_resources d;
  image_selections := image_selections d;
  builder_settings := builder_settings d;
  storage_host_usage := storage_host_usage d;
  application_fixed_ports := application_fixed_ports d;
  application_floating_ips := application_floating_ips d;
  storage_worker_allowlists := storage_worker_allowlists d;
|}.

Definition with_environment_revisions (rs : list EnvironmentRevision) (d : Db) : Db := {|
  idempotency_requests := idempotency_requests d;
  operations := operations d;
  operation_dispatches := operation_dispatches d;
  applications := applications d;
  application_slug_tombstones := application_slug_tombstones d;
  environment_revisions := rs;
  environment_keys := environment_keys d;
  deployment_attempts := deployment_attempts d;
  active_deployments := active_deployments d;
  managed_resources := managed_resources d;
  image_selections := image_selections d;
  builder_settings := builder_settings d;
  storage_host_usage := storage_host_usage d;
  application_fixed_ports := application_fixed_ports d;
  application_floating_ips := application_floating_ips d;
  storage_worker_allowlists := storage_worker_allowlists d;
|}.

Definition with_environment_keys (rs : list EnvironmentKey) (d : Db) : Db := {|
  idempotency_requests := idempotency_requests d;
  operations := operations d;
  operation_dispatches := operation_dispatches d;
  applications := applications d;
  application_slug_tombstones := application_slug_tombstones d;
  environment_revisions := environment_revisions d;
  environment_keys := rs;
  deployment_attempts := deployment_attempts d;
  active_deployments := active_deployments d;
  managed_resources := managed_resources d;
  image_selections := image_selections d;
  builder_settings := builder_settings d;
  storage_host_usage := storage_host_usage d;
  application_fixed_ports := application_fixed_ports d;
  application_floating_ips := application_floating_ips d;
  storage_worker_allowlists := storage_worker_allowlists d;
|}.

Definition with_deployment_attempts (rs : list DeploymentAttempt) (d : Db) : Db := {|
  idempotency_requests := idempotency_requests d;
  operations := operations d;
  operation_dispatches := operation_dispatches d;
  applications := applications d;
  application_slug_tombstones := application_slug_tombstones d;
  environment_revisions := environment_revisions d;
  environment_keys := environment_keys d;
  deployment_attempts := rs;
  active_deployments := active_deployments d;
  managed_resources := managed_resources d;
  image_selections := image_selections d;
  builder_settings := builder_settings d;
  storage_host_usage := storage_host_usage d;
  application_fixed_ports := application_fixed_ports d;
  application_floating_ips := application_floating_ips d;
  storage_worker_allowlists := storage_worker_allowlists d;
|}.

Definition with_active_deployments (rs : list ActiveDeployment) (d : Db) : Db := {|
  idempotency_requests := idempotency_requests d;
  operations := operations d;
  operation_dispatches := operation_dispatches d;
  applications := applications d;
  application_slug_tombstones := application_slug_tombstones d;
  environment_revisions := environment_revisions d;
  environment_keys := environment_keys d;
  deployment_attempts := deployment_attempts d;
  active_deployments := rs;
  managed_resources := managed_resources d;
  image_selections := image_selections d;
  builder_settings := builder_settings d;
  storage_host_usage := storage_host_usage d;
  application_fixed_ports := application_fixed_ports d;
  application_floating_ips := application_floating_ips d;
  storage_worker_allowlists := storage_worker_allowlists d;
|}.

Definition with_managed_resources (rs : list ManagedResource) (d : Db) : Db := {|
  idempotency_requests := idempotency_requests d;
  operations := operations d;
  operation_dispatches := operation_dispatches d;
  applications := applications d;
  application_slug_tombstones := application_slug_tombstones d;
  environment_revisions := environment_revisions d;
  environment_keys := environment_keys d;
  deployment_attempts := deployment_attempts d;
  active_deployments := active_deployments d;
  managed_resources := rs;
  image_selections := image_selections d;
  builder_settings := builder_settings d;
  storage_host_usage := storage_host_usage d;
  application_fixed_ports := application_fixed_ports d;
  application_floating_ips := application_floating_ips d;
  storage_worker_allowlists := storage_worker_allowlists d;
|}.

Definition with_image_selections (rs : list ImageSelection) (d : Db) : Db := {|
  idempotency_requests := idempotency_requests d;
  operations := operations d;
  operation_dispatches := operation_dispatches d;
  applications := applications d;
  application_slug_tombstones := application_slug_tombstones d;
  environment_revisions := environment_revisions d;
  environment_keys := environment_keys d;
  deployment_attempts := deployment_attempts d;
  active_deployments := active_deployments d;
  managed_resources := managed_resources d;
  image_selections := rs;
  builder_settings := builder_settings d;
  storage_host_usage := storage_host_usage d;
  application_fixed_ports := application_fixed_ports d;
  application_floating_ips := application_floating_ips d;
  storage_worker_allowlists := storage_worker_allowlists d;
|}.

Definition with_builder_settings (rs : list BuilderSettings) (d : Db) : Db := {|
  idempotency_requests := idempotency_requests d;
  operations := operations d;
  operation_dispatches := operation_dispatches d;
  applications := applications d;
  application_slug_tombstones := application_slug_tombstones d;
  environment_revisions := environment_revisions d;
  environment_keys := environment_keys d;
  deployment_attempts := deployment_attempts d;
  active_deployments := active_deployments d;
  managed_resources := managed_resources d;
  image_selections := image_selections d;
  builder_settings := rs;
  storage_host_usage := storage_host_usage d;
  application_fixed_ports := application_fixed_ports d;
  application_floating_ips := application_floating_ips d;
  storage_worker_allowlists := storage_worker_allowlists d;
|}.

Definition with_storage_host_usage (rs : list StorageHostUsage) (d : Db) : Db := {|
  idempotency_requests := idempotency_requests d;
  operations := operations d;
  operation_dispatches := operation_dispatches d;
  applications := applications d;
  application_slug_tombstones := application_slug_tombstones d;
  environment_revisions := environment_revisions d;
  environment_keys := environment_keys d;
  deployment_attempts := deployment_attempts d;
  active_deployments := active_deployments d;
  managed_resources := managed_resources d;
  image_selections := image_selections d;
  builder_settings := builder_settings d;
  storage_host_usage := rs;
  application_fixed_ports := application_fixed_ports d;
  application_floating_ips := application_floating_ips d;
  storage_worker_allowlists := storage_worker_allowlists d;
|}.

Definition with_application_fixed_ports (rs : list FixedPort) (d : Db) : Db := {|
  idempotency_requests := idempotency_requests d;
  operations := operations d;
  operation_dispatches := operation_dispatches d;
  applications := applications d;
  application_slug_tombstones := application_slug_tombstones d;
  environment_revisions := environment_revisions d;
  environment_keys := environment_keys d;
  deployment_attempts := deployment_attempts d;
  active_deployments := active_deployments d;
  managed_resources := managed_resources d;
  image_selections := image_selections d;
  builder_settings := builder_settings d;
  storage_host_usage := storage_host_usage d;
  application_fixed_ports := rs;
  application_floating_ips := application_floating_ips d;
  storage_worker_allowlists := storage_worker_allowlists d;
|}.

Definition with_application_floating_ips (rs : list FloatingIp) (d : Db) : Db := {|
  idempotency_requests := idempotency_requests d;
  operations := operations d;
  operation_dispatches := operation_dispatches d;
  applications := applications d;
  application_slug_tombstones := application_slug_tombstones d;
  environment_revisions := environment_revisions d;
  environment_keys := environment_keys d;
  deployment_attempts := deployment_attempts d;
  active_deployments := active_deployments d;
  managed_resources := managed_resources d;
  image_selections := image_selections d;
  builder_settings := builder_settings d;
  storage_host_usage := storage_host_usage d;
  application_fixed_ports := application_fixed_ports d;
  application_floating_ips := rs;
  storage_worker_allowlists := storage_worker_allowlists d;
|}.

Definition with_storage_worker_allowlists (rs : list WorkerAllowlist) (d : Db) : Db := {|
  idempotency_requests := idempotency_requests d;
  operations := operations d;
  operation_dispatches := operation_dispatches d;
  applications := applications d;
  application_slug_tombstones := application_slug_tombstones d;
  environment_revisions := environment_revisions d;
  environment_keys := environment_keys d;
  deployment_attempts := deployment_attempts d;
  active_deployments := active_deployments d;
  managed_resources := managed_resources d;
  image_selections := image_selections d;
  builder_settings := builder_settings d;
  storage_host_usage := storage_host_usage d;
  application_fixed_ports := application_fixed_ports d;
  application_floating_ips := application_floating_ips d;
  storage_worker_allowlists := rs;
|}.

(** ** CHECK constraints *)

Definition opt_all {A} (p : A -> bool) (o : option A) : bool :=
  match o with Some x => p x | None => true end.
Definition is_null {A} (o : option A) : bool := match o with None => true | _ => false end.
Definition not_null {A} (o : option A) : bool := negb (is_null o).

(** [safe_error IS NULL OR length(safe_error) <= 1024] *)
Definition short_error (e : option string) : bool :=
  opt_all (fun s => (String.length s <=? 1024)%nat) e.

Definition hex64 (s : string) : bool :=
  (String.length s =? 64)%nat && forallb hexdigit (list_ascii_of_string s).

Definition refs_limit : Z := 16384.

Definition request_check (r : IdempotencyRequest) : bool :=
  hex64 (rq_request_fingerprint r)
  && Bool.eqb (is_null (rq_result_kind r)) (is_null (rq_result_id r))
  && Bool.eqb (is_null (rq_result_id r)) (is_null (rq_completed_at r)).

Definition operation_check (r : Operation) : bool :=
  (Z.of_nat (String.length (dumps (JObj (op_refs r)))) <=? refs_limit)
  && short_error (op_safe_error r).

Definition dispatch_check (r : OperationDispatch) : bool := short_error (dp_safe_error r).

Definition application_check (r : Application) : bool :=
  (0 <? app_scheduler_cpu_mhz r) && (0 <? app_scheduler_memory_mib r).

Definition unfinished_attempt (s : attempt_status) : bool :=
  match s with a_queued | a_building | a_deploying | a_recovery_required => true | _ => false end.

Definition attempt_check (r : DeploymentAttempt) : bool :=
  opt_all (Z.leb 0) (at_configuration_revision r)
  && opt_all (Z.leb 0) (at_environment_revision r)
  && opt_all (Z.leb 0) (at_nomad_version r)
  && opt_all (fun p => (1 <=? p) && (p <=? 65535)) (at_application_port r)
  && short_error (at_safe_error r)
  && (not_null (at_requested_ref r) && not_null (at_configuration_revision r)
      && hex64 (at_configuration_sha256 r) && not_null (at_environment_revision r)
      && not_null (at_idempotency_request_id r))
  && (match at_st r with
      | a_succeeded =>
          not_null (at_recipe_hash r) && not_null (at_image_digest r)
          && not_null (at_nomad_job r) && not_null (at_nomad_job_sha256 r)
          && not_null (at_nomad_version r) && not_null (at_build_log_path r)
          && not_null (at_accepted_at r) && not_null (at_last_healthy_at r)
      | a_failed | a_recovery_required => not_null (at_safe_error r)
      | _ => true
      end).

(** The trigger [deployment_attempt_request_immutable]; [snapshot_kind] is the
    constant 'strict' and has no column here. *)
Definition attempt_guard (old new : DeploymentAttempt) : bool :=
  String.eqb (at_deployment_id old) (at_deployment_id new)
  && String.eqb (at_application_id old) (at_application_id new)
  && String.eqb (at_source_commit old) (at_source_commit new)
  && bool_decide (at_requested_ref old = at_requested_ref new)
  && bool_decide (at_configuration_revision old = at_configuration_revision new)
  && String.eqb (at_configuration_json old) (at_configuration_json new)
  && String.eqb (at_configuration_sha256 old) (at_configuration_sha256 new)
  && bool_decide (at_environment_revision old = at_environment_revision new)
  && bool_decide (at_idempotency_request_id old = at_idempotency_request_id new)
  && String.eqb (at_requested_at old) (at_requested_at new)
  && bool_decide (at_health_path old = at_health_path new)
  && bool_decide (at_application_port old = at_application_port new).

Definition one_of_words (l : list string) (s : string) : bool := existsb (String.eqb s) l.

Lemma one_of_words_in l s : one_of_words l s = true <-> In s l.
Proof.
  unfold one_of_words. rewrite existsb_exists. split.
  - by intros (x & Hx & ->%String.eqb_eq).
  - intros Hs. exists s. by rewrite String.eqb_refl.
Qed.

Lemma one_of_words_not l s : one_of_words l s = false <-> ~ In s l.
Proof. rewrite <- one_of_words_in. by destruct (one_of_words l s). Qed.

Definition name_glob : re :=
  Alt (Cls lower) (Cat (Cls lower) (Cat (Star (Cls slug_char)) (Cls lower_alnum))).

Definition resource_check (r : ManagedResource) : bool :=
  let ty := mr_resource_type r in
  one_of_words ["postgres"; "mongo"; "s3"] ty
  && (String.length (mr_resource_name r) <=? 40)%nat
  && fullmatch name_glob (mr_resource_name r) && negb (contains "--" (mr_resource_name r))
  && (1 <=? String.length (mr_display_label r))%nat
  && (String.length (mr_display_label r) <=? 100)%nat
  && one_of_words ["creating"; "active"; "removing"; "recovery_required"] (mr_lifecycle_state r)
  && opt_all (Z.ltb 0) (mr_postgres_connections r)
  && opt_all (Z.ltb 0) (mr_measured_target_bytes r)
  && opt_all (Z.ltb 0) (mr_s3_bytes r)
  && opt_all (Z.ltb 0) (mr_s3_objects r)
  && opt_all (Z.ltb 0) (mr_memory_bytes r)
  && opt_all (Z.ltb 0) (mr_cpu_millicores r)
  && opt_all (Z.ltb 0) (mr_mongo_connections r)
  && opt_all (fun p => (30000 <=? p) && (p <=? 30999)) (mr_instance_port r)
  && (String.eqb ty "postgres" || is_null (mr_postgres_connections r))
  && (one_of_words ["postgres"; "mongo"] ty || is_null (mr_measured_target_bytes r))
  && (String.eqb ty "s3" || (is_null (mr_s3_bytes r) && is_null (mr_s3_objects r))).

(** ** Unique indexes and references *)

Definition unfinished (s : op_status) : bool :=
  match s with op_running | op_recovery_required => true | _ => false end.

Definition active_dispatch (s : dispatch_status) : bool :=
  match s with d_pending | d_running | d_recovery_required => true | d_finished => false end.

Definition pk (s : string) : key := Some [s].
Definition nullable_key (o : option string) : key := (fun s => [s]) <$> o.

(** [one_unfinished_operation_per_scope] and [one_finishing_operation_per_scope] *)
Definition operation_lane (finishing : bool) (r : Operation) : key :=
  if unfinished (op_st r) && Bool.eqb (op_finishing r) finishing then pk (op_scope r) else None.

(** [one_active_dispatch_per_scope] and [one_finishing_dispatch_per_scope] *)
Definition dispatch_lane (finishing : bool) (r : OperationDispatch) : key :=
  if active_dispatch (dp_st r) && Bool.eqb (dp_finishing r) finishing
  then pk (dp_scope r) else None.

(** [one_unfinished_deployment_per_application] *)
Definition attempt_lane (r : DeploymentAttempt) : key :=
  if unfinished_attempt (at_st r) then pk (at_application_id r) else None.

Definition has_application (d : Db) (a : string) : bool :=
  existsb (fun r => String.eqb (app_application_id r) a) (applications d).
Definition has_request (d : Db) (q : string) : bool :=
  existsb (fun r => String.eqb (rq_request_id r) q) (idempotency_requests d).
Definition has_attempt (d : Db) (a i : string) : bool :=
  existsb (fun r => String.eqb (at_application_id r) a && String.eqb (at_deployment_id r) i)
    (deployment_attempts d).

Definition no_check {A} (_ : A) : bool := true.
Definition no_reference {A} (_ : Db) (_ : A) : bool := true.
Definition no_guard {A} (_ _ : A) : bool := true.

#[export] Instance requests_table : Table Db IdempotencyRequest := {
  rows := idempotency_requests; put_rows := with_idempotency_requests;
  row_check := request_check; references := no_reference;
  unique_keys := [fun r => pk (rq_request_id r)]; update_guard := no_guard;
  rows_put := fun _ _ => eq_refl }.

#[export] Instance operations_table : Table Db Operation := {
  rows := operations; put_rows := with_operations;
  row_check := operation_check; references := no_reference;
  unique_keys := [(fun r => pk (op_operation_id r)); operation_lane false; operation_lane true];
  update_guard := no_guard; rows_put := fun _ _ => eq_refl }.

#[export] Instance dispatches_table : Table Db OperationDispatch := {
  rows := operation_dispatches; put_rows := with_operation_dispatches;
  row_check := dispatch_check; references := fun d r => has_request d (dp_operation_id r);
  unique_keys := [(fun r => pk (dp_operation_id r)); dispatch_lane false; dispatch_lane true];
  update_guard := no_guard; rows_put := fun _ _ => eq_refl }.

#[export] Instance applications_table : Table Db Application := {
  rows := applications; put_rows := with_applications;
  row_check := application_check; references := no_reference;
  unique_keys := [(fun r => pk (app_application_id r)); fun r => pk (app_slug r)];
  update_guard := no_guard; rows_put := fun _ _ => eq_refl }.

#[export] Instance tombstones_table : Table Db SlugTombstone := {
  rows := application_slug_tombstones; put_rows := with_application_slug_tombstones;
  row_check := no_check; references := no_reference;
  unique_keys := [fun r => pk (ts_slug r)]; update_guard := no_guard;
  rows_put := fun _ _ => eq_refl }.

#[export] Instance revisions_table : Table Db EnvironmentRevision := {
  rows := environment_revisions; put_rows := with_environment_revisions;
  row_check := fun r => 0 <=? er_revision r;
  references := fun d r => has_application d (er_application_id r);
  unique_keys := [fun r => pk (er_application_id r)]; update_guard := no_guard;
  rows_put := fun _ _ => eq_refl }.

#[export] Instance environment_keys_table : Table Db EnvironmentKey := {
  rows := environment_keys; put_rows := with_environment_keys;
  row_check := no_check; references := fun d r => has_application d (ek_application_id r);
  unique_keys := [fun r => Some [ek_application_id r; ek_key_name r]]; update_guard := no_guard;
  rows_put := fun _ _ => eq_refl }.

#[export] Instance attempts_table : Table Db DeploymentAttempt := {
  rows := deployment_attempts; put_rows := with_deployment_attempts;
  row_check := attempt_check;
  references := fun d r => has_application d (at_application_id r)
    && opt_all (has_request d) (at_idempotency_request_id r);
  unique_keys := [(fun r => pk (at_deployment_id r));
    (fun r => nullable_key (at_idempotency_request_id r)); attempt_lane];
  update_guard := attempt_guard; rows_put := fun _ _ => eq_refl }.

#[export] Instance active_table : Table Db ActiveDeployment := {
  rows := active_deployments; put_rows := with_active_deployments;
  row_check := no_check;
  references := fun d r => has_application d (ac_application_id r)
    && has_attempt d (ac_application_id r) (ac_deployment_id r);
  unique_keys := [fun r => pk (ac_application_id r)]; update_guard := no_guard;
  rows_put := fun _ _ => eq_refl }.

#[export] Instance resources_table : Table Db ManagedResource := {
  rows := managed_resources; put_rows := with_managed_resources;
  row_check := resource_check;
  references := fun d r => has_application d (mr_application_id r);
  unique_keys := [(fun r => pk (mr_resource_id r));
    (fun r => Some [mr_application_id r; mr_resource_type r; mr_resource_name r]);
    fun r => nullable_key (mr_instance_id r)]; update_guard := no_guard;
  rows_put := fun _ _ => eq_refl }.

#[export] Instance images_table : Table Db ImageSelection := {
  rows := image_selections; put_rows := with_image_selections;
  row_check := fun r => one_of_words ["admin"; "ingress"; "storage"; "worker"; "builder"] (im_role r);
  references := no_reference;
  unique_keys := [fun r => pk (im_role r)]; update_guard := no_guard;
  rows_put := fun _ _ => eq_refl }.

#[export] Instance builder_settings_table : Table Db BuilderSettings := {
  rows := builder_settings; put_rows := with_builder_settings;
  row_check := no_check; references := no_reference;
  unique_keys := [fun _ => pk "singleton"]; update_guard := no_guard;
  rows_put := fun _ _ => eq_refl }.

#[export] Instance host_usage_table : Table Db StorageHostUsage := {
  rows := storage_host_usage; put_rows := with_storage_host_usage;
  row_check := no_check; references := no_reference;
  unique_keys := [fun _ => pk "singleton"]; update_guard := no_guard;
  rows_put := fun _ _ => eq_refl }.

#[export] Instance fixed_ports_table : Table Db FixedPort := {
  rows := application_fixed_ports; put_rows := with_application_fixed_ports;
  row_check := no_check; references := fun d r => has_application d (fp_application_id r);
  unique_keys := [fun r => pk (fp_application_id r); fun r => (fun p => [p]) <$> fp_port_id r];
  update_guard := no_guard; rows_put := fun _ _ => eq_refl }.

#[export] Instance floating_ips_table : Table Db FloatingIp := {
  rows := application_floating_ips; put_rows := with_application_floating_ips;
  row_check := no_check; references := fun d r => has_application d (fi_application_id r);
  unique_keys := [fun r => pk (fi_application_id r); fun r => (fun p => [p]) <$> fi_floating_ip_id r];
  update_guard := no_guard; rows_put := fun _ _ => eq_refl }.

#[export] Instance allowlists_table : Table Db WorkerAllowlist := {
  rows := storage_worker_allowlists; put_rows := with_storage_worker_allowlists;
  row_check := no_check; references := fun d r => has_application d (wa_application_id r);
  unique_keys := [fun r => pk (wa_application_id r)];
  update_guard := no_guard; rows_put := fun _ _ => eq_refl }.
