(* ===== verification/StorageCapacity.v ===== *)
(** * Storage admission (src/openstack_platform/controller/storage_capacity.py,
    src/openstack_platform/instance_contract.py)

    Before a storage resource or a larger limit is recorded, [check] adds up
    what every resource and every unfinished limit change has reserved, and
    refuses when the total would pass a budget of the storage host. *)

From S2P Require Import Prelude Regex Json Validation Runtime Sql Schema.

(** ** instance_contract.py *)

Definition MIB : Z := 1024 ^ 2.
Definition GIB : Z := 1024 ^ 3.
Definition DEFAULT_MEMORY : Z := 512 * MIB.
Definition MEMORY_BUDGET : Z := 50 * GIB.
Definition TRANSITION_MEMORY_BUDGET : Z := 36 * GIB.
Definition CONNECTION_BUDGET : Z := 2000.
Definition S3_OBJECT_BUDGET : Z := 5000000.

Definition hard_quota (size : Z) : Z := ((size * 3 + 1) / 2 + MIB - 1) / MIB * MIB.

(** Four KiB per object budget key and index metadata. *)
Definition garage_reservation (size objects : Z) : Z :=
  let physical := Z.max ((size * 5 + 3) / 4) (objects * 4096) in
  (physical + MIB - 1) / MIB * MIB.

(** The bounds of [validate_limits] by field. *)
Definition limit_bounds (name : string) : option (Z * Z) :=
  if String.eqb name "sizeBytes" then Some (GIB, 500 * GIB)
  else if String.eqb name "connections" then Some (1, 100)
  else if String.eqb name "memoryBytes" then Some (DEFAULT_MEMORY, 8 * GIB)
  else if String.eqb name "cpuMillicores" then Some (100, 4000)
  else None.

Definition limit_fields : list string :=
  ["sizeBytes"; "connections"; "memoryBytes"; "cpuMillicores"].

(** [set(value) == fields] for a dict, whose keys are unique. *)
Definition same_keys {A} (d : list (string * A)) (fields : list string) : bool :=
  forallb (fun k => existsb (String.eqb k) fields) (dict_keys d)
  && forallb (fun k => existsb (String.eqb k) (dict_keys d)) fields.

Definition validate_limit (name : string) (number : json) : result Z :=
  match number, limit_bounds name with
  | JInt z, Some (lower, upper) =>
      if negb ((lower <=? z) && (z <=? upper)) then
        Raise (ValidationError (name +:+ " must be an integer in its range"))
      else if String.eqb name "memoryBytes" && negb (z mod MIB =? 0) then
        Raise (ValidationError "memoryBytes must be a whole number of MiB")
      else Ok z
  | _, Some _ => Raise (ValidationError (name +:+ " must be an integer in its range"))
  | _, None => Raise KeyError
  end.

Fixpoint validate_limit_items (d : dict) : result (list (string * Z)) :=
  match d with
  | [] => Ok []
  | (name, number) :: d' =>
      z ← validate_limit name number;
      rest ← validate_limit_items d';
      Ok ((name, z) :: rest)
  end.

Definition validate_limits (value : json) : result (list (string * Z)) :=
  match value with
  | JObj d =>
      if same_keys d limit_fields then validate_limit_items d
      else Raise (ValidationError
        "database quotas require sizeBytes, connections, memoryBytes and cpuMillicores")
  | _ => Raise (ValidationError
        "database quotas require sizeBytes, connections, memoryBytes and cpuMillicores")
  end.

(** ** Reading records *)

Abbreviation quotas := (list (string * Z)).

Definition refs_get (k : string) (d : dict) : json := default JNull (dict_get k d).

(** [record.get(k, {})] as a dict *)
Definition sub_dict (k : string) (d : dict) : dict :=
  match dict_get k d with Some (JObj q) => q | _ => [] end.

(** [d.get(k, otherwise)] as an integer *)
Definition int_or (k : string) (otherwise : Z) (d : dict) : Z :=
  match dict_get k d with Some (JInt z) => z | _ => otherwise end.

(** [x or y] for a nullable integer column *)
Definition or_z (x : option Z) (y : Z) : Z :=
  match x with Some z => if z =? 0 then y else z | None => y end.

Definition unfinished_of (kinds : list string) (d : Db) : list Operation :=
  List.filter (fun o => one_of_words kinds (op_kind o) && unfinished (op_st o)) (operations d).

(** ** Reservations *)

(** A resource's quantity, raised by every unfinished intent about it. *)
Definition raised (kinds : list string) (name : string) (d : Db) (identifier : string)
    (base : Z) : Z :=
  fold_left (fun acc o =>
    match refs_get "resource_id" (op_refs o) with
    | JStr i => if String.eqb i identifier
                then Z.max acc (int_or name 0 (sub_dict "quotas" (op_refs o))) else acc
    | _ => acc
    end) (unfinished_of kinds d) base.

Definition limit_kinds : list string := ["storage.limits.set"; "storage.usage.collect"].


(** [disk_reservations]: databaseBytes and garageBytes. *)
Definition disk_reservations (d : Db) : Z * Z :=
  let raise_to name r base := raised limit_kinds name d (mr_resource_id r) base in
  (sum (map (fun r => hard_quota
      (raise_to "sizeBytes" r (or_z (mr_measured_target_bytes r) 0))) (managed_resources d)),
   sum (map (fun r => garage_reservation
      (raise_to "s3Bytes" r (or_z (mr_s3_bytes r) 0))
      (raise_to "s3Objects" r (or_z (mr_s3_objects r) 0))) (managed_resources d))).

Definition host_usage (d : Db) : option dict := hu_usage <$> head (storage_host_usage d).

Definition find_resource (d : Db) (resource_id : option string) : option ManagedResource :=
  i ← resource_id;
  List.find (fun r => String.eqb (mr_resource_id r) i) (managed_resources d).

Definition has_key (k : string) (q : quotas) : bool := not_null (dict_get k q).
Definition quota (k : string) (q : quotas) : Z := default 0 (dict_get k q).

(** ** Admission *)

Definition disk_increase (d : Db) (resource_id : option string) (target : quotas) : Z :=
  let row := find_resource d resource_id in
  if has_key "sizeBytes" target then
    let current := match row with Some r => or_z (mr_measured_target_bytes r) 0 | None => 0 end in
    hard_quota (quota "sizeBytes" target) - hard_quota current
  else
    let current := match row with Some r => or_z (mr_s3_bytes r) 0 | None => 0 end in
    let objects := match row with Some r => or_z (mr_s3_objects r) 0 | None => 0 end in
    garage_reservation (quota "s3Bytes" target) (quota "s3Objects" target)
    - garage_reservation current objects.

Definition data_volume (d : Db) : Z :=
  match host_usage d with
  | Some u => int_or "totalBytes" (500 * GIB) (sub_dict "dataVolume" u)
  | None => 500 * GIB
  end.

Definition check_disk (d : Db) (resource_id : option string) (target : quotas) : result unit :=
  if has_key "sizeBytes" target || has_key "s3Bytes" target then
    let increase := disk_increase d resource_id target in
    let '(database_bytes, garage_bytes) := disk_reservations d in
    if (0 <? increase)
       && (data_volume d * 85 / 100 <? database_bytes + garage_bytes + increase + 197 * GIB)
    then Raise (CapacityError "DISK_BUDGET_EXCEEDED") else Ok tt
  else Ok tt.

(** [resource_id or "new"] *)
Definition or_new (resource_id : option string) : string :=
  match resource_id with None | Some EmptyString => "new" | Some i => i end.

(** The reserved object counts of the S3 resources. *)
Definition reserved_objects (d : Db) : list (string * Z) :=
  map (fun r => (mr_resource_id r,
      raised ["storage.limits.set"] "s3Objects" d (mr_resource_id r) (or_z (mr_s3_objects r) 0)))
    (List.filter (fun r => String.eqb (mr_resource_type r) "s3") (managed_resources d)).

Definition check_objects (d : Db) (resource_id : option string) (target : quotas)
    : result unit :=
  let identifier := or_new resource_id in
  let objects := reserved_objects d in
  let previous := default 0 (dict_get identifier objects) in
  let requested := default previous (dict_get "s3Objects" target) in
  let objects := dict_set identifier (Z.max previous requested) objects in
  if (previous <? requested) && (S3_OBJECT_BUDGET <? sum (map snd objects))
  then Raise (CapacityError "OBJECT_BUDGET_EXCEEDED") else Ok tt.

(** The reserved (memory, connections) of the isolated databases. *)
Definition reserved_instances (d : Db) : list (string * (Z * Z)) :=
  map (fun r => (mr_resource_id r,
      (raised limit_kinds "memoryBytes" d (mr_resource_id r) (or_z (mr_memory_bytes r) 536870912),
       raised limit_kinds "connections" d (mr_resource_id r)
         (or_z (mr_postgres_connections r) (or_z (mr_mongo_connections r) 10)))))
    (List.filter (fun r => one_of_words ["postgres"; "mongo"] (mr_resource_type r))
      (managed_resources d)).

Definition memory_budget (d : Db) : Z :=
  match host_usage d with
  | Some u => match dict_get "instanceMemoryBudgetBytes" u with
              | Some (JInt z) => z
              | Some _ => 0
              | None => TRANSITION_MEMORY_BUDGET
              end
  | None => TRANSITION_MEMORY_BUDGET
  end.

Definition total_memory (l : list (string * (Z * Z))) : Z := sum (map (fun kv => kv.2.1) l).
Definition total_connections (l : list (string * (Z * Z))) : Z := sum (map (fun kv => kv.2.2) l).

Definition check_totals (d : Db) (resources : list (string * (Z * Z))) : result unit :=
  let budget := memory_budget d in
  if negb ((0 <? budget) && (budget <=? MEMORY_BUDGET))
     || (budget <? total_memory resources)
  then Raise (CapacityError "MEMORY_BUDGET_EXCEEDED")
  else if CONNECTION_BUDGET <? total_connections resources
  then Raise (CapacityError "CONNECTION_BUDGET_EXCEEDED") else Ok tt.

Definition check_instances (d : Db) (resource_id : option string) (target : quotas)
    : result unit :=
  let resources := reserved_instances d in
  match dict_get "memoryBytes" target, dict_get "connections" target with
  | Some memory, Some connections =>
      let identifier := or_new resource_id in
      match resource_id ≫= fun i => dict_get i resources with
      | Some (pm, pc) =>
          if (memory <=? pm) && (connections <=? pc) then Ok tt
          else check_totals d (dict_set identifier (Z.max pm memory, Z.max pc connections) resources)
      | None => check_totals d (dict_set identifier (memory, connections) resources)
      end
  | _, _ => Raise KeyError
  end.

Definition check (resource_id : option string) (target : quotas) (d : Db) : result unit :=
  _ ← check_disk d resource_id target;
  if has_key "s3Bytes" target then check_objects d resource_id target
  else check_instances d resource_id target.
