(* ===== verification/StorageContract.v ===== *)
(** * The secret-free storage contract
    (src/openstack_platform/controller/storage_contract.py)

    Resource types and their outputs, the names under which an application's
    variables hold them, the translation at the provider boundary and the
    validation of quotas.  A table keyed by resource type is a function of the
    type's name; a name it does not have is a [KeyError].

    [canonical_secret_key_injective]: two outputs never share a variable.
    [provider_round_trip]: canonicalizing a provider's environment loses
    nothing. *)

From S2P Require Import Prelude Regex Json Validation Schema StorageCapacity.

(** ** Tables *)

Definition RESOURCE_TYPES : list string := ["postgres"; "mongo"; "s3"].
Definition DEFAULT_RESOURCE_NAME : string := "default".

Definition RESOURCE_OUTPUTS (ty : string) : option (list string) :=
  if String.eqb ty "postgres" then
    Some ["url"; "host"; "port"; "database"; "user"; "password"; "sslmode"; "sslrootcert"]
  else if String.eqb ty "mongo" then Some ["uri"]
  else if String.eqb ty "s3" then
    Some ["endpoint"; "public_endpoint"; "region"; "access_key_id"; "secret_access_key"; "bucket"]
  else None.

Definition DERIVED_OUTPUTS (ty : string) : option (list string) :=
  if String.eqb ty "postgres" then Some []
  else if String.eqb ty "mongo" then Some []
  else if String.eqb ty "s3" then Some ["public_endpoint"]
  else None.

Definition PUBLIC_S3_LABEL : string := "s3".

Definition RETIRED_OUTPUTS (ty : string) : option (list string) :=
  if String.eqb ty "postgres" then Some []
  else if String.eqb ty "mongo" then Some []
  else if String.eqb ty "s3" then Some ["ca_bundle"; "force_path_style"]
  else None.

Definition ENVIRONMENT_KEYS (ty : string) : option (list string) :=
  if String.eqb ty "postgres" then
    Some ["DATABASE_URL"; "PGHOST"; "PGPORT"; "PGDATABASE"; "PGUSER"; "PGPASSWORD"; "PGSSLMODE";
          "PGSSLROOTCERT"]
  else if String.eqb ty "mongo" then Some ["MONGODB_URI"]
  else if String.eqb ty "s3" then
    Some ["AWS_ENDPOINT_URL_S3"; "AWS_REGION"; "AWS_ACCESS_KEY_ID"; "AWS_SECRET_ACCESS_KEY";
          "S3_ENDPOINT"; "S3_BUCKET"]
  else None.

Definition _PROVIDER_ENVIRONMENT_KEYS (ty : string) : option (list (string * string)) :=
  if String.eqb ty "postgres" then
    Some (zip (default [] (RESOURCE_OUTPUTS "postgres")) (default [] (ENVIRONMENT_KEYS "postgres")))
  else if String.eqb ty "mongo" then Some [("uri", "MONGODB_URI")]
  else if String.eqb ty "s3" then
    Some [("endpoint", "AWS_ENDPOINT_URL_S3"); ("region", "AWS_REGION");
          ("access_key_id", "AWS_ACCESS_KEY_ID"); ("secret_access_key", "AWS_SECRET_ACCESS_KEY");
          ("bucket", "S3_BUCKET")]
  else None.

Definition DEFAULT_BINDINGS (ty : string) : option (list (string * string)) :=
  if String.eqb ty "s3" then
    Some [("endpoint", "S3_ENDPOINT"); ("public_endpoint", "S3_PUBLIC_ENDPOINT");
          ("region", "S3_REGION"); ("access_key_id", "S3_ACCESS_KEY_ID");
          ("secret_access_key", "S3_SECRET_ACCESS_KEY"); ("bucket", "S3_BUCKET")]
  else _PROVIDER_ENVIRONMENT_KEYS ty.

Definition FIXED_PLATFORM_ENVIRONMENT : list (string * string) :=
  [("NODE_ENV", "production"); ("PLATFORM_ENV", "production")].
Definition PLATFORM_ENVIRONMENT_KEYS : list string :=
  dict_keys FIXED_PLATFORM_ENVIRONMENT ++ ["PLATFORM_PROJECT_ID"; "PLATFORM_PROJECT_SLUG"; "PORT"].
Definition APPLICATION_CA_PATH : string := "/platform-ca/internal-ca.crt".
Definition JOB_ENVIRONMENT : list (string * string) :=
  [("NODE_EXTRA_CA_CERTS", APPLICATION_CA_PATH);
   ("AWS_REQUEST_CHECKSUM_CALCULATION", "when_required")].
Definition RESERVED_ENVIRONMENT_KEYS : list string :=
  PLATFORM_ENVIRONMENT_KEYS ++ dict_keys JOB_ENVIRONMENT.
Definition RESERVED_ENVIRONMENT_PREFIX : string := "STORAGE__".

(** ** Names *)

Definition known {A} (o : option A) : result A :=
  match o with Some a => Ok a | None => Raise KeyError end.

Definition storage_owner (resource_type name : string) : result string :=
  if negb (one_of_words RESOURCE_TYPES resource_type) then
    Raise (ValidationError "storage type must be postgres, mongo, or s3")
  else
    n ← resource_name name;
    Ok ("storage." +:+ resource_type +:+ "." +:+ n).

Fixpoint map_string (f : ascii -> ascii) (s : string) : string :=
  match s with EmptyString => "" | String a s' => String (f a) (map_string f s') end.

Definition upper_char (a : ascii) : ascii := if lower a then chr (code a - 32) else a.
(** [s.upper()] of the ASCII names the code passes to it. *)
Definition upper_case : string -> string := map_string upper_char.
Definition underscored : string -> string := map_string (fun a => if is_char "-" a then "_"%char else a).

Definition _secret_key (resource_type checked_name output : string) : string :=
  "STORAGE__" +:+ upper_case resource_type +:+ "__" +:+ upper_case (underscored checked_name)
  +:+ "__" +:+ upper_case output.

Definition canonical_secret_key (resource_type name output : string) : result string :=
  checked_name ← resource_name name;
  match one_of_words RESOURCE_TYPES resource_type, RESOURCE_OUTPUTS resource_type with
  | true, Some outputs =>
      if one_of_words outputs output then Ok (_secret_key resource_type checked_name output)
      else Raise (ValidationError "managed-storage output is invalid")
  | _, _ => Raise (ValidationError "managed-storage output is invalid")
  end.

(** Outputs a provider writes into the application's variables. *)
Definition stored_outputs (resource_type : string) : result (list string) :=
  derived ← known (DERIVED_OUTPUTS resource_type);
  outputs ← known (RESOURCE_OUTPUTS resource_type);
  Ok (List.filter (fun o => negb (one_of_words derived o)) outputs).

Fixpoint each {A B} (f : A -> result B) (l : list A) : result (list B) :=
  match l with
  | [] => Ok []
  | x :: l' => y ← f x; ys ← each f l'; Ok (y :: ys)
  end.

Definition canonical_secret_keys (resource_type name : string) : result (list string) :=
  outputs ← stored_outputs resource_type;
  each (canonical_secret_key resource_type name) outputs.

Definition public_s3_endpoint (domain : string) : string :=
  "https://" +:+ PUBLIC_S3_LABEL +:+ "." +:+ domain.

Definition derived_output (resource_type output domain : string) : result string :=
  if negb (one_of_words (default [] (DERIVED_OUTPUTS resource_type)) output) then
    Raise (ValidationError "managed-storage output is not derived")
  else Ok (public_s3_endpoint domain).

Definition retired_secret_keys (resource_type name : string) : result (list string) :=
  checked_name ← resource_name name;
  if negb (one_of_words RESOURCE_TYPES resource_type) then
    Raise (ValidationError "storage type must be postgres, mongo, or s3")
  else
    outputs ← known (RETIRED_OUTPUTS resource_type);
    Ok (map (_secret_key resource_type checked_name) outputs).

(** ** The provider boundary *)

Definition _stored_mapping (resource_type : string) : result (list (string * string)) :=
  outputs ← stored_outputs resource_type;
  keys ← known (_PROVIDER_ENVIRONMENT_KEYS resource_type);
  Ok (List.filter (fun kv => one_of_words outputs kv.1) keys).

(** [{key(x): value(x) for x in l}] *)
Fixpoint dict_of {A B} (f : A -> result (string * B)) (l : list A) (d : list (string * B))
    : result (list (string * B)) :=
  match l with
  | [] => Ok d
  | x :: l' => kv ← f x; dict_of f l' (dict_set kv.1 kv.2 d)
  end.

Definition canonicalize_environment (resource_type name : string)
    (values : list (string * string)) : result (list (string * string)) :=
  mapping ← _stored_mapping resource_type;
  keys ← known (ENVIRONMENT_KEYS resource_type);
  if negb (same_keys values keys) then
    Raise (ValidationError "provider environment outputs are incomplete")
  else
    conflict ← (if String.eqb resource_type "s3" then
        a ← known (dict_get "AWS_ENDPOINT_URL_S3" values);
        b ← known (dict_get "S3_ENDPOINT" values);
        Ok (negb (String.eqb a b))
      else Ok false);
    if (conflict : bool) then Raise (ValidationError "provider endpoint outputs conflict")
    else
      dict_of (fun ok =>
        k ← canonical_secret_key resource_type name ok.1;
        v ← known (dict_get ok.2 values);
        Ok (k, v)) mapping [].

Definition provider_environment (resource_type name : string)
    (values : list (string * string)) : result (list (string * string)) :=
  mapping ← _stored_mapping resource_type;
  expected ← canonical_secret_keys resource_type name;
  if negb (same_keys values expected) then
    Raise (ValidationError "managed-storage secret outputs are incomplete")
  else
    r ← dict_of (fun ok =>
        k ← canonical_secret_key resource_type name ok.1;
        v ← known (dict_get k values);
        Ok (ok.2, v)) mapping [];
    if String.eqb resource_type "s3" then
      endpoint ← known (dict_get "AWS_ENDPOINT_URL_S3" r);
      Ok (dict_set "S3_ENDPOINT" endpoint r)
    else Ok r.

Definition decimal_text (z : Z) : string := dumps (JInt z).

Definition platform_environment_values (application_id application_slug : string)
    (application_port : json) : result (list (string * string)) :=
  identifier ← uuid application_id;
  checked_slug ← slug application_slug;
  match application_port with
  | JInt port =>
      if (1 <=? port) && (port <=? 65535) then
        Ok (FIXED_PLATFORM_ENVIRONMENT ++
            [("PLATFORM_PROJECT_ID", identifier); ("PLATFORM_PROJECT_SLUG", checked_slug);
             ("PORT", decimal_text port)])
      else Raise (ValidationError "application_port must be from 1 through 65535")
  | _ => Raise (ValidationError "application_port must be from 1 through 65535")
  end.

(** ** Quotas *)

Definition MAX_STORAGE_BYTES : Z := 500 * 1024 ^ 3.
Definition MIN_STORAGE_BYTES : Z := 1024 ^ 2.

Definition s3_limit (name : string) (number : json) : result Z :=
  let (lower, upper) := if String.eqb name "s3Objects" then (1, 100000000)
                        else (MIN_STORAGE_BYTES, MAX_STORAGE_BYTES) in
  match number with
  | JInt z => if (lower <=? z) && (z <=? upper) then Ok z
              else Raise (ValidationError (name +:+ " must be an integer in its range"))
  | _ => Raise (ValidationError (name +:+ " must be an integer in its range"))
  end.

Definition validate_quotas (resource_type : string) (value : json) : result quotas :=
  if one_of_words ["postgres"; "mongo"] resource_type then validate_limits value
  else
    match String.eqb resource_type "s3", value with
    | true, JObj d =>
        if same_keys d ["s3Bytes"; "s3Objects"] then
          each (fun kv => z ← s3_limit kv.1 kv.2; Ok (kv.1, z)) d
        else Raise (ValidationError
          "quotas must contain exactly the resource's applicable fields")
    | _, _ => Raise (ValidationError
        "quotas must contain exactly the resource's applicable fields")
    end.

Definition expected_fields (resource_type : string) : list string :=
  if String.eqb resource_type "s3" then ["s3Bytes"; "s3Objects"]
  else ["sizeBytes"; "connections"; "memoryBytes"; "cpuMillicores"].

Definition validate_expected_quotas (resource_type : string) (value : json) : result dict :=
  let malformed : error := ValidationError
    "expectedQuotas must be the complete accepted integer quota snapshot" in
  match value with
  | JObj d =>
      if same_keys d (expected_fields resource_type)
         && forallb (fun kv => match kv.2 with
                               | JInt z => (0 <? z) && (z <=? 2 ^ 63 - 1)
                               | _ => false end) d
      then Ok d else Raise malformed
  | _ => Raise malformed
  end.

(** ** Secret names are injective *)

Lemma resource_name_ok v s : resource_name v = Ok s <->
  v = JStr s /\ lang _RESOURCE_NAME s /\ contains "--" s = false.
Proof.
  unfold resource_name, mbind, result_bind. destruct (matching _ _ v) as [t|e] eqn:E.
  - apply matching_ok in E as [-> E]. apply (fullmatch_iff _RESOURCE_NAME t eq_refl) in E.
    destruct (contains "--" t) eqn:C; split; [done|intros ([= ->] & _ & ?); congruence| |].
    + by intros [= <-].
    + by intros ([= ->] & _ & _).
  - split; [done|]. intros (-> & Hl%(fullmatch_iff _RESOURCE_NAME s eq_refl) & _).
    unfold matching in E. rewrite Hl in E. done.
Qed.

Definition all_chars (f : ascii -> bool) (s : string) : Prop :=
  forallb f (list_ascii_of_string s) = true.

Lemma all_chars_cons f a s : all_chars f (String a s) <-> f a = true /\ all_chars f s.
Proof. unfold all_chars. simpl. by rewrite andb_true_iff. Qed.

Lemma all_chars_app f s t : all_chars f (s +:+ t) <-> all_chars f s /\ all_chars f t.
Proof. unfold all_chars. by rewrite list_ascii_app, forallb_app, andb_true_iff. Qed.

Lemma ascii_all (p : ascii -> bool) : forallb p (map ascii_of_nat (seq 0 256)) = true ->
  forall a, p a = true.
Proof.
  rewrite forallb_forall. intros H a. apply H. rewrite <- (ascii_nat_embedding a).
  apply in_map, in_seq. pose proof (nat_ascii_bounded a). lia.
Qed.

(** A character map that is injective on a class is injective on its text. *)
Lemma map_string_inj f (p : ascii -> bool) s t :
  (forall a b, p a = true -> p b = true -> f a = f b -> a = b) ->
  all_chars p s -> all_chars p t -> map_string f s = map_string f t -> s = t.
Proof.
  intros Hf. revert t. induction s as [|a s IH]; intros [|b t]; simpl; try done.
  rewrite !all_chars_cons. intros [Ha Hs] [Hb Ht] [= Hab Hst]. f_equal; auto.
Qed.

Lemma map_string_compose f g s : map_string f (map_string g s) = map_string (fun a => f (g a)) s.
Proof. induction s as [|a s IH]; simpl; [done|by rewrite IH]. Qed.

Definition name_code (a : ascii) : ascii := upper_char (if is_char "-" a then "_"%char else a).
Definition output_char : ascii -> bool := either lower (either digit (is_char "_")).

(** Injectivity on a class, by evaluation on every pair of characters. *)
Lemma injective_by_table (f : ascii -> ascii) (p : ascii -> bool) :
  (let l := List.filter p (map ascii_of_nat (seq 0 256)) in
   forallb (fun a => forallb (fun b => implb (Ascii.eqb (f a) (f b)) (Ascii.eqb a b)) l) l) = true ->
  forall a b, p a = true -> p b = true -> f a = f b -> a = b.
Proof.
  intros H a b Ha Hb Hab.
  assert (Hall : forall c, p c = true -> In c (List.filter p (map ascii_of_nat (seq 0 256)))).
  { intros c Hc. apply filter_In. split; [|done]. rewrite <- (ascii_nat_embedding c).
    apply in_map, in_seq. pose proof (nat_ascii_bounded c). lia. }
  cbv zeta in H. rewrite forallb_forall in H. specialize (H a (Hall a Ha)).
  rewrite forallb_forall in H. specialize (H b (Hall b Hb)).
  rewrite Hab, Ascii.eqb_refl in H. by apply Ascii.eqb_eq.
Qed.

Lemma name_code_inj a b : slug_char a = true -> slug_char b = true -> name_code a = name_code b -> a = b.
Proof. apply injective_by_table. vm_compute. reflexivity. Qed.

Lemma output_code_inj a b :
  output_char a = true -> output_char b = true -> upper_char a = upper_char b -> a = b.
Proof. apply injective_by_table. vm_compute. reflexivity. Qed.

Lemma name_code_hyphen a : slug_char a = true -> name_code a = "_"%char -> a = "-"%char.
Proof. intros Ha Hn. by apply name_code_inj. Qed.

#[local] Arguments ascii_dec : simpl never.

(** Names have no two hyphens in a row, even before another hyphen. *)
Definition separable (n : string) : Prop := all_chars slug_char n /\ contains "--" (n +:+ "-") = false.

Lemma separable_cons a n : separable (String a n) -> separable n.
Proof.
  intros [[_ H]%all_chars_cons Hc]. split; [done|]. simpl in Hc. by apply orb_false_iff in Hc as [_ ?].
Qed.

Lemma not_separable_hyphen n t x :
  separable (String "-" n) -> map_string name_code n +:+ "__" +:+ x = String "_" t -> False.
Proof.
  intros [Hn Hc] H. apply all_chars_cons in Hn as [_ Hn].
  destruct n as [|b n]; [done|]. simpl in H. injection H as Hb _.
  apply all_chars_cons in Hn as [Hb' _]. apply name_code_hyphen in Hb; [subst|done].
  destruct n; discriminate Hc.
Qed.

Lemma separated_names n n' x x' : separable n -> separable n' ->
  map_string name_code n +:+ "__" +:+ x = map_string name_code n' +:+ "__" +:+ x' ->
  n = n' /\ x = x'.
Proof.
  revert n'. induction n as [|a n IH]; intros [|b n'] Hn Hn' H.
  - simpl in H. by injection H.
  - simpl in H. injection H as Hb H. destruct Hn' as [Hc Hn'].
    assert (b = "-"%char) as -> by (apply all_chars_cons in Hc as [? _]; by apply name_code_hyphen).
    exfalso. by apply (not_separable_hyphen n' (x) x' (conj Hc Hn')).
  - simpl in H. injection H as Ha H. destruct Hn as [Hc Hn].
    assert (a = "-"%char) as -> by (apply all_chars_cons in Hc as [? _]; by apply name_code_hyphen).
    exfalso. by apply (not_separable_hyphen n (x') x (conj Hc Hn)).
  - simpl in H. injection H as Hab H.
    destruct (IH n') as [-> ->]; [eauto using separable_cons..|done|].
    destruct Hn as [[Ha _]%all_chars_cons _], Hn' as [[Hb _]%all_chars_cons _].
    by rewrite (name_code_inj a b).
Qed.

Lemma separable_snoc p c : c <> "-"%char -> contains "--" (p +:+ String c "") = false ->
  contains "--" ((p +:+ String c "") +:+ "-") = false.
Proof.
  intros Hc. induction p as [|a p IH]; simpl.
  - intros _. destruct (ascii_dec "-" c); [congruence|]. done.
  - intros [H1 H2]%orb_false_iff. rewrite IH by done.
    destruct (ascii_dec "-" a); [|done]. destruct p as [|b p]; simpl in *.
    + destruct (ascii_dec "-" c); [congruence|done].
    + revert H1. destruct (ascii_dec "-" b); [by destruct p|done].
Qed.

Lemma lower_slug a : lower a = true -> slug_char a = true.
Proof. unfold slug_char, either. by intros ->. Qed.
Lemma alnum_slug a : lower_alnum a = true -> slug_char a = true /\ a <> "-"%char.
Proof.
  unfold lower_alnum, slug_char, either. intros H. split; [|by intros ->].
  destruct (lower a); [done|]. simpl in H |- *. by rewrite H.
Qed.

Lemma resource_name_separable v n : resource_name v = Ok n -> separable n.
Proof.
  intros (_ & Hl & Hc)%resource_name_ok. destruct Hl as [Hl|(a & -> & Ha)].
  - destruct Hl as (s1 & t & -> & (a & -> & Ha) & s2 & s3 & -> & Hr & c & -> & Hd).
    apply rep_cls in Hr as (_ & _ & Hr). apply alnum_slug in Hd as [Hd Hne].
    assert (Happ : String a "" +:+ s2 +:+ String c "" = String a s2 +:+ String c "") by done.
    rewrite Happ in *. split; [|by apply separable_snoc].
    apply all_chars_app. rewrite !all_chars_cons. split_and!; auto using lower_slug; done.
  - split; [apply all_chars_cons; split; [by apply lower_slug|done]|].
    simpl. assert (a <> "-"%char) by (by intros ->). destruct (ascii_dec "-" a); [congruence|done].
Qed.

Lemma known_output ty o : one_of_words RESOURCE_TYPES ty = true ->
  one_of_words (default [] (RESOURCE_OUTPUTS ty)) o = true -> all_chars output_char o.
Proof.
  intros Ht Ho. apply existsb_exists in Ho as (w & Hw & ->%String.eqb_eq).
  assert (H : Forall (all_chars output_char) (default [] (RESOURCE_OUTPUTS ty)));
    [|by rewrite List.Forall_forall in H; apply H].
  apply existsb_exists in Ht as (t & Ht & ->%String.eqb_eq).
  destruct Ht as [<-|[<-|[<-|[]]]]; repeat constructor.
Qed.

Lemma canonical_secret_key_ok ty n o k : canonical_secret_key ty n o = Ok k ->
  In ty RESOURCE_TYPES /\ separable n /\ all_chars output_char o /\ k = _secret_key ty n o.
Proof.
  unfold canonical_secret_key, mbind, result_bind. intros H.
  destruct (resource_name n) as [n'|] eqn:En; [|discriminate].
  assert (n' = n) as -> by (apply resource_name_ok in En as ([= ->] & _); done).
  destruct (one_of_words RESOURCE_TYPES ty) eqn:Et; [|discriminate].
  destruct (RESOURCE_OUTPUTS ty) as [l|] eqn:Eo; [|discriminate].
  destruct (one_of_words l o) eqn:Ho; [|discriminate]. injection H as <-.
  split_and!; [|by eapply resource_name_separable| |done].
  - apply existsb_exists in Et as (t & Ht & ->%String.eqb_eq). done.
  - apply (known_output ty); [done|]. by rewrite Eo.
Qed.

(** No two outputs of managed storage share a variable name: the
    encoding of type, resource name and output is injective on the names the
    code accepts (hyphens become underscores, and still nothing collides). *)
Theorem canonical_secret_key_injective ty n o ty' n' o' k :
  canonical_secret_key ty n o = Ok k -> canonical_secret_key ty' n' o' = Ok k ->
  ty = ty' /\ n = n' /\ o = o'.
Proof.
  intros (Ht & Hn & Ho & ->)%canonical_secret_key_ok (Ht' & Hn' & Ho' & H)%canonical_secret_key_ok.
  unfold _secret_key in H.
  assert (ty = ty') as ->.
  { destruct Ht as [<-|[<-|[<-|[]]]], Ht' as [<-|[<-|[<-|[]]]]; done. }
  split; [done|]. unfold underscored, upper_case in H. rewrite !map_string_compose in H.
  assert (Hcut : forall a b c, a +:+ b = a +:+ c -> b = c).
  { induction a as [|x a IH]; [done|]. intros b c [= E]. eauto. }
  do 3 apply Hcut in H. destruct (separated_names n n' _ _ Hn Hn' H) as [-> Hout].
  split; [done|]. by apply (map_string_inj _ output_char _ _ output_code_inj).
Qed.

Lemma canonical_secret_key_injective_witness :
  canonical_secret_key "s3" "main-db" "bucket" = Ok "STORAGE__S3__MAIN_DB__BUCKET"
  /\ forall ty n o, canonical_secret_key ty n o = Ok "STORAGE__S3__MAIN_DB__BUCKET" -> n = "main-db".
Proof.
  split; [vm_compute; reflexivity|]. intros ty n o H.
  exact (proj1 (proj2 (canonical_secret_key_injective ty n o "s3" "main-db" "bucket" _ H
    ltac:(vm_compute; reflexivity)))).
Defined.

(** ** The provider boundary loses nothing *)

Lemma dict_set_fresh {A} k (v : A) d : ~ In k (dict_keys d) -> dict_set k v d = d ++ [(k, v)].
Proof.
  induction d as [|[j w] d IH]; simpl; intros Hk; [done|].
  destruct (String.eqb_spec k j) as [->|]; [tauto|]. rewrite IH by tauto. done.
Qed.

Lemma dict_of_each {A B} (f : A -> result (string * B)) l kvs d :
  each f l = Ok kvs -> List.NoDup (dict_keys d ++ dict_keys kvs) ->
  dict_of f l d = Ok (d ++ kvs).
Proof.
  revert kvs d. induction l as [|x l IH]; intros kvs d; simpl.
  { intros [= <-] _. by rewrite app_nil_r. }
  destruct (f x) as [[k v]|]; simpl; [|done]. destruct (each f l) as [ys|]; simpl; [|done].
  intros [= <-] Hnd. simpl in Hnd.
  rewrite dict_set_fresh by (intros Hin; apply NoDup_remove_2 in Hnd; apply Hnd, in_app_iff; by left).
  rewrite (IH ys) by (done || (unfold dict_keys in *; rewrite map_app, <- app_assoc; done)).
  by rewrite <- app_assoc.
Qed.

(** A comprehension that returned evaluated every item. *)
Lemma dict_of_ok {A B} (f : A -> result (string * B)) l d r :
  dict_of f l d = Ok r -> exists kvs, each f l = Ok kvs.
Proof.
  revert d. induction l as [|x l IH]; intros d; simpl; [by eexists|].
  destruct (f x) as [kv|]; simpl; [|done]. intros [ys ->]%IH. by eexists.
Qed.

Lemma each_ok {A B} (f : A -> result B) l ys :
  each f l = Ok ys <-> Forall2 (fun x y => f x = Ok y) l ys.
Proof.
  revert ys. induction l as [|x l IH]; intros ys; simpl.
  - split; [intros [= <-]; constructor|]. by inversion 1.
  - split.
    + destruct (f x) eqn:E; simpl; [|done]. destruct (each f l) eqn:El; simpl; [|done].
      intros [= <-]. constructor; [done|]. by apply IH.
    + inversion 1 as [|? y ? ys' Hy Hys]; subst. rewrite Hy. simpl. apply IH in Hys as ->. done.
Qed.

Lemma dict_get_in {A} k (v : A) d : List.NoDup (dict_keys d) -> In (k, v) d -> dict_get k d = Some v.
Proof.
  induction d as [|[j w] d IH]; simpl; [done|]. inversion 1 as [|? ? Hj Hd]; subst.
  intros [[= -> ->]|Hin]; [by rewrite String.eqb_refl|].
  destruct (String.eqb_spec k j) as [->|]; [|auto].
  destruct Hj. apply (in_map fst) in Hin. done.
Qed.

Lemma dict_get_none {A} k (d : list (string * A)) : ~ In k (dict_keys d) -> dict_get k d = None.
Proof.
  induction d as [|[j w] d IH]; simpl; [done|]. intros Hk.
  destruct (String.eqb_spec k j) as [->|]; [tauto|]. auto.
Qed.

Lemma same_keys_iff {A} (d : list (string * A)) l :
  same_keys d l = true <-> forall k, In k (dict_keys d) <-> In k l.
Proof.
  unfold same_keys. rewrite andb_true_iff, !forallb_forall.
  assert (Hex : forall k m, existsb (String.eqb k) m = true <-> In k m).
  { intros k m. rewrite existsb_exists. split.
    - by intros (x & Hx & ->%String.eqb_eq).
    - intros Hx. exists k. by rewrite String.eqb_refl. }
  setoid_rewrite Hex. naive_solver.
Qed.

Section Boundary.
Variables (ty name : string) (mapping : list (string * string)) (values : list (string * string)).
Hypothesis Hmapping : _stored_mapping ty = Ok mapping.
Hypothesis Hstored : stored_outputs ty = Ok (map fst mapping).
Hypothesis Hkeys : List.NoDup (map snd mapping).
Hypothesis Houtputs : List.NoDup (map fst mapping).

Let canonical_item (ok : string * string) : result (string * string) :=
  k ← canonical_secret_key ty name ok.1; v ← known (dict_get ok.2 values); Ok (k, v).

Lemma known_ok {A} (o : option A) a : known o = Ok a <-> o = Some a.
Proof. destruct o; simpl; split; congruence. Qed.

(** Canonical items, one per output of the mapping, under distinct keys. *)
Lemma canonical_items kvs : each canonical_item mapping = Ok kvs ->
  Forall2 (fun ok kv => canonical_secret_key ty name ok.1 = Ok kv.1 /\ dict_get ok.2 values = Some kv.2)
    mapping kvs /\ List.NoDup (dict_keys kvs).
Proof.
  intros H%each_ok.
  assert (Hf : Forall2 (fun ok kv => canonical_secret_key ty name ok.1 = Ok kv.1
      /\ dict_get ok.2 values = Some kv.2) mapping kvs).
  { eapply Forall2_impl; [exact H|]. intros [o k] [c v]. unfold canonical_item, mbind, result_bind.
    destruct (canonical_secret_key _ _ _); [|done]. destruct (dict_get _ _); simpl; [|done].
    by intros [= <- <-]. }
  split; [done|]. clear H Hmapping Hstored Hkeys. revert Houtputs.
  induction Hf as [|[o k] [c v] m kvs [Hc _] Hm IH]; simpl; [constructor|].
  intros [Ho Hnd]%NoDup_cons_iff. constructor; [|by apply IH].
  intros Hin. apply Ho. clear IH Ho Hnd.
  induction Hm as [|[o' k'] [c' v'] m kvs [Hc' _] Hm IH]; simpl in *; [done|].
  destruct Hin as [->|Hin]; [left|right; by apply IH].
  by destruct (canonical_secret_key_injective ty name o' ty name o c Hc' Hc) as (_ & _ & ->).
Qed.

Lemma boundary_returns kvs : each canonical_item mapping = Ok kvs ->
  let back := dict_of (fun ok => k ← canonical_secret_key ty name ok.1; v ← known (dict_get k kvs);
    Ok (ok.2, v)) mapping [] in
  same_keys kvs (dict_keys kvs) = true /\ canonical_secret_keys ty name = Ok (dict_keys kvs) /\
  exists r, back = Ok r /\ forall k, dict_get k r =
    if existsb (String.eqb k) (map snd mapping) then dict_get k values else None.
Proof.
  intros [Hf Hnd]%canonical_items back. split; [by apply same_keys_iff|]. split.
  { unfold canonical_secret_keys. rewrite Hstored. cbn [mbind result_bind]. apply each_ok.
    clear -Hf. induction Hf as [|? ? m kvs [Hc _] Hm IH]; constructor; auto. }
  assert (Hback : each (fun ok => k ← canonical_secret_key ty name ok.1; v ← known (dict_get k kvs);
    Ok (ok.2, v)) mapping = Ok (zip (map snd mapping) (map snd kvs))).
  { assert (Hin : incl kvs kvs) by apply incl_refl. revert Hf Hin. clear -Hnd.
    generalize kvs at 1 2 5 as part. revert mapping.
    intros m part Hf. induction Hf as [|[o k] [c v] m part [Hc _] Hm IH]; intros Hin; [done|].
    simpl in *. rewrite Hc. cbn [mbind result_bind].
    rewrite (dict_get_in c v kvs) by (done || (apply Hin; by left)). cbn [mbind result_bind known].
    rewrite IH; [done|]. intros x Hx. apply Hin. by right. }
  assert (Hlen : length mapping = length kvs) by (by eapply Forall2_length).
  assert (Hzk : dict_keys (zip (map snd mapping) (map snd kvs)) = map snd mapping).
  { unfold dict_keys. apply fst_zip. rewrite !length_map. lia. }
  unfold back. rewrite (dict_of_each _ _ _ [] Hback) by (simpl; by rewrite Hzk).
  eexists. split; [done|]. intros k. simpl.
  destruct (existsb (String.eqb k) (map snd mapping)) eqn:E.
  - apply existsb_exists in E as (k' & Hk & <-%String.eqb_eq).
    clear -Hf Hkeys Hk. induction Hf as [|[o j] [c v] m kvs [_ Hv] Hm IH]; simpl in *; [done|].
    destruct (String.eqb_spec k j) as [->|Hne]; [done|]. apply IH; [by inversion Hkeys|].
    destruct Hk; [congruence|done].
  - apply dict_get_none. rewrite Hzk. intros Hin.
    assert (existsb (String.eqb k) (map snd mapping) = true); [|congruence].
    apply existsb_exists. exists k. by rewrite String.eqb_refl.
Qed.
End Boundary.

(** The three types, their mapping and the keys a provider returns. *)
Lemma stored_types ty mapping : _stored_mapping ty = Ok mapping ->
  stored_outputs ty = Ok (map fst mapping) /\ List.NoDup (map snd mapping)
  /\ List.NoDup (map fst mapping)
  /\ exists keys, ENVIRONMENT_KEYS ty = Some keys /\ forall k, In k keys <->
      In k (map snd mapping ++ if String.eqb ty "s3" then ["S3_ENDPOINT"] else []).
Proof.
  intros Hm. assert (Hty : In ty RESOURCE_TYPES).
  { unfold _stored_mapping, stored_outputs, DERIVED_OUTPUTS in Hm.
    destruct (String.eqb_spec ty "postgres"), (String.eqb_spec ty "mongo"),
      (String.eqb_spec ty "s3"); simpl; auto; discriminate. }
  assert (Hnd : forall l : list string, bool_decide (NoDup l) = true -> List.NoDup l)
    by (intros w Hl; apply NoDup_ListNoDup; by apply bool_decide_eq_true in Hl).
  assert (Hset : forall a b : list string, same_keys (map (fun k => (k, tt)) a) b = true ->
    forall k, In k a <-> In k b).
  { intros a b Hab k. rewrite same_keys_iff in Hab. rewrite <- Hab. unfold dict_keys.
    rewrite map_map, map_id. done. }
  destruct Hty as [<-|[<-|[<-|[]]]]; vm_compute in Hm; injection Hm as <-;
    (split; [vm_compute; reflexivity|]); (split; [apply Hnd; vm_compute; reflexivity|]);
    (split; [apply Hnd; vm_compute; reflexivity|]);
    (eexists; split; [cbv [ENVIRONMENT_KEYS]; cbn [String.eqb Ascii.eqb Bool.eqb]; reflexivity|]);
    apply Hset; vm_compute; reflexivity.
Qed.

(** The two directions of the provider boundary are inverse: from the
    items [canonicalize_environment] writes, [provider_environment] recovers
    every variable of the provider's environment, the duplicated S3 endpoint
    included, and nothing else. *)
Theorem provider_round_trip ty name values c :
  canonicalize_environment ty name values = Ok c ->
  exists back, provider_environment ty name c = Ok back
    /\ forall k, dict_get k back = dict_get k values.
Proof.
  unfold canonicalize_environment, provider_environment. intros H.
  destruct (_stored_mapping ty) as [mapping|] eqn:Hm; cbn [mbind result_bind] in *; [|done].
  destruct (stored_types ty mapping Hm) as (Hst & Hk & Ho & keys & Hkeys & Hin).
  rewrite Hkeys in H. cbn [mbind result_bind known] in H.
  destruct (same_keys values keys) eqn:Hs; [|done]. cbn [negb] in H.
  set (guard := if String.eqb ty "s3" then _ else Ok false) in H.
  destruct guard as [[]|] eqn:Hg; cbn [mbind result_bind] in H; [done| |done].
  destruct (dict_of_ok _ _ _ _ H) as [kvs Hkvs].
  destruct (canonical_items ty name mapping values Ho kvs Hkvs) as [_ Hnd].
  rewrite (dict_of_each _ _ _ [] Hkvs Hnd) in H. simpl in H. injection H as <-.
  destruct (boundary_returns ty name mapping values Hst Hk Ho kvs Hkvs) as (Hsame & Hcanon & r & Hr & Hget).
  rewrite Hcanon. cbn [mbind result_bind]. rewrite Hsame. cbn [negb]. rewrite Hr.
  cbn [mbind result_bind]. rewrite same_keys_iff in Hs.
  assert (Hother : forall k, existsb (String.eqb k) (map snd mapping) = false ->
    ~ (ty = "s3" /\ k = "S3_ENDPOINT") -> dict_get k values = None).
  { intros k Hex Hne. apply dict_get_none. rewrite Hs, Hin, in_app_iff. intros [Hi|Hi];
      [|destruct (String.eqb_spec ty "s3"); [destruct Hi as [<-|[]]; by apply Hne|done]].
    assert (existsb (String.eqb k) (map snd mapping) = true); [|congruence].
    apply existsb_exists. exists k. by rewrite String.eqb_refl. }
  destruct (String.eqb_spec ty "s3") as [->|Hne].
  - unfold guard in Hg. destruct (dict_get "AWS_ENDPOINT_URL_S3" values) as [a|] eqn:Ha; [|done].
    destruct (dict_get "S3_ENDPOINT" values) as [b|] eqn:Hb; [|done].
    cbn in Hg. injection Hg as Hg. apply negb_false_iff, String.eqb_eq in Hg as ->.
    injection Hm as Hm. subst mapping. rewrite Hget. cbn [existsb map]. simpl. rewrite Ha. simpl.
    eexists. split; [done|]. intros k. destruct (String.eqb_spec k "S3_ENDPOINT") as [->|Hk'].
    + by rewrite dict_get_set_eq.
    + rewrite dict_get_set_ne by done. rewrite Hget. destruct (existsb _ _) eqn:Hex; [done|].
      symmetry. apply Hother; [done|]. by intros [_ ?].
  - eexists. split; [done|]. intros k. rewrite Hget. destruct (existsb _ _) eqn:Hex; [done|].
    symmetry. apply Hother; [done|]. by intros [? _].
Qed.

Definition demo_provider : list (string * string) :=
  [("AWS_ENDPOINT_URL_S3", "https://10.0.0.2:3900"); ("AWS_REGION", "garage");
   ("AWS_ACCESS_KEY_ID", "GK1"); ("AWS_SECRET_ACCESS_KEY", "x"); ("S3_BUCKET", "app");
   ("S3_ENDPOINT", "https://10.0.0.2:3900")].

Lemma provider_round_trip_witness :
  exists c, canonicalize_environment "s3" "default" demo_provider = Ok c
  /\ exists back, provider_environment "s3" "default" c = Ok back
     /\ forall k, dict_get k back = dict_get k demo_provider.
Proof.
  eexists. split; [vm_compute; reflexivity|].
  apply (provider_round_trip "s3" "default" demo_provider). vm_compute. reflexivity.
Defined.
