(* ===== verification/RuntimeVersions.v ===== *)
(** * Runtime version requests (src/openstack_platform/runtime_versions.py)

    The subset of npm's range syntax an application may use to ask for a
    Node.js or Bun version, as intervals of versions; the request a checkout
    makes; and the check of the runtime a build reports.  Version parts are
    unbounded integers; [read_file] is the caller's, a function that returns a
    root version file's text or raises.

    The theorems: intersection is conjunction, [lowest] finds a release exactly
    when the interval admits one, the operators mean what npm says, a returned
    request is satisfied by a supported release, and an accepted report is the
    policy's image or a pinned official image of a release its source asks for. *)

From S2P Require Import Prelude Regex Json JsonParse Validation Runtime Schema StorageCapacity StorageContract.

Definition RUNTIME_NAMES (runtime : string) : option string :=
  if String.eqb runtime "node" then Some "Node.js"
  else if String.eqb runtime "bun" then Some "Bun" else None.

(** A table lookup on a name that was checked before. *)
Definition by_runtime {A} (node bun : A) (runtime : string) : A :=
  if String.eqb runtime "node" then node else bun.

Definition IMAGE_REPOSITORIES : string -> string :=
  by_runtime "docker.io/library/node" "docker.io/oven/bun".
Definition OLDEST_LINES : string -> Z * Z := by_runtime (20, 0) (1, 1).
Definition VERSION_FILES : string -> list string :=
  by_runtime [".nvmrc"; ".node-version"] [".bun-version"].
Definition MAXIMUM_REQUEST_LENGTH : nat := 256.
Definition DEFAULT_SOURCE : string := "default".
Definition _EXAMPLES : string -> string := by_runtime ">=22" "^1.3".

(** ** Keys and bounds *)

(** (major, minor, patch, release); release is 0 before the release itself. *)
Definition vkey : Type := (Z * Z * Z * Z)%type.

Definition key_ltb (a b : vkey) : bool :=
  let '(a1, a2, a3, a4) := a in let '(b1, b2, b3, b4) := b in
  (a1 <? b1) || ((a1 =? b1) && ((a2 <? b2) || ((a2 =? b2) && ((a3 <? b3) || ((a3 =? b3) && (a4 <? b4)))))).
Definition key_eqb (a b : vkey) : bool :=
  let '(a1, a2, a3, a4) := a in let '(b1, b2, b3, b4) := b in
  (a1 =? b1) && (a2 =? b2) && (a3 =? b3) && (a4 =? b4).
Definition key_leb (a b : vkey) : bool := key_ltb a b || key_eqb a b.

Definition _UNBOUNDED : Z := 1000000000.

Record _Bound := { b_key : vkey; b_inclusive : bool }.
Record _Interval := { low : option _Bound; high : option _Bound }.

Definition admits (i : _Interval) (key : vkey) : bool :=
  match low i with
  | None => true
  | Some b => key_ltb (b_key b) key || (b_inclusive b && key_eqb key (b_key b))
  end &&
  match high i with
  | None => true
  | Some b => key_ltb key (b_key b) || (b_inclusive b && key_eqb key (b_key b))
  end.

(** [max(lows, key=...)]: the first of equals; an exclusive low is greater. *)
Definition tighter_low (a b : _Bound) : _Bound :=
  if key_ltb (b_key a) (b_key b)
     || (key_eqb (b_key a) (b_key b) && b_inclusive a && negb (b_inclusive b)) then b else a.
(** [min(highs, key=...)]: an exclusive high is smaller. *)
Definition tighter_high (a b : _Bound) : _Bound :=
  if key_ltb (b_key b) (b_key a)
     || (key_eqb (b_key a) (b_key b) && b_inclusive a && negb (b_inclusive b)) then b else a.

Definition pick (f : _Bound -> _Bound -> _Bound) (a b : option _Bound) : option _Bound :=
  match a, b with
  | Some x, Some y => Some (f x y)
  | Some x, None => Some x
  | None, y => y
  end.

Definition intersect (a b : _Interval) : _Interval := {|
  low := pick tighter_low (low a) (low b); high := pick tighter_high (high a) (high b) |}.

Definition lowest (i : _Interval) : option vkey :=
  let key := match low i with
    | None => (0, 0, 0, 1)
    | Some b =>
        let '(major, minor, patch, release) := b_key b in
        let bump := if negb (release =? 0) && negb (b_inclusive b) then 1 else 0 in
        (major, minor, patch + bump, 1)
    end in
  if admits i key then Some key else None.

Definition highest (i : _Interval) : vkey :=
  match high i with
  | None => (_UNBOUNDED, _UNBOUNDED, _UNBOUNDED, 1)
  | Some b =>
      let '(major, minor, patch, release) := b_key b in
      if b_inclusive b && negb (release =? 0) then (major, minor, patch, 1)
      else if negb (patch =? 0) then (major, minor, patch - 1, 1)
      else if negb (minor =? 0) then (major, minor - 1, _UNBOUNDED, 1)
      else (major - 1, _UNBOUNDED, _UNBOUNDED, 1)
  end.

Definition _ANY : _Interval := {| low := None; high := None |}.
Definition _NOTHING : _Interval := {| low := None; high := Some {| b_key := (0, 0, 0, 0); b_inclusive := false |} |}.

(** A range is the union of its comparator sets. *)
Record VersionRange := { alternatives : list _Interval }.

Definition version := (Z * Z * Z)%type.
Definition release_key (v : version) : vkey := let '(a, b, c) := v in (a, b, c, 1).
Definition range_admits (r : VersionRange) (v : version) : bool :=
  existsb (fun i => admits i (release_key v)) (alternatives r).

(** ** Patterns *)

Definition _NUMBER : re :=
  Alt (Cls (is_char "0")) (Cat (Cls (rng "1" "9")) (Rep 0 (Some 8%nat) true (Cls digit))).
Definition _PART : re := Alt _NUMBER (Cls (one_of "xX*")).
Definition identifier_char : ascii -> bool := either digit (either upper (either lower (is_char "-"))).
Definition _IDENTIFIERS : re :=
  Cat (Plus (Cls identifier_char)) (Star (Cat (lit ".") (Plus (Cls identifier_char)))).
Definition _PARTIAL : re :=
  cats [Opt (lit "v"); Grp 1 _PART;
        Opt (cats [lit "."; Grp 2 _PART;
          Opt (cats [lit "."; Grp 3 _PART; Opt (Grp 4 (Cat (lit "-") _IDENTIFIERS));
                     Opt (Cat (lit "+") _IDENTIFIERS)])])].
Definition _EXACT : re := cats [Grp 1 _NUMBER; lit "."; Grp 2 _NUMBER; lit "."; Grp 3 _NUMBER].
Definition not_newline (a : ascii) : bool := negb (code a =? 10).
Definition _COMPARATOR : re :=
  Cat (Opt (Grp 1 (alts [lit "^"; Cat (lit "~") (Opt (lit ">")); lit ">="; lit "<="; lit ">"; lit "<"; lit "="])))
      (Grp 2 (Plus (Cls not_newline))).
Definition _OPERATOR_SPACE : re :=
  Cat (Grp 1 (alts [lit "^"; Cat (lit "~") (Opt (lit ">")); Cat (Cls (one_of "<>")) (Opt (lit "=")); lit "="]))
      (Plus (lit " ")).
Definition not_space (a : ascii) : bool := negb (is_char " " a).
Definition _HYPHEN : re := cats [Grp 1 (Plus (Cls not_space)); lit " - "; Grp 2 (Plus (Cls not_space))].
Definition _RANGE_CHARACTERS : re := Star (Cls (either alnum (one_of ".+*~^<>=| -"))).
Definition _ALIAS : re :=
  Cat (Cls (either upper lower)) (Star (Cls (either alnum (one_of "/*_.-")))).
Definition _QUOTABLE : re :=
  Rep 1 (Some 64%nat) true (Cls (fun a => let c := code a in
    (c =? 32) || (c =? 33) || ((35 <=? c) && (c <=? 91)) || ((93 <=? c) && (c <=? 126)))).

(** ** The parser *)

(** [int(text)] of matched digits. *)
Definition number (s : string) : Z := Z.of_N (decimal 0 s).

Definition number_group (n : nat) (c : caps) : Z := number (default "" (group n c)).

Definition parse_version (value : string) : option version :=
  match fullmatch_groups _EXACT value with
  | None => None
  | Some c => Some (number_group 1 c, number_group 2 c, number_group 3 c)
  end.

Definition is_wildcard (s : string) : bool := one_of_words ["x"; "X"; "*"] s.

(** The loop over the three parts: numbers, then wildcards only. *)
Fixpoint leading_numbers (items : list (option string)) (wildcard : bool) : option (list Z) :=
  match items with
  | [] => Some []
  | None :: _ => Some []
  | Some item :: rest =>
      if is_wildcard item then leading_numbers rest true
      else if wildcard then None
      else parts ← leading_numbers rest false; Some (number item :: parts)
  end.

Definition _partial (value : string) : option (list Z * bool) :=
  match fullmatch_groups _PARTIAL value with
  | None => None
  | Some c =>
      parts ← leading_numbers [group 1 c; group 2 c; group 3 c] false;
      let prerelease := not_null (group 4 c) in
      if prerelease && (length parts <? 3)%nat then None else Some (parts, prerelease)
  end.

Definition part (n : nat) (parts : list Z) : Z := nth n parts 0.

Definition _start (parts : list Z) (prerelease : bool) : vkey :=
  if Nat.eqb (length parts) 3
  then (part 0 parts, part 1 parts, part 2 parts, if prerelease then 0 else 1)
  else (part 0 parts, if (1 <? length parts)%nat then part 1 parts else 0, 0, 0).

Definition _after (parts : list Z) : vkey :=
  match length parts with
  | 1%nat => (part 0 parts + 1, 0, 0, 0)
  | 2%nat => (part 0 parts, part 1 parts + 1, 0, 0)
  | _ => (part 0 parts, part 1 parts, part 2 parts + 1, 0)
  end.

Definition from_to (l h : option _Bound) : _Interval := {| low := l; high := h |}.
Definition including (k : vkey) : option _Bound := Some {| b_key := k; b_inclusive := true |}.
Definition excluding (k : vkey) : option _Bound := Some {| b_key := k; b_inclusive := false |}.

Definition caret_high (parts : list Z) : vkey :=
  if negb (part 0 parts =? 0) || Nat.eqb (length parts) 1 then (part 0 parts + 1, 0, 0, 0)
  else if negb (part 1 parts =? 0) || Nat.eqb (length parts) 2 then (0, part 1 parts + 1, 0, 0)
  else (0, 0, part 2 parts + 1, 0).

(** The interval of one operator applied to a partial version. *)
Definition comparator_interval (operator : string) (parts : list Z) (prerelease : bool) : _Interval :=
  match parts with
  | [] => if one_of_words ["<"; ">"] operator then _NOTHING else _ANY
  | _ =>
      let start := _start parts prerelease in
      let exact := Nat.eqb (length parts) 3 in
      if String.eqb operator "=" then
        if exact then from_to (including start) (including start)
        else from_to (including start) (excluding (_after parts))
      else if String.eqb operator ">=" then from_to (including start) None
      else if String.eqb operator ">" then
        from_to (if exact then excluding start else including (_after parts)) None
      else if String.eqb operator "<" then from_to None (excluding start)
      else if String.eqb operator "<=" then
        from_to None (if exact then including start else excluding (_after parts))
      else if one_of_words ["~"; "~>"] operator then
        from_to (including start) (excluding (_after (take 2 parts)))
      else from_to (including start) (excluding (caret_high parts))
  end.

Definition _comparator (token : string) : option _Interval :=
  match fullmatch_groups _COMPARATOR token with
  | None => None
  | Some c =>
      '(parts, prerelease) ← _partial (default "" (group 2 c));
      let operator := match group 1 c with Some (String a s) => String a s | _ => "=" end in
      Some (comparator_interval operator parts prerelease)
  end.

Definition _hyphen (first last : string) : option _Interval :=
  match _partial first, _partial last with
  | Some (l, lpre), Some (h, hpre) =>
      Some (from_to
        (match l with [] => None | _ => including (_start l lpre) end)
        (match h with
         | [] => None
         | _ => if Nat.eqb (length h) 3 then including (_start h hpre) else excluding (_after h)
         end))
  | _, _ => None
  end.

(** [value.split("||")] *)
Fixpoint split_bars (s : string) : list string :=
  match s with
  | EmptyString => [""]
  | String a s' =>
      match s' with
      | String b s'' =>
          if is_char "|" a && is_char "|" b then "" :: split_bars s''
          else match split_bars s' with x :: l => String a x :: l | [] => [String a ""] end
      | EmptyString => [String a ""]
      end
  end.

Definition words_of_text (s : string) : list string :=
  List.filter (fun w => negb (String.eqb w "")) (split_on " " s).

(** [for token in ...: interval = interval.intersect(comparator)] *)
Fixpoint intersect_tokens (tokens : list string) (interval : _Interval) : option _Interval :=
  match tokens with
  | [] => Some interval
  | token :: rest =>
      if String.eqb token "" then intersect_tokens rest interval
      else comparator ← _comparator token; intersect_tokens rest (intersect interval comparator)
  end.

Definition parse_alternative (alternative : string) : option _Interval :=
  let words := join " " (words_of_text alternative) in
  match fullmatch_groups _HYPHEN words with
  | Some c => _hyphen (default "" (group 1 c)) (default "" (group 2 c))
  | None =>
      intersect_tokens (split_on " " (sub _OPERATOR_SPACE (fun c => default "" (group 1 c)) words)) _ANY
  end.

Fixpoint parse_alternatives (l : list string) : option (list _Interval) :=
  match l with
  | [] => Some []
  | x :: l' => i ← parse_alternative x; rest ← parse_alternatives l'; Some (i :: rest)
  end.

Definition parse_range (value : string) : option VersionRange :=
  if (MAXIMUM_REQUEST_LENGTH <? String.length value)%nat || negb (fullmatch _RANGE_CHARACTERS value)
  then None
  else intervals ← parse_alternatives (split_bars value); Some {| alternatives := intervals |}.

(** ** Requests *)

Definition runtime_name (runtime : string) : string := default "" (RUNTIME_NAMES runtime).

Definition _quoted (value : string) : string :=
  if fullmatch _QUOTABLE value then " " +:+ quote +:+ value +:+ quote else "".

Definition _line (runtime : string) (key : vkey) : string :=
  let '(major, minor, _, _) := key in
  if String.eqb runtime "node" then "Node.js " +:+ decimal_text major
  else "Bun " +:+ decimal_text major +:+ "." +:+
       (if minor =? _UNBOUNDED then "x" else decimal_text minor).

Definition oldest_supported (runtime : string) : string :=
  let (major, minor) := OLDEST_LINES runtime in
  if String.eqb runtime "node" then decimal_text major
  else decimal_text major +:+ "." +:+ decimal_text minor.

Record RuntimeRequest := {
  rr_runtime : string;
  rr_field : string;
  rr_value : string;
  rr_wanted : string;
  rr_versions : option VersionRange;
}.

Definition request_source (r : RuntimeRequest) : string := rr_field r +:+ " " +:+ rr_value r.
Definition request_describe (r : RuntimeRequest) : string :=
  runtime_name (rr_runtime r) +:+ " " +:+ rr_wanted r +:+ " from " +:+ rr_field r.

Definition floor_of (runtime : string) : _Interval :=
  let (major, minor) := OLDEST_LINES runtime in from_to (including (major, minor, 0, 0)) None.

Definition key_max (a b : vkey) : vkey := if key_ltb a b then b else a.
Definition key_min (a b : vkey) : vkey := if key_ltb b a then b else a.

Definition too_old (request : RuntimeRequest) (lows : list vkey) (highs : list vkey) : error :=
  let runtime := rr_runtime request in
  let newest := _line runtime (fold_left key_max (tail highs) (default (0, 0, 0, 0) (head highs))) in
  let oldest := _line runtime (fold_left key_min (tail lows) (default (0, 0, 0, 0) (head lows))) in
  let asks := if String.eqb oldest newest then newest else newest +:+ " or earlier" in
  RuntimeVersionError (rr_field request +:+ _quoted (rr_value request) +:+ " asks for " +:+ asks
    +:+ ", older than the oldest supported version (" +:+ oldest_supported runtime +:+ ").").

Definition _checked (request : RuntimeRequest) : result RuntimeRequest :=
  match rr_versions request with
  | None => Raise AssertionError
  | Some r =>
      let alternatives := alternatives r in
      let lows := omap lowest alternatives in
      match lows with
      | [] => Raise (RuntimeVersionError (rr_field request +:+ _quoted (rr_value request)
          +:+ " doesn't match any " +:+ runtime_name (rr_runtime request) +:+ " version."))
      | _ =>
          if existsb (fun i => not_null (lowest (intersect i (floor_of (rr_runtime request))))) alternatives
          then Ok request
          else Raise (too_old request lows
            (map highest (List.filter (fun i => not_null (lowest i)) alternatives)))
      end
  end.

Definition unmatched (request : RuntimeRequest) : error :=
  RuntimeVersionError ("No " +:+ runtime_name (rr_runtime request) +:+ " release matches "
    +:+ rr_field request +:+ _quoted (rr_value request) +:+ ".").

Definition _range_request (runtime field value : string) : result RuntimeRequest :=
  if (MAXIMUM_REQUEST_LENGTH <? String.length value)%nat then
    Raise (RuntimeVersionError (field +:+ " is longer than 256 characters."))
  else
    match parse_range value with
    | Some versions => _checked {| rr_runtime := runtime; rr_field := field; rr_value := value;
                                   rr_wanted := value; rr_versions := Some versions |}
    | None =>
        if String.eqb runtime "node" && one_of_words (VERSION_FILES "node") field && fullmatch _ALIAS value
        then Raise (RuntimeVersionError (field +:+ " asks for" +:+ _quoted value
               +:+ ". Use a version number or range, or lts/*."))
        else Raise (RuntimeVersionError (field +:+ _quoted value +:+ " isn't a valid version range."))
    end.

(** [line.split("#", 1)[0]] *)
Fixpoint before_hash (s : string) : string :=
  match s with
  | String a s' => if is_char "#" a then "" else String a (before_hash s')
  | EmptyString => ""
  end.

Definition blank (a : ascii) : bool :=
  let c := code a in (c =? 32) || (c =? 9) || (c =? 13) || (c =? 11) || (c =? 12).
Fixpoint first_value (lines : list string) : string :=
  match lines with
  | [] => ""
  | line :: rest =>
      let value := strip blank (before_hash line) in
      if String.eqb value "" then first_value rest else value
  end.

(** The byte order mark is not a character of the model's text. *)
Definition version_file_request (text : string) : string := first_value (split_on "010" text).

Section Requests.
Context (read_file : string -> result (option string)).

Fixpoint file_request (runtime : string) (names : list string) : result (option RuntimeRequest) :=
  match names with
  | [] => Ok None
  | name :: rest =>
      text ← read_file name;
      let value := match text with None => "" | Some t => version_file_request t end in
      if String.eqb value "" then file_request runtime rest
      else if String.eqb runtime "node" && String.eqb value "lts/*" then
        Ok (Some {| rr_runtime := runtime; rr_field := name; rr_value := value; rr_wanted := value;
                    rr_versions := None |})
      else r ← _range_request runtime name value; Ok (Some r)
  end.

(** [removeprefix("bun@").split("+", 1)[0]] *)
Fixpoint before_plus (s : string) : string :=
  match s with
  | String a s' => if is_char "+" a then "" else String a (before_plus s')
  | EmptyString => ""
  end.

Definition exactly (v : version) : VersionRange :=
  {| alternatives := [from_to (including (release_key v)) (including (release_key v))] |}.

Definition manager_request (runtime manager : string) : result RuntimeRequest :=
  let wanted := before_plus (String.substring 4 (String.length manager - 4) manager) in
  match parse_version wanted with
  | None => Raise (RuntimeVersionError ("packageManager" +:+ _quoted manager
      +:+ " must name an exact Bun version, like bun@1.3.4."))
  | Some v => _checked {| rr_runtime := runtime; rr_field := "packageManager";
                          rr_value := "bun@" +:+ wanted; rr_wanted := wanted;
                          rr_versions := Some (exactly v) |}
  end.

Definition engines_or_file (runtime : string) (package : dict) : result (option RuntimeRequest) :=
  let field := "engines." +:+ runtime in
  match dict_get "engines" package with
  | Some (JObj engines) =>
      match dict_get runtime engines with
      | Some (JStr value) => r ← _range_request runtime field value; Ok (Some r)
      | Some _ => Raise (RuntimeVersionError (field +:+ " must be a version range in quotes, like "
          +:+ quote +:+ _EXAMPLES runtime +:+ quote +:+ "."))
      | None => file_request runtime (VERSION_FILES runtime)
      end
  | _ => file_request runtime (VERSION_FILES runtime)
  end.

Definition runtime_request (runtime : string) (package : dict) : result (option RuntimeRequest) :=
  if is_null (RUNTIME_NAMES runtime) then Raise (ValidationError "runtime must be node or bun")
  else
    match String.eqb runtime "bun", dict_get "packageManager" package with
    | true, Some (JStr manager) =>
        if startswith manager "bun@" then r ← manager_request runtime manager; Ok (Some r)
        else engines_or_file runtime package
    | _, _ => engines_or_file runtime package
    end.
End Requests.

(** ** The runtime a build reports *)

Record RuntimeImages := { ri_bun : string; ri_node : string }.

Record ResolvedRuntime := {
  rs_runtime : string;
  rs_version : option string;
  rs_image : string;
  rs_source : string;
}.

Definition evidence (r : ResolvedRuntime) : dict :=
  [("runtime", JStr (rs_runtime r));
   ("version", match rs_version r with Some v => JStr v | None => JNull end);
   ("image", JStr (rs_image r)); ("source", JStr (rs_source r))].

Definition image_of (defaults : RuntimeImages) (runtime : string) : string :=
  by_runtime (ri_node defaults) (ri_bun defaults) runtime.

(** [replace(defaults, **{self.runtime: self.image})] *)
Definition runtime_images (r : ResolvedRuntime) (defaults : RuntimeImages) : RuntimeImages :=
  if String.eqb (rs_runtime r) "node" then {| ri_bun := ri_bun defaults; ri_node := rs_image r |}
  else {| ri_bun := rs_image r; ri_node := ri_node defaults |}.

Definition resolved_describe (r : ResolvedRuntime) : string :=
  match rs_version r with
  | None => "Using the platform's default " +:+ runtime_name (rs_runtime r) +:+ " image ("
            +:+ rs_image r +:+ ")."
  | Some v => "Using " +:+ runtime_name (rs_runtime r) +:+ " " +:+ v +:+ " (" +:+ rs_image r
              +:+ ") from " +:+ rs_source r +:+ "."
  end.

Definition default_runtime (runtime : string) (defaults : RuntimeImages) : result ResolvedRuntime :=
  if is_null (RUNTIME_NAMES runtime) then Raise (ValidationError "runtime must be node or bun")
  else Ok {| rs_runtime := runtime; rs_version := None; rs_image := image_of defaults runtime;
             rs_source := DEFAULT_SOURCE |}.

Definition _SOURCE_FIELDS : string -> list string :=
  by_runtime ("engines.node" :: VERSION_FILES "node") ("packageManager" :: "engines.bun" :: VERSION_FILES "bun").

(** [source.partition(" ")]: the field and what follows the first space. *)
Fixpoint partition_space (s : string) : string * string :=
  match s with
  | String a s' =>
      if is_char " " a then ("", s')
      else let (f, r) := partition_space s' in (String a f, r)
  | EmptyString => ("", "")
  end.

(** The checkout that would have made the request a source names. *)
Definition source_request (runtime field requested : string) : result (option RuntimeRequest) :=
  let package :=
    if String.eqb field "packageManager" then [("packageManager", JStr requested)]
    else if startswith field "engines." then [("engines", JObj [(runtime, JStr requested)])]
    else [] in
  let read_file name :=
    if String.eqb field "packageManager" || startswith field "engines." then Ok None
    else Ok (if String.eqb name field then Some requested else None) in
  runtime_request read_file runtime package.

Definition version_line_ltb (v : version) (line : Z * Z) : bool :=
  let '(major, minor, _) := v in
  (major <? line.1) || ((major =? line.1) && (minor <? line.2)).

Definition check_source (runtime : string) (v : version) (source : string) : result unit :=
  let (field, requested) := partition_space source in
  if negb (one_of_words (_SOURCE_FIELDS runtime) field) || String.eqb requested "" then
    Raise (ValidationError "resolved runtime source is malformed")
  else if negb (String.eqb requested "lts/*") || negb (one_of_words (VERSION_FILES "node") field) then
    request ← source_request runtime field requested;
    match request with
    | Some r =>
        match rr_versions r with
        | Some versions =>
            guard_else (String.eqb (request_source r) source && range_admits versions v)
              (ValidationError "resolved runtime version does not satisfy its source")
        | None => Raise (ValidationError "resolved runtime version does not satisfy its source")
        end
    | None => Raise (ValidationError "resolved runtime version does not satisfy its source")
    end
  else Ok tt.

Definition resolved_release (value : dict) (runtime : string) : result ResolvedRuntime :=
  match refs_get "version" value with
  | JStr version_text =>
      match parse_version version_text with
      | None => Raise (ValidationError "resolved runtime version is not a supported release")
      | Some v =>
          if version_line_ltb v (OLDEST_LINES runtime) then
            Raise (ValidationError "resolved runtime version is not a supported release")
          else
            image ← oci_digest_pin (refs_get "image" value);
            if negb (startswith image (IMAGE_REPOSITORIES runtime +:+ "@")) then
              Raise (ValidationError "resolved runtime image is outside its official repository")
            else
              match refs_get "source" value with
              | JStr source =>
                  if (MAXIMUM_REQUEST_LENGTH + 32 <? String.length source)%nat then
                    Raise (ValidationError "resolved runtime source is malformed")
                  else
                    _ ← check_source runtime v source;
                    Ok {| rs_runtime := runtime; rs_version := Some version_text; rs_image := image;
                          rs_source := source |}
              | _ => Raise (ValidationError "resolved runtime source is malformed")
              end
      end
  | _ => Raise (ValidationError "resolved runtime version is not a supported release")
  end.

Definition resolved_runtime (value : json) (runtime : string) (defaults : RuntimeImages)
    : result ResolvedRuntime :=
  match value with
  | JObj d =>
      if negb (same_keys d ["runtime"; "version"; "image"; "source"]) then
        Raise (ValidationError "resolved runtime must name runtime, version, image and source")
      else if negb (json_eqb (refs_get "runtime" d) (JStr runtime)) then
        Raise (ValidationError "resolved runtime differs from the configured runtime")
      else
        default ← default_runtime runtime defaults;
        if json_eqb (refs_get "source" d) (JStr DEFAULT_SOURCE) then
          if negb (json_eqb (refs_get "version" d) JNull)
             || negb (json_eqb (refs_get "image" d) (JStr (rs_image default))) then
            Raise (ValidationError "default runtime must be the policy image")
          else Ok default
        else resolved_release d runtime
  | _ => Raise (ValidationError "resolved runtime must name runtime, version, image and source")
  end.

(** ** Examples, against the shared cases of both test suites *)

Definition admits_text (range : string) (v : version) : option bool :=
  r ← parse_range range; Some (range_admits r v).

Example range_caret : map (admits_text "^1.2.3") [(1, 2, 3); (1, 9, 0); (2, 0, 0); (1, 2, 2)]
  = [Some true; Some true; Some false; Some false].
Proof. vm_compute. reflexivity. Qed.
Example range_or : map (admits_text ">=20 <23 || 24.x") [(22, 9, 0); (23, 0, 0); (24, 1, 0)]
  = [Some true; Some false; Some true].
Proof. vm_compute. reflexivity. Qed.
Example range_hyphen : map (admits_text "18.1 - 20") [(18, 0, 9); (20, 19, 1); (21, 0, 0)]
  = [Some false; Some true; Some false].
Proof. vm_compute. reflexivity. Qed.
Example range_spaced_operator : map (fun r => admits_text r (4, 0, 0)) ["> = 3"; ">=  3"; "> x"; "1.x.3"; "01.2.3"]
  = [Some true; Some true; Some false; None; None].
Proof. vm_compute. reflexivity. Qed.

(** ** Order *)

(** The Python order on keys, as a proposition. *)
Definition key_lt (a b : vkey) : Prop :=
  let '(a1, a2, a3, a4) := a in let '(b1, b2, b3, b4) := b in
  a1 < b1 \/ (a1 = b1 /\ (a2 < b2 \/ (a2 = b2 /\ (a3 < b3 \/ (a3 = b3 /\ a4 < b4))))).

Lemma key_ltb_iff a b : key_ltb a b = true <-> key_lt a b.
Proof.
  destruct a as [[[a1 a2] a3] a4], b as [[[b1 b2] b3] b4]. unfold key_ltb, key_lt.
  rewrite !orb_true_iff, !andb_true_iff, !orb_true_iff, !andb_true_iff, !orb_true_iff, !andb_true_iff,
    !Z.ltb_lt, !Z.eqb_eq. tauto.
Qed.

Lemma key_eqb_iff a b : key_eqb a b = true <-> a = b.
Proof.
  destruct a as [[[a1 a2] a3] a4], b as [[[b1 b2] b3] b4]. unfold key_eqb.
  rewrite !andb_true_iff, !Z.eqb_eq. split; [intros [[[-> ->] ->] ->]; done|by intros [= -> -> -> ->]].
Qed.

Lemma key_lt_trichotomy a b : key_lt a b \/ a = b \/ key_lt b a.
Proof.
  destruct a as [[[a1 a2] a3] a4], b as [[[b1 b2] b3] b4]. unfold key_lt.
  destruct (Z.lt_trichotomy a1 b1) as [|[->|]], (Z.lt_trichotomy a2 b2) as [|[->|]],
    (Z.lt_trichotomy a3 b3) as [|[->|]], (Z.lt_trichotomy a4 b4) as [|[->|]]; auto 12.
Qed.
Lemma key_lt_trans a b c : key_lt a b -> key_lt b c -> key_lt a c.
Proof. destruct a as [[[? ?] ?] ?], b as [[[? ?] ?] ?], c as [[[? ?] ?] ?]. unfold key_lt. lia. Qed.
Lemma key_lt_irrefl a : ~ key_lt a a.
Proof. destruct a as [[[? ?] ?] ?]. unfold key_lt. lia. Qed.

(** ** Intersection *)

Definition above (b : option _Bound) (k : vkey) : Prop :=
  match b with None => True | Some b => key_lt (b_key b) k \/ (b_inclusive b = true /\ k = b_key b) end.
Definition below (b : option _Bound) (k : vkey) : Prop :=
  match b with None => True | Some b => key_lt k (b_key b) \/ (b_inclusive b = true /\ k = b_key b) end.

Lemma admits_iff i k : admits i k = true <-> above (low i) k /\ below (high i) k.
Proof.
  unfold admits, above, below. rewrite andb_true_iff.
  destruct (low i), (high i); rewrite ?orb_true_iff, ?andb_true_iff, ?key_ltb_iff, ?key_eqb_iff; tauto.
Qed.

Lemma above_tighter a b k :
  above (Some (tighter_low a b)) k <-> above (Some a) k /\ above (Some b) k.
Proof.
  unfold tighter_low. destruct (_ || _) eqn:E.
  - apply orb_true_iff in E. rewrite !andb_true_iff, negb_true_iff, key_ltb_iff, key_eqb_iff in E.
    unfold above. destruct E as [E|[[E ->] ->]]; [|rewrite E; naive_solver].
    split; [|tauto]. intros H. split; [|done]. left. destruct H as [H|[_ ->]]; [|done].
    by eapply key_lt_trans.
  - apply orb_false_iff in E as [E1 E2]. unfold above.
    assert (~ key_lt (b_key a) (b_key b)) by (rewrite <- key_ltb_iff; congruence).
    destruct (key_lt_trichotomy (b_key a) (b_key b)) as [|[E|E]]; [done| |].
    + rewrite (proj2 (key_eqb_iff _ _) E) in E2. rewrite E in *.
      destruct (b_inclusive a), (b_inclusive b); simpl in *; naive_solver.
    + split; [|tauto]. intros H0. split; [done|]. left. destruct H0 as [H0|[_ ->]]; [|done].
      by eapply key_lt_trans.
Qed.

Lemma below_tighter a b k :
  below (Some (tighter_high a b)) k <-> below (Some a) k /\ below (Some b) k.
Proof.
  unfold tighter_high. destruct (_ || _) eqn:E.
  - apply orb_true_iff in E. rewrite !andb_true_iff, negb_true_iff, key_ltb_iff, key_eqb_iff in E.
    unfold below. destruct E as [E|[[E ->] ->]]; [|rewrite E; naive_solver].
    split; [|tauto]. intros H. split; [|done]. left. destruct H as [H|[_ ->]]; [|done].
    by eapply key_lt_trans.
  - apply orb_false_iff in E as [E1 E2]. unfold below.
    assert (~ key_lt (b_key b) (b_key a)) by (rewrite <- key_ltb_iff; congruence).
    destruct (key_lt_trichotomy (b_key a) (b_key b)) as [E|[E|]]; [| |done].
    + split; [|tauto]. intros H0. split; [done|]. left. destruct H0 as [H0|[_ ->]]; [|done].
      by eapply key_lt_trans.
    + rewrite (proj2 (key_eqb_iff _ _) E) in E2. rewrite E in *.
      destruct (b_inclusive a), (b_inclusive b); simpl in *; naive_solver.
Qed.

Lemma intersect_iff a b k :
  admits (intersect a b) k = true <-> admits a k = true /\ admits b k = true.
Proof.
  rewrite !admits_iff. unfold intersect, pick; simpl.
  destruct (low a), (low b), (high a), (high b);
    rewrite ?above_tighter, ?below_tighter; unfold above, below; tauto.
Qed.

(** ** The lowest and the highest release *)

Definition nonnegative (v : version) : Prop := let '(a, b, c) := v in 0 <= a /\ 0 <= b /\ 0 <= c.

(** What the parser builds: parts are natural, the release flag is 0 or 1. *)
Definition wf_key (k : vkey) : Prop :=
  let '(a, b, c, r) := k in 0 <= a /\ 0 <= b /\ 0 <= c /\ 0 <= r <= 1.
Definition wf_bound (b : option _Bound) : Prop := match b with Some b => wf_key (b_key b) | None => True end.
Definition wf_interval (i : _Interval) : Prop := wf_bound (low i) /\ wf_bound (high i).

Ltac intervals :=
  repeat match goal with
    | v : version |- _ => destruct v as [[? ?] ?]
    | k : vkey |- _ => destruct k as [[[? ?] ?] ?]
    | b : _Bound |- _ => destruct b as [? []]
    end; cbv [above below key_lt release_key nonnegative wf_interval wf_bound wf_key b_key b_inclusive low high] in *.

(** The key [lowest] tests is at or below every release above the low bound. *)
Definition lowest_key (i : _Interval) : vkey :=
  match low i with
  | None => (0, 0, 0, 1)
  | Some b =>
      let '(major, minor, patch, release) := b_key b in
      (major, minor, patch + (if negb (release =? 0) && negb (b_inclusive b) then 1 else 0), 1)
  end.

Lemma lowest_eq i : lowest i = if admits i (lowest_key i) then Some (lowest_key i) else None.
Proof. unfold lowest, lowest_key. destruct (low i) as [[[[[? ?] ?] ?] ?]|]; done. Qed.

Lemma not_key_lt a b : ~ key_lt a b <-> key_lt b a \/ a = b.
Proof.
  split.
  - destruct (key_lt_trichotomy a b) as [|[|]]; tauto.
  - intros [H| ->] H'; [eapply key_lt_irrefl, key_lt_trans; eauto|by eapply key_lt_irrefl].
Qed.

Lemma lowest_key_least i v :
  wf_interval i -> nonnegative v -> above (low i) (release_key v) -> ~ key_lt (release_key v) (lowest_key i).
Proof.
  destruct i as [[b|] h]; unfold lowest_key; simpl.
  - intervals; destruct (_ =? 0) eqn:E; simpl; intros; (apply Z.eqb_eq in E || apply Z.eqb_neq in E);
      match goal with H : _ \/ _ |- _ => destruct H as [H|[H1 H2]] end; simplify_eq; lia.
  - intervals; lia.
Qed.

Lemma lowest_key_above i : wf_interval i -> above (low i) (lowest_key i).
Proof.
  destruct i as [[b|] h]; unfold lowest_key; simpl; [|done].
  intervals; destruct (_ =? 0) eqn:E; simpl; (apply Z.eqb_eq in E || apply Z.eqb_neq in E); intros;
    try (left; lia); right; split; [done|]; repeat f_equal; lia.
Qed.

Lemma below_down h a b : ~ key_lt b a -> below h b -> below h a.
Proof.
  destruct h as [h|]; [|done]. intros [Hab| ->]%not_key_lt; [|done]. unfold below.
  intros [H|[? ->]]; left; [by eapply key_lt_trans|done].
Qed.

(** The release a key of [lowest] names. *)
Definition version_of (k : vkey) : version := let '(a, b, c, _) := k in (a, b, c).

Lemma lowest_key_release i : release_key (version_of (lowest_key i)) = lowest_key i.
Proof. unfold lowest_key. destruct (low i) as [[[[[? ?] ?] ?] ?]|]; done. Qed.

Lemma lowest_nonnegative i : wf_interval i -> nonnegative (version_of (lowest_key i)).
Proof.
  destruct i as [[b|] h]; unfold lowest_key; simpl; [|lia].
  intervals; destruct (negb _ && _); simpl; lia.
Qed.

(** [lowest] finds a release exactly when the interval admits one. *)
Lemma lowest_some_iff i : wf_interval i ->
  lowest i <> None <-> exists v, nonnegative v /\ admits i (release_key v) = true.
Proof.
  intros Hi. rewrite lowest_eq. destruct (admits i (lowest_key i)) eqn:E.
  - split; [|done]. intros _. exists (version_of (lowest_key i)). rewrite lowest_key_release.
    split; [by apply lowest_nonnegative|done].
  - split; [done|]. intros (v & Hv & Ha). apply admits_iff in Ha as [Hlow Hhigh].
    apply not_true_iff_false in E. exfalso; apply E, admits_iff. split; [by apply lowest_key_above|].
    eapply below_down; [|done]. by apply lowest_key_least.
Qed.

(** ** What the operators mean *)

(** npm's reading of a comparator against a release: the given parts are
    compared with as many leading parts of the release. *)
Fixpoint lex_lt (a b : list Z) : Prop :=
  match a, b with x :: a', y :: b' => x < y \/ (x = y /\ lex_lt a' b') | _, _ => False end.

Definition leading (n : nat) (v : version) : list Z := let '(a, b, c) := v in take n [a; b; c].

(** How many leading parts a caret fixes: up to the first nonzero one. *)
Fixpoint caret_fixed (parts : list Z) : nat :=
  match parts with
  | [] => 0
  | [_] => 1
  | p :: rest => if p =? 0 then S (caret_fixed rest) else 1
  end.

Definition npm_admits (operator : string) (parts : list Z) (prerelease : bool) (v : version) : Prop :=
  let given := leading (length parts) v in
  let fixed n := leading (Nat.min n (length parts)) v = take n parts in
  if String.eqb operator "=" then given = parts /\ prerelease = false
  else if String.eqb operator ">=" then ~ lex_lt given parts
  else if String.eqb operator ">" then lex_lt parts given \/ (given = parts /\ prerelease = true)
  else if String.eqb operator "<" then lex_lt given parts
  else if String.eqb operator "<=" then lex_lt given parts \/ (given = parts /\ prerelease = false)
  else if one_of_words ["~"; "~>"] operator then ~ lex_lt given parts /\ fixed 2%nat
  else ~ lex_lt given parts /\ fixed (caret_fixed parts).

Definition wf_parts (parts : list Z) (prerelease : bool) : Prop :=
  (1 <= length parts <= 3)%nat /\ Forall (fun p => 0 <= p) parts /\ (prerelease = true -> length parts = 3%nat).

Lemma tuple_iff (a b c d x y z w : Z) : (a, b, c, d) = (x, y, z, w) <-> a = x /\ b = y /\ c = z /\ d = w.
Proof. split; [by intros [= -> -> -> ->]|by intros (-> & -> & -> & ->)]. Qed.
Lemma list1_iff (a x : Z) : [a] = [x] <-> a = x.
Proof. split; congruence. Qed.
Lemma list2_iff (a b x y : Z) : [a; b] = [x; y] <-> a = x /\ b = y.
Proof. split; [by intros [= -> ->]|by intros [-> ->]]. Qed.
Lemma list3_iff (a b c x y z : Z) : [a; b; c] = [x; y; z] <-> a = x /\ b = y /\ c = z.
Proof. split; [by intros [= -> -> ->]|by intros (-> & -> & ->)]. Qed.

(** C36. Every comparator operator, on every partial version, admits exactly the
    releases npm's rules say: [=] the releases with the given parts, [~] those
    that also keep the minor version, [^] those that keep everything up to the
    first nonzero part, and the inequalities by comparison of the given parts;
    a pre-release tag only moves a bound. *)
Theorem comparator_semantics operator parts prerelease v :
  one_of_words ["="; ">="; ">"; "<"; "<="; "~"; "~>"; "^"] operator = true ->
  wf_parts parts prerelease -> nonnegative v ->
  admits (comparator_interval operator parts prerelease) (release_key v) = true
  <-> npm_admits operator parts prerelease v.
Proof.
  intros Hop ([H1 H2] & Hparts & Hpre) Hv. destruct v as [[a b] c]; simpl in Hv.
  apply one_of_words_in in Hop. rewrite admits_iff.
  destruct parts as [|x [|y [|z [|]]]]; simpl in H1, H2; try lia;
    repeat match goal with H : Forall _ (_ :: _) |- _ => apply Forall_cons_1 in H as [? H] end;
    (destruct prerelease; [specialize (Hpre eq_refl); simpl in Hpre; try lia|]); clear Hpre Hparts H1 H2;
    simpl in Hop; repeat destruct Hop as [<-|Hop]; try done;
    unfold npm_admits, comparator_interval; simpl;
    cbv [above below key_lt b_key b_inclusive including excluding _start _after caret_high part nth length
      Nat.eqb Nat.ltb Nat.leb negb orb]; simpl;
    try destruct (Z.eqb_spec x 0); try destruct (Z.eqb_spec y 0); simpl;
    rewrite ?tuple_iff, ?list1_iff, ?list2_iff, ?list3_iff; lia.
Qed.

Theorem comparator_semantics_witness :
  admits (comparator_interval "^" [0; 2; 3] false) (release_key (0, 2, 9)) = true
  <-> npm_admits "^" [0; 2; 3] false (0, 2, 9).
Proof.
  apply comparator_semantics; [reflexivity| |simpl; lia].
  split_and!; simpl; [lia|lia| |done]. repeat constructor; lia.
Defined.

(** ** The parser builds well-formed intervals *)

Lemma nonneg_part n parts : Forall (fun p => 0 <= p) parts -> 0 <= part n parts.
Proof.
  intros H. unfold part. destruct (nth_in_or_default n parts 0) as [Hin| ->]; [|lia].
  rewrite List.Forall_forall in H. auto.
Qed.

Lemma leading_numbers_nonneg items w parts :
  leading_numbers items w = Some parts -> Forall (fun p => 0 <= p) parts.
Proof.
  revert w parts. induction items as [|[item|] rest IH]; intros w parts; simpl.
  - by intros [= <-].
  - destruct (is_wildcard item); [apply IH|]. destruct w; [done|].
    destruct (leading_numbers rest false) eqn:E; simpl; [|done]. intros [= <-].
    constructor; [unfold number; lia|by apply (IH _ _ E)].
  - by intros [= <-].
Qed.

Lemma partial_nonneg value parts pre : _partial value = Some (parts, pre) -> Forall (fun p => 0 <= p) parts.
Proof.
  unfold _partial. destruct (fullmatch_groups _ _); [|done].
  destruct (leading_numbers _ _) eqn:E; simpl; [|done]. destruct (_ && _); [done|].
  intros [= <- _]. by eapply leading_numbers_nonneg.
Qed.

Lemma wf_start parts pre : Forall (fun p => 0 <= p) parts -> wf_key (_start parts pre).
Proof.
  intros H. pose proof (nonneg_part 0 parts H). pose proof (nonneg_part 1 parts H).
  pose proof (nonneg_part 2 parts H). unfold _start. repeat case_match; simpl; lia.
Qed.
Lemma wf_after parts : Forall (fun p => 0 <= p) parts -> wf_key (_after parts).
Proof.
  intros H. pose proof (nonneg_part 0 parts H). pose proof (nonneg_part 1 parts H).
  pose proof (nonneg_part 2 parts H). unfold _after. repeat case_match; simpl; lia.
Qed.
Lemma wf_caret parts : Forall (fun p => 0 <= p) parts -> wf_key (caret_high parts).
Proof.
  intros H. pose proof (nonneg_part 0 parts H). pose proof (nonneg_part 1 parts H).
  pose proof (nonneg_part 2 parts H). unfold caret_high. repeat case_match; simpl; lia.
Qed.

Lemma comparator_interval_wf operator parts pre :
  Forall (fun p => 0 <= p) parts -> wf_interval (comparator_interval operator parts pre).
Proof.
  intros H. pose proof (wf_start parts pre H). pose proof (wf_after parts H).
  pose proof (wf_caret parts H). pose proof (wf_after (take 2 parts) (Forall_take _ 2 _ H)).
  unfold comparator_interval. destruct parts; [destruct (one_of_words _ _); split; simpl; lia|].
  repeat case_match; split; done.
Qed.

Lemma comparator_wf token i : _comparator token = Some i -> wf_interval i.
Proof.
  unfold _comparator. destruct (fullmatch_groups _ _); [|done].
  destruct (_partial _) as [[parts pre]|] eqn:E; simpl; [|done]. intros [= <-].
  apply comparator_interval_wf. by eapply partial_nonneg.
Qed.

Lemma intersect_wf a b : wf_interval a -> wf_interval b -> wf_interval (intersect a b).
Proof.
  intros [] []. unfold intersect, wf_interval, tighter_low, tighter_high, pick; simpl.
  split; [destruct (low a), (low b)|destruct (high a), (high b)]; try done; by case_match.
Qed.

Lemma hyphen_wf first last i : _hyphen first last = Some i -> wf_interval i.
Proof.
  unfold _hyphen. destruct (_partial first) as [[l lp]|] eqn:El; [|done].
  destruct (_partial last) as [[h hp]|] eqn:Eh; [|done]. intros [= <-].
  apply partial_nonneg in El. apply partial_nonneg in Eh.
  split; [destruct l; [done|]; by apply wf_start|].
  destruct h; [done|]. simpl. case_match; [by apply wf_start|by apply wf_after].
Qed.

Lemma intersect_tokens_wf tokens i r :
  wf_interval i -> intersect_tokens tokens i = Some r -> wf_interval r.
Proof.
  revert i. induction tokens as [|t tokens IH]; intros i Hi; simpl; [by intros [= <-]|].
  destruct (String.eqb t ""); [by apply IH|]. destruct (_comparator t) eqn:E; simpl; [|done].
  apply IH, intersect_wf; [done|]. by eapply comparator_wf.
Qed.

Lemma parse_range_wf value r : parse_range value = Some r -> Forall wf_interval (alternatives r).
Proof.
  unfold parse_range. destruct (_ || _); [done|].
  destruct (parse_alternatives _) as [l|] eqn:E; simpl; [|done]. intros [= <-]. simpl.
  revert l E. induction (split_bars value) as [|x xs IH]; intros l; simpl; [intros [= <-]; constructor|].
  destruct (parse_alternative x) as [i|] eqn:Ei; simpl; [|done].
  destruct (parse_alternatives xs) as [rest|]; simpl; [|done]. intros [= <-].
  constructor; [|by apply IH]. unfold parse_alternative in Ei.
  destruct (fullmatch_groups _ _); [by eapply hyphen_wf|].
  by eapply intersect_tokens_wf in Ei.
Qed.

(** ** Ranges and requests *)

Lemma intersect_tokens_admits tokens i r k :
  intersect_tokens tokens i = Some r ->
  admits r k = true <-> admits i k = true
    /\ Forall (fun t => t = "" \/ exists c, _comparator t = Some c /\ admits c k = true) tokens.
Proof.
  revert i. induction tokens as [|t tokens IH]; intros i; simpl; [intros [= <-]; naive_solver|].
  rewrite Forall_cons. destruct (String.eqb_spec t "") as [->|Ht]; [intros H; rewrite (IH _ H); naive_solver|].
  destruct (_comparator t) as [c|]; simpl; [|done]. intros H. rewrite (IH _ H), intersect_iff.
  naive_solver.
Qed.

(** The releases a request may be built with. *)
Definition supported (runtime : string) (v : version) : Prop :=
  nonnegative v /\ version_line_ltb v (OLDEST_LINES runtime) = false.

Lemma supported_floor runtime v : nonnegative v ->
  admits (floor_of runtime) (release_key v) = true <-> version_line_ltb v (OLDEST_LINES runtime) = false.
Proof.
  intros Hv. rewrite admits_iff. unfold floor_of, version_line_ltb. destruct (OLDEST_LINES runtime) as [m n].
  destruct v as [[a b] c]. cbv [above below key_lt from_to including release_key b_key b_inclusive low high nonnegative fst snd] in *.
  rewrite orb_false_iff, andb_false_iff, !Z.ltb_ge, Z.eqb_neq, tuple_iff.
  lia.
Qed.

Lemma floor_wf runtime : wf_interval (floor_of runtime).
Proof. unfold floor_of, OLDEST_LINES, by_runtime. destruct (String.eqb runtime "node"); split; simpl; auto; lia. Qed.

Lemma existsb_ext_iff {A} (f : A -> bool) (P : A -> Prop) l :
  Forall (fun x => f x = true <-> P x) l -> existsb f l = true <-> exists x, In x l /\ P x.
Proof. rewrite List.Forall_forall, existsb_exists. intros H. split; intros (x & ? & ?); exists x; split; auto; by apply H. Qed.

(** A request is accepted exactly when its range admits a supported release. *)
Lemma checked_iff request r :
  rr_versions request = Some r -> Forall wf_interval (alternatives r) ->
  _checked request = Ok request
  <-> exists v, supported (rr_runtime request) v /\ range_admits r v = true.
Proof.
  intros Hr Hwf. unfold _checked. rewrite Hr.
  assert (Hsup : existsb (fun i => not_null (lowest (intersect i (floor_of (rr_runtime request))))) (alternatives r) = true
    <-> exists v, supported (rr_runtime request) v /\ range_admits r v = true).
  { rewrite (existsb_ext_iff _ (fun i => exists v, supported (rr_runtime request) v /\ admits i (release_key v) = true)).
    - unfold range_admits. split; [intros (i & ? & v & ? & ?); exists v; split; [done|]; apply existsb_exists; eauto|].
      intros (v & Hv & (i & ? & ?)%existsb_exists). eauto.
    - eapply Forall_impl; [exact Hwf|]. intros i Hi.
      assert (Hn : not_null (lowest (intersect i (floor_of (rr_runtime request)))) = true <->
        lowest (intersect i (floor_of (rr_runtime request))) <> None) by (by destruct (lowest _)).
      rewrite Hn, lowest_some_iff by (apply intersect_wf; [done|apply floor_wf]).
      split; intros (v & H).
      + destruct H as [Hv [? ?]%intersect_iff]. exists v. split; [|done]. split; [done|by apply supported_floor].
      + destruct H as [[? ?] ?]. exists v. split; [done|]. apply intersect_iff. split; [done|by apply supported_floor]. }
  rewrite <- Hsup. destruct (omap lowest (alternatives r)) as [|k ks] eqn:El.
  - split; [done|]. intros H. exfalso. apply Hsup in H as (v & [Hv _] & (i & Hin & Ha)%existsb_exists).
    assert (Hl : lowest i <> None).
    { apply lowest_some_iff; [by eapply List.Forall_forall in Hwf|eauto]. }
    destruct (lowest i) as [k|] eqn:Ek; [|done].
    assert (Hk : k ∈ omap lowest (alternatives r)) by (apply list_elem_of_omap; exists i; split; [by apply list_elem_of_In|done]).
    rewrite El in Hk. by apply not_elem_of_nil in Hk.
  - destruct (existsb _ _); split; done.
Qed.

(** A version range is accepted from a checkout exactly when it is in the
    supported syntax and some release no older than the oldest supported line
    satisfies it; what is accepted is the range as written. *)
Theorem range_request_supported runtime field value request :
  _range_request runtime field value = Ok request
  <-> exists versions v,
        parse_range value = Some versions /\ supported runtime v /\ range_admits versions v = true
        /\ request = {| rr_runtime := runtime; rr_field := field; rr_value := value;
                        rr_wanted := value; rr_versions := Some versions |}.
Proof.
  unfold _range_request.
  destruct (_ <? _)%nat eqn:El.
  - split; [done|]. intros (r & v & Hp & _). unfold parse_range in Hp. by rewrite El in Hp.
  - destruct (parse_range value) as [r|] eqn:Hp.
    + pose proof (parse_range_wf _ _ Hp) as Hwf. set (q := Build_RuntimeRequest _ _ _ _ _).
      assert (Hok : forall q', _checked q = Ok q' -> q' = q)
        by (unfold _checked; simpl; intros q'; repeat case_match; by intros [= <-]).
      pose proof (checked_iff q r eq_refl Hwf) as Hc. simpl in Hc. split.
      * intros H. pose proof (Hok _ H) as ->. apply Hc in H as (v & ? & ?). exists r, v. auto.
      * intros (r' & v & [= <-] & ? & ? & ->). apply Hc. eauto.
    + destruct (_ && _); (split; [done|by intros (? & ? & ? & _)]).
Qed.

Lemma oci_digest_pin_stable v s : oci_digest_pin v = Ok s -> v = JStr s.
Proof.
  unfold oci_digest_pin. destruct v; try done. destruct (_ <? _)%nat; [done|].
  unfold matching. destruct (fullmatch _ _); [congruence|done].
Qed.

(** C35. A build's runtime report is accepted only when it names the configured
    runtime and either is exactly the policy's image, or pins by digest an
    image of the official repository at an exact release, no older than the
    oldest supported line, that the request named by its source admits (an
    [lts/*] request names no release to compare with). *)
Theorem resolved_runtime_safe value runtime defaults r :
  resolved_runtime value runtime defaults = Ok r ->
  rs_runtime r = runtime
  /\ ((rs_version r = None /\ rs_image r = image_of defaults runtime /\ rs_source r = DEFAULT_SOURCE)
      \/ exists text v,
          rs_version r = Some text /\ parse_version text = Some v
          /\ version_line_ltb v (OLDEST_LINES runtime) = false
          /\ oci_digest_pin (JStr (rs_image r)) = Ok (rs_image r)
          /\ startswith (rs_image r) (IMAGE_REPOSITORIES runtime +:+ "@") = true
          /\ ((runtime = "node" /\ exists name, In name (VERSION_FILES "node") /\ partition_space (rs_source r) = (name, "lts/*"))
              \/ exists field requested request versions,
                  partition_space (rs_source r) = (field, requested)
                  /\ source_request runtime field requested = Ok (Some request)
                  /\ request_source request = rs_source r
                  /\ rr_versions request = Some versions /\ range_admits versions v = true)).
Proof.
  unfold resolved_runtime. destruct value as [| | | | |d]; try done.
  destruct (same_keys _ _); simpl; [|done]. destruct (json_eqb _ (JStr runtime)); simpl; [|done].
  unfold default_runtime. destruct (RUNTIME_NAMES runtime) eqn:Hn; simpl; [|done].
  destruct (json_eqb (refs_get "source" d) _).
  { destruct (_ || _); [done|]. intros [= <-]. simpl. auto. }
  unfold resolved_release. destruct (refs_get "version" d) as [| | |text| |]; try done.
  destruct (parse_version text) as [v|] eqn:Hv; [|done]. destruct (version_line_ltb _ _) eqn:Hold; [done|].
  destruct (oci_digest_pin _) as [image|] eqn:Hi; simpl; [|done].
  destruct (startswith _ _) eqn:Hs; simpl; [|done].
  destruct (refs_get "source" d) as [| | |source| |]; try done. destruct (_ <? _)%nat; [done|].
  destruct (check_source runtime v source) as [[]|] eqn:Hc; simpl; [|done]. intros [= <-]. simpl.
  split; [done|right]. exists text, v. pose proof (oci_digest_pin_stable _ _ Hi) as Hsame.
  split_and!; try done; [by rewrite Hsame in Hi|].
  unfold check_source in Hc. destruct (partition_space source) as [field requested] eqn:Hp.
  destruct (one_of_words (_SOURCE_FIELDS runtime) field) eqn:Hf; simpl in Hc; [|done].
  destruct (String.eqb requested ""); [done|].
  destruct (negb (String.eqb requested "lts/*") || _) eqn:Hl.
  - right. destruct (source_request _ _ _) as [[q|]|] eqn:Hq; simpl in Hc; try done.
    destruct (rr_versions q) as [versions|] eqn:Hr; [|done]. unfold guard_else in Hc.
    destruct (String.eqb (request_source q) source && _) eqn:E; [|done].
    apply andb_true_iff in E as [?%String.eqb_eq ?]. exists field, requested, q, versions. auto.
  - left. apply orb_false_iff in Hl as [->%negb_false_iff%String.eqb_eq Hl%negb_false_iff].
    change (one_of_words (VERSION_FILES "node") field = true) in Hl.
    apply one_of_words_in in Hl. split; [|by exists field].
    apply one_of_words_in in Hf. unfold RUNTIME_NAMES in Hn. destruct (String.eqb_spec runtime "node"); [done|].
    destruct (String.eqb_spec runtime "bun"); [subst|done].
    by destruct Hl as [<-|[<-|[]]]; destruct Hf as [|[|[|[]]]].
Qed.

Example node_report : dict :=
  [("runtime", JStr "node"); ("version", JStr "22.11.0");
   ("image", JStr ("docker.io/library/node@sha256:" +:+ string_of_list_ascii (repeat "a"%char 64)));
   ("source", JStr "engines.node >=22 <23")].

Example images : RuntimeImages := {| ri_bun := "bun-image"; ri_node := "node-image" |}.

Theorem resolved_runtime_safe_witness : exists r,
  resolved_runtime (JObj node_report) "node" images = Ok r
  /\ rs_runtime r = "node"
  /\ ((rs_version r = None /\ rs_image r = image_of images "node" /\ rs_source r = DEFAULT_SOURCE)
      \/ exists text v,
          rs_version r = Some text /\ parse_version text = Some v
          /\ version_line_ltb v (OLDEST_LINES "node") = false
          /\ oci_digest_pin (JStr (rs_image r)) = Ok (rs_image r)
          /\ startswith (rs_image r) (IMAGE_REPOSITORIES "node" +:+ "@") = true
          /\ (("node" = "node" /\ exists name, In name (VERSION_FILES "node") /\ partition_space (rs_source r) = (name, "lts/*"))
              \/ exists field requested request versions,
                  partition_space (rs_source r) = (field, requested)
                  /\ source_request "node" field requested = Ok (Some request)
                  /\ request_source request = rs_source r
                  /\ rr_versions request = Some versions /\ range_admits versions v = true)).
Proof.
  assert (H : is_ok (resolved_runtime (JObj node_report) "node" images) = true) by (vm_compute; reflexivity).
  destruct (resolved_runtime (JObj node_report) "node" images) as [r|] eqn:E; [|discriminate H].
  exists r. split; [reflexivity|]. exact (resolved_runtime_safe _ _ _ _ E).
Defined.

(** An odd line, never one of long-term support, passes for [lts/*]. *)
Lemma lts_any_release :
  resolved_runtime (JObj (dict_set "version" (JStr "23.1.0") (dict_set "source" (JStr ".nvmrc lts/*") node_report))) "node" images
  = Ok {| rs_runtime := "node"; rs_version := Some "23.1.0"%string; rs_source := ".nvmrc lts/*";
          rs_image := "docker.io/library/node@sha256:" +:+ string_of_list_ascii (repeat "a"%char 64) |}.
Proof. vm_compute. reflexivity. Qed.

Lemma resolved_evidence r runtime defaults :
  resolved_runtime (JObj (evidence r)) runtime defaults =
  if negb (String.eqb (rs_runtime r) runtime) then
    Raise (ValidationError "resolved runtime differs from the configured runtime")
  else
    default ← default_runtime runtime defaults;
    if String.eqb (rs_source r) DEFAULT_SOURCE then
      if negb (json_eqb (match rs_version r with Some v => JStr v | None => JNull end) JNull)
         || negb (String.eqb (rs_image r) (rs_image default)) then
        Raise (ValidationError "default runtime must be the policy image")
      else Ok default
    else resolved_release (evidence r) runtime.
Proof. reflexivity. Qed.

(** What a checked runtime stores as evidence is checked again to the same
    runtime: the record of a build can be read back. *)
Theorem evidence_round_trip value runtime defaults r :
  resolved_runtime value runtime defaults = Ok r ->
  resolved_runtime (JObj (evidence r)) runtime defaults = Ok r.
Proof.
  intros H. unfold resolved_runtime in H. destruct value as [| | | | |d]; try done.
  destruct (same_keys _ _); cbn [negb] in H; [|done].
  destruct (json_eqb (refs_get "runtime" d) _); cbn [negb] in H; [|done].
  destruct (default_runtime runtime defaults) as [default|] eqn:Hd; simpl in H; [|done].
  assert (Hdef : rs_runtime default = runtime /\ rs_version default = None /\ rs_source default = DEFAULT_SOURCE).
  { unfold default_runtime in Hd. by destruct (is_null _); [|injection Hd as <-]. }
  destruct Hdef as (H1 & H2 & H3).
  destruct (json_eqb (refs_get "source" d) (JStr DEFAULT_SOURCE)) eqn:Hs.
  - destruct (_ || _); [done|]. injection H as <-. rewrite resolved_evidence, H1, String.eqb_refl, Hd. simpl.
    rewrite H2, H3, String.eqb_refl. cbn [json_eqb]. by rewrite String.eqb_refl.
  - rename H into Hr. assert (Hfields : exists text, rs_runtime r = runtime /\ rs_version r = Some text
      /\ refs_get "version" d = JStr text /\ refs_get "image" d = JStr (rs_image r)
      /\ refs_get "source" d = JStr (rs_source r)).
    { revert Hr. unfold resolved_release. destruct (refs_get "version" d) as [| | |text| |]; try done.
      destruct (parse_version text); [|done]. destruct (version_line_ltb _ _); [done|].
      destruct (oci_digest_pin _) as [image|] eqn:Hi; simpl; [|done]. destruct (negb _); [done|].
      destruct (refs_get "source" d) as [| | |source| |]; try done. destruct (_ <? _)%nat; [done|].
      destruct (check_source _ _ _); simpl; [|done]. intros [= <-]. exists text.
      split_and!; try done. by apply oci_digest_pin_stable. }
    destruct Hfields as (text & R1 & R2 & R3 & R4 & R5).
    assert (Hsame : resolved_release (evidence r) runtime = resolved_release d runtime).
    { unfold resolved_release at 2. rewrite R3, R4, R5. unfold evidence. rewrite R2. done. }
    rewrite resolved_evidence, R1, String.eqb_refl, Hd. simpl.
    rewrite R5 in Hs. simpl in Hs. rewrite Hs. by rewrite Hsame.
Qed.

Theorem evidence_round_trip_witness : exists r,
  resolved_runtime (JObj node_report) "node" images = Ok r
  /\ resolved_runtime (JObj (evidence r)) "node" images = Ok r.
Proof.
  assert (H : is_ok (resolved_runtime (JObj node_report) "node" images) = true) by (vm_compute; reflexivity).
  destruct (resolved_runtime (JObj node_report) "node" images) as [r|] eqn:E; [|discriminate H].
  exists r. split; [reflexivity|]. exact (evidence_round_trip _ _ _ _ E).
Defined.
