(* ===== verification/DeploymentConfig.v ===== *)
(** * Deployment configuration
    (src/openstack_platform/controller/deployment_config.py)

    The parser of the configuration an owner stores for an application, its
    canonical text, and the manifest derived from it.  The checks that open
    files of a checkout are not modelled.

    [snapshot_round_trip]: a parsed configuration is read back from its
    canonical text as it was, while that text is within the parser's limit;
    [snapshot_too_large]: it can pass the limit that its input respected. *)

From S2P Require Import Prelude Regex Json JsonParse Validation Schema StorageCapacity StorageContract.

Definition _SCHEMA_VERSION : Z := 1.
Definition _RUNTIMES : list string := ["node"; "bun"].
Definition _MAX_CONFIGURATION_BYTES : Z := 65536.
Definition _BRANCH : re :=
  Cat (Cls alnum) (Rep 0 (Some 127%nat) true (Cls (either alnum (one_of "._/-")))).
Definition _OUTPUT : re :=
  Cat (Cls lower) (Rep 0 (Some 31%nat) true (Cls (either lower_alnum (is_char "_")))).

Record StorageOutputBinding := {
  sb_resource_id : string;
  sb_outputs : list (string * string);
}.

Record DeploymentConfiguration := {
  cf_schema_version : Z;
  cf_runtime : string;
  cf_packages : list string;
  cf_build_script : option string;
  cf_start_script : string;
  cf_port : Z;
  cf_health_path : string;
  cf_storage_bindings : list StorageOutputBinding;
}.

(** ** The canonical text *)

Definition text_dict (d : list (string * string)) : json := JObj (map (fun kv => (kv.1, JStr kv.2)) d).

Definition binding_value (b : StorageOutputBinding) : json :=
  JObj [("resourceId", JStr (sb_resource_id b)); ("outputs", text_dict (sb_outputs b))].

Definition opt_text : option string -> json := opt_json JStr.

Definition configuration_value (c : DeploymentConfiguration) : json := JObj
  [("schemaVersion", JInt (cf_schema_version c));
   ("build", JObj [("runtime", JStr (cf_runtime c));
                   ("packages", JArr (map JStr (cf_packages c)));
                   ("buildScript", opt_text (cf_build_script c));
                   ("startScript", JStr (cf_start_script c))]);
   ("runtime", JObj [("port", JInt (cf_port c)); ("healthPath", JStr (cf_health_path c))]);
   ("storageBindings", JArr (map binding_value (cf_storage_bindings c)))].

Definition canonical_json (c : DeploymentConfiguration) : string := dumps (configuration_value c).

(** ** The manifest *)

Record StorageBinding := {
  mb_name : string;
  mb_resource_type : string;
  mb_environment : list (string * string);
}.

Record Manifest := {
  mf_runtime : string;
  mf_packages : list string;
  mf_build_script : option string;
  mf_start_script : string;
  mf_port : Z;
  mf_health_path : string;
  mf_storage_bindings : list StorageBinding;
}.

Definition manifest_binding (resources : list (string * (string * string)))
    (b : StorageOutputBinding) : result StorageBinding :=
  match dict_get (sb_resource_id b) resources with
  | None => Raise (ValidationError "storage binding references missing or inactive storage")
  | Some (resource_type, machine_name) =>
      match RESOURCE_OUTPUTS resource_type with
      | None => Raise (ValidationError "storage binding references missing or inactive storage")
      | Some allowed =>
          checked_name ← resource_name machine_name;
          if forallb (fun o => one_of_words allowed o.1) (sb_outputs b) then
            Ok {| mb_name := checked_name; mb_resource_type := resource_type;
                  mb_environment := sb_outputs b |}
          else Raise (ValidationError "storage output is not supported by its type")
      end
  end.

(** [DeploymentConfiguration.manifest] *)
Definition manifest (c : DeploymentConfiguration) (resources : list (string * (string * string)))
    : result Manifest :=
  bindings ← each (manifest_binding resources) (cf_storage_bindings c);
  Ok {| mf_runtime := cf_runtime c; mf_packages := cf_packages c;
        mf_build_script := cf_build_script c; mf_start_script := cf_start_script c;
        mf_port := cf_port c; mf_health_path := cf_health_path c;
        mf_storage_bindings := bindings |}.

(** ** The parser *)

Definition _object (value : json) (expected : list string) (field : string) : result dict :=
  match value with
  | JObj d =>
      if same_keys d expected then Ok d else Raise (ValidationError (field +:+ " fields are invalid"))
  | _ => Raise (ValidationError (field +:+ " must be an object"))
  end.

Definition _load_json (payload : string) : result json :=
  if _MAX_CONFIGURATION_BYTES <? utf8_length payload then
    Raise (ValidationError "deployment configuration exceeds its size limit")
  else match loads payload with
       | Some v => Ok v
       | None => Raise (ValidationError "deployment configuration must be strict JSON")
       end.

(** [name in _RUNTIMES]: an array or an object is not hashable. *)
Definition check_runtime (v : json) : result string :=
  match v with
  | JStr s => if one_of_words _RUNTIMES s then Ok s
              else Raise (ValidationError "build runtime must be node or bun")
  | JArr _ | JObj _ => Raise TypeError
  | _ => Raise (ValidationError "build runtime must be node or bun")
  end.

Definition check_packages (v : json) : result (list string) :=
  match v with
  | JArr l =>
      if (length l =? 0)%nat || (32 <? length l)%nat then
        Raise (ValidationError "build packages must contain from 1 through 32 paths")
      else
        packages ← each (relative_path true) l;
        if bool_decide (NoDup packages) then Ok packages
        else Raise (ValidationError "build package paths must be unique")
  | _ => Raise (ValidationError "build packages must contain from 1 through 32 paths")
  end.

Definition check_build_script (v : json) : result (option string) :=
  match v with JNull => Ok None | _ => s ← script_name v; Ok (Some s) end.

Definition check_port (v : json) : result Z :=
  match v with
  | JInt z => if (1 <=? z) && (z <=? 65535) then Ok z
              else Raise (ValidationError "runtime port must be an integer from 1 through 65535")
  | _ => Raise (ValidationError "runtime port must be an integer from 1 through 65535")
  end.

Definition check_target (raw_target : json) : result string :=
  target ← env_key raw_target;
  if one_of_words RESERVED_ENVIRONMENT_KEYS target || startswith target RESERVED_ENVIRONMENT_PREFIX
  then Raise (ValidationError "storage binding target is reserved")
  else Ok target.

(** The outputs of one binding; [targets] holds every target seen so far. *)
Fixpoint parse_outputs (outputs : dict) (targets : list string)
    : result (list (string * string) * list string) :=
  match outputs with
  | [] => Ok ([], targets)
  | (output, raw_target) :: rest =>
      if negb (fullmatch _OUTPUT output) then
        Raise (ValidationError "storage output name is malformed")
      else
        target ← check_target raw_target;
        if one_of_words targets target then
          Raise (ValidationError "storage binding target conflicts")
        else
          '(mapped, targets) ← parse_outputs rest (target :: targets);
          Ok ((output, target) :: mapped, targets)
  end.

Definition pair_leb (a b : string * string) : bool :=
  str_ltb a.1 b.1 || (String.eqb a.1 b.1 && str_leb a.2 b.2).

Definition binding_leb (a b : StorageOutputBinding) : bool :=
  str_leb (sb_resource_id a) (sb_resource_id b).

Fixpoint parse_bindings (raw : list json) (resource_ids targets : list string)
    : result (list StorageOutputBinding) :=
  match raw with
  | [] => Ok []
  | raw_binding :: rest =>
      binding ← _object raw_binding ["resourceId"; "outputs"] "storage binding";
      resource_id ← uuid (refs_get "resourceId" binding);
      if one_of_words resource_ids resource_id then
        Raise (ValidationError "storage resource bindings must be unique")
      else
        match refs_get "outputs" binding with
        | JObj (o :: outputs) =>
            '(mapped, targets) ← parse_outputs (o :: outputs) targets;
            bindings ← parse_bindings rest (resource_id :: resource_ids) targets;
            Ok ({| sb_resource_id := resource_id; sb_outputs := sort_by pair_leb mapped |} :: bindings)
        | _ => Raise (ValidationError "storage binding outputs must be a non-empty object")
        end
  end.

Definition check_bindings (v : json) : result (list StorageOutputBinding) :=
  match v with
  | JArr l =>
      if (32 <? length l)%nat then
        Raise (ValidationError "storageBindings must be an array with at most 32 items")
      else parse_bindings l [] []
  | _ => Raise (ValidationError "storageBindings must be an array with at most 32 items")
  end.

(** [parse_configuration] of a decoded value; a number is an int here. *)
Definition parse_configuration (value : json) : result DeploymentConfiguration :=
  document ← _object value ["schemaVersion"; "build"; "runtime"; "storageBindings"]
    "deployment configuration";
  _ ← (match refs_get "schemaVersion" document with
       | JInt z => guard_else (z =? _SCHEMA_VERSION)
           (ValidationError "deployment configuration schemaVersion must be 1")
       | _ => Raise (ValidationError "deployment configuration schemaVersion must be 1")
       end);
  build ← _object (refs_get "build" document)
    ["runtime"; "packages"; "buildScript"; "startScript"] "build configuration";
  runtime_name ← check_runtime (refs_get "runtime" build);
  packages ← check_packages (refs_get "packages" build);
  build_script ← check_build_script (refs_get "buildScript" build);
  start ← script_name (refs_get "startScript" build);
  runtime ← _object (refs_get "runtime" document) ["port"; "healthPath"] "runtime configuration";
  port ← check_port (refs_get "port" runtime);
  checked_health ← health_path (refs_get "healthPath" runtime);
  bindings ← check_bindings (refs_get "storageBindings" document);
  Ok {| cf_schema_version := _SCHEMA_VERSION; cf_runtime := runtime_name; cf_packages := packages;
        cf_build_script := build_script; cf_start_script := start; cf_port := port;
        cf_health_path := checked_health;
        cf_storage_bindings := sort_by binding_leb bindings |}.

(** [parse_configuration] of text *)
Definition parse_configuration_text (payload : string) : result DeploymentConfiguration :=
  value ← _load_json payload;
  parse_configuration value.

Definition branch_name (value : json) : result string :=
  match value with
  | JStr s =>
      if negb (fullmatch _BRANCH s) then Raise (ValidationError "repository branch is malformed")
      else if existsb (fun suffix => endswith s suffix) ["/"; "."; ".lock"]
           || contains ".." s || contains "//" s || contains "@{" s
      then Raise (ValidationError "repository branch is malformed")
      else Ok s
  | _ => Raise (ValidationError "repository branch is malformed")
  end.

(** ** What a parsed configuration satisfies *)

Definition good_binding (b : StorageOutputBinding) : Prop :=
  uuid (JStr (sb_resource_id b)) = Ok (sb_resource_id b) /\ sb_outputs b <> []
  /\ NoDup (dict_keys (sb_outputs b)) /\ sort_by pair_leb (sb_outputs b) = sb_outputs b
  /\ Forall (fun o => fullmatch _OUTPUT o.1 = true /\ check_target (JStr o.2) = Ok o.2) (sb_outputs b).

Definition binding_targets (b : StorageOutputBinding) : list string := map snd (sb_outputs b).

Record good_configuration (c : DeploymentConfiguration) : Prop := {
  good_version : cf_schema_version c = _SCHEMA_VERSION;
  good_runtime : check_runtime (JStr (cf_runtime c)) = Ok (cf_runtime c);
  good_packages : check_packages (JArr (map JStr (cf_packages c))) = Ok (cf_packages c);
  good_build : check_build_script (opt_text (cf_build_script c)) = Ok (cf_build_script c);
  good_start : script_name (JStr (cf_start_script c)) = Ok (cf_start_script c);
  good_port : check_port (JInt (cf_port c)) = Ok (cf_port c);
  good_health : health_path (JStr (cf_health_path c)) = Ok (cf_health_path c);
  good_count : (length (cf_storage_bindings c) <= 32)%nat;
  good_bindings : Forall good_binding (cf_storage_bindings c);
  good_ids : NoDup (map sb_resource_id (cf_storage_bindings c));
  good_targets : NoDup (concat (map binding_targets (cf_storage_bindings c)));
  good_order : sort_by binding_leb (cf_storage_bindings c) = cf_storage_bindings c;
}.

Lemma health_path_stable v s : health_path v = Ok s -> v = JStr s.
Proof.
  unfold health_path. destruct v as [| | |t| |]; try done.
  repeat match goal with |- context[if ?b then _ else _] => destruct b end; try done. congruence.
Qed.

Lemma check_target_stable v s : check_target v = Ok s -> check_target (JStr s) = Ok s.
Proof.
  unfold check_target. destruct (env_key v) as [t|] eqn:E; [|done]. cbn [mbind result_bind].
  destruct (_ || _) eqn:Er; [done|]. intros [= ->].
  assert (v = JStr s) as -> by (by apply matching_ok in E as [-> _]).
  rewrite E. cbn [mbind result_bind]. by rewrite Er.
Qed.

Lemma check_packages_stable v l :
  check_packages v = Ok l -> check_packages (JArr (map JStr l)) = Ok l.
Proof.
  unfold check_packages. destruct v as [| | | |raw|]; try done.
  destruct (_ || _) eqn:El; [done|].
  destruct (each _ raw) as [ps|] eqn:E; [|done]. cbn [mbind result_bind].
  destruct (bool_decide _) eqn:Ed; [|done]. intros [= ->]. apply each_ok in E.
  rewrite length_map, <- (Forall2_length _ _ _ E), El.
  assert (each (relative_path true) (map JStr l) = Ok l) as ->.
  { apply each_ok. clear El Ed. induction E as [|v p raw l Hp _ IH]; simpl; constructor; [|done].
    by apply relative_path_stable in Hp. }
  cbn [mbind result_bind]. by rewrite Ed.
Qed.

(** *** The loop over outputs *)

Definition raw_outputs (mapped : list (string * string)) : dict :=
  map (fun kv => (kv.1, JStr kv.2)) mapped.

Lemma parse_outputs_ok outputs targets mapped targets' :
  parse_outputs outputs targets = Ok (mapped, targets') ->
  dict_keys mapped = dict_keys outputs
  /\ Forall (fun o => fullmatch _OUTPUT o.1 = true /\ check_target (JStr o.2) = Ok o.2) mapped
  /\ (forall t, In t targets' <-> In t (map snd mapped) \/ In t targets)
  /\ NoDup (map snd mapped) /\ (forall t, In t (map snd mapped) -> ~ In t targets).
Proof.
  revert targets mapped targets'.
  induction outputs as [|[o raw] rest IH]; intros targets mapped targets'; cbn [parse_outputs].
  { intros [= <- <-]. split_and!; [done|constructor| |constructor|]; simpl; tauto. }
  destruct (fullmatch _OUTPUT o) eqn:Eo; [|done]. cbn [negb].
  destruct (check_target raw) as [t|] eqn:Et; [|done]. cbn [mbind result_bind].
  destruct (one_of_words targets t) eqn:Em; [done|].
  destruct (parse_outputs rest (t :: targets)) as [[m ts]|] eqn:Er; [|done].
  cbn [mbind result_bind]. intros [= <- <-].
  apply IH in Er as (Hk & Hf & Hin & Hnd & Hdis). apply one_of_words_not in Em.
  split_and!; simpl.
  - unfold dict_keys in *. simpl. by rewrite Hk.
  - constructor; [|done]. simpl. split; [done|]. by eapply check_target_stable.
  - intros x. rewrite Hin. simpl. naive_solver.
  - constructor; [|done]. rewrite list_elem_of_In. intros Hi. apply (Hdis t Hi). by left.
  - intros x [<-|Hx]; [done|]. intros Hx'. apply (Hdis x Hx). by right.
Qed.

(** Outputs that meet the checks are mapped as they are. *)
Lemma parse_outputs_again mapped targets :
  Forall (fun o => fullmatch _OUTPUT o.1 = true /\ check_target (JStr o.2) = Ok o.2) mapped ->
  NoDup (map snd mapped) -> (forall t, In t (map snd mapped) -> ~ In t targets) ->
  exists targets', parse_outputs (raw_outputs mapped) targets = Ok (mapped, targets')
    /\ forall t, In t targets' <-> In t (map snd mapped) \/ In t targets.
Proof.
  intros Hf. revert targets. induction Hf as [|[o t] m [Ho Ht] Hm IH]; intros targets Hnd Hdis.
  { exists targets. split; [done|]. simpl. tauto. }
  simpl in *. rewrite Ho, Ht. cbn [negb mbind result_bind].
  apply NoDup_cons in Hnd as [Hn Hnd]. rewrite list_elem_of_In in Hn.
  assert (one_of_words targets t = false) as -> by (apply one_of_words_not, Hdis; by left).
  destruct (IH (t :: targets)) as (ts & -> & Hin); [done| |].
  { intros x Hx [->|Hx']; [done|]. apply (Hdis x); auto. }
  exists ts. split; [done|]. intros x. rewrite Hin. simpl. naive_solver.
Qed.

(** *** The loop over bindings *)

Lemma object_ok v expected field d : _object v expected field = Ok d -> v = JObj d.
Proof. unfold _object. destruct v; try done. destruct (same_keys _ _); congruence. Qed.

Lemma str_ltb_antisym a b : str_ltb a b = false -> str_ltb b a = false -> a = b.
Proof.
  revert b. induction a as [|x a IH]; intros [|y b]; simpl; try done.
  destruct (code x <? code y) eqn:E1, (code y <? code x) eqn:E2; try done.
  intros H1 H2. assert (x = y) as -> by (assert (code x = code y) as Hc by lia;
    unfold code in Hc; rewrite <- (ascii_N_embedding x), <- (ascii_N_embedding y); f_equal; lia).
  by rewrite (IH b).
Qed.

Lemma pair_leb_total x y : pair_leb x y = false -> pair_leb y x = true.
Proof.
  destruct x as [a b], y as [a' b']. unfold pair_leb. simpl. intros [H1 H2]%orb_false_iff.
  destruct (str_ltb a' a) eqn:E; [done|]. assert (a = a') as <- by (by apply str_ltb_antisym).
  rewrite String.eqb_refl in *. simpl in *. by apply str_leb_total.
Qed.

Lemma sorted_pairs l : sort_by pair_leb (sort_by pair_leb l) = sort_by pair_leb l.
Proof. apply sort_by_id, sort_by_ascending, pair_leb_total. Qed.

Lemma sorted_bindings l : sort_by binding_leb (sort_by binding_leb l) = sort_by binding_leb l.
Proof.
  apply sort_by_id, sort_by_ascending. intros a b H. unfold binding_leb in *. by apply str_leb_total.
Qed.

Lemma encodable_get k d v : encodable (JObj d) -> dict_get k d = Some v -> encodable v.
Proof.
  intros [_ H]%encodable_obj. induction H as [|[k' w] d Hw Hd IH]; simpl; [done|].
  destruct (String.eqb k k'); [by intros [= <-]|done].
Qed.

Lemma parse_bindings_ok raw ids targets bs :
  Forall encodable raw -> parse_bindings raw ids targets = Ok bs ->
  length bs = length raw /\ Forall good_binding bs
  /\ NoDup (map sb_resource_id bs) /\ (forall i, In i (map sb_resource_id bs) -> ~ In i ids)
  /\ NoDup (concat (map binding_targets bs))
  /\ (forall t, In t (concat (map binding_targets bs)) -> ~ In t targets).
Proof.
  intros He. revert ids targets bs.
  induction He as [|v raw Hv He IH]; intros ids targets bs; cbn [parse_bindings].
  { intros [= <-]. split_and!; simpl; try constructor; tauto. }
  destruct (_object _ _ _) as [d|] eqn:Eo; [|done]. apply object_ok in Eo as ->.
  cbn [mbind result_bind]. destruct (uuid _) as [i|] eqn:Ei; [|done]. cbn [mbind result_bind].
  destruct (one_of_words ids i) eqn:Em; [done|].
  destruct (refs_get "outputs" d) as [| | | | |outs] eqn:Eout; try done.
  destruct outs as [|o outs]; [done|].
  destruct (parse_outputs (o :: outs) targets) as [[m ts]|] eqn:Ep; [|done].
  cbn [mbind result_bind].
  destruct (parse_bindings raw (i :: ids) ts) as [bs'|] eqn:Eb; [|done].
  cbn [mbind result_bind]. intros [= <-].
  apply parse_outputs_ok in Ep as (Hk & Hf & Hin & Hnd & Hdis).
  apply IH in Eb as (Hlen & Hg & Hids & Hids' & Hts & Hts'). apply one_of_words_not in Em.
  pose proof (sort_by_perm pair_leb m) as Hp.
  assert (Hpt : map snd (sort_by pair_leb m) ≡ₚ map snd m) by (by apply fmap_Permutation).
  simpl. split_and!.
  - by rewrite Hlen.
  - constructor; [|done]. unfold good_binding. simpl. split_and!.
    + pose proof (uuid_ok _ _ Ei) as E. by rewrite <- E.
    + intros Hnil. rewrite Hnil in Hp. apply Permutation_nil in Hp as ->. done.
    + unfold dict_keys in *. rewrite Hp. rewrite Hk.
      unfold refs_get in Eout. destruct (dict_get "outputs" d) as [w|] eqn:Ew; simpl in Eout; [subst|done].
      apply (encodable_get _ _ _ Hv) in Ew. by apply encodable_obj in Ew as [? _].
    + apply sorted_pairs.
    + by rewrite Hp.
  - constructor; [|done]. rewrite list_elem_of_In. intros Hi. apply (Hids' i Hi). by left.
  - intros x [<-|Hx]; [done|]. intros Hx'. apply (Hids' x Hx). by right.
  - apply NoDup_app. unfold binding_targets at 1 3. simpl. rewrite Hpt. split_and!; [done| |done].
    intros x Hx Hx'. rewrite list_elem_of_In in Hx'. apply (Hts' x Hx').
    apply Hin. left. rewrite <- list_elem_of_In. by rewrite <- Hpt.
  - intros x [Hx|Hx]%in_app_iff.
    + apply Hdis. rewrite <- list_elem_of_In in *. by rewrite <- Hpt.
    + intros Hx'. apply (Hts' x Hx), Hin. by right.
Qed.

(** *** Reading a good configuration back *)

Lemma str_leb_refl a : str_leb a a = true.
Proof.
  unfold str_leb. induction a as [|x a IH]; [done|]. simpl. by rewrite Z.ltb_irrefl.
Qed.

Lemma pair_sorted_items l : sort_by pair_leb l = l -> sort_items l = l.
Proof.
  intros H. assert (Ha : ascending pair_leb l)
    by (rewrite <- H; apply sort_by_ascending, pair_leb_total).
  unfold sort_items. apply sort_by_id. clear H.
  induction Ha as [|x|x y m Hxy Hm IH]; constructor; [|done].
  unfold pair_leb in Hxy. apply orb_true_iff in Hxy as [Hxy|[->%String.eqb_eq _]%andb_true_iff].
  - unfold str_leb. by rewrite str_ltb_irrefl_total.
  - apply str_leb_refl.
Qed.

Lemma canonical_text_dict l : sort_by pair_leb l = l -> canonical (text_dict l) = JObj (raw_outputs l).
Proof.
  intros H. unfold text_dict. cbn [canonical]. rewrite map_map. cbn [fst snd canonical].
  unfold raw_outputs. rewrite (sort_items_map JStr). by rewrite pair_sorted_items.
Qed.

Lemma canonical_binding b : sort_by pair_leb (sb_outputs b) = sb_outputs b ->
  canonical (binding_value b) =
  JObj [("outputs", JObj (raw_outputs (sb_outputs b))); ("resourceId", JStr (sb_resource_id b))].
Proof.
  intros H. rewrite <- canonical_text_dict by done. reflexivity.
Qed.

Lemma parse_bindings_again bs ids targets :
  Forall good_binding bs -> NoDup (map sb_resource_id bs) ->
  (forall i, In i (map sb_resource_id bs) -> ~ In i ids) ->
  NoDup (concat (map binding_targets bs)) ->
  (forall t, In t (concat (map binding_targets bs)) -> ~ In t targets) ->
  parse_bindings (map canonical (map binding_value bs)) ids targets = Ok bs.
Proof.
  intros Hg. revert ids targets.
  induction Hg as [|b bs (Hu & Hne & Hk & Hs & Hf) Hg IH]; intros ids targets Hi Hi' Ht Ht'; [done|].
  cbn [map]. rewrite canonical_binding by done. cbn [parse_bindings _object same_keys].
  change (same_keys _ _) with true. cbv iota. cbn [mbind result_bind refs_get dict_get].
  change (refs_get "resourceId" _) with (JStr (sb_resource_id b)). rewrite Hu.
  cbn [mbind result_bind]. simpl in Hi, Hi'. apply NoDup_cons in Hi as [Hin Hi].
  rewrite list_elem_of_In in Hin.
  rewrite (proj2 (one_of_words_not ids _)) by (apply Hi'; by left).
  change (refs_get "outputs" _) with (JObj (raw_outputs (sb_outputs b))).
  simpl in Ht, Ht'. apply NoDup_app in Ht as (Hto & Hdis & Ht).
  destruct (parse_outputs_again (sb_outputs b) targets Hf Hto) as (ts & Hp & Hts).
  { intros t Hx. apply Ht', in_app_iff. by left. }
  destruct (raw_outputs (sb_outputs b)) as [|o outs] eqn:Eo; [by destruct (sb_outputs b)|].
  rewrite Hp. cbn [mbind result_bind]. rewrite IH; [|done| |done|].
  - cbn [mbind result_bind]. rewrite Hs. by destruct b.
  - intros i Hx [<-|Hx']; [done|]. apply (Hi' i); auto.
  - intros t Hx [Hx'|Hx']%Hts.
    + apply (Hdis t); [|by rewrite list_elem_of_In].
      by rewrite list_elem_of_In.
    + apply (Ht' t); [|done]. apply in_app_iff. by right.
Qed.

(** A parsed configuration is good. *)
Lemma parse_configuration_good v c :
  encodable v -> parse_configuration v = Ok c -> good_configuration c.
Proof.
  intros He H. unfold parse_configuration in H.
  destruct (_object v _ _) as [d|] eqn:E; [|done]. apply object_ok in E as ->. cbn [mbind result_bind] in H.
  destruct (refs_get "schemaVersion" d) as [| |z| | |]; try done.
  unfold guard_else in H. destruct (z =? _SCHEMA_VERSION); [|done].
  cbn [mbind result_bind] in H.
  destruct (_object (refs_get "build" d) _ _) as [b|] eqn:Eb; [|done]. cbn [mbind result_bind] in H.
  destruct (check_runtime _) as [r|] eqn:Er; [|done]. cbn [mbind result_bind] in H.
  destruct (check_packages _) as [p|] eqn:Ep; [|done]. cbn [mbind result_bind] in H.
  destruct (check_build_script _) as [bs|] eqn:Ebs; [|done]. cbn [mbind result_bind] in H.
  destruct (script_name _) as [st|] eqn:Est; [|done]. cbn [mbind result_bind] in H.
  destruct (_object (refs_get "runtime" d) _ _) as [rt|] eqn:Ert; [|done]. cbn [mbind result_bind] in H.
  destruct (check_port _) as [port|] eqn:Eport; [|done]. cbn [mbind result_bind] in H.
  destruct (health_path _) as [h|] eqn:Eh; [|done]. cbn [mbind result_bind] in H.
  destruct (check_bindings _) as [bl|] eqn:Ebl; [|done]. cbn [mbind result_bind] in H.
  injection H as <-. unfold check_bindings in Ebl.
  destruct (refs_get "storageBindings" d) as [| | | |raw|] eqn:Eraw; try done.
  destruct (32 <? length raw)%nat eqn:Elen; [done|]. apply Nat.ltb_ge in Elen.
  assert (Hraw : Forall encodable raw).
  { unfold refs_get in Eraw. destruct (dict_get _ d) as [w|] eqn:Ew; simpl in Eraw; [subst|done].
    apply (encodable_get _ _ _ He) in Ew. by apply encodable_arr. }
  apply (parse_bindings_ok raw [] [] bl Hraw) in Ebl as (Hlen & Hg & Hids & _ & Hts & _).
  pose proof (sort_by_perm binding_leb bl) as Hp.
  assert (Hpi : map sb_resource_id (sort_by binding_leb bl) ≡ₚ map sb_resource_id bl)
    by (by apply fmap_Permutation).
  assert (Hpt : concat (map binding_targets (sort_by binding_leb bl)) ≡ₚ concat (map binding_targets bl))
    by (clear -Hp; induction Hp; simpl; [done|by f_equiv| |by etrans];
        by rewrite !app_assoc, (Permutation_app_comm (binding_targets _))).
  constructor; cbn [cf_schema_version cf_runtime cf_packages cf_build_script cf_start_script cf_port
    cf_health_path cf_storage_bindings].
  - done.
  - unfold check_runtime in *. destruct (refs_get "runtime" b); try done.
    destruct (one_of_words _ _) eqn:Ew; [|done]. injection Er as ->. by rewrite Ew.
  - by eapply check_packages_stable.
  - unfold check_build_script in *. destruct (refs_get "buildScript" b) as [| | |s| |]; try done;
      [by injection Ebs as <-|]. unfold script_name in *.
    destruct (matching _ _ _) as [t|] eqn:Em; [|done]. injection Ebs as <-. simpl.
    apply matching_ok in Em as Em'. destruct Em' as [[= ->] _]. by rewrite Em.
  - unfold script_name in *. apply matching_ok in Est as [_ Hf]. by apply matching_ok.
  - unfold check_port in *. destruct (refs_get "port" rt); try done.
    destruct (_ && _) eqn:Ez; [|done]. injection Eport as ->. by rewrite Ez.
  - pose proof (health_path_stable _ _ Eh) as Heq. by rewrite Heq in Eh.
  - rewrite (Permutation_length Hp). lia.
  - by rewrite Hp.
  - by rewrite Hpi.
  - by rewrite Hpt.
  - apply sorted_bindings.
Qed.

(** ** The stored snapshot *)

Lemma pretty_go_length k x s : (x < 10 ^ N.of_nat k)%N ->
  (String.length (pretty.pretty_N_go x s) <= k + String.length s)%nat.
Proof.
  revert x s. induction k as [|k IH]; intros x s Hx.
  - assert (x = 0%N) as -> by (simpl in Hx; lia). done.
  - destruct (decide (x = 0%N)) as [->|Hne]; [rewrite pretty.pretty_N_go_0; lia|].
    rewrite pretty.pretty_N_go_step by lia. etransitivity; [apply IH|simpl; lia].
    rewrite Nat2N.inj_succ, N.pow_succ_r' in Hx. apply N.Div0.div_lt_upper_bound. done.
Qed.

Lemma configuration_encodable c : good_configuration c -> encodable (configuration_value c).
Proof.
  intros G. unfold configuration_value.
  assert (Hnd : forall d : dict, bool_decide (NoDup (dict_keys d)) = true -> NoDup (dict_keys d))
    by (intros d Hd; by apply bool_decide_eq_true in Hd).
  assert (Hport : encodable (JInt (cf_port c))).
  { pose proof (good_port c G) as Hp. unfold check_port in Hp.
    destruct (_ && _) eqn:E; [|done]. apply andb_true_iff in E as [H1%Z.leb_le H2%Z.leb_le].
    cbn [encodable]. unfold pretty.pretty, pretty.pretty_N.
    destruct (decide _); [simpl; lia|].
    etransitivity; [apply (pretty_go_length 5)|simpl; lia]. simpl. lia. }
  apply encodable_obj. split; [by apply Hnd|]. rewrite !Forall_cons, Forall_nil. cbn [snd]. split_and!; [| | | |done].
  - rewrite (good_version c G). apply Nat.leb_le. by vm_compute.
  - apply encodable_obj. split; [by apply Hnd|]. rewrite !Forall_cons, Forall_nil. cbn [snd].
    split_and!; [done| | |done|done].
    + apply encodable_arr, Forall_map. by apply Forall_true.
    + by destruct (cf_build_script c).
  - apply encodable_obj. split; [by apply Hnd|]. by rewrite !Forall_cons, Forall_nil.
  - apply encodable_arr, Forall_map. eapply Forall_impl; [apply (good_bindings c G)|].
    intros b (_ & _ & Hk & _). apply encodable_obj. split; [by apply Hnd|].
    rewrite !Forall_cons, Forall_nil. cbn [snd]. split_and!; [done| |done].
    apply encodable_obj. split.
    + unfold dict_keys in *. by rewrite map_map.
    + apply Forall_map. by apply Forall_true.
Qed.

Lemma canonical_configuration c : canonical (configuration_value c) = JObj
  [("build", JObj [("buildScript", canonical (opt_text (cf_build_script c)));
                   ("packages", JArr (map canonical (map JStr (cf_packages c))));
                   ("runtime", JStr (cf_runtime c)); ("startScript", JStr (cf_start_script c))]);
   ("runtime", JObj [("healthPath", JStr (cf_health_path c)); ("port", JInt (cf_port c))]);
   ("schemaVersion", JInt (cf_schema_version c));
   ("storageBindings", JArr (map canonical (map binding_value (cf_storage_bindings c))))].
Proof. reflexivity. Qed.

Lemma good_parses c : good_configuration c -> parse_configuration (canonical (configuration_value c)) = Ok c.
Proof.
  intros G. rewrite canonical_configuration. unfold parse_configuration.
  assert (E1 : forall a b v s f, _object (JObj [("build", a); ("runtime", b); ("schemaVersion", v);
      ("storageBindings", s)]) ["schemaVersion"; "build"; "runtime"; "storageBindings"] f =
    Ok [("build", a); ("runtime", b); ("schemaVersion", v); ("storageBindings", s)]) by done.
  assert (E2 : forall a b v s f, _object (JObj [("buildScript", a); ("packages", b); ("runtime", v);
      ("startScript", s)]) ["runtime"; "packages"; "buildScript"; "startScript"] f =
    Ok [("buildScript", a); ("packages", b); ("runtime", v); ("startScript", s)]) by done.
  assert (E3 : forall a b f, _object (JObj [("healthPath", a); ("port", b)]) ["port"; "healthPath"] f =
    Ok [("healthPath", a); ("port", b)]) by done.
  rewrite E1. cbn [mbind result_bind]. unfold refs_get.
  cbn [dict_get String.eqb Ascii.eqb Bool.eqb default from_option id].
  rewrite (good_version c G). cbn [mbind result_bind guard_else]. change (_SCHEMA_VERSION =? 1) with true.
  rewrite E2. cbn [mbind result_bind guard_else dict_get String.eqb Ascii.eqb Bool.eqb default from_option id].
  rewrite (good_runtime c G). cbn [mbind result_bind].
  assert (Hmap : map canonical (map JStr (cf_packages c)) = map JStr (cf_packages c))
    by (by rewrite map_map).
  rewrite Hmap, (good_packages c G). cbn [mbind result_bind].
  replace (canonical (opt_text (cf_build_script c))) with (opt_text (cf_build_script c))
    by (by destruct (cf_build_script c)).
  rewrite (good_build c G). cbn [mbind result_bind]. rewrite (good_start c G). cbn [mbind result_bind].
  rewrite E3. cbn [mbind result_bind dict_get String.eqb Ascii.eqb Bool.eqb default from_option id].
  rewrite (good_port c G). cbn [mbind result_bind]. rewrite (good_health c G). cbn [mbind result_bind].
  unfold check_bindings. rewrite !length_map.
  rewrite (proj2 (Nat.ltb_ge _ _) (good_count c G)).
  rewrite (parse_bindings_again (cf_storage_bindings c) [] []);
    [|apply (good_bindings c G)|apply (good_ids c G)|by intros ? _ []|apply (good_targets c G)|by intros ? _ []].
  cbn [mbind result_bind]. rewrite (good_order c G). pose proof (good_version c G) as Hv.
  clear G. destruct c. simpl in *. by subst.
Qed.

(** C5. A stored snapshot reads back as the configuration it was made from:
    parsing the canonical text of any parsed configuration gives that
    configuration again (paths, scripts, bindings and their order included),
    and writing it again gives the same text, so the recorded hash stays
    valid.  The one condition is the parser's size limit on the text. *)
Theorem snapshot_round_trip v c :
  encodable v -> parse_configuration v = Ok c ->
  utf8_length (canonical_json c) <= _MAX_CONFIGURATION_BYTES ->
  parse_configuration_text (canonical_json c) = Ok c.
Proof.
  intros He H Hsize. pose proof (parse_configuration_good v c He H) as G.
  unfold parse_configuration_text, _load_json, canonical_json in *.
  rewrite (proj2 (Z.ltb_ge _ _) Hsize), loads_dumps by (by apply configuration_encodable).
  cbn [mbind result_bind]. by apply good_parses.
Qed.

Definition demo_configuration : json := JObj
  [("schemaVersion", JInt 1);
   ("build", JObj [("runtime", JStr "node"); ("packages", JArr [JStr "."; JStr "web/app/"]);
                   ("buildScript", JStr "build"); ("startScript", JStr "start")]);
   ("runtime", JObj [("port", JInt 3000); ("healthPath", JStr "/health")]);
   ("storageBindings", JArr [JObj
     [("resourceId", JStr "a1234567-89ab-4cde-8f01-23456789abcd");
      ("outputs", JObj [("url", JStr "DATABASE_URL"); ("host", JStr "PGHOST")])]])].

Lemma snapshot_round_trip_witness :
  exists c, parse_configuration demo_configuration = Ok c
  /\ parse_configuration_text (canonical_json c) = Ok c.
Proof.
  eexists. split; [vm_compute; reflexivity|].
  apply (snapshot_round_trip demo_configuration).
  - unfold demo_configuration. cbn [encodable snd]. split_and!;
      (exact I || (refine (bool_decide_eq_true_1 _ _); vm_compute; reflexivity)
       || (apply Nat.leb_le; vm_compute; reflexivity)).
  - vm_compute. reflexivity.
  - vm_compute. discriminate.
Defined.

Definition double_quotes : string -> string :=
  map_string (fun a => if is_char "'" a then chr 34 else a).

(** Twelve packages whose paths are a thousand DEL characters each: one byte
    in the owner's text, six in the canonical text. *)
Definition long_path (n : nat) : string :=
  decimal_text (Z.of_nat n) +:+ concat_all (repeat (String (chr 127) "") 1000).
Definition long_payload : string := double_quotes (
  "{'schemaVersion':1,'build':{'runtime':'node','packages':["
  +:+ join "," (map (fun n => "'" +:+ long_path n +:+ "'") (seq 0 12))
  +:+ "],'buildScript':null,'startScript':'start'},"
  +:+ "'runtime':{'port':3000,'healthPath':'/'},'storageBindings':[]}").

(** The limit of the round trip is real: the parser accepts an owner's
    text of some 12 kB whose canonical text is above the limit, so the stored
    snapshot of that configuration is refused whenever it is read back. *)
Theorem snapshot_too_large :
  utf8_length long_payload < 13000 /\ exists c, parse_configuration_text long_payload = Ok c
  /\ parse_configuration_text (canonical_json c)
     = Raise (ValidationError "deployment configuration exceeds its size limit").
Proof.
  split; [vm_compute; reflexivity|].
  set (large := fun r : result DeploymentConfiguration => match r with
    | Ok c => _MAX_CONFIGURATION_BYTES <? utf8_length (canonical_json c) | Raise _ => false end).
  assert (H : large (parse_configuration_text long_payload) = true) by (vm_compute; reflexivity).
  destruct (parse_configuration_text long_payload) as [c|]; [|discriminate H].
  exists c. split; [done|]. unfold parse_configuration_text, _load_json.
  change (_MAX_CONFIGURATION_BYTES <? utf8_length (canonical_json c)) with (large (Ok c)).
  by rewrite H.
Qed.

(** The runtime's name is looked up in a set before its type is checked: an
    array there is not refused as malformed, it raises [TypeError]. *)
Lemma unhashable_runtime : parse_configuration (JObj
  [("schemaVersion", JInt 1);
   ("build", JObj [("runtime", JArr []); ("packages", JArr [JStr "."]);
                   ("buildScript", JNull); ("startScript", JStr "start")]);
   ("runtime", JObj [("port", JInt 3000); ("healthPath", JStr "/")]);
   ("storageBindings", JArr [])]) = Raise TypeError.
Proof. vm_compute. reflexivity. Qed.
