(* ===== verification/Sha256.v ===== *)
(** * SHA-256 ([hashlib.sha256(data).hexdigest()])

    The hash of Python's standard library (FIPS 180-4) on text whose characters
    are bytes, executable so that stored fingerprints can be evaluated.  Words
    are integers below 2^32. *)

From S2P Require Import Prelude Regex Json.

Definition word32 : Z := 2 ^ 32.
Definition add32 (a b : Z) : Z := (a + b) mod word32.
Definition rotr (n x : Z) : Z := Z.lor (Z.shiftr x n) (Z.shiftl x (32 - n) mod word32).

Definition big_sigma0 (x : Z) : Z := Z.lxor (rotr 2 x) (Z.lxor (rotr 13 x) (rotr 22 x)).
Definition big_sigma1 (x : Z) : Z := Z.lxor (rotr 6 x) (Z.lxor (rotr 11 x) (rotr 25 x)).
Definition small_sigma0 (x : Z) : Z := Z.lxor (rotr 7 x) (Z.lxor (rotr 18 x) (Z.shiftr x 3)).
Definition small_sigma1 (x : Z) : Z := Z.lxor (rotr 17 x) (Z.lxor (rotr 19 x) (Z.shiftr x 10)).
Definition choose (x y z : Z) : Z := Z.lxor (Z.land x y) (Z.land (word32 - 1 - x) z).
Definition majority (x y z : Z) : Z := Z.lxor (Z.land x y) (Z.lxor (Z.land x z) (Z.land y z)).

(** The constants are the first 32 bits of the fractional parts of the cube and
    square roots of the first primes. *)
Definition primes : list Z :=
  let prime n := forallb (fun d => negb (n mod d =? 0)) (seqZ 2 (Z.max 0 (n - 2))) in
  List.filter prime (seqZ 2 310).

(** The integer cube root below 2^bits, one bit at a time. *)
Fixpoint cube_root (bits : nat) (n root : Z) : Z :=
  match bits with
  | O => root
  | S bits' =>
      let next := root + 2 ^ Z.of_nat bits' in
      cube_root bits' n (if next * next * next <=? n then next else root)
  end.

Definition round_constants : list Z :=
  Eval vm_compute in map (fun p => cube_root 40 (Z.shiftl p 96) 0 mod word32) primes.

Definition initial_state : list Z :=
  Eval vm_compute in map (fun p => Z.sqrt (Z.shiftl p 64) mod word32) (take 8 primes).

(** Big-endian bytes of a number. *)
Fixpoint be_bytes (n : nat) (z : Z) (acc : list Z) : list Z :=
  match n with O => acc | S n' => be_bytes n' (z / 256) (z mod 256 :: acc) end.

Definition padded (bytes : list Z) : list Z :=
  let zeros := Z.to_nat ((55 - Z.of_nat (length bytes)) mod 64) in
  bytes ++ 0x80 :: repeat 0 zeros ++ be_bytes 8 (8 * Z.of_nat (length bytes)) [].

Fixpoint words_of (bytes : list Z) : list Z :=
  match bytes with
  | a :: b :: c :: d :: rest => (((a * 256 + b) * 256 + c) * 256 + d) :: words_of rest
  | _ => []
  end.

(** The message schedule, newest word first. *)
Fixpoint extend (n : nat) (w : list Z) : list Z :=
  match n with
  | O => w
  | S n' =>
      let at_ i := nth i w 0 in
      extend n' (add32 (add32 (small_sigma1 (at_ 1%nat)) (at_ 6%nat))
                       (add32 (small_sigma0 (at_ 14%nat)) (at_ 15%nat)) :: w)
  end.

Definition compress_round (state : list Z) (kw : Z * Z) : list Z :=
  match state with
  | [a; b; c; d; e; f; g; h] =>
      let t1 := add32 (add32 h (big_sigma1 e)) (add32 (choose e f g) (add32 kw.1 kw.2)) in
      let t2 := add32 (big_sigma0 a) (majority a b c) in
      [add32 t1 t2; a; b; c; add32 d t1; e; f; g]
  | _ => state
  end.

Definition compress (state : list Z) (block : list Z) : list Z :=
  let schedule := rev (extend 48 (rev block)) in
  zip_with add32 state (fold_left compress_round (zip round_constants schedule) state).

Fixpoint blocks (n : nat) (words : list Z) : list (list Z) :=
  match n with O => [] | S n' => take 16 words :: blocks n' (drop 16 words) end.

Definition hex_byte (z : Z) : string := String (hex_char (z / 16)) (String (hex_char (z mod 16)) "").

Definition sha256_words (bytes : list Z) : list Z :=
  let words := words_of (padded bytes) in
  fold_left compress (blocks (length words / 16) words) initial_state.

Definition sha256_hexdigest (data : string) : string :=
  concat_all (map (fun w => concat_all (map hex_byte (be_bytes 4 w [])))
    (sha256_words (map code (list_ascii_of_string data)))).

(** The test vectors of FIPS 180-4. *)
Example sha256_empty : sha256_hexdigest "" =
  "e3b0c44298fc1c149afbf4c8996fb92427ae41e4649b934ca495991b7852b855".
Proof. vm_compute. reflexivity. Qed.

Example sha256_abc : sha256_hexdigest "abc" =
  "ba7816bf8f01cfea414140de5dae2223b00361a396177a9cb410ff61f20015ad".
Proof. vm_compute. reflexivity. Qed.

Example sha256_two_blocks :
  sha256_hexdigest "abcdbcdecdefdefgefghfghighijhijkijkljklmklmnlmnomnopnopq" =
  "248d6a61d20638b8e5c026930c3e6039a33ce45964ff2167f6ecedd419db06c1".
Proof. vm_compute. reflexivity. Qed.

(** *** The digest is 64 lowercase hexadecimal digits *)

Lemma hex_byte_digits z : 0 <= z < 256 ->
  String.length (hex_byte z) = 2%nat /\ forallb hexdigit (list_ascii_of_string (hex_byte z)) = true.
Proof.
  intros Hz. split; [done|]. unfold hex_byte. simpl.
  assert (H : forall v, 0 <= v < 16 -> hexdigit (hex_char v) = true).
  { intros v Hv. assert (Hall : forallb (fun n => hexdigit (hex_char (Z.of_nat n))) (seq 0 16) = true)
      by (vm_compute; reflexivity).
    rewrite forallb_forall in Hall. specialize (Hall (Z.to_nat v)).
    rewrite Z2Nat.id in Hall by lia. apply Hall, in_seq. lia. }
  rewrite !H; [done| |]; [apply Z.mod_pos_bound|split; [apply Z.div_pos|apply Z.div_lt_upper_bound]]; lia.
Qed.

Lemma be_bytes_range n z acc : Forall (fun b => 0 <= b < 256) acc ->
  Forall (fun b => 0 <= b < 256) (be_bytes n z acc)
  /\ length (be_bytes n z acc) = (n + length acc)%nat.
Proof.
  revert z acc. induction n as [|n IH]; intros z acc H; [done|]. simpl.
  destruct (IH (z / 256) (z mod 256 :: acc)) as [IH1 IH2].
  { constructor; [apply Z.mod_pos_bound; lia|done]. }
  split; [done|]. rewrite IH2. simpl. lia.
Qed.

Lemma concat_all_app a b : concat_all (a ++ b) = concat_all a +:+ concat_all b.
Proof. induction a as [|x a IH]; simpl; [done|]. by rewrite IH, str_app_assoc. Qed.

Definition hex_text (n : nat) (s : string) : Prop :=
  String.length s = n /\ forallb hexdigit (list_ascii_of_string s) = true.

Lemma hex_concat {A} (f : A -> string) n (P : A -> Prop) l : (forall x, P x -> hex_text n (f x)) -> Forall P l ->
  hex_text (n * length l) (concat_all (map f l)).
Proof.
  intros Hf. induction 1 as [|x l Hx Hl [IH1 IH2]]; simpl; [by rewrite Nat.mul_0_r|].
  destruct (Hf x Hx) as [H1 H2]. unfold hex_text. rewrite str_length_app, H1, IH1. split; [lia|].
  assert (Happ : forall s t, list_ascii_of_string (s +:+ t) = list_ascii_of_string s ++ list_ascii_of_string t)
    by (induction s; intros t; simpl; congruence).
  by rewrite Happ, forallb_app, H2, IH2.
Qed.

Lemma compress_length state block : length state = 8%nat -> length (compress state block) = 8%nat.
Proof.
  intros Hs. unfold compress. rewrite length_zip_with, Hs.
  assert (H : forall l st, length st = 8%nat -> length (fold_left compress_round l st) = 8%nat).
  { induction l as [|kw l IH]; intros st Hst; simpl; [done|]. apply IH.
    unfold compress_round. by do 9 (destruct st as [|? st]; [done|]). }
  by rewrite H.
Qed.

Lemma sha256_hexdigest_hex data : hex_text 64 (sha256_hexdigest data).
Proof.
  unfold sha256_hexdigest.
  assert (Hlen : length (sha256_words (map code (list_ascii_of_string data))) = 8%nat).
  { unfold sha256_words. generalize (blocks (length (words_of (padded (map code (list_ascii_of_string data)))) / 16)
      (words_of (padded (map code (list_ascii_of_string data))))) as bs.
    assert (H : forall bs st, length st = 8%nat -> length (fold_left compress bs st) = 8%nat)
      by (induction bs; intros st Hst; simpl; [done|]; eauto using compress_length).
    intros bs. by apply H. }
  change 64%nat with (8 * 8)%nat. rewrite <- Hlen at 2.
  apply (hex_concat _ 8 (fun _ => True)); [|by apply Forall_true].
  intros w _. change 8%nat with (2 * 4)%nat.
  destruct (be_bytes_range 4 w []) as [Hr Hl]; [constructor|].
  replace 4%nat with (length (be_bytes 4 w [])) at 1 by (by rewrite Hl).
  apply (hex_concat _ 2 (fun b => 0 <= b < 256)); [|done]. apply hex_byte_digits.
Qed.
