(* ===== verification/Operations.v ===== *)
(** * The operation journal (src/openstack_platform/controller/database.py)

    Idempotency requests, the dispatch queue's durable rows and the operations
    themselves: claims, admission, checkpoints, recovery and termination.  Each
    definition is one function of the module, run in a [transaction]. *)

From S2P Require Import Prelude Regex Json Validation Runtime Sql Schema StorageCapacity.

Abbreviation DB := (db Db).

(** ** Shared helpers *)

Definition _OPERATION_TOKEN : re :=
  Cat (Cls lower_alnum)
      (Rep 0 (Some 127%nat) true (Cls (either lower_alnum (one_of "._-")))).
Definition _CLEANUP_STATE : re :=
  Cat (Cls lower) (Rep 0 (Some 63%nat) true (Cls (either lower_alnum (is_char "_")))).

Definition secret_words : re :=
  alts [lit_i "password"; lit_i "passwd"; lit_i "secret"; lit_i "token"; lit_i "credential";
        lit_i "private_key"; lit_i "user_data"; lit_i "cloud_init"; lit_i "env_value";
        Cat (lit_i "source_content") (Opt (Cls (is_char_i "s")))].
Definition _SECRET_KEY : re :=
  cats [Alt Bos (Cls (is_char "_")); secret_words; Alt (Cls (is_char "_")) Eos].

(** [_walk_refs]: no key at any depth may name secret material. *)
Fixpoint refs_clean (v : json) : bool :=
  match v with
  | JArr l => forallb refs_clean l
  | JObj d => forallb (fun kv => negb (search _SECRET_KEY kv.1) && refs_clean kv.2) d
  | _ => true
  end.

(** [_refs_json]: the stored value, or the reason it may not be stored. *)
Definition refs_json (refs : dict) : result dict :=
  if negb (refs_clean (JObj refs)) then
    Raise (ValidationError "operation refs key may contain secret material")
  else if refs_limit <? Z.of_nat (String.length (dumps (JObj refs))) then
    Raise (ValidationError "operation refs exceed their 16384-byte limit")
  else match canonical (JObj refs) with JObj d => Ok d | _ => Ok [] end.

Definition operation_token (value : string) : result string :=
  matching _OPERATION_TOKEN "operation token is malformed" value.
Definition cleanup_state_ (value : string) : result string :=
  matching _CLEANUP_STATE "operation cleanup state is malformed" value.

Definition deadline_ok (deadline_at : string) : result unit :=
  guard_else (String.length deadline_at <=? 64)%nat
    (ValidationError "operation deadline is malformed").

(** [now or utc_now()] *)
Definition now_or (now : option string) : DB string :=
  match now with
  | Some (String a s) => mret (String a s)
  | _ => read_clock
  end.

Definition asserted {A} (o : option A) : DB A :=
  match o with Some a => mret a | None => raise AssertionError end.

Definition summary_of (error : failure) : string := safe_summary SUMMARY_LIMIT error.

(** ** Idempotency requests *)

Definition get_idempotency_request (request_id : string) : DB (option IdempotencyRequest) :=
  identifier ← lift (uuid request_id);
  fetchone (fun r => String.eqb (rq_request_id r) identifier).

Definition set_result (kind id now : string) (r : IdempotencyRequest) : IdempotencyRequest := {|
  rq_request_id := rq_request_id r; rq_request_fingerprint := rq_request_fingerprint r;
  rq_result_kind := Some kind; rq_result_id := Some id;
  rq_created_at := rq_created_at r; rq_completed_at := Some now |}.

Definition claim_idempotency_request (request_id request_fingerprint : string)
    (now : option string) : DB IdempotencyRequest :=
  identifier ← lift (uuid request_id);
  fingerprint ← lift (sha256_hex request_fingerprint);
  early ← transaction (
    existing ← get_idempotency_request identifier;
    match existing with
    | Some r =>
        if negb (String.eqb (rq_request_fingerprint r) fingerprint) then
          raise (IdempotencyConflictError
            "idempotency request was already used for different input")
        else mret (Some r)
    | None =>
        timestamp ← now_or now;
        _ ← insert {| rq_request_id := identifier; rq_request_fingerprint := fingerprint;
                      rq_result_kind := None; rq_result_id := None;
                      rq_created_at := timestamp; rq_completed_at := None |};
        mret None
    end);
  match early with
  | Some r => mret r
  | None => get_idempotency_request identifier ≫= asserted
  end.

Definition same_result (r : IdempotencyRequest) (kind id : string) : bool :=
  bool_decide (rq_result_kind r = Some kind) && bool_decide (rq_result_id r = Some id).

Definition complete_idempotency_request (request_id result_kind result_id : string)
    (now : option string) : DB IdempotencyRequest :=
  identifier ← lift (uuid request_id);
  kind ← lift (operation_token result_kind);
  result_identifier ← lift (uuid result_id);
  early ← transaction (
    existing ← get_idempotency_request identifier;
    match existing with
    | None => raise (DatabaseError "idempotency request is missing")
    | Some r =>
        match rq_result_id r with
        | Some _ =>
            if negb (same_result r kind result_identifier) then
              raise (IdempotencyConflictError
                "idempotency request already has a different result")
            else mret (Some r)
        | None =>
            timestamp ← now_or now;
            _ ← update (fun r => String.eqb (rq_request_id r) identifier)
                       (set_result kind result_identifier timestamp);
            mret None
        end
    end);
  match early with
  | Some r => mret r
  | None => get_idempotency_request identifier ≫= asserted
  end.

(** ** Reading operations and dispatches *)

Definition get_operation_dispatch (operation_id : string) : DB (option OperationDispatch) :=
  identifier ← lift (uuid operation_id);
  fetchone (fun r => String.eqb (dp_operation_id r) identifier).

(** Newest first. *)
Definition list_operation_dispatches : DB (list OperationDispatch) :=
  rows ← select (fun _ => true);
  mret (sort_by (fun a b =>
    str_ltb (dp_updated_at b) (dp_updated_at a)
    || (String.eqb (dp_updated_at a) (dp_updated_at b)
        && str_leb (dp_operation_id b) (dp_operation_id a))) rows).

Definition get_operation (operation_id : string) : DB (option Operation) :=
  fetchone (fun r => String.eqb (op_operation_id r) operation_id).

Definition in_lane (scope : string) (finishing : bool) (r : Operation) : bool :=
  String.eqb (op_scope r) scope && unfinished (op_st r) && Bool.eqb (op_finishing r) finishing.

Definition get_unfinished_operation (scope : string) : DB (option Operation) :=
  fetchone (in_lane scope false).
Definition get_finishing_operation (scope : string) : DB (option Operation) :=
  fetchone (in_lane scope true).

(** Visible applications: not tombstoned.  The identifier is an ID or a slug;
    the ID index is read first. *)
Definition tombstoned (d : Db) (application_id : string) : bool :=
  existsb (fun t => String.eqb (ts_application_id t) application_id)
    (application_slug_tombstones d).

Definition get_application (identifier : string) : DB (option Application) :=
  gets (fun c =>
    let visible := List.filter (fun r => negb (tombstoned (store c) (app_application_id r)))
      (applications (store c)) in
    match List.find (fun r => String.eqb (app_application_id r) identifier) visible with
    | Some r => Some r
    | None => List.find (fun r => String.eqb (app_slug r) identifier) visible
    end).

(** ** Admission next to finishing work *)

Definition removeprefix (prefix s : string) : string :=
  if String.prefix prefix s
  then String.substring (String.length prefix) (String.length s - String.length prefix) s
  else s.

Definition parallel_kinds : list string :=
  ["app.env.set"; "app.env.unset"; "app.env.import"; "storage.verify"; "storage.rotate";
   "storage.limits.set"; "storage.usage.collect"; "app.restart"].

Definition is_none (v : json) : bool := match v with JNull => true | _ => false end.
Definition is_true (v : json) : bool := match v with JBool true => true | _ => false end.

(** The phase and references allow a lifecycle change beside the cleanup. *)
Definition placement_safe (finishing : Operation) : bool :=
  if String.eqb (op_phase finishing) "accepted" then true
  else if negb (is_none (refs_get "predecessor_job_id" (op_refs finishing)))
          && negb (is_true (refs_get "predecessor_job_absent" (op_refs finishing)))
  then false
  else
    let predecessor := refs_get "predecessor_worker_application_id" (op_refs finishing) in
    match predecessor, refs_get "worker_application_id" (op_refs finishing) with
    | JNull, _ => true
    | p, JStr active => negb (py_eqb p active)
    | _, _ => false
    end.

Definition check_finishing_admission (scope kind : string) : DB unit :=
  found ← get_finishing_operation scope;
  match found with
  | None => mret tt
  | Some finishing =>
      let conflict : DB unit := raise (FinishingOperationConflictError (op_operation_id finishing)) in
      if one_of_words parallel_kinds kind then mret tt
      else if one_of_words ["app.enable"; "app.disable"] kind
              && one_of_words ["predecessor_cleanup"; "accepted"] (op_phase finishing) then
        if String.eqb kind "app.enable" then
          application ← get_application (removeprefix "app-" scope);
          match application with
          | Some a => if app_desired_running a then mret tt else conflict
          | None => conflict
          end
        else if placement_safe finishing then mret tt else conflict
      else conflict
  end.

(** ** The dispatch queue *)

Definition new_dispatch (id kind scope now : string) : OperationDispatch := {|
  dp_operation_id := id; dp_kind := kind; dp_scope := scope; dp_st := d_pending;
  dp_created_at := now; dp_updated_at := now; dp_safe_error := None; dp_finishing := false |}.

Definition enqueue_operation_dispatch (operation_id kind scope : string) (now : option string)
    : DB (OperationDispatch * bool) :=
  identifier ← lift (uuid operation_id);
  checked_kind ← lift (operation_token kind);
  checked_scope ← lift (operation_token scope);
  timestamp ← now_or now;
  early ← transaction (
    existing ← get_operation_dispatch identifier;
    match existing with
    | Some r =>
        if negb (String.eqb (dp_kind r) checked_kind && String.eqb (dp_scope r) checked_scope)
        then raise (IdempotencyConflictError "operation dispatch does not match request")
        else mret (Some r)
    | None =>
        request ← get_idempotency_request identifier;
        match request with
        | None => raise (DatabaseError "idempotency request is missing")
        | Some q =>
            match rq_result_id q with
            | Some _ =>
                if negb (same_result q "operation" identifier) then
                  raise (IdempotencyConflictError
                    "idempotency request already has a different result")
                else raise (DatabaseError "idempotency result has no operation dispatch")
            | None =>
                active ← fetchone (fun r => String.eqb (dp_scope r) checked_scope
                  && active_dispatch (dp_st r) && negb (dp_finishing r));
                match active with
                | Some r =>
                    raise (UnfinishedOperationError checked_scope (dp_operation_id r) (dp_kind r))
                | None =>
                    _ ← check_finishing_admission checked_scope checked_kind;
                    unfinished ← get_unfinished_operation checked_scope;
                    match unfinished with
                    | Some o =>
                        raise (UnfinishedOperationError checked_scope (op_operation_id o) (op_kind o))
                    | None =>
                        _ ← insert (new_dispatch identifier checked_kind checked_scope timestamp);
                        _ ← update (fun r => String.eqb (rq_request_id r) identifier)
                                   (set_result "operation" identifier timestamp);
                        mret None
                    end
                end
            end
        end
    end);
  match early with
  | Some r => mret (r, false)
  | None => r ← get_operation_dispatch identifier ≫= asserted; mret (r, true)
  end.

(** The digits of an integer, in groups joined by single underscores *)
Fixpoint digit_groups (after_digit : bool) (acc : Z) (l : list ascii) : option Z :=
  match l with
  | [] => if after_digit then Some acc else None
  | a :: l' =>
      if digit a then digit_groups true (acc * 10 + (code a - 48)) l'
      else if is_char "_" a && after_digit then digit_groups false acc l' else None
  end.

(** [int(text)], of the ASCII digits, at most as many as Python converts *)
Definition int_of_text (s : string) : result Z :=
  let l := list_ascii_of_string (strip whitespace s) in
  let '(sign, digits) := match l with
    | a :: l' => if is_char "-" a then (-1, l') else if is_char "+" a then (1, l') else (1, l)
    | [] => (1, [])
    end in
  if (4300 <? length (List.filter digit digits))%nat then Raise ValueError else
  match digit_groups false 0 digits with Some z => Ok (sign * z) | None => Raise ValueError end.

(** [int(value)] of a number in a record. *)
Definition py_int (v : json) : result Z :=
  match v with
  | JInt z => Ok z
  | JBool b => Ok (if b then 1 else 0)
  | JStr s => int_of_text s
  | JNull | JArr _ | JObj _ => Raise TypeError
  end.

(** [dict(value)] of an array of pairs.  A key that is not a text is refused when
    the record is stored; an object with two keys is not taken for a pair. *)
Fixpoint pairs_dict (l : list json) (d : dict) : result dict :=
  match l with
  | [] => Ok d
  | JArr [JStr k; v] :: l' => pairs_dict l' (dict_set k v d)
  | JStr (String a (String b EmptyString)) :: l' => pairs_dict l' (dict_set (String a EmptyString) (JStr (String b EmptyString)) d)
  | JArr [JArr _; _] :: _ | JArr [JObj _; _] :: _ => Raise TypeError
  | JArr [_; _] :: _ => Raise (ValidationError "operation refs keys must be strings")
  | JArr _ :: _ | JStr _ :: _ | JObj _ :: _ => Raise ValueError
  | JNull :: _ | JBool _ :: _ | JInt _ :: _ => Raise TypeError
  end.

(** [dict(refs.get("finishing_retry", {}))] *)
Definition retry_record (refs : dict) : result dict :=
  match dict_get "finishing_retry" refs with
  | None => Ok []
  | Some (JObj d) => Ok d
  | Some (JArr l) => pairs_dict l []
  | Some (JStr EmptyString) => Ok []
  | Some (JStr _) => Raise ValueError
  | Some _ => Raise TypeError
  end.

Definition set_refs (refs : dict) (r : Operation) : Operation := {|
  op_operation_id := op_operation_id r; op_kind := op_kind r; op_scope := op_scope r;
  op_st := op_st r; op_phase := op_phase r; op_started_at := op_started_at r;
  op_updated_at := op_updated_at r; op_deadline_at := op_deadline_at r; op_refs := refs;
  op_candidate_digest := op_candidate_digest r; op_safe_error := op_safe_error r;
  op_cleanup_state := op_cleanup_state r; op_finishing := op_finishing r |}.

Definition set_dispatch_state (s : dispatch_status) (now : string) (error : option string)
    (r : OperationDispatch) : OperationDispatch := {|
  dp_operation_id := dp_operation_id r; dp_kind := dp_kind r; dp_scope := dp_scope r;
  dp_st := s; dp_created_at := dp_created_at r; dp_updated_at := now;
  dp_safe_error := error; dp_finishing := dp_finishing r |}.

Definition requeue_eligible (kind scope : string) (dispatch : OperationDispatch)
    (operation : Operation) : bool :=
  negb (negb (bool_decide (dp_st dispatch = d_recovery_required))
    || negb (unfinished (op_st operation))
    || (negb (bool_decide (op_st operation = op_recovery_required)) && negb (op_finishing operation))
    || negb (String.eqb (dp_kind dispatch) kind && String.eqb (dp_scope dispatch) scope)
    || negb (String.eqb (op_kind operation) kind && String.eqb (op_scope operation) scope)).

(** The retry record of a re-dispatched finishing operation. *)
Definition consume_retry (operation : Operation) (automatic : bool) (now : option string)
    : DB dict :=
  retry ← lift (retry_record (op_refs operation));
  retry ← (if automatic then
    match refs_get "next_at" retry with
    | JStr next_at =>
        present ← now_or now;
        if str_ltb present next_at then raise (DatabaseError "finishing retry is not due")
        else
          attempts ← lift (py_int (default (JInt 0) (dict_get "attempts" retry)));
          mret (dict_set "attempts" (JInt (attempts + 1)) retry)
    | _ => raise (DatabaseError "finishing retry is not due")
    end
  else mret retry : DB dict);
  mret (dict_set "next_at" JNull retry).

Definition requeue_recovery_dispatch (operation_id kind scope : string) (now : option string)
    (automatic : bool) : DB OperationDispatch :=
  identifier ← lift (uuid operation_id);
  checked_kind ← lift (operation_token kind);
  checked_scope ← lift (operation_token scope);
  _ ← transaction (
    dispatch ← get_operation_dispatch identifier;
    operation ← get_operation identifier;
    match dispatch, operation with
    | Some dp, Some op =>
        if negb (requeue_eligible checked_kind checked_scope dp op) then
          raise (DatabaseError "operation is not eligible for recovery dispatch")
        else
          _ ← (if op_finishing op then
            retry ← consume_retry op automatic now;
            refs ← lift (refs_json (dict_set "finishing_retry" (JObj retry) (op_refs op)));
            _ ← update (fun r => String.eqb (op_operation_id r) identifier) (set_refs refs);
            mret tt
          else mret tt : DB unit);
          timestamp ← now_or now;
          count ← update (fun r => String.eqb (dp_operation_id r) identifier
              && bool_decide (dp_st r = d_recovery_required))
            (set_dispatch_state d_pending timestamp None);
          if negb (Nat.eqb count 1) then
            raise (DatabaseError "operation recovery dispatch changed concurrently")
          else mret tt
    | _, _ => raise (DatabaseError "operation is not eligible for recovery dispatch")
    end);
  get_operation_dispatch identifier ≫= asserted.

Definition dispatch_status_of (s : string) : option dispatch_status :=
  if String.eqb s "running" then Some d_running
  else if String.eqb s "finished" then Some d_finished
  else if String.eqb s "recovery_required" then Some d_recovery_required
  else None.

Definition set_operation_dispatch_status (operation_id status : string)
    (error : option failure) (now : option string) : DB OperationDispatch :=
  identifier ← lift (uuid operation_id);
  match dispatch_status_of status with
  | None => raise (ValidationError "operation dispatch status is invalid")
  | Some st =>
      let summary := summary_of <$> error in
      _ ← transaction (
        timestamp ← now_or now;
        count ← update (fun r => String.eqb (dp_operation_id r) identifier)
          (set_dispatch_state st timestamp summary);
        if negb (Nat.eqb count 1) then raise (DatabaseError "operation dispatch is missing")
        else mret tt);
      get_operation_dispatch identifier ≫= asserted
  end.

(** ** Operations *)

Definition set_finishing (r : Operation) : Operation := {|
  op_operation_id := op_operation_id r; op_kind := op_kind r; op_scope := op_scope r;
  op_st := op_st r; op_phase := op_phase r; op_started_at := op_started_at r;
  op_updated_at := op_updated_at r; op_deadline_at := op_deadline_at r;
  op_refs := op_refs r; op_candidate_digest := op_candidate_digest r;
  op_safe_error := op_safe_error r; op_cleanup_state := "pending"; op_finishing := true |}.

Definition set_dispatch_finishing (r : OperationDispatch) : OperationDispatch := {|
  dp_operation_id := dp_operation_id r; dp_kind := dp_kind r; dp_scope := dp_scope r;
  dp_st := dp_st r; dp_created_at := dp_created_at r; dp_updated_at := dp_updated_at r;
  dp_safe_error := dp_safe_error r; dp_finishing := true |}.

Definition mark_operation_finishing (operation_id : string) (within_transaction : bool)
    : DB unit :=
  acceptance_write within_transaction (
    operation ← get_operation operation_id;
    match operation with
    | Some op =>
        if one_of_words ["app.deploy"; "app.enable"] (op_kind op) then
          _ ← update (fun r => String.eqb (op_operation_id r) operation_id) set_finishing;
          _ ← update (fun r => String.eqb (dp_operation_id r) operation_id) set_dispatch_finishing;
          mret tt
        else raise (DatabaseError "finishing operation intent is missing")
    | None => raise (DatabaseError "finishing operation intent is missing")
    end).

Definition new_operation (id kind scope phase deadline : string) (refs : dict) (now : string)
    : Operation := {|
  op_operation_id := id; op_kind := kind; op_scope := scope; op_st := op_running;
  op_phase := phase; op_started_at := now; op_updated_at := now; op_deadline_at := deadline;
  op_refs := refs; op_candidate_digest := None; op_safe_error := None;
  op_cleanup_state := "pending"; op_finishing := false |}.

Fixpoint quota_items (d : dict) : result quotas :=
  match d with
  | [] => Ok []
  | (k, v) :: d' =>
      z ← (match v with JInt z => Ok z | _ => Raise TypeError end);
      rest ← quota_items d';
      Ok ((k, z) :: rest)
  end.

(** Python's [word in value]: a key of an object, an element of an array, a part
    of a text. *)
Definition py_in (word : string) (value : json) : result bool :=
  match value with
  | JObj d => Ok (not_null (dict_get word d))
  | JArr l => Ok (existsb (py_eqb (JStr word)) l)
  | JStr s => Ok (not_null (String.index 0 word s))
  | JNull | JBool _ | JInt _ => Raise TypeError
  end.

Definition names_quota (quotas : json) : result bool :=
  memory ← py_in "memoryBytes" quotas;
  if memory : bool then Ok true else py_in "s3Bytes" quotas.

(** The storage admission of a limit change, inside the same transaction.  Only
    an object is indexed by a name; a text or an array raises. *)
Definition admit_storage (kind : string) (refs : dict) : DB unit :=
  if one_of_words limit_kinds kind then
    let quotas := default (JObj []) (dict_get "quotas" refs) in
    named ← lift (names_quota quotas);
    if named : bool then
      target ← lift (match quotas with JObj q => quota_items q | _ => Raise TypeError end);
      let resource_id := match refs_get "resource_id" refs with JStr i => Some i | _ => None end in
      outcome ← gets (fun c => check resource_id target (store c));
      lift outcome
    else mret tt
  else mret tt.

Definition begin_operation (operation_id kind scope phase deadline_at : string) (refs : dict)
    (now : option string) : DB Operation :=
  operation_id ← lift (uuid operation_id);
  kind ← lift (operation_token kind);
  scope ← lift (operation_token scope);
  phase ← lift (operation_token phase);
  _ ← lift (deadline_ok deadline_at);
  timestamp ← now_or now;
  _ ← transaction (
    _ ← check_finishing_admission scope kind;
    existing ← get_unfinished_operation scope;
    match existing with
    | Some o => raise (UnfinishedOperationError scope (op_operation_id o) (op_kind o))
    | None =>
        _ ← admit_storage kind refs;
        stored ← lift (refs_json refs);
        insert (new_operation operation_id kind scope phase deadline_at stored timestamp)
    end);
  get_operation operation_id ≫= asserted.

(** [WHERE operation_id = ? AND status IN ('running','recovery_required')] *)
Definition live (operation_id : string) (r : Operation) : bool :=
  String.eqb (op_operation_id r) operation_id && unfinished (op_st r).

Definition terminal_message : string := "operation is missing or already terminal".

Definition update_live (operation_id : string) (f : Operation -> Operation) : DB unit :=
  count ← update (live operation_id) f;
  if negb (Nat.eqb count 1) then raise (DatabaseError terminal_message) else mret tt.

Definition set_renewed (deadline now : string) (r : Operation) : Operation := {|
  op_operation_id := op_operation_id r; op_kind := op_kind r; op_scope := op_scope r;
  op_st := op_running; op_phase := op_phase r; op_started_at := op_started_at r;
  op_updated_at := now; op_deadline_at := deadline; op_refs := op_refs r;
  op_candidate_digest := op_candidate_digest r; op_safe_error := None;
  op_cleanup_state := op_cleanup_state r; op_finishing := op_finishing r |}.

Definition renew_operation_deadline (operation_id deadline_at : string) (now : option string)
    : DB Operation :=
  _ ← lift (uuid operation_id);
  _ ← lift (deadline_ok deadline_at);
  _ ← transaction (
    timestamp ← now_or now;
    update_live operation_id (set_renewed deadline_at timestamp));
  get_operation operation_id ≫= asserted.

Definition set_checkpoint (phase now : string) (refs : option dict) (digest cleanup : option string)
    (r : Operation) : Operation := {|
  op_operation_id := op_operation_id r; op_kind := op_kind r; op_scope := op_scope r;
  op_st := op_st r; op_phase := phase; op_started_at := op_started_at r;
  op_updated_at := now; op_deadline_at := op_deadline_at r;
  op_refs := default (op_refs r) refs;
  op_candidate_digest := match digest with Some g => Some g | None => op_candidate_digest r end;
  op_safe_error := op_safe_error r;
  op_cleanup_state := default (op_cleanup_state r) cleanup;
  op_finishing := op_finishing r |}.

Definition opt_check {A} (o : option A) (f : A -> result unit) : result unit :=
  match o with Some a => f a | None => Ok tt end.

Definition ignore {A} (r : result A) : result unit :=
  match r with Ok _ => Ok tt | Raise e => Raise e end.

Definition checkpoint_operation (operation_id phase : string) (refs : option dict)
    (merge_refs : bool) (candidate_digest cleanup_state : option string) (now : option string)
    : DB Operation :=
  _ ← lift (uuid operation_id);
  phase ← lift (operation_token phase);
  _ ← lift (opt_check candidate_digest (fun g => ignore (oci_digest_pin g)));
  _ ← lift (opt_check refs (fun r => ignore (refs_json r)));
  _ ← lift (opt_check cleanup_state (fun s => ignore (cleanup_state_ s)));
  _ ← transaction (
    encoded ← (match refs with
      | None => mret None
      | Some given =>
          merged ← (if merge_refs then
              row ← fetchone (live operation_id);
              match row with
              | None => raise (DatabaseError terminal_message)
              | Some r => mret (dict_merge (op_refs r) given)
              end
            else mret given : DB dict);
          stored ← lift (refs_json merged);
          mret (Some stored)
      end : DB (option dict));
    timestamp ← now_or now;
    update_live operation_id (set_checkpoint phase timestamp encoded candidate_digest cleanup_state));
  get_operation operation_id ≫= asserted.

Definition set_finished (st : op_status) (now : string) (error phase cleanup : option string)
    (r : Operation) : Operation := {|
  op_operation_id := op_operation_id r; op_kind := op_kind r; op_scope := op_scope r;
  op_st := st; op_phase := default (op_phase r) phase; op_started_at := op_started_at r;
  op_updated_at := now; op_deadline_at := op_deadline_at r; op_refs := op_refs r;
  op_candidate_digest := op_candidate_digest r; op_safe_error := error;
  op_cleanup_state := default (op_cleanup_state r) cleanup; op_finishing := op_finishing r |}.

Definition _finish_operation (operation_id : string) (st : op_status) (error : option failure)
    (phase cleanup_state : option string) (now : option string) : DB Operation :=
  _ ← lift (uuid operation_id);
  timestamp ← now_or now;
  let summary := summary_of <$> error in
  _ ← lift (opt_check phase (fun p => ignore (operation_token p)));
  _ ← lift (opt_check cleanup_state (fun s => ignore (cleanup_state_ s)));
  _ ← transaction (update_live operation_id (set_finished st timestamp summary phase cleanup_state));
  get_operation operation_id ≫= asserted.

Definition mark_recovery_required (operation_id : string) (error : failure)
    (phase now : option string) : DB Operation :=
  _finish_operation operation_id op_recovery_required (Some error) phase None now.

Definition record_finishing_failure (operation_id : string) (error : failure) : DB Operation :=
  operation ← get_operation operation_id;
  match operation with
  | Some op =>
      if op_finishing op then
        _finish_operation operation_id op_running (Some error) None None None
      else raise (DatabaseError "accepted finishing intent is missing")
  | None => raise (DatabaseError "accepted finishing intent is missing")
  end.

Definition mark_succeeded (operation_id cleanup_state : string) (now : option string)
    : DB Operation :=
  _finish_operation operation_id op_succeeded None None (Some cleanup_state) now.

Definition mark_failed (operation_id : string) (error : failure) (cleanup_state : string)
    (now : option string) : DB Operation :=
  if negb (one_of_words ["confirmed"; "not_required"] cleanup_state) then
    raise (ValidationError "failed operations require confirmed or not_required cleanup")
  else _finish_operation operation_id op_failed (Some error) None (Some cleanup_state) now.
