(* ===== verification/FinishingRetries.v ===== *)
(** * Retries of finishing work (src/openstack_platform/controller/finishing_retries.py)

    [schedule] puts the next retry of an accepted operation's finishing work
    into its stored references, or asks for an operator once the delays are
    used up; [due] lists the operations whose retry time has come. *)

From S2P Require Import Prelude Regex Json Clock Validation Runtime Sql Schema StorageCapacity Operations.

Definition RETRY_DELAYS : list Z := [60; 120; 240; 480; 600].

(** [RETRY_DELAYS[i]] of an index below the length; a negative one counts from
    the end. *)
Definition delay_at (i : Z) : result Z :=
  let i := if i <? 0 then i + Z.of_nat (length RETRY_DELAYS) else i in
  if i <? 0 then Raise IndexError
  else match nth_error RETRY_DELAYS (Z.to_nat i) with Some z => Ok z | None => Raise IndexError end.

(** [now + timedelta(seconds=...)] is a time of the calendar. *)
Definition later (now seconds : Z) : result Z :=
  let t := now + seconds * second in
  if datetime_max <=? t then Raise OverflowError else Ok t.

(** [int(retry.get("attempts", 0))] *)
Definition attempts_in (retry : dict) : result Z := py_int (default (JInt 0) (dict_get "attempts" retry)).

Definition next_retry (attempts : Z) : DB (option string) :=
  if attempts <? Z.of_nat (length RETRY_DELAYS) then
    now ← datetime_now;
    delay ← lift (delay_at attempts);
    t ← lift (later now delay);
    mret (Some (utc_text_micro t))
  else mret None.

Definition json_text (o : option string) : json := match o with Some s => JStr s | None => JNull end.

Definition retried (attempts : Z) (next_at : option string) (retry : dict) : dict :=
  dict_set "next_at" (json_text next_at) (dict_set "attempts" (JInt attempts) retry).

(** The columns of the UPDATE. *)
Definition set_retry (st : op_status) (refs : dict) (error now : string) (r : Operation) : Operation := {|
  op_operation_id := op_operation_id r; op_kind := op_kind r; op_scope := op_scope r;
  op_st := st; op_phase := op_phase r; op_started_at := op_started_at r;
  op_updated_at := now; op_deadline_at := op_deadline_at r; op_refs := refs;
  op_candidate_digest := op_candidate_digest r; op_safe_error := Some error;
  op_cleanup_state := op_cleanup_state r; op_finishing := op_finishing r |}.

Definition schedule (operation_id : string) (error : failure) : DB bool :=
  transaction (
    operation ← get_operation operation_id;
    match operation with
    | None => mret false
    | Some op =>
        if negb (op_finishing op) || negb (unfinished (op_st op)) then mret false
        else
          retry ← lift (retry_record (op_refs op));
          attempts ← lift (attempts_in retry);
          next_at ← next_retry attempts;
          refs ← lift (refs_json
            (dict_set "finishing_retry" (JObj (retried attempts next_at retry)) (op_refs op)));
          let summary := summary_of error in
          now ← read_clock;
          _ ← update (fun r => String.eqb (op_operation_id r) operation_id)
            (set_retry (match next_at with Some _ => op_running | None => op_recovery_required end)
              refs summary now);
          mret (match next_at with Some _ => true | None => false end)
    end).

(** ** Due retries *)

(** What [json_extract] gives SQLite: numbers sort below texts. *)
Inductive sql_value := Null | Num (z : Z) | Txt (s : string).

Definition sql_of (v : json) : sql_value :=
  match v with
  | JNull => Null
  | JBool b => Num (if b then 1 else 0)
  | JInt z => Num z
  | JStr s => Txt s
  | JArr _ | JObj _ => Txt (dumps v)
  end.

Definition extract_next_at (r : Operation) : sql_value :=
  sql_of (refs_get "next_at" (sub_dict "finishing_retry" (op_refs r))).

(** [value <= text] is true *)
Definition sql_le_text (v : sql_value) (s : string) : bool :=
  match v with Null => false | Num _ => true | Txt t => str_leb t s end.

Definition sql_leb (a b : sql_value) : bool :=
  match a, b with
  | Null, _ => true
  | _, Null => false
  | Num x, Num y => x <=? y
  | Num _, Txt _ => true
  | Txt _, Num _ => false
  | Txt x, Txt y => str_leb x y
  end.

(** The WHERE clause, the join included. *)
Definition retry_due (d : Db) (now : string) (r : Operation) : bool :=
  op_finishing r && bool_decide (op_st r = op_running)
  && existsb (fun q => String.eqb (dp_operation_id q) (op_operation_id r)
                       && bool_decide (dp_st q = d_recovery_required)) (operation_dispatches d)
  && sql_le_text (extract_next_at r) now.

Definition DUE_LIMIT : nat := 32.

(** Rows of equal times come in the order of the table. *)
Definition due_rows (d : Db) (now : string) : list Operation :=
  take DUE_LIMIT (sort_by (fun a b => sql_leb (extract_next_at a) (extract_next_at b))
    (List.filter (retry_due d now) (operations d))).

(** The rows are fetched, then each operation is read again. *)
Fixpoint reread (l : list Operation) : DB (list Operation) :=
  match l with
  | [] => mret []
  | r :: rest =>
      o ← get_operation (op_operation_id r);
      others ← reread rest;
      mret (match o with Some x => x :: others | None => others end)
  end.

Definition due : DB (list Operation) :=
  now ← read_clock;
  rows ← gets (fun c => due_rows (store c) now);
  reread rows.
