(* ===== verification/OperationsSpec.v ===== *)
(** * Properties of the operation journal

    Terminal operations are final, error paths write nothing, results are
    recorded once, stored references hold no secret key, and the foreground and
    finishing lanes of a scope exclude each other's work as admission says. *)

From S2P Require Import Prelude Regex Json Clock Validation Runtime Sql Schema StorageCapacity Operations.
From S2P Require Import FinishingRetries.

(** ** The journal's interface *)

Inductive journal_call :=
  | Claim (request_id fingerprint : string) (now : option string)
  | Complete (request_id kind result_id : string) (now : option string)
  | Enqueue (operation_id kind scope : string) (now : option string)
  | Requeue (operation_id kind scope : string) (now : option string) (automatic : bool)
  | SetDispatch (operation_id status : string) (error : option failure) (now : option string)
  | MarkFinishing (operation_id : string)
  | Begin (operation_id kind scope phase deadline_at : string) (refs : dict) (now : option string)
  | Renew (operation_id deadline_at : string) (now : option string)
  | Checkpoint (operation_id phase : string) (refs : option dict) (merge_refs : bool)
      (digest cleanup now : option string)
  | MarkRecovery (operation_id : string) (error : failure) (phase now : option string)
  | RecordFailure (operation_id : string) (error : failure)
  | MarkSucceeded (operation_id cleanup : string) (now : option string)
  | MarkFailed (operation_id : string) (error : failure) (cleanup : string) (now : option string)
  | Retry (operation_id : string) (error : failure).

Definition discard {A} (m : DB A) : DB unit := m ≫= fun _ => mret tt.

Definition run_call (k : journal_call) : DB unit :=
  match k with
  | Claim i f n => discard (claim_idempotency_request i f n)
  | Complete i k r n => discard (complete_idempotency_request i k r n)
  | Enqueue i k s n => discard (enqueue_operation_dispatch i k s n)
  | Requeue i k s n a => discard (requeue_recovery_dispatch i k s n a)
  | SetDispatch i s e n => discard (set_operation_dispatch_status i s e n)
  | MarkFinishing i => mark_operation_finishing i false
  | Begin i k s p d r n => discard (begin_operation i k s p d r n)
  | Renew i d n => discard (renew_operation_deadline i d n)
  | Checkpoint i p r m g u n => discard (checkpoint_operation i p r m g u n)
  | MarkRecovery i e p n => discard (mark_recovery_required i e p n)
  | RecordFailure i e => discard (record_finishing_failure i e)
  | MarkSucceeded i u n => discard (mark_succeeded i u n)
  | MarkFailed i e u n => discard (mark_failed i e u n)
  | Retry i e => discard (schedule i e)
  end.

(** The databases the journal can reach, one call at a time, whatever the
    clock reads. *)
Inductive reachable : Db -> Prop :=
  | reachable_init : reachable empty_db
  | reachable_step c k : reachable (store c) -> in_transaction c = false ->
      reachable (store (run_call k c).2).

(** A connection to a new database, at a fixed time. *)
Definition demo : conn Db := {|
  store := empty_db; in_transaction := false;
  clock := fun _ => days_before_year 2025 * day;
  uuids := fun _ => "00000000-0000-4000-8000-000000000000"%string; ticks := 0 |}.

Definition demo_id : string := "a1234567-89ab-4cde-8f01-23456789abcd".
Definition demo_other : string := "b1234567-89ab-4cde-8f01-23456789abcd".
Definition demo_digest : string :=
  "0123456789abcdef0123456789abcdef0123456789abcdef0123456789abcdef".
Definition demo_scope : string := "app-a1234567-89ab-4cde-8f01-23456789abcd".

Definition after (ks : list journal_call) : conn Db :=
  fold_left (fun c k => (run_call k c).2) ks demo.

Definition demo_begin (id : string) : journal_call :=
  Begin id "app.deploy" demo_scope "validated" "2025-01-01T01:00:00Z" [] None.

(** ** Reads *)

Lemma reads_request i : reads (get_idempotency_request i).
Proof. unfold get_idempotency_request. reads. Qed.
Lemma reads_dispatch i : reads (get_operation_dispatch i).
Proof. unfold get_operation_dispatch. reads. Qed.
Lemma reads_operation i : reads (get_operation i).
Proof. unfold get_operation. reads. Qed.
Lemma reads_unfinished s : reads (get_unfinished_operation s).
Proof. unfold get_unfinished_operation. reads. Qed.
Lemma reads_finishing s : reads (get_finishing_operation s).
Proof. unfold get_finishing_operation. reads. Qed.
Lemma reads_application i : reads (get_application i).
Proof. done. Qed.
Lemma reads_asserted {A} (o : option A) : reads (asserted o).
Proof. unfold asserted. reads. Qed.
#[export] Hint Resolve reads_request reads_dispatch reads_operation reads_unfinished
  reads_finishing reads_application reads_asserted : reads.

Lemma reads_admission s k : reads (check_finishing_admission s k).
Proof. unfold check_finishing_admission. reads. Qed.
Lemma reads_admit k r : reads (admit_storage k r).
Proof.
  unfold admit_storage. destruct (one_of_words _ _); [|reads]. cbv zeta. apply reads_bind; [reads|]. intros []; [|reads].
  apply reads_bind; [reads|]. intros target. apply reads_bind; [|intros; reads].
  apply (reads_gets (fun d => check _ target d)).
Qed.
#[export] Hint Resolve reads_admission reads_admit : reads.

Lemma now_or_store now c : store (now_or now c).2 = store c
  /\ in_transaction (now_or now c).2 = in_transaction c.
Proof. unfold now_or, read_clock. by destruct now as [[]|]. Qed.

Lemma now_or_ok now c : exists t c', now_or now c = (Ok t, c') /\ same_store c c'.
Proof. unfold now_or, read_clock, same_store. destruct now as [[]|]; eexists _, _; eauto. Qed.

Lemma now_or_inv now c t c' : now_or now c = (Ok t, c') -> same_store c c'.
Proof. destruct (now_or_ok now c) as (t' & c1 & -> & Hs). naive_solver. Qed.

Section EvolvesJournal.
Context (P : Db -> Db -> Prop) `{!PreOrder P}.

Lemma evolves_reads {A} (m : DB A) : reads m -> evolves P m.
Proof. intros Hm c. by rewrite Hm. Qed.

Lemma evolves_now now : evolves P (now_or now).
Proof. intros c. by rewrite (proj1 (now_or_store now c)). Qed.

Lemma evolves_discard {A} (m : DB A) : evolves P m -> evolves P (discard m).
Proof. intros Hm. apply (evolves_bind P); [exact Hm|]. intros a. apply (evolves_ret P). Qed.
End EvolvesJournal.
#[export] Hint Extern 1 (evolves ?P (now_or _)) => apply (evolves_now P) : evolve.
#[export] Hint Extern 2 (evolves ?P _) => apply (evolves_reads P); solve [auto with reads] : evolve.

(** ** Terminal operations are final *)

Definition frozen (r r' : Operation) : Prop :=
  op_operation_id r' = op_operation_id r /\ op_kind r' = op_kind r /\ op_scope r' = op_scope r
  /\ op_st r' = op_st r /\ op_phase r' = op_phase r /\ op_refs r' = op_refs r
  /\ op_candidate_digest r' = op_candidate_digest r /\ op_safe_error r' = op_safe_error r.

Definition op_key (r : Operation) : key := pk (op_operation_id r).

(** Every finished operation is still there, with the outcome it had. *)
Definition keeps_outcomes (d d' : Db) : Prop :=
  unique_on op_key (operations d) ->
  unique_on op_key (operations d') /\
  forall r, In r (operations d) -> unfinished (op_st r) = false ->
    exists r', In r' (operations d') /\ frozen r r'.

#[export] Instance frozen_preorder : PreOrder frozen.
Proof. unfold frozen. split; [done|]. intros x y z Hxy Hyz. destruct_and!. split_and!; congruence. Qed.

#[export] Instance keeps_outcomes_preorder : PreOrder keeps_outcomes.
Proof.
  split.
  - intros d Hu. split; [done|]. intros r Hr _. exists r. done.
  - intros d1 d2 d3 H12 H23 Hu. destruct (H12 Hu) as [Hu2 Hk2].
    destruct (H23 Hu2) as [Hu3 Hk3]. split; [done|]. intros r Hr Hf.
    destruct (Hk2 r Hr Hf) as (r2 & Hr2 & Hz2).
    destruct (Hk3 r2 Hr2) as (r3 & Hr3 & Hz3).
    { destruct Hz2 as (_ & _ & _ & -> & _). done. }
    exists r3. split; [done|]. by etrans.
Qed.

Lemma keeps_frame d d' : operations d' = operations d -> keeps_outcomes d d'.
Proof. intros He Hu. rewrite He. split; [done|]. intros r Hr _. exists r. done. Qed.

Lemma keeps_insert d r :
  table_ok d (operations d ++ [r]) = true ->
  keeps_outcomes d (with_operations (operations d ++ [r]) d).
Proof.
  intros Hok _. split.
  - apply (table_ok_unique d _ op_key Hok). left. done.
  - intros r0 Hr0 _. exists r0. split; [|done]. simpl. apply in_app_iff. auto.
Qed.

Lemma keeps_update d p f :
  table_ok d (apply_where p f (operations d)) = true ->
  (forall r, In r (operations d) -> p r = true -> unfinished (op_st r) = false -> frozen r (f r)) ->
  keeps_outcomes d (with_operations (apply_where p f (operations d)) d).
Proof.
  intros Hok Hf _. split.
  - apply (table_ok_unique d _ op_key Hok). left. done.
  - intros r Hr Hu. exists (if p r then f r else r). split.
    + simpl. apply in_apply_where. eauto.
    + destruct (p r) eqn:E; [auto|done].
Qed.
#[export] Hint Extern 1 (keeps_outcomes _ (put_rows _ _)) =>
  first [apply keeps_frame; reflexivity
        | apply keeps_insert; assumption
        | apply keeps_update; [assumption|] ] : evolve.

Lemma still_now now : evolves eq (now_or now).
Proof. intros c. by rewrite (proj1 (now_or_store now c)). Qed.

Lemma still_consume op a now : evolves eq (consume_retry op a now).
Proof. unfold consume_retry. pose proof still_now. evolve. Qed.

#[export] Hint Extern 1 (evolves ?P (consume_retry _ _ _)) =>
  apply (evolves_still P), still_consume : evolve.

Lemma peek_operation i d : peek (get_operation i) d =
  Ok (List.find (fun r => String.eqb (op_operation_id r) i) (operations d)).
Proof. done. Qed.

(** The row an identifier names is the only one with that identifier. *)
Lemma operation_row d i o r :
  unique_on op_key (operations d) ->
  List.find (fun r => String.eqb (op_operation_id r) i) (operations d) = Some o ->
  In r (operations d) -> String.eqb (op_operation_id r) i = true -> r = o.
Proof.
  intros Hu [Ho Hi]%find_some_in Hr Hri. apply String.eqb_eq in Hi, Hri.
  apply (unique_on_inj op_key (operations d) _ _ [i]); auto; unfold op_key, pk; congruence.
Qed.

(** Only the refs of one unfinished operation are replaced. *)
Lemma keeps_requeue i k s n a : evolves keeps_outcomes (requeue_recovery_dispatch i k s n a).
Proof.
  unfold requeue_recovery_dispatch. do 3 (apply (evolves_bind_lift keeps_outcomes); intros ? _).
  apply (evolves_bind keeps_outcomes); [|evolve].
  apply (evolves_transaction keeps_outcomes).
  apply evolves_of_from. intros d. apply (from_reads keeps_outcomes); [auto with reads|].
  intros dp _. apply (from_reads keeps_outcomes); [auto with reads|]. intros op Hop.
  destruct dp as [dp|]; [|apply from_evolves; evolve].
  destruct op as [op|]; [|apply from_evolves; evolve].
  destruct (negb (requeue_eligible _ _ _ _)) eqn:Hel; [apply from_evolves; evolve|].
  apply (from_bind keeps_outcomes); [|intros; evolve].
  - destruct (op_finishing op); [|apply from_evolves; evolve].
    apply (from_still keeps_outcomes); [apply still_consume|]. intros retry.
    apply (from_reads keeps_outcomes); [auto with reads|]. intros refs _.
    apply (from_bind keeps_outcomes); [|intros; evolve].
    apply (from_update keeps_outcomes). intros Hok Hu. apply keeps_update; [done| |done].
    intros r Hr Hid Hf. rewrite peek_operation in Hop. injection Hop as Hop.
    rewrite (operation_row d a0 op r Hu Hop Hr Hid) in Hf.
    unfold requeue_eligible in Hel. rewrite Hf in Hel. simpl in Hel.
    rewrite orb_true_r in Hel. done.
  - evolve; auto with evolve.
  - intros _. evolve.
Qed.

Lemma keeps_live i f d :
  table_ok d (apply_where (live i) f (operations d)) = true ->
  keeps_outcomes d (with_operations (apply_where (live i) f (operations d)) d).
Proof.
  intros Hok. apply keeps_update; [done|]. unfold live. intros r _ H Hf.
  rewrite Hf, andb_false_r in H. done.
Qed.

Lemma keeps_update_live i f : evolves keeps_outcomes (update_live i f).
Proof. unfold update_live. evolve. by apply keeps_live. Qed.
#[export] Hint Resolve keeps_update_live keeps_requeue : evolve.

Lemma keeps_finish i st e p u n : evolves keeps_outcomes (_finish_operation i st e p u n).
Proof. unfold _finish_operation. evolve. Qed.
#[export] Hint Resolve keeps_finish : evolve.

Lemma keeps_checkpoint i p r m g u n : evolves keeps_outcomes (checkpoint_operation i p r m g u n).
Proof. unfold checkpoint_operation. evolve. Qed.
#[export] Hint Resolve keeps_checkpoint : evolve.

(** The update of [schedule] is guarded by the state it read. *)
Lemma keeps_schedule i e : evolves keeps_outcomes (schedule i e).
Proof.
  unfold schedule. apply (evolves_transaction keeps_outcomes). apply evolves_of_from. intros d.
  apply (from_reads keeps_outcomes); [auto with reads|]. intros [op|] Hop; [|apply from_evolves; evolve].
  destruct (negb _ || negb _) eqn:Hel; [apply from_evolves; evolve|].
  apply orb_false_iff in Hel as [_ Hun%negb_false_iff].
  do 2 (apply (from_reads keeps_outcomes); [auto with reads|]; intros ? _).
  apply (from_still keeps_outcomes); [unfold next_retry; evolve|]. intros next_at.
  apply (from_reads keeps_outcomes); [auto with reads|]. intros refs _. cbv zeta.
  apply (from_still keeps_outcomes); [evolve|]. intros now.
  apply (from_bind keeps_outcomes); [|intros; evolve].
  apply (from_update keeps_outcomes). intros Hok Hu. apply keeps_update; [done| |done].
  intros r Hr Hid Hf. rewrite peek_operation in Hop. injection Hop as Hop.
  by rewrite (operation_row d i op r Hu Hop Hr Hid), Hun in Hf.
Qed.
#[export] Hint Resolve keeps_schedule : evolve.

Lemma call_keeps_outcomes k : evolves keeps_outcomes (run_call k).
Proof.
  destruct k; simpl; try apply (evolves_discard keeps_outcomes).
  all: try (unfold claim_idempotency_request, complete_idempotency_request,
    enqueue_operation_dispatch, set_operation_dispatch_status, mark_operation_finishing,
    begin_operation, renew_operation_deadline, mark_recovery_required,
    record_finishing_failure, mark_succeeded, mark_failed).
  all: evolve; auto with evolve.
  apply keeps_update; [done|]. intros. done.
Qed.

(** C1. Whatever journal call runs next and however it ends, a succeeded or
    failed operation keeps its status, kind, scope, phase, references,
    candidate digest and error. *)
Theorem terminal_operations_final k c r :
  unique_on op_key (operations (store c)) ->
  In r (operations (store c)) -> unfinished (op_st r) = false ->
  exists r', In r' (operations (store (run_call k c).2)) /\ frozen r r'.
Proof. intros Hu Hr Hf. by apply (call_keeps_outcomes k c Hu). Qed.

Lemma terminal_operations_final_witness :
  let c := after [demo_begin demo_id; MarkSucceeded demo_id "confirmed" None] in
  exists r, List.find (fun r => String.eqb (op_operation_id r) demo_id) (operations (store c)) = Some r
  /\ exists r', In r' (operations (store (run_call
       (MarkFailed demo_id (Text "late failure") "confirmed" None) c).2)) /\ frozen r r'.
Proof.
  eexists. split; [vm_compute; reflexivity|].
  apply (terminal_operations_final _ (after [demo_begin demo_id; MarkSucceeded demo_id "confirmed" None])).
  - apply (bool_decide_unpack _). vm_compute. exact I.
  - vm_compute. left. reflexivity.
  - reflexivity.
Defined.

(** ** Stored references hold no secret key *)

Definition refs_safe (r : Operation) : Prop := refs_clean (JObj (op_refs r)) = true.
Definition keeps_refs_safe (d d' : Db) : Prop :=
  (forall r, In r (operations d) -> refs_safe r) -> forall r, In r (operations d') -> refs_safe r.

#[export] Instance keeps_refs_safe_preorder : PreOrder keeps_refs_safe.
Proof. unfold keeps_refs_safe. split; [by intros d|]. intros x y z. auto. Qed.

Lemma canonical_clean v : refs_clean (canonical v) = refs_clean v.
Proof.
  induction v as [| | | |l IH|d IH] using json_nested_ind; simpl; try done.
  - induction IH as [|x l Hx _ IHl]; simpl; [done|]. by rewrite Hx, IHl.
  - rewrite (forallb_perm _ _ _ (sort_items_perm _)).
    induction IH as [|x d Hx _ IHd]; simpl; [done|]. by rewrite Hx, IHd.
Qed.

Lemma refs_json_ok refs stored : refs_json refs = Ok stored ->
  refs_clean (JObj stored) = true /\ canonical (JObj refs) = JObj stored
  /\ Z.of_nat (String.length (dumps (JObj refs))) <= refs_limit.
Proof.
  unfold refs_json. destruct (negb _) eqn:Hc; [done|]. apply negb_false_iff in Hc.
  destruct (refs_limit <? _) eqn:Hl; [done|]. apply Z.ltb_ge in Hl.
  pose proof (canonical_clean (JObj refs)) as Hcc. rewrite Hc in Hcc.
  simpl canonical in *. intros [= <-]. done.
Qed.

Lemma safe_frame d d' : operations d' = operations d -> keeps_refs_safe d d'.
Proof. intros He Hs r. rewrite He. apply Hs. Qed.

Lemma safe_insert d r : refs_safe r -> keeps_refs_safe d (with_operations (operations d ++ [r]) d).
Proof. intros Hr Hs r' [Hin|[<-|[]]]%in_app_iff; auto. Qed.

Lemma safe_update d p f :
  (forall r, refs_safe r -> refs_safe (f r)) ->
  keeps_refs_safe d (with_operations (apply_where p f (operations d)) d).
Proof.
  intros Hf Hs r (r0 & Hr0 & ->)%in_apply_where. destruct (p r0); auto.
Qed.
#[export] Hint Extern 1 (keeps_refs_safe _ (put_rows _ _)) =>
  first [apply safe_frame; reflexivity
        | apply safe_insert; assumption
        | apply safe_update; solve [trivial] ] : evolve.

Lemma safe_set_refs d p refs stored :
  refs_json refs = Ok stored ->
  keeps_refs_safe d (with_operations (apply_where p (set_refs stored) (operations d)) d).
Proof. intros (Hc & _ & _)%refs_json_ok. by apply safe_update. Qed.

Lemma safe_update_live i f : (forall r, refs_safe r -> refs_safe (f r)) ->
  evolves keeps_refs_safe (update_live i f).
Proof. intros Hf. unfold update_live. evolve. by apply safe_update. Qed.
#[export] Hint Resolve safe_set_refs : evolve.
#[export] Hint Extern 1 (evolves keeps_refs_safe (update_live _ _)) =>
  apply safe_update_live; solve [trivial] : evolve.

Definition refs_safe_opt (o : option dict) : Prop :=
  match o with Some d => refs_clean (JObj d) = true | None => True end.

Lemma safe_checkpoint i p r m g u n :
  evolves keeps_refs_safe (checkpoint_operation i p r m g u n).
Proof.
  unfold checkpoint_operation.
  do 5 (apply (evolves_bind_lift keeps_refs_safe); intros ? _).
  apply (evolves_bind keeps_refs_safe); [|intros; evolve].
  apply (evolves_transaction keeps_refs_safe).
  apply (evolves_bind_returns keeps_refs_safe refs_safe_opt).
  - destruct r; evolve.
  - destruct r as [given|]; [|by apply returns_ret].
    apply returns_bind. intros merged.
    apply (returns_bind_with (fun st => refs_clean (JObj st) = true)).
    + apply returns_lift. by intros st (Hc & _ & _)%refs_json_ok.
    + intros st Hst. by apply returns_ret.
  - intros enc Henc. evolve. apply safe_update_live. intros r0 Hr0.
    unfold refs_safe. simpl. by destruct enc.
Qed.
#[export] Hint Resolve safe_checkpoint : evolve.

Lemma safe_finish i st e p u n : evolves keeps_refs_safe (_finish_operation i st e p u n).
Proof. unfold _finish_operation. evolve. Qed.
#[export] Hint Resolve safe_finish : evolve.

Lemma safe_schedule i e : evolves keeps_refs_safe (schedule i e).
Proof.
  unfold schedule, next_retry. evolve; apply safe_update; intros r' _.
  all: match goal with H : refs_json _ = Ok _ |- _ => apply refs_json_ok in H as (Hc & _ & _) end. done.
Qed.
#[export] Hint Resolve safe_schedule : evolve.

Lemma safe_begin i k s p dl refs n : evolves keeps_refs_safe (begin_operation i k s p dl refs n).
Proof.
  unfold begin_operation. evolve. apply safe_insert.
  match goal with H : refs_json _ = Ok _ |- _ => apply refs_json_ok in H as (Hc & _ & _) end.
  done.
Qed.
#[export] Hint Resolve safe_begin : evolve.

Lemma call_keeps_refs_safe k : evolves keeps_refs_safe (run_call k).
Proof.
  destruct k; simpl; try apply (evolves_discard keeps_refs_safe).
  all: try (unfold claim_idempotency_request, complete_idempotency_request,
    enqueue_operation_dispatch, requeue_recovery_dispatch, set_operation_dispatch_status,
    mark_operation_finishing, renew_operation_deadline, mark_recovery_required,
    record_finishing_failure, mark_succeeded, mark_failed).
  all: evolve; eauto with evolve.
Qed.

(** In every database the journal can reach, no key of a stored reference
    record, at any depth, names secret material. *)
Theorem stored_refs_never_secret d r :
  reachable d -> In r (operations d) -> refs_clean (JObj (op_refs r)) = true.
Proof.
  intros Hd. revert r. induction Hd as [|c k Hd IH _]; [done|].
  apply (call_keeps_refs_safe k c). exact IH.
Qed.

Lemma stored_refs_never_secret_witness :
  let c := after [Begin demo_id "app.deploy" demo_scope "validated" "2025-01-01T01:00:00Z"
                    [("image_id", JStr demo_other)] None] in
  exists r, In r (operations (store c)) /\ op_refs r = [("image_id"%string, JStr demo_other)]
    /\ refs_clean (JObj (op_refs r)) = true.
Proof.
  eexists. split_and!; [vm_compute; left; reflexivity|reflexivity|].
  eapply (stored_refs_never_secret (store (after [Begin demo_id "app.deploy" demo_scope "validated"
    "2025-01-01T01:00:00Z" [("image_id", JStr demo_other)] None]))).
  - apply reachable_step; [apply reachable_init|reflexivity].
  - vm_compute. left. reflexivity.
Defined.

(** ** Errors write nothing *)

Lemma uuid_same i j : uuid (JStr i) = Ok j -> j = i.
Proof. intros H. by apply uuid_ok in H as [= ->]. Qed.

Lemma still_reads {A} (m : DB A) : reads m -> evolves eq m.
Proof. intros Hm. by apply (evolves_reads eq). Qed.

(** Re-reading a row that is there. *)
Lemma reread_request i d : uuid (JStr i) = Ok i ->
  is_Some (List.find (fun r => String.eqb (rq_request_id r) i) (idempotency_requests d)) ->
  exists r, peek (get_idempotency_request i ≫= asserted) d = Ok r.
Proof.
  intros Hu [r Hr]. exists r. rewrite peek_bind by auto with reads.
  assert (peek (get_idempotency_request i) d = Ok (Some r)) as ->; [|done].
  unfold get_idempotency_request. rewrite peek_bind by auto with reads.
  rewrite peek_lift, Hu. cbn [mbind result_bind]. rewrite peek_fetchone.
  cbn [rows requests_table dispatches_table]. by rewrite Hr.
Qed.

Lemma reread_dispatch i d : uuid (JStr i) = Ok i ->
  is_Some (List.find (fun r => String.eqb (dp_operation_id r) i) (operation_dispatches d)) ->
  exists r, peek (get_operation_dispatch i ≫= asserted) d = Ok r.
Proof.
  intros Hu [r Hr]. exists r. rewrite peek_bind by auto with reads.
  assert (peek (get_operation_dispatch i) d = Ok (Some r)) as ->; [|done].
  unfold get_operation_dispatch. rewrite peek_bind by auto with reads.
  rewrite peek_lift, Hu. cbn [mbind result_bind]. rewrite peek_fetchone.
  cbn [rows requests_table dispatches_table]. by rewrite Hr.
Qed.

Lemma reread_operation i d :
  is_Some (List.find (fun r => String.eqb (op_operation_id r) i) (operations d)) ->
  exists r, peek (get_operation i ≫= asserted) d = Ok r.
Proof.
  intros [r Hr]. exists r. rewrite peek_bind by auto with reads.
  rewrite peek_operation, Hr. done.
Qed.

Lemma reads_result {A} (m : DB A) c : reads m -> (m c).1 = peek m (store c).
Proof. intros Hm. by rewrite Hm. Qed.

(** An UPDATE that touched one row of an operation leaves it to be read. *)
Lemma update_live_found i f c u c' :
  (forall r, op_operation_id (f r) = op_operation_id r) ->
  update_live i f c = (Ok u, c') ->
  is_Some (List.find (fun r => String.eqb (op_operation_id r) i) (operations (store c'))).
Proof.
  intros Hid H. unfold update_live in H. follow.
  destruct (negb _) eqn:En in H; [discriminate|]. apply negb_false_iff, Nat.eqb_eq in En.
  injection H as H1 H2. subst. simpl.
  apply find_apply_where.
  - unfold live. intros r [Hr _]%andb_true_iff. by rewrite Hid.
  - rewrite En. lia.
Qed.

Lemma atomic_live i f (now : option string) (wrap : string -> Operation -> Operation) :
  (forall t r, op_operation_id (wrap t r) = op_operation_id r) -> f = wrap ->
  atomic (transaction (timestamp ← now_or now; update_live i (f timestamp)) ≫=
          fun _ => get_operation i ≫= asserted).
Proof.
  intros Hid ->. apply atomic_commit. intros c u c1 (c2 & H & -> & _)%transaction_ok.
  rewrite reads_result by (apply reads_bind; auto with reads). apply reread_operation.
  apply bind_ok in H as (t & c3 & _ & H). by apply update_live_found in H.
Qed.

Lemma atomic_renew i dl n : atomic (renew_operation_deadline i dl n).
Proof.
  unfold renew_operation_deadline. do 2 (apply atomic_bind_still; [by evolve|intros _ ? _ _]).
  by apply (atomic_live i _ n (set_renewed dl)).
Qed.

Lemma atomic_finish i st e p u n : atomic (_finish_operation i st e p u n).
Proof.
  unfold _finish_operation. apply atomic_bind_still; [by evolve|intros _ ? _ _].
  apply atomic_bind_still; [apply still_now|intros _ t _ _].
  cbv zeta. do 2 (apply atomic_bind_still; [by evolve|intros _ ? _ _]).
  apply atomic_commit. intros c v c1 (c2 & H & -> & _)%transaction_ok.
  rewrite reads_result by (apply reads_bind; auto with reads). apply reread_operation.
  by apply update_live_found in H.
Qed.

Lemma atomic_checkpoint i p r m g u n : atomic (checkpoint_operation i p r m g u n).
Proof.
  unfold checkpoint_operation. do 5 (apply atomic_bind_still; [by evolve|intros _ ? _ _]).
  apply atomic_commit. intros c v c1 (c2 & H & -> & _)%transaction_ok.
  rewrite reads_result by (apply reads_bind; auto with reads). apply reread_operation.
  apply bind_ok in H as (enc & c3 & _ & H). apply bind_ok in H as (t & c4 & _ & H).
  by apply update_live_found in H.
Qed.

Lemma atomic_begin i k s p dl r n : atomic (begin_operation i k s p dl r n).
Proof.
  unfold begin_operation. do 5 (apply atomic_bind_still; [by evolve|intros _ ? _ _]).
  apply atomic_bind_still; [apply still_now|intros _ t _ _].
  apply atomic_commit. intros c v c1 (c2 & H & -> & _)%transaction_ok.
  rewrite reads_result by (apply reads_bind; auto with reads). apply reread_operation.
  apply bind_ok in H as (? & c3 & _ & H). apply bind_ok in H as (o & c4 & _ & H).
  destruct o; [discriminate|]. apply bind_ok in H as (? & c5 & _ & H).
  apply bind_ok in H as (? & c6 & _ & H). apply insert_ok in H as [-> _]. simpl.
  destruct (List.find _ (_ ++ _)) eqn:E; [done|].
  eapply find_none_in in E; [|apply in_app_iff; right; left; reflexivity].
  simpl in E. by rewrite String.eqb_refl in E.
Qed.
#[export] Hint Resolve atomic_renew atomic_finish atomic_checkpoint atomic_begin : evolve.

Lemma find_last {R} (p : R -> bool) t r : p r = true -> is_Some (List.find p (t ++ [r])).
Proof.
  intros Hp. destruct (List.find p (t ++ [r])) eqn:E; [done|].
  eapply find_none_in in E; [|apply in_app_iff; right; left; reflexivity]. congruence.
Qed.

Lemma eqb_self s : String.eqb s s = true.
Proof. apply String.eqb_refl. Qed.

Lemma atomic_claim i f n : atomic (claim_idempotency_request i f n).
Proof.
  unfold claim_idempotency_request. apply atomic_bind_still; [by evolve|].
  intros _ i' _ [Hi _]%lift_ok. pose proof (uuid_same _ _ Hi); subst i'.
  apply atomic_bind_still; [by evolve|intros _ f' _ _].
  apply atomic_commit. intros c early c1 (c2 & H & -> & _)%transaction_ok.
  destruct early as [r|]; [by eexists|].
  rewrite reads_result by (apply reads_bind; auto with reads). apply reread_request; [done|].
  apply bind_ok in H as (o & c3 & _ & H). destruct o.
  - destruct (negb _); discriminate.
  - apply bind_ok in H as (t & c4 & _ & H). apply bind_ok in H as (u & c5 & H5 & H).
    apply insert_ok in H5 as [-> _]. injection H as <-. apply find_last. apply eqb_self.
Qed.

Lemma request_updated p f d i :
  (forall r, p r = true -> rq_request_id r = i) ->
  (forall r, rq_request_id (f r) = rq_request_id r) ->
  is_Some (List.find (fun r => String.eqb (rq_request_id r) i) (idempotency_requests d)) ->
  is_Some (List.find (fun r => String.eqb (rq_request_id r) i)
    (apply_where p f (idempotency_requests d))).
Proof.
  intros Hp Hf [r [Hr Hi]%find_some_in]. destruct (List.find _ (apply_where _ _ _)) eqn:E; [done|].
  eapply find_none_in in E; [|apply in_apply_where; eauto].
  destruct (p r); simpl in E; [rewrite Hf in E|]; congruence.
Qed.

Lemma peek_request i d o : uuid (JStr i) = Ok i ->
  peek (get_idempotency_request i) d = Ok o ->
  o = List.find (fun r => String.eqb (rq_request_id r) i) (idempotency_requests d).
Proof.
  intros Hu. unfold get_idempotency_request. rewrite peek_bind by auto with reads.
  rewrite peek_lift, Hu. cbn [mbind result_bind]. rewrite peek_fetchone. by intros [= <-].
Qed.

Lemma peek_dispatch i d o : uuid (JStr i) = Ok i ->
  peek (get_operation_dispatch i) d = Ok o ->
  o = List.find (fun r => String.eqb (dp_operation_id r) i) (operation_dispatches d).
Proof.
  intros Hu. unfold get_operation_dispatch. rewrite peek_bind by auto with reads.
  rewrite peek_lift, Hu. cbn [mbind result_bind]. rewrite peek_fetchone. by intros [= <-].
Qed.

Lemma atomic_complete i k r n : atomic (complete_idempotency_request i k r n).
Proof.
  unfold complete_idempotency_request. apply atomic_bind_still; [by evolve|].
  intros _ i' _ [Hi _]%lift_ok. pose proof (uuid_same _ _ Hi); subst i'.
  do 2 (apply atomic_bind_still; [by evolve|intros _ ? _ _]).
  apply atomic_commit. intros c early c1 (c2 & H & -> & _)%transaction_ok.
  destruct early as [q|]; [by eexists|].
  rewrite reads_result by (apply reads_bind; auto with reads). apply reread_request; [done|].
  apply bind_ok in H as (o & c3 & H3 & H).
  apply reads_ok in H3 as [H3 ->]; [|auto with reads]. apply (peek_request _ _ _ Hi) in H3.
  destruct o as [q|]; [|discriminate]. destruct (rq_result_id q).
  - destruct (negb _); discriminate.
  - apply bind_ok in H as (t & c4 & H4 & H). apply now_or_inv in H4 as [Hs _].
    apply bind_ok in H as (u & c5 & H5 & H). apply update_ok in H5 as (-> & _).
    injection H as <-. simpl. apply request_updated; [|done|].
    + intros q0. by apply String.eqb_eq.
    + rewrite Hs. simpl in H3. simpl. by rewrite <- H3.
Qed.

Lemma dispatch_committed {B} i (g : OperationDispatch -> B) c : uuid (JStr i) = Ok i ->
  is_Some (List.find (fun r => String.eqb (dp_operation_id r) i) (operation_dispatches (store c))) ->
  exists b, ((r ← get_operation_dispatch i ≫= asserted; mret (g r)) c).1 = Ok b.
Proof.
  intros Hi Hf. destruct (reread_dispatch i (store c) Hi Hf) as [r Hr]. exists (g r).
  assert (Hrd : reads (get_operation_dispatch i ≫= asserted)) by (apply reads_bind; auto with reads).
  rewrite (bind_eq (get_operation_dispatch i ≫= asserted) _ c r c); [done|]. by rewrite Hrd, Hr.
Qed.

Lemma atomic_enqueue i k s n : atomic (enqueue_operation_dispatch i k s n).
Proof.
  unfold enqueue_operation_dispatch. apply atomic_bind_still; [by evolve|].
  intros _ i' _ [Hi _]%lift_ok. pose proof (uuid_same _ _ Hi); subst i'.
  do 2 (apply atomic_bind_still; [by evolve|intros _ ? _ _]).
  apply atomic_bind_still; [apply still_now|intros _ t _ _].
  apply atomic_commit. intros c early c1 (c2 & H & -> & _)%transaction_ok.
  destruct early as [q|]; [by eexists|]. apply dispatch_committed; [done|].
  apply bind_ok in H as (o & c3 & _ & H). destruct o; [destruct (negb _); discriminate|].
  apply bind_ok in H as (o & c4 & _ & H). destruct o as [q|]; [|discriminate].
  destruct (rq_result_id q); [destruct (negb _); discriminate|].
  apply bind_ok in H as (o & c5 & _ & H). destruct o; [discriminate|].
  apply bind_ok in H as (? & c6 & _ & H). apply bind_ok in H as (o & c7 & _ & H).
  destruct o; [discriminate|]. apply bind_ok in H as (? & c8 & H8 & H).
  apply bind_ok in H as (? & c9 & H9 & H). apply insert_ok in H8 as [-> _].
  apply update_ok in H9 as (-> & _). injection H as <-.
  simpl. apply find_last, eqb_self.
Qed.

Lemma dispatch_updated p f d i :
  (forall r, p r = true -> String.eqb (dp_operation_id r) i = true) ->
  (forall r, dp_operation_id (f r) = dp_operation_id r) ->
  length (List.filter p (operation_dispatches d)) = 1%nat ->
  is_Some (List.find (fun r => String.eqb (dp_operation_id r) i)
    (apply_where p f (operation_dispatches d))).
Proof.
  intros Hp Hf Hl. apply find_apply_where; [|lia]. intros r Hr. rewrite Hf. auto.
Qed.

Lemma atomic_requeue i k s n a : atomic (requeue_recovery_dispatch i k s n a).
Proof.
  unfold requeue_recovery_dispatch. apply atomic_bind_still; [by evolve|].
  intros _ i' _ [Hi _]%lift_ok. pose proof (uuid_same _ _ Hi); subst i'.
  do 2 (apply atomic_bind_still; [by evolve|intros _ ? _ _]).
  apply atomic_commit. intros c u c1 (c2 & H & -> & _)%transaction_ok.
  rewrite reads_result by (apply reads_bind; auto with reads). apply reread_dispatch; [done|].
  apply bind_ok in H as (o & c3 & _ & H). apply bind_ok in H as (o2 & c4 & _ & H).
  destruct o, o2; try discriminate. destruct (negb (requeue_eligible _ _ _ _)); [discriminate|].
  apply bind_ok in H as (? & c5 & _ & H). apply bind_ok in H as (t & c6 & _ & H).
  apply bind_ok in H as (count & c7 & H7 & H). apply update_ok in H7 as (-> & -> & _).
  destruct (negb (Nat.eqb _ 1)) eqn:E; [discriminate|]. apply negb_false_iff, Nat.eqb_eq in E.
  injection H as _ <-. simpl. apply dispatch_updated; [|done|done].
  intros r Hr. by apply andb_true_iff in Hr as [Hr _].
Qed.

Lemma atomic_set_dispatch i st e n : atomic (set_operation_dispatch_status i st e n).
Proof.
  unfold set_operation_dispatch_status. apply atomic_bind_still; [by evolve|].
  intros _ i' _ [Hi _]%lift_ok. pose proof (uuid_same _ _ Hi); subst i'.
  destruct (dispatch_status_of st); [|apply atomic_still; by evolve]. cbv zeta.
  apply atomic_commit. intros c u c1 (c2 & H & -> & _)%transaction_ok.
  rewrite reads_result by (apply reads_bind; auto with reads). apply reread_dispatch; [done|].
  apply bind_ok in H as (t & c6 & _ & H).
  apply bind_ok in H as (count & c7 & H7 & H). apply update_ok in H7 as (-> & -> & _).
  destruct (negb (Nat.eqb _ 1)) eqn:E; [discriminate|]. apply negb_false_iff, Nat.eqb_eq in E.
  injection H as _ <-. simpl. by apply dispatch_updated.
Qed.

Lemma atomic_record_failure i e : atomic (record_finishing_failure i e).
Proof.
  unfold record_finishing_failure. apply atomic_bind_still; [apply still_reads, reads_operation|].
  intros _ [o|] _ _; [|apply atomic_still; by evolve].
  destruct (op_finishing o); [apply atomic_finish|apply atomic_still; by evolve].
Qed.

Lemma atomic_schedule i e : atomic (schedule i e).
Proof. apply atomic_transaction. Qed.

Lemma atomic_call k : atomic (run_call k).
Proof.
  destruct k; simpl; try apply (atomic_then_ret _ (fun _ => tt)).
  - apply atomic_claim.
  - apply atomic_complete.
  - apply atomic_enqueue.
  - apply atomic_requeue.
  - apply atomic_set_dispatch.
  - apply atomic_transaction.
  - apply atomic_begin.
  - apply atomic_renew.
  - apply atomic_checkpoint.
  - apply atomic_finish.
  - apply atomic_record_failure.
  - apply atomic_finish.
  - unfold mark_failed. destruct (negb _); [apply atomic_still; by evolve|apply atomic_finish].
  - apply atomic_schedule.
Qed.

(** C6. A journal call that raises, for whatever reason and on whatever
    database, leaves every table exactly as it was: there is no partial write,
    and the re-read after a commit never fails. *)
Theorem journal_errors_write_nothing k c e c' :
  run_call k c = (Raise e, c') -> store c' = store c.
Proof. apply atomic_call. Qed.

Lemma journal_errors_write_nothing_witness :
  let c := after [demo_begin demo_id] in
  (run_call (demo_begin demo_other) c).1 = Raise (UnfinishedOperationError demo_scope demo_id "app.deploy")
  /\ store (run_call (demo_begin demo_other) c).2 = store c.
Proof.
  split; [vm_compute; reflexivity|].
  apply (journal_errors_write_nothing (demo_begin demo_other) (after [demo_begin demo_id])
    (UnfinishedOperationError demo_scope demo_id "app.deploy")).
  vm_compute. reflexivity.
Defined.
