(* ===== verification/AdmissionSpec.v ===== *)
(** * Admission: replays, exclusive scopes and the finishing lane

    Functional specifications of the calls that decide whether work may start:
    [claim_idempotency_request], [enqueue_operation_dispatch],
    [begin_operation] and [mark_operation_finishing]. *)

From S2P Require Import Prelude Regex Json Validation Runtime Sql Schema StorageCapacity Operations.
From S2P Require Import OperationsSpec.

(** ** Running guarded reads *)

Lemma bind_lift_eq {A B} (r : result A) (f : A -> DB B) c a :
  r = Ok a -> (lift r ≫= f) c = f a c.
Proof. by intros ->. Qed.

Lemma bind_reads_eq {A B} (m : DB A) (f : A -> DB B) c a :
  reads m -> peek m (store c) = Ok a -> (m ≫= f) c = f a c.
Proof. intros Hm Ha. apply bind_eq. by rewrite Hm, Ha. Qed.

Lemma get_request_peek i d : uuid (JStr i) = Ok i -> peek (get_idempotency_request i) d =
  Ok (List.find (fun r => String.eqb (rq_request_id r) i) (idempotency_requests d)).
Proof.
  intros Hi. unfold get_idempotency_request. rewrite peek_bind by auto with reads.
  by rewrite peek_lift, Hi.
Qed.

Lemma get_dispatch_peek i d : uuid (JStr i) = Ok i -> peek (get_operation_dispatch i) d =
  Ok (List.find (fun r => String.eqb (dp_operation_id r) i) (operation_dispatches d)).
Proof.
  intros Hi. unfold get_operation_dispatch. rewrite peek_bind by auto with reads.
  by rewrite peek_lift, Hi.
Qed.

Lemma matching_same r m s t : matching r m (JStr s) = Ok t -> t = s.
Proof. intros [[= ->] _]%matching_ok. done. Qed.

Lemma matching_valid r m s t : matching r m (JStr s) = Ok t -> matching r m (JStr s) = Ok s.
Proof. intros H. by rewrite <- (matching_same _ _ _ _ H) at 2. Qed.

Lemma bind_peek {D A B} (m : db D A) (f : A -> db D B) d a :
  reads m -> peek m d = Ok a -> peek (m ≫= f) d = peek (f a) d.
Proof. intros Hm Ha. rewrite peek_bind by done. by rewrite Ha. Qed.

(** ** Idempotency claims *)

(** What a claim answers once the request is on record. *)
Lemma claim_recorded i f n c r :
  in_transaction c = false -> uuid (JStr i) = Ok i -> sha256_hex (JStr f) = Ok f ->
  List.find (fun r => String.eqb (rq_request_id r) i) (idempotency_requests (store c)) = Some r ->
  claim_idempotency_request i f n c =
    (if String.eqb (rq_request_fingerprint r) f then Ok r
     else Raise (IdempotencyConflictError
       "idempotency request was already used for different input"), c).
Proof.
  intros Ht Hi Hf Hr. unfold claim_idempotency_request.
  rewrite (bind_lift_eq _ _ _ _ Hi), (bind_lift_eq _ _ _ _ Hf).
  match goal with |- (transaction ?m ≫= _) c = _ => set (body := m) end.
  assert (Hb : forall c', store c' = store c -> body c' =
    (if String.eqb (rq_request_fingerprint r) f then Ok (Some r)
     else Raise (IdempotencyConflictError
       "idempotency request was already used for different input"), c')).
  { intros c' Hc'. unfold body.
    rewrite (bind_reads_eq _ _ _ (Some r)); [|auto with reads|by rewrite get_request_peek, Hc', Hr].
    by destruct (String.eqb _ f). }
  destruct (String.eqb (rq_request_fingerprint r) f).
  - rewrite (bind_eq (transaction body) _ c (Some r) c); [done|].
    unfold transaction. by rewrite Ht, Hb, with_transaction_id by done.
  - rewrite (bind_raises (transaction body) _ c (IdempotencyConflictError
       "idempotency request was already used for different input") c); [done|].
    unfold transaction. rewrite Ht, Hb by done. destruct c; simpl in *; by subst.
Qed.

(** A claim that returned is on record, with the fingerprint it was made for. *)
Lemma claim_records i f n c r c' :
  claim_idempotency_request i f n c = (Ok r, c') ->
  in_transaction c' = false /\ uuid (JStr i) = Ok i /\ sha256_hex (JStr f) = Ok f
  /\ List.find (fun r => String.eqb (rq_request_id r) i) (idempotency_requests (store c')) = Some r
  /\ rq_request_fingerprint r = f.
Proof.
  unfold claim_idempotency_request. intros H.
  apply bind_ok in H as (i' & c1 & [Hi ->]%lift_ok & H). pose proof (uuid_same _ _ Hi); subst i'.
  apply bind_ok in H as (f' & c1 & [Hf ->]%lift_ok & H).
  pose proof (matching_same _ _ _ _ Hf); subst f'.
  apply bind_ok in H as (early & c1 & (c2 & Hb & -> & Ht)%transaction_ok & H).
  apply bind_ok in Hb as (o & c3 & H3 & Hb).
  apply reads_ok in H3 as [H3 ->]; [|auto with reads]. rewrite get_request_peek in H3 by done.
  injection H3 as H3. destruct o as [q|].
  - destruct (negb _) eqn:E; [discriminate|]. injection Hb as <- <-. injection H as <- <-.
    apply negb_false_iff, String.eqb_eq in E. done.
  - apply bind_ok in Hb as (t & c4 & H4 & Hb). apply now_or_inv in H4 as [Hs _].
    apply bind_ok in Hb as (u & c5 & H5 & Hb). apply insert_ok in H5 as [-> _].
    injection Hb as <- <-.
    apply reads_ok in H as [H ->]; [|apply reads_bind; auto with reads].
    rewrite (bind_peek _ _ _ _ (reads_request i) (get_request_peek _ _ Hi)) in H. simpl in *.
    rewrite Hs, (find_app_some _ _ {| rq_request_id := i; rq_request_fingerprint := f;
      rq_result_kind := None; rq_result_id := None; rq_created_at := t; rq_completed_at := None |})
      in H |- * by (done || apply eqb_self).
    injection H as <-. done.
Qed.

(** Claiming an idempotency request is idempotent: after one successful
    claim, every later claim of the request by the same input returns the same
    record and changes nothing, and a claim by a different (well formed)
    fingerprint raises a conflict and changes nothing. *)
Theorem claim_replay i f n c r c' :
  claim_idempotency_request i f n c = (Ok r, c') ->
  (forall n', claim_idempotency_request i f n' c' = (Ok r, c')) /\
  (forall f' n', f' <> f -> sha256_hex (JStr f') = Ok f' ->
     claim_idempotency_request i f' n' c' = (Raise (IdempotencyConflictError
       "idempotency request was already used for different input"), c')).
Proof.
  intros (Ht & Hi & Hf & Hr & <-)%claim_records. split.
  - intros n'. rewrite (claim_recorded _ _ _ _ _ Ht Hi Hf Hr). by rewrite String.eqb_refl.
  - intros f' n' Hne Hf'. rewrite (claim_recorded _ _ _ _ _ Ht Hi Hf' Hr).
    by destruct (String.eqb_spec (rq_request_fingerprint r) f') as [He|].
Qed.

Lemma claim_replay_witness :
  exists r, claim_idempotency_request demo_id demo_digest None demo = (Ok r, after
      [Claim demo_id demo_digest None]) /\
  (claim_idempotency_request demo_id demo_digest None (after [Claim demo_id demo_digest None])).1 = Ok r.
Proof.
  eexists. split; [vm_compute; reflexivity|].
  rewrite (proj1 (claim_replay demo_id demo_digest None demo _ (after [Claim demo_id demo_digest None])
    ltac:(vm_compute; reflexivity)) None). reflexivity.
Defined.

(** ** Beginning an operation *)

Definition ops_ok (d : Db) : Prop := table_ok d (operations d) = true.

(** Everything [begin_operation] requires, over the database it reads. *)
Definition may_begin (i k s p dl : string) (refs : dict) (d : Db) : Prop :=
  uuid (JStr i) = Ok i /\ operation_token k = Ok k /\ operation_token s = Ok s
  /\ operation_token p = Ok p /\ (String.length dl <= 64)%nat
  /\ peek (check_finishing_admission s k) d = Ok tt
  /\ List.find (in_lane s false) (operations d) = None
  /\ peek (admit_storage k refs) d = Ok tt
  /\ (exists stored, refs_json refs = Ok stored)
  /\ List.find (fun r => String.eqb (op_operation_id r) i) (operations d) = None.

Lemma operations_references d t : forallb (references (Table := operations_table) d) t = true.
Proof. by apply forallb_forall. Qed.

Lemma table_ok_app {D R} `{Table D R} (d : D) t r :
  table_ok d t = true -> row_check r = true -> references d r = true ->
  Forall (fun k => unique_on k (t ++ [r])) unique_keys -> table_ok d (t ++ [r]) = true.
Proof.
  unfold table_ok. rewrite !andb_true_iff, !forallb_app. intros [[-> ->] _] Hc Hr Hu. simpl.
  rewrite Hc, Hr. split_and!; try done. apply forallb_forall. intros k Hk.
  apply bool_decide_eq_true. rewrite Forall_forall in Hu. apply Hu. by apply list_elem_of_In.
Qed.

Lemma in_lane_key s fin r : in_lane s fin r = true <-> operation_lane fin r = pk s.
Proof.
  unfold in_lane, operation_lane, pk.
  destruct (String.eqb_spec (op_scope r) s), (unfinished _), (Bool.eqb _ fin); simpl; naive_solver.
Qed.

Lemma new_operation_accepted i k s p dl refs stored now d :
  ops_ok d -> refs_json refs = Ok stored ->
  List.find (in_lane s false) (operations d) = None ->
  List.find (fun r => String.eqb (op_operation_id r) i) (operations d) = None ->
  table_ok d (operations d ++ [new_operation i k s p dl stored now]) = true.
Proof.
  intros Hok Hrefs Hlane Hid. apply table_ok_app; [done| |done|].
  - cbn [row_check operations_table]. unfold operation_check.
    cbn [op_refs op_safe_error new_operation short_error opt_all]. apply refs_json_ok in Hrefs as (_ & Hcan & Hlen).
    rewrite <- Hcan, dumps_canonical. apply andb_true_iff. split; [by apply Z.leb_le|done].
  - assert (Hu : forall key, In key unique_keys -> unique_on key (operations d))
      by (intros key Hin; by apply (table_ok_unique d _ key Hok)).
    simpl in Hu |- *. repeat constructor; apply unique_on_app; (split; [apply Hu; tauto|]).
    + intros x [= <-] r Hr Hkey. apply (find_none_in _ _ _ Hid) in Hr.
      unfold pk in Hkey. injection Hkey as Hkey. rewrite Hkey in Hr. simpl in Hr.
      by rewrite String.eqb_refl in Hr.
    + intros x Hx r Hr Hkey. apply (find_none_in _ _ _ Hlane) in Hr.
      assert (in_lane s false r = true) as Ht by (apply in_lane_key; rewrite Hkey, <- Hx; done).
      congruence.
    + intros x Hx. discriminate Hx.
Qed.

Lemma with_operations_flags (c : conn Db) t :
  in_transaction c = false ->
  with_transaction false (with_store (with_operations t (store c)) (with_transaction true c))
  = with_store (with_operations t (store c)) c.
Proof. destruct c. simpl. by intros ->. Qed.

(** The read at the end of [begin_operation] finds the new row. *)
Lemma reread_new_operation i t o (c : conn Db) :
  List.find (fun r => String.eqb (op_operation_id r) i) t = None -> op_operation_id o = i ->
  operations (store c) = t ++ [o] ->
  (get_operation i ≫= asserted) c = (Ok o, c).
Proof.
  intros Hf Ho Hc. assert (Hr : reads (get_operation i ≫= asserted))
    by (apply reads_bind; auto with reads).
  rewrite Hr. rewrite peek_bind by auto with reads. rewrite peek_operation, Hc.
  rewrite (find_app_some _ _ o) by (rewrite ?Ho; auto using eqb_self). done.
Qed.

(** C2. [begin_operation] starts an operation exactly when its arguments are
    well formed, the finishing lane admits the kind, the foreground lane of the
    scope is free, storage capacity suffices, the references may be stored and
    the identifier is new.  It then appends one running foreground row to the
    table of operations and changes no other table. *)
Theorem begin_operation_spec i k s p dl refs now c :
  in_transaction c = false -> ops_ok (store c) ->
  (may_begin i k s p dl refs (store c) <-> is_ok (begin_operation i k s p dl refs now c).1 = true)
  /\ forall o c', begin_operation i k s p dl refs now c = (Ok o, c') ->
      exists stored t, refs_json refs = Ok stored /\ o = new_operation i k s p dl stored t
        /\ store c' = with_operations (operations (store c) ++ [o]) (store c).
Proof.
  intros Ht Hok.
  assert (Hfwd : may_begin i k s p dl refs (store c) ->
    is_ok (begin_operation i k s p dl refs now c).1 = true).
  { intros (Hi & Hk & Hs & Hp & Hdl & Hadm & Hlane & Hcap & [stored Hrefs] & Hnew).
    unfold begin_operation.
    rewrite (bind_lift_eq _ _ _ _ Hi), (bind_lift_eq _ _ _ _ Hk), (bind_lift_eq _ _ _ _ Hs),
      (bind_lift_eq _ _ _ _ Hp).
    rewrite (bind_lift_eq _ _ _ tt) by (unfold deadline_ok; by apply Nat.leb_le in Hdl as ->).
    destruct (now_or_ok now c) as (t & c1 & Hn & Hs1 & Ht1). rewrite (bind_eq _ _ _ _ _ Hn).
    rewrite Ht in Ht1. rewrite <- Hs1 in *.
    set (o := new_operation i k s p dl stored t).
    rewrite (bind_eq (transaction _) _ c1 tt
      (with_store (with_operations (operations (store c1) ++ [o]) (store c1)) c1)).
    - rewrite (reread_new_operation i (operations (store c1)) o) by done. done.
    - unfold transaction. rewrite Ht1.
      rewrite (bind_reads_eq _ _ _ tt); [|auto with reads|done].
      rewrite (bind_reads_eq _ _ _ None); [|auto with reads|simpl; by rewrite <- Hlane].
      rewrite (bind_reads_eq _ _ _ tt); [|auto with reads|done].
      rewrite (bind_lift_eq _ _ _ _ Hrefs).
      unfold insert, write. simpl.
      rewrite (new_operation_accepted i k s p dl refs stored t _ Hok Hrefs Hlane Hnew).
      by rewrite with_operations_flags. }
  assert (Hbwd : forall o c', begin_operation i k s p dl refs now c = (Ok o, c') ->
      may_begin i k s p dl refs (store c) /\
      exists stored t, refs_json refs = Ok stored /\ o = new_operation i k s p dl stored t
        /\ store c' = with_operations (operations (store c) ++ [o]) (store c)).
  { intros o c' H. unfold begin_operation in H.
    apply bind_ok in H as (i' & c1 & [Hi ->]%lift_ok & H). pose proof (uuid_same _ _ Hi); subst i'.
    apply bind_ok in H as (k' & c1 & [Hk ->]%lift_ok & H). pose proof (matching_same _ _ _ _ Hk); subst k'.
    apply bind_ok in H as (s' & c1 & [Hs ->]%lift_ok & H). pose proof (matching_same _ _ _ _ Hs); subst s'.
    apply bind_ok in H as (p' & c1 & [Hp ->]%lift_ok & H). pose proof (matching_same _ _ _ _ Hp); subst p'.
    apply bind_ok in H as ([] & c1 & [Hdl ->]%lift_ok & H).
    apply bind_ok in H as (t & c1 & [Hs1 Ht1]%now_or_inv & H).
    apply bind_ok in H as (u & c2 & (c3 & Hb & -> & _)%transaction_ok & H).
    apply bind_ok in Hb as ([] & c4 & [Hadm ->]%reads_ok & Hb); [|auto with reads].
    apply bind_ok in Hb as (found & c4 & [Hlane ->]%reads_ok & Hb); [|auto with reads].
    injection Hlane as Hlane. destruct found; [discriminate|].
    apply bind_ok in Hb as ([] & c4 & [Hcap ->]%reads_ok & Hb); [|auto with reads].
    apply bind_ok in Hb as (stored & c4 & [Hrefs ->]%lift_ok & Hb).
    apply insert_ok in Hb as [-> Hins]. simpl in *. rewrite Hs1 in *.
    set (o' := new_operation i k s p dl stored t) in *.
    assert (Hnew : List.find (fun r => String.eqb (op_operation_id r) i) (operations (store c)) = None).
    { clear Hlane. destruct (List.find _ _) as [r|] eqn:E; [|done]. apply find_some_in in E as [Hr Hri].
      pose proof (table_ok_unique _ _ op_key Hins (or_introl eq_refl)) as Hu.
      apply unique_on_app in Hu as [_ Hu]. apply String.eqb_eq in Hri.
      destruct (Hu [i] eq_refl r Hr). unfold op_key, pk. by rewrite Hri. }
    rewrite (reread_new_operation i (operations (store c)) o') in H by done.
    injection H as <- <-. split.
    - split_and!; try done; [|by exists stored].
      unfold deadline_ok, guard_else in Hdl. destruct (_ <=? _)%nat eqn:E; [|discriminate].
      by apply Nat.leb_le.
    - exists stored, t. done. }
  split; [split; [exact Hfwd|]|intros o c' H; by apply Hbwd in H as [_ H]].
  intros Hr. destruct (begin_operation i k s p dl refs now c) as [[o|e] c']; [|done].
  by destruct (Hbwd o c' eq_refl).
Qed.

Lemma begin_operation_spec_witness :
  is_ok (begin_operation demo_id "app.deploy" demo_scope "validated" "2025" [] None demo).1 = true
  /\ may_begin demo_id "app.deploy" demo_scope "validated" "2025" [] (store demo).
Proof.
  split; [vm_compute; reflexivity|].
  apply (proj1 (begin_operation_spec demo_id "app.deploy" demo_scope "validated" "2025" [] None demo
    eq_refl eq_refl)). vm_compute. reflexivity.
Defined.

(** ** Queueing a dispatch *)

(** The dispatch row an accepted or replayed call leaves behind. *)
Lemma enqueue_records i k s n c d fresh c' :
  enqueue_operation_dispatch i k s n c = (Ok (d, fresh), c') ->
  uuid (JStr i) = Ok i /\ operation_token k = Ok k /\ operation_token s = Ok s
  /\ List.find (fun r => String.eqb (dp_operation_id r) i) (operation_dispatches (store c')) = Some d
  /\ dp_kind d = k /\ dp_scope d = s /\ in_transaction c' = false
  /\ (if fresh then exists t, d = new_dispatch i k s t /\ dp_st d = d_pending
        /\ peek (check_finishing_admission s k) (store c) = Ok tt
        /\ List.find (in_lane s false) (operations (store c)) = None
        /\ operation_dispatches (store c') = operation_dispatches (store c) ++ [d]
      else store c' = store c).
Proof.
  unfold enqueue_operation_dispatch. intros H.
  apply bind_ok in H as (i' & c1 & [Hi ->]%lift_ok & H). pose proof (uuid_same _ _ Hi); subst i'.
  apply bind_ok in H as (k' & c1 & [Hk ->]%lift_ok & H). pose proof (matching_same _ _ _ _ Hk); subst k'.
  apply bind_ok in H as (s' & c1 & [Hs ->]%lift_ok & H). pose proof (matching_same _ _ _ _ Hs); subst s'.
  apply bind_ok in H as (t & c1 & [Hs1 _]%now_or_inv & H).
  apply bind_ok in H as (early & c2 & (c3 & Hb & -> & _)%transaction_ok & H).
  apply bind_ok in Hb as (o & c4 & [Ho ->]%reads_ok & Hb); [|auto with reads].
  apply (peek_dispatch _ _ _ Hi) in Ho. simpl in Ho. rewrite Hs1 in Ho.
  destruct o as [r|].
  { destruct (negb _) eqn:E; [discriminate|]. injection Hb as <- <-. injection H as <- <- <-.
    apply negb_false_iff, andb_true_iff in E as [->%String.eqb_eq ->%String.eqb_eq].
    simpl. by rewrite Hs1. }
  apply bind_ok in Hb as (q & c4 & [Hq ->]%reads_ok & Hb); [|auto with reads].
  destruct q as [q|]; [|discriminate].
  destruct (rq_result_id q); [destruct (negb _); discriminate|].
  apply bind_ok in Hb as (a & c4 & [Ha ->]%reads_ok & Hb); [|auto with reads].
  destruct a; [discriminate|].
  apply bind_ok in Hb as ([] & c4 & [Hadm ->]%reads_ok & Hb); [|auto with reads].
  apply bind_ok in Hb as (u & c4 & [Hu ->]%reads_ok & Hb); [|auto with reads].
  destruct u; [discriminate|]. injection Hu as Hu. simpl in Hadm, Hu. rewrite Hs1 in Hadm, Hu.
  apply bind_ok in Hb as (? & c5 & [-> _]%insert_ok & Hb).
  apply bind_ok in Hb as (? & c6 & (-> & _)%update_ok & Hb). injection Hb as <- <-.
  apply bind_ok in H as (r & c7 & H7 & H). injection H as <- <- <-.
  apply reads_ok in H7 as [H7 ->]; [|apply reads_bind; auto with reads].
  rewrite (bind_peek _ _ _ _ (reads_dispatch i) (get_dispatch_peek _ _ Hi)) in H7.
  simpl in H7 |- *. rewrite Hs1 in *.
  rewrite (find_app_some _ _ (new_dispatch i k s t)) in H7 |- * by (done || apply eqb_self).
  injection H7 as <-. split_and!; try done. by exists t.
Qed.

(** Queueing is exactly-once: an accepted dispatch was admitted by the
    finishing lane, found the foreground lane of its scope free and is pending
    under the request's identifier; the same request made again returns that
    row as a replay and changes nothing; and the same identifier under another
    kind or scope raises a conflict and changes nothing. *)
Theorem enqueue_exactly_once i k s n c d c' :
  enqueue_operation_dispatch i k s n c = (Ok (d, true), c') ->
  (dp_st d = d_pending /\ dp_operation_id d = i
   /\ peek (check_finishing_admission s k) (store c) = Ok tt
   /\ peek (get_unfinished_operation s) (store c) = Ok None) /\
  forall k' s' n', operation_token k' = Ok k' -> operation_token s' = Ok s' ->
    let again := enqueue_operation_dispatch i k' s' n' c' in
    store again.2 = store c' /\
    again.1 = if String.eqb k k' && String.eqb s s' then Ok (d, false)
              else Raise (IdempotencyConflictError "operation dispatch does not match request").
Proof.
  intros (Hi & Hk & Hs & Hd & Hdk & Hds & Ht & (t & -> & _ & Hadm & Hlane & _))%enqueue_records. split.
  { split_and!; [done|done|done|]. unfold get_unfinished_operation. rewrite peek_fetchone.
    by cbn [rows operations_table]; rewrite Hlane. }
  intros k' s' n' Hk' Hs'. cbv zeta. unfold enqueue_operation_dispatch.
  rewrite (bind_lift_eq _ _ _ _ Hi), (bind_lift_eq _ _ _ _ Hk'), (bind_lift_eq _ _ _ _ Hs').
  destruct (now_or_ok n' c') as (t' & c1 & Hn & Hs1 & Ht1). rewrite (bind_eq _ _ _ _ _ Hn).
  match goal with |- context[transaction ?m ≫= _] => set (body := m) end.
  assert (Hb : forall c2, store c2 = store c' -> body c2 =
    (if String.eqb k k' && String.eqb s s' then Ok (Some (new_dispatch i k s t))
     else Raise (IdempotencyConflictError "operation dispatch does not match request"), c2)).
  { intros c2 Hc2. unfold body. rewrite (bind_reads_eq _ _ _ (Some (new_dispatch i k s t)));
      [|auto with reads|by rewrite get_dispatch_peek, Hc2, Hd].
    simpl. by destruct (_ && _). }
  destruct (String.eqb k k' && String.eqb s s').
  - rewrite (bind_eq (transaction body) _ c1 (Some (new_dispatch i k s t)) c1); [done|].
    rewrite Ht in Ht1. unfold transaction. rewrite Ht1, Hb by done.
    by rewrite with_transaction_id.
  - rewrite (bind_raises (transaction body) _ c1 (IdempotencyConflictError
       "operation dispatch does not match request") c1); [done|].
    rewrite Ht in Ht1. unfold transaction. rewrite Ht1, Hb by done.
    destruct c1; simpl in *; by subst.
Qed.

Definition demo_claimed : conn Db := after [Claim demo_id demo_digest None].

Lemma enqueue_exactly_once_witness :
  exists c' d, enqueue_operation_dispatch demo_id "app.deploy" demo_scope None demo_claimed
    = (Ok (d, true), c') /\
  (enqueue_operation_dispatch demo_id "app.deploy" demo_scope None c').1 = Ok (d, false).
Proof.
  eexists _, _. split; [vm_compute; reflexivity|].
  apply (proj2 (enqueue_exactly_once demo_id "app.deploy" demo_scope None demo_claimed _ _
    ltac:(vm_compute; reflexivity))); vm_compute; reflexivity.
Defined.

(** ** Handing a scope over to its finishing lane *)

Lemma unique_find {R} (k : R -> key) (p : R -> bool) t r x :
  unique_on k t -> (forall r, p r = true -> k r = Some x) -> In r t -> p r = true ->
  List.find p t = Some r.
Proof.
  intros Hu Hp Hr Hpr. destruct (List.find p t) as [r'|] eqn:E.
  - apply find_some_in in E as [Hr' Hpr']. f_equal. eauto using unique_on_inj.
  - by rewrite (find_none_in _ _ _ E Hr) in Hpr.
Qed.

Lemma find_updated {R} (p q : R -> bool) f t :
  (forall r, q (f r) = q r) -> 
  List.find q (apply_where p f t) = (fun r => if p r then f r else r) <$> List.find q t.
Proof.
  intros Hq. induction t as [|r t IH]; simpl; [done|].
  destruct (p r) eqn:E; rewrite ?Hq; destruct (q r); simpl; rewrite ?E; done.
Qed.

Lemma op_lane_unique fin : In (operation_lane fin) (unique_keys (Table := operations_table)).
Proof. destruct fin; simpl; auto. Qed.

(** Accepting the workload moves the operation from the foreground to the
    finishing lane of its scope: afterwards nothing occupies the foreground
    lane, the finishing lane holds exactly this operation, and every other
    operation is as it was. *)
Theorem finishing_frees_foreground i w c c' o :
  ops_ok (store c) ->
  List.find (fun r => String.eqb (op_operation_id r) i) (operations (store c)) = Some o ->
  unfinished (op_st o) = true -> op_finishing o = false ->
  mark_operation_finishing i w c = (Ok tt, c') ->
  (op_kind o = "app.deploy" \/ op_kind o = "app.enable")
  /\ peek (get_unfinished_operation (op_scope o)) (store c') = Ok None
  /\ peek (get_finishing_operation (op_scope o)) (store c') = Ok (Some (set_finishing o))
  /\ (forall j, j <> i -> peek (get_operation j) (store c') = peek (get_operation j) (store c)).
Proof.
  intros Hok Ho Hun Hfin H.
  assert (Hm : exists c1, one_of_words ["app.deploy"; "app.enable"] (op_kind o) = true
    /\ operations (store c') = apply_where (fun r => String.eqb (op_operation_id r) i) set_finishing
         (operations (store c)) /\ table_ok (store c1) (operations (store c')) = true).
  { unfold mark_operation_finishing, acceptance_write in H.
    match type of H with context[transaction ?m] => set (body := m) in H end.
    assert (Hb : forall a b u, store a = store c -> body a = (Ok u, b) ->
      exists c1, one_of_words ["app.deploy"; "app.enable"] (op_kind o) = true
      /\ operations (store b) = apply_where (fun r => String.eqb (op_operation_id r) i) set_finishing
           (operations (store c)) /\ table_ok (store c1) (operations (store b)) = true).
    { intros a b u Ha Hb. unfold body in Hb.
      rewrite (bind_reads_eq _ _ _ (Some o)) in Hb; [|auto with reads|by rewrite peek_operation, Ha, Ho].
      destruct (one_of_words _ _); [|discriminate].
      apply bind_ok in Hb as (? & c2 & (-> & _ & Htab)%update_ok & Hb).
      apply bind_ok in Hb as (? & c3 & (-> & _)%update_ok & Hb). injection Hb as _ <-. simpl in *.
      rewrite Ha in Htab |- *. exists c. done. }
    destruct w; [destruct (in_transaction c); [|discriminate]; by eapply Hb|].
    apply transaction_ok in H as (b & H & -> & _). eapply Hb in H; done. }
  destruct Hm as (c1 & Hkind & Hops & Htab).
  destruct (find_some_in _ _ _ Ho) as [Hin Hid].
  assert (Hnew : In (set_finishing o) (operations (store c'))).
  { rewrite Hops. apply in_apply_where. exists o. by rewrite Hid. }
  assert (Hlane : forall fin, in_lane (op_scope o) fin (set_finishing o) = Bool.eqb true fin).
  { intros fin. unfold in_lane. simpl. by rewrite eqb_self, Hun. }
  split_and!.
  - unfold one_of_words in Hkind. simpl in Hkind.
    destruct (String.eqb_spec (op_kind o) "app.deploy"), (String.eqb_spec (op_kind o) "app.enable"); [auto..|done].
  - unfold get_unfinished_operation. rewrite peek_fetchone. cbn [rows operations_table]. f_equal.
    destruct (List.find (in_lane _ _) _) as [r|] eqn:E; [|done].
    apply find_some_in in E as [Hr Hrl]. rewrite Hops in Hr. apply in_apply_where in Hr as (r0 & Hr0 & ->).
    destruct (String.eqb (op_operation_id r0) i) eqn:Ei.
    + rewrite (operation_row _ _ _ r0 (table_ok_unique _ _ op_key Hok (or_introl eq_refl)) Ho Hr0 Ei)
        in Hrl. by rewrite Hlane in Hrl.
    + assert (r0 = o) as ->; [|congruence].
      apply (unique_on_inj _ _ _ _ [op_scope o]
        (table_ok_unique _ _ _ Hok (op_lane_unique false)) Hr0 Hin); apply in_lane_key; [done|].
      unfold in_lane. by rewrite eqb_self, Hun, Hfin.
  - unfold get_finishing_operation. rewrite peek_fetchone. cbn [rows operations_table]. f_equal.
    apply (unique_find (operation_lane true) _ _ _ [op_scope o]); [| |done|by rewrite Hlane].
    + apply (table_ok_unique _ _ _ Htab (op_lane_unique true)).
    + intros r Hr. by apply in_lane_key in Hr.
  - intros j Hj. rewrite !peek_operation, Hops. f_equal. rewrite find_updated by done.
    destruct (List.find (fun r => String.eqb (op_operation_id r) j) _) as [r|] eqn:E; [|done]. simpl.
    apply find_some_in in E as [_ <-%String.eqb_eq].
    by destruct (String.eqb_spec (op_operation_id r) i).
Qed.

Definition demo_running : conn Db := after [demo_begin demo_id].
Definition demo_finishing : conn Db := (mark_operation_finishing demo_id false demo_running).2.

Lemma finishing_frees_foreground_witness :
  exists o, List.find (fun r => String.eqb (op_operation_id r) demo_id) (operations (store demo_running))
      = Some o
  /\ peek (get_unfinished_operation (op_scope o)) (store demo_finishing) = Ok None.
Proof.
  eexists. split; [vm_compute; reflexivity|].
  match goal with |- peek (get_unfinished_operation (op_scope ?o)) _ = _ =>
    refine (proj1 (proj2 (finishing_frees_foreground demo_id false demo_running demo_finishing o
      _ _ _ _ _))) end; vm_compute; reflexivity.
Defined.
