(* ===== verification/FinishingRetriesSpec.v ===== *)
(** * Properties of the finishing retries

    What [schedule] records; at most five automatic retries over any run of the
    journal, after which an operator is asked; and a scheduled retry is listed
    as due once its time has come. *)

From S2P Require Import Prelude Regex Json Clock Validation Runtime Sql Schema StorageCapacity Operations.
From S2P Require Import FinishingRetries OperationsSpec AdmissionSpec.

Lemma pair_first {A B} (p : A * B) a : p.1 = a -> p = (a, p.2).
Proof. by destruct p; intros <-. Qed.

(** ** The retry record *)

(** The attempts made and whether a next one is scheduled. *)
Definition retry_state (refs : dict) : result (Z * bool) :=
  retry ← retry_record refs;
  attempts ← attempts_in retry;
  Ok (attempts, match refs_get "next_at" retry with JStr _ => true | _ => false end).

Definition op_at (i : string) (d : Db) : option Operation :=
  List.find (fun r => String.eqb (op_operation_id r) i) (operations d).

(** The retries of an operation whose finishing work was accepted. *)
Definition intent (i : string) (d : Db) : option (result (Z * bool)) :=
  r ← op_at i d; if op_finishing r then Some (retry_state (op_refs r)) else None.

(** An update that leaves the retries of a row alone. *)
Definition same_retries (r r' : Operation) : Prop :=
  op_finishing r = true -> op_finishing r' = true /\ retry_state (op_refs r') = retry_state (op_refs r).

(** Conversions of stored values *)
Lemma py_int_canonical v : py_int (canonical v) = py_int v.
Proof. by destruct v. Qed.

Definition stored_values (d : dict) : dict := map (fun kv => (kv.1, canonical kv.2)) d.

Lemma dict_set_stored k v d : dict_set k (canonical v) (stored_values d) = stored_values (dict_set k v d).
Proof. unfold stored_values. induction d as [|[k' v'] d IH]; simpl; [done|]. destruct (String.eqb k k'); simpl; [done|by rewrite IH]. Qed.

Lemma pairs_dict_stored l : forall d, pairs_dict (map canonical l) (stored_values d)
  = match pairs_dict l d with Ok x => Ok (stored_values x) | Raise e => Raise e end.
Proof.
  induction l as [|v l IH]; intros d; [done|]. destruct v as [| | |s|e|e].
  all: try done.
  - destruct s as [|a [|b [|? ?]]]; try done. cbn [map canonical pairs_dict]. by rewrite <- IH, <- dict_set_stored.
  - destruct e as [|x [|y [|? ?]]]; [done|by destruct x| |by destruct x]. destruct x; try done. cbn [map canonical pairs_dict]. by rewrite <- IH, <- dict_set_stored.
Qed.

(** Storing the references does not change what they say of the retries. *)
Lemma retry_state_stored refs stored : refs_json refs = Ok stored -> retry_state stored = retry_state refs.
Proof.
  intros (_ & Hc & _)%refs_json_ok. cbn [canonical] in Hc. injection Hc as <-.
  unfold retry_state, retry_record. rewrite dict_get_canonical.
  assert (K : forall d d', (forall k, dict_get k d' = canonical <$> dict_get k d) ->
    (attempts ← attempts_in d'; Ok (attempts, match refs_get "next_at" d' with JStr _ => true | _ => false end))
    = (attempts ← attempts_in d; Ok (attempts, match refs_get "next_at" d with JStr _ => true | _ => false end))).
  { intros d d' H. unfold attempts_in, refs_get. rewrite !H.
    assert (E : py_int (default (JInt 0) (canonical <$> dict_get "attempts" d)) = py_int (default (JInt 0) (dict_get "attempts" d)))
      by (destruct (dict_get "attempts" d); [apply py_int_canonical|done]).
    rewrite E. by destruct (dict_get "next_at" d) as [[]|]. }
  destruct (dict_get "finishing_retry" refs) as [[| | | |l|d]|]; try done.
  - cbn [canonical fmap option_fmap option_map]. pose proof (pairs_dict_stored l []) as E. cbn [stored_values map] in E. rewrite E.
    destruct (pairs_dict l []) as [d|]; [|done]. apply K. intros k. apply dict_get_map.
  - apply K. intros k. apply dict_get_canonical.
Qed.
(** ** Calls that leave the retries of an operation alone *)

Section KeepsIntent.
Variable i : string.

Definition keeps_intent (d d' : Db) : Prop :=
  unique_on op_key (operations d) ->
  unique_on op_key (operations d') /\ forall v, intent i d = Some v -> intent i d' = Some v.

#[local] Instance keeps_intent_preorder : PreOrder keeps_intent.
Proof.
  split; [by intros d Hu|]. intros d1 d2 d3 H12 H23 Hu.
  destruct (H12 Hu) as [Hu2 Hk2]. destruct (H23 Hu2) as [Hu3 Hk3]. auto.
Qed.

Lemma intent_frame d d' : operations d' = operations d -> keeps_intent d d'.
Proof. intros He Hu. unfold intent, op_at. by rewrite He. Qed.

Lemma intent_insert d r : table_ok d (operations d ++ [r]) = true ->
  keeps_intent d (with_operations (operations d ++ [r]) d).
Proof.
  intros Hok _. split; [by apply (table_ok_unique d _ op_key Hok); left|].
  intros v. unfold intent, op_at. simpl. destruct (List.find _ (operations d)) as [o|] eqn:E; [|done].
  by rewrite (find_app_left _ _ _ _ E).
Qed.

Lemma intent_update d p f : table_ok d (apply_where p f (operations d)) = true ->
  (forall r, op_operation_id (f r) = op_operation_id r) ->
  (forall r, op_at i d = Some r -> p r = true -> same_retries r (f r)) ->
  keeps_intent d (with_operations (apply_where p f (operations d)) d).
Proof.
  intros Hok Hid Hf _. split; [by apply (table_ok_unique d _ op_key Hok); left|].
  intros v. unfold intent, op_at in *. simpl. rewrite find_updated by (intros; by rewrite Hid).
  destruct (List.find _ (operations d)) as [o|]; [|done]. simpl.
  destruct (op_finishing o) eqn:Ho; [|done]. intros <-.
  destruct (p o) eqn:E; [|by rewrite Ho]. by destruct (Hf o eq_refl E Ho) as [-> ->].
Qed.

#[local] Hint Extern 1 (keeps_intent _ (put_rows _ _)) =>
  first [apply intent_frame; reflexivity
        | apply intent_insert; assumption
        | apply intent_update; [assumption|done|done] ] : evolve.

Lemma intent_update_live j f : (forall r, op_operation_id (f r) = op_operation_id r) ->
  (forall r, same_retries r (f r)) -> evolves keeps_intent (update_live j f).
Proof. intros Hid Hr. unfold update_live. evolve. by apply intent_update. Qed.
#[local] Hint Extern 1 (evolves keeps_intent (update_live _ _)) =>
  apply intent_update_live; done : evolve.

Lemma intent_finish j st e p u n : evolves keeps_intent (_finish_operation j st e p u n).
Proof. unfold _finish_operation. evolve. Qed.
#[local] Hint Resolve intent_finish : evolve.

(** The rows of another operation. *)
Lemma intent_other d j f : i <> j -> table_ok d (apply_where (fun r => String.eqb (op_operation_id r) j) f (operations d)) = true ->
  (forall r, op_operation_id (f r) = op_operation_id r) ->
  keeps_intent d (with_operations (apply_where (fun r => String.eqb (op_operation_id r) j) f (operations d)) d).
Proof.
  intros Hij Hok Hid. apply intent_update; [done|done|]. intros r [_ Hr%String.eqb_eq]%find_some_in Hj%String.eqb_eq.
  congruence.
Qed.

Lemma intent_requeue j k s n a : i <> j -> evolves keeps_intent (requeue_recovery_dispatch j k s n a).
Proof.
  intros Hij. unfold requeue_recovery_dispatch, consume_retry. evolve.
  all: match goal with H : uuid _ = Ok _ |- _ => apply uuid_same in H as -> end.
  all: first [by apply intent_other | by apply intent_frame].
Qed.

Lemma intent_schedule j e : i <> j -> evolves keeps_intent (schedule j e).
Proof. intros Hij. unfold schedule, next_retry. evolve; by apply intent_other. Qed.

(** Checkpoints of the operation have to merge references without a retry record. *)
Definition keeps_record (refs : option dict) (merge : bool) : Prop :=
  match refs with Some given => merge = true /\ dict_get "finishing_retry" given = None | None => True end.

Lemma retry_state_merge old given : dict_get "finishing_retry" given = None ->
  retry_state (dict_merge old given) = retry_state old.
Proof. intros H. unfold retry_state, retry_record. by rewrite dict_get_merge by (by apply dict_get_absent). Qed.

Lemma intent_live d j (n : option string) (f : string -> Operation -> Operation) :
  (forall t r, op_operation_id (f t r) = op_operation_id r) ->
  (forall t r, op_at i d = Some r -> live j r = true -> same_retries r (f t r)) ->
  evolves_from d keeps_intent (t ← now_or n; update_live j (f t)).
Proof.
  intros Hid Hf. apply (from_still keeps_intent); [apply still_now|]. intros t. unfold update_live.
  apply (from_bind keeps_intent); [|intros; evolve]. apply (from_update keeps_intent). intros Hok.
  by apply intent_update; eauto.
Qed.

(** The row a checkpoint merges into is the one it updates. *)
Lemma live_row d r o : unique_on op_key (operations d) ->
  List.find (live i) (operations d) = Some o -> op_at i d = Some r -> r = o.
Proof.
  intros Hu [Ho [Hi _]%andb_true_iff]%find_some_in Hr. symmetry. by apply (operation_row d i r o).
Qed.

Lemma intent_unique {A} d (m : DB A) :
  (unique_on op_key (operations d) -> evolves_from d keeps_intent m) -> evolves_from d keeps_intent m.
Proof. intros H c Hc Hu. by apply (H Hu c Hc Hu). Qed.

Lemma intent_checkpoint j p refs merge g u n : i <> j \/ keeps_record refs merge ->
  evolves keeps_intent (checkpoint_operation j p refs merge g u n).
Proof.
  intros Hk. unfold checkpoint_operation.
  do 5 (apply (evolves_bind_lift keeps_intent); intros ? _).
  apply (evolves_bind keeps_intent); [|intros; evolve].
  apply (evolves_transaction keeps_intent). apply evolves_of_from. intros d.
  apply intent_unique. intros Hu.
  destruct refs as [given|].
  - apply (from_reads keeps_intent); [reads|]. intros encoded Henc.
    apply intent_live; [done|]. intros t r Hr [Hj _]%andb_true_iff. apply String.eqb_eq in Hj.
    pose proof (find_some_in _ _ _ Hr) as [_ Hi%String.eqb_eq]. rewrite Hi in Hj. subst j.
    destruct Hk as [|[-> Hg]]; [done|].
    rewrite peek_bind, peek_bind, peek_fetchone in Henc by reads. simpl in Henc.
    destruct (List.find (live i) (operations d)) as [o|] eqn:Er; [|done].
    rewrite (live_row d r o Hu Er Hr). unfold peek, mbind, M_bind, lift in Henc. simpl in Henc.
    destruct (refs_json _) as [stored|] eqn:Es; [|done]. injection Henc as <-. simpl.
    intros Hfin. split; [done|]. etrans; [exact (retry_state_stored _ _ Es)|exact (retry_state_merge _ _ Hg)].
  - apply (from_reads keeps_intent); [reads|]. intros encoded [= <-]. by apply intent_live.
Qed.

Definition leaves_retries (k : journal_call) : Prop :=
  match k with
  | Checkpoint j _ refs merge _ _ _ => i <> j \/ keeps_record refs merge
  | Requeue j _ _ _ _ | Retry j _ => i <> j
  | _ => True
  end.

Lemma call_keeps_intent k : leaves_retries k -> evolves keeps_intent (run_call k).
Proof.
  destruct k; intros Hk; simpl; try apply (evolves_discard keeps_intent).
  all: try (unfold claim_idempotency_request, complete_idempotency_request,
    enqueue_operation_dispatch, set_operation_dispatch_status, mark_operation_finishing,
    begin_operation, renew_operation_deadline, mark_recovery_required,
    record_finishing_failure, mark_succeeded, mark_failed).
  all: first [by apply intent_requeue | by apply intent_schedule | by apply intent_checkpoint | evolve].
  all: first [by apply intent_frame | by apply intent_insert | by apply intent_update].
Qed.
End KeepsIntent.

(** ** Calls that spend or schedule a retry *)

Definition is_text (v : json) : bool := match v with JStr _ => true | _ => false end.

Lemma retry_state_set refs retry v :
  retry_state (dict_set "finishing_retry" (JObj (dict_set "next_at" v retry)) refs)
  = (z ← attempts_in retry; Ok (z, is_text v)).
Proof.
  unfold retry_state, retry_record, attempts_in, refs_get.
  rewrite dict_get_set_eq. unfold mbind at 1, result_bind at 1.
  rewrite dict_get_set_eq, dict_get_set_ne by done. done.
Qed.

Lemma intent_row i d v : intent i d = Some v -> exists r, op_at i d = Some r /\ op_finishing r = true
  /\ retry_state (op_refs r) = v.
Proof. unfold intent. destruct (op_at i d) as [r|]; simpl; [|done]. destruct (op_finishing r) eqn:E; naive_solver. Qed.

Lemma retry_state_ok refs z b : retry_state refs = Ok (z, b) ->
  exists retry, retry_record refs = Ok retry /\ attempts_in retry = Ok z /\ is_text (refs_get "next_at" retry) = b.
Proof.
  unfold retry_state. destruct (retry_record refs) as [retry|]; simpl; [|done].
  destruct (attempts_in retry) as [z'|] eqn:E; simpl; [|done]. intros [= -> <-]. by exists retry.
Qed.

(** The UPDATE of one operation's row. *)
Lemma intent_written i d f refs : 
  (forall r, op_operation_id (f r) = op_operation_id r) -> (forall r, op_refs (f r) = refs) ->
  (forall r, op_finishing (f r) = op_finishing r) -> is_Some (intent i d) ->
  intent i (with_operations (apply_where (fun r => String.eqb (op_operation_id r) i) f (operations d)) d)
  = Some (retry_state refs).
Proof.
  intros Hid Hr Hf [v (r & Hrow & Hfin & _)%intent_row]. unfold intent, op_at in *. simpl.
  rewrite find_updated by (intros; by rewrite Hid). rewrite Hrow. simpl.
  apply find_some_in in Hrow as [_ ->]. by rewrite Hf, Hfin, Hr.
Qed.

Lemma consume_intent op n a c retry c' z b :
  retry_state (op_refs op) = Ok (z, b) -> consume_retry op a n c = (Ok retry, c') ->
  (a = true -> b = true) /\ store c' = store c /\
  retry_state (dict_set "finishing_retry" (JObj retry) (op_refs op)) = Ok (if a then z + 1 else z, false).
Proof.
  intros (old & Hrec & Hatt & Hnext)%retry_state_ok H. unfold consume_retry in H.
  pose proof (still_consume op a n c) as Hst. unfold consume_retry in Hst. rewrite H in Hst. simpl in Hst.
  rewrite Hrec in H. rewrite (bind_eq (lift (Ok old)) _ c old c eq_refl) in H.
  apply bind_ok in H as (new & c1 & Hnew & [= <- _]).
  rewrite retry_state_set. destruct a.
  - destruct (refs_get "next_at" old) as [| | |next_at| |]; try done.
    apply bind_ok in Hnew as (present & c2 & _ & Hnew). destruct (str_ltb _ _); [done|].
    unfold attempts_in in Hatt. rewrite Hatt in Hnew.
    rewrite (bind_eq (lift (Ok z)) _ c2 z c2 eq_refl) in Hnew. injection Hnew as <- _.
    split_and!; [by simpl in Hnext|done|]. unfold attempts_in. by rewrite dict_get_set_eq.
  - injection Hnew as <- _. split_and!; [done|done|]. by rewrite Hatt.
Qed.

Lemma requeue_intent i k s n a c dp c' z b :
  requeue_recovery_dispatch i k s n a c = (Ok dp, c') -> intent i (store c) = Some (Ok (z, b)) ->
  (a = true -> b = true) /\ intent i (store c') = Some (Ok (if a then z + 1 else z, false)).
Proof.
  intros H Hi. destruct (intent_row _ _ _ Hi) as (op & Hop & Hfin & Hst).
  unfold requeue_recovery_dispatch in H.
  apply bind_ok in H as (i' & c1 & [->%uuid_same ->]%lift_ok & H).
  do 2 (apply bind_ok in H as (? & ? & [_ ->]%lift_ok & H)).
  apply bind_ok in H as (u & c2 & (c3 & H & -> & _)%transaction_ok & Hlast).
  assert (store c' = store c3) as ->.
  { apply reads_ok in Hlast as [_ ->]; [done|apply reads_bind; auto with reads]. }
  apply bind_ok in H as (od & c4 & [_ ->]%reads_ok & H); [|auto with reads].
  apply bind_ok in H as (oo & c5 & [Hoo ->]%reads_ok & H); [|auto with reads].
  rewrite peek_operation in Hoo. simpl in Hoo. unfold op_at in Hop. rewrite Hop in Hoo. injection Hoo as <-.
  destruct od as [dq|]; [|done]. destruct (negb _); [done|].
  apply bind_ok in H as (? & c6 & Hw & H). rewrite Hfin in Hw.
  apply bind_ok in Hw as (retry & c7 & Hretry & Hw).
  eapply consume_intent in Hretry as (Hab & Hc7 & Hset); [|exact Hst]. split; [exact Hab|].
  apply bind_ok in Hw as (refs & c8 & [Hrefs ->]%lift_ok & Hw).
  apply bind_ok in Hw as (cnt & c9 & (-> & _)%update_ok & [= _ <-]).
  apply bind_ok in H as (t & c10 & Ht & H). apply bind_ok in H as (cnt' & c11 & (-> & -> & _)%update_ok & H).
  destruct (negb _); [done|]. injection H as _ <-.
  apply now_or_inv in Ht as [Ht _].
  rewrite <- Hset, <- (retry_state_stored _ _ Hrefs).
  cbn [store with_store rows put_rows operations_table dispatches_table]. rewrite Ht. cbn [store with_store rows put_rows operations_table]. rewrite Hc7. cbn [store with_transaction].
  by apply (intent_written i (store c) (set_refs refs)).
Qed.

(** What a run of [schedule] that returns did to the row it names. *)
Lemma schedule_returns i e c b c' :
  schedule i e c = (Ok b, c') ->
  (store c' = store c /\ b = false /\
     forall r, op_at i (store c) = Some r -> op_finishing r = false \/ unfinished (op_st r) = false)
  \/ exists r retry z next refs now,
    op_at i (store c) = Some r /\ op_finishing r = true /\ unfinished (op_st r) = true
    /\ retry_record (op_refs r) = Ok retry /\ attempts_in retry = Ok z
    /\ refs_json (dict_set "finishing_retry" (JObj (retried z next retry)) (op_refs r)) = Ok refs
    /\ store c' = with_operations (apply_where (fun r => String.eqb (op_operation_id r) i)
         (set_retry (if b then op_running else op_recovery_required) refs (summary_of e) now)
         (operations (store c))) (store c)
    /\ b = (z <? 5)
    /\ next = (if b then match delay_at z with Ok s => Some (utc_text_micro (clock c (ticks c) + s * second)) | _ => None end
               else None)
    /\ (b = true -> is_ok (delay_at z) = true).
Proof.
  intros (c1 & H & -> & _)%transaction_ok.
  apply bind_ok in H as (o & c2 & [Ho ->]%reads_ok & H); [|auto with reads].
  rewrite peek_operation in Ho. simpl in Ho. injection Ho as Ho. fold (op_at i (store c)) in Ho. subst o.
  destruct (op_at i (store c)) as [r|] eqn:Hr; [|left; by injection H as <- <-].
  destruct (negb _ || negb _) eqn:Hg.
  { left. injection H as <- <-. split_and!; [done|done|]. intros ? [= <-].
    apply orb_true_iff in Hg as [?%negb_true_iff|?%negb_true_iff]; auto. }
  apply orb_false_iff in Hg as [Hfin%negb_false_iff Hun%negb_false_iff]. right.
  apply bind_ok in H as (retry & c2 & [Hretry ->]%lift_ok & H).
  apply bind_ok in H as (z & c2 & [Hz ->]%lift_ok & H).
  apply bind_ok in H as (next & c3 & Hnext & H).
  apply bind_ok in H as (refs & c4 & [Hrefs ->]%lift_ok & H). cbv zeta in H.
  apply bind_ok in H as (now & c5 & Hnow & H).
  apply bind_ok in H as (cnt & c6 & (-> & _)%update_ok & [= <- <-]).
  assert (Hs5 : store c5 = store c).
  { injection Hnow as _ <-. simpl. assert (Hst : evolves eq (next_retry z)) by (unfold next_retry; evolve).
    specialize (Hst (with_transaction true c)). rewrite Hnext in Hst. exact (eq_sym Hst). }
  exists r, retry, z, next, refs, now. cbn [store with_store with_transaction rows put_rows operations_table].
  rewrite Hs5. change (Z.of_nat (length RETRY_DELAYS)) with 5 in *.
  unfold next_retry in Hnext. change (Z.of_nat (length RETRY_DELAYS)) with 5 in Hnext.
  destruct (z <? 5).
  - apply bind_ok in Hnext as (t & c7 & [= <- <-] & Hnext).
    apply bind_ok in Hnext as (s & c8 & [Hs ->]%lift_ok & Hnext). rewrite Hs.
    apply bind_ok in Hnext as (l & c9 & [Hl ->]%lift_ok & [= <- _]). cbn [clock ticks with_transaction] in Hl.
    unfold later in Hl. destruct (_ <=? _); [done|]. injection Hl as <-. done.
  - injection Hnext as <- _. done.
Qed.

Lemma schedule_intent i e c b c' z b0 :
  schedule i e c = (Ok b, c') -> intent i (store c) = Some (Ok (z, b0)) ->
  intent i (store c') = Some (Ok (z, b0)) \/ (intent i (store c') = Some (Ok (z, b)) /\ b = (z <? 5)).
Proof.
  intros [(-> & _)|(r & retry & z' & next & refs & now & Hr & Hfin & _ & Hrec & Hz & Hrefs & -> & Hb & Hnext & Hok)]%schedule_returns Hi;
    [by left|]. right. destruct (intent_row _ _ _ Hi) as (r' & Hr' & _ & Hst).
  rewrite Hr in Hr'. injection Hr' as <-. apply retry_state_ok in Hst as (retry' & Hrec' & Hz' & _).
  rewrite Hrec in Hrec'. injection Hrec' as <-. rewrite Hz in Hz'. injection Hz' as ->. split; [|done].
  rewrite (intent_written i (store c) _ refs) by (done || by rewrite Hi).
  rewrite (retry_state_stored _ _ Hrefs). unfold retried. rewrite retry_state_set.
  unfold attempts_in. rewrite dict_get_set_eq. simpl. do 3 f_equal. rewrite Hnext.
  destruct b; [|done]. specialize (Hok eq_refl). by destruct (delay_at z).
Qed.

(** ** Runs of the journal *)

(** Work on the operation leaves its retry record to this module. *)
Definition allowed (i : string) (k : journal_call) : Prop :=
  match k with Checkpoint j _ refs merge _ _ _ => i <> j \/ keeps_record refs merge | _ => True end.

Definition spends (i : string) (k : journal_call) (c : conn Db) : nat :=
  match k with
  | Requeue j _ _ _ true => if String.eqb j i && is_ok (run_call k c).1 then 1 else 0
  | _ => 0
  end.

(** Runs from a database, with the automatic retries of the operation they made. *)
Inductive retry_run (i : string) (d : Db) : nat -> Db -> Prop :=
  | retry_none : retry_run i d 0 d
  | retry_more n c k : retry_run i d n (store c) -> allowed i k ->
      retry_run i d (n + spends i k c) (store (run_call k c).2).

Definition retries_in_bounds (p : Z * bool) : Prop := p.1 <= 5 /\ (p.2 = true -> p.1 < 5).

Lemma discard_ok {A} (m : DB A) c : is_ok (discard m c).1 = is_ok (m c).1 /\ store (discard m c).2 = store (m c).2.
Proof. unfold discard, mbind, M_bind. by destruct (m c) as [[]]. Qed.

Lemma step_in_bounds i k c z b :
  allowed i k -> unique_on op_key (operations (store c)) ->
  intent i (store c) = Some (Ok (z, b)) -> retries_in_bounds (z, b) ->
  exists b', intent i (store (run_call k c).2) = Some (Ok (z + Z.of_nat (spends i k c), b'))
    /\ retries_in_bounds (z + Z.of_nat (spends i k c), b').
Proof.
  intros Hk Hu Hi Hb.
  assert (Hsame : forall d, d = store c -> spends i k c = 0%nat -> exists b', intent i d =
    Some (Ok (z + Z.of_nat (spends i k c), b')) /\ retries_in_bounds (z + Z.of_nat (spends i k c), b')).
  { intros d -> ->. exists b. by rewrite Z.add_0_r. }
  assert (Hleave : leaves_retries i k -> spends i k c = 0%nat -> exists b', intent i (store (run_call k c).2) =
    Some (Ok (z + Z.of_nat (spends i k c), b')) /\ retries_in_bounds (z + Z.of_nat (spends i k c), b')).
  { intros Hl ->. exists b. rewrite Z.add_0_r. split; [|done]. by apply (call_keeps_intent i k Hl c Hu). }
  destruct k as [| | |j k s n a| | | | | | | | | |j e]; try by apply Hleave.
  - destruct (decide (i = j)) as [<-|Hij].
    2: { apply Hleave; [done|]. simpl. destruct a; [|done]. by destruct (String.eqb_spec j i). }
    unfold spends in *. simpl in *. rewrite eqb_self in *.
    destruct (discard_ok (requeue_recovery_dispatch i k s n a) c) as [Hok Hst]. rewrite Hok in *.
    destruct (requeue_recovery_dispatch i k s n a c) as [[dp|e] c'] eqn:E; simpl in *; rewrite Hst.
    + destruct (requeue_intent _ _ _ _ _ _ _ _ _ _ E Hi) as [Hab ->]. exists false. destruct Hb as [Hb1 Hb2].
      destruct a; simpl in *; rewrite ?Z.add_0_r; (split; [done|]); split; simpl; try done.
      specialize (Hb2 (Hab eq_refl)). lia.
    + apply Hsame; [|by destruct a]. by apply (atomic_requeue i k s n a c e c').
  - destruct (decide (i = j)) as [<-|Hij]; [|by apply Hleave]. simpl in *.
    destruct (discard_ok (schedule i e) c) as [_ Hst]. rewrite Hst.
    destruct (schedule i e c) as [[b'|er] c'] eqn:E; simpl.
    + destruct (schedule_intent _ _ _ _ _ _ _ E Hi) as [H|[H ->]]; rewrite H, Z.add_0_r; [by exists b|].
      eexists; split; [done|]. destruct Hb. split; [done|]. simpl. apply Z.ltb_lt.
    + apply Hsame; [|done]. by apply (atomic_schedule i e c er c').
Qed.

(** C28. Automatic retries end: however the calls of the journal that do not
    overwrite the retry record are ordered and whatever the clock reads, from a
    record within its bounds an accepted operation is re-dispatched
    automatically at most as often as there are delays left, its counter
    records each of them, and none is scheduled after the last. *)
Theorem automatic_retries_bounded i d n d' z b :
  unique_on op_key (operations d) -> intent i d = Some (Ok (z, b)) -> retries_in_bounds (z, b) ->
  retry_run i d n d' ->
  z + Z.of_nat n <= Z.of_nat (length RETRY_DELAYS)
  /\ exists b', intent i d' = Some (Ok (z + Z.of_nat n, b')) /\ (b' = true -> z + Z.of_nat n < Z.of_nat (length RETRY_DELAYS)).
Proof.
  intros Hu Hi Hb Hrun. change (Z.of_nat (length RETRY_DELAYS)) with 5.
  assert (H : unique_on op_key (operations d') /\ exists b', intent i d' = Some (Ok (z + Z.of_nat n, b'))
    /\ retries_in_bounds (z + Z.of_nat n, b')).
  { induction Hrun as [|n c k Hrun IH Hk]; [split; [done|]; exists b; by rewrite Z.add_0_r|].
    destruct IH as (Hu' & b' & Hi' & Hb'). split; [by apply (call_keeps_outcomes k c Hu')|].
    rewrite Nat2Z.inj_add, Z.add_assoc. by apply (step_in_bounds i k c _ b'). }
  destruct H as (_ & b' & Hi' & [Hb1 Hb2]). split; [done|]. by exists b'.
Qed.

Definition demo_accepted : list journal_call :=
  [Claim demo_id demo_digest None; Enqueue demo_id "app.deploy" demo_scope None; demo_begin demo_id;
   MarkFinishing demo_id].

(** A failed attempt, and the automatic retry a minute later. *)
Definition demo_retry : list journal_call :=
  [Retry demo_id (Text "worker stopped"); SetDispatch demo_id "recovery_required" None None;
   Requeue demo_id "app.deploy" demo_scope (Some "2025-01-01T00:10:00Z") true].

Lemma automatic_retries_bounded_witness :
  let c := after demo_accepted in
  let c' := after (demo_accepted ++ demo_retry) in
  intent demo_id (store c) = Some (Ok (0, false))
  /\ retry_run demo_id (store c) 1 (store c')
  /\ 0 + Z.of_nat 1 <= Z.of_nat (length RETRY_DELAYS).
Proof.
  intros c c'.
  assert (Hi : intent demo_id (store c) = Some (Ok (0, false))) by (vm_compute; reflexivity).
  assert (Hrun : retry_run demo_id (store c) 1 (store c')).
  { assert (Hs : (0 + spends demo_id (Retry demo_id (Text "worker stopped")) c
      + spends demo_id (SetDispatch demo_id "recovery_required" None None) (after (demo_accepted ++ firstn 1 demo_retry))
      + spends demo_id (Requeue demo_id "app.deploy" demo_scope (Some "2025-01-01T00:10:00Z") true)
          (after (demo_accepted ++ firstn 2 demo_retry)))%nat = 1%nat) by (vm_compute; reflexivity).
    rewrite <- Hs. unfold c', after. rewrite fold_left_app. apply retry_more; [|exact I].
    apply (retry_more _ _ _ (after (demo_accepted ++ firstn 1 demo_retry))); [|exact I].
    unfold after. rewrite fold_left_app. apply (retry_more _ _ _ c); [|exact I]. apply retry_none. }
  split; [exact Hi|]. split; [exact Hrun|].
  refine (proj1 (automatic_retries_bounded demo_id (store c) 1 (store c') 0 false _ Hi _ Hrun)).
  - apply (bool_decide_eq_true_1 (unique_on op_key (operations (store c)))). vm_compute. reflexivity.
  - split; [done|by intros [=]].
Defined.

(** ** A scheduled retry comes due *)

Lemma reads_reread l : reads (reread l).
Proof. induction l; simpl; reads. Qed.
#[local] Hint Resolve reads_reread : reads.

Lemma reread_rows l d : unique_on op_key (operations d) -> (forall r, In r l -> In r (operations d)) ->
  peek (reread l) d = Ok l.
Proof.
  intros Hu. induction l as [|r l IH]; intros Hin; [done|]. simpl.
  rewrite peek_bind, peek_operation by auto with reads.
  assert (List.find (fun r0 => String.eqb (op_operation_id r0) (op_operation_id r)) (operations d) = Some r) as ->.
  { apply (unique_find op_key _ _ _ [op_operation_id r]); [done| |apply Hin; by left|apply eqb_self].
    intros r' Hr'%String.eqb_eq. unfold op_key, pk. by rewrite Hr'. }
  cbn [mbind result_bind]. rewrite peek_bind by auto with reads. rewrite IH by (intros; apply Hin; by right). done.
Qed.

Lemma due_lists c : unique_on op_key (operations (store c)) ->
  (length (List.filter (retry_due (store c) (utc_text (clock c (ticks c)))) (operations (store c))) <= DUE_LIMIT)%nat ->
  exists l c', due c = (Ok l, c') /\ forall r, In r l <->
    In r (operations (store c)) /\ retry_due (store c) (utc_text (clock c (ticks c))) r = true.
Proof.
  intros Hu Hl. unfold due. set (now := utc_text (clock c (ticks c))) in *.
  rewrite (bind_eq read_clock _ c now (tick c) eq_refl).
  rewrite (bind_eq (gets (fun c => due_rows (store c) now)) _ (tick c) (due_rows (store c) now) (tick c) eq_refl).
  assert (Hiff : forall r, In r (due_rows (store c) now) <-> In r (operations (store c)) /\ retry_due (store c) now r = true).
  { intros r. unfold due_rows. set (rows := List.filter _ _) in *.
    rewrite take_ge.
    - rewrite <- filter_In. fold rows. rewrite <- !list_elem_of_In. by rewrite sort_by_perm.
    - by rewrite sort_by_perm. }
  exists (due_rows (store c) now). eexists. split; [|exact Hiff].
  rewrite (surjective_pairing (reread _ (tick c))). f_equal.
  rewrite reads_result by auto with reads. apply reread_rows; [done|].
  intros r Hr. by apply Hiff in Hr as [? _].
Qed.

(** C29. A scheduled retry comes due: when [schedule] returned true for an
    operation, and later its row is unchanged, its dispatch waits for recovery
    and the clock has reached the start plus the delay, [due] lists it, if not
    more than [DUE_LIMIT] operations are due. *)
Theorem scheduled_retry_comes_due i e c c1 later z r seconds :
  schedule i e c = (Ok true, c1) ->
  op_at i (store c) = Some r -> retry_state (op_refs r) = Ok z -> delay_at z.1 = Ok seconds ->
  (* the same row, later *)
  unique_on op_key (operations (store later)) ->
  op_at i (store later) = op_at i (store c1) ->
  existsb (fun q => String.eqb (dp_operation_id q) i && bool_decide (dp_st q = d_recovery_required))
    (operation_dispatches (store later)) = true ->
  let start := clock c (ticks c) + seconds * second in
  let now := clock later (ticks later) in
  datetime start -> datetime now -> start <= now ->
  (length (List.filter (retry_due (store later) (utc_text now)) (operations (store later))) <= DUE_LIMIT)%nat ->
  exists l c2 r', due later = (Ok l, c2) /\ In r' l /\ op_operation_id r' = i.
Proof.
  intros H Hr Hst Hdelay Hu Hsame Hdp start now Hd1 Hd2 Hle Hlim.
  apply schedule_returns in H as [(_ & [=] & _)|(r' & retry & z' & next & refs & t & Hr' & Hfin & _ & Hrec & Hz & Hrefs & Hc1 & _ & Hnext & _)].
  rewrite Hr in Hr'. injection Hr' as <-. destruct z as [z b].
  apply retry_state_ok in Hst as (retry' & Hrec' & Hz' & _). rewrite Hrec in Hrec'. injection Hrec' as <-.
  rewrite Hz in Hz'. injection Hz' as ->. simpl in Hdelay. rewrite Hdelay in Hnext. fold start in Hnext.
  set (row := set_retry op_running refs (summary_of e) t r).
  assert (Hid : op_operation_id r = i) by (apply find_some_in in Hr as [_ ?%String.eqb_eq]; done).
  assert (Hrow : op_at i (store later) = Some row).
  { rewrite Hsame, Hc1. unfold op_at in *. simpl. rewrite find_updated by done. rewrite Hr. simpl.
    by rewrite Hid, eqb_self. }
  destruct (due_lists later Hu Hlim) as (l & c2 & Hdue & Hl). exists l, c2, row.
  split; [done|]. split; [|done]. apply Hl. split; [by apply find_some_in in Hrow as [? _]|].
  unfold retry_due. simpl. rewrite Hfin, Hid, Hdp. simpl.
  apply refs_json_ok in Hrefs as (_ & Hcan & _). cbn [canonical] in Hcan. injection Hcan as <-.
  unfold extract_next_at, sub_dict. cbn [op_refs row set_retry].
  rewrite dict_get_canonical, dict_get_set_eq. cbn [fmap option_fmap option_map canonical].
  unfold refs_get. rewrite dict_get_canonical. unfold retried. rewrite dict_get_set_eq, Hnext. simpl.
  unfold str_leb, utc_text, utc_text_micro. rewrite isoformat_order by done. simpl.
  unfold lexb. rewrite andb_false_r, orb_false_r. apply negb_true_iff, Z.ltb_ge, Z.div_le_mono; done.
Qed.

(** Ten minutes after the first failure. *)
Definition demo_later : conn Db :=
  let c := after (demo_accepted ++ firstn 2 demo_retry) in
  Conn (store c) false (fun _ => days_before_year 2025 * day + 600 * second) (uuids c) (ticks c).

Lemma scheduled_retry_comes_due_witness :
  exists l c2 r', due demo_later = (Ok l, c2) /\ In r' l /\ op_operation_id r' = demo_id.
Proof.
  set (c := after demo_accepted).
  assert (exists r, op_at demo_id (store c) = Some r) as [r Hr] by (eexists; vm_compute; reflexivity).
  apply (scheduled_retry_comes_due demo_id (Text "worker stopped") c
    (schedule demo_id (Text "worker stopped") c).2 demo_later (0, false) r 60).
  - apply pair_first. vm_compute. reflexivity.
  - exact Hr.
  - assert (Hs : (fun r => retry_state (op_refs r)) <$> op_at demo_id (store c) = Some (Ok (0, false)))
      by (vm_compute; reflexivity).
    rewrite Hr in Hs. by injection Hs.
  - reflexivity.
  - apply (bool_decide_eq_true_1 (unique_on op_key (operations (store demo_later)))). vm_compute. reflexivity.
  - vm_compute. reflexivity.
  - vm_compute. reflexivity.
  - split; vm_compute; done.
  - split; vm_compute; done.
  - vm_compute. done.
  - apply Nat.leb_le. vm_compute. reflexivity.
Defined.

(** Giving up: [schedule] on an accepted, unfinished operation whose delays
    are used up asks for an operator, schedules nothing and keeps the count of
    attempts; the retry loop does not list the operation again. *)
Theorem exhausted_retries_ask_operator i e c b c1 r z0 :
  schedule i e c = (Ok b, c1) -> unique_on op_key (operations (store c)) ->
  op_at i (store c) = Some r -> op_finishing r = true -> unfinished (op_st r) = true ->
  retry_state (op_refs r) = Ok z0 -> Z.of_nat (length RETRY_DELAYS) <= z0.1 ->
  b = false
  /\ exists r', op_at i (store c1) = Some r' /\ op_st r' = op_recovery_required
     /\ op_safe_error r' = Some (summary_of e) /\ retry_state (op_refs r') = Ok (z0.1, false)
     /\ forall d now, op_at i d = Some r' -> ~ In r' (due_rows d now).
Proof.
  intros H Hu Hr Hfin Hun Hst Hz0. destruct z0 as [z b0].
  apply schedule_returns in H as [(_ & _ & H)|(r' & retry & z' & next & refs & t & Hr' & _ & _ & Hrec & Hz & Hrefs & Hc1 & Hb & Hnext & _)].
  { destruct (H r Hr); congruence. }
  rewrite Hr in Hr'. injection Hr' as <-.
  apply retry_state_ok in Hst as (retry' & Hrec' & Hz' & _). rewrite Hrec in Hrec'. injection Hrec' as <-.
  rewrite Hz in Hz'. injection Hz' as ->. change (5 <= z) in Hz0.
  assert (b = false) as -> by (rewrite Hb; apply Z.ltb_ge; lia). split; [done|].
  assert (Hid : op_operation_id r = i) by (apply find_some_in in Hr as [_ ?%String.eqb_eq]; done).
  exists (set_retry op_recovery_required refs (summary_of e) t r). split_and!; try done.
  - rewrite Hc1. unfold op_at in *. simpl. rewrite find_updated by done. rewrite Hr. simpl. by rewrite Hid, eqb_self.
  - simpl. rewrite (retry_state_stored _ _ Hrefs). unfold retried. rewrite retry_state_set, Hnext.
    unfold attempts_in. by rewrite dict_get_set_eq.
  - intros d now _ Hin. unfold due_rows in Hin. apply list_elem_of_In, elem_of_take in Hin as (k & Hin & _).
    apply list_elem_of_lookup_2 in Hin. rewrite sort_by_perm in Hin. apply list_elem_of_In in Hin.
    apply filter_In in Hin as [_ Hin]. unfold retry_due in Hin. simpl in Hin. by rewrite andb_false_r in Hin.
Qed.

Lemma exhausted_retries_ask_operator_witness :
  let c := after (demo_accepted ++ concat (replicate 5 demo_retry)) in
  (schedule demo_id (Text "worker stopped") c).1 = Ok false
  /\ exists r', op_at demo_id (store (schedule demo_id (Text "worker stopped") c).2) = Some r'
       /\ op_st r' = op_recovery_required.
Proof.
  intros c.
  assert (Hb : (schedule demo_id (Text "worker stopped") c).1 = Ok false) by (vm_compute; reflexivity).
  split; [exact Hb|].
  assert (Hr : exists r, op_at demo_id (store c) = Some r /\ op_finishing r = true /\ unfinished (op_st r) = true
    /\ retry_state (op_refs r) = Ok (5, false)) by (eexists; vm_compute; split_and!; reflexivity).
  destruct Hr as (r & Hr & Hf & Hun & Hst).
  assert (Hu : unique_on op_key (operations (store c)))
    by (apply (bool_decide_eq_true_1 (unique_on op_key (operations (store c)))); vm_compute; reflexivity).
  destruct (exhausted_retries_ask_operator demo_id (Text "worker stopped") c false
    (schedule demo_id (Text "worker stopped") c).2 r (5, false) (pair_first _ _ Hb) Hu Hr Hf Hun Hst)
    as (_ & r' & Hr' & Hst' & _); [by simpl|].
  exists r'. split; [exact Hr'|exact Hst'].
Defined.
