(* ===== verification/Executor.v ===== *)
(** * The operation executor (src/openstack_platform/controller/async_operations.py)

    Accepted work runs on worker threads behind a bounded semaphore.  A worker
    handles an item by a sequence of database calls, each one transaction;
    other threads run between any two of them.  [code] is such a sequence: a
    tree of calls whose continuation depends on their outcome.  [step] lets any
    thread take its next call, and submissions, shutdown and the rest of the
    controller happen in between.

    What a submission does under the state lock is one step: the lock excludes
    other submissions and [close], and a worker sees the item only once it is
    queued.  [task_done] is counted with the slot it follows. *)

From S2P Require Import Prelude Regex Json Clock Validation Runtime Sql Schema StorageCapacity Operations.
From S2P Require Import FinishingRetries.

(** ** Sequences of database calls *)

Inductive code (A : Type) : Type :=
  | Return (r : result A)
  | Call {B : Type} (m : DB B) (next : result B -> code A)
  | Release (next : code A).
Arguments Return {A} r.
Arguments Call {A B} m next.
Arguments Release {A} next.

(** Go on with the outcome, value or exception. *)
Fixpoint after_code {A B} (p : code A) (f : result A -> code B) : code B :=
  match p with
  | Return r => f r
  | Call m next => Call m (fun r => after_code (next r) f)
  | Release next => Release (after_code next f)
  end.

#[export] Instance code_ret : MRet code := fun A a => Return (Ok a).
#[export] Instance code_bind : MBind code := fun A B f p =>
  after_code p (fun r => match r with Ok a => f a | Raise e => Return (Raise e) end).

Definition call {A} (m : DB A) : code A := Call m Return.

Definition try_except {A} (p : code A) (handler : error -> code A) : code A :=
  after_code p (fun r => match r with Ok a => Return (Ok a) | Raise e => handler e end).

Definition try_finally {A} (p : code A) (cleanup : code unit) : code A :=
  after_code p (fun r =>
    after_code cleanup (fun r' => match r' with Ok _ => Return r | Raise e => Return (Raise e) end)).

(** ** What a worker does with an item *)

Definition unfinished_error (e : error) : bool :=
  match e with UnfinishedOperationError _ _ _ => true | _ => false end.

(** The operation of a dispatch that has none yet. *)
Definition begin_for (id phase : string) : code unit :=
  dispatch ← call (get_operation_dispatch id);
  match dispatch with
  | None => Return (Raise AssertionError)
  | Some d =>
      deadline ← call read_clock;
      _ ← call (begin_operation id (dp_kind d) (dp_scope d) phase deadline [] None);
      mret tt
  end.

Definition item_body (id : string) (work : code unit) : code unit :=
  _ ← call (set_operation_dispatch_status id "running" None None);
  _ ← work;
  operation ← call (get_operation id);
  match operation with
  | Some _ => mret tt
  | None =>
      _ ← begin_for id "accepted";
      _ ← call (mark_succeeded id "not_required" None);
      mret tt
  end.

(** [begin_operation] and [mark_failed] inside [try ... except UnfinishedOperationError]. *)
Definition reject (id : string) (d : OperationDispatch) (e : error) : code unit :=
  try_except (
    deadline ← call read_clock;
    _ ← call (begin_operation id (dp_kind d) (dp_scope d) "rejected" deadline [] None);
    _ ← call (mark_failed id (Exn (error_name e)) "not_required" None);
    mret tt)
  (fun e' => if unfinished_error e' then mret tt else Return (Raise e')).

Definition item_failed (id : string) (e : error) : code unit :=
  operation ← call (get_operation id);
  match operation with
  | None =>
      dispatch ← call (get_operation_dispatch id);
      match dispatch with
      | None => Return (Raise AssertionError)
      | Some d => reject id d e
      end
  | Some op =>
      if bool_decide (op_st op = op_running) then
        if op_finishing op then
          _ ← call (record_finishing_failure id (Exn (error_name e))); mret tt
        else _ ← call (mark_recovery_required id (Exn (error_name e)) None None); mret tt
      else mret tt
  end.

Definition or_text (o : option string) (s : string) : string :=
  match o with Some (String a t) => String a t | _ => s end.

Definition finishing_pending (o : option Operation) : bool :=
  match o with Some op => op_finishing op && unfinished (op_st op) | None => false end.

(** The outer [finally] block, up to the inner one. *)
Definition settle_item (id : string) : code unit :=
  operation ← call (get_operation id);
  _ ← (match operation with
       | Some op =>
           if finishing_pending operation then
             _ ← call (schedule id (Text (or_text (op_safe_error op) "accepted finishing work was interrupted")));
             mret tt
           else mret tt
       | None => mret tt
       end : code unit);
  let status :=
    if finishing_pending operation
       || match operation with Some op => bool_decide (op_st op = op_recovery_required) | None => false end
    then "recovery_required" else "finished" in
  _ ← call (set_operation_dispatch_status id status None None);
  mret tt.

(** One iteration of [_run]. *)
Definition run_item (id : string) (work : code unit) : code unit :=
  try_finally (try_except (item_body id work) (item_failed id))
    (try_finally (settle_item id) (Release (mret tt))).

(** ** The executor *)

Inductive thread :=
  | Idle
  | Busy (id : string) (p : code unit)
  | Stopped
  | Dead (id : string).

Record Executor := {
  ex_db : conn Db;
  ex_capacity : nat;
  ex_free : nat;
  ex_queue : list (option (string * code unit));
  ex_threads : list thread;
  ex_closed : bool;
}.

Definition with_ex_db (c : conn Db) (x : Executor) : Executor := {|
  ex_db := c; ex_capacity := ex_capacity x; ex_free := ex_free x; ex_queue := ex_queue x;
  ex_threads := ex_threads x; ex_closed := ex_closed x |}.
Definition with_free (n : nat) (x : Executor) : Executor := {|
  ex_db := ex_db x; ex_capacity := ex_capacity x; ex_free := n; ex_queue := ex_queue x;
  ex_threads := ex_threads x; ex_closed := ex_closed x |}.
Definition with_queue (q : list (option (string * code unit))) (x : Executor) : Executor := {|
  ex_db := ex_db x; ex_capacity := ex_capacity x; ex_free := ex_free x; ex_queue := q;
  ex_threads := ex_threads x; ex_closed := ex_closed x |}.
Definition with_threads (ts : list thread) (x : Executor) : Executor := {|
  ex_db := ex_db x; ex_capacity := ex_capacity x; ex_free := ex_free x; ex_queue := ex_queue x;
  ex_threads := ts; ex_closed := ex_closed x |}.
Definition with_closed (b : bool) (x : Executor) : Executor := {|
  ex_db := ex_db x; ex_capacity := ex_capacity x; ex_free := ex_free x; ex_queue := ex_queue x;
  ex_threads := ex_threads x; ex_closed := b |}.

Definition on_db {A} (m : DB A) : M Executor A := fun x =>
  let (r, c) := m (ex_db x) in (r, with_ex_db c x).

Definition acquire : M Executor unit := fun x =>
  match ex_free x with
  | S n => (Ok tt, with_free n x)
  | O => (Raise (DispatchQueueFullError "operation executor is at capacity"), x)
  end.

(** A [BoundedSemaphore] refuses more releases than acquisitions. *)
Definition release : M Executor unit := fun x =>
  if (ex_free x <? ex_capacity x)%nat then (Ok tt, with_free (S (ex_free x)) x) else (Raise ValueError, x).

Definition put (id : string) (work : code unit) : M Executor unit := fun x =>
  (Ok tt, with_queue (ex_queue x ++ [Some (id, work)]) x).

Definition check_open : M Executor unit := fun x =>
  if ex_closed x then (Raise (DispatchQueueFullError "operation executor is stopping"), x) else (Ok tt, x).

(** [except BaseException: release; raise] *)
Definition releasing {A} (m : M Executor A) : M Executor A := catch m (fun e => _ ← release; raise e).

Definition submit (operation_id kind scope : string) (work : code unit) : M Executor OperationDispatch :=
  _ ← check_open;
  _ ← acquire;
  releasing (
    '(dispatch, created) ← on_db (enqueue_operation_dispatch operation_id kind scope None);
    if negb created then _ ← release; mret dispatch
    else _ ← put operation_id work; mret dispatch).

Definition resubmit_recovery (operation_id kind scope : string) (work : code unit) (automatic : bool)
    : M Executor OperationDispatch :=
  _ ← check_open;
  _ ← acquire;
  releasing (
    dispatch ← on_db (requeue_recovery_dispatch operation_id kind scope None automatic);
    _ ← put operation_id work;
    mret dispatch).

(** One tick of [_retry_loop], with the work that finishes an operation. *)
Definition retry_tick (finishing_work : option (string -> code unit)) : M Executor unit :=
  match finishing_work with
  | None => mret tt
  | Some work =>
      operations ← on_db due;
      for_each operations (fun op =>
        catch (_ ← resubmit_recovery (op_operation_id op) (op_kind op) (op_scope op)
                 (work (op_operation_id op)) true; mret tt)
          (fun e => if is_database_error e then mret tt else raise e))
  end.

(** ** Startup *)

Definition interrupted_message : string := "controller stopped before finishing work completed".
Definition stopped_message : string := "controller stopped before asynchronous work completed".

Definition interrupted (d : OperationDispatch) : bool :=
  match dp_st d with d_pending | d_running => true | _ => false end.

(** A dispatch whose operation is missing or not in its finishing lane. *)
Definition recover_foreground (d : OperationDispatch) (operation : option Operation) : DB unit :=
  let id := dp_operation_id d in
  if negb (interrupted d) then mret tt
  else match operation with
  | Some op =>
      if negb (unfinished (op_st op)) then
        _ ← set_operation_dispatch_status id "finished" None None; mret tt
      else
        _ ← (if bool_decide (op_st op = op_running) then
               _ ← mark_recovery_required id (Text stopped_message) None None; mret tt
             else mret tt : DB unit);
        _ ← set_operation_dispatch_status id "recovery_required" (Some (Text stopped_message)) None;
        mret tt
  | None =>
      deadline ← read_clock;
      started ← catch (op ← begin_operation id (dp_kind d) (dp_scope d) "startup_interrupted" deadline [] None;
                       mret (Some op))
        (fun e => if unfinished_error e then mret None else raise e);
      match started with
      | Some op =>
          if bool_decide (op_st op = op_running) then
            _ ← mark_failed id (Text "operation stopped before recording any domain mutation intent")
                  "not_required" None;
            _ ← set_operation_dispatch_status id "finished" None None;
            mret tt
          else
            _ ← set_operation_dispatch_status id "recovery_required" (Some (Text stopped_message)) None;
            mret tt
      | None =>
          _ ← set_operation_dispatch_status id "recovery_required" (Some (Text stopped_message)) None;
          mret tt
      end
  end.

Definition recover_dispatch (d : OperationDispatch) : DB unit :=
  operation ← get_operation (dp_operation_id d);
  match operation with
  | Some op =>
      if finishing_pending operation then
        if interrupted d || is_none (refs_get "finishing_retry" (op_refs op)) then
          _ ← schedule (op_operation_id op) (Text interrupted_message);
          _ ← set_operation_dispatch_status (dp_operation_id d) "recovery_required" None None;
          mret tt
        else mret tt
      else recover_foreground d operation
  | None => recover_foreground d None
  end.

Definition _recover_startup : DB unit :=
  dispatches ← list_operation_dispatches;
  for_each dispatches recover_dispatch.

(** [__init__]: bounds, startup recovery, then the worker threads. *)
Definition create (c : conn Db) (workers capacity : nat) : result Executor * conn Db :=
  if (workers <? 1)%nat || (capacity <? workers)%nat then (Raise ValueError, c)
  else match _recover_startup c with
  | (Ok _, c') => (Ok {| ex_db := c'; ex_capacity := capacity; ex_free := capacity; ex_queue := [];
                         ex_threads := replicate workers Idle; ex_closed := false |}, c')
  | (Raise e, c') => (Raise e, c')
  end.

(** ** Interleavings *)

(** All threads are between items: what [close] waits for. *)
Definition at_rest (t : thread) : bool := match t with Busy _ _ => false | _ => true end.

Section Step.
(** What the rest of the controller may do to the database between two calls,
    and the work it may submit. *)
Variable allowed_call : forall A, DB A -> Prop.
Variable allowed_work : code unit -> Prop.

Inductive step : Executor -> Executor -> Prop :=
  | step_submit x id kind scope work : allowed_work work ->
      step x (submit id kind scope work x).2
  | step_resubmit x id kind scope work automatic : allowed_work work ->
      step x (resubmit_recovery id kind scope work automatic x).2
  | step_other x A (m : DB A) : allowed_call A m -> step x (on_db m x).2
  | step_take x i id work q : ex_threads x !! i = Some Idle -> ex_queue x = Some (id, work) :: q ->
      step x (with_queue q (with_threads (<[i := Busy id (run_item id work)]> (ex_threads x)) x))
  | step_stop x i q : ex_threads x !! i = Some Idle -> ex_queue x = None :: q ->
      step x (with_queue q (with_threads (<[i := Stopped]> (ex_threads x)) x))
  | step_call x i id B (m : DB B) next : ex_threads x !! i = Some (Busy id (Call m next)) ->
      step x (with_threads (<[i := Busy id (next (on_db m x).1)]> (ex_threads x)) (on_db m x).2)
  | step_release x i id next : ex_threads x !! i = Some (Busy id (Release next)) ->
      step x (with_threads (<[i := match (release x).1 with
                                   | Ok _ => Busy id next | Raise _ => Dead id end]> (ex_threads x)) (release x).2)
  | step_done x i id : ex_threads x !! i = Some (Busy id (Return (Ok tt))) ->
      step x (with_threads (<[i := Idle]> (ex_threads x)) x)
  | step_die x i id e : ex_threads x !! i = Some (Busy id (Return (Raise e))) ->
      step x (with_threads (<[i := Dead id]> (ex_threads x)) x)
  | step_close x : step x (with_closed true x)
  (** [close] puts one end mark per worker once the queue has been joined. *)
  | step_join x : ex_closed x = true -> ex_queue x = [] -> forallb at_rest (ex_threads x) = true ->
      step x (with_queue (replicate (length (ex_threads x)) None) x).

Inductive executor_reachable : Executor -> Prop :=
  | reachable_create c workers capacity x c' : create c workers capacity = (Ok x, c') -> executor_reachable x
  | reachable_next x y : executor_reachable x -> step x y -> executor_reachable y.
End Step.
