(* ===== verification/ExecutorSpec.v ===== *)
(** * Properties of the operation executor

    For every interleaving of the worker threads' database calls with
    submissions, retries, shutdown and the rest of the controller: slots are
    conserved, and no accepted dispatch is stranded. *)

From S2P Require Import Prelude Regex Json Clock Validation Runtime Sql Schema StorageCapacity Operations.
From S2P Require Import FinishingRetries OperationsSpec AdmissionSpec Executor.

(** ** Dispatches that await a worker *)

Definition live (id : string) (d : Db) : Prop :=
  exists r, In r (operation_dispatches d) /\ dp_operation_id r = id /\ interrupted r = true.

(** No dispatch but [ids] becomes pending or running. *)
Definition quiet_but (ids : list string) (d d' : Db) : Prop :=
  forall j, live j d' -> live j d \/ In j ids.

Abbreviation quiet := (quiet_but []).

#[export] Instance quiet_preorder ids : PreOrder (quiet_but ids).
Proof.
  split; [by intros d j H; left|]. intros d1 d2 d3 H12 H23 j Hj.
  destruct (H23 j Hj) as [H|]; [apply H12, H|by right].
Qed.

Lemma quiet_frame ids d d' : operation_dispatches d' = operation_dispatches d -> quiet_but ids d d'.
Proof. intros He j (r & Hr & H). left. exists r. by rewrite <- He. Qed.

Lemma quiet_update ids d p f :
  (forall r, p r = true -> dp_operation_id (f r) = dp_operation_id r) ->
  (forall r, p r = true -> interrupted (f r) = true -> interrupted r = true \/ In (dp_operation_id r) ids) ->
  quiet_but ids d (with_operation_dispatches (apply_where p f (operation_dispatches d)) d).
Proof.
  intros Hid Hf j (r & (r0 & Hr0 & ->)%in_apply_where & Hj & Hi). destruct (p r0) eqn:E.
  - rewrite Hid in Hj by done. subst j. destruct (Hf r0 E Hi); [left; by exists r0|by right].
  - left. by exists r0.
Qed.
#[export] Hint Extern 1 (quiet_but _ _ (put_rows _ _)) =>
  first [apply quiet_frame; reflexivity | apply quiet_update; [done|by auto] ] : evolve.

Lemma quiet_weaken {A} ids (m : DB A) : evolves quiet m -> evolves (quiet_but ids) m.
Proof. intros Hm c j Hj. by destruct (Hm c j Hj) as [|[]]; left. Qed.

Definition other_calls (k : journal_call) : Prop :=
  match k with Enqueue _ _ _ _ | Requeue _ _ _ _ _ | SetDispatch _ _ _ _ => False | _ => True end.

(** The journal calls that leave the dispatch queue alone. *)
Lemma quiet_call k : other_calls k -> evolves quiet (run_call k).
Proof.
  destruct k; intros Hk; try done; unfold run_call, discard, claim_idempotency_request,
    complete_idempotency_request, mark_operation_finishing, begin_operation,
    renew_operation_deadline, checkpoint_operation, mark_recovery_required, record_finishing_failure,
    mark_succeeded, mark_failed, schedule, next_retry, _finish_operation, update_live; evolve; auto with evolve.
Qed.

Lemma evolves_undiscard {A} (P : Db -> Db -> Prop) (m : DB A) : evolves P (discard m) -> evolves P m.
Proof. intros H c. specialize (H c). unfold discard, mbind, M_bind in H. by destruct (m c) as [[]]. Qed.

Lemma quiet_begin i k s p dl r n : evolves quiet (begin_operation i k s p dl r n).
Proof. apply evolves_undiscard, (quiet_call (Begin i k s p dl r n) I). Qed.
Lemma quiet_succeeded i u n : evolves quiet (mark_succeeded i u n).
Proof. apply evolves_undiscard, (quiet_call (MarkSucceeded i u n) I). Qed.
Lemma quiet_failed i e u n : evolves quiet (mark_failed i e u n).
Proof. apply evolves_undiscard, (quiet_call (MarkFailed i e u n) I). Qed.
Lemma quiet_recovery i e p n : evolves quiet (mark_recovery_required i e p n).
Proof. apply evolves_undiscard, (quiet_call (MarkRecovery i e p n) I). Qed.
Lemma quiet_record i e : evolves quiet (record_finishing_failure i e).
Proof. apply evolves_undiscard, (quiet_call (RecordFailure i e) I). Qed.
Lemma quiet_schedule i e : evolves quiet (schedule i e).
Proof. apply evolves_undiscard, (quiet_call (Retry i e) I). Qed.
Lemma quiet_read {A} (m : DB A) : reads m -> evolves quiet m.
Proof. apply evolves_reads, _. Qed.
Lemma quiet_clock : evolves quiet (read_clock : DB string).
Proof. apply (evolves_clock quiet). Qed.
#[export] Hint Resolve quiet_begin quiet_succeeded quiet_failed quiet_recovery quiet_record
  quiet_schedule quiet_clock : evolve.

(** A status change concerns the dispatch it names only. *)
Lemma quiet_set_dispatch i st e n : evolves (quiet_but [i]) (set_operation_dispatch_status i st e n).
Proof.
  unfold set_operation_dispatch_status. evolve.
  match goal with H : uuid _ = Ok _ |- _ => apply uuid_same in H as -> end.
  apply quiet_update; [done|]. intros r ->%String.eqb_eq _. right. by left.
Qed.

(** Statuses no worker waits for *)
Definition resting (status : string) : bool :=
  match dispatch_status_of status with Some d_finished | Some d_recovery_required => true | _ => false end.

Lemma quiet_rest i st e n : resting st = true -> evolves quiet (set_operation_dispatch_status i st e n).
Proof.
  intros Hst. unfold set_operation_dispatch_status, resting in *. evolve.
  apply quiet_update; [done|]. intros r _ Hi. by match goal with s : dispatch_status |- _ => destruct s end.
Qed.

Lemma rested i st e n c d c' : resting st = true ->
  set_operation_dispatch_status i st e n c = (Ok d, c') -> ~ live i (store c').
Proof.
  intros Hst H. unfold set_operation_dispatch_status, resting in *.
  apply bind_ok in H as (i' & c1 & [->%uuid_same ->]%lift_ok & H).
  destruct (dispatch_status_of st) as [s|]; [|done]. cbv zeta in H.
  apply bind_ok in H as (u & c2 & (c3 & H & -> & _)%transaction_ok & Hlast).
  apply reads_ok in Hlast as [_ ->]; [|apply reads_bind; auto with reads].
  apply bind_ok in H as (t & c4 & [Ht _]%now_or_inv & H).
  apply bind_ok in H as (cnt & c5 & (-> & _)%update_ok & H).
  destruct (negb _); [done|]. injection H as _ <-.
  intros (q & (r0 & Hr0 & ->)%in_apply_where & Hid & Hi).
  destruct (String.eqb (dp_operation_id r0) i) eqn:E; [by destruct s|].
  by rewrite Hid, eqb_self in E.
Qed.

Lemma enqueue_live i k s n c r created c' : enqueue_operation_dispatch i k s n c = (Ok (r, created), c') ->
  quiet_but (if created then [i] else []) (store c) (store c').
Proof.
  intros (_ & _ & _ & _ & _ & _ & _ & H)%enqueue_records. destruct created.
  - destruct H as (t & -> & _ & _ & _ & Happ). intros j (r' & Hr & Hj & Hi). rewrite Happ in Hr.
    apply in_app_iff in Hr as [Hr|[<-|[]]]; [left; by exists r'|]. right. by left.
  - intros j Hj. left. by rewrite H in Hj.
Qed.

Lemma requeue_live i k s n a : evolves (quiet_but [i]) (requeue_recovery_dispatch i k s n a).
Proof.
  unfold requeue_recovery_dispatch, consume_retry. evolve.
  all: match goal with H : uuid _ = Ok _ |- _ => apply uuid_same in H as -> end.
  all: first [by apply quiet_frame | apply quiet_update; [done|]].
  all: intros r [->%String.eqb_eq _]%andb_true_iff _; right; by left.
Qed.

(** ** What a sequence of calls does to the queue of a dispatch *)

(** Every call leaves the dispatches alone. *)
Fixpoint calm {A} (p : code A) : Prop :=
  match p with
  | Return _ => True
  | Call m next => evolves quiet m /\ forall r, calm (next r)
  | Release next => calm next
  end.

(** If it returns a value, it has settled the dispatch it is responsible for:
    one of its calls puts the dispatch to rest, the calls before concern no
    other dispatch and those after it none. *)
Fixpoint settles (id : string) {A} (p : code A) : Prop :=
  match p with
  | Return (Ok _) => False
  | Return (Raise _) => True
  | Call m next =>
      (evolves (quiet_but [id]) m /\ forall r, settles id (next r))
      \/ (evolves quiet m /\ (forall c a c', m c = (Ok a, c') -> ~ live id (store c'))
          /\ (forall a, calm (next (Ok a))) /\ forall e, settles id (next (Raise e)))
  | Release next => settles id next
  end.

(** Calls that concern no other dispatch. *)
Fixpoint tame (id : string) {A} (p : code A) : Prop :=
  match p with
  | Return _ => True
  | Call m next => evolves (quiet_but [id]) m /\ forall r, tame id (next r)
  | Release next => tame id next
  end.

(** It releases its slot this many times, whatever the calls return. *)
Fixpoint owes {A} (n : nat) (p : code A) : Prop :=
  match p with
  | Return _ => n = 0%nat
  | Call m next => forall r, owes n (next r)
  | Release next => exists k, n = S k /\ owes k next
  end.

Lemma calm_tame {A} id (p : code A) : calm p -> tame id p.
Proof. induction p; simpl; try done. intros [Hm Hn]. split; [by apply quiet_weaken|auto]. Qed.

Lemma calm_after {A B} (p : code A) (f : result A -> code B) :
  calm p -> (forall r, calm (f r)) -> calm (after_code p f).
Proof. intros Hp Hf. induction p; simpl in *; [done| |auto]. destruct Hp. auto. Qed.

Lemma tame_after {A B} id (p : code A) (f : result A -> code B) :
  tame id p -> (forall r, tame id (f r)) -> tame id (after_code p f).
Proof. intros Hp Hf. induction p; simpl in *; [done| |auto]. destruct Hp. auto. Qed.

Lemma owes_after {A B} n m (p : code A) (f : result A -> code B) :
  owes n p -> (forall r, owes m (f r)) -> owes (n + m) (after_code p f).
Proof.
  intros Hp Hf. revert n Hp. induction p as [r|C c next IH|next IH]; simpl; intros n Hp; [by subst|auto|].
  destruct Hp as (k & -> & Hk). exists (k + m)%nat. auto.
Qed.

Lemma owes_after0 {A B} (p : code A) (f : result A -> code B) n :
  owes 0 p -> (forall r, owes n (f r)) -> owes n (after_code p f).
Proof. apply (owes_after 0). Qed.

Lemma settles_first {A B} id (p : code A) (f : result A -> code B) :
  tame id p -> (forall r, settles id (f r)) -> settles id (after_code p f).
Proof. intros Hp Hf. induction p; simpl in *; [done| |auto]. destruct Hp. left. auto. Qed.

Lemma settles_then {A B} id (p : code A) (f : result A -> code B) :
  settles id p -> (forall r, calm (f r)) -> (forall e, settles id (f (Raise e))) ->
  settles id (after_code p f).
Proof.
  intros Hp Hc Hr. induction p as [r|C m next IH|next IH]; simpl in *; [by destruct r| |auto].
  destruct Hp as [[Hm Hn]|(Hm & Hl & Hn & He)]; [left; auto|right]. split_and!; try done; [|auto].
  intros a. by apply calm_after.
Qed.

(** *** The work of a worker *)

Ltac code_step :=
  match goal with
  | |- calm (_ ≫= _) => apply calm_after; [|intros [?|?]]
  | |- tame _ (_ ≫= _) => apply tame_after; [|intros [?|?]]
  | |- tame _ (try_except _ _) => apply tame_after; [|intros [?|?]]
  | |- tame _ (call _) => split; [|intros ?; exact I]
  | |- owes 0 (_ ≫= _) => apply owes_after0; [|intros [?|?]]
  | |- owes 0 (try_except _ _) => apply owes_after0; [|intros [?|?]]
  | |- owes 0 (call _) => intros ?; reflexivity
  | |- tame _ (mret _) => exact I
  | |- tame _ (Return _) => exact I
  | |- owes 0 (mret _) => reflexivity
  | |- owes 0 (Return _) => reflexivity
  | |- tame _ (match ?x with _ => _ end) => destruct x
  | |- owes _ (match ?x with _ => _ end) => destruct x
  | |- evolves (quiet_but [_]) (set_operation_dispatch_status _ _ _ _) => apply quiet_set_dispatch
  | |- evolves (quiet_but (_ :: _)) _ => apply quiet_weaken
  | |- evolves quiet _ => solve [auto with evolve | apply quiet_read; auto with reads]
  end.
Ltac code_steps := repeat code_step; auto.

Lemma tame_begin id phase : tame id (begin_for id phase).
Proof. unfold begin_for. code_steps. Qed.
Lemma owes_begin id phase : owes 0 (begin_for id phase).
Proof. unfold begin_for. code_steps. Qed.

Lemma tame_body id work : calm work -> tame id (item_body id work).
Proof. intros Hw. unfold item_body. pose proof tame_begin. pose proof (calm_tame id work Hw). code_steps. Qed.
Lemma owes_body id work : owes 0 work -> owes 0 (item_body id work).
Proof. intros Hw. unfold item_body. pose proof owes_begin. code_steps. Qed.

Lemma tame_failed id e : tame id (item_failed id e).
Proof. unfold item_failed, reject. code_steps. Qed.
Lemma owes_failed id e : owes 0 (item_failed id e).
Proof. unfold item_failed, reject. code_steps. Qed.

Lemma owes_settle id : owes 0 (settle_item id).
Proof. unfold settle_item. code_steps. Qed.

Lemma settles_item id : settles id (settle_item id).
Proof.
  unfold settle_item, mbind, code_bind, call. cbn [after_code]. left. split.
  { apply quiet_weaken, quiet_read. auto with reads. }
  intros [operation|e]; [|exact I]. apply settles_first.
  { destruct operation as [op|]; [|exact I]. destruct (finishing_pending _); [|exact I]. cbn [after_code].
    split; [apply quiet_weaken; auto with evolve|]. by intros [?|?]. }
  intros [[]|e]; [|exact I]. cbn zeta. cbn [after_code]. right.
  assert (Hst : forall b : bool, resting (if b then "recovery_required" else "finished") = true) by (by intros []).
  split_and!; [by apply quiet_rest| |done|done].
  intros c d c' H. by eapply rested.
Qed.

Lemma settles_run id work : calm work -> settles id (run_item id work).
Proof.
  intros Hw. unfold run_item, try_finally. apply settles_first.
  { unfold try_except. apply tame_after; [by apply tame_body|]. intros [?|?]; [exact I|apply tame_failed]. }
  intros r. apply settles_then.
  - apply settles_then; [apply settles_item|done|done].
  - by intros [?|?].
  - done.
Qed.

Lemma owes_run id work : owes 0 work -> owes 1 (run_item id work).
Proof.
  intros Hw. unfold run_item, try_finally, try_except. apply owes_after0.
  { apply owes_after0; [by apply owes_body|]. intros [?|?]; [done|apply owes_failed]. }
  intros r. apply (owes_after 1 0); [|by intros [?|?]].
  apply owes_after0; [apply owes_settle|]. intros r'. simpl. by exists 0%nat.
Qed.

(** ** No dispatch is stranded *)

Definition queued (id : string) (x : Executor) : Prop := exists w, In (Some (id, w)) (ex_queue x).

(** The thread will settle the dispatch, or died before it could. *)
Definition answers (t : thread) (id : string) : Prop :=
  match t with Busy i p => i = id /\ settles id p | Dead i => i = id | _ => False end.

Record attended (x : Executor) : Prop := {
  att_queue : forall id w, In (Some (id, w)) (ex_queue x) -> calm w;
  att_threads : forall i id p, ex_threads x !! i = Some (Busy id p) -> settles id p \/ calm p;
  att_live : forall id, live id (store (ex_db x)) ->
    queued id x \/ exists i t, ex_threads x !! i = Some t /\ answers t id;
}.

(** Calls of other threads, and items put at the queue's end. *)
Lemma attended_more x ids c q' n :
  attended x -> quiet_but ids (store (ex_db x)) (store c) ->
  (forall id w, In (Some (id, w)) q' -> calm w) -> (forall id, In id ids -> exists w, In (Some (id, w)) q') ->
  attended (with_free n (with_queue (ex_queue x ++ q') (with_ex_db c x))).
Proof.
  intros [Hq Ht Hl] Hdb Hw Hids. split; simpl.
  - intros id w [H|H]%in_app_iff; eauto.
  - exact Ht.
  - intros id Hid. destruct (Hdb id Hid) as [H|H].
    + destruct (Hl id H) as [(w & H1)|H1]; [|by right]. left. exists w. apply in_app_iff. by left.
    + left. destruct (Hids id H) as [w H1]. exists w. apply in_app_iff. by right.
Qed.

(** One thread moves on, perhaps taking the head of the queue. *)
Lemma attended_thread x i t t' c q n :
  attended x -> ex_threads x !! i = Some t ->
  (forall id p, t' = Busy id p -> settles id p \/ calm p) ->
  (forall id w, In (Some (id, w)) q -> In (Some (id, w)) (ex_queue x)) ->
  (forall id w, In (Some (id, w)) (ex_queue x) -> In (Some (id, w)) q \/ answers t' id) ->
  (forall id, live id (store c) ->
     (live id (store (ex_db x)) /\ (answers t id -> answers t' id)) \/ answers t' id) ->
  attended (with_free n (with_queue q (with_threads (<[i := t']> (ex_threads x)) (with_ex_db c x)))).
Proof.
  intros [Hq Ht Hl] Hi Hcode Hq1 Hq2 Hlive. pose proof (lookup_lt_Some _ _ _ Hi) as Hlt. split; simpl.
  - eauto.
  - intros j id p [(<- & -> & _)|[Hj H]]%list_lookup_insert_Some; eauto.
  - intros id Hid.
    assert (Hmine : answers t' id -> exists j u, <[i:=t']> (ex_threads x) !! j = Some u /\ answers u id).
    { intros Ha. exists i, t'. split; [by apply list_lookup_insert_eq|done]. }
    destruct (Hlive id Hid) as [[H Ha]|H]; [|right; by apply Hmine].
    destruct (Hl id H) as [(w & H1)|(j & u & H1 & H2)].
    + destruct (Hq2 id w H1) as [H2|H2]; [left; by exists w|right; by apply Hmine].
    + right. destruct (decide (j = i)) as [->|Hj].
      * rewrite Hi in H1. injection H1 as ->. auto.
      * exists j, u. by rewrite list_lookup_insert_ne.
Qed.

(** *** Submissions *)

(** What an admitted or refused submission of an item leaves. *)
Definition submitted (id : string) (w : code unit) (x y : Executor) : Prop :=
  ex_threads y = ex_threads x /\ ex_capacity y = ex_capacity x /\
  ((ex_queue y = ex_queue x /\ quiet (store (ex_db x)) (store (ex_db y))
      /\ ((ex_free x <= ex_capacity x)%nat -> ex_free y = ex_free x))
   \/ (ex_queue y = ex_queue x ++ [Some (id, w)] /\ quiet_but [id] (store (ex_db x)) (store (ex_db y))
      /\ ex_free x = S (ex_free y))).

Lemma submitted_same id w x : submitted id w x x.
Proof. split_and!; try done. left. by split_and!. Qed.

(** A slot taken and given back around a call that left the dispatches alone. *)
Lemma submitted_back id w x n c (r : result unit * Executor) :
  ex_free x = S n -> quiet (store (ex_db x)) (store c) ->
  r = release (with_ex_db c (with_free n x)) -> submitted id w x r.2.
Proof.
  intros Hn Hq ->. unfold release. cbn [ex_free ex_capacity with_ex_db with_free].
  destruct (n <? ex_capacity x)%nat eqn:E; split_and!; try done; left; split_and!; try done; simpl.
  intros Hle. apply Nat.ltb_ge in E. lia.
Qed.

Lemma release_raise {A} e x : ((_ ← release; raise e) : M Executor A) x = (match (release x).1 with Ok _ => Raise e | Raise e' => Raise e' end, (release x).2).
Proof. unfold mbind, M_bind. by destruct (release x) as [[]]. Qed.

Lemma submit_effect id k s w x : submitted id w x (submit id k s w x).2.
Proof.
  unfold submit, check_open, mbind, M_bind. destruct (ex_closed x); [apply submitted_same|].
  unfold acquire. destruct (ex_free x) as [|n] eqn:Hn; [apply submitted_same|].
  unfold releasing, catch, on_db. cbn [ex_db with_free].
  destruct (enqueue_operation_dispatch id k s None (ex_db x)) as [[[d created]|e] c] eqn:E.
  - apply enqueue_live in E. destruct created; simpl.
    + split_and!; try done. by right.
    + pose proof (submitted_back id w x n c _ Hn E eq_refl) as H.
      destruct (release (with_ex_db c (with_free n x))) as [[[]|e] y] eqn:Er; [exact H|].
      unfold release in Er. simpl in Er. destruct (_ <? _)%nat eqn:Hlt; [done|]. injection Er as <- <-.
      rewrite release_raise. unfold release. cbn [ex_free ex_capacity with_ex_db with_free]. by rewrite Hlt.
  - assert (Hq : quiet (store (ex_db x)) (store c)) by (by rewrite (atomic_enqueue id k s None _ _ _ E)).
    rewrite release_raise. exact (submitted_back id w x n c _ Hn Hq eq_refl).
Qed.

Lemma resubmit_effect id k s w a x : submitted id w x (resubmit_recovery id k s w a x).2.
Proof.
  unfold resubmit_recovery, check_open, mbind, M_bind. destruct (ex_closed x); [apply submitted_same|].
  unfold acquire. destruct (ex_free x) as [|n] eqn:Hn; [apply submitted_same|].
  unfold releasing, catch, on_db. cbn [ex_db with_free].
  destruct (requeue_recovery_dispatch id k s None a (ex_db x)) as [[d|e] c] eqn:E.
  - pose proof (requeue_live id k s None a (ex_db x)) as Hq. rewrite E in Hq. split_and!; try done. by right.
  - assert (Hq : quiet (store (ex_db x)) (store c)) by (by rewrite (atomic_requeue id k s None a _ _ _ E)).
    rewrite release_raise. exact (submitted_back id w x n c _ Hn Hq eq_refl).
Qed.

Lemma attended_submitted id w x y : calm w -> attended x -> submitted id w x y -> attended y.
Proof.
  intros Hw [Hq Ht Hl] (Et & _ & [(Eq & Hdb & _)|(Eq & Hdb & _)]).
  - split; unfold queued in *; rewrite ?Et, ?Eq; try done. intros j Hj. destruct (Hdb j Hj) as [H|[]]. auto.
  - split; unfold queued in *; rewrite ?Et, ?Eq; try done.
    + intros j v [H|[[= <- <-]|[]]]%in_app_iff; eauto.
    + intros j Hj. destruct (Hdb j Hj) as [H|[<-|[]]].
      * destruct (Hl j H) as [(v & H1)|H1]; [|by right]. left. exists v. apply in_app_iff. by left.
      * left. exists w. apply in_app_iff. right. by left.
Qed.

(** *** Startup *)

#[local] Hint Extern 1 (evolves quiet (set_operation_dispatch_status _ _ _ _)) =>
  apply quiet_rest; reflexivity : evolve.

Lemma quiet_recover r : evolves quiet (recover_dispatch r).
Proof. unfold recover_dispatch, recover_foreground. evolve. Qed.

(** Ends by putting the dispatch to rest. *)
Definition rests {A} (id : string) (m : DB A) : Prop := forall c a c', m c = (Ok a, c') -> ~ live id (store c').

Lemma rests_bind {A B} id (m : DB A) (f : A -> DB B) : (forall a, rests id (f a)) -> rests id (m ≫= f).
Proof. intros Hf c b c' (a & c1 & _ & H)%bind_ok. by eapply Hf. Qed.

Lemma rests_status id st e n : resting st = true ->
  rests id (_ ← set_operation_dispatch_status id st e n; mret tt).
Proof. intros Hst c u c' (d & c1 & H & [= _ <-])%bind_ok. by eapply rested. Qed.

Lemma rests_raise {A} id e : rests id (raise e : DB A).
Proof. done. Qed.

Ltac rest_step :=
  match goal with
  | |- rests _ (match ?x with _ => _ end) => destruct x
  | |- rests _ (_ ← set_operation_dispatch_status _ _ _ _; mret tt) => by apply rests_status
  | |- rests _ (_ ≫= _) => apply rests_bind; intros ?
  end.

Lemma recover_rests r : interrupted r = true -> rests (dp_operation_id r) (recover_dispatch r).
Proof.
  intros Hi. unfold recover_dispatch, recover_foreground. rewrite Hi. simpl negb. simpl orb.
  cbv iota. repeat rest_step.
Qed.

Lemma recover_all l c u c' : for_each l recover_dispatch c = (Ok u, c') ->
  (forall id, live id (store c) -> exists r, In r l /\ dp_operation_id r = id /\ interrupted r = true) ->
  forall id, ~ live id (store c').
Proof.
  revert c. induction l as [|r l IH]; intros c H Hl id.
  - injection H as _ <-. intros (? & [] & _)%Hl.
  - apply bind_ok in H as (? & c1 & H1 & H). eapply IH; [exact H|].
    intros j Hj. pose proof (quiet_recover r c) as Hq. rewrite H1 in Hq.
    destruct (Hq j Hj) as [Hj0|[]]. destruct (Hl j Hj0) as (r' & [<-|Hr'] & Hid & Hi); [|by exists r'].
    exfalso. subst j. by eapply (recover_rests r Hi).
Qed.

Lemma startup_rests c u c' : _recover_startup c = (Ok u, c') -> forall id, ~ live id (store c').
Proof.
  intros (l & c1 & Hl & H)%bind_ok. unfold list_operation_dispatches in Hl.
  apply bind_ok in Hl as (rows & c2 & [= <- <-] & [= <- <-]). eapply recover_all; [exact H|].
  intros id (r & Hr & Hid & Hi). exists r. split; [|done].
  apply list_elem_of_In. rewrite sort_by_perm. apply list_elem_of_In, filter_In. done.
Qed.

(** ** Every interleaving *)

(** Work makes database calls that leave the dispatches alone and has no access
    to the semaphore; so do the other threads of the controller. *)
Definition proper_work (w : code unit) : Prop := calm w /\ owes 0 w.
Definition proper_call (A : Type) (m : DB A) : Prop := evolves quiet m.

Abbreviation executes := (step proper_call proper_work).
Abbreviation reached := (executor_reachable proper_call proper_work).

Lemma attended_eq x y : attended x -> store (ex_db y) = store (ex_db x) -> ex_queue y = ex_queue x ->
  ex_threads y = ex_threads x -> attended y.
Proof. intros [Hq Ht Hl] Ed Eq Et. split; unfold queued; rewrite ?Ed, ?Eq, ?Et; done. Qed.

(** A call of a thread, by what its sequence is known to do. *)
Lemma settles_next i B (m : DB B) next c c' (r : result B) :
  settles i (Call m next : code unit) -> m c = (r, c') ->
  (settles i (next r) \/ calm (next r)) /\ quiet_but [i] (store c) (store c')
  /\ (live i (store c') -> settles i (next r)).
Proof.
  intros [[Hm Hn]|(Hm & Hl & Hn & He)] H.
  - specialize (Hm c). rewrite H in Hm. split_and!; auto.
  - pose proof (quiet_weaken [i] m Hm c) as Hq. rewrite H in Hq. split_and!; [|done|].
    + destruct r; auto.
    + destruct r as [a|e]; [|auto]. intros Hlive. by destruct (Hl _ _ _ H).
Qed.

Lemma call_answers i B (m : DB B) next c c' (r : result B) :
  settles i (Call m next : code unit) \/ calm (Call m next : code unit) -> m c = (r, c') ->
  (settles i (next r) \/ calm (next r)) /\
  forall id, live id (store c') ->
    (live id (store c) /\ (answers (Busy i (Call m next)) id -> answers (Busy i (next r)) id))
    \/ answers (Busy i (next r)) id.
Proof.
  intros [H|H] Hm.
  - destruct (settles_next _ _ _ _ _ _ _ H Hm) as (Hc & Hq & Hs). split; [done|]. intros id Hid.
    destruct (Hq id Hid) as [H1|[<-|[]]]; [left|right; by split; auto].
    split; [done|]. intros [-> _]. split; auto.
  - pose proof H as [Hq Hn]. split; [right; auto|]. intros id Hid. left.
    specialize (Hq c). rewrite Hm in Hq. destruct (Hq id Hid) as [H1|[]]. split; [done|].
    intros [-> Hs]. split; [done|]. apply (settles_next _ _ _ _ _ _ _ Hs Hm). done.
Qed.

Lemma step_attended x y : executes x y -> attended x -> attended y.
Proof.
  intros Hstep Hx. destruct Hstep as [x id k s w Hw|x id k s w a Hw|x A m Hm|x i id w q Hi Hq|x i q Hi Hq
    |x i id B m next Hi|x i id next Hi|x i id Hi|x i id e Hi|x|x Hc Hq Hr].
  - apply (attended_submitted id w x); [apply Hw|done|apply submit_effect].
  - apply (attended_submitted id w x); [apply Hw|done|apply resubmit_effect].
  - apply (attended_eq (with_free (ex_free x) (with_queue (ex_queue x ++ []) (with_ex_db (m (ex_db x)).2 x)))).
    + apply (attended_more x [] _ _ _ Hx); [apply Hm|done|done].
    + unfold on_db. by destruct (m (ex_db x)).
    + unfold on_db. rewrite app_nil_r. by destruct (m (ex_db x)).
    + unfold on_db. by destruct (m (ex_db x)).
  - assert (Hw : calm w) by (apply (att_queue _ Hx id); rewrite Hq; by left).
    apply (attended_eq _ _ (attended_thread x i Idle (Busy id (run_item id w)) (ex_db x) q (ex_free x) Hx Hi
      ltac:(intros ? ? [= <- <-]; left; by apply settles_run)
      ltac:(intros; rewrite Hq; by right)
      ltac:(rewrite Hq; intros j v [[= <- <-]|]; [right; split; [done|by apply settles_run]|by left])
      ltac:(by left))); done.
  - apply (attended_eq _ _ (attended_thread x i Idle Stopped (ex_db x) q (ex_free x) Hx Hi
      ltac:(done) ltac:(intros; rewrite Hq; by right)
      ltac:(rewrite Hq; intros j v [|]; [done|by left]) ltac:(by left))); done.
  - unfold on_db. destruct (m (ex_db x)) as [r c] eqn:Em.
    destruct (call_answers id B m next (ex_db x) c r (att_threads _ Hx _ _ _ Hi) Em) as [Hcode Hlive].
    apply (attended_eq _ _ (attended_thread x i _ (Busy id (next r)) c (ex_queue x) (ex_free x) Hx Hi
      ltac:(by intros ? ? [= <- <-]) ltac:(done) ltac:(by left) Hlive)); done.
  - assert (Hst : store (ex_db (release x).2) = store (ex_db x) /\ ex_queue (release x).2 = ex_queue x)
      by (unfold release; by destruct (_ <? _)%nat). destruct Hst as [Hst Hqu].
    pose proof (att_threads _ Hx _ _ _ Hi) as Hcode.
    assert (Ha : attended (with_free (ex_free x) (with_queue (ex_queue x) (with_threads
      (<[i:=match (release x).1 with Ok _ => Busy id next | Raise _ => Dead id end]> (ex_threads x))
      (with_ex_db (ex_db x) x))))).
    { apply (attended_thread x i _ _ _ _ _ Hx Hi).
      - intros ? ? H. destruct (release x).1; [|done]. by injection H as <- <-.
      - done.
      - by left.
      - intros j Hj. left. split; [done|]. intros [-> Hs]. by destruct (release x).1. }
    apply (attended_eq _ _ Ha); simpl; congruence.
  - apply (attended_eq _ _ (attended_thread x i _ Idle (ex_db x) (ex_queue x) (ex_free x) Hx Hi
      ltac:(done) ltac:(done) ltac:(by left) ltac:(intros j Hj; left; split; [done|by intros [_ []]]))); done.
  - apply (attended_eq _ _ (attended_thread x i _ (Dead id) (ex_db x) (ex_queue x) (ex_free x) Hx Hi
      ltac:(done) ltac:(done) ltac:(by left) ltac:(intros j Hj; left; split; [done|by intros [-> _]]))); done.
  - by apply (attended_eq x).
  - destruct Hx as [H1 H2 H3]. split; unfold queued; simpl; [|done|].
    + intros id w Hin. apply list_elem_of_In, elem_of_replicate in Hin as [? _]. done.
    + intros id Hid. destruct (H3 id Hid) as [[w Hw]|H]; [|by right]. by rewrite Hq in Hw.
Qed.

Lemma create_ok c workers capacity x c' : create c workers capacity = (Ok x, c') ->
  _recover_startup c = (Ok tt, c') /\ ex_db x = c' /\ ex_queue x = [] /\ ex_threads x = replicate workers Idle
  /\ ex_free x = capacity /\ ex_capacity x = capacity.
Proof.
  unfold create. destruct (_ || _); [done|]. destruct (_recover_startup c) as [[[]|e] c1]; [|done].
  by intros [= <- <-].
Qed.

Lemma reached_attended x : reached x -> attended x.
Proof.
  induction 1 as [c workers capacity x c' H|x y Hx IH Hs]; [|by eapply step_attended].
  apply create_ok in H as (Hr & Hdb & Hq & Ht & _ & _). split; unfold queued; rewrite ?Hdb, ?Hq, ?Ht.
  - done.
  - intros i id p H. by apply lookup_replicate in H as [? _].
  - intros id Hid. by destruct (startup_rests _ _ _ Hr id).
Qed.

(** C26. No accepted dispatch is lost.  In every interleaving, a dispatch that the
    database has pending or running waits in the queue; or a worker holds it, at
    a point from which it will put it to rest if it returns; or the worker that
    held it has died on an error its own bookkeeping raised, and then the
    dispatch rests once the process has started again, whatever was on record.  Once the queue is
    empty and the workers are alive and between items, none is left. *)
Theorem no_dispatch_stranded x id :
  reached x -> live id (store (ex_db x)) ->
  (queued id x \/ (exists i p, ex_threads x !! i = Some (Busy id p) /\ settles id p)
   \/ (exists i, ex_threads x !! i = Some (Dead id)))
  /\ (forall c workers capacity y c', create c workers capacity = (Ok y, c') -> ~ live id (store (ex_db y)))
  /\ (ex_queue x = [] -> (forall i t, ex_threads x !! i = Some t -> t = Idle \/ t = Stopped) -> False).
Proof.
  intros Hx Hid. pose proof (att_live _ (reached_attended x Hx) id Hid) as H. split_and!.
  - destruct H as [H|(i & t & Hi & Ha)]; [by left|right]. destruct t as [|j p|j|]; simpl in Ha; try done.
    + destruct Ha as [-> Hs]. left. by exists i, p.
    + subst. right. by exists i.
  - intros c workers capacity y c' (Hr & -> & _)%create_ok. by eapply startup_rests.
  - intros Hq Ht. destruct H as [[w Hw]|(i & t & Hi & Ha)]; [by rewrite Hq in Hw|].
    by destruct (Ht i t Hi) as [-> | ->].
Qed.

(** ** Slots *)

Definition owed (t : thread) (n : nat) : Prop := match t with Busy _ p => owes n p | _ => n = 0%nat end.

Definition items (x : Executor) : nat := length (List.filter (fun o => match o with Some _ => true | None => false end) (ex_queue x)).

(** The releases each thread still owes. *)
Definition balanced (x : Executor) : Prop :=
  (forall id w, In (Some (id, w)) (ex_queue x) -> owes 0 w) /\
  exists ns, Forall2 owed (ex_threads x) ns /\ (ex_free x + items x + sum_list ns)%nat = ex_capacity x.

Lemma sum_list_insert_at (ns : list nat) i n m : ns !! i = Some n ->
  (sum_list (<[i := m]> ns) + n = sum_list ns + m)%nat.
Proof.
  revert i. induction ns as [|a ns IH]; intros [|i] H; try done; simpl in *.
  - injection H as ->. lia.
  - specialize (IH i H). lia.
Qed.

Lemma Forall2_at {A B} (R : A -> B -> Prop) l k i a : Forall2 R l k -> l !! i = Some a ->
  exists b, k !! i = Some b /\ R a b.
Proof. intros H Hi. by apply (Forall2_lookup_l R l k i a) in H as (b & ? & ?); [exists b|]. Qed.

(** One thread moves on; the slots and the items make up for what it owes. *)
Lemma balanced_thread x y i t t' :
  balanced x -> ex_threads x !! i = Some t ->
  ex_threads y = <[i := t']> (ex_threads x) -> ex_capacity y = ex_capacity x ->
  (forall id w, In (Some (id, w)) (ex_queue y) -> In (Some (id, w)) (ex_queue x)) ->
  (forall n, owed t n -> (ex_free x + items x + n <= ex_capacity x)%nat ->
     exists n', owed t' n' /\ (ex_free y + items y + n' = ex_free x + items x + n)%nat) -> balanced y.
Proof.
  intros [Hw (ns & Hns & Hsum)] Hi Et Ec Hq Hn. split; [eauto|].
  destruct (Forall2_at _ _ _ _ _ Hns Hi) as (m & Hm & Hom).
  pose proof (sum_list_insert_at ns i m 0 Hm).
  destruct (Hn m Hom ltac:(lia)) as (m' & Hm' & Heq).
  exists (<[i := m']> ns). rewrite Et, Ec. split; [by apply Forall2_insert|].
  pose proof (sum_list_insert_at ns i m m' Hm). lia.
Qed.

Lemma balanced_submitted id w x y : owes 0 w -> balanced x -> submitted id w x y -> balanced y.
Proof.
  intros Hw [Hq (ns & Hns & Hsum)] (Et & Ec & [(Eq & _ & Ef)|(Eq & _ & Ef)]).
  - split; rewrite ?Eq; [done|]. exists ns. rewrite Et, Ec. unfold items in *. rewrite Eq, Ef by lia. done.
  - split; rewrite ?Eq.
    + intros j v [H|[[= <- <-]|[]]]%in_app_iff; eauto.
    + exists ns. rewrite Et, Ec. unfold items in *. rewrite Eq, List.filter_app, length_app. simpl. split; [done|lia].
Qed.

Lemma step_balanced x y : executes x y -> balanced x -> balanced y.
Proof.
  intros Hstep Hx. destruct Hstep as [x id k s w Hw|x id k s w a Hw|x A m Hm|x i id w q Hi Hq|x i q Hi Hq
    |x i id B m next Hi|x i id next Hi|x i id Hi|x i id e Hi|x|x Hc Hq Hr].
  - apply (balanced_submitted id w x); [apply Hw|done|apply submit_effect].
  - apply (balanced_submitted id w x); [apply Hw|done|apply resubmit_effect].
  - unfold on_db. by destruct (m (ex_db x)).
  - assert (Hw : owes 0 w) by (apply (proj1 Hx id); rewrite Hq; by left).
    apply (balanced_thread x _ i Idle (Busy id (run_item id w))); try done.
    + intros. simpl in *. rewrite Hq. by right.
    + intros n Hn _. simpl in Hn. subst n. exists 1%nat. split; [by apply owes_run|]. unfold items in *. simpl. rewrite Hq. simpl. lia.
  - apply (balanced_thread x _ i Idle Stopped); try done.
    + intros. simpl in *. rewrite Hq. by right.
    + intros n Hn _. simpl in Hn. subst n. exists 0%nat. split; [done|]. unfold items. simpl. by rewrite Hq.
  - unfold on_db. destruct (m (ex_db x)) as [r c] eqn:Em. simpl.
    apply (balanced_thread x _ i (Busy id (Call m next)) (Busy id (next r))); try done.
    intros n Hn _. exists n. split; [apply Hn|done].
  - apply (balanced_thread x _ i (Busy id (Release next))
      (match (release x).1 with Ok _ => Busy id next | Raise _ => Dead id end)); try done.
    + unfold release. by destruct (_ <? _)%nat.
    + unfold release. by destruct (_ <? _)%nat.
    + intros n (k & -> & Hk) Hle. unfold release. destruct (ex_free x <? ex_capacity x)%nat eqn:E.
      * exists k. split; [done|]. unfold items. simpl. lia.
      * apply Nat.ltb_ge in E. lia.
  - apply (balanced_thread x _ i (Busy id (Return (Ok tt))) Idle); try done. intros n Hn _. simpl in Hn. subst n. by exists 0%nat.
  - apply (balanced_thread x _ i (Busy id (Return (Raise e))) (Dead id)); try done. intros n Hn _. simpl in Hn. subst n. by exists 0%nat.
  - done.
  - destruct Hx as [H1 (ns & H2 & H3)]. split; simpl.
    + intros id w Hin. apply list_elem_of_In, elem_of_replicate in Hin as [? _]. done.
    + exists ns. split; [done|]. rewrite <- H3. unfold items. simpl. rewrite Hq. do 2 f_equal.
      by induction (length (ex_threads x)).
Qed.

Lemma reached_balanced x : reached x -> balanced x.
Proof.
  induction 1 as [c workers capacity x c' H|x y Hx IH Hs]; [|by eapply step_balanced].
  apply create_ok in H as (_ & _ & Hq & Ht & Hf & Hc). unfold balanced, items. rewrite Hq, Ht, Hf, Hc.
  split; [done|]. exists (replicate workers 0%nat). split; [by apply Forall2_replicate|].
  simpl. rewrite sum_list_replicate. lia.
Qed.

(** C27. Slots are conserved: in every interleaving the free slots and the queued
    items never exceed the capacity, a worker's release is never refused by the
    bounded semaphore, and whenever the workers are between items every slot
    not free is that of a queued item: none leaks, even when a worker dies. *)
Theorem slots_conserved x :
  reached x ->
  (ex_free x + items x <= ex_capacity x)%nat
  /\ (forall i id next, ex_threads x !! i = Some (Busy id (Release next)) -> (release x).1 = Ok tt)
  /\ (forallb at_rest (ex_threads x) = true -> (ex_free x + items x = ex_capacity x)%nat).
Proof.
  intros [Hw (ns & Hns & Hsum)]%reached_balanced. split_and!; [lia| |].
  - intros i id next Hi. destruct (Forall2_at _ _ _ _ _ Hns Hi) as (m & Hm & k & -> & _).
    pose proof (sum_list_insert_at ns i (S k) 0 Hm). unfold release.
    destruct (Nat.ltb_spec (ex_free x) (ex_capacity x)); [done|lia].
  - intros Hr. assert (Hz : sum_list ns = 0%nat); [|lia]. clear Hsum.
    induction Hns as [|t n ts ns Ht _ IH]; [done|]. simpl in *. apply andb_true_iff in Hr as [H1 H2].
    rewrite IH by done. destruct t; simpl in *; [by subst|done|by subst|by subst].
Qed.

(** *** One worker, one item *)

Definition demo_work : code unit := _ ← call (run_call (demo_begin demo_id)); mret tt.

Lemma demo_work_proper : proper_work demo_work.
Proof.
  split; simpl; [|by intros [?|?]]. split; [by apply (quiet_call (demo_begin demo_id))|]. by intros [?|?].
Qed.

Definition demo_executor : Executor := {|
  ex_db := (_recover_startup (after [Claim demo_id demo_digest None])).2; ex_capacity := 2; ex_free := 2;
  ex_queue := []; ex_threads := [Idle]; ex_closed := false |}.

Definition demo_submitted : Executor := (submit demo_id "app.deploy" demo_scope demo_work demo_executor).2.

Lemma demo_reached : reached demo_submitted.
Proof.
  eapply reachable_next; [|apply step_submit, demo_work_proper].
  eapply (reachable_create _ _ (after [Claim demo_id demo_digest None]) 1 2). vm_compute. reflexivity.
Qed.

Lemma no_dispatch_stranded_witness :
  live demo_id (store (ex_db demo_submitted))
  /\ (queued demo_id demo_submitted
      \/ (exists i p, ex_threads demo_submitted !! i = Some (Busy demo_id p) /\ settles demo_id p)
      \/ (exists i, ex_threads demo_submitted !! i = Some (Dead demo_id))).
Proof.
  assert (Hl : live demo_id (store (ex_db demo_submitted))).
  { eexists. split_and!; [vm_compute; left; reflexivity|reflexivity|reflexivity]. }
  split; [exact Hl|]. exact (proj1 (no_dispatch_stranded _ _ demo_reached Hl)).
Defined.

Lemma slots_conserved_witness :
  (ex_free demo_submitted + items demo_submitted = ex_capacity demo_submitted)%nat
  /\ items demo_submitted = 1%nat.
Proof.
  split; [|vm_compute; reflexivity].
  apply (slots_conserved demo_submitted demo_reached). vm_compute. reflexivity.
Defined.
