(* ===== verification/Applications.v ===== *)
(** * Applications and their deployments
    (src/openstack_platform/controller/database.py)

    Application rows and their retired slugs, deployment attempts with their
    configuration snapshots, the accepted deployment of each application,
    environment revisions and names, image selections and builder flavors.
    Each definition is one function of the module. *)

From S2P Require Import Prelude Regex Json JsonParse Validation Runtime Sql Schema StorageCapacity.
From S2P Require Import StorageContract DeploymentConfig Sha256 Operations.

Definition _REQUESTED_REF : re :=
  Rep 1 (Some 256%nat) true (Cls (fun a => (32 <? code a) && negb (code a =? 127))).
Definition _ENVIRONMENT_OWNER : re :=
  alts [lit "platform"; lit "staff";
        cats [lit "storage."; alts [lit "postgres"; lit "mongo"; lit "s3"]; lit "."; Cls lower;
              Rep 0 (Some 39%nat) true (Cls slug_char)]].

Definition visible_applications (d : Db) : list Application :=
  List.filter (fun r => negb (tombstoned d (app_application_id r))) (applications d).

(** ** Builder flavors and image selections *)

Definition flavor_text (flavor : string) : result string := flavor_reference flavor.

Definition get_default_builder_flavor : DB (option string) :=
  row ← fetchone (fun _ : BuilderSettings => true);
  match row with
  | None => mret None
  | Some r => f ← lift (flavor_text (bs_flavor r)); mret (Some f)
  end.

Definition put_default_builder_flavor (flavor : string) : DB unit :=
  f ← lift (flavor_text flavor);
  transaction (upsert (fun _ => true) {| bs_flavor := f |} (fun _ => {| bs_flavor := f |})).

Definition app_is (application_id : string) (r : Application) : bool :=
  String.eqb (app_application_id r) application_id.

Definition get_application_builder_flavor (application_id : string) : DB (option string) :=
  identifier ← lift (uuid application_id);
  row ← fetchone (app_is identifier);
  match row with
  | None => raise (ValidationError "application does not exist")
  | Some r =>
      match app_builder_flavor r with
      | None => mret None
      | Some flavor => f ← lift (flavor_text flavor); mret (Some f)
      end
  end.

Definition set_builder_flavor (flavor : option string) (now : string) (r : Application) : Application := {|
  app_application_id := app_application_id r; app_slug := app_slug r;
  app_repository_url := app_repository_url r; app_desired_running := app_desired_running r;
  app_url := app_url r; app_worker_server_id := app_worker_server_id r;
  app_worker_server_name := app_worker_server_name r; app_worker_port_id := app_worker_port_id r;
  app_worker_port_name := app_worker_port_name r; app_worker_flavor := app_worker_flavor r;
  app_scheduler_cpu_mhz := app_scheduler_cpu_mhz r;
  app_scheduler_memory_mib := app_scheduler_memory_mib r; app_created_at := app_created_at r;
  app_updated_at := now; app_builder_flavor := flavor |}.

Definition put_application_builder_flavor (application_id : string) (flavor : option string) : DB unit :=
  identifier ← lift (uuid application_id);
  checked ← (match flavor with
    | None => mret None
    | Some f => f ← lift (flavor_text f); mret (Some f)
    end : DB (option string));
  transaction (
    now ← read_clock;
    count ← update (app_is identifier) (set_builder_flavor checked now);
    if negb (Nat.eqb count 1) then raise (ValidationError "application does not exist") else mret tt).

Definition or_clock (value : option string) : DB string := now_or value.

Definition put_image_selection (role image_id display_name source_commit compatibility_hash : string)
    (selected_at : option string) : DB unit :=
  _ ← lift (uuid image_id);
  _ ← lift (commit source_commit);
  _ ← lift (sha256_hex compatibility_hash);
  transaction (
    timestamp ← or_clock selected_at;
    let row := {| im_role := role; im_image_id := image_id; im_display_name := display_name;
                  im_source_commit := source_commit; im_compatibility_hash := compatibility_hash;
                  im_selected_at := timestamp |} in
    upsert (fun r => String.eqb (im_role r) role) row (fun _ => row)).

Definition get_image_selection (role : string) : DB (option ImageSelection) :=
  fetchone (fun r => String.eqb (im_role r) role).

Definition list_image_selections : DB (list ImageSelection) :=
  rows ← select (fun _ : ImageSelection => true);
  mret (sort_by (fun a b => str_leb (im_role a) (im_role b)) rows).

(** ** Applications *)

Record ApplicationInput := {
  in_application_id : string;
  in_slug : string;
  in_worker_flavor : string;
  in_scheduler_cpu_mhz : Z;
  in_scheduler_memory_mib : Z;
  in_repository_url : option string;
  in_desired_running : bool;
  in_url : option string;
  in_worker_server_id : option string;
  in_worker_server_name : option string;
  in_worker_port_id : option string;
  in_worker_port_name : option string;
}.

Definition input_row (a : ApplicationInput) (now : string) : Application := {|
  app_application_id := in_application_id a; app_slug := in_slug a;
  app_repository_url := in_repository_url a; app_desired_running := in_desired_running a;
  app_url := in_url a; app_worker_server_id := in_worker_server_id a;
  app_worker_server_name := in_worker_server_name a; app_worker_port_id := in_worker_port_id a;
  app_worker_port_name := in_worker_port_name a; app_worker_flavor := in_worker_flavor a;
  app_scheduler_cpu_mhz := in_scheduler_cpu_mhz a;
  app_scheduler_memory_mib := in_scheduler_memory_mib a; app_created_at := now;
  app_updated_at := now; app_builder_flavor := None |}.

(** The columns [ON CONFLICT ... DO UPDATE] leaves alone are the creation time
    and the builder flavor. *)
Definition input_update (a : ApplicationInput) (now : string) (r : Application) : Application := {|
  app_application_id := app_application_id r; app_slug := in_slug a;
  app_repository_url := in_repository_url a; app_desired_running := in_desired_running a;
  app_url := in_url a; app_worker_server_id := in_worker_server_id a;
  app_worker_server_name := in_worker_server_name a; app_worker_port_id := in_worker_port_id a;
  app_worker_port_name := in_worker_port_name a; app_worker_flavor := in_worker_flavor a;
  app_scheduler_cpu_mhz := in_scheduler_cpu_mhz a;
  app_scheduler_memory_mib := in_scheduler_memory_mib a; app_created_at := app_created_at r;
  app_updated_at := now; app_builder_flavor := app_builder_flavor r |}.

Definition set_lifecycle (s : lifecycle) (now : string) (r : ActiveDeployment) : ActiveDeployment := {|
  ac_application_id := ac_application_id r; ac_deployment_id := ac_deployment_id r;
  ac_lifecycle_state := s; ac_updated_at := now |}.

Definition lifecycle_of (running : bool) : lifecycle := if running then l_running else l_stopped.

Definition active_of (application_id : string) (r : ActiveDeployment) : bool :=
  String.eqb (ac_application_id r) application_id.

Definition new_tombstone (slug application_id now : string) : SlugTombstone := {|
  ts_slug := slug; ts_application_id := application_id; ts_deleted_at := now |}.

Definition put_application (a : ApplicationInput) (now : option string) (within_transaction : bool)
    : DB unit :=
  application_id ← lift (uuid (in_application_id a));
  application_slug ← lift (slug (in_slug a));
  _ ← lift (opt_check (in_worker_server_id a) (fun i => ignore (uuid i)));
  _ ← lift (opt_check (in_worker_port_id a) (fun i => ignore (uuid i)));
  _ ← require (negb ((in_scheduler_cpu_mhz a <=? 0) || (in_scheduler_memory_mib a <=? 0)
                     || String.eqb (in_worker_flavor a) ""))
        (ValidationError "application sizing must be positive and have a worker flavor");
  timestamp ← now_or now;
  acceptance_write within_transaction (
    tombstone ← fetchone (fun t => String.eqb (ts_slug t) application_slug);
    match tombstone with
    | Some _ => raise (DatabaseError "application slug is permanently retired")
    | None =>
        existing ← fetchone (app_is application_id);
        _ ← (match existing with
             | Some r =>
                 if negb (String.eqb (app_slug r) application_slug)
                 then insert (new_tombstone (app_slug r) application_id timestamp)
                 else mret tt
             | None => mret tt
             end : DB unit);
        _ ← upsert (app_is application_id) (input_row a timestamp) (input_update a timestamp);
        _ ← insert_or_ignore (fun r => String.eqb (er_application_id r) application_id)
              {| er_application_id := application_id; er_revision := 0; er_updated_at := timestamp |};
        _ ← update (active_of application_id)
              (set_lifecycle (lifecycle_of (in_desired_running a)) timestamp);
        mret tt
    end).

Definition _get_application_including_tombstone (application_id : string) : DB (option Application) :=
  fetchone (app_is application_id).

Definition list_applications : DB (list Application) :=
  gets (fun c => sort_by (fun a b => str_leb (app_slug a) (app_slug b))
    (visible_applications (store c))).

Record WorkerIdentity := {
  wk_server_id : option string;
  wk_server_name : option string;
  wk_port_id : option string;
  wk_port_name : option string;
}.

Definition set_runtime (running : bool) (w : WorkerIdentity) (now : string) (r : Application)
    : Application := {|
  app_application_id := app_application_id r; app_slug := app_slug r;
  app_repository_url := app_repository_url r; app_desired_running := running;
  app_url := app_url r; app_worker_server_id := wk_server_id w;
  app_worker_server_name := wk_server_name w; app_worker_port_id := wk_port_id w;
  app_worker_port_name := wk_port_name w; app_worker_flavor := app_worker_flavor r;
  app_scheduler_cpu_mhz := app_scheduler_cpu_mhz r;
  app_scheduler_memory_mib := app_scheduler_memory_mib r; app_created_at := app_created_at r;
  app_updated_at := now; app_builder_flavor := app_builder_flavor r |}.

Definition _revision (value : Z) (field : string) : result Z :=
  if value <? 0 then Raise (ValidationError (field +:+ " must be a non-negative integer")) else Ok value.

(** One deployment attempt's columns, all that an update may change. *)
Definition set_attempt (st : attempt_status) (recipe_hash image_digest nomad_job nomad_job_sha256
    : option string) (nomad_version : option Z) (build_log_path safe_error cleanup_state : option string)
    (now : string) (accepted_at last_healthy_at : option string) (r : DeploymentAttempt)
    : DeploymentAttempt := {|
  at_deployment_id := at_deployment_id r; at_application_id := at_application_id r; at_st := st;
  at_source_commit := at_source_commit r; at_requested_ref := at_requested_ref r;
  at_configuration_revision := at_configuration_revision r;
  at_configuration_json := at_configuration_json r;
  at_configuration_sha256 := at_configuration_sha256 r;
  at_environment_revision := at_environment_revision r;
  at_idempotency_request_id := at_idempotency_request_id r;
  at_recipe_hash := recipe_hash; at_image_digest := image_digest; at_nomad_job := nomad_job;
  at_nomad_job_sha256 := nomad_job_sha256; at_nomad_version := nomad_version;
  at_health_path := at_health_path r; at_application_port := at_application_port r;
  at_build_log_path := build_log_path; at_safe_error := safe_error;
  at_cleanup_state := cleanup_state; at_requested_at := at_requested_at r; at_updated_at := now;
  at_accepted_at := accepted_at; at_last_healthy_at := last_healthy_at |}.

Definition set_healthy (version : Z) (now : string) (r : DeploymentAttempt) : DeploymentAttempt :=
  set_attempt (at_st r) (at_recipe_hash r) (at_image_digest r) (at_nomad_job r)
    (at_nomad_job_sha256 r) (Some version) (at_build_log_path r) (at_safe_error r)
    (at_cleanup_state r) now (at_accepted_at r) (Some now) r.

Definition set_application_runtime (application_id : string) (running : bool) (w : WorkerIdentity)
    (nomad_version : option Z) (now : option string) (within_transaction : bool) : DB unit :=
  identifier ← lift (uuid application_id);
  _ ← require (negb (running && (is_null (wk_server_id w) || is_null (wk_server_name w)
                                 || is_null (wk_port_id w) || is_null (wk_port_name w))))
        (ValidationError "running application requires exact worker identity");
  _ ← lift (opt_check (wk_server_id w) (fun i => ignore (uuid i)));
  _ ← lift (opt_check (wk_port_id w) (fun i => ignore (uuid i)));
  _ ← lift (opt_check nomad_version (fun v => ignore (_revision v "nomad version")));
  timestamp ← now_or now;
  acceptance_write within_transaction (
    count ← update (app_is identifier) (set_runtime running w timestamp);
    if negb (Nat.eqb count 1) then raise (DatabaseError "application is missing")
    else
      active ← fetchone (active_of identifier);
      match active with
      | None => mret tt
      | Some a =>
          _ ← update (active_of identifier) (set_lifecycle (lifecycle_of running) timestamp);
          match nomad_version with
          | None => mret tt
          | Some v =>
              _ ← update (fun r => String.eqb (at_deployment_id r) (ac_deployment_id a)
                                   && String.eqb (at_application_id r) identifier)
                    (set_healthy v timestamp);
              mret tt
          end
      end).

(** ** Deployment attempts *)

(** [_deployment_attempt]: a row whose snapshot was checked against its hash,
    with the configuration the snapshot decodes to. *)
Record Attempt := {
  attempt_row : DeploymentAttempt;
  attempt_configuration : DeploymentConfiguration;
}.

Definition _deployment_attempt (row : DeploymentAttempt) : result Attempt :=
  let encoded := at_configuration_json row in
  if negb (String.eqb (sha256_hexdigest encoded) (at_configuration_sha256 row)) then
    Raise (DatabaseError "deployment configuration snapshot hash does not match")
  else
    configuration ← parse_configuration_text encoded;
    if negb (String.eqb (canonical_json configuration) encoded) then
      Raise (DatabaseError "deployment configuration snapshot is not canonical")
    else Ok {| attempt_row := row; attempt_configuration := configuration |}.

Definition checked_attempt (row : option DeploymentAttempt) : result (option Attempt) :=
  match row with None => Ok None | Some r => a ← _deployment_attempt r; Ok (Some a) end.

Definition attempt_is (deployment_id : string) (r : DeploymentAttempt) : bool :=
  String.eqb (at_deployment_id r) deployment_id.

Definition get_deployment_attempt (deployment_id : string) : DB (option Attempt) :=
  identifier ← lift (uuid deployment_id);
  row ← fetchone (attempt_is identifier);
  lift (checked_attempt row).

(** [deployment_runtime]: the evidence in the deploy operation's references.
    [json_extract] gives a string's own text, which [json.loads] then decodes. *)
Definition runtime_record (value : json) : option dict :=
  match value with
  | JObj d =>
      if same_keys d ["runtime"; "version"; "image"; "source"]
         && forallb (fun kv => match kv.2 with JNull | JStr _ => true | _ => false end) d
      then Some d else None
  | _ => None
  end.

Definition deployment_runtime (deployment_id : string) : DB (option dict) :=
  identifier ← lift (uuid deployment_id);
  row ← fetchone (fun r => String.eqb (op_operation_id r) identifier);
  match row with
  | None => mret None
  | Some r =>
      match refs_get "runtime" (op_refs r) with
      | JStr s => match loads s with Some v => mret (runtime_record v) | None => raise ValueError end
      | JInt _ | JBool _ => raise TypeError
      | v => mret (runtime_record v)
      end
  end.

Definition get_active_deployment (application_id : string) : DB (option ActiveDeployment) :=
  fetchone (active_of application_id).

Record Deployment := {
  de_application_id : string;
  de_deployment_id : string;
  de_source_commit : string;
  de_recipe_hash : string;
  de_image_digest : string;
  de_nomad_job : string;
  de_nomad_job_sha256 : string;
  de_nomad_version : Z;
  de_health_path : string;
  de_application_port : Z;
  de_build_log_path : string;
  de_accepted_at : string;
  de_last_healthy_at : string;
}.

(** The attempt an application's active deployment joins with. *)
Definition active_attempt (application_id : string) (d : Db) : option DeploymentAttempt :=
  a ← List.find (active_of application_id) (active_deployments d);
  List.find (fun r => String.eqb (at_deployment_id r) (ac_deployment_id a)
                      && String.eqb (at_application_id r) (ac_application_id a))
    (deployment_attempts d).

Definition deployment_of (r : DeploymentAttempt) : result Deployment :=
  match at_recipe_hash r, at_image_digest r, at_nomad_job r, at_nomad_job_sha256 r,
        at_nomad_version r, at_health_path r, at_application_port r, at_build_log_path r,
        at_accepted_at r, at_last_healthy_at r with
  | Some recipe, Some image, Some job, Some job_hash, Some version, Some health, Some port,
    Some log, Some accepted, Some healthy =>
      Ok {| de_application_id := at_application_id r; de_deployment_id := at_deployment_id r;
            de_source_commit := at_source_commit r; de_recipe_hash := recipe;
            de_image_digest := image; de_nomad_job := job; de_nomad_job_sha256 := job_hash;
            de_nomad_version := version; de_health_path := health; de_application_port := port;
            de_build_log_path := log; de_accepted_at := accepted; de_last_healthy_at := healthy |}
  | _, _, _, _, _, _, _, _, _, _ => Raise (DatabaseError "active deployment evidence is incomplete")
  end.

Definition get_deployment (application_id : string) : DB (option Deployment) :=
  row ← gets (fun c => active_attempt application_id (store c));
  attempt ← lift (checked_attempt row);
  match attempt with
  | None => mret None
  | Some a => d ← lift (deployment_of (attempt_row a)); mret (Some d)
  end.

(** ** Environment revisions *)

Definition revision_of (application_id : string) (r : EnvironmentRevision) : bool :=
  String.eqb (er_application_id r) application_id.

Definition get_environment_revision (application_id : string) : DB (option EnvironmentRevision) :=
  identifier ← lift (uuid application_id);
  fetchone (revision_of identifier).

Definition next_revision (now : string) (r : EnvironmentRevision) : EnvironmentRevision := {|
  er_application_id := er_application_id r; er_revision := er_revision r + 1; er_updated_at := now |}.

Definition advance_environment_revision (application_id : string) (expected_revision : Z)
    (now : option string) : DB EnvironmentRevision :=
  identifier ← lift (uuid application_id);
  _ ← transaction (
    timestamp ← now_or now;
    count ← update (fun r => revision_of identifier r && (er_revision r =? expected_revision))
              (next_revision timestamp);
    if negb (Nat.eqb count 1) then raise (DatabaseError "environment revision is missing or stale")
    else mret tt);
  get_environment_revision identifier ≫= asserted.

(** ** Creating and checkpointing attempts *)

Record AttemptInput := {
  ai_deployment_id : string;
  ai_application_id : string;
  ai_source_commit : string;
  ai_requested_ref : string;
  ai_configuration_revision : Z;
  ai_configuration : DeploymentConfiguration;
  ai_environment_revision : Z;
  ai_idempotency_request_id : string;
}.

Definition requested_ref (value : string) : result string :=
  matching _REQUESTED_REF "requested source ref is malformed" value.

Definition new_attempt (i : AttemptInput) (now : string) : DeploymentAttempt := {|
  at_deployment_id := ai_deployment_id i; at_application_id := ai_application_id i;
  at_st := a_queued; at_source_commit := ai_source_commit i;
  at_requested_ref := Some (ai_requested_ref i);
  at_configuration_revision := Some (ai_configuration_revision i);
  at_configuration_json := canonical_json (ai_configuration i);
  at_configuration_sha256 := sha256_hexdigest (canonical_json (ai_configuration i));
  at_environment_revision := Some (ai_environment_revision i);
  at_idempotency_request_id := Some (ai_idempotency_request_id i);
  at_recipe_hash := None; at_image_digest := None; at_nomad_job := None;
  at_nomad_job_sha256 := None; at_nomad_version := None;
  at_health_path := Some (cf_health_path (ai_configuration i));
  at_application_port := Some (cf_port (ai_configuration i));
  at_build_log_path := None; at_safe_error := None; at_cleanup_state := None;
  at_requested_at := now; at_updated_at := now; at_accepted_at := None;
  at_last_healthy_at := None |}.

(** The attempt an earlier call with this request already created, if any. *)
Definition replayed_attempt (request : IdempotencyRequest) (identifier : string)
    : DB (option Attempt) :=
  match rq_result_id request with
  | None => mret None
  | Some _ =>
      if negb (same_result request "deployment" identifier || same_result request "operation" identifier)
      then raise (IdempotencyConflictError "idempotency request already has a different result")
      else
        existing ← get_deployment_attempt identifier;
        match existing with
        | Some a => mret (Some a)
        | None =>
            if bool_decide (rq_result_kind request = Some "deployment") then
              raise (DatabaseError "idempotency result deployment is missing")
            else mret None
        end
  end.

Definition create_deployment_attempt (i : AttemptInput) (now : option string) : DB Attempt :=
  identifier ← lift (uuid (ai_deployment_id i));
  application ← lift (uuid (ai_application_id i));
  _ ← lift (commit (ai_source_commit i));
  _ ← lift (requested_ref (ai_requested_ref i));
  _ ← lift (_revision (ai_configuration_revision i) "configuration revision");
  environment ← lift (_revision (ai_environment_revision i) "environment revision");
  request_id ← lift (uuid (ai_idempotency_request_id i));
  timestamp ← now_or now;
  early ← transaction (
    request ← get_idempotency_request request_id;
    match request with
    | None => raise (DatabaseError "idempotency request is missing")
    | Some q =>
        replay ← replayed_attempt q identifier;
        match replay with
        | Some a => mret (Some a)
        | None =>
            current ← get_environment_revision application;
            if negb (bool_decide (er_revision <$> current = Some environment)) then
              raise (DatabaseError "environment revision is missing or stale")
            else
              unfinished ← fetchone (fun r => String.eqb (at_application_id r) application
                                              && unfinished_attempt (at_st r));
              match unfinished with
              | Some _ => raise (DatabaseError "application already has an unfinished deployment attempt")
              | None =>
                  _ ← insert (new_attempt i timestamp);
                  _ ← update (fun r => String.eqb (rq_request_id r) request_id)
                        (set_result "deployment" identifier timestamp);
                  mret None
              end
        end
    end);
  match early with
  | Some a => mret a
  | None => get_deployment_attempt identifier ≫= asserted
  end.

Definition attempt_status_of (s : string) : option attempt_status :=
  if String.eqb s "queued" then Some a_queued
  else if String.eqb s "building" then Some a_building
  else if String.eqb s "deploying" then Some a_deploying
  else if String.eqb s "succeeded" then Some a_succeeded
  else if String.eqb s "failed" then Some a_failed
  else if String.eqb s "recovery_required" then Some a_recovery_required
  else None.

(** The keyword arguments of a checkpoint. *)
Record Evidence := {
  ev_recipe_hash : option string;
  ev_image_digest : option string;
  ev_nomad_job : option string;
  ev_nomad_job_sha256 : option string;
  ev_nomad_version : option Z;
  ev_build_log_path : option string;
  ev_error : option failure;
  ev_cleanup_state : option string;
}.

Definition check_evidence (e : Evidence) : result unit :=
  _ ← opt_check (ev_recipe_hash e) (fun v => ignore (sha256_hex v));
  _ ← opt_check (ev_image_digest e) (fun v => ignore (oci_digest_pin v));
  _ ← opt_check (ev_nomad_job_sha256 e) (fun v => ignore (sha256_hex v));
  _ ← opt_check (ev_nomad_version e) (fun v => ignore (_revision v "nomad version"));
  _ ← opt_check (ev_build_log_path e) (fun p =>
        guard_else (negb (String.eqb p "" || (1024 <? String.length p)%nat))
          (ValidationError "build log path is malformed"));
  opt_check (ev_cleanup_state e) (fun s => ignore (cleanup_state_ s)).

Definition or_else {A} (new old : option A) : option A :=
  match new with Some a => Some a | None => old end.

Definition apply_evidence (st : attempt_status) (e : Evidence) (now : string) (r : DeploymentAttempt)
    : DeploymentAttempt :=
  let accepted := bool_decide (st = a_succeeded) in
  set_attempt st (or_else (ev_recipe_hash e) (at_recipe_hash r))
    (or_else (ev_image_digest e) (at_image_digest r)) (or_else (ev_nomad_job e) (at_nomad_job r))
    (or_else (ev_nomad_job_sha256 e) (at_nomad_job_sha256 r))
    (or_else (ev_nomad_version e) (at_nomad_version r))
    (or_else (ev_build_log_path e) (at_build_log_path r))
    (or_else (summary_of <$> ev_error e) (at_safe_error r))
    (or_else (ev_cleanup_state e) (at_cleanup_state r)) now
    (if accepted then Some now else at_accepted_at r)
    (if accepted then Some now else at_last_healthy_at r) r.

Definition needs_error (st : attempt_status) : bool :=
  match st with a_failed | a_recovery_required => true | _ => false end.

Definition set_running (now : string) (r : Application) : Application := {|
  app_application_id := app_application_id r; app_slug := app_slug r;
  app_repository_url := app_repository_url r; app_desired_running := true;
  app_url := app_url r; app_worker_server_id := app_worker_server_id r;
  app_worker_server_name := app_worker_server_name r; app_worker_port_id := app_worker_port_id r;
  app_worker_port_name := app_worker_port_name r; app_worker_flavor := app_worker_flavor r;
  app_scheduler_cpu_mhz := app_scheduler_cpu_mhz r;
  app_scheduler_memory_mib := app_scheduler_memory_mib r; app_created_at := app_created_at r;
  app_updated_at := now; app_builder_flavor := app_builder_flavor r |}.

(** [except sqlite3.IntegrityError] *)
Definition incomplete_evidence (e : error) : DB nat :=
  match e with
  | IntegrityError => raise (DatabaseError "deployment attempt evidence is incomplete")
  | e => raise e
  end.

Definition checkpoint_deployment_attempt (deployment_id status : string) (e : Evidence)
    (now : option string) (within_transaction : bool) : DB Attempt :=
  identifier ← lift (uuid deployment_id);
  match attempt_status_of status with
  | None => raise (ValidationError "deployment attempt status is malformed")
  | Some st =>
      _ ← lift (check_evidence e);
      timestamp ← now_or now;
      _ ← acceptance_write within_transaction (
        current ← get_deployment_attempt identifier;
        match current with
        | None => raise (DatabaseError "deployment attempt is missing")
        | Some a =>
            if needs_error st && is_null (or_else (summary_of <$> ev_error e)
                                            (at_safe_error (attempt_row a))) then
              raise (DatabaseError "failed deployment attempt requires a safe error")
            else
              _ ← catch (update (attempt_is identifier) (apply_evidence st e timestamp))
                        incomplete_evidence;
              if bool_decide (st = a_succeeded) then
                let application_id := at_application_id (attempt_row a) in
                let row := {| ac_application_id := application_id; ac_deployment_id := identifier;
                              ac_lifecycle_state := l_running; ac_updated_at := timestamp |} in
                _ ← upsert (active_of application_id) row (fun _ => row);
                _ ← update (app_is application_id) (set_running timestamp);
                mret tt
              else mret tt
        end);
      get_deployment_attempt identifier ≫= asserted
  end.

(** ** Reading attempts and the images they reference *)

(** [ORDER BY requested_at DESC, deployment_id DESC] *)
Definition newest_attempt_first (a b : DeploymentAttempt) : bool :=
  str_ltb (at_requested_at b) (at_requested_at a)
  || (String.eqb (at_requested_at a) (at_requested_at b)
      && str_leb (at_deployment_id b) (at_deployment_id a)).

Definition list_deployment_attempts (application_id : string) (status : option string)
    : DB (list Attempt) :=
  identifier ← lift (uuid application_id);
  match status, (match status with Some s => attempt_status_of s | None => None end) with
  | Some _, None => raise (ValidationError "deployment attempt status is malformed")
  | _, st =>
      rows ← select (fun r => String.eqb (at_application_id r) identifier
        && match st with Some s => bool_decide (at_st r = s) | None => true end);
      lift (each _deployment_attempt (sort_by newest_attempt_first rows))
  end.

Definition active_storage_resource_ids (application_id : string) : DB (list string) :=
  identifier ← lift (uuid application_id);
  active ← get_active_deployment identifier;
  match active with
  | None => mret []
  | Some a =>
      attempt ← get_deployment_attempt (ac_deployment_id a);
      match attempt with
      | None => mret []
      | Some t => mret (map sb_resource_id (cf_storage_bindings (attempt_configuration t)))
      end
  end.

(** [ORDER BY updated_at DESC, operation_id DESC] *)
Definition newest_operation_first (a b : Operation) : bool :=
  str_ltb (op_updated_at b) (op_updated_at a)
  || (String.eqb (op_updated_at a) (op_updated_at b)
      && str_leb (op_operation_id b) (op_operation_id a)).

Definition candidates (application_id : string) (p : Operation -> bool) : DB (list string) :=
  rows ← select (fun r => String.eqb (op_scope r) ("app-" +:+ application_id)
    && String.eqb (op_kind r) "app.deploy" && p r && not_null (op_candidate_digest r));
  mret (omap op_candidate_digest (sort_by newest_operation_first rows)).

(** [for row in rows: ... if image not in images: images.append(image)] *)
Fixpoint append_images (images rows : list string) : result (list string) :=
  match rows with
  | [] => Ok images
  | row :: rest =>
      image ← oci_digest_pin row;
      append_images (if one_of_words images image then images else images ++ [image]) rest
  end.

Definition attempt_images (attempts : list Attempt) : result (list string) :=
  each (fun image => oci_digest_pin (JStr image))
    (omap (fun a => at_image_digest (attempt_row a)) attempts).

Definition list_application_manifest_images (application_id : string) : DB (list string) :=
  identifier ← lift (uuid application_id);
  attempts ← list_deployment_attempts identifier None;
  images ← lift (attempt_images attempts);
  rows ← candidates identifier (fun _ => true);
  lift (append_images images rows).

Definition list_application_successful_manifest_history (application_id : string) : DB (list string) :=
  identifier ← lift (uuid application_id);
  attempts ← list_deployment_attempts identifier (Some "succeeded");
  images ← lift (attempt_images attempts);
  rows ← candidates identifier (fun r => bool_decide (op_st r = op_succeeded));
  lift (append_images images rows).

Definition list_active_application_manifest_references (application_id : string) : DB (list string) :=
  identifier ← lift (uuid application_id);
  deployment ← get_deployment identifier;
  images ← (match deployment with
    | Some d => image ← lift (oci_digest_pin (de_image_digest d)); mret [image]
    | None => mret []
    end : DB (list string));
  rows ← candidates identifier (fun r => unfinished (op_st r));
  lift (append_images images rows).

(** [ORDER BY started_at DESC, operation_id DESC] *)
Definition list_application_deploy_operations (application_id : string) : DB (list Operation) :=
  rows ← select (fun r => String.eqb (op_scope r) ("app-" +:+ application_id)
    && String.eqb (op_kind r) "app.deploy");
  mret (sort_by (fun a b => str_ltb (op_started_at b) (op_started_at a)
    || (String.eqb (op_started_at a) (op_started_at b)
        && str_leb (op_operation_id b) (op_operation_id a))) rows).

(** [collect]: every image UUID below a key that names images. *)
Definition image_key (key : option string) : bool :=
  match key with
  | None => false
  | Some k => String.eqb k "image_id" || endswith k "_image_id" || endswith k "_image_ids"
  end.

Fixpoint collect_images (value : json) (key : option string) {struct value} : result (list string) :=
  match value with
  | JStr s => if image_key key then i ← uuid s; Ok [i] else Ok []
  | JArr l =>
      (fix go l := match l with
        | [] => Ok []
        | x :: l' =>
            here ← (if image_key key then i ← uuid x; Ok [i] else collect_images x key);
            rest ← go l';
            Ok (here ++ rest)
        end) l
  | JObj d =>
      (fix go d := match d with
        | [] => Ok []
        | (k, x) :: d' => here ← collect_images x (Some k); rest ← go d'; Ok (here ++ rest)
        end) d
  | _ => Ok []
  end.

Fixpoint sorted_set (l : list string) : list string :=
  match l with
  | [] => []
  | x :: l' => let s := sorted_set l' in if one_of_words s x then s else insert_by str_leb x s
  end.

Definition unfinished_operation_image_ids (exclude_operation_id : option string) : DB (list string) :=
  _ ← lift (opt_check exclude_operation_id (fun i => ignore (uuid i)));
  rows ← select (fun r => unfinished (op_st r)
    && negb (bool_decide (Some (op_operation_id r) = exclude_operation_id)));
  found ← lift (each (fun r => collect_images (JObj (op_refs r)) None) rows);
  mret (sorted_set (concat found)).

(** ** Environment names, retired slugs and deletion *)

Definition get_slug_tombstone (application_slug : string) : DB (option SlugTombstone) :=
  checked_slug ← lift (slug application_slug);
  fetchone (fun t => String.eqb (ts_slug t) checked_slug).

Definition set_environment_keys (application_id owner : string) (keys : list string) : DB unit :=
  identifier ← lift (uuid application_id);
  _ ← require (fullmatch _ENVIRONMENT_OWNER owner) (ValidationError "unknown environment key owner");
  checked ← lift (each (fun k => env_key (JStr k)) keys);
  transaction (
    _ ← delete (fun r => String.eqb (ek_application_id r) identifier && String.eqb (ek_owner r) owner);
    for_each (sorted_set checked) (fun k => insert
      {| ek_application_id := identifier; ek_key_name := k; ek_owner := owner |})).

Definition list_environment_keys (application_id : option string) : DB (list EnvironmentKey) :=
  rows ← select (fun r => match application_id with
    | Some i => String.eqb (ek_application_id r) i | None => true end);
  mret (sort_by (fun a b => pair_leb (ek_application_id a, ek_key_name a)
                                     (ek_application_id b, ek_key_name b)) rows).

Definition set_deleted (now : string) (r : Application) : Application := {|
  app_application_id := app_application_id r; app_slug := app_slug r;
  app_repository_url := app_repository_url r; app_desired_running := false;
  app_url := None; app_worker_server_id := None; app_worker_server_name := None;
  app_worker_port_id := None; app_worker_port_name := None;
  app_worker_flavor := app_worker_flavor r;
  app_scheduler_cpu_mhz := app_scheduler_cpu_mhz r;
  app_scheduler_memory_mib := app_scheduler_memory_mib r; app_created_at := app_created_at r;
  app_updated_at := now; app_builder_flavor := app_builder_flavor r |}.

Definition deletion_ready (application_id : string) (operation : option Operation) : bool :=
  match operation with
  | Some o =>
      String.eqb (op_kind o) "app.delete" && unfinished (op_st o)
      && py_eqb (refs_get "application_id" (op_refs o)) (JStr application_id)
      && String.eqb (op_phase o) "manifest_absent"
  | None => false
  end.

Definition complete_application_deletion (application_id operation_id : string)
    (now : option string) : DB unit :=
  identifier ← lift (uuid application_id);
  operation_identifier ← lift (uuid operation_id);
  timestamp ← now_or now;
  transaction (
    operation ← get_operation operation_identifier;
    if negb (deletion_ready identifier operation) then
      raise (DatabaseError "application deletion operation is not ready to complete")
    else
      resource ← fetchone (fun r => String.eqb (mr_application_id r) identifier);
      match resource with
      | Some _ => raise (DatabaseError "application deletion refuses managed resource rows")
      | None =>
          application ← _get_application_including_tombstone identifier;
          match application with
          | None => raise (DatabaseError "application is missing")
          | Some a =>
              _ ← insert_or_ignore (fun t => String.eqb (ts_slug t) (app_slug a))
                    (new_tombstone (app_slug a) identifier timestamp);
              _ ← delete (fun r => String.eqb (ek_application_id r) identifier);
              _ ← update (app_is identifier) (set_deleted timestamp);
              _ ← update (active_of identifier) (set_lifecycle l_stopped timestamp);
              count ← update (live operation_identifier)
                        (set_finished op_succeeded timestamp None (Some "tombstoned") (Some "confirmed"));
              if negb (Nat.eqb count 1) then
                raise (DatabaseError "application deletion operation could not be completed")
              else mret tt
          end
      end).
