(* ===== verification/ApplicationsSpec.v ===== *)
(** * Properties of applications and deployments

    An invariant of every database the controller's calls can reach (retired
    slugs, snapshots that match their hash, complete evidence of the accepted
    deployment), and the functional specifications of the calls that advance
    an environment, create, accept and delete. *)

From S2P Require Import Prelude Regex Json JsonParse Validation Runtime Sql Schema StorageCapacity.
From S2P Require Import StorageContract DeploymentConfig Sha256 Operations FinishingRetries OperationsSpec AdmissionSpec.
From S2P Require Import Applications.

(** ** The interface *)

Inductive app_call :=
  | Journal (k : journal_call)
  | PutApplication (a : ApplicationInput) (now : option string)
  | SetRuntime (application_id : string) (running : bool) (w : WorkerIdentity)
      (nomad_version : option Z) (now : option string)
  | PutBuilderFlavor (application_id : string) (flavor : option string)
  | PutDefaultFlavor (flavor : string)
  | PutImage (role image_id display_name source_commit compatibility_hash : string)
      (selected_at : option string)
  | AdvanceEnvironment (application_id : string) (expected : Z) (now : option string)
  | SetKeys (application_id owner : string) (keys : list string)
  | CreateAttempt (i : AttemptInput) (now : option string)
  | CheckpointAttempt (deployment_id status : string) (e : Evidence) (now : option string)
  | Accept (a : ApplicationInput) (deployment_id : string) (e : Evidence) (now : option string)
  | Delete (application_id operation_id : string) (now : option string).

(** [Accept] is the acceptance transaction of a deployment: the application's
    placement and the succeeded checkpoint commit together. *)
Definition run_app_call (k : app_call) : DB unit :=
  match k with
  | Journal k => run_call k
  | PutApplication a n => put_application a n false
  | SetRuntime i r w v n => set_application_runtime i r w v n false
  | PutBuilderFlavor i f => put_application_builder_flavor i f
  | PutDefaultFlavor f => put_default_builder_flavor f
  | PutImage r i d s h t => put_image_selection r i d s h t
  | AdvanceEnvironment i e n => discard (advance_environment_revision i e n)
  | SetKeys i o ks => set_environment_keys i o ks
  | CreateAttempt i n => discard (create_deployment_attempt i n)
  | CheckpointAttempt i s e n => discard (checkpoint_deployment_attempt i s e n false)
  | Accept a i e n => transaction (
      _ ← put_application a n true;
      discard (checkpoint_deployment_attempt i "succeeded" e n true))
  | Delete a o n => complete_application_deletion a o n
  end.

(** A configuration in a call is one the parser returned. *)
Definition well_formed (k : app_call) : Prop :=
  match k with CreateAttempt i _ => good_configuration (ai_configuration i) | _ => True end.

Inductive app_reachable : Db -> Prop :=
  | app_init : app_reachable empty_db
  | app_step c k : app_reachable (store c) -> in_transaction c = false -> well_formed k ->
      app_reachable (store (run_app_call k c).2).

(** ** The invariant *)

(** Only the application that retired a slug may still carry it. *)
Definition slugs_retired (tombs : list SlugTombstone) (apps : list Application) : Prop :=
  forall t a, In t tombs -> In a apps -> app_slug a = ts_slug t ->
    app_application_id a = ts_application_id t.

Definition snapshot_good (r : DeploymentAttempt) : Prop :=
  at_configuration_sha256 r = sha256_hexdigest (at_configuration_json r)
  /\ exists c, good_configuration c /\ at_configuration_json r = canonical_json c
     /\ not_null (at_health_path r) = true /\ not_null (at_application_port r) = true.

Definition evidence_complete (r : DeploymentAttempt) : bool := is_ok (deployment_of r).

Definition accepted_complete (active : list ActiveDeployment) (attempts : list DeploymentAttempt) : Prop :=
  forall a, In a active ->
    (exists r, In r attempts /\ at_deployment_id r = ac_deployment_id a) /\
    forall r, In r attempts -> at_deployment_id r = ac_deployment_id a -> evidence_complete r = true.

Definition app_slug_key (r : Application) : key := pk (app_slug r).

Record AppInv (d : Db) : Prop := {
  inv_unique : unique_on app_slug_key (applications d);
  inv_slugs : slugs_retired (application_slug_tombstones d) (applications d);
  inv_snapshots : Forall snapshot_good (deployment_attempts d);
  inv_accepted : accepted_complete (active_deployments d) (deployment_attempts d);
}.

(** What every call does: the invariant is kept and no slug is released. *)
Definition app_keeps (d d' : Db) : Prop :=
  AppInv d -> AppInv d' /\ incl (application_slug_tombstones d) (application_slug_tombstones d').

#[export] Instance app_keeps_preorder : PreOrder app_keeps.
Proof.
  split; [intros d H; split; [done|apply incl_refl]|].
  intros x y z Hxy Hyz H. destruct (Hxy H) as [Hy Hi]. destruct (Hyz Hy) as [Hz Hj].
  split; [done|]. by eapply incl_tran.
Qed.

(** *** Tables the invariant does not read *)

Definition same_apps (d d' : Db) : Prop :=
  applications d' = applications d
  /\ application_slug_tombstones d' = application_slug_tombstones d
  /\ deployment_attempts d' = deployment_attempts d /\ active_deployments d' = active_deployments d.

#[export] Instance same_apps_preorder : PreOrder same_apps.
Proof. unfold same_apps. split; [done|]. intros x y z Hxy Hyz. destruct_and!. split_and!; congruence. Qed.

Lemma same_apps_keeps d d' : same_apps d d' -> app_keeps d d'.
Proof.
  intros (Ha & Ht & Hr & Hc) [H0 H1 H2 H3]. split; [|rewrite Ht; apply incl_refl].
  constructor; rewrite ?Ha, ?Ht, ?Hr, ?Hc; done.
Qed.

Lemma evolves_impl {A} (P Q : Db -> Db -> Prop) (m : DB A) :
  (forall d d', P d d' -> Q d d') -> evolves P m -> evolves Q m.
Proof. intros HPQ Hm c. apply HPQ, Hm. Qed.

Lemma same_update_live i f : evolves same_apps (update_live i f).
Proof. unfold update_live. evolve; done. Qed.
#[local] Hint Resolve same_update_live : evolve.

Lemma same_finish i st e p u n : evolves same_apps (_finish_operation i st e p u n).
Proof. unfold _finish_operation. evolve. Qed.
#[local] Hint Resolve same_finish : evolve.

Lemma journal_same_apps k : evolves same_apps (run_call k).
Proof.
  destruct k; unfold run_call, discard, claim_idempotency_request, complete_idempotency_request,
    enqueue_operation_dispatch, requeue_recovery_dispatch, consume_retry, set_operation_dispatch_status,
    mark_operation_finishing, begin_operation, renew_operation_deadline, checkpoint_operation,
    mark_recovery_required, record_finishing_failure, mark_succeeded, mark_failed, schedule, next_retry;
    evolve; done.
Qed.

Lemma reads_env i : reads (get_environment_revision i).
Proof. unfold get_environment_revision. reads. Qed.
Lemma reads_attempt i : reads (get_deployment_attempt i).
Proof. unfold get_deployment_attempt. reads. Qed.
#[export] Hint Resolve reads_env reads_attempt : reads.

Lemma default_flavor_same f : evolves same_apps (put_default_builder_flavor f).
Proof. unfold put_default_builder_flavor. evolve; done. Qed.
Lemma image_same r i d s h t : evolves same_apps (put_image_selection r i d s h t).
Proof. unfold put_image_selection, or_clock. evolve; done. Qed.
Lemma advance_same i e n : evolves same_apps (advance_environment_revision i e n).
Proof. unfold advance_environment_revision. evolve; done. Qed.
Lemma keys_same i o ks : evolves same_apps (set_environment_keys i o ks).
Proof. unfold set_environment_keys. evolve; done. Qed.

(** *** Calls that commit only when they return *)

Lemma evolves_commit {A} (P : Db -> Db -> Prop) `{!Reflexive P} (m : DB A) :
  (forall c a c', m c = (Ok a, c') -> P (store c) (store c')) -> evolves P (transaction m).
Proof.
  intros Hm c. unfold transaction. destruct (in_transaction c); simpl; [done|].
  destruct (m _) as [[a|e] c'] eqn:E; simpl; [|done]. by apply Hm in E.
Qed.

Lemma acceptance_ok {A} w (m : DB A) c a c' : acceptance_write w m c = (Ok a, c') ->
  exists c1 c2, m c1 = (Ok a, c2) /\ store c1 = store c /\ store c' = store c2.
Proof.
  unfold acceptance_write. destruct w.
  - destruct (in_transaction c); [|done]. intros H. by exists c, c'.
  - intros (c1 & H & -> & _)%transaction_ok. by exists (with_transaction true c), c1.
Qed.

Lemma evolves_acceptance_commit {A} (P : Db -> Db -> Prop) `{!Reflexive P} (m : DB A) :
  (forall c a c', m c = (Ok a, c') -> P (store c) (store c')) -> evolves P (acceptance_write false m).
Proof. intros Hm. unfold acceptance_write. by apply (evolves_commit P). Qed.

(** *** Updates of one table *)

Lemma app_slug_index : In app_slug_key (unique_keys (Table := applications_table)).
Proof. by right; left. Qed.

Lemma keeps_apps_update d p f :
  table_ok d (apply_where p f (applications d)) = true ->
  (forall r, app_slug (f r) = app_slug r /\ app_application_id (f r) = app_application_id r) ->
  app_keeps d (with_applications (apply_where p f (applications d)) d).
Proof.
  intros Hok Hf [_ H1 H2 H3]. split; [|apply incl_refl]. constructor; simpl; [| |done|done].
  { apply (table_ok_unique _ _ _ Hok), app_slug_index. }
  intros t a Ht (a0 & Ha & ->)%in_apply_where. destruct (p a0); [|eauto].
  destruct (Hf a0) as [-> ->]. eauto.
Qed.

Lemma keeps_active_update d p f :
  (forall r, ac_deployment_id (f r) = ac_deployment_id r) ->
  app_keeps d (with_active_deployments (apply_where p f (active_deployments d)) d).
Proof.
  intros Hf [H0 H1 H2 H3]. split; [|apply incl_refl]. constructor; simpl; [done|done|done|].
  intros a (a0 & Ha & ->)%in_apply_where. destruct (p a0); [rewrite Hf|]; by apply H3.
Qed.

(** An update of an attempt keeps its request and only adds evidence. *)
Definition extends (r r' : DeploymentAttempt) : Prop :=
  at_deployment_id r' = at_deployment_id r /\ at_configuration_json r' = at_configuration_json r
  /\ at_configuration_sha256 r' = at_configuration_sha256 r
  /\ at_health_path r' = at_health_path r /\ at_application_port r' = at_application_port r
  /\ (evidence_complete r = true -> evidence_complete r' = true).

Lemma keeps_attempts_update d p f :
  (forall r, extends r (f r)) ->
  app_keeps d (with_deployment_attempts (apply_where p f (deployment_attempts d)) d).
Proof.
  intros Hf [H0 H1 H2 H3]. split; [|apply incl_refl]. constructor; simpl; [done|done| |].
  - apply List.Forall_forall. intros r (r0 & Hr & ->)%in_apply_where.
    rewrite List.Forall_forall in H2. specialize (H2 r0 Hr). destruct (p r0); [|done].
    destruct (Hf r0) as (_ & Hj & Hs & Hh & Hp & _). unfold snapshot_good in *.
    by rewrite Hj, Hs, Hh, Hp.
  - intros a Ha. destruct (H3 a Ha) as [(r & Hr & Hid) Hall]. split.
    + exists (if p r then f r else r). split; [apply in_apply_where; eauto|].
      destruct (p r); [|done]. by destruct (Hf r) as [-> _].
    + intros r' (r0 & Hr0 & ->)%in_apply_where. destruct (p r0); [|by apply Hall].
      destruct (Hf r0) as (-> & _ & _ & _ & _ & He). intros Hid0. by apply He, Hall.
Qed.

Lemma evidence_iff r : evidence_complete r = true <->
  not_null (at_recipe_hash r) && not_null (at_image_digest r) && not_null (at_nomad_job r)
  && not_null (at_nomad_job_sha256 r) && not_null (at_nomad_version r)
  && not_null (at_health_path r) && not_null (at_application_port r)
  && not_null (at_build_log_path r) && not_null (at_accepted_at r)
  && not_null (at_last_healthy_at r) = true.
Proof.
  unfold evidence_complete, deployment_of.
  destruct (at_recipe_hash r), (at_image_digest r), (at_nomad_job r), (at_nomad_job_sha256 r),
    (at_nomad_version r), (at_health_path r), (at_application_port r), (at_build_log_path r),
    (at_accepted_at r), (at_last_healthy_at r); done.
Qed.

Lemma not_null_or_else {A} (new old : option A) : not_null old = true -> not_null (or_else new old) = true.
Proof. by destruct new, old. Qed.

Lemma evidence_extends st e now r : extends r (apply_evidence st e now r).
Proof.
  unfold extends. split_and!; try done. rewrite !evidence_iff, !andb_true_iff. simpl.
  intros H. destruct_and!. split_and!;
    (assumption || (by apply not_null_or_else) || (by case_bool_decide)).
Qed.

Lemma healthy_extends v now r : extends r (set_healthy v now r).
Proof.
  unfold extends. split_and!; try done. rewrite !evidence_iff, !andb_true_iff. simpl.
  intros H. destruct_and!. by split_and!.
Qed.

#[local] Hint Extern 1 (app_keeps _ (put_rows _ _)) =>
  first [apply same_apps_keeps; done
        | apply keeps_apps_update; [assumption|done]
        | apply keeps_active_update; done
        | apply keeps_attempts_update; intros; apply healthy_extends ] : evolve.

Lemma runtime_keeps i r w v n : evolves app_keeps (set_application_runtime i r w v n false).
Proof. unfold set_application_runtime. evolve; auto with evolve. Qed.

Lemma builder_keeps i f : evolves app_keeps (put_application_builder_flavor i f).
Proof. unfold put_application_builder_flavor. evolve; auto with evolve. Qed.

(** *** Writing an application *)

(** Taking a free slug, and retiring the one it replaces. *)
Lemma slugs_taken d i s tombs apps a now :
  AppInv d -> (forall t, In t (application_slug_tombstones d) -> ts_slug t <> s) ->
  (tombs = application_slug_tombstones d \/
   exists old, In old (applications d) /\ app_application_id old = i /\ app_slug old <> s
     /\ tombs = application_slug_tombstones d ++ [new_tombstone (app_slug old) i now]) ->
  in_slug a = s -> in_application_id a = i ->
  (apps = applications d ++ [input_row a now] \/ apps = apply_where (app_is i) (input_update a now) (applications d)) ->
  slugs_retired tombs apps.
Proof.
  intros [Hu Hs _ _] Hfree Htombs Has Hai Happs t x Ht Hx Hslug.
  assert (Hx' : (app_slug x = s) \/ (In x (applications d) /\ (app_application_id x = i ->
      apps = applications d ++ [input_row a now]))).
  { destruct Happs as [->| ->].
    - apply in_app_iff in Hx as [Hx|[<-|[]]]; [right|left]; auto.
    - apply in_apply_where in Hx as (y & Hy & ->). unfold app_is. destruct (String.eqb_spec (app_application_id y) i).
      + left. done.
      + right. split; [done|]. done. }
  destruct Htombs as [->|(old & Hold & Hid & Hne & ->)].
  - destruct Hx' as [E|[Hin _]]; [|eauto]. exfalso. apply (Hfree t Ht). congruence.
  - apply in_app_iff in Ht as [Ht|[<-|[]]].
    + destruct Hx' as [E|[Hin _]]; [|eauto]. exfalso. apply (Hfree t Ht). congruence.
    + simpl in *. destruct Hx' as [E|[Hin _]]; [congruence|].
      assert (x = old) as ->; [|done].
      apply (unique_on_inj app_slug_key _ _ _ [app_slug old] Hu); auto; unfold app_slug_key, pk; congruence.
Qed.

Lemma upsert_ok {R} `{Table Db R} p r f c u c' : upsert p r f c = (Ok u, c') ->
  exists t, (t = rows (store c) ++ [r] \/ t = apply_where p f (rows (store c)))
    /\ store c' = put_rows t (store c) /\ table_ok (store c) t = true.
Proof.
  unfold upsert. destruct (existsb _ _).
  - intros H0. apply bind_ok in H0 as (n & c1 & (-> & _ & Ht)%update_ok & H1). injection H1 as _ <-.
    eexists. split; [by right|]. done.
  - intros [-> Ht]%insert_ok. eexists. split; [by left|]. done.
Qed.

Lemma insert_or_ignore_ok {R} `{Table Db R} p r c u c' : insert_or_ignore p r c = (Ok u, c') ->
  store c' = store c \/ (store c' = put_rows (rows (store c) ++ [r]) (store c)
    /\ table_ok (store c) (rows (store c) ++ [r]) = true).
Proof.
  unfold insert_or_ignore. destruct (existsb _ _); [by intros [= _ <-]; left|].
  intros [-> Ht]%insert_ok. by right.
Qed.

Lemma put_application_ok a n w c u c' :
  put_application a n w c = (Ok u, c') -> app_keeps (store c) (store c').
Proof.
  unfold put_application. intros H Hinv.
  apply bind_ok in H as (i & c1 & [Hi ->]%lift_ok & H). pose proof (uuid_same _ _ Hi) as ->.
  apply bind_ok in H as (s & c1 & [Hs ->]%lift_ok & H). apply slug_ok in Hs as [[= <-] _].
  apply bind_ok in H as (? & c1 & [_ ->]%lift_ok & H).
  apply bind_ok in H as (? & c1 & [_ ->]%lift_ok & H).
  apply bind_ok in H as (? & c1 & Hreq & H). unfold require in Hreq. injection Hreq as _ <-.
  apply bind_ok in H as (now & c2 & [Hc2 _]%now_or_inv & H).
  apply acceptance_ok in H as (c3 & c4 & H & Hc3 & ->). rewrite Hc2 in Hc3. rewrite <- Hc3 in *. clear Hc2 Hc3.
  apply bind_ok in H as (tomb & c5 & [Htomb ->]%reads_ok & H); [|apply reads_fetchone].
  injection Htomb as Htomb. destruct tomb; [discriminate|].
  apply bind_ok in H as (old & c5 & [Hold ->]%reads_ok & H); [|apply reads_fetchone].
  injection Hold as Hold. simpl in Htomb, Hold.
  apply bind_ok in H as (? & c5 & Hins & H). apply bind_ok in H as (? & c6 & Hup & H).
  apply bind_ok in H as (? & c7 & Hrev & H). apply bind_ok in H as (? & c8 & Hact & H).
  injection H as _ <-.
  assert (Hfree : forall t, In t (application_slug_tombstones (store c3)) -> ts_slug t <> in_slug a).
  { intros t Ht E. apply (find_none_in _ _ _ Htomb) in Ht. simpl in Ht. by rewrite E, String.eqb_refl in Ht. }
  assert (Hd1 : exists tombs, store c5 = with_application_slug_tombstones tombs (store c3) /\
    (tombs = application_slug_tombstones (store c3) \/
     exists old, In old (applications (store c3)) /\ app_application_id old = in_application_id a
       /\ app_slug old <> in_slug a
       /\ tombs = application_slug_tombstones (store c3) ++ [new_tombstone (app_slug old) (in_application_id a) now])).
  { destruct old as [r|]; [destruct (String.eqb_spec (app_slug r) (in_slug a)) as [E|E]; simpl in Hins|].
    - injection Hins as _ <-. eexists. split; [|by left]. by destruct (store c3).
    - apply insert_ok in Hins as [-> _]. eexists. split; [done|]. right. exists r.
      apply find_some_in in Hold as [Hr Hid]. apply String.eqb_eq in Hid. done.
    - injection Hins as _ <-. eexists. split; [|by left]. by destruct (store c3). }
  destruct Hd1 as (tombs & Hd1 & Htombs).
  apply upsert_ok in Hup as (apps & Happs & Hd2 & Hok). rewrite Hd1 in Happs, Hok, Hd2. simpl in *.
  assert (Hd3 : same_apps (store c6) (store c7)).
  { apply insert_or_ignore_ok in Hrev as [->|[-> _]]; done. }
  apply update_ok in Hact as (-> & _). simpl.
  assert (Hd4 : app_keeps (store c7) (with_active_deployments (apply_where (active_of (in_application_id a))
    (set_lifecycle (lifecycle_of (in_desired_running a)) now) (active_deployments (store c7))) (store c7)))
    by (by apply keeps_active_update).
  apply same_apps_keeps in Hd3.
  assert (Hinv2 : AppInv (store c6)).
  { rewrite Hd2. destruct Hinv as [H0 H1 H2 H3]. constructor; simpl; [| |done|done].
    - apply (table_ok_unique _ _ _ Hok), app_slug_index.
    - by apply (slugs_taken (store c3) (in_application_id a) (in_slug a) tombs apps a now). }
  assert (Hincl : incl (application_slug_tombstones (store c3)) (application_slug_tombstones (store c6))).
  { rewrite Hd2. simpl. destruct Htombs as [->|(o & _ & _ & _ & ->)]; [apply incl_refl|by apply incl_appl, incl_refl]. }
  destruct (Hd3 Hinv2) as [Hinv3 Hincl3]. destruct (Hd4 Hinv3) as [Hinv4 Hincl4].
  split; [done|]. eapply incl_tran; [exact Hincl|]. by eapply incl_tran.
Qed.

Lemma evolves_atomic {A} (P : Db -> Db -> Prop) `{!Reflexive P} (m : DB A) :
  atomic m -> (forall c a c', m c = (Ok a, c') -> P (store c) (store c')) -> evolves P m.
Proof.
  intros Ha Hm c. destruct (m c) as [[a|e] c'] eqn:E; simpl; [by eapply Hm|].
  by rewrite (Ha _ _ _ E).
Qed.

Lemma atomic_acceptance {A} (m : DB A) : atomic (acceptance_write false m).
Proof. exact (atomic_transaction m). Qed.

Lemma atomic_put_application a n : atomic (put_application a n false).
Proof.
  unfold put_application. do 6 (apply atomic_bind_still; [by evolve|intros _ ? _ _]).
  apply atomic_acceptance.
Qed.

Lemma put_application_keeps a n : evolves app_keeps (put_application a n false).
Proof.
  apply (evolves_atomic app_keeps); [apply atomic_put_application|]. intros c u c'. apply put_application_ok.
Qed.

(** *** Creating an attempt *)

Lemma new_attempt_good i now : good_configuration (ai_configuration i) -> snapshot_good (new_attempt i now).
Proof. intros G. split; [done|]. by exists (ai_configuration i). Qed.

Definition attempt_key (r : DeploymentAttempt) : key := pk (at_deployment_id r).

Lemma keeps_new_attempt d r :
  table_ok d (deployment_attempts d ++ [r]) = true -> snapshot_good r ->
  app_keeps d (with_deployment_attempts (deployment_attempts d ++ [r]) d).
Proof.
  intros Hok Hr [H0 H1 H2 H3]. split; [|apply incl_refl]. constructor; simpl; [done|done| |].
  - apply List.Forall_app. split; [done|by constructor].
  - pose proof (table_ok_unique _ _ attempt_key Hok (or_introl eq_refl)) as Hu.
    apply unique_on_app in Hu as [_ Hu].
    intros a Ha. destruct (H3 a Ha) as [(r0 & Hr0 & Hid) Hall]. split.
    + exists r0. split; [|done]. apply in_app_iff. by left.
    + intros x [Hx|[<-|[]]]%in_app_iff Hx'; [by apply Hall|].
      exfalso. apply (Hu [at_deployment_id r] eq_refl r0 Hr0). unfold attempt_key, pk. congruence.
Qed.

(** The write of [create_deployment_attempt], once everything was checked. *)
Lemma create_body_ok i now identifier request_id c v c' :
  good_configuration (ai_configuration i) ->
  (_ ← insert (new_attempt i now);
   _ ← update (fun r => String.eqb (rq_request_id r) request_id) (set_result "deployment" identifier now);
   mret (v : option Attempt)) c = (Ok v, c') -> app_keeps (store c) (store c').
Proof.
  intros G H. apply bind_ok in H as (? & c1 & [-> Hok]%insert_ok & H).
  apply bind_ok in H as (? & c2 & (-> & _)%update_ok & H). injection H as <-.
  etrans; [apply (keeps_new_attempt _ _ Hok); by apply new_attempt_good|]. by apply same_apps_keeps.
Qed.

Lemma reads_replayed q i : reads (replayed_attempt q i).
Proof. unfold replayed_attempt. reads. Qed.
#[export] Hint Resolve reads_replayed : reads.

Lemma create_keeps i n : good_configuration (ai_configuration i) ->
  evolves app_keeps (create_deployment_attempt i n).
Proof.
  intros G. unfold create_deployment_attempt.
  do 7 (apply (evolves_bind_lift app_keeps); intros ? _).
  apply (evolves_bind app_keeps); [by evolve|]. intros now.
  apply (evolves_bind app_keeps); [|intros []; by evolve].
  apply (evolves_commit app_keeps). intros c v c' H.
  apply bind_ok in H as (q & c1 & [_ ->]%reads_ok & H); [|auto with reads].
  destruct q as [q|]; [|discriminate].
  apply bind_ok in H as (rep & c1 & [_ ->]%reads_ok & H); [|auto with reads].
  destruct rep; [by injection H as _ <-|].
  apply bind_ok in H as (cur & c1 & [_ ->]%reads_ok & H); [|auto with reads].
  destruct (negb _); [discriminate|].
  apply bind_ok in H as (unf & c1 & [_ ->]%reads_ok & H); [|auto with reads].
  destruct unf; [discriminate|].
  assert (v = None) as -> by (clear -H; by follow). by eapply create_body_ok.
Qed.

(** *** Checkpoints *)

Lemma catch_ok {A} (m : DB A) h c a c' :
  (forall e c1 c2, h e c1 = (Ok a, c2) -> False) -> catch m h c = (Ok a, c') -> m c = (Ok a, c').
Proof.
  intros Hh. unfold catch. destruct (m c) as [[x|e] c1] eqn:E; [done|]. intros H. by apply Hh in H.
Qed.

(** An accepted row passed the CHECK constraint on succeeded attempts. *)
Lemma succeeded_complete r : attempt_check r = true -> at_st r = a_succeeded -> snapshot_good r ->
  evidence_complete r = true.
Proof.
  unfold attempt_check. rewrite !andb_true_iff. intros H Hst (_ & _ & _ & _ & Hh & Hp).
  rewrite Hst, !andb_true_iff in H. apply evidence_iff. rewrite !andb_true_iff. destruct_and!. done.
Qed.

Lemma checkpoint_body_ok i st e now c u c' :
  (current ← get_deployment_attempt i;
   match current with
   | None => raise (DatabaseError "deployment attempt is missing")
   | Some a =>
       if needs_error st && is_null (or_else (summary_of <$> ev_error e) (at_safe_error (attempt_row a))) then
         raise (DatabaseError "failed deployment attempt requires a safe error")
       else
         _ ← catch (update (attempt_is i) (apply_evidence st e now)) incomplete_evidence;
         if bool_decide (st = a_succeeded) then
           let application_id := at_application_id (attempt_row a) in
           let row := {| ac_application_id := application_id; ac_deployment_id := i;
                         ac_lifecycle_state := l_running; ac_updated_at := now |} in
           _ ← upsert (active_of application_id) row (fun _ => row);
           _ ← update (app_is application_id) (set_running now);
           mret tt
         else mret tt
   end) c = (Ok u, c') -> app_keeps (store c) (store c').
Proof.
  intros H. apply bind_ok in H as (cur & c1 & [Hcur ->]%reads_ok & H); [|auto with reads].
  destruct cur as [a|]; [|discriminate]. destruct (needs_error st && _); [discriminate|].
  apply bind_ok in H as (k & c1 & H1 & H).
  apply catch_ok in H1; [|intros [] ? ?; discriminate].
  apply update_ok in H1 as (-> & _ & Hok). simpl in Hok.
  assert (K1 : app_keeps (store c) (with_deployment_attempts (apply_where (attempt_is i)
    (apply_evidence st e now) (deployment_attempts (store c))) (store c)))
    by (apply keeps_attempts_update; intros; apply evidence_extends).
  etrans; [exact K1|]. simpl in H.
  destruct (bool_decide (st = a_succeeded)) eqn:Est; [|by injection H as _ <-].
  apply bool_decide_eq_true in Est as ->.
  apply bind_ok in H as (? & c2 & (t & Ht & Hc2 & Hokt)%upsert_ok & H).
  apply bind_ok in H as (? & c3 & (-> & _ & Hok3)%update_ok & H). injection H as _ <-.
  intros [H0 H1 H2 H3]. simpl in *. rewrite Hc2 in *. simpl in *.
  set (row := {| ac_application_id := at_application_id (attempt_row a); ac_deployment_id := i;
                 ac_lifecycle_state := l_running; ac_updated_at := now |}) in *.
  assert (Hrow : In row t -> exists r, In r (apply_where (attempt_is i) (apply_evidence a_succeeded e now)
      (deployment_attempts (store c))) /\ at_deployment_id r = i).
  { intros Hin. apply (table_ok_row _ _ _ Hokt) in Hin as [_ Hr]. simpl in Hr.
    apply andb_true_iff in Hr as [_ Hr]. apply existsb_exists in Hr as (r & Hr & [_ E]%andb_true_iff).
    exists r. by apply String.eqb_eq in E. }
  assert (Hdone : forall r, In r (apply_where (attempt_is i) (apply_evidence a_succeeded e now)
      (deployment_attempts (store c))) -> at_deployment_id r = i -> evidence_complete r = true).
  { intros r Hr Hid. pose proof (table_ok_row _ _ _ Hok Hr) as [Hc _].
    rewrite List.Forall_forall in H2. specialize (H2 r Hr). apply succeeded_complete; [done| |done].
    apply in_apply_where in Hr as (r0 & _ & ->). unfold attempt_is in *.
    destruct (String.eqb_spec (at_deployment_id r0) i); [done|]. by destruct n. }
  split; [|apply incl_refl]. constructor; simpl; [| |done|].
  - apply (table_ok_unique _ _ _ Hok3), app_slug_index.
  - intros tb ap Htb (ap0 & Hap & ->)%in_apply_where. destruct (app_is _ ap0); simpl; eauto.
  - intros ac Hx. assert (ac = row \/ In ac (active_deployments (store c))) as [->|Hx'].
    { destruct Ht as [->| ->]; [apply in_app_iff in Hx as [?|[<-|[]]]; auto|].
      apply in_apply_where in Hx as (y & Hy & ->). destruct (active_of _ y); auto. }
    + split; [by apply Hrow|]. intros r Hr Hid. by apply Hdone.
    + by apply H3.
Qed.

Lemma checkpoint_keeps i s e n : evolves app_keeps (checkpoint_deployment_attempt i s e n false).
Proof.
  unfold checkpoint_deployment_attempt. apply (evolves_bind_lift app_keeps). intros identifier _.
  destruct (attempt_status_of s) as [st|]; [|by evolve].
  apply (evolves_bind_lift app_keeps). intros _ _.
  apply (evolves_bind app_keeps); [by evolve|]. intros now.
  apply (evolves_bind app_keeps); [|intros []; by evolve].
  apply (evolves_acceptance_commit app_keeps). intros c u c'. apply checkpoint_body_ok.
Qed.

Lemma checkpoint_ok i s e n w c a c' :
  checkpoint_deployment_attempt i s e n w c = (Ok a, c') -> app_keeps (store c) (store c').
Proof.
  unfold checkpoint_deployment_attempt. intros H.
  apply bind_ok in H as (identifier & c1 & [_ ->]%lift_ok & H).
  destruct (attempt_status_of s) as [st|]; [|discriminate].
  apply bind_ok in H as (? & c1 & [_ ->]%lift_ok & H).
  apply bind_ok in H as (now & c2 & [Hc2 _]%now_or_inv & H).
  apply bind_ok in H as (? & c3 & (c4 & c5 & Hb & E4 & E3)%acceptance_ok & H).
  apply reads_ok in H as [_ ->]; [|apply reads_bind; auto with reads].
  rewrite E3, <- Hc2, <- E4. by apply checkpoint_body_ok in Hb.
Qed.

(** *** Deleting *)

Lemma keeps_own_tombstone d a now : In a (applications d) ->
  app_keeps d (with_application_slug_tombstones (application_slug_tombstones d
    ++ [new_tombstone (app_slug a) (app_application_id a) now]) d).
Proof.
  intros Ha [H0 H1 H2 H3]. split; [|apply incl_appl, incl_refl]. constructor; simpl; [done| |done|done].
  intros t x [Ht|[<-|[]]]%in_app_iff Hx Hslug; [eauto|]. simpl in *.
  assert (x = a) as ->; [|done].
  apply (unique_on_inj app_slug_key _ _ _ [app_slug a] H0); auto; unfold app_slug_key, pk; congruence.
Qed.

Lemma delete_keeps i o n : evolves app_keeps (complete_application_deletion i o n).
Proof.
  unfold complete_application_deletion. do 2 (apply (evolves_bind_lift app_keeps); intros ? _).
  apply (evolves_bind app_keeps); [by evolve|]. intros now.
  apply (evolves_commit app_keeps). intros c u c' H.
  apply bind_ok in H as (op & c1 & [_ ->]%reads_ok & H); [|auto with reads].
  destruct (negb _); [discriminate|].
  apply bind_ok in H as (mr & c1 & [_ ->]%reads_ok & H); [|apply reads_fetchone].
  destruct mr; [discriminate|].
  apply bind_ok in H as (ap & c1 & [Hap ->]%reads_ok & H); [|apply reads_fetchone].
  destruct ap as [a'|]; [|discriminate]. injection Hap as Hap.
  apply find_some_in in Hap as [Hin Hid]. apply String.eqb_eq in Hid. simpl in Hin.
  apply bind_ok in H as (? & c1 & H1 & H). apply bind_ok in H as (? & c2 & H2%delete_ok & H).
  apply bind_ok in H as (? & c3 & (H3 & _ & Hok3)%update_ok & H).
  apply bind_ok in H as (? & c4 & (H4 & _)%update_ok & H).
  apply bind_ok in H as (? & c5 & (H5 & _)%update_ok & H). destruct (negb _); [discriminate|].
  injection H as _ <-. subst. simpl in *.
  assert (K1 : app_keeps (store c) (store c1)).
  { apply insert_or_ignore_ok in H1 as [->|[-> _]]; [done|]. by apply keeps_own_tombstone. }
  etrans; [exact K1|].
  etrans; [apply (same_apps_keeps _ (with_environment_keys (List.filter (fun r => negb
    (String.eqb (ek_application_id r) (app_application_id a'))) (environment_keys (store c1))) (store c1))); done|].
  etrans; [apply keeps_apps_update; [exact Hok3|done]|].
  etrans; [apply (keeps_active_update _ (active_of (app_application_id a')) (set_lifecycle l_stopped now)); done|].
  by apply same_apps_keeps.
Qed.

Lemma accept_keeps a i e n : evolves app_keeps (run_app_call (Accept a i e n)).
Proof.
  apply (evolves_commit app_keeps). intros c u c' H.
  apply bind_ok in H as (? & c1 & H1%put_application_ok & H).
  apply bind_ok in H as (? & c2 & H2%checkpoint_ok & H). injection H as _ <-. by etrans.
Qed.

Lemma app_call_keeps k : well_formed k -> evolves app_keeps (run_app_call k).
Proof.
  pose proof same_apps_keeps as Hsame.
  destruct k; intros Hw; [| | | | | | | | | |apply accept_keeps|]; unfold run_app_call.
  - apply (evolves_impl same_apps); [done|apply journal_same_apps].
  - apply put_application_keeps.
  - apply runtime_keeps.
  - apply builder_keeps.
  - apply (evolves_impl same_apps); [done|apply default_flavor_same].
  - apply (evolves_impl same_apps); [done|apply image_same].
  - apply (evolves_impl same_apps); [done|]. apply (evolves_discard same_apps), advance_same.
  - apply (evolves_impl same_apps); [done|apply keys_same].
  - by apply (evolves_discard app_keeps), create_keeps.
  - apply (evolves_discard app_keeps), checkpoint_keeps.
  - apply delete_keeps.
Qed.

Lemma app_reachable_inv d : app_reachable d -> AppInv d.
Proof.
  induction 1 as [|c k Hr IH Ht Hw].
  - constructor; simpl; [constructor|by intros ? ? []|constructor|by intros ? []].
  - by destruct (app_call_keeps k Hw c IH).
Qed.

(** ** A deployment to look at *)

Definition demo_app : ApplicationInput := {|
  in_application_id := demo_id; in_slug := "demo-app"; in_worker_flavor := "example.1c2g";
  in_scheduler_cpu_mhz := 1000; in_scheduler_memory_mib := 2048; in_repository_url := None;
  in_desired_running := true; in_url := None; in_worker_server_id := None;
  in_worker_server_name := None; in_worker_port_id := None; in_worker_port_name := None |}.

Definition demo_config : DeploymentConfiguration := {|
  cf_schema_version := 1; cf_runtime := "node"; cf_packages := ["."]; cf_build_script := None;
  cf_start_script := "start"; cf_port := 3000; cf_health_path := "/"; cf_storage_bindings := [] |}.

Definition demo_commit : string := "0123456789abcdef0123456789abcdef01234567".
Definition demo_image : string := "registry/app@sha256:" +:+ demo_digest.

Definition demo_attempt : AttemptInput := {|
  ai_deployment_id := demo_other; ai_application_id := demo_id; ai_source_commit := demo_commit;
  ai_requested_ref := "main"; ai_configuration_revision := 1; ai_configuration := demo_config;
  ai_environment_revision := 0; ai_idempotency_request_id := demo_id |}.

Definition demo_evidence : Evidence := {|
  ev_recipe_hash := Some demo_digest; ev_image_digest := Some demo_image; ev_nomad_job := Some "job";
  ev_nomad_job_sha256 := Some demo_digest; ev_nomad_version := Some 1;
  ev_build_log_path := Some "/log"; ev_error := None; ev_cleanup_state := None |}.

Definition after_app (ks : list app_call) : conn Db :=
  fold_left (fun c k => (run_app_call k c).2) ks demo.

(** A connection to a database computed before *)
Definition opened (d : Db) : conn Db := Conn d false (clock demo) (uuids demo) 0.

Definition demo_deploy : list app_call :=
  [Journal (Claim demo_id demo_digest None); PutApplication demo_app None;
   CreateAttempt demo_attempt None; CheckpointAttempt demo_other "succeeded" demo_evidence None].

Definition demo_deployed : conn Db := after_app demo_deploy.

Lemma demo_config_good : good_configuration demo_config.
Proof.
  apply (parse_configuration_good (canonical (configuration_value demo_config))).
  - vm_compute. split_and!; try exact I;
      try (refine (bool_decide_eq_true_1 _ _); vm_compute; reflexivity);
      apply Nat.leb_le; vm_compute; reflexivity.
  - vm_compute. reflexivity.
Qed.

Lemma demo_deployed_reachable : app_reachable (store demo_deployed).
Proof.
  unfold demo_deployed, after_app, demo_deploy. cbn [fold_left].
  repeat (apply app_step; [|vm_compute; reflexivity|first [exact I|exact demo_config_good]]).
  apply app_init.
Qed.

(** C3. A retired slug stays retired: in every reachable database, whatever
    call comes next, the slug's tombstone is still there afterwards and no
    application that can be looked up or listed carries the slug (only the
    hidden row of the application that gave it up may). *)
Theorem retired_slug_final c k t :
  app_reachable (store c) -> well_formed k ->
  In t (application_slug_tombstones (store c)) ->
  let d' := store (run_app_call k c).2 in
  In t (application_slug_tombstones d') /\
  forall a, In a (visible_applications d') -> app_slug a <> ts_slug t.
Proof.
  intros Hr Hw Ht d'. apply app_reachable_inv in Hr.
  destruct (app_call_keeps k Hw c Hr) as [Hinv Hincl]. fold d' in Hinv, Hincl.
  split; [by apply Hincl|]. intros a [Ha Hvis]%filter_In Hslug.
  pose proof (inv_slugs _ Hinv t a (Hincl _ Ht) Ha Hslug) as Hid.
  apply negb_true_iff in Hvis. assert (tombstoned d' (app_application_id a) = true); [|congruence].
  apply existsb_exists. exists t. split; [by apply Hincl|]. by apply String.eqb_eq.
Qed.

Definition demo_renamed_input : ApplicationInput := {|
  in_application_id := demo_id; in_slug := "demo-renamed"; in_worker_flavor := "example.1c2g";
  in_scheduler_cpu_mhz := 1000; in_scheduler_memory_mib := 2048; in_repository_url := None;
  in_desired_running := true; in_url := None; in_worker_server_id := None;
  in_worker_server_name := None; in_worker_port_id := None; in_worker_port_name := None |}.
Definition demo_renamed : conn Db := after_app [PutApplication demo_app None; PutApplication demo_renamed_input None].

Lemma demo_renamed_reachable : app_reachable (store demo_renamed).
Proof.
  unfold demo_renamed, after_app. cbn [fold_left].
  repeat (apply app_step; [|vm_compute; reflexivity|exact I]). apply app_init.
Qed.

Lemma retired_slug_final_witness :
  exists t, In t (application_slug_tombstones (store demo_renamed)) /\ ts_slug t = "demo-app"
  /\ In t (application_slug_tombstones (store (run_app_call (PutApplication demo_app None) demo_renamed).2)).
Proof.
  eexists. split; [vm_compute; left; reflexivity|]. split; [reflexivity|].
  refine (proj1 (retired_slug_final demo_renamed (PutApplication demo_app None) _
    demo_renamed_reachable I _)). vm_compute. left. reflexivity.
Defined.

(** Giving an application another slug hides the application itself: the
    call succeeds, the row carries the new slug, and from then on neither the
    identifier nor the new slug finds it and the list of applications is
    empty, because the tombstone of the old slug names the live application. *)
Theorem renamed_application_hidden :
  (put_application demo_renamed_input None false
     (after_app [PutApplication demo_app None])).1 = Ok tt
  /\ map app_slug (applications (store demo_renamed)) = ["demo-renamed"]
  /\ peek (get_application demo_id) (store demo_renamed) = Ok None
  /\ peek (get_application "demo-renamed") (store demo_renamed) = Ok None
  /\ peek list_applications (store demo_renamed) = Ok [].
Proof. vm_compute. split_and!; reflexivity. Qed.

(** ** The accepted deployment can always be read *)

Lemma snapshot_readable r : snapshot_good r ->
  utf8_length (at_configuration_json r) <= _MAX_CONFIGURATION_BYTES ->
  exists c, _deployment_attempt r = Ok {| attempt_row := r; attempt_configuration := c |}
    /\ good_configuration c /\ at_configuration_json r = canonical_json c.
Proof.
  intros (Hsha & c & G & Hj & _) Hsize. exists c. split; [|done].
  unfold _deployment_attempt. rewrite Hsha, String.eqb_refl. cbn [negb].
  rewrite Hj in *. unfold parse_configuration_text, _load_json.
  rewrite (proj2 (Z.ltb_ge _ _) Hsize).
  change (loads (canonical_json c)) with (loads (dumps (configuration_value c))).
  rewrite loads_dumps by (by apply configuration_encodable).
  cbn [mbind result_bind]. rewrite good_parses by done. cbn [mbind result_bind].
  by rewrite String.eqb_refl.
Qed.

(** C4. In every reachable database whose stored snapshots are within the
    parser's limit, reading any deployment attempt and any application's
    accepted deployment succeeds: no snapshot fails its hash or its canonical
    form, and the accepted deployment never lacks evidence, whatever was
    checkpointed on its attempt after it was accepted. *)
Theorem accepted_deployment_readable d :
  app_reachable d ->
  (forall r, In r (deployment_attempts d) ->
     utf8_length (at_configuration_json r) <= _MAX_CONFIGURATION_BYTES) ->
  (forall i, is_ok (peek (get_deployment i) d) = true) /\
  (forall r, In r (deployment_attempts d) -> is_ok (_deployment_attempt r) = true).
Proof.
  intros [H0 H1 H2 H3]%app_reachable_inv Hsize. rewrite List.Forall_forall in H2. split.
  - intros i. unfold get_deployment. rewrite peek_bind by apply reads_gets.
    change (peek (gets _) d) with (Ok (active_attempt i d)). cbn [mbind result_bind].
    rewrite peek_bind by apply reads_lift. rewrite peek_lift.
    unfold active_attempt. destruct (List.find (active_of i) _) as [a|] eqn:Ea; [|done].
    cbn [mbind option_bind]. destruct (List.find _ (deployment_attempts d)) as [r|] eqn:Er; [|done].
    apply find_some_in in Ea as [Ha _], Er as [Hr [Hid _]%andb_true_iff]. apply String.eqb_eq in Hid.
    destruct (snapshot_readable r (H2 r Hr) (Hsize r Hr)) as (c & Hc & _).
    unfold checked_attempt. rewrite Hc. cbn [mbind result_bind attempt_row].
    rewrite peek_bind by apply reads_lift. rewrite peek_lift. cbn [attempt_row].
    pose proof (proj2 (H3 a Ha) r Hr Hid) as He. unfold evidence_complete in He.
    by destruct (deployment_of r).
  - intros r Hr. by destruct (snapshot_readable r (H2 r Hr) (Hsize r Hr)) as (c & -> & _).
Qed.

Lemma accepted_deployment_readable_witness :
  length (active_deployments (store demo_deployed)) = 1%nat
  /\ is_ok (peek (get_deployment demo_id) (store demo_deployed)) = true.
Proof.
  split; [vm_compute; reflexivity|].
  refine (proj1 (accepted_deployment_readable (store demo_deployed) demo_deployed_reachable _) demo_id).
  assert (H : forallb (fun r => utf8_length (at_configuration_json r) <=? _MAX_CONFIGURATION_BYTES)
    (deployment_attempts (store demo_deployed)) = true) by (vm_compute; reflexivity).
  intros r Hr. rewrite forallb_forall in H. apply Z.leb_le. exact (H r Hr).
Defined.

(** ** Advancing the environment *)

Lemma get_env_peek i d : uuid (JStr i) = Ok i -> peek (get_environment_revision i) d =
  Ok (List.find (revision_of i) (environment_revisions d)).
Proof.
  intros Hi. unfold get_environment_revision. rewrite peek_bind by auto with reads.
  by rewrite peek_lift, Hi.
Qed.

Definition env_key_index (r : EnvironmentRevision) : key := pk (er_application_id r).
Definition at_revision (i : string) (expected : Z) (r : EnvironmentRevision) : bool :=
  revision_of i r && (er_revision r =? expected).

Lemma apply_where_none {R} (p : R -> bool) f t : List.filter p t = [] -> apply_where p f t = t.
Proof.
  induction t as [|r t IH]; [done|]. unfold apply_where in *. simpl.
  destruct (p r); [done|]. intros H. by rewrite IH.
Qed.

(** A stale expectation changes nothing. *)
Lemma advance_stale i expected n c :
  uuid (JStr i) = Ok i -> in_transaction c = false ->
  table_ok (store c) (environment_revisions (store c)) = true ->
  List.filter (at_revision i expected) (environment_revisions (store c)) = [] ->
  exists c', advance_environment_revision i expected n c
    = (Raise (DatabaseError "environment revision is missing or stale"), c') /\ store c' = store c.
Proof.
  intros Hi Ht Hok Hnone. unfold advance_environment_revision. rewrite (bind_lift_eq _ _ _ _ Hi).
  match goal with |- context[transaction ?m ≫= _] => set (body := m) end.
  assert (Hb : exists c1, body (with_transaction true c)
    = (Raise (DatabaseError "environment revision is missing or stale"), c1)).
  { unfold body. destruct (now_or_ok n (with_transaction true c)) as (t & c1 & Hn & Hs & _).
    rewrite (bind_eq _ _ _ _ _ Hn). eexists. unfold mbind, M_bind, update, write. rewrite Hs. simpl.
    fold (at_revision i expected). rewrite apply_where_none, Hnone by done. simpl. rewrite Hok. done. }
  destruct Hb as [c1 Hb]. eexists. rewrite (bind_raises _ _ c (DatabaseError
    "environment revision is missing or stale") (with_transaction false (with_store (store c) c1))); [done|].
  unfold transaction. by rewrite Ht, Hb.
Qed.

(** The revision a successful call found, and the one it stored. *)
Lemma advance_found i expected n c r c' :
  advance_environment_revision i expected n c = (Ok r, c') ->
  uuid (JStr i) = Ok i /\ in_transaction c' = false /\ exists t r0,
    List.filter (at_revision i expected) (environment_revisions (store c)) = [r0]
    /\ store c' = with_environment_revisions (apply_where (at_revision i expected) (next_revision t)
         (environment_revisions (store c))) (store c)
    /\ table_ok (store c') (environment_revisions (store c')) = true
    /\ peek (get_environment_revision i) (store c') = Ok (Some r).
Proof.
  intros H. unfold advance_environment_revision in H.
  apply bind_ok in H as (i' & c1 & [Hi ->]%lift_ok & H). pose proof (uuid_same _ _ Hi); subst i'.
  apply bind_ok in H as (? & c2 & (c3 & Hb & -> & Ht)%transaction_ok & H).
  apply bind_ok in Hb as (t & c4 & [Hc4 _]%now_or_inv & Hb).
  apply bind_ok in Hb as (k & c5 & (-> & Hk & Hok)%update_ok & Hb). simpl in *. rewrite Hc4 in *.
  destruct (negb _) eqn:Ek; [discriminate|]. injection Hb as _ <-.
  apply negb_false_iff, Nat.eqb_eq in Ek. fold (at_revision i expected) in *.
  apply reads_ok in H as [H ->]; [|apply reads_bind; auto with reads]. split_and!; [done|done|].
  exists t. destruct (List.filter (at_revision i expected) _) as [|r0 [|]]; simpl in Ek; subst k; try done.
  exists r0. simpl in *. split_and!; [done|done|done|].
  rewrite (bind_peek _ _ _ _ (reads_env i) (get_env_peek _ _ Hi)) in H.
  rewrite get_env_peek by done. simpl in *. by destruct (List.find _ _); [injection H as ->|].
Qed.

Lemma revision_advanced i expected t r0 rows :
  unique_on env_key_index rows -> List.filter (at_revision i expected) rows = [r0] ->
  List.find (revision_of i) rows = Some r0 /\ er_revision r0 = expected
  /\ List.find (revision_of i) (apply_where (at_revision i expected) (next_revision t) rows)
     = Some (next_revision t r0).
Proof.
  intros Hu Hf. assert (Hr0 : In r0 rows /\ at_revision i expected r0 = true)
    by (apply filter_In; rewrite Hf; by left).
  destruct Hr0 as [Hin Hat]. pose proof Hat as [Hrev Hexp]%andb_true_iff.
  assert (Hfind : List.find (revision_of i) rows = Some r0).
  { apply (unique_find env_key_index _ _ _ [i]); auto. unfold revision_of, env_key_index.
    by intros x ->%String.eqb_eq. }
  split_and!; [done|by apply Z.eqb_eq|]. rewrite find_updated by done. rewrite Hfind. simpl. by rewrite Hat.
Qed.

(** Advancing an environment is a compare-and-swap on its revision: a
    call that returns found the expected revision, and stored and returned
    the next one; a second call that expects the same revision then raises
    "stale" and changes nothing, so of two writers that read one revision only
    one advances it. *)
Theorem environment_compare_and_swap i expected n c r c' :
  unique_on env_key_index (environment_revisions (store c)) ->
  advance_environment_revision i expected n c = (Ok r, c') ->
  (exists r0, peek (get_environment_revision i) (store c) = Ok (Some r0) /\ er_revision r0 = expected)
  /\ er_revision r = expected + 1
  /\ peek (get_environment_revision i) (store c') = Ok (Some r)
  /\ forall n', exists c'', advance_environment_revision i expected n' c'
       = (Raise (DatabaseError "environment revision is missing or stale"), c'') /\ store c'' = store c'.
Proof.
  intros Hu (Hi & Ht & t & r0 & Hf & Hstore & Hok & Hget)%advance_found.
  destruct (revision_advanced i expected t r0 _ Hu Hf) as (H1 & H2 & H3).
  assert (r = next_revision t r0) as ->.
  { rewrite get_env_peek, Hstore in Hget by done. simpl in Hget. rewrite H3 in Hget. by injection Hget. }
  split_and!; [exists r0; by rewrite get_env_peek, H1|simpl; lia|done|].
  intros n'. apply advance_stale; [done|done|done|].
  destruct (List.filter _ (environment_revisions (store c'))) as [|x l] eqn:E; [done|]. exfalso.
  assert (Hx : In x (environment_revisions (store c')) /\ at_revision i expected x = true)
    by (apply filter_In; rewrite E; by left).
  destruct Hx as [Hx [Hxi Hxe]%andb_true_iff].
  pose proof (table_ok_unique _ _ env_key_index Hok (or_introl eq_refl)) as Hu'.
  rewrite Hstore in Hx, Hu'. simpl in Hx, Hu'.
  assert (x = next_revision t r0) as ->.
  { apply find_some_in in H3 as [Hin Hrev]. apply (unique_on_inj env_key_index _ _ _ [i] Hu'); auto;
      unfold env_key_index, revision_of, pk in *; apply String.eqb_eq in Hxi, Hrev; congruence. }
  simpl in Hxe. apply Z.eqb_eq in Hxe. lia.
Qed.

Definition demo_created : conn Db := after_app [PutApplication demo_app None].

Lemma environment_compare_and_swap_witness :
  exists r c', advance_environment_revision demo_id 0 None demo_created = (Ok r, c')
  /\ er_revision r = 1
  /\ exists c'', advance_environment_revision demo_id 0 None c'
       = (Raise (DatabaseError "environment revision is missing or stale"), c'') /\ store c'' = store c'.
Proof.
  eexists _, _. split; [vm_compute; reflexivity|].
  match goal with |- er_revision ?r = _ /\ exists c'', advance_environment_revision _ _ _ ?c' = _ /\ _ =>
    pose proof (environment_compare_and_swap demo_id 0 None demo_created r c'
      ltac:(refine (bool_decide_eq_true_1 _ _); vm_compute; reflexivity)
      ltac:(vm_compute; reflexivity)) as H end.
  destruct H as (_ & H1 & _ & H2). split; [exact H1|exact (H2 None)].
Defined.

(** ** Creating an attempt, once *)

Definition accepted_result (q : IdempotencyRequest) (identifier : string) : bool :=
  same_result q "deployment" identifier || same_result q "operation" identifier.

Definition input_ok (i : AttemptInput) : Prop :=
  uuid (JStr (ai_deployment_id i)) = Ok (ai_deployment_id i)
  /\ uuid (JStr (ai_application_id i)) = Ok (ai_application_id i)
  /\ is_ok (commit (ai_source_commit i)) = true /\ is_ok (requested_ref (ai_requested_ref i)) = true
  /\ is_ok (_revision (ai_configuration_revision i) "configuration revision") = true
  /\ is_ok (_revision (ai_environment_revision i) "environment revision") = true
  /\ uuid (JStr (ai_idempotency_request_id i)) = Ok (ai_idempotency_request_id i).

Lemma get_attempt_peek i d : uuid (JStr i) = Ok i -> peek (get_deployment_attempt i) d =
  checked_attempt (List.find (attempt_is i) (deployment_attempts d)).
Proof.
  intros Hi. unfold get_deployment_attempt. rewrite peek_bind by auto with reads.
  rewrite peek_lift, Hi. cbn [mbind result_bind]. rewrite peek_bind by apply reads_fetchone.
  by rewrite peek_fetchone.
Qed.

(** The request of a call that returned is answered by the attempt it returned. *)
Lemma create_records i n c a c' : create_deployment_attempt i n c = (Ok a, c') ->
  input_ok i /\ in_transaction c' = false
  /\ peek (get_deployment_attempt (ai_deployment_id i)) (store c') = Ok (Some a)
  /\ exists q, peek (get_idempotency_request (ai_idempotency_request_id i)) (store c') = Ok (Some q)
     /\ not_null (rq_result_id q) = true /\ accepted_result q (ai_deployment_id i) = true.
Proof.
  unfold create_deployment_attempt. intros H.
  apply bind_ok in H as (x1 & c1 & [H1 ->]%lift_ok & H). pose proof (uuid_same _ _ H1); subst x1.
  apply bind_ok in H as (x2 & c1 & [H2 ->]%lift_ok & H). pose proof (uuid_same _ _ H2); subst x2.
  apply bind_ok in H as (x3 & c1 & [H3 ->]%lift_ok & H).
  apply bind_ok in H as (x4 & c1 & [H4 ->]%lift_ok & H).
  apply bind_ok in H as (x5 & c1 & [H5 ->]%lift_ok & H).
  apply bind_ok in H as (x6 & c1 & [H6 ->]%lift_ok & H).
  apply bind_ok in H as (x7 & c1 & [H7 ->]%lift_ok & H). pose proof (uuid_same _ _ H7); subst x7.
  assert (Hin : input_ok i) by (unfold input_ok; rewrite H3, H4, H5, H6; done). split; [done|].
  apply bind_ok in H as (now & c2 & [Hc2 _]%now_or_inv & H).
  apply bind_ok in H as (early & c3 & (c4 & Hb & -> & _)%transaction_ok & H).
  apply bind_ok in Hb as (q & c5 & [Hq ->]%reads_ok & Hb); [|auto with reads].
  destruct q as [q|]; [|discriminate].
  apply bind_ok in Hb as (rep & c5 & [Hrep ->]%reads_ok & Hb); [|auto with reads].
  simpl in Hq, Hrep. destruct rep as [a'|].
  - injection Hb as <- <-. injection H as <- <-. simpl. unfold replayed_attempt in Hrep.
    destruct (rq_result_id q) eqn:Er; [|done].
    destruct (negb _) eqn:Eacc; [done|]. apply negb_false_iff in Eacc.
    rewrite peek_bind in Hrep by auto with reads.
    destruct (peek (get_deployment_attempt _) _) as [o|] eqn:Eo; [|done]. cbn [mbind result_bind] in Hrep.
    destruct o as [a0|]; [|by destruct (bool_decide _)]. injection Hrep as ->.
    split_and!; [done|done|]. exists q. by rewrite Er.
  - apply bind_ok in Hb as (cur & c5 & [_ ->]%reads_ok & Hb); [|auto with reads].
    destruct (negb _); [discriminate|].
    apply bind_ok in Hb as (unf & c5 & [_ ->]%reads_ok & Hb); [|auto with reads].
    destruct unf; [discriminate|].
    apply bind_ok in Hb as (? & c6 & [-> _]%insert_ok & Hb).
    apply bind_ok in Hb as (? & c7 & (-> & _)%update_ok & Hb). injection Hb as <- <-.
    apply reads_ok in H as [H ->]; [|apply reads_bind; auto with reads]. simpl in *. split; [done|].
    rewrite peek_bind in H by auto with reads.
    destruct (peek (get_deployment_attempt _) _) as [[a0|]|]; [|done|done]. injection H as ->. split; [done|].
    rewrite get_request_peek in * by done. simpl. injection Hq as Hq.
    rewrite find_updated by done. rewrite Hq. simpl. apply find_some_in in Hq as [_ Hq]. rewrite Hq.
    eexists. split; [done|]. split; [done|]. unfold accepted_result, same_result. simpl.
    by rewrite !bool_decide_true.
Qed.

(** Creating a deployment attempt is exactly-once: after a call that
    returned, the same request made again, at any time, returns the same
    attempt and writes nothing. *)
Theorem create_attempt_exactly_once i n c a c' :
  create_deployment_attempt i n c = (Ok a, c') ->
  forall n', exists c'', create_deployment_attempt i n' c' = (Ok a, c'') /\ store c'' = store c'.
Proof.
  intros ((H1 & H2 & H3 & H4 & H5 & H6 & H7) & Ht & Hget & q & Hq & Hres & Hacc)%create_records n'.
  unfold create_deployment_attempt.
  destruct (commit (ai_source_commit i)) as [x3|] eqn:E3; [|done].
  destruct (requested_ref (ai_requested_ref i)) as [x4|] eqn:E4; [|done].
  destruct (_revision (ai_configuration_revision i) _) as [x5|] eqn:E5; [|done].
  destruct (_revision (ai_environment_revision i) _) as [x6|] eqn:E6; [|done].
  rewrite (bind_lift_eq _ _ _ _ H1), (bind_lift_eq _ _ _ _ H2), (bind_lift_eq (Ok x3) _ _ _ eq_refl),
    (bind_lift_eq (Ok x4) _ _ _ eq_refl), (bind_lift_eq (Ok x5) _ _ _ eq_refl),
    (bind_lift_eq (Ok x6) _ _ _ eq_refl), (bind_lift_eq _ _ _ _ H7).
  destruct (now_or_ok n' c') as (t & c1 & Hn & Hs1 & Ht1). rewrite (bind_eq _ _ _ _ _ Hn).
  rewrite Ht in Ht1. exists c1. split; [|done].
  rewrite (bind_eq (transaction _) _ c1 (Some a) c1); [done|].
  unfold transaction. rewrite Ht1.
  rewrite (bind_reads_eq _ _ _ (Some q)); [|auto with reads|simpl; by rewrite Hs1].
  rewrite (bind_reads_eq _ _ _ (Some a)).
  - cbn. by rewrite with_transaction_id.
  - auto with reads.
  - simpl. rewrite Hs1. unfold replayed_attempt, accepted_result in *.
    destruct (rq_result_id q); [|done]. rewrite Hacc. cbn [negb].
    rewrite peek_bind by auto with reads. by rewrite Hget.
Qed.

Definition demo_claimed_app : conn Db :=
  after_app [Journal (Claim demo_id demo_digest None); PutApplication demo_app None].

Lemma create_attempt_exactly_once_witness :
  exists a c', create_deployment_attempt demo_attempt None demo_claimed_app = (Ok a, c')
  /\ exists c'', create_deployment_attempt demo_attempt None c' = (Ok a, c'') /\ store c'' = store c'.
Proof.
  eexists _, _. split; [vm_compute; reflexivity|].
  match goal with |- exists c'', create_deployment_attempt _ _ ?c' = (Ok ?a, c'') /\ _ =>
    exact (create_attempt_exactly_once demo_attempt None demo_claimed_app a c'
      ltac:(vm_compute; reflexivity) None) end.
Defined.

(** ** Accepting a deployment *)

Lemma attempt_row_of r x : _deployment_attempt r = Ok x -> attempt_row x = r.
Proof.
  unfold _deployment_attempt. destruct (negb _); [done|].
  destruct (parse_configuration_text _); [|done]. cbn [mbind result_bind].
  destruct (negb _); [done|]. by intros [= <-].
Qed.

Lemma checked_row o x : checked_attempt o = Ok (Some x) -> o = Some (attempt_row x).
Proof.
  destruct o as [r|]; [|done]. simpl. destruct (_deployment_attempt r) as [y|] eqn:E; [|done].
  cbn [mbind result_bind]. intros [= ->]. by rewrite (attempt_row_of _ _ E).
Qed.

Lemma find_upserted {R} (p : R -> bool) row t : p row = true ->
  List.find p (if existsb p t then apply_where p (fun _ => row) t else t ++ [row]) = Some row.
Proof.
  intros Hp. destruct (existsb p t) eqn:E.
  - induction t as [|r t IH]; [done|]. simpl in *. destruct (p r) eqn:Er; [by rewrite Hp|].
    rewrite Er. by apply IH.
  - apply find_app_some; [|done]. destruct (List.find p t) as [r|] eqn:Ef; [|done].
    apply find_some_in in Ef. assert (existsb p t = true); [|congruence]. apply existsb_exists. eauto.
Qed.

Lemma upsert_store {R} `{Table Db R} p r c u c' : upsert p r (fun _ => r) c = (Ok u, c') ->
  store c' = put_rows (if existsb p (rows (store c)) then apply_where p (fun _ => r) (rows (store c))
    else rows (store c) ++ [r]) (store c).
Proof.
  unfold upsert. destruct (existsb _ _).
  - intros H0. apply bind_ok in H0 as (n & c1 & (-> & _)%update_ok & H1). by injection H1 as _ <-.
  - by intros [-> _]%insert_ok.
Qed.

(** The databases around the acceptance of attempt [i]. *)
Lemma acceptance_store i e n w c a c' :
  checkpoint_deployment_attempt i "succeeded" e n w c = (Ok a, c') ->
  exists now r0,
    List.find (attempt_is i) (deployment_attempts (store c)) = Some r0
    /\ attempt_row a = apply_evidence a_succeeded e now r0 /\ attempt_check (attempt_row a) = true
    /\ let row := {| ac_application_id := at_application_id r0; ac_deployment_id := i;
                     ac_lifecycle_state := l_running; ac_updated_at := now |} in
       List.find (active_of (at_application_id r0)) (active_deployments (store c')) = Some row
    /\ applications (store c') = apply_where (app_is (at_application_id r0)) (set_running now)
         (applications (store c))
    /\ List.find (attempt_is i) (deployment_attempts (store c')) = Some (attempt_row a).
Proof.
  unfold checkpoint_deployment_attempt. intros H.
  apply bind_ok in H as (i' & c1 & [Hi ->]%lift_ok & H). pose proof (uuid_same _ _ Hi); subst i'.
  change (attempt_status_of "succeeded") with (Some a_succeeded) in H. cbv iota in H.
  apply bind_ok in H as (? & c1 & [_ ->]%lift_ok & H).
  apply bind_ok in H as (now & c2 & [Hc2 _]%now_or_inv & H).
  apply bind_ok in H as (? & c3 & (c4 & c5 & Hb & E4 & E3)%acceptance_ok & H).
  apply reads_ok in H as [H ->]; [|apply reads_bind; auto with reads].
  apply bind_ok in Hb as (cur & c6 & [Hcur ->]%reads_ok & Hb); [|auto with reads].
  destruct cur as [a0|]; [|discriminate]. destruct (needs_error _ && _); [discriminate|].
  apply bind_ok in Hb as (k & c7 & H1 & Hb). apply catch_ok in H1; [|intros [] ? ?; discriminate].
  apply update_ok in H1 as (-> & _ & Hok). rewrite bool_decide_true in Hb by done. cbv zeta in Hb.
  apply bind_ok in Hb as (? & c8 & Hc8%upsert_store & Hb).
  apply bind_ok in Hb as (? & c9 & (-> & _)%update_ok & Hb). injection Hb as _ <-.
  rewrite E4, Hc2 in *. simpl in *. rewrite Hc8 in *. simpl in *. clear Hc8 E4 Hc2.
  rewrite get_attempt_peek in Hcur by done. apply checked_row in Hcur.
  rewrite peek_bind in H by auto with reads. rewrite get_attempt_peek, E3 in H by done. simpl in H.
  destruct (checked_attempt _) as [o|] eqn:Ex in H; [|done]. cbn [mbind result_bind] in H.
  destruct o as [a1|]; [|done]. injection H as ->. apply checked_row in Ex.
  assert (Hread : List.find (attempt_is i) (deployment_attempts (store c3)) = Some (attempt_row a)) by by rewrite E3.
  pose proof Ex as [Hin _]%find_some_in. apply (table_ok_row _ _ _ Hok) in Hin as [Hcheck _].
  rewrite find_updated, Hcur in Ex by done. simpl in Ex.
  apply find_some_in in Hcur as Hr0. destruct Hr0 as [_ Hid]. rewrite Hid in Ex. injection Ex as Ex.
  exists now, (attempt_row a0). rewrite E3 in Hread |- *. simpl in Hread |- *. split_and!; [done|done|done| |done|done].
  apply find_upserted. by apply String.eqb_eq.
Qed.

(** When a checkpoint to "succeeded" returns, on its own or inside the
    acceptance transaction, the attempt has succeeded with every piece of
    evidence, it is the active deployment of its application, running, and the
    application wants to run. *)
Theorem checkpoint_accepts i e n w c a c' :
  Forall snapshot_good (deployment_attempts (store c)) ->
  checkpoint_deployment_attempt i "succeeded" e n w c = (Ok a, c') ->
  let r := attempt_row a in
  at_deployment_id r = i /\ at_st r = a_succeeded /\ evidence_complete r = true
  /\ (exists ac, peek (get_active_deployment (at_application_id r)) (store c') = Ok (Some ac)
       /\ ac_deployment_id ac = i /\ ac_lifecycle_state ac = l_running)
  /\ forall app, In app (applications (store c')) ->
       app_application_id app = at_application_id r -> app_desired_running app = true.
Proof.
  intros Hgood (now & r0 & Hfind & -> & Hcheck & Hactive & Happs & _)%acceptance_store.
  apply find_some_in in Hfind as [Hr0 Hid]. apply String.eqb_eq in Hid.
  simpl. split_and!; [done|done| | |].
  - apply succeeded_complete; [done|done|]. rewrite List.Forall_forall in Hgood. specialize (Hgood r0 Hr0).
    destruct (evidence_extends a_succeeded e now r0) as (_ & Hj & Hs & Hh & Hp & _).
    unfold snapshot_good in *. by rewrite Hj, Hs, Hh, Hp.
  - eexists. split; [unfold get_active_deployment; by rewrite peek_fetchone; simpl; rewrite Hactive|done].
  - intros app Hin Happ. rewrite Happs in Hin. apply in_apply_where in Hin as (app0 & _ & ->).
    unfold app_is in *. destruct (String.eqb_spec (app_application_id app0) (at_application_id r0)); done.
Qed.

Definition demo_queued : conn Db :=
  after_app [Journal (Claim demo_id demo_digest None); PutApplication demo_app None;
             CreateAttempt demo_attempt None].

Lemma demo_queued_good : Forall snapshot_good (deployment_attempts (store demo_queued)).
Proof.
  apply inv_snapshots, app_reachable_inv. unfold demo_queued, after_app. cbn [fold_left].
  repeat (apply app_step; [|vm_compute; reflexivity|first [exact I|exact demo_config_good]]).
  apply app_init.
Qed.

Lemma checkpoint_accepts_witness :
  exists a c', checkpoint_deployment_attempt demo_other "succeeded" demo_evidence None false demo_queued
    = (Ok a, c') /\ at_st (attempt_row a) = a_succeeded.
Proof.
  eexists _, _. split; [vm_compute; reflexivity|].
  match goal with |- at_st (attempt_row ?a) = _ =>
    refine (proj1 (proj2 (checkpoint_accepts demo_other demo_evidence None false demo_queued a
      (checkpoint_deployment_attempt demo_other "succeeded" demo_evidence None false demo_queued).2
      demo_queued_good _))) end.
  vm_compute. reflexivity.
Defined.

(** ** Deleting an application *)

Lemma ignored_insert {R} `{Table Db R} p r c u c' : insert_or_ignore p r c = (Ok u, c') ->
  exists t, store c' = put_rows t (store c) /\ incl (rows (store c)) t /\
    (In r t \/ (t = rows (store c) /\ exists r', In r' t /\ p r' = true)) \/
  (store c' = store c /\ exists r', In r' (rows (store c)) /\ p r' = true).
Proof.
  unfold insert_or_ignore. destruct (existsb p _) eqn:E.
  - intros [= _ <-]. apply existsb_exists in E as (r' & Hr' & Hp). exists []. right. eauto.
  - intros [-> _]%insert_ok. eexists. left. split; [done|]. split; [by apply incl_appl, incl_refl|].
    left. apply in_app_iff. right. by left.
Qed.

(** The databases around a completed deletion. *)
Lemma deletion_store i o n c u c' : complete_application_deletion i o n c = (Ok u, c') ->
  exists now app tombs,
    deletion_ready i (List.find (fun r => String.eqb (op_operation_id r) o) (operations (store c))) = true
    /\ List.find (fun r => String.eqb (mr_application_id r) i) (managed_resources (store c)) = None
    /\ List.find (app_is i) (applications (store c)) = Some app
    /\ (In (new_tombstone (app_slug app) i now) tombs \/
        (tombs = application_slug_tombstones (store c) /\ exists t, In t tombs /\ ts_slug t = app_slug app))
    /\ application_slug_tombstones (store c') = tombs
    /\ environment_keys (store c') = List.filter (fun r => negb (String.eqb (ek_application_id r) i))
         (environment_keys (store c))
    /\ applications (store c') = apply_where (app_is i) (set_deleted now) (applications (store c))
    /\ deployment_attempts (store c') = deployment_attempts (store c)
    /\ operations (store c') = apply_where (live o)
         (set_finished op_succeeded now None (Some "tombstoned") (Some "confirmed")) (operations (store c)).
Proof.
  unfold complete_application_deletion. intros H.
  apply bind_ok in H as (i' & c1 & [Hi ->]%lift_ok & H). pose proof (uuid_same _ _ Hi); subst i'.
  apply bind_ok in H as (o' & c1 & [Ho ->]%lift_ok & H). pose proof (uuid_same _ _ Ho); subst o'.
  apply bind_ok in H as (now & c2 & [Hc2 _]%now_or_inv & H). apply transaction_ok in H as (c3 & H & -> & _).
  apply bind_ok in H as (op & c4 & [Hop ->]%reads_ok & H); [|auto with reads].
  destruct (deletion_ready i op) eqn:Hready; [|discriminate]. cbn [negb] in H.
  apply bind_ok in H as (mr & c4 & [Hmr ->]%reads_ok & H); [|apply reads_fetchone].
  destruct mr; [discriminate|].
  apply bind_ok in H as (ap & c4 & [Hap ->]%reads_ok & H); [|apply reads_fetchone].
  destruct ap as [app|]; [|discriminate].
  injection Hop as Hop. injection Hmr as Hmr. injection Hap as Hap. simpl in *. rewrite Hc2 in *.
  apply bind_ok in H as (? & c4 & H1 & H). apply bind_ok in H as (? & c5 & ->%delete_ok & H).
  apply bind_ok in H as (? & c6 & (-> & _)%update_ok & H).
  apply bind_ok in H as (? & c7 & (-> & _)%update_ok & H).
  apply bind_ok in H as (? & c8 & (-> & _)%update_ok & H). destruct (negb _); [discriminate|].
  injection H as _ <-. exists now, app, (application_slug_tombstones (store c4)).
  rewrite Hop, Hmr, Hap. split_and!; try done; simpl.
  all: apply ignored_insert in H1 as [t H1]; simpl in H1; rewrite Hc2 in H1;
    destruct H1 as [(-> & Hincl & Ht)|[-> (r' & Hr' & Hp)]]; simpl; try done.
  - destruct Ht as [Ht|(-> & r' & Hr' & Hp)]; [by left|right]. split; [done|]. exists r'.
    by apply String.eqb_eq in Hp.
  - right. split; [done|]. exists r'. by apply String.eqb_eq in Hp.
Qed.

(** Completing a deletion hides the application and keeps its history:
    the call returns only for a live deletion operation at its last phase and
    an application without managed resources; afterwards the slug is retired,
    the application cannot be looked up, is not wanted running and has no
    worker and no environment names, no deployment attempt was touched, and
    the operation has succeeded in its final phase. *)
Theorem deletion_hides_and_keeps_history i o n c u c' :
  app_reachable (store c) ->
  complete_application_deletion i o n c = (Ok u, c') ->
  deletion_ready i (List.find (fun r => String.eqb (op_operation_id r) o) (operations (store c))) = true
  /\ (forall r, In r (managed_resources (store c)) -> mr_application_id r <> i)
  /\ (forall app, In app (visible_applications (store c')) -> app_application_id app <> i)
  /\ (forall app, In app (applications (store c')) -> app_application_id app = i ->
       app_desired_running app = false /\ app_worker_server_id app = None)
  /\ (forall k, In k (environment_keys (store c')) -> ek_application_id k <> i)
  /\ deployment_attempts (store c') = deployment_attempts (store c)
  /\ exists op, List.find (fun r => String.eqb (op_operation_id r) o) (operations (store c')) = Some op
       /\ op_st op = op_succeeded /\ op_phase op = "tombstoned".
Proof.
  intros Hinv%app_reachable_inv
    (now & app & tombs & Hready & Hmr & Hap & Htombs & Ht' & Henv & Happs & Hat & Hops)%deletion_store.
  apply find_some_in in Hap as [Hin Hid]. apply String.eqb_eq in Hid.
  assert (Htomb : tombstoned (store c') i = true).
  { apply existsb_exists. rewrite Ht'. destruct Htombs as [Hnew|(Heq & t & Ht & Hslug)].
    - eexists. split; [exact Hnew|]. apply String.eqb_refl.
    - exists t. split; [done|]. apply String.eqb_eq. rewrite <- Hid. symmetry.
      apply (inv_slugs _ Hinv); [by rewrite <- Heq|done|done]. }
  split_and!; [done| | | | |done|].
  - intros r Hr E. apply (find_none_in _ _ _ Hmr) in Hr. by rewrite E, String.eqb_refl in Hr.
  - intros x [_ Hx]%filter_In E. rewrite E, Htomb in Hx. done.
  - intros x Hx E. rewrite Happs in Hx. apply in_apply_where in Hx as (x0 & _ & ->).
    unfold app_is in *. destruct (String.eqb_spec (app_application_id x0) i); done.
  - intros k Hk E. rewrite Henv in Hk. apply filter_In in Hk as [_ Hk]. by rewrite E, String.eqb_refl in Hk.
  - rewrite Hops, find_updated by done.
    destruct (List.find _ (operations (store c))) as [op|] eqn:Eop; [|done].
    apply find_some_in in Eop as [_ Eop]. eexists. split; [done|]. simpl in Hready.
    rewrite !andb_true_iff in Hready. destruct Hready as [[[_ Hun] _] _].
    unfold live. by rewrite Eop, Hun.
Qed.

Definition demo_deletable : conn Db := after_app
  [PutApplication demo_app None;
   Journal (Begin demo_other "app.delete" demo_scope "validated" "2025-01-01T01:00:00Z"
     [("application_id", JStr demo_id)] None);
   Journal (Checkpoint demo_other "manifest_absent" None false None None None)].

Lemma deletion_hides_and_keeps_history_witness :
  (complete_application_deletion demo_id demo_other None demo_deletable).1 = Ok tt
  /\ deployment_attempts (store (complete_application_deletion demo_id demo_other None demo_deletable).2)
     = deployment_attempts (store demo_deletable).
Proof.
  split; [vm_compute; reflexivity|].
  refine (proj1 (proj2 (proj2 (proj2 (proj2 (proj2 (deletion_hides_and_keeps_history demo_id demo_other
    None demo_deletable tt _ _ _))))))); [|vm_compute; reflexivity].
  unfold demo_deletable, after_app. cbn [fold_left].
  repeat (apply app_step; [|vm_compute; reflexivity|exact I]). apply app_init.
Defined.
