(* ===== verification/Fingerprint.v ===== *)
(** * Request fingerprints
    (src/openstack_platform/controller/database.py: [request_fingerprint])

    A claimed idempotency key is bound to the SHA-256 of the canonical request.
    Before hashing, the request is checked for keys that name secrets; the names
    of storage outputs in a deployment configuration are public, so the check
    sees a copy in which they are values. *)

From S2P Require Import Prelude Regex Json JsonParse Validation Runtime Sql Schema StorageContract.
From S2P Require Import DeploymentConfig Sha256 Operations.

Definition fingerprint_limit : Z := 1048576.

Definition supported_outputs : list string :=
  concat (map (fun ty => default [] (RESOURCE_OUTPUTS ty)) RESOURCE_TYPES).

Definition public_output (kv : string * string) : result json :=
  if one_of_words supported_outputs kv.1 then target ← env_key kv.2; Ok (JArr [JStr kv.1; JStr target])
  else Raise (ValidationError "storage output is not supported").

Definition public_binding (b : StorageOutputBinding) : result json :=
  pairs ← each public_output (sort_by pair_leb (sb_outputs b));
  Ok (JObj [("outputs", JArr pairs); ("resourceId", JStr (sb_resource_id b))]).

(** The parsed configuration with its outputs as pairs *)
Definition public_configuration (item : json) : result json :=
  configuration ← parse_configuration item;
  bindings ← each public_binding (cf_storage_bindings configuration);
  Ok match canonical (configuration_value configuration) with
     | JObj public => JObj (dict_set "storageBindings" (JArr bindings) public)
     | v => v
     end.

(** [key == "configuration" and isinstance(item, dict) and "storageBindings" in item] *)
Definition binds_storage (key : string) (item : json) : bool :=
  String.eqb key "configuration"
  && match item with
     | JObj d => match dict_get "storageBindings" d with Some _ => true | None => false end
     | _ => false
     end.

Fixpoint _fingerprint_validation_view (value : json) : result json :=
  match value with
  | JArr l => items ← each _fingerprint_validation_view l; Ok (JArr items)
  | JObj d =>
      members ← each (fun kv =>
        item ← (if binds_storage kv.1 kv.2 then public_configuration kv.2
                else _fingerprint_validation_view kv.2);
        Ok (kv.1, item)) d;
      Ok (JObj members)
  | _ => Ok value
  end.

Definition request_fingerprint (request : dict) : result string :=
  view ← _fingerprint_validation_view (JObj request);
  if negb (refs_clean view) then Raise (ValidationError "operation refs key may contain secret material")
  else
    let encoded := dumps (JObj request) in
    if fingerprint_limit <? Z.of_nat (String.length encoded)
    then Raise (ValidationError "idempotency request exceeds its 1048576-byte limit")
    else Ok (sha256_hexdigest encoded).

(** ** Properties *)

(** The keys at every depth, those inside a public configuration left out *)
Fixpoint exposed_keys (v : json) : list string :=
  match v with
  | JArr l => concat (map exposed_keys l)
  | JObj d => concat (map (fun kv => kv.1 :: (if binds_storage kv.1 kv.2 then [] else exposed_keys kv.2)) d)
  | _ => []
  end.

Definition names_no_secret (v : json) : Prop := forall k, In k (exposed_keys v) -> search _SECRET_KEY k = false.

Lemma view_names_no_secret v w : _fingerprint_validation_view v = Ok w -> refs_clean w = true -> names_no_secret v.
Proof.
  revert w. induction v as [| | | |l IH|d IH] using json_nested_ind; intros w H Hc k Hk; try done.
  - simpl in H. apply rbind_ok in H as (items & Hi & [= <-]).
    apply in_concat in Hk as (ks & Hks & Hk). apply in_map_iff in Hks as (v & <- & Hv).
    apply each_ok in Hi. simpl in Hc.
    apply list_elem_of_In, list_elem_of_lookup_1 in Hv as (i & Hv).
    destruct (Forall2_lookup_l _ _ _ _ _ Hi Hv) as (w & Hw & E).
    rewrite Forall_lookup in IH. apply (IH i v Hv w E); [|done].
    rewrite forallb_forall in Hc. apply Hc, list_elem_of_In. by apply (list_elem_of_lookup_2 _ i).
  - simpl in H. apply rbind_ok in H as (members & Hm & [= <-]).
    apply in_concat in Hk as (ks & Hks & Hk). apply in_map_iff in Hks as (kv & <- & Hv).
    apply each_ok in Hm. simpl in Hc.
    apply list_elem_of_In, list_elem_of_lookup_1 in Hv as (i & Hv).
    destruct (Forall2_lookup_l _ _ _ _ _ Hm Hv) as (m & Hi & E).
    apply rbind_ok in E as (item & E & [= <-]).
    rewrite forallb_forall in Hc. assert (Hcm := Hc _ (proj1 (list_elem_of_In _ _) (list_elem_of_lookup_2 _ i _ Hi))).
    apply andb_true_iff in Hcm as [Hcs Hcm]. destruct Hk as [<-|Hk]; [by apply negb_true_iff|].
    destruct (binds_storage kv.1 kv.2); [done|]. rewrite Forall_lookup in IH. by apply (IH i kv Hv item E).
Qed.

Lemma all_in_rep f lo hi g s : forallb f (list_ascii_of_string s) = true ->
  (lo <= String.length s)%nat -> below (String.length s) hi -> lang (Rep lo hi g (Cls f)) s.
Proof.
  intros Hf Hlo Hhi. exists (map (fun a => String a "") (list_ascii_of_string s)).
  assert (Hn : length (list_ascii_of_string s) = String.length s)
    by (clear; induction s as [|a s IH]; simpl; lia).
  rewrite length_map, Hn. split_and!; [|clear Hlo Hhi Hn|done|done].
  - clear. induction s as [|a s IH]; simpl; [done|]. by rewrite <- IH.
  - apply Forall_forall. intros t Ht. apply list_elem_of_In, in_map_iff in Ht as (a & <- & Ha).
    exists a. split; [done|]. rewrite forallb_forall in Hf. by apply Hf.
Qed.

Lemma sha256_hex_digest data : sha256_hex (sha256_hexdigest data) = Ok (sha256_hexdigest data).
Proof.
  destruct (sha256_hexdigest_hex data) as [Hn Hd]. apply matching_ok. split; [done|].
  apply fullmatch_iff; [done|]. apply all_in_rep; [done|lia|simpl; lia].
Qed.

Lemma fingerprint_digest request f : request_fingerprint request = Ok f -> sha256_hexdigest (dumps (JObj request)) = f.
Proof.
  unfold request_fingerprint. intros (view & _ & H)%rbind_ok.
  destruct (negb _); [done|]. destruct (fingerprint_limit <? _); [done|]. by injection H.
Qed.

(** Two texts with the same SHA-256 *)
Definition collide (s t : string) : Prop := s <> t /\ sha256_hexdigest s = sha256_hexdigest t.

(** The canonical text tells requests apart. *)
Lemma dumps_injective v w : encodable v -> encodable w -> dumps v = dumps w -> canonical v = canonical w.
Proof. intros Hv Hw E. apply loads_dumps in Hv, Hw. rewrite E in Hv. congruence. Qed.

Lemma dumps_same_canonical v w : canonical v = canonical w -> dumps v = dumps w.
Proof. intros E. transitivity (dumps (canonical v)); [symmetry|rewrite E]; apply dumps_canonical. Qed.

(** C38. A request's fingerprint is the SHA-256 of the request's canonical JSON,
    in the 64 hexadecimal digits that claiming an idempotency key demands.  It
    binds the key to the request: another request has the same fingerprint when
    it differs in the order of keys only, and otherwise only if the two canonical
    texts collide under SHA-256, for requests whose keys are unique and whose
    integers Python's decoder accepts.  The request's text fits the limit, and outside
    a public configuration with storage bindings no key of it, at any depth, names
    a secret. *)
Theorem request_fingerprint_well_formed request f :
  request_fingerprint request = Ok f ->
  f = sha256_hexdigest (dumps (JObj request)) /\ sha256_hex f = Ok f
  /\ Z.of_nat (String.length (dumps (JObj request))) <= 1048576
  /\ names_no_secret (JObj request)
  /\ forall request' f', request_fingerprint request' = Ok f' ->
       (canonical (JObj request') = canonical (JObj request) -> f' = f)
       /\ (encodable (JObj request) -> encodable (JObj request') -> f' = f ->
            canonical (JObj request') = canonical (JObj request)
            \/ collide (dumps (JObj request')) (dumps (JObj request))).
Proof.
  intros H. pose proof (fingerprint_digest _ _ H) as Hf. unfold request_fingerprint in H.
  apply rbind_ok in H as (view & Hv & H). destruct (refs_clean view) eqn:Hc; [|done]. cbn [negb] in H.
  destruct (fingerprint_limit <? _) eqn:Hl; [done|]. clear H. apply Z.ltb_ge in Hl. split_and!; [done| |done| |].
  - rewrite <- Hf. apply sha256_hex_digest.
  - by apply (view_names_no_secret _ view).
  - intros request' f' H'%fingerprint_digest. rewrite <- Hf, <- H'. split.
    + by intros E%dumps_same_canonical; rewrite E.
    + intros He He' E. destruct (decide (dumps (JObj request') = dumps (JObj request))) as [Ed|Ed]; [left|by right].
      by apply dumps_injective.
Qed.

(** ** A request with public storage outputs *)

Definition demo_request (first : bool) : dict :=
  let configuration := ("configuration", JObj [
    ("schemaVersion", JInt 1);
    ("build", JObj [("runtime", JStr "node"); ("packages", JArr [JStr "."]); ("buildScript", JNull);
                    ("startScript", JStr "start")]);
    ("runtime", JObj [("port", JInt 8080); ("healthPath", JStr "/health")]);
    ("storageBindings", JArr [JObj [("resourceId", JStr "11111111-1111-4111-8111-111111111111");
       ("outputs", JObj [("secret_access_key", JStr "S3_SECRET")])]])]) in
  let commit := ("commit", JStr "0123456789abcdef0123456789abcdef01234567") in
  if first then [configuration; commit] else [commit; configuration].

Lemma request_fingerprint_well_formed_witness :
  request_fingerprint (demo_request true) = request_fingerprint (demo_request false)
  /\ request_fingerprint [("secret_key", JStr "x")]
     = Raise (ValidationError "operation refs key may contain secret material")
  /\ exists f, request_fingerprint (demo_request true) = Ok f /\ sha256_hex f = Ok f
  /\ f = sha256_hexdigest (dumps (JObj (demo_request true))) /\ names_no_secret (JObj (demo_request true)).
Proof.
  split; [vm_compute; reflexivity|]. split; [vm_compute; reflexivity|].
  assert (H : exists f, request_fingerprint (demo_request true) = Ok f) by (eexists; vm_compute; reflexivity).
  destruct H as [f Hf]. exists f. split; [exact Hf|].
  destruct (request_fingerprint_well_formed _ _ Hf) as (H1 & H2 & _ & H3 & _). by split_and!.
Defined.
