(* ===== verification/Sizing.v ===== *)
(** * Sizes: provider flavors, measured workers and what is allocated on them
    (src/openstack_platform/controller/sizing.py, openstack.py,
    helper/worker_capacity.py, helper/production.py and
    controller/deployment_service.py)

    The OpenStack and Nomad command lines are code outside the repository:
    [openstack] and [nomad] map an argument list to what the command printed. *)

From S2P Require Import Prelude Regex Json JsonParse Clock Validation Runtime Sql Schema StorageCapacity.
From S2P Require Import StorageContract DeploymentConfig Sha256 Operations Applications Fingerprint.

(** The fields of [PlatformConfig] used here *)
Record Platform := { pl_project_id : string; pl_namespace : string }.

(** ** Budgets *)

Definition CPU_RESERVE_MHZ : Z := 200.
Definition MEMORY_RESERVE_MIB : Z := 512.
Definition RESERVE_PERCENT : Z := 10.

Definition reserve (total minimum : Z) : Z := Z.max minimum ((total * RESERVE_PERCENT + 99) / 100).

(** [type(value) is int and value >= 0] *)
Definition non_negative (value : json) : option Z :=
  match value with JInt z => if 0 <=? z then Some z else None | _ => None end.

Definition capacity_budget (cpu memory reserved_cpu reserved_memory : json) : result (Z * Z) :=
  match non_negative cpu, non_negative memory, non_negative reserved_cpu, non_negative reserved_memory with
  | Some cpu, Some memory, Some reserved_cpu, Some reserved_memory =>
      let available_cpu := cpu - Z.max (reserve cpu CPU_RESERVE_MHZ) reserved_cpu in
      let available_memory := memory - Z.max (reserve memory MEMORY_RESERVE_MIB) reserved_memory in
      if (available_cpu <? 100) || (available_memory <? 64) then
        Raise (ValidationError "worker capacity cannot accommodate the OS/service reserve")
      else Ok (available_cpu, available_memory)
  | _, _, _, _ => Raise (ValidationError "worker capacity must contain non-negative integers")
  end.

Definition worker_budget (capacity : dict) (server_id flavor : string) : result (Z * Z) :=
  if negb (json_eqb (refs_get "serverId" capacity) (JStr server_id))
     || negb (json_eqb (refs_get "flavorName" capacity) (JStr flavor)) then
    Raise (ValidationError "worker capacity identity or flavor drifted")
  else
    match refs_get "cpuMHz" capacity, refs_get "memoryMiB" capacity with
    | JInt cpu, JInt memory =>
        if (cpu <? 100) || (memory <? 64) then
          Raise (ValidationError "worker allocatable capacity is malformed")
        else Ok (cpu, memory)
    | _, _ => Raise (ValidationError "worker allocatable capacity is malformed")
    end.

Definition allocation_budget (cpu memory : Z) : Z * Z :=
  (Z.max 100 (cpu / 200 * 100), Z.max 64 ((memory - 32) / 128 * 128)).

(** ** Flavors (openstack.py) *)

Record Flavor := {
  fl_flavor_id : string;
  fl_name : string;
  fl_vcpus : Z;
  fl_ram_mib : Z;
  fl_disk_gib : Z;
}.

Definition flavor_projection (f : Flavor) : dict := [
  ("flavor_id", JStr (fl_flavor_id f));
  ("name", JStr (fl_name f));
  ("vcpus", JInt (fl_vcpus f));
  ("ram_mib", JInt (fl_ram_mib f));
  ("disk_gib", JInt (fl_disk_gib f))].

(** [str.lower] on code points below 256 *)
Definition lower_latin (a : ascii) : ascii :=
  if upper a || (between 192 222 a && negb (code a =? 215)) then chr (code a + 32) else a.

(** [key.lower().replace(" ", "_")] *)
Definition field_key (key : string) : string :=
  map_string (fun a => let b := lower_latin a in if is_char " " b then "_"%char else b) key.

Definition lowered (document : dict) : dict :=
  fold_left (fun acc kv => dict_set (field_key kv.1) kv.2 acc) document [].

Definition _field (document : dict) (name : string) : json :=
  default JNull (dict_get (field_key name) (lowered document)).

(** [except ValidationError as error: raise ... from error] *)
Definition otherwise {A} (e : error) (r : result A) : result A :=
  match r with Raise (ValidationError _) => Raise e | _ => r end.

Definition integer_field (shown : dict) (name : string) : result Z :=
  match _field shown name with
  | JInt z => Ok z
  | _ => Raise (OpenStackError "OpenStack flavor capacity was malformed")
  end.

Definition _flavor_capacity (shown : dict) : result Flavor :=
  let malformed := OpenStackError "OpenStack flavor identity was malformed" in
  identifier ← otherwise malformed (flavor_reference (_field shown "id"));
  name ← otherwise malformed (flavor_reference (_field shown "name"));
  vcpus ← integer_field shown "vcpus";
  ram ← integer_field shown "ram";
  disk ← integer_field shown "disk";
  if (1 <=? vcpus) && (vcpus <=? 4096) && (1 <=? ram) && (ram <=? 16777216)
     && (0 <=? disk) && (disk <=? 1048576) then
    Ok {| fl_flavor_id := identifier; fl_name := name; fl_vcpus := vcpus; fl_ram_mib := ram; fl_disk_gib := disk |}
  else Raise (OpenStackError "OpenStack flavor capacity was outside safety bounds").

Section WithOpenStack.
Context (openstack : list string -> result (option json)).

(** [None]: the output is not JSON. *)
Definition _json_command (arguments : list string) : result json :=
  stdout ← openstack (arguments ++ ["--format"; "json"]);
  match stdout with
  | Some v => Ok v
  | None => Raise (OpenStackError "OpenStack returned malformed JSON")
  end.

Definition _provider_uuid (value : json) : result string :=
  otherwise (OpenStackError "OpenStack returned a malformed project UUID") (openstack_uuid value).

Definition verify_project (platform : Platform) : result unit :=
  token ← _json_command ["token"; "issue"; "--column"; "project_id"];
  match token with
  | JObj d =>
      project_id ← _provider_uuid (_field d "project_id");
      configured ← uuid (JStr (pl_project_id platform));
      guard_else (String.eqb project_id configured)
        (OpenStackError "authenticated OpenStack project UUID does not match configuration")
  | _ => Raise (OpenStackError "OpenStack token projection was not an object")
  end.

Definition observe_flavor_capacity (platform : Platform) (reference : string) : result Flavor :=
  reference ← flavor_reference (JStr reference);
  _ ← verify_project platform;
  shown ← _json_command ["flavor"; "show"; reference; "--column"; "id"; "--column"; "name";
                         "--column"; "vcpus"; "--column"; "ram"; "--column"; "disk"];
  match shown with
  | JObj d =>
      flavor ← _flavor_capacity d;
      if String.eqb reference (fl_flavor_id flavor) || String.eqb reference (fl_name flavor) then Ok flavor
      else Raise (OpenStackError "OpenStack flavor reference resolved to a different identity")
  | _ => Raise (OpenStackError "OpenStack flavor projection was not an object")
  end.

(** ** Reviewed plans *)

Definition current_size (a : Application) : json := JObj [
  ("enabled", JBool (app_desired_running a));
  ("flavor", JStr (app_worker_flavor a));
  ("cpuMHz", JInt (app_scheduler_cpu_mhz a));
  ("memoryMiB", JInt (app_scheduler_memory_mib a))].

Definition plan_projection (a : Application) (application_id : string) (active : option ActiveDeployment)
    (flavor : Flavor) : dict := [
  ("applicationId", JStr application_id);
  ("deploymentId", opt_text (ac_deployment_id <$> active));
  ("activation", JStr "enable-after-healthy-acceptance");
  ("current", current_size a);
  ("flavor", JObj (flavor_projection flavor));
  ("allocation", JStr "measured-worker-capacity-minus-reserve");
  ("reserve", JObj [("cpuMHzMinimum", JInt CPU_RESERVE_MHZ); ("memoryMiBMinimum", JInt MEMORY_RESERVE_MIB);
                    ("percentMinimum", JInt RESERVE_PERCENT)])].

(** The closure [probe] of [prepare_plan] *)
Definition probe (platform : Platform) (a : Application) (application_id : string)
    (active : option ActiveDeployment) (reference : string) : result dict :=
  checked ← flavor_reference (JStr reference);
  flavor ← observe_flavor_capacity platform checked;
  if fl_ram_mib flavor <? MEMORY_RESERVE_MIB + 64 then
    Raise (ValidationError "flavor cannot accommodate the OS/service reserve")
  else
    let projection := plan_projection a application_id active flavor in
    fingerprint ← request_fingerprint projection;
    Ok (projection ++ [("fingerprint", JStr fingerprint)]).

Definition prepare_plan (platform : Platform) (application_id : string) (reference : json)
    : DB (unit -> result dict) :=
  application ← get_application application_id;
  match application with
  | None => raise (ValidationError "application does not exist")
  | Some a =>
      active ← get_active_deployment application_id;
      reference ← lift (flavor_reference reference);
      mret (fun _ => probe platform a application_id active reference)
  end.

Definition plan (platform : Platform) (application_id : string) (reference : json) : DB dict :=
  prepared ← prepare_plan platform application_id reference;
  lift (prepared tt).

Definition validate_plan (platform : Platform) (application_id : string) (value : json) : DB dict :=
  match value with
  | JObj d =>
      match refs_get "flavor" d with
      | JObj chosen =>
          reference ← lift (flavor_reference (refs_get "flavor_id" chosen));
          fresh ← plan platform application_id (JStr reference);
          claimed ← lift (request_fingerprint d);
          expected ← lift (request_fingerprint fresh);
          if negb (String.eqb claimed expected) then
            raise (ValidationError "sizing plan drifted; obtain and review a fresh plan")
          else mret fresh
      | _ => raise (ValidationError "sizing plan must be an exact plan response")
      end
  | _ => raise (ValidationError "sizing plan must be an exact plan response")
  end.
End WithOpenStack.

(** ** Measuring a worker (helper/worker_capacity.py) *)

(** What the Nomad command printed, decoded; [None] is not JSON. *)
Record NomadOutput := { no_truncated : bool; no_stdout : option json }.

(** [value[key]] *)
Definition subscript (key : string) (value : json) : result json :=
  match value with
  | JObj d => match dict_get key d with Some v => Ok v | None => Raise KeyError end
  | _ => Raise TypeError
  end.

(** [except (KeyError, TypeError) as error: raise ValidationError(...)] *)
Definition incomplete {A} (r : result A) : result A :=
  match r with
  | Raise KeyError | Raise TypeError => Raise (ValidationError "Nomad worker capacity projection is incomplete")
  | _ => r
  end.

(** [node.get(key)] of a JSON object, [None] of anything else *)
Definition member_of (key : string) (value : json) : json :=
  match value with JObj d => refs_get key d | _ => JNull end.

Definition live_node (server_name : string) (node : json) : bool :=
  match node with
  | JObj d => json_eqb (refs_get "Name" d) (JStr server_name) && negb (json_eqb (refs_get "Status" d) (JStr "down"))
  | _ => false
  end.

Definition node_matches (namespace identifier application_slug server_name node_id : string)
    (node meta docker : dict) : bool :=
  json_eqb (refs_get "ID" node) (JStr node_id)
  && json_eqb (refs_get "Name" node) (JStr server_name)
  && json_eqb (refs_get "Status" node) (JStr "ready")
  && json_eqb (refs_get "SchedulingEligibility" node) (JStr "eligible")
  && json_eqb (refs_get "Drain" node) (JBool false)
  && json_eqb (refs_get "NodeClass" node) (JStr (namespace +:+ "-app"))
  && json_eqb (refs_get "application_id" meta) (JStr identifier)
  && json_eqb (refs_get "application_slug" meta) (JStr application_slug)
  && json_eqb (refs_get "managed_by" meta) (JStr (namespace +:+ "-platform"))
  && json_eqb (refs_get "Detected" docker) (JBool true)
  && json_eqb (refs_get "Healthy" docker) (JBool true).

(** The four measured quantities *)
Definition measured (node : dict) : result (json * json * json * json) :=
  resources ← subscript "NodeResources" (JObj node);
  reserved ← subscript "ReservedResources" (JObj node);
  cpu ← subscript "Cpu" resources ≫= subscript "CpuShares";
  memory ← subscript "Memory" resources ≫= subscript "MemoryMB";
  reserved_cpu ← subscript "Cpu" reserved ≫= subscript "CpuShares";
  reserved_memory ← subscript "Memory" reserved ≫= subscript "MemoryMB";
  Ok (cpu, memory, reserved_cpu, reserved_memory).

Section WithNomad.
Context (nomad : list string -> result NomadOutput).

Definition query (args : list string) : result json :=
  out ← nomad (["node"; "status"; "-json"] ++ args);
  if no_truncated out then Raise (ValidationError "Nomad capacity response exceeded its bound")
  else match no_stdout out with Some v => Ok v | None => Raise ValueError end.

Definition observe_capacity (platform : Platform) (application_id application_slug server_name : string)
    : result dict :=
  identifier ← uuid (JStr application_id);
  application_slug ← slug (JStr application_slug);
  nodes ← query [];
  match nodes with
  | JArr nodes =>
      match List.filter (live_node server_name) nodes with
      | [found] =>
          node_id ← uuid (member_of "ID" found);
          node ← query [node_id];
          match node with
          | JObj node =>
              match refs_get "Meta" node, refs_get "Drivers" node with
              | JObj meta, JObj drivers =>
                  match refs_get "docker" drivers with
                  | JObj docker =>
                      if negb (node_matches (pl_namespace platform) identifier application_slug server_name node_id
                                 node meta docker) then
                        Raise (ValidationError "Nomad worker capacity identity/readiness did not match")
                      else
                        '(cpu, memory, reserved_cpu, reserved_memory) ← incomplete (measured node);
                        '(available_cpu, available_memory) ←
                          capacity_budget cpu memory reserved_cpu reserved_memory;
                        Ok [("nodeId", JStr node_id); ("cpuMHz", JInt available_cpu);
                            ("memoryMiB", JInt available_memory); ("totalCpuMHz", cpu); ("totalMemoryMiB", memory)]
                  | _ => Raise (ValidationError "Nomad worker Docker readiness is malformed")
                  end
              | _, _ => Raise (ValidationError "Nomad worker metadata/drivers are malformed")
              end
          | _ => Raise (ValidationError "Nomad worker detail is malformed")
          end
      | _ => Raise (ValidationError "worker must resolve to exactly one Nomad node")
      end
  | _ => Raise (ValidationError "Nomad node inventory is malformed")
  end.

(** ** The helper's action (helper/production.py) *)

Record WorkerObservation := {
  wo_application_id : string;
  wo_application_slug : string;
  wo_server_id : option string;
  wo_server_name : string;
  wo_port_id : option string;
  wo_port_name : string;
  wo_image_id : option string;
  wo_flavor_name : option string;
  wo_ready : bool;
  wo_provider_active : bool;
  wo_address : option string;
}.

Definition absent (w : WorkerObservation) : bool :=
  match wo_server_id w, wo_port_id w with None, None => true | _, _ => false end.

Definition _worker_result (w : WorkerObservation) : dict :=
  [("applicationId", JStr (wo_application_id w));
   ("slug", JStr (wo_application_slug w));
   ("serverId", opt_text (wo_server_id w));
   ("serverName", JStr (wo_server_name w));
   ("portId", opt_text (wo_port_id w));
   ("portName", JStr (wo_port_name w));
   ("imageId", opt_text (wo_image_id w));
   ("flavorName", opt_text (wo_flavor_name w));
   ("ready", JBool (wo_ready w));
   ("absent", JBool (absent w))]
  ++ match wo_address w with Some a => [("address", JStr a)] | None => [] end.

(** [app.worker.capacity], once the worker has been observed *)
Definition worker_capacity (platform : Platform) (worker : WorkerObservation) (accepted_server_id : option string)
    : result dict :=
  let ready := match accepted_server_id with
               | None => wo_ready worker
               | Some s => bool_decide (wo_server_id worker = Some s) && wo_provider_active worker
               end in
  if negb ready || bool_decide (wo_server_id worker = None) then
    Raise (ValidationError "worker is not ready for capacity observation")
  else
    capacity ← observe_capacity platform (wo_application_id worker) (wo_application_slug worker) (wo_server_name worker);
    Ok (dict_set "ready" (JBool true) (dict_merge (_worker_result worker) capacity)).
End WithNomad.

(** ** Allocating (controller/deployment_service.py) *)

(** [min(memory, ram - reserve(ram))] of a reviewed plan; [bool] is an [int]. *)
Definition within_flavor (sizing_plan : option dict) (memory : Z) : result Z :=
  match sizing_plan with
  | None => Ok memory
  | Some reviewed =>
      ram ← subscript "flavor" (JObj reviewed) ≫= subscript "ram_mib";
      ram ← match ram with JInt z => Ok z | JBool b => Ok (Z.b2z b) | _ => Raise TypeError end;
      Ok (Z.min memory (ram - reserve ram MEMORY_RESERVE_MIB))
  end.

(** The scheduler allocation of a prepared worker; [pinned] is [spec]'s own. *)
Definition allocate (capacity : dict) (server_id worker_flavor : string) (sizing_plan : option dict) (refs : dict)
    (pinned : Z * Z) : result (Z * Z) :=
  '(cpu, memory) ← worker_budget capacity server_id worker_flavor;
  memory ← within_flavor sizing_plan memory;
  let spec := match dict_get "allocation" refs with Some _ => pinned | None => allocation_budget cpu memory end in
  if (cpu <? spec.1) || (memory <? spec.2) then
    Raise (ApplicationError "pinned allocation exceeds worker capacity after reserve")
  else Ok spec.
