(* ===== verification/SizingSpec.v ===== *)
(** * Properties of sizing

    What is allocated on a measured worker fits it and leaves the operating
    system's reserve; a reviewed plan is used only while it is the plan the
    provider and the database give now. *)

From S2P Require Import Prelude Regex Json JsonParse Clock Validation Runtime Sql Schema StorageCapacity.
From S2P Require Import StorageContract DeploymentConfig Sha256 Operations OperationsSpec Applications Fingerprint.
From S2P Require Import Sizing.

(** ** Budgets *)

Lemma capacity_budget_ok cpu memory rc rm ac am : capacity_budget cpu memory rc rm = Ok (ac, am) ->
  exists tc tm, cpu = JInt tc /\ memory = JInt tm
  /\ 100 <= ac /\ ac + reserve tc 200 <= tc /\ 64 <= am /\ am + reserve tm 512 <= tm.
Proof.
  unfold capacity_budget, non_negative, CPU_RESERVE_MHZ, MEMORY_RESERVE_MIB. intros H.
  destruct cpu as [| |tc| | |]; try done. destruct (0 <=? tc); [|done].
  destruct memory as [| |tm| | |]; try done. destruct (0 <=? tm); [|done].
  destruct rc as [| |rc| | |]; try done. destruct (0 <=? rc); [|done].
  destruct rm as [| |rm| | |]; try done. destruct (0 <=? rm); [|done].
  destruct (_ <? 100) eqn:E1; [done|]. destruct (_ <? 64) eqn:E2; [done|].
  injection H as <- <-. exists tc, tm. split_and!; [done|done|lia..].
Qed.

(** A budget's allocation is at least the minimum and fits the budget. *)
Lemma allocation_budget_fits cpu memory : 100 <= cpu -> 64 <= memory ->
  let (c, m) := allocation_budget cpu memory in 100 <= c <= cpu /\ 64 <= m <= memory.
Proof.
  intros Hc Hm. unfold allocation_budget.
  pose proof (Z.mul_div_le cpu 200). pose proof (Z.mul_div_le (memory - 32) 128). lia.
Qed.

Lemma flavor_leaves_room ram : 576 <= ram -> 64 <= ram - reserve ram MEMORY_RESERVE_MIB.
Proof.
  intros H. unfold reserve, RESERVE_PERCENT, MEMORY_RESERVE_MIB.
  pose proof (Z.mul_div_le (ram * 10 + 99) 100). lia.
Qed.

(** ** The measured worker *)

Lemma observe_capacity_ok nomad p i s n capacity : observe_capacity nomad p i s n = Ok capacity ->
  exists node_id cpu memory rc rm ac am, capacity_budget cpu memory rc rm = Ok (ac, am)
  /\ capacity = [("nodeId", JStr node_id); ("cpuMHz", JInt ac); ("memoryMiB", JInt am);
                 ("totalCpuMHz", cpu); ("totalMemoryMiB", memory)].
Proof.
  unfold observe_capacity. intros (identifier & _ & H)%rbind_ok. apply rbind_ok in H as (slug' & _ & H).
  apply rbind_ok in H as (nodes & _ & H). destruct nodes as [| | | |nodes|]; try done.
  destruct (List.filter _ nodes) as [|found [|]]; try done.
  apply rbind_ok in H as (node_id & _ & H). apply rbind_ok in H as (node & _ & H).
  destruct node as [| | | | |node]; try done. destruct (refs_get "Meta" node) as [| | | | |meta]; try done.
  destruct (refs_get "Drivers" node) as [| | | | |drivers]; try done.
  destruct (refs_get "docker" drivers) as [| | | | |docker]; try done.
  destruct (negb _); [done|]. apply rbind_ok in H as ([[[cpu memory] rc] rm] & _ & H).
  apply rbind_ok in H as ([ac am] & Hb & [= <-]). by exists node_id, cpu, memory, rc, rm, ac, am.
Qed.

Lemma worker_capacity_ok nomad p w accepted capacity sid fl :
  worker_capacity nomad p w accepted = Ok capacity -> wo_server_id w = Some sid -> wo_flavor_name w = Some fl ->
  exists ac am tc tm, worker_budget capacity sid fl = Ok (ac, am)
  /\ dict_get "totalCpuMHz" capacity = Some (JInt tc) /\ dict_get "totalMemoryMiB" capacity = Some (JInt tm)
  /\ 100 <= ac /\ ac + reserve tc 200 <= tc /\ 64 <= am /\ am + reserve tm 512 <= tm.
Proof.
  intros H Hs Hf. unfold worker_capacity in H. destruct (_ || _); [done|].
  apply rbind_ok in H as (measured & Hm & [= <-]).
  apply observe_capacity_ok in Hm as (node_id & cpu & memory & rc & rm & ac & am & Hb & ->).
  apply capacity_budget_ok in Hb as (tc & tm & -> & -> & H1 & H2 & H3 & H4).
  exists ac, am, tc, tm. unfold _worker_result. rewrite Hs, Hf.
  split; [|destruct (wo_address w); done].
  transitivity (if (ac <? 100) || (am <? 64)
                then @Raise (Z * Z) (ValidationError "worker allocatable capacity is malformed") else Ok (ac, am)).
  - unfold worker_budget, refs_get. destruct (wo_address w); cbn; rewrite !String.eqb_refl; done.
  - by rewrite (proj2 (Z.ltb_ge ac 100) H1), (proj2 (Z.ltb_ge am 64) H3).
Qed.

(** ** Reviewed plans *)

Lemma reads_plan openstack p i v : reads (plan openstack p i v).
Proof. unfold plan, prepare_plan, get_active_deployment. reads. Qed.

Lemma reads_validate openstack p i v : reads (validate_plan openstack p i v).
Proof. unfold validate_plan. pose proof reads_plan. reads. Qed.

(** The plan a call computes *)
Definition plan_of (openstack : list string -> result (option json)) (p : Platform) (i : string) (d : Db)
    (fresh : dict) (flavor : Flavor) : Prop :=
  exists a active reference, peek (get_application i) d = Ok (Some a)
  /\ peek (get_active_deployment i) d = Ok active
  /\ observe_flavor_capacity openstack p reference = Ok flavor
  /\ 576 <= fl_ram_mib flavor
  /\ exists f, fresh = plan_projection a i active flavor ++ [("fingerprint", JStr f)].

Lemma plan_ok openstack p i v d fresh : peek (plan openstack p i v) d = Ok fresh ->
  exists flavor, plan_of openstack p i d fresh flavor.
Proof.
  intros H. unfold plan, prepare_plan in H.
  rewrite !peek_bind in H by (unfold get_active_deployment; reads).
  apply rbind_ok in H as (k & Hk & H). apply rbind_ok in Hk as (a & Ha & Hk).
  destruct a as [a|]; [|done].
  rewrite peek_bind in Hk by (unfold get_active_deployment; reads). apply rbind_ok in Hk as (active & Hx & Hk).
  rewrite peek_bind in Hk by reads. apply rbind_ok in Hk as (reference & Hr & [= <-]).
  rewrite peek_lift in H. unfold probe in H. apply rbind_ok in H as (checked & _ & H).
  apply rbind_ok in H as (flavor & Hf & H). destruct (fl_ram_mib flavor <? _) eqn:El; [done|].
  apply rbind_ok in H as (f & _ & [= <-]). apply Z.ltb_ge in El.
  exists flavor, a, active, checked. split_and!; [done..|]. by exists f.
Qed.

Lemma canonical_lookup k d e : canonical (JObj d) = canonical (JObj e) ->
  canonical <$> dict_get k d = canonical <$> dict_get k e.
Proof. rewrite <- !dict_get_canonical. intros [= H]. by rewrite H. Qed.

Lemma canonical_object v d : canonical v = canonical (JObj d) ->
  exists e, v = JObj e /\ canonical (JObj e) = canonical (JObj d).
Proof. destruct v as [| | | | |e]; try done. by exists e. Qed.

(** [sizing_plan["flavor"]["ram_mib"]] of a plan with the same encoding *)
Lemma same_plan_ram openstack p i db d fresh flavor : plan_of openstack p i db fresh flavor ->
  dumps (JObj d) = dumps (JObj fresh) -> encodable (JObj d) -> encodable (JObj fresh) ->
  subscript "flavor" (JObj d) ≫= subscript "ram_mib" = Ok (JInt (fl_ram_mib flavor)).
Proof.
  intros (a & active & reference & _ & _ & _ & _ & f & ->) Hd H1 H2.
  apply loads_dumps in H1, H2. rewrite Hd, H2 in H1.
  assert (Hc := f_equal (default JNull) H1 : canonical _ = canonical _).
  assert (Hf := canonical_lookup "flavor" _ _ (eq_sym Hc)).
  simpl subscript. destruct (dict_get "flavor" d) as [v|]; [|done].
  assert (Hv : canonical v = canonical (JObj (flavor_projection flavor))) by (by apply (inj Some)).
  apply canonical_object in Hv as (e & -> & He). cbn [mbind result_bind]. simpl subscript.
  assert (Hr := canonical_lookup "ram_mib" _ _ He).
  destruct (dict_get "ram_mib" e) as [w|]; [|done].
  assert (Hw : canonical w = JInt (fl_ram_mib flavor)) by (by apply (inj Some)). destruct w; try done. by injection Hw as ->.
Qed.

(** [validate_plan] accepts a reviewed plan only while it is the plan the
    provider and the database give now: what it returns is the plan of the
    stored application and of the flavor the provider shows under the chosen
    reference, which has room for the reserve; the reviewed text has its digest;
    and unless two different texts share one, the reviewed memory is that
    flavor's.  It changes nothing. *)
Theorem reviewed_plan_exact openstack p i value c fresh c' :
  validate_plan openstack p i value c = (Ok fresh, c') ->
  exists d flavor, value = JObj d /\ c' = c
  /\ plan_of openstack p i (store c) fresh flavor
  /\ sha256_hexdigest (dumps (JObj d)) = sha256_hexdigest (dumps (JObj fresh))
  /\ (dumps (JObj d) = dumps (JObj fresh) -> encodable (JObj d) -> encodable (JObj fresh) ->
      subscript "flavor" (JObj d) ≫= subscript "ram_mib" = Ok (JInt (fl_ram_mib flavor))).
Proof.
  rewrite reads_validate. intros [= H <-]. unfold validate_plan in H.
  destruct value as [| | | | |d]; try done. destruct (refs_get "flavor" d) as [| | | | |chosen]; try done.
  pose proof reads_plan as Hplan.
  rewrite peek_bind in H by reads. apply rbind_ok in H as (reference & _ & H).
  rewrite peek_bind in H by reads. apply rbind_ok in H as (fresh' & Hf & H).
  rewrite !peek_bind in H by reads. apply rbind_ok in H as (claimed & Hc & H).
  rewrite peek_bind in H by reads. apply rbind_ok in H as (expected & He & H).
  destruct (String.eqb_spec claimed expected) as [<-|]; [|done]. injection H as <-.
  apply plan_ok in Hf as (flavor & Hp). exists d, flavor. split_and!; [done|done|done| |].
  - rewrite peek_lift in Hc, He. by rewrite (fingerprint_digest _ _ Hc), (fingerprint_digest _ _ He).
  - intros. by eapply same_plan_ram.
Qed.

(** ** Allocations *)

Definition reviewed_ram (reviewed : dict) (ram : Z) : Prop :=
  subscript "flavor" (JObj reviewed) ≫= subscript "ram_mib" = Ok (JInt ram).

Lemma within_flavor_ok reviewed memory m : within_flavor reviewed memory = Ok m ->
  m <= memory /\ forall plan ram, reviewed = Some plan -> reviewed_ram plan ram -> m + reserve ram 512 <= ram.
Proof.
  unfold within_flavor, reviewed_ram, MEMORY_RESERVE_MIB. destruct reviewed as [plan|]; [|intros [= <-]; split; [lia|done]].
  intros H. apply rbind_ok in H as (v & Hv & H). apply rbind_ok in H as (ram & Hr & [= <-]).
  split; [lia|]. intros ? ram' [= <-] Hp. rewrite Hv in Hp. injection Hp as ->. injection Hr as ->. lia.
Qed.

Lemma within_flavor_returns reviewed memory : 64 <= memory ->
  (forall plan, reviewed = Some plan -> exists ram, reviewed_ram plan ram /\ 576 <= ram) ->
  exists m, within_flavor reviewed memory = Ok m /\ 64 <= m.
Proof.
  intros Hm Hp. unfold within_flavor. destruct reviewed as [plan|]; [|by eexists].
  destruct (Hp plan eq_refl) as (ram & Hr & Hl). unfold reviewed_ram in Hr. rewrite Hr. cbn [mbind result_bind].
  pose proof (flavor_leaves_room ram Hl). eexists. split; [done|]. lia.
Qed.

(** C37. Whatever [allocate] gives the application on a worker measured by the
    helper, pinned or new, leaves the reserve of processor and memory that the
    measured totals ask for, and with a reviewed plan the reserve of the
    reviewed flavor as well; and a new allocation (none pinned) is always
    given, never below the scheduler's minimum, when the reviewed flavor has
    room for its reserve, which [reviewed_plan_exact] guarantees. *)
Theorem allocation_keeps_reserve nomad p w accepted capacity sid fl reviewed :
  worker_capacity nomad p w accepted = Ok capacity -> wo_server_id w = Some sid -> wo_flavor_name w = Some fl ->
  exists tc tm, dict_get "totalCpuMHz" capacity = Some (JInt tc) /\ dict_get "totalMemoryMiB" capacity = Some (JInt tm)
  /\ (forall refs pinned cpu memory, allocate capacity sid fl reviewed refs pinned = Ok (cpu, memory) ->
       cpu + Z.max 200 ((tc * 10 + 99) / 100) <= tc /\ memory + Z.max 512 ((tm * 10 + 99) / 100) <= tm
       /\ forall plan ram, reviewed = Some plan -> reviewed_ram plan ram -> memory + reserve ram 512 <= ram)
  /\ ((forall plan, reviewed = Some plan -> exists ram, reviewed_ram plan ram /\ 576 <= ram) ->
      forall refs pinned, dict_get "allocation" refs = None ->
       exists cpu memory, allocate capacity sid fl reviewed refs pinned = Ok (cpu, memory)
       /\ 100 <= cpu /\ 64 <= memory).
Proof.
  intros Hw Hs Hf. destruct (worker_capacity_ok _ _ _ _ _ _ _ Hw Hs Hf) as (ac & am & tc & tm & Hb & H1 & H2 & H3 & H4 & H5 & H6).
  exists tc, tm. split_and!; [done|done| |]; unfold allocate; rewrite Hb; cbn [mbind result_bind].
  - intros refs pinned cpu memory H. apply rbind_ok in H as (m & Hm & H).
    apply within_flavor_ok in Hm as [Hm Hp]. destruct (_ || _) eqn:E; [done|]. injection H as H. rewrite H in E.
    apply orb_false_iff in E as [Ec Em]. apply Z.ltb_ge in Ec, Em. cbn [fst snd] in *. unfold reserve, RESERVE_PERCENT in *.
    split_and!; [lia|lia|]. intros plan ram Hr Hram. specialize (Hp plan ram Hr Hram). lia.
  - intros Hp refs pinned ->. destruct (within_flavor_returns reviewed am H5 Hp) as (m & -> & Hm).
    cbn [mbind result_bind]. assert (Hfit := allocation_budget_fits ac m H3 Hm).
    destruct (allocation_budget ac m) as [c m']. cbn [fst snd] in *.
    rewrite (proj2 (Z.ltb_ge ac c)), (proj2 (Z.ltb_ge m m')) by lia. exists c, m'. split; [done|lia].
Qed.

(** ** A measured worker and a reviewed plan *)

Definition demo_platform : Platform := {|
  pl_project_id := "0f5a9c0e-37e8-4b6c-9c3d-5d2f6f2c8a10"; pl_namespace := "demo" |}.

Definition demo_node : json := JObj [
  ("ID", JStr "aaaaaaaa-1111-4111-8111-aaaaaaaaaaaa"); ("Name", JStr "demo-app-1"); ("Status", JStr "ready");
  ("SchedulingEligibility", JStr "eligible"); ("Drain", JBool false); ("NodeClass", JStr "demo-app");
  ("Meta", JObj [("application_id", JStr "11111111-1111-4111-8111-111111111111");
                 ("application_slug", JStr "demo-one"); ("managed_by", JStr "demo-platform")]);
  ("Drivers", JObj [("docker", JObj [("Detected", JBool true); ("Healthy", JBool true)])]);
  ("NodeResources", JObj [("Cpu", JObj [("CpuShares", JInt 4000)]); ("Memory", JObj [("MemoryMB", JInt 1990)])]);
  ("ReservedResources", JObj [("Cpu", JObj [("CpuShares", JInt 0)]); ("Memory", JObj [("MemoryMB", JInt 256)])])].

Definition demo_nomad (args : list string) : result NomadOutput := Ok {|
  no_truncated := false;
  no_stdout := Some (if Nat.eqb (length args) 3 then JArr [JObj [("Name", JStr "other")]; demo_node] else demo_node) |}.

Definition demo_worker : WorkerObservation := {|
  wo_application_id := "11111111-1111-4111-8111-111111111111"; wo_application_slug := "demo-one";
  wo_server_id := Some "22222222-2222-4222-8222-222222222222"; wo_server_name := "demo-app-1";
  wo_port_id := None; wo_port_name := "demo-port"; wo_image_id := None; wo_flavor_name := Some "m1.small";
  wo_ready := true; wo_provider_active := true; wo_address := None |}.

Definition demo_openstack (args : list string) : result (option json) :=
  if existsb (String.eqb "token") args
  then Ok (Some (JObj [("project_id", JStr "0f5a9c0e37e84b6c9c3d5d2f6f2c8a10")]))
  else Ok (Some (JObj [("id", JStr "3"); ("name", JStr "m1.small"); ("vcpus", JInt 2); ("RAM", JInt 2048); ("disk", JInt 20)])).

Definition demo_sized : conn Db := {|
  store := with_applications [{|
    app_application_id := "11111111-1111-4111-8111-111111111111"; app_slug := "demo-one";
    app_repository_url := None; app_desired_running := true; app_url := None; app_worker_server_id := None;
    app_worker_server_name := None; app_worker_port_id := None; app_worker_port_name := None;
    app_worker_flavor := "m1.small"; app_scheduler_cpu_mhz := 1000; app_scheduler_memory_mib := 512;
    app_created_at := ""; app_updated_at := ""; app_builder_flavor := None |}] empty_db;
  in_transaction := false; clock := fun _ => 0; uuids := fun _ => ""%string; ticks := 0 |}.

Definition demo_reviewed : dict :=
  match peek (plan demo_openstack demo_platform "11111111-1111-4111-8111-111111111111" (JStr "3")) (store demo_sized) with
  | Ok plan => plan
  | Raise _ => []
  end.

Abbreviation demo_validation := (validate_plan demo_openstack demo_platform "11111111-1111-4111-8111-111111111111"
  (JObj demo_reviewed) demo_sized).

Ltac prove_encodable :=
  lazymatch goal with
  | |- encodable (JObj _) =>
      apply encodable_obj; split; [apply (bool_decide_eq_true_1 (NoDup _)); vm_compute; reflexivity|];
      repeat (apply Forall_cons; split; [cbn [snd]; prove_encodable|]); apply Forall_nil; exact I
  | |- encodable (JArr _) =>
      apply encodable_arr; repeat (apply Forall_cons; split; [prove_encodable|]); apply Forall_nil; exact I
  | |- encodable (JInt _) => apply Nat.leb_le; vm_compute; reflexivity
  | |- _ => exact I
  end.

Lemma demo_encodable : encodable (JObj demo_reviewed).
Proof. let r := eval vm_compute in demo_reviewed in change (encodable (JObj r)). prove_encodable. Qed.

Lemma reviewed_plan_exact_witness :
  demo_validation = (Ok demo_reviewed, demo_sized)
  /\ exists flavor, reviewed_ram demo_reviewed (fl_ram_mib flavor) /\ 576 <= fl_ram_mib flavor.
Proof.
  assert (H : demo_validation = (Ok demo_reviewed, demo_sized)) by (vm_compute; reflexivity).
  split; [exact H|].
  destruct (reviewed_plan_exact _ _ _ _ _ _ _ H)
    as (d & flavor & Hd & _ & (a & active & reference & _ & _ & _ & Hl & _) & _ & Hr).
  assert (Ed : demo_reviewed = d) by exact (f_equal (fun v => match v with JObj e => e | _ => [] end) Hd).
  clear H Hd. subst d. exists flavor. split; [|exact Hl].
  exact (Hr eq_refl demo_encodable demo_encodable).
Defined.

Lemma allocation_keeps_reserve_witness : exists capacity,
  worker_capacity demo_nomad demo_platform demo_worker None = Ok capacity
  /\ exists cpu memory,
     allocate capacity "22222222-2222-4222-8222-222222222222" "m1.small" (Some demo_reviewed) [] (0, 0) = Ok (cpu, memory)
     /\ 100 <= cpu /\ 64 <= memory.
Proof.
  assert (H : exists capacity, worker_capacity demo_nomad demo_platform demo_worker None = Ok capacity)
    by (eexists; vm_compute; reflexivity).
  destruct H as [capacity H]. exists capacity. split; [exact H|].
  destruct (allocation_keeps_reserve _ _ _ _ _ "22222222-2222-4222-8222-222222222222" "m1.small" (Some demo_reviewed)
              H eq_refl eq_refl) as (tc & tm & _ & _ & _ & Hnew).
  apply Hnew; [|reflexivity]. intros plan E.
  assert (Ep : demo_reviewed = plan) by exact (f_equal (default []) E).
  clear E. subst plan. exists 2048. split; [vm_compute; reflexivity|lia].
Defined.
