(* ===== verification/Resources.v ===== *)
(** * Managed storage resources (src/openstack_platform/controller/database.py)

    The rows of [managed_resources]: creation under storage admission, the
    owner's label, the lifecycle, measured usage with the write block it causes,
    limits and the instance a resource runs on, and the measured usage of the
    storage host. *)

From S2P Require Import Prelude Regex Json Validation Runtime Sql Schema StorageCapacity.
From S2P Require Import StorageContract Operations.

Definition _display_label (value : string) : result string :=
  if negb ((1 <=? String.length value)%nat && (String.length value <=? 100)%nat)
     || negb (String.eqb value (strip whitespace value))
     || existsb (fun a => code a <? 32) (list_ascii_of_string value)
  then Raise (ValidationError "storage display label must be 1-100 printable characters")
  else Ok value.

(** The keyword arguments of [put_managed_resource] but its clock. *)
Record ResourceInput := {
  ri_application_id : string;
  ri_resource_type : string;
  ri_resource_name : string;
  ri_provider_name : string;
  ri_lifecycle_state : string;
  ri_provider_id : option string;
  ri_resource_id : option string;
  ri_display_label : option string;
  ri_memory_bytes : option Z;
  ri_cpu_millicores : option Z;
  ri_mongo_connections : option Z;
  ri_isolated : bool;
  ri_postgres_connections : option Z;
  ri_measured_target_bytes : option Z;
  ri_s3_bytes : option Z;
  ri_s3_objects : option Z;
  ri_last_verified_at : option string;
}.

Definition resource_is (resource_id : string) (r : ManagedResource) : bool :=
  String.eqb (mr_resource_id r) resource_id.

(** [WHERE application_id = ? AND resource_type = ? AND resource_name = ?] *)
Definition named (application_id resource_type resource_name : string) (r : ManagedResource) : bool :=
  String.eqb (mr_application_id r) application_id && String.eqb (mr_resource_type r) resource_type
  && String.eqb (mr_resource_name r) resource_name.

Definition get_managed_resource (resource_id : string) : DB (option ManagedResource) :=
  identifier ← lift (uuid resource_id);
  fetchone (resource_is identifier).

(** What [check] is asked to admit for a new resource. *)
Definition admission_target (i : ResourceInput) : quotas :=
  if String.eqb (ri_resource_type i) "s3" then
    [("s3Bytes", or_z (ri_s3_bytes i) 0); ("s3Objects", or_z (ri_s3_objects i) 0)]
  else
    [("memoryBytes", or_z (ri_memory_bytes i) 536870912);
     ("connections", or_z (ri_postgres_connections i) (or_z (ri_mongo_connections i) 10));
     ("sizeBytes", or_z (ri_measured_target_bytes i) 0)].

Definition is_database (resource_type : string) : bool := one_of_words ["postgres"; "mongo"] resource_type.

Definition new_resource (i : ResourceInput) (identifier name label now : string) : ManagedResource := {|
  mr_resource_id := identifier; mr_application_id := ri_application_id i;
  mr_resource_type := ri_resource_type i; mr_resource_name := name; mr_display_label := label;
  mr_provider_id := ri_provider_id i; mr_provider_name := ri_provider_name i;
  mr_lifecycle_state := ri_lifecycle_state i;
  mr_postgres_connections := ri_postgres_connections i;
  mr_measured_target_bytes := ri_measured_target_bytes i;
  mr_s3_bytes := ri_s3_bytes i; mr_s3_objects := ri_s3_objects i;
  mr_last_verified_at := ri_last_verified_at i; mr_created_at := now; mr_updated_at := now;
  mr_usage := []; mr_usage_error := None; mr_write_blocked := false; mr_blocked_since := None;
  mr_memory_bytes := if is_database (ri_resource_type i)
    then Some (or_z (ri_memory_bytes i) 536870912) else None;
  mr_cpu_millicores := if is_database (ri_resource_type i)
    then Some (or_z (ri_cpu_millicores i) 500) else None;
  mr_mongo_connections := if String.eqb (ri_resource_type i) "mongo"
    then Some (or_z (ri_mongo_connections i) 10) else None;
  mr_instance_id := if ri_isolated i then Some identifier else None;
  mr_instance_port := None; mr_migration_state := None |}.

(** [ON CONFLICT ... DO UPDATE SET]: identity, creation, usage, instance and
    migration stay. *)
Definition resource_update (excluded r : ManagedResource) : ManagedResource := {|
  mr_resource_id := mr_resource_id r; mr_application_id := mr_application_id r;
  mr_resource_type := mr_resource_type r; mr_resource_name := mr_resource_name r;
  mr_display_label := mr_display_label excluded; mr_provider_id := mr_provider_id excluded;
  mr_provider_name := mr_provider_name excluded; mr_lifecycle_state := mr_lifecycle_state excluded;
  mr_postgres_connections := mr_postgres_connections excluded;
  mr_measured_target_bytes := mr_measured_target_bytes excluded;
  mr_s3_bytes := mr_s3_bytes excluded; mr_s3_objects := mr_s3_objects excluded;
  mr_last_verified_at := mr_last_verified_at excluded; mr_created_at := mr_created_at r;
  mr_updated_at := mr_updated_at excluded; mr_usage := mr_usage r; mr_usage_error := mr_usage_error r;
  mr_write_blocked := mr_write_blocked r; mr_blocked_since := mr_blocked_since r;
  mr_memory_bytes := mr_memory_bytes excluded; mr_cpu_millicores := mr_cpu_millicores excluded;
  mr_mongo_connections := mr_mongo_connections excluded; mr_instance_id := mr_instance_id r;
  mr_instance_port := mr_instance_port r; mr_migration_state := mr_migration_state r |}.

Definition opt_result {A B} (f : A -> result B) (o : option A) : result (option B) :=
  match o with None => Ok None | Some a => b ← f a; Ok (Some b) end.

(** [existing["resource_id"] if existing is not None else supplied_id or uuid4()] *)
Definition choose_id (existing : option ManagedResource) (supplied_id : option string) : DB string :=
  match existing, supplied_id with
  | Some r, Some i =>
      if String.eqb (mr_resource_id r) i then mret (mr_resource_id r)
      else raise (DatabaseError "storage resource UUID is immutable")
  | Some r, None => mret (mr_resource_id r)
  | None, Some i => mret i
  | None, None => fresh_uuid
  end.

Definition admit_resource (i : ResourceInput) (existing : option ManagedResource) : DB unit :=
  if (ri_isolated i || String.eqb (ri_resource_type i) "s3") && is_null existing then
    outcome ← gets (fun c => check None (admission_target i) (store c));
    lift outcome
  else mret tt.

Definition put_managed_resource (i : ResourceInput) (now : option string) : DB ManagedResource :=
  application_id ← lift (uuid (ri_application_id i));
  name ← lift (resource_name (ri_resource_name i));
  label ← lift (_display_label (default name (ri_display_label i)));
  supplied_id ← lift (opt_result (fun s => uuid (JStr s)) (ri_resource_id i));
  timestamp ← now_or now;
  identifier ← transaction (
    existing ← fetchone (named application_id (ri_resource_type i) name);
    identifier ← choose_id existing supplied_id;
    _ ← admit_resource i existing;
    let row := new_resource i identifier name label timestamp in
    _ ← upsert (named application_id (ri_resource_type i) name) row (resource_update row);
    mret identifier);
  get_managed_resource identifier ≫= asserted.

Definition set_label (label now : string) (r : ManagedResource) : ManagedResource := {|
  mr_resource_id := mr_resource_id r; mr_application_id := mr_application_id r;
  mr_resource_type := mr_resource_type r; mr_resource_name := mr_resource_name r;
  mr_display_label := label; mr_provider_id := mr_provider_id r;
  mr_provider_name := mr_provider_name r; mr_lifecycle_state := mr_lifecycle_state r;
  mr_postgres_connections := mr_postgres_connections r;
  mr_measured_target_bytes := mr_measured_target_bytes r;
  mr_s3_bytes := mr_s3_bytes r; mr_s3_objects := mr_s3_objects r;
  mr_last_verified_at := mr_last_verified_at r; mr_created_at := mr_created_at r;
  mr_updated_at := now; mr_usage := mr_usage r; mr_usage_error := mr_usage_error r;
  mr_write_blocked := mr_write_blocked r; mr_blocked_since := mr_blocked_since r;
  mr_memory_bytes := mr_memory_bytes r; mr_cpu_millicores := mr_cpu_millicores r;
  mr_mongo_connections := mr_mongo_connections r; mr_instance_id := mr_instance_id r;
  mr_instance_port := mr_instance_port r; mr_migration_state := mr_migration_state r |}.

Definition rename_managed_resource (resource_id display_label : string) (now : option string)
    : DB ManagedResource :=
  identifier ← lift (uuid resource_id);
  label ← lift (_display_label display_label);
  _ ← transaction (
    timestamp ← now_or now;
    count ← update (resource_is identifier) (set_label label timestamp);
    require (Nat.eqb count 1) (DatabaseError "storage resource is missing"));
  get_managed_resource identifier ≫= asserted.

(** [ORDER BY] a list of text columns. *)
Fixpoint columns_leb (a b : list string) : bool :=
  match a, b with
  | x :: a', y :: b' => if String.eqb x y then columns_leb a' b' else str_leb x y
  | _, _ => true
  end.

Definition list_managed_resources (application_id : option string) : DB (list ManagedResource) :=
  match application_id with
  | None =>
      rows ← select (fun _ => true);
      mret (sort_by (fun a b => columns_leb
        [mr_application_id a; mr_resource_type a; mr_resource_name a]
        [mr_application_id b; mr_resource_type b; mr_resource_name b]) rows)
  | Some i =>
      rows ← select (fun r => String.eqb (mr_application_id r) i);
      mret (sort_by (fun a b => columns_leb [mr_resource_type a; mr_resource_name a]
        [mr_resource_type b; mr_resource_name b]) rows)
  end.

Definition set_resource_lifecycle (state now : string) (r : ManagedResource) : ManagedResource := {|
  mr_resource_id := mr_resource_id r; mr_application_id := mr_application_id r;
  mr_resource_type := mr_resource_type r; mr_resource_name := mr_resource_name r;
  mr_display_label := mr_display_label r; mr_provider_id := mr_provider_id r;
  mr_provider_name := mr_provider_name r; mr_lifecycle_state := state;
  mr_postgres_connections := mr_postgres_connections r;
  mr_measured_target_bytes := mr_measured_target_bytes r;
  mr_s3_bytes := mr_s3_bytes r; mr_s3_objects := mr_s3_objects r;
  mr_last_verified_at := mr_last_verified_at r; mr_created_at := mr_created_at r;
  mr_updated_at := now; mr_usage := mr_usage r; mr_usage_error := mr_usage_error r;
  mr_write_blocked := mr_write_blocked r; mr_blocked_since := mr_blocked_since r;
  mr_memory_bytes := mr_memory_bytes r; mr_cpu_millicores := mr_cpu_millicores r;
  mr_mongo_connections := mr_mongo_connections r; mr_instance_id := mr_instance_id r;
  mr_instance_port := mr_instance_port r; mr_migration_state := mr_migration_state r |}.

Definition set_managed_resource_lifecycle (resource_id lifecycle_state : string) (now : option string)
    : DB unit :=
  identifier ← lift (uuid resource_id);
  _ ← require (one_of_words ["creating"; "active"; "removing"; "recovery_required"] lifecycle_state)
    (ValidationError "storage lifecycle state is invalid");
  transaction (
    timestamp ← now_or now;
    count ← update (resource_is identifier) (set_resource_lifecycle lifecycle_state timestamp);
    require (Nat.eqb count 1) (DatabaseError "storage resource is missing")).

Definition delete_managed_resource (application_id resource_type name : string) : DB unit :=
  _ ← lift (uuid application_id);
  checked_name ← lift (resource_name name);
  transaction (delete (named application_id resource_type checked_name)).

(** ** Usage and limits *)

(** [usage["measuredAt"]] bound to a TEXT column. *)
Definition measured_at (usage : dict) : result json :=
  match dict_get "measuredAt" usage with None => Raise KeyError | Some v => Ok v end.
Definition bound_text (v : json) : result (option string) :=
  match v with
  | JNull => Ok None
  | JStr s => Ok (Some s)
  | JInt z => Ok (Some (decimal_text z))
  | JBool b => Ok (Some (if b then "1" else "0"))
  | _ => Raise ProgrammingError
  end.

(** [CASE WHEN ? THEN coalesce(blocked_since, ?) ELSE NULL END] *)
Definition blocked_since_after (blocked : bool) (previous timestamp : option string) : option string :=
  if blocked then match previous with Some s => Some s | None => timestamp end else None.

Definition set_usage (usage : dict) (blocked : bool) (timestamp : option string) (r : ManagedResource)
    : ManagedResource := {|
  mr_resource_id := mr_resource_id r; mr_application_id := mr_application_id r;
  mr_resource_type := mr_resource_type r; mr_resource_name := mr_resource_name r;
  mr_display_label := mr_display_label r; mr_provider_id := mr_provider_id r;
  mr_provider_name := mr_provider_name r; mr_lifecycle_state := mr_lifecycle_state r;
  mr_postgres_connections := mr_postgres_connections r;
  mr_measured_target_bytes := mr_measured_target_bytes r;
  mr_s3_bytes := mr_s3_bytes r; mr_s3_objects := mr_s3_objects r;
  mr_last_verified_at := mr_last_verified_at r; mr_created_at := mr_created_at r;
  mr_updated_at := mr_updated_at r; mr_usage := usage; mr_usage_error := None;
  mr_write_blocked := blocked;
  mr_blocked_since := blocked_since_after blocked (mr_blocked_since r) timestamp;
  mr_memory_bytes := mr_memory_bytes r; mr_cpu_millicores := mr_cpu_millicores r;
  mr_mongo_connections := mr_mongo_connections r; mr_instance_id := mr_instance_id r;
  mr_instance_port := mr_instance_port r; mr_migration_state := mr_migration_state r |}.

Definition put_storage_usage (resource_id : string) (usage : dict) (blocked : bool) : DB unit :=
  value ← lift (measured_at usage);
  transaction (
    timestamp ← lift (bound_text value);
    _ ← update (resource_is resource_id) (set_usage usage blocked timestamp);
    mret tt).

Definition put_storage_host_usage (usage : dict) : DB unit :=
  transaction (upsert (fun _ => true) {| hu_usage := usage |} (fun _ => {| hu_usage := usage |})).

Definition get_storage_host_usage : DB (option dict) :=
  row ← fetchone (fun _ : StorageHostUsage => true);
  mret (hu_usage <$> row).

Definition set_limits (resource_type : string) (q : quotas) (now : string) (r : ManagedResource)
    : ManagedResource := {|
  mr_resource_id := mr_resource_id r; mr_application_id := mr_application_id r;
  mr_resource_type := mr_resource_type r; mr_resource_name := mr_resource_name r;
  mr_display_label := mr_display_label r; mr_provider_id := mr_provider_id r;
  mr_provider_name := mr_provider_name r; mr_lifecycle_state := mr_lifecycle_state r;
  mr_postgres_connections := if String.eqb resource_type "postgres" then dict_get "connections" q else None;
  mr_measured_target_bytes := dict_get "sizeBytes" q;
  mr_s3_bytes := dict_get "s3Bytes" q; mr_s3_objects := dict_get "s3Objects" q;
  mr_last_verified_at := mr_last_verified_at r; mr_created_at := mr_created_at r;
  mr_updated_at := now; mr_usage := mr_usage r; mr_usage_error := mr_usage_error r;
  mr_write_blocked := mr_write_blocked r; mr_blocked_since := mr_blocked_since r;
  mr_memory_bytes := dict_get "memoryBytes" q; mr_cpu_millicores := dict_get "cpuMillicores" q;
  mr_mongo_connections := if String.eqb resource_type "mongo" then dict_get "connections" q else None;
  mr_instance_id := mr_instance_id r;
  mr_instance_port := mr_instance_port r; mr_migration_state := mr_migration_state r |}.

Definition put_storage_limits (resource_id : string) (q : quotas) (usage : dict) (blocked : bool) : DB unit :=
  resource ← get_managed_resource resource_id;
  match resource with
  | None => raise (DatabaseError "resource is absent")
  | Some r =>
      transaction (
        now ← read_clock;
        value ← lift (measured_at usage);
        timestamp ← lift (bound_text value);
        _ ← update (resource_is resource_id) (fun row =>
          set_usage usage blocked timestamp (set_limits (mr_resource_type r) q now row));
        mret tt)
  end.

Definition set_instance (instance_id : string) (port : Z) (migration_state : option string)
    (r : ManagedResource) : ManagedResource := {|
  mr_resource_id := mr_resource_id r; mr_application_id := mr_application_id r;
  mr_resource_type := mr_resource_type r; mr_resource_name := mr_resource_name r;
  mr_display_label := mr_display_label r; mr_provider_id := mr_provider_id r;
  mr_provider_name := mr_provider_name r; mr_lifecycle_state := mr_lifecycle_state r;
  mr_postgres_connections := mr_postgres_connections r;
  mr_measured_target_bytes := mr_measured_target_bytes r;
  mr_s3_bytes := mr_s3_bytes r; mr_s3_objects := mr_s3_objects r;
  mr_last_verified_at := mr_last_verified_at r; mr_created_at := mr_created_at r;
  mr_updated_at := mr_updated_at r; mr_usage := mr_usage r; mr_usage_error := mr_usage_error r;
  mr_write_blocked := mr_write_blocked r; mr_blocked_since := mr_blocked_since r;
  mr_memory_bytes := mr_memory_bytes r; mr_cpu_millicores := mr_cpu_millicores r;
  mr_mongo_connections := mr_mongo_connections r; mr_instance_id := Some instance_id;
  mr_instance_port := Some port; mr_migration_state := migration_state |}.

Definition set_storage_instance (resource_id instance_id : string) (port : Z)
    (migration_state : option string) : DB unit :=
  transaction (
    instance ← lift (uuid instance_id);
    _ ← update (resource_is resource_id) (set_instance instance port migration_state);
    mret tt).
