(* ===== verification/ResourcesSpec.v ===== *)
(** * Properties of managed storage

    A new isolated resource leaves the storage host within its budgets, no call
    changes what a resource identifier stands for, and a write block keeps the
    time it began. *)

From S2P Require Import Prelude Regex Json Validation Runtime Sql Schema StorageCapacity.
From S2P Require Import StorageContract Operations FinishingRetries OperationsSpec AdmissionSpec Applications.
From S2P Require Import ApplicationsSpec Resources.

(** ** Creating a resource *)

Lemma get_resource_peek i c r c' : get_managed_resource i c = (Ok r, c') ->
  uuid (JStr i) = Ok i /\ c' = c /\ r = List.find (resource_is i) (managed_resources (store c)).
Proof.
  intros H. apply bind_ok in H as (j & c1 & [Hj ->]%lift_ok & H). pose proof (uuid_same _ _ Hj); subst j.
  by injection H as <- <-.
Qed.

Lemma choose_id_new supplied c id c' : choose_id None supplied c = (Ok id, c') ->
  store c' = store c /\ in_transaction c' = in_transaction c.
Proof. destruct supplied; [by intros [= _ <-]|by intros [= _ <-]]. Qed.

Definition resource_key (r : ManagedResource) : key :=
  Some [mr_application_id r; mr_resource_type r; mr_resource_name r].

Lemma resource_id_unique : In (fun r => pk (mr_resource_id r)) (unique_keys (Table := resources_table)).
Proof. by left. Qed.

(** What a returned creation did: it was admitted, and its row is the only change. *)
Lemma put_new_resource i now c r c' :
  put_managed_resource i now c = (Ok r, c') ->
  List.find (named (ri_application_id i) (ri_resource_type i) (ri_resource_name i))
    (managed_resources (store c)) = None ->
  (ri_isolated i || String.eqb (ri_resource_type i) "s3" = true ->
     check None (admission_target i) (store c) = Ok tt)
  /\ (exists identifier name label t, r = new_resource i identifier name label t)
  /\ store c' = with_managed_resources (managed_resources (store c) ++ [r]) (store c)
  /\ table_ok (store c) (managed_resources (store c) ++ [r]) = true.
Proof.
  unfold put_managed_resource. intros H Hnew.
  apply bind_ok in H as (a & c1 & [Ha ->]%lift_ok & H). pose proof (uuid_same _ _ Ha); subst a.
  apply bind_ok in H as (name & c1 & [Hname ->]%lift_ok & H).
  apply resource_name_ok in Hname as ([= <-] & Hname).
  apply bind_ok in H as (label & c1 & [_ ->]%lift_ok & H).
  apply bind_ok in H as (supplied & c1 & [_ ->]%lift_ok & H).
  apply bind_ok in H as (t & c1 & [Hs1 _]%now_or_inv & H).
  apply bind_ok in H as (id & c2 & (c3 & Hb & -> & _)%transaction_ok & H).
  apply bind_ok in Hb as (o & c4 & Ho & Hb). injection Ho as <- <-. simpl in Hb. rewrite Hs1 in Hb.
  change (rows (store c)) with (managed_resources (store c)) in Hb. rewrite Hnew in Hb.
  apply bind_ok in Hb as (id' & c5 & [Hs5 _]%choose_id_new & Hb). simpl in Hs5. rewrite Hs1 in Hs5.
  apply bind_ok in Hb as (u & c6 & H6 & Hb).
  assert (Hadm : store c6 = store c5 /\ (ri_isolated i || String.eqb (ri_resource_type i) "s3" = true ->
    check None (admission_target i) (store c) = Ok tt)).
  { unfold admit_resource in H6. simpl in H6. rewrite andb_true_r in H6.
    destruct (_ || _); [|by injection H6 as _ <-].
    apply bind_ok in H6 as (o & c7 & Ho & [Hout ->]%lift_ok). injection Ho as <- <-.
    rewrite <- Hs5. split; [done|]. by destruct u. }
  destruct Hadm as [Hs6 Hadm]. rewrite Hs5 in Hs6.
  apply bind_ok in Hb as (w & c8 & H8 & Hb). injection Hb as <- <-.
  unfold upsert in H8. rewrite Hs6 in H8. change (rows (store c)) with (managed_resources (store c)) in H8.
  destruct (existsb _ _) eqn:Ex.
  { apply existsb_exists in Ex as (x & Hx & Hp). by rewrite (find_none_in _ _ _ Hnew Hx) in Hp. }
  apply insert_ok in H8 as [-> Hok]. rewrite Hs6 in Hok.
  apply bind_ok in H as (found & c9 & (_ & -> & ->)%get_resource_peek & H).
  simpl in H. rewrite Hs6 in H. set (row := new_resource i id' (ri_resource_name i) label t) in *.
  assert (Hfind : List.find (resource_is id') (managed_resources (store c) ++ [row]) = Some row).
  { apply (unique_find (fun r => pk (mr_resource_id r)) _ _ _ [id']).
    - by apply (table_ok_unique _ _ _ Hok), resource_id_unique.
    - intros x Hx%String.eqb_eq. unfold pk. by rewrite Hx.
    - apply in_or_app. right. by left.
    - apply String.eqb_refl. }
  simpl in H. rewrite Hfind in H. injection H as <- <-. simpl.
  split_and!; [done|by eexists _, _, _, _|done|done].
Qed.

(** ** Reservations of a database with one more resource *)

Lemma sum_app a b : sum (a ++ b) = sum a + sum b.
Proof. induction a; simpl; lia. Qed.

(** No unfinished operation of these kinds is about the resource. *)
Definition unclaimed (kinds : list string) (d : Db) (identifier : string) : Prop :=
  forall o, In o (unfinished_of kinds d) -> refs_get "resource_id" (op_refs o) <> JStr identifier.

Lemma raised_unclaimed kinds name d identifier base :
  unclaimed kinds d identifier -> raised kinds name d identifier base = base.
Proof.
  unfold unclaimed, raised. induction (unfinished_of kinds d) as [|o l IH]; simpl; [done|]. intros H.
  assert (Ho := H o (or_introl eq_refl)).
  specialize (IH (fun o' Ho' => H o' (or_intror Ho'))).
  destruct (refs_get "resource_id" (op_refs o)) as [| | |i| |]; try exact IH.
  destruct (String.eqb_spec i identifier); [by subst|exact IH].
Qed.

Lemma check_totals_ok d l : check_totals d l = Ok tt ->
  total_memory l <= memory_budget d <= MEMORY_BUDGET /\ total_connections l <= CONNECTION_BUDGET.
Proof.
  unfold check_totals. destruct (_ || _) eqn:E; [done|].
  destruct (CONNECTION_BUDGET <? _) eqn:F; [done|]. intros _.
  apply orb_false_iff in E as [[E1 E2]%negb_false_iff%andb_true_iff E3].
  apply Z.ltb_ge in E3, F. apply Z.leb_le in E2. lia.
Qed.

Lemma hard_quota_zero : hard_quota 0 = 0.
Proof. reflexivity. Qed.

Lemma hard_quota_pos z : 0 < z -> 0 < hard_quota z.
Proof.
  intros Hz. unfold hard_quota, MIB. change (1024 ^ 2) with 1048576.
  assert (1 <= ((z * 3 + 1) / 2 + 1048576 - 1) / 1048576); [|lia].
  apply Z.div_le_lower_bound; [lia|]. assert (1 <= (z * 3 + 1) / 2) by (apply Z.div_le_lower_bound; lia). lia.
Qed.


(** Storage limits count what is reserved, not what is used: memory and
    connections of the databases, objects of the buckets, bytes of the volume. *)
Definition reserved_disk (d : Db) : Z := let (a, b) := disk_reservations d in a + b.

Definition with_resource (r : ManagedResource) (d : Db) : Db :=
  with_managed_resources (managed_resources d ++ [r]) d.

Lemma reserved_disk_with r d :
  unclaimed limit_kinds d (mr_resource_id r) ->
  reserved_disk (with_resource r d) = reserved_disk d
    + hard_quota (or_z (mr_measured_target_bytes r) 0)
    + garage_reservation (or_z (mr_s3_bytes r) 0) (or_z (mr_s3_objects r) 0).
Proof.
  intros Hr. unfold reserved_disk, disk_reservations, with_resource. simpl. rewrite !map_app, !sum_app. simpl.
  change (raised limit_kinds ?n (with_managed_resources _ d)) with (raised limit_kinds n d).
  rewrite !raised_unclaimed by done. lia.
Qed.

Lemma reserved_instances_with r d :
  unclaimed limit_kinds d (mr_resource_id r) ->
  is_database (mr_resource_type r) = true ->
  reserved_instances (with_resource r d) = reserved_instances d ++
    [(mr_resource_id r, (or_z (mr_memory_bytes r) 536870912,
      or_z (mr_postgres_connections r) (or_z (mr_mongo_connections r) 10)))].
Proof.
  intros Hr Hdb. unfold reserved_instances, with_resource. cbn [managed_resources with_managed_resources].
  unfold is_database in Hdb. rewrite List.filter_app, map_app. cbn [List.filter]. rewrite Hdb. cbn [map].
  change (raised limit_kinds ?n (with_managed_resources _ d)) with (raised limit_kinds n d).
  by rewrite !raised_unclaimed by done.
Qed.

(** The admission's own key for a resource that has no identifier yet. *)
Definition no_new_key (d : Db) : Prop := ~ In "new"%string (map mr_resource_id (managed_resources d)).

Lemma new_instance_key d : no_new_key d -> ~ In "new"%string (dict_keys (reserved_instances d)).
Proof.
  intros H Hin. apply H. unfold reserved_instances, dict_keys in Hin. rewrite map_map in Hin. simpl in Hin.
  apply in_map_iff in Hin as (r & Hr & [Hin _]%filter_In). apply in_map_iff. eauto.
Qed.

Lemma check_new_database m n size d :
  no_new_key d -> 0 <= size ->
  check None [("memoryBytes", m); ("connections", n); ("sizeBytes", size)] d = Ok tt ->
  (0 < size -> reserved_disk d + hard_quota size + 197 * GIB <= data_volume d * 85 / 100)
  /\ total_memory (reserved_instances d) + m <= memory_budget d <= MEMORY_BUDGET
  /\ total_connections (reserved_instances d) + n <= CONNECTION_BUDGET.
Proof.
  intros Hnew Hsize. unfold check. destruct (check_disk _ _ _) as [[]|] eqn:Hd; simpl; [|done]. intros H.
  unfold check_instances in H. simpl in H. rewrite dict_set_fresh in H by (by apply new_instance_key).
  apply check_totals_ok in H. unfold total_memory, total_connections in *. rewrite !map_app, !sum_app in H.
  simpl in H. split; [|lia].
  intros Hpos. unfold check_disk, disk_increase in Hd. simpl in Hd. unfold reserved_disk, disk_reservations.
  cbv beta iota zeta. rewrite hard_quota_zero in Hd.
  destruct (_ && _) eqn:E in Hd; [done|]. pose proof (hard_quota_pos size Hpos).
  unfold quota in E. simpl in E.
  apply andb_false_iff in E as [E%Z.ltb_ge|E%Z.ltb_ge]; lia.
Qed.

(** What the table's constraints say of a row's byte limits. *)
Lemma resource_check_bytes r : resource_check r = true ->
  (0 <= or_z (mr_measured_target_bytes r) 0)
  /\ (mr_measured_target_bytes r <> None -> 0 < or_z (mr_measured_target_bytes r) 0)
  /\ (String.eqb (mr_resource_type r) "s3" = false -> mr_s3_bytes r = None /\ mr_s3_objects r = None).
Proof.
  unfold resource_check. rewrite !andb_true_iff. intros H. destruct_and! H.
  assert (Hz : opt_all (Z.ltb 0) (mr_measured_target_bytes r) = true) by assumption.
  assert (Hs : String.eqb (mr_resource_type r) "s3"
    || is_null (mr_s3_bytes r) && is_null (mr_s3_objects r) = true) by assumption.
  split_and!.
  - destruct (mr_measured_target_bytes r) as [z|]; simpl in *; [|lia]. destruct (Z.eqb_spec z 0); lia.
  - destruct (mr_measured_target_bytes r) as [z|]; simpl in *; [|done]. destruct (Z.eqb_spec z 0); lia.
  - intros E. rewrite E in Hs. by destruct (mr_s3_bytes r), (mr_s3_objects r).
Qed.

Lemma or_z_again x y : or_z (Some (or_z x y)) y = or_z x y.
Proof.
  unfold or_z. destruct x as [z|]; [destruct (Z.eqb_spec z 0) as [|Hz]|].
  - by destruct (Z.eqb_spec y 0).
  - by destruct (Z.eqb_spec z 0).
  - by destruct (Z.eqb_spec y 0).
Qed.

(** Storage admission is sound: when an isolated database is created, what
    all databases have reserved afterwards - counting unfinished limit changes
    - fits the storage host's memory budget and the connection budget, and the
    volume holds the reserved bytes with its headroom.  (The new identifier is
    not yet the subject of an unfinished limit change, and the caller gives the
    connection limit of the database's own kind.) *)
Theorem new_database_within_budgets i now c r c' :
  put_managed_resource i now c = (Ok r, c') ->
  ri_isolated i = true -> is_database (ri_resource_type i) = true ->
  List.find (named (ri_application_id i) (ri_resource_type i) (ri_resource_name i))
    (managed_resources (store c)) = None ->
  (ri_resource_type i = "mongo" \/ ri_mongo_connections i = None) ->
  no_new_key (store c) -> unclaimed limit_kinds (store c) (mr_resource_id r) ->
  total_memory (reserved_instances (store c')) <= memory_budget (store c') <= MEMORY_BUDGET
  /\ total_connections (reserved_instances (store c')) <= CONNECTION_BUDGET
  /\ (ri_measured_target_bytes i <> None ->
      reserved_disk (store c') + 197 * GIB <= data_volume (store c') * 85 / 100).
Proof.
  intros H Hiso Hdb Hnew Hkind Hkey Hfree.
  apply put_new_resource in H as (Hadm & (id & name & label & t & Hr) & Hs & Hok); [|done].
  rewrite Hiso in Hadm. specialize (Hadm eq_refl).
  assert (Hrow : row_check r = true) by (apply (table_ok_row _ _ _ Hok); apply in_or_app; right; by left).
  assert (Htype : String.eqb (ri_resource_type i) "s3" = false).
  { destruct (String.eqb_spec (ri_resource_type i) "s3") as [E|]; [|done]. by rewrite E in Hdb. }
  unfold admission_target in Hadm. rewrite Htype in Hadm.
  apply resource_check_bytes in Hrow as (Hsize & Hpos & Hs3). rewrite Hr in *. simpl in *.
  apply check_new_database in Hadm as (Hdisk & Hmem & Hcon); [|done|done].
  destruct (Hs3 Htype) as [Hb Ho].
  fold (with_resource (new_resource i id name label t) (store c)) in Hs.
  rewrite Hs, reserved_disk_with, reserved_instances_with by done.
  unfold total_memory, total_connections in *. rewrite !map_app, !sum_app. cbn [map sum fold_right fst snd].
  change (memory_budget (with_resource _ _)) with (memory_budget (store c)).
  change (data_volume (with_resource _ _)) with (data_volume (store c)).
  simpl. rewrite Hdb, or_z_again, Hb, Ho.
  change (garage_reservation (or_z None 0) (or_z None 0)) with 0.
  assert (Hcount : or_z (if String.eqb (ri_resource_type i) "mongo" then Some (or_z (ri_mongo_connections i) 10)
    else None) 10 = or_z (ri_mongo_connections i) 10).
  { destruct (String.eqb_spec (ri_resource_type i) "mongo"); [by rewrite or_z_again|].
    by destruct Hkind as [| ->]. }
  rewrite Hcount. split; [lia|]. split; [lia|]. intros Hn. specialize (Hdisk (Hpos Hn)). lia.
Qed.

Definition demo_database : ResourceInput := {|
  ri_application_id := demo_id; ri_resource_type := "postgres"; ri_resource_name := "default";
  ri_provider_name := "storage"; ri_lifecycle_state := "creating"; ri_provider_id := None;
  ri_resource_id := Some demo_other; ri_display_label := None; ri_memory_bytes := None;
  ri_cpu_millicores := None; ri_mongo_connections := None; ri_isolated := true;
  ri_postgres_connections := Some 20; ri_measured_target_bytes := Some (2 * GIB);
  ri_s3_bytes := None; ri_s3_objects := None; ri_last_verified_at := None |}.

Definition demo_before : conn Db := after_app [PutApplication demo_app None].
Definition demo_stored : conn Db := (put_managed_resource demo_database None demo_before).2.

Theorem new_database_within_budgets_witness :
  total_memory (reserved_instances (store demo_stored)) <= memory_budget (store demo_stored) <= MEMORY_BUDGET
  /\ total_connections (reserved_instances (store demo_stored)) <= CONNECTION_BUDGET
  /\ (ri_measured_target_bytes demo_database <> None ->
      reserved_disk (store demo_stored) + 197 * GIB <= data_volume (store demo_stored) * 85 / 100).
Proof.
  assert (H : exists r, put_managed_resource demo_database None demo_before = (Ok r, demo_stored))
    by (eexists; vm_compute; reflexivity).
  destruct H as [r H].
  refine (new_database_within_budgets demo_database None demo_before r demo_stored H _ _ _ _ _ _).
  - reflexivity.
  - reflexivity.
  - vm_compute. reflexivity.
  - right. reflexivity.
  - vm_compute. intros [].
  - assert (E : unfinished_of limit_kinds (store demo_before) = []) by (vm_compute; reflexivity).
    unfold unclaimed. rewrite E. intros o [].
Defined.

(** ** The whole database: applications, the journal and storage *)

Inductive storage_call :=
  | App (k : app_call)
  | PutResource (i : ResourceInput) (now : option string)
  | RenameResource (resource_id label : string) (now : option string)
  | SetResourceLifecycle (resource_id state : string) (now : option string)
  | DeleteResource (application_id resource_type name : string)
  | PutUsage (resource_id : string) (usage : dict) (blocked : bool)
  | PutHostUsage (usage : dict)
  | PutLimits (resource_id : string) (q : quotas) (usage : dict) (blocked : bool)
  | SetInstance (resource_id instance_id : string) (port : Z) (migration_state : option string).

Definition run_storage_call (k : storage_call) : DB unit :=
  match k with
  | App k => run_app_call k
  | PutResource i n => discard (put_managed_resource i n)
  | RenameResource i l n => discard (rename_managed_resource i l n)
  | SetResourceLifecycle i s n => set_managed_resource_lifecycle i s n
  | DeleteResource a t n => delete_managed_resource a t n
  | PutUsage i u b => put_storage_usage i u b
  | PutHostUsage u => put_storage_host_usage u
  | PutLimits i q u b => put_storage_limits i q u b
  | SetInstance i j p m => set_storage_instance i j p m
  end.

Inductive storage_reachable : Db -> Prop :=
  | storage_init : storage_reachable empty_db
  | storage_step c k : storage_reachable (store c) -> in_transaction c = false ->
      storage_reachable (store (run_storage_call k c).2).

Definition id_key (r : ManagedResource) : key := pk (mr_resource_id r).

(** What a resource identifier stands for. *)
Definition same_identity (r r' : ManagedResource) : Prop :=
  mr_application_id r' = mr_application_id r /\ mr_resource_type r' = mr_resource_type r
  /\ mr_resource_name r' = mr_resource_name r /\ mr_created_at r' = mr_created_at r.

(** A time a write block began is kept only while writes are blocked. *)
Definition block_recorded (r : ManagedResource) : Prop :=
  mr_blocked_since r <> None -> mr_write_blocked r = true.

Record ResourceInv (d : Db) : Prop := {
  inv_ids : unique_on id_key (managed_resources d);
  inv_blocks : Forall block_recorded (managed_resources d);
}.

Definition identities_kept (d d' : Db) : Prop :=
  forall r r', In r (managed_resources d) -> In r' (managed_resources d') ->
    mr_resource_id r' = mr_resource_id r -> same_identity r r'.

(** What one call does; creating a resource anew after its deletion makes this
    a relation of single calls, not of sequences. *)
Definition resources_keep (d d' : Db) : Prop := ResourceInv d -> ResourceInv d' /\ identities_kept d d'.

Lemma row_of_id d r r' : unique_on id_key (managed_resources d) ->
  In r (managed_resources d) -> In r' (managed_resources d) ->
  mr_resource_id r' = mr_resource_id r -> r' = r.
Proof.
  intros Hu Hr Hr' He. apply (unique_on_inj _ _ _ _ [mr_resource_id r] Hu); try done.
  unfold id_key, pk. by rewrite He.
Qed.

#[export] Instance resources_keep_refl : Reflexive resources_keep.
Proof.
  intros d Hd. split; [done|]. intros r r' Hr Hr' He.
  pose proof (row_of_id d r r' (inv_ids d Hd) Hr Hr' He) as ->. by unfold same_identity.
Qed.

Lemma keep_same_rows d d' : managed_resources d' = managed_resources d -> resources_keep d d'.
Proof.
  intros He Hd. destruct (resources_keep_refl d Hd) as [[H1 H2] Hk].
  split; [constructor; by rewrite He|]. unfold identities_kept. by rewrite He.
Qed.

Lemma keep_insert d r : block_recorded r ->
  table_ok d (managed_resources d ++ [r]) = true ->
  resources_keep d (with_managed_resources (managed_resources d ++ [r]) d).
Proof.
  intros Hb Hok [Hu Hall]. pose proof (table_ok_unique _ _ _ Hok resource_id_unique) as Hu'.
  split; [constructor; [exact Hu'|by apply Forall_app_2, Forall_singleton]|].
  intros r1 r2 H1 H2 He. simpl in H2.
  pose proof (row_of_id (with_managed_resources (managed_resources d ++ [r]) d) r1 r2 Hu'
    (in_or_app _ _ _ (or_introl H1)) H2 He) as ->. by unfold same_identity.
Qed.

(** An update that touches neither identity nor a block it does not record. *)
Definition lawful (f : ManagedResource -> ManagedResource) : Prop :=
  forall r, mr_resource_id (f r) = mr_resource_id r /\ same_identity r (f r)
    /\ (block_recorded r -> block_recorded (f r)).

Lemma keep_update d p f : lawful f ->
  resources_keep d (with_managed_resources (apply_where p f (managed_resources d)) d).
Proof.
  intros Hf [Hu Hall]. split; [constructor; simpl|].
  - apply unique_on_apply_where; [done|]. intros r _ _. left. unfold id_key. by rewrite (proj1 (Hf r)).
  - apply List.Forall_forall. intros r (r0 & Hr0 & ->)%in_apply_where.
    rewrite List.Forall_forall in Hall. specialize (Hall r0 Hr0).
    destruct (p r0); [by apply Hf|done].
  - intros r r' Hr (r0 & Hr0 & ->)%in_apply_where He.
    assert (Hid : mr_resource_id r0 = mr_resource_id r) by (destruct (p r0); [by rewrite <- (proj1 (Hf r0))|done]).
    pose proof (row_of_id d r r0 Hu Hr Hr0 Hid) as ->. destruct (p r); [by apply Hf|by unfold same_identity].
Qed.

Lemma keep_delete d p :
  resources_keep d (with_managed_resources (List.filter (fun r => negb (p r)) (managed_resources d)) d).
Proof.
  intros [Hu Hall]. split; [constructor; simpl; [by apply unique_on_filter|]|].
  - rewrite List.Forall_forall in *. intros r [Hr _]%filter_In. auto.
  - intros r r' Hr [Hr' _]%filter_In He. pose proof (row_of_id d r r' Hu Hr Hr' He) as ->. by unfold same_identity.
Qed.

(** *** Each call *)

Definition same_resources (d d' : Db) : Prop := managed_resources d' = managed_resources d.

#[export] Instance same_resources_preorder : PreOrder same_resources.
Proof. unfold same_resources. split; [done|]. intros x y z. congruence. Qed.

Lemma resources_update_live i f : evolves same_resources (update_live i f).
Proof. unfold update_live. evolve; done. Qed.
#[local] Hint Resolve resources_update_live : evolve.
Lemma resources_finish i st e p u n : evolves same_resources (_finish_operation i st e p u n).
Proof. unfold _finish_operation. evolve. Qed.
#[local] Hint Resolve resources_finish : evolve.

Lemma journal_same_resources k : evolves same_resources (run_call k).
Proof.
  destruct k; unfold run_call, discard, claim_idempotency_request, complete_idempotency_request,
    enqueue_operation_dispatch, requeue_recovery_dispatch, consume_retry, set_operation_dispatch_status,
    mark_operation_finishing, begin_operation, renew_operation_deadline, checkpoint_operation,
    mark_recovery_required, record_finishing_failure, mark_succeeded, mark_failed, schedule, next_retry;
    evolve; done.
Qed.
#[local] Hint Resolve journal_same_resources : evolve.

Lemma applications_same_resources k : evolves same_resources (run_app_call k).
Proof.
  destruct k; unfold run_app_call, discard, put_application, set_application_runtime,
    put_application_builder_flavor, put_default_builder_flavor, put_image_selection, or_clock,
    advance_environment_revision, set_environment_keys, create_deployment_attempt,
    checkpoint_deployment_attempt, complete_application_deletion, incomplete_evidence; evolve; done.
Qed.

Lemma set_label_lawful l n : lawful (set_label l n).
Proof. intros r. by unfold same_identity, block_recorded. Qed.
Lemma set_lifecycle_lawful s n : lawful (set_resource_lifecycle s n).
Proof. intros r. by unfold same_identity, block_recorded. Qed.
Lemma set_usage_lawful u b t : lawful (set_usage u b t).
Proof. intros r. unfold same_identity, block_recorded. simpl. split_and!; try done. destruct b; [done|]. by intros _ []. Qed.
Lemma set_limits_lawful t q n : lawful (set_limits t q n).
Proof. intros r. by unfold same_identity, block_recorded. Qed.
Lemma set_instance_lawful i p m : lawful (set_instance i p m).
Proof. intros r. by unfold same_identity, block_recorded. Qed.
Lemma resource_update_lawful x : lawful (resource_update x).
Proof. intros r. by unfold same_identity, block_recorded. Qed.
Lemma lawful_compose f g : lawful f -> lawful g -> lawful (fun r => g (f r)).
Proof.
  intros Hf Hg r. destruct (Hf r) as (H1 & (H2 & H3 & H4 & H5) & H6), (Hg (f r)) as (K1 & (K2 & K3 & K4 & K5) & K6).
  unfold same_identity. split_and!; try congruence. auto.
Qed.

Lemma from_lawful d p f : lawful f -> evolves_from d resources_keep (update p f).
Proof. intros Hf. apply (from_update resources_keep). intros _. by apply keep_update. Qed.

Lemma reads_resource i : reads (get_managed_resource i).
Proof. unfold get_managed_resource. reads. Qed.
Lemma reads_admit_resource i o : reads (admit_resource i o).
Proof.
  unfold admit_resource. destruct (_ && _); [|reads]. apply reads_bind; [|intros; reads].
  apply (reads_gets (fun d => check None (admission_target i) d)).
Qed.
Lemma still_choose o s : evolves eq (choose_id o s).
Proof. unfold choose_id. evolve. Qed.
#[local] Hint Resolve reads_resource reads_admit_resource : reads.

Lemma still_read_back i : evolves eq (get_managed_resource i ≫= asserted).
Proof. apply still_reads. reads. Qed.

(** Statements that leave the database alone come first, then one write. *)
Ltac keep_step :=
  match goal with
  | |- evolves_from _ _ (lift _ ≫= _) => apply (from_reads resources_keep); [reads|intros ? _]
  | |- evolves_from _ _ (require _ _ ≫= _) => apply (from_still resources_keep); [evolve|intros ?]
  | |- evolves_from _ _ (now_or _ ≫= _) => apply (from_still resources_keep); [apply still_now|intros ?]
  | |- evolves_from _ _ (read_clock ≫= _) => apply (from_still resources_keep); [evolve|intros ?]
  | |- evolves_from _ _ (get_managed_resource _ ≫= _) => apply (from_reads resources_keep); [reads|intros ? _]
  | |- evolves_from _ _ (transaction _) => apply (from_transaction resources_keep)
  | |- evolves_from _ _ (_ ≫= _) => apply (from_last resources_keep); [|intros ?; first [apply still_read_back|evolve; done|evolve]]
  | |- evolves_from _ _ (match ?x with _ => _ end) => destruct x
  | |- evolves_from _ _ (raise _) => apply (from_evolves resources_keep), (evolves_raise resources_keep)
  | |- evolves_from _ _ (update _ _) => apply from_lawful
  end.

Lemma put_resource_keeps i n : evolves resources_keep (put_managed_resource i n).
Proof.
  unfold put_managed_resource. apply (evolves_of_from resources_keep). intros d.
  do 4 keep_step. keep_step. keep_step. keep_step.
  apply (from_reads resources_keep); [reads|]. intros o _.
  apply (from_still resources_keep); [apply still_choose|]. intros id.
  apply (from_reads resources_keep); [reads|]. intros u _.
  keep_step. apply (from_upsert resources_keep).
  - apply (from_insert resources_keep). intros Hok. apply keep_insert; [by intros []|exact Hok].
  - apply from_lawful, resource_update_lawful.
Qed.

Lemma storage_call_keeps k : evolves resources_keep (run_storage_call k).
Proof.
  destruct k; simpl.
  - apply (evolves_impl same_resources); [apply keep_same_rows|apply applications_same_resources].
  - apply (evolves_of_from resources_keep). intros d. apply (from_last resources_keep); [|intros ?; evolve].
    apply (from_evolves resources_keep), put_resource_keeps.
  - apply (evolves_of_from resources_keep). intros d. unfold rename_managed_resource, discard.
    repeat keep_step. apply set_label_lawful.
  - apply (evolves_of_from resources_keep). intros d. unfold set_managed_resource_lifecycle.
    repeat keep_step. apply set_lifecycle_lawful.
  - apply (evolves_of_from resources_keep). intros d. unfold delete_managed_resource.
    repeat keep_step. apply (from_delete resources_keep), keep_delete.
  - apply (evolves_of_from resources_keep). intros d. unfold put_storage_usage.
    repeat keep_step. apply set_usage_lawful.
  - apply (evolves_impl same_resources); [apply keep_same_rows|]. unfold put_storage_host_usage. evolve; done.
  - apply (evolves_of_from resources_keep). intros d. unfold put_storage_limits.
    repeat keep_step. apply lawful_compose; [apply set_limits_lawful|apply set_usage_lawful].
  - apply (evolves_of_from resources_keep). intros d. unfold set_storage_instance.
    repeat keep_step. apply set_instance_lawful.
Qed.

Lemma storage_reachable_inv d : storage_reachable d -> ResourceInv d.
Proof.
  induction 1 as [|c k Hr IH Ht]; [constructor; simpl; constructor|].
  by destruct (storage_call_keeps k c IH).
Qed.

(** In every database that any sequence of application, journal and storage
    calls reaches, the next call - whatever it is - leaves each resource
    identifier naming the same application, type, name and creation time as
    long as the resource exists, and afterwards every recorded start of a write
    block belongs to a resource whose writes are blocked. *)
Theorem resource_identity_kept c k r r' :
  storage_reachable (store c) ->
  In r (managed_resources (store c)) ->
  In r' (managed_resources (store (run_storage_call k c).2)) ->
  (mr_resource_id r' = mr_resource_id r -> same_identity r r') /\ block_recorded r'.
Proof.
  intros Hr Hin Hin'. apply storage_reachable_inv in Hr.
  destruct (storage_call_keeps k c Hr) as [[_ Hall] Hk]. rewrite List.Forall_forall in Hall.
  split; [by apply Hk|auto].
Qed.

Definition demo_usage : dict := [("measuredAt", JStr "2025-01-01T00:00:00Z"); ("bytes", JInt 5)].

Lemma demo_stored_reachable : storage_reachable (store demo_stored).
Proof.
  assert (E : store demo_stored = store (run_storage_call (PutResource demo_database None)
    (run_storage_call (App (PutApplication demo_app None)) demo).2).2) by (vm_compute; reflexivity).
  rewrite E. apply storage_step; [|vm_compute; reflexivity]. apply storage_step; [|vm_compute; reflexivity].
  apply storage_init.
Qed.

Theorem resource_identity_kept_witness : exists r r',
  managed_resources (store demo_stored) = [r]
  /\ managed_resources (store (run_storage_call (PutUsage demo_other demo_usage true) demo_stored).2) = [r']
  /\ (mr_resource_id r' = mr_resource_id r -> same_identity r r') /\ block_recorded r'.
Proof.
  destruct (managed_resources (store demo_stored)) as [|r [|]] eqn:E1;
    [exfalso; vm_compute in E1; discriminate E1| |exfalso; vm_compute in E1; discriminate E1].
  destruct (managed_resources (store (run_storage_call (PutUsage demo_other demo_usage true) demo_stored).2))
    as [|r' [|]] eqn:E2;
    [exfalso; vm_compute in E2; discriminate E2| |exfalso; vm_compute in E2; discriminate E2].
  exists r, r'. split; [reflexivity|]. split; [reflexivity|].
  refine (resource_identity_kept demo_stored (PutUsage demo_other demo_usage true) r r' demo_stored_reachable _ _).
  - rewrite E1. left. reflexivity.
  - rewrite E2. left. reflexivity.
Defined.

(** Recording a measurement changes only the measured resource: it stores
    the usage and the block, keeps the start of a block that goes on, dates a
    new block with the measurement and clears it when writes are allowed. *)
Theorem measured_usage_recorded i usage blocked c u c' r :
  put_storage_usage i usage blocked c = (Ok u, c') ->
  List.find (resource_is i) (managed_resources (store c)) = Some r ->
  exists v t, dict_get "measuredAt" usage = Some v /\ bound_text v = Ok t
  /\ List.find (resource_is i) (managed_resources (store c')) = Some (set_usage usage blocked t r)
  /\ mr_blocked_since (set_usage usage blocked t r) =
     (if blocked then first_some (mr_blocked_since r) t else None)
  /\ forall j, j <> i -> List.find (resource_is j) (managed_resources (store c'))
       = List.find (resource_is j) (managed_resources (store c)).
Proof.
  unfold put_storage_usage. intros H Hr.
  apply bind_ok in H as (v & c1 & [Hv ->]%lift_ok & H).
  apply transaction_ok in H as (c2 & H & -> & _).
  apply bind_ok in H as (t & c3 & [Ht ->]%lift_ok & H).
  apply bind_ok in H as (n & c4 & (-> & _)%update_ok & H). injection H as _ <-. simpl.
  exists v, t. unfold measured_at in Hv. destruct (dict_get "measuredAt" usage); [|done].
  injection Hv as ->. split_and!; try done.
  - rewrite find_updated by done. rewrite Hr. simpl. apply find_some_in in Hr as [_ Hr]. by rewrite Hr.
  - by destruct blocked, (mr_blocked_since r).
  - intros j Hj. rewrite find_updated by done. destruct (List.find (resource_is j) _) as [x|] eqn:E; [|done].
    simpl. apply find_some_in in E as [_ E]. unfold resource_is in *. apply String.eqb_eq in E as ->.
    by destruct (String.eqb_spec j i).
Qed.

Theorem measured_usage_recorded_witness : exists r u,
  put_storage_usage demo_other demo_usage true demo_stored =
    (Ok u, (put_storage_usage demo_other demo_usage true demo_stored).2)
  /\ List.find (resource_is demo_other) (managed_resources (store demo_stored)) = Some r
  /\ exists v t, dict_get "measuredAt" demo_usage = Some v /\ bound_text v = Ok t.
Proof.
  assert (H : exists u, put_storage_usage demo_other demo_usage true demo_stored =
    (Ok u, (put_storage_usage demo_other demo_usage true demo_stored).2)) by (eexists; vm_compute; reflexivity).
  assert (Hr : exists r, List.find (resource_is demo_other) (managed_resources (store demo_stored)) = Some r)
    by (eexists; vm_compute; reflexivity).
  destruct H as [u H], Hr as [r Hr]. exists r, u. split; [exact H|split; [exact Hr|]].
  destruct (measured_usage_recorded _ _ _ _ _ _ _ H Hr) as (v & t & H1 & H2 & _).
  exists v, t. split; [exact H1|exact H2].
Defined.
