(* ===== verification/ManagementDb.v ===== *)
(** * The management broker's database
    (src/openstack_platform/management/broker/database.py)

    The tables its journal of intents and its sign-in read and write, as rows in
    the order of insertion.  JSON columns ([body], [operation], [details]) are kept parsed:
    every writer stores [canonical] text.  [REAL] times are instants of
    [Clock]. *)

From S2P Require Import Prelude Regex Json Clock Sql.

Record User := {
  us_id : string;
  us_role : string;
  us_enabled : bool;
  us_status : string;
  us_issuer : string;
  us_username : string;
  us_generation : Z;
}.

Record LocalAccount := {
  la_user_id : string;
  la_password_hash : option string;
  la_totp_secret : option string;
  la_totp_confirmed : bool;
  la_last_counter : Z;
  la_totp_streak : Z;
  la_totp_blocked_until : Z;
}.

Inductive failure_kind := password_failure | totp_failure.

#[export] Instance failure_kind_eq_dec : EqDecision failure_kind.
Proof. solve_decision. Defined.

Record AuthFailure := { af_user_id : string; af_kind : failure_kind; af_created : Z }.

Record Intent := {
  it_id : string;
  it_user_id : string;
  it_app_id : option string;
  it_kind : string;
  it_client_key : string;
  it_controller_key : string;
  it_method : string;
  it_path : string;
  it_body : dict;
  it_state : string;
  it_operation_id : option string;
  it_operation : option dict;
  it_safe_error : option string;
  it_created : Z;
  it_updated : Z;
  it_attempts : Z;
  it_next_retry : Z;
  it_lease : Z;
}.

Record App := {
  ap_id : string;
  ap_user_id : string;
  ap_slug : string;
  ap_lifecycle : string;
  ap_revision : Z;
  ap_created : Z;
}.

Record Member := { mb_app_id : string; mb_user_id : string }.
Record Configuration := { cf_app_id : string; cf_revision : Z }.
Record Observation := { ob_app_id : string; ob_updated : Z }.

Record Audit := {
  au_user_id : option string;
  au_app_id : option string;
  au_intent_id : option string;
  au_action : string;
  au_created : Z;
}.

Record AdminAudit := {
  aa_actor_id : option string;
  aa_target_id : option string;
  aa_action : string;
  aa_details : dict;
  aa_created : Z;
}.

Record MDb := {
  m_users : list User;
  m_intents : list Intent;
  m_apps : list App;
  m_members : list Member;
  m_configurations : list Configuration;
  m_observations : list Observation;
  m_audit : list Audit;
  m_admin_audit : list AdminAudit;
  m_local_accounts : list LocalAccount;
  m_failures : list AuthFailure;
}.

Abbreviation MDB := (db MDb).

Definition with_intents (rs : list Intent) (d : MDb) : MDb := {|
  m_users := m_users d; m_intents := rs; m_apps := m_apps d; m_members := m_members d;
  m_configurations := m_configurations d; m_observations := m_observations d;
  m_audit := m_audit d; m_admin_audit := m_admin_audit d;
  m_local_accounts := m_local_accounts d; m_failures := m_failures d |}.
Definition with_apps (rs : list App) (d : MDb) : MDb := {|
  m_users := m_users d; m_intents := m_intents d; m_apps := rs; m_members := m_members d;
  m_configurations := m_configurations d; m_observations := m_observations d;
  m_audit := m_audit d; m_admin_audit := m_admin_audit d;
  m_local_accounts := m_local_accounts d; m_failures := m_failures d |}.
Definition with_members (rs : list Member) (d : MDb) : MDb := {|
  m_users := m_users d; m_intents := m_intents d; m_apps := m_apps d; m_members := rs;
  m_configurations := m_configurations d; m_observations := m_observations d;
  m_audit := m_audit d; m_admin_audit := m_admin_audit d;
  m_local_accounts := m_local_accounts d; m_failures := m_failures d |}.
Definition with_configurations (rs : list Configuration) (d : MDb) : MDb := {|
  m_users := m_users d; m_intents := m_intents d; m_apps := m_apps d; m_members := m_members d;
  m_configurations := rs; m_observations := m_observations d;
  m_audit := m_audit d; m_admin_audit := m_admin_audit d;
  m_local_accounts := m_local_accounts d; m_failures := m_failures d |}.
Definition with_observations (rs : list Observation) (d : MDb) : MDb := {|
  m_users := m_users d; m_intents := m_intents d; m_apps := m_apps d; m_members := m_members d;
  m_configurations := m_configurations d; m_observations := rs;
  m_audit := m_audit d; m_admin_audit := m_admin_audit d;
  m_local_accounts := m_local_accounts d; m_failures := m_failures d |}.
Definition with_audit (rs : list Audit) (d : MDb) : MDb := {|
  m_users := m_users d; m_intents := m_intents d; m_apps := m_apps d; m_members := m_members d;
  m_configurations := m_configurations d; m_observations := m_observations d;
  m_audit := rs; m_admin_audit := m_admin_audit d;
  m_local_accounts := m_local_accounts d; m_failures := m_failures d |}.
Definition with_admin_audit (rs : list AdminAudit) (d : MDb) : MDb := {|
  m_users := m_users d; m_intents := m_intents d; m_apps := m_apps d; m_members := m_members d;
  m_configurations := m_configurations d; m_observations := m_observations d;
  m_audit := m_audit d; m_admin_audit := rs;
  m_local_accounts := m_local_accounts d; m_failures := m_failures d |}.
Definition with_local_accounts (rs : list LocalAccount) (d : MDb) : MDb := {|
  m_users := m_users d; m_intents := m_intents d; m_apps := m_apps d; m_members := m_members d;
  m_configurations := m_configurations d; m_observations := m_observations d;
  m_audit := m_audit d; m_admin_audit := m_admin_audit d; m_local_accounts := rs; m_failures := m_failures d |}.
Definition with_failures (rs : list AuthFailure) (d : MDb) : MDb := {|
  m_users := m_users d; m_intents := m_intents d; m_apps := m_apps d; m_members := m_members d;
  m_configurations := m_configurations d; m_observations := m_observations d;
  m_audit := m_audit d; m_admin_audit := m_admin_audit d; m_local_accounts := m_local_accounts d;
  m_failures := rs |}.

(** ** Constraints *)

Definition pk (s : string) : key := Some [s].
Definition free_row {A} (_ : A) : bool := true.
Definition free_update {A} (_ _ : A) : bool := true.

Definition has_user (d : MDb) (u : string) : bool := existsb (fun r => String.eqb (us_id r) u) (m_users d).
Definition has_app (d : MDb) (a : string) : bool := existsb (fun r => String.eqb (ap_id r) a) (m_apps d).

(** A nullable reference *)
Definition refers (p : string -> bool) (o : option string) : bool :=
  match o with Some s => p s | None => true end.

#[export] Instance intents_table : Table MDb Intent := {
  rows := m_intents; put_rows := with_intents; row_check := free_row;
  references := fun d r => has_user d (it_user_id r);
  unique_keys := [(fun r => pk (it_id r)); (fun r => pk (it_controller_key r));
    fun r => Some [it_user_id r; it_client_key r]];
  update_guard := free_update; rows_put := fun _ _ => eq_refl }.

#[export] Instance apps_table : Table MDb App := {
  rows := m_apps; put_rows := with_apps; row_check := free_row;
  references := fun d r => has_user d (ap_user_id r);
  unique_keys := [(fun r => pk (ap_id r)); fun r => pk (ap_slug r)];
  update_guard := free_update; rows_put := fun _ _ => eq_refl }.

#[export] Instance members_table : Table MDb Member := {
  rows := m_members; put_rows := with_members; row_check := free_row;
  references := fun d r => has_app d (mb_app_id r) && has_user d (mb_user_id r);
  unique_keys := [fun r => Some [mb_app_id r; mb_user_id r]];
  update_guard := free_update; rows_put := fun _ _ => eq_refl }.

#[export] Instance configurations_table : Table MDb Configuration := {
  rows := m_configurations; put_rows := with_configurations; row_check := free_row;
  references := fun d r => has_app d (cf_app_id r);
  unique_keys := [fun r => Some [cf_app_id r; dumps (JInt (cf_revision r))]];
  update_guard := free_update; rows_put := fun _ _ => eq_refl }.

#[export] Instance observations_table : Table MDb Observation := {
  rows := m_observations; put_rows := with_observations; row_check := free_row;
  references := fun d r => has_app d (ob_app_id r);
  unique_keys := [fun r => pk (ob_app_id r)];
  update_guard := free_update; rows_put := fun _ _ => eq_refl }.

#[export] Instance audit_table : Table MDb Audit := {
  rows := m_audit; put_rows := with_audit; row_check := free_row;
  references := fun d r => refers (has_user d) (au_user_id r);
  unique_keys := []; update_guard := free_update; rows_put := fun _ _ => eq_refl }.

#[export] Instance admin_audit_table : Table MDb AdminAudit := {
  rows := m_admin_audit; put_rows := with_admin_audit; row_check := free_row;
  references := fun d r => refers (has_user d) (aa_actor_id r) && refers (has_user d) (aa_target_id r);
  unique_keys := []; update_guard := free_update; rows_put := fun _ _ => eq_refl }.

#[export] Instance local_accounts_table : Table MDb LocalAccount := {
  rows := m_local_accounts; put_rows := with_local_accounts; row_check := fun r => 0 <=? la_totp_streak r;
  references := fun d r => has_user d (la_user_id r);
  unique_keys := [fun r => pk (la_user_id r)]; update_guard := free_update; rows_put := fun _ _ => eq_refl }.

#[export] Instance failures_table : Table MDb AuthFailure := {
  rows := m_failures; put_rows := with_failures; row_check := free_row;
  references := fun d r => has_user d (af_user_id r);
  unique_keys := []; update_guard := free_update; rows_put := fun _ _ => eq_refl }.

(** ** [Database.connect]: a connection per use, committed when the block ends,
    rolled back when it raises. *)
Definition connect {A} (m : MDB A) : MDB A := fun c =>
  match m c with
  | (Ok a, c') => (Ok a, c')
  | (Raise e, c') => (Raise e, with_store (store c) c')
  end.
