(* ===== verification/ManagementJournal.v ===== *)
(** * The management broker's journal of intents
    (src/openstack_platform/management/broker/journal.py)

    A browser's change is first an intent row; [dispatch] leases it, sends the
    stored request to the controller under the stored idempotency key, or reads
    the operation the controller accepted, and records what the answer shows.

    The controller is code behind a socket: [controller] answers a request with
    a status and a JSON object, or not at all ([Unavailable]).  Times are
    instants, not floats. *)

From S2P Require Import Prelude Regex Json Clock Validation Sql StorageCapacity ManagementDb.

(** The callback [on_deleted], logging and the thread of [run] are left out. *)

(** ** Codes and guidance *)

Definition _ERROR_CODE : re :=
  Cat (Cls upper) (Rep 0 (Some 63%nat) true (Cls (either upper (either digit (is_char "_"))))).

Definition controller_error_code (value : json) : option string :=
  match value with JStr s => if fullmatch _ERROR_CODE s then Some s else None | _ => None end.

Definition BUILD_GUIDANCE : string := "The build couldn't use this commit; its build output says why. Check that the commit is pushed to GitHub (a private repository needs the app's deploy key), that the repository root contains package.json, each package directory contains its runtime lockfile, and build/start scripts are defined in the root package.json.".
Definition HEALTH_GUIDANCE : string := "Check that the health path returns HTTP 2xx with a body of at most 4 KB; use a small endpoint such as /health rather than a full HTML page.".
Definition BUSY_GUIDANCE : string := "The platform is busy with maintenance. Try again in a few minutes.".
Definition ENVIRONMENT_GUIDANCE : string := "Your app wasn't healthy with this change, so the previous values were restored. Check the app's logs for the error, then correct the value and save it again.".
Definition RUNTIME_GUIDANCE : string := "The build couldn't look up the Node.js or Bun version this commit asks for. Try deploying again in a few minutes.".

Definition word_in (l : list string) (s : string) : bool := existsb (String.eqb s) l.
Definition opt_in (l : list string) (o : option string) : bool :=
  match o with Some s => word_in l s | None => false end.

Definition deploy_failure_guidance (kind state : string) (code phase : json) : option string :=
  if negb (String.eqb kind "deploy") || negb (word_in ["failed"; "blocked"] state) then None
  else
    let code := controller_error_code code in
    let phase := match phase with JStr p => Some p | _ => None end in
    if String.eqb state "failed" && (opt_in ["PLATFORM_BUSY"] code || opt_in ["platform_busy"] phase)
    then Some BUSY_GUIDANCE
    else if String.eqb state "failed" && opt_in ["RUNTIME_UNAVAILABLE"] code then Some RUNTIME_GUIDANCE
    else if opt_in ["BUILD_REJECTED"; "BUILD_FAILED"; "SOURCE_REJECTED"; "INVALID_BUILD_CONFIGURATION"] code
            || opt_in ["build_rejected"] phase then Some BUILD_GUIDANCE
    else if opt_in ["CANDIDATE_UNHEALTHY"; "PUBLIC_HEALTH_FAILED"; "PUBLIC_HEALTH_TIMEOUT";
                    "HEALTH_CHECK_FAILED"; "HEALTH_CHECK_TIMEOUT"; "HEALTH_TIMEOUT"] code
    then Some HEALTH_GUIDANCE
    else if opt_in ["DEADLINE_EXCEEDED"; "DEADLINE_EXPIRED"] code
            && opt_in ["worker_ready"; "job_submitted"; "verifying"] phase then Some HEALTH_GUIDANCE
    else None.

Definition env_kinds : list string := ["env_set"; "env_delete"].

Definition attention_guidance (kind state : string) (can_resume : bool) : option string :=
  if negb (word_in ["blocked"; "unknown"] state) then None
  else if word_in env_kinds kind then
    Some "The person who started this environment edit must enter the value again in Settings."
  else
    let change := if String.eqb kind "deploy" then "deployment" else "change" in
    if negb can_resume then Some ("Ask staff to resume this " +:+ change +:+ ".")
    else if String.eqb state "blocked" then Some ("Resume this " +:+ change +:+ " to finish it.")
    else Some ("Resume this " +:+ change +:+ " to check its outcome.").

(** ** The project socket (management/broker/client.py) *)

Inductive answer :=
  | Unavailable
  | Answer (status : Z) (answered : dict).

Record Request := {
  rq_method : string;
  rq_path : string;
  rq_body : json;
  rq_key : option string;
}.

Definition project_path (path : string) : bool :=
  String.prefix "/v1/" path && negb (String.prefix "/v1/admin/" path)
  && negb (existsb (fun a => (code a =? 13) || (code a =? 10)) (list_ascii_of_string path)).

(** [ProjectClient.request]: a path outside the project interface is refused. *)
Definition request (controller : Request -> answer) (q : Request) : result answer :=
  if project_path (rq_path q) then Ok (controller q) else Raise ValueError.

(** ** Claiming an intent *)

Definition int_id (identifier : string) (r : Intent) : bool := String.eqb (it_id r) identifier.

Definition has_secret (secret : option json) : bool := match secret with Some _ => true | None => false end.

(** The conditions under which [dispatch] returns at once. *)
Definition not_dispatchable (secret : option json) (now : Z) (r : Intent) : bool :=
  (negb (word_in ["prepared"; "unknown"; "accepted"] (it_state r))
   && negb (word_in env_kinds (it_kind r) && String.eqb (it_state r) "blocked" && has_secret secret))
  || (now <? it_lease r)
  || (word_in env_kinds (it_kind r) && negb (String.eqb (it_state r) "accepted") && negb (has_secret secret)).

Definition reviewed_kinds : list string := ["default_builder_size"; "storage_limits"; "app_delete"].

Definition is_true (v : json) : bool := match v with JBool true => true | _ => false end.

Definition portal_admin (body : dict) : bool := is_true (refs_get "_portalAdmin" body).

Definition needs_authority (r : Intent) : bool :=
  (portal_admin (it_body r) || word_in reviewed_kinds (it_kind r)) && negb (String.eqb (it_state r) "accepted").

(** The user whose authority counts: the last to resume the intent, or its author. *)
Definition acting_user (d : MDb) (r : Intent) : option string :=
  match List.find (fun a => bool_decide (au_intent_id a = Some (it_id r)) && String.eqb (au_action a) "resume")
          (rev (m_audit d)) with
  | Some a => au_user_id a
  | None => Some (it_user_id r)
  end.

Definition may_act (d : MDb) (r : Intent) : bool :=
  match acting_user d r with
  | None => false
  | Some u =>
      match List.find (fun x => String.eqb (us_id x) u) (m_users d) with
      | None => false
      | Some x =>
          word_in (if word_in reviewed_kinds (it_kind r) then ["admin"] else ["staff"; "admin"]) (us_role x)
          && us_enabled x && String.eqb (us_status x) "active"
      end
  end.

Definition set_state (state : string) (error : option string) (r : Intent) : Intent := {|
  it_id := it_id r; it_user_id := it_user_id r; it_app_id := it_app_id r; it_kind := it_kind r;
  it_client_key := it_client_key r; it_controller_key := it_controller_key r;
  it_method := it_method r; it_path := it_path r; it_body := it_body r;
  it_state := state; it_operation_id := it_operation_id r; it_operation := it_operation r;
  it_safe_error := error; it_created := it_created r; it_updated := it_updated r;
  it_attempts := it_attempts r; it_next_retry := it_next_retry r; it_lease := it_lease r |}.

Definition set_lease (lease : Z) (r : Intent) : Intent := {|
  it_id := it_id r; it_user_id := it_user_id r; it_app_id := it_app_id r; it_kind := it_kind r;
  it_client_key := it_client_key r; it_controller_key := it_controller_key r;
  it_method := it_method r; it_path := it_path r; it_body := it_body r;
  it_state := it_state r; it_operation_id := it_operation_id r; it_operation := it_operation r;
  it_safe_error := it_safe_error r; it_created := it_created r; it_updated := it_updated r;
  it_attempts := it_attempts r + 1; it_next_retry := it_next_retry r; it_lease := lease |}.

(** The first transaction of [dispatch]: the leased row as it was read. *)
Definition claim (timeout : Z) (identifier : string) (secret : option json) : MDB (option Intent) :=
  now ← datetime_now;
  connect (
    row ← fetchone (int_id identifier);
    match row with
    | None => mret None
    | Some r =>
        if not_dispatchable secret now r then mret None
        else
          allowed ← gets (fun c => may_act (store c) r);
          if needs_authority r && negb allowed then
            _ ← update (int_id identifier) (set_state "blocked" (Some "Admin review required."));
            mret None
          else
            _ ← update (int_id identifier) (set_lease (now + timeout + 5 * second));
            mret (Some r)
    end).

(** ** Reading the controller's answer *)

Record Outcome := {
  oc_state : string;
  oc_operation_id : option string;
  oc_operation : option dict;
  oc_error : option string;
}.

(** [x if x is a text] *)
Definition text_of (v : json) : string := match v with JStr s => s | _ => "" end.

(** [v in {...}]: an array or object has no hash. *)
Definition member (l : list string) (v : json) : result bool :=
  if hashable v then Ok (match v with JStr s => word_in l s | _ => false end) else Raise TypeError.

(** The JSON object as it is stored and read again. *)
Definition stored (d : dict) : dict := match canonical (JObj d) with JObj e => e | _ => [] end.

Definition expected_scope (r : Intent) : string :=
  if String.eqb (it_kind r) "default_builder_size" then "infrastructure"
  else "app-" +:+ default "None" (it_app_id r).

Definition evidence_keys : list string := ["operationId"; "status"; "phase"; "cleanupState"; "updatedAt"].

(** [operation["finishing"]] *)
Definition finishing_evidence (r : Intent) (answered : dict) : result bool :=
  if word_in ["deploy"; "app_enable"] (it_kind r) && is_true (refs_get "finishing" answered)
  then member ["deployment_healthy"; "predecessor_cleanup"; "accepted"] (refs_get "phase" answered)
  else Ok false.

(** The operation columns kept of an answer. *)
Definition operation_evidence (finishing : bool) (answered : dict) : dict :=
  let operation := map (fun k => (k, refs_get k answered)) evidence_keys in
  let operation := if finishing then dict_set "finishing" (JBool true) operation else operation in
  match controller_error_code (refs_get "errorCode" answered) with
  | Some code => dict_set "controllerErrorCode" (JStr code) operation
  | None => operation
  end.

Definition failed_operation_error (r : Intent) (code : option string) : string :=
  if String.eqb (it_kind r) "storage_limits" then
    "The limits could not be saved. Reload the current limits and try again."
  else if word_in env_kinds (it_kind r) && opt_in ["ENVIRONMENT_UNHEALTHY"] code then ENVIRONMENT_GUIDANCE
  else "The controller rejected this operation. Review its status before retrying.".

(** [state in {"succeeded", "failed"} and cleanupState not in {...}] *)
Definition uncertain_cleanup (state : string) (answered : dict) : result bool :=
  if word_in ["succeeded"; "failed"] state
  then negb <$> member ["confirmed"; "not_required"] (refs_get "cleanupState" answered)
  else Ok false.

(** Answer to [GET /v1/operations/...]; [None] raises [ControllerUnavailable]. *)
Definition observe_operation (r : Intent) (operation_id : string) (status : Z) (answered : dict)
    : result (option Outcome) :=
  if negb (status =? 200) || negb (json_eqb (refs_get "operationId" answered) (JStr operation_id)) then Ok None
  else
    known ← member ["running"; "succeeded"; "failed"; "recovery_required"] (refs_get "status" answered);
    if negb (known : bool) || negb (json_eqb (refs_get "scope" answered) (JStr (expected_scope r))) then Ok None
    else
      finishing ← finishing_evidence r answered;
      let reported := text_of (refs_get "status" answered) in
      let code := controller_error_code (refs_get "errorCode" answered) in
      let state := if String.eqb reported "running" then "accepted"
                   else if String.eqb reported "recovery_required" then "blocked" else reported in
      let error := if String.eqb state "blocked" then attention_guidance (it_kind r) state true
                   else if String.eqb state "failed" then Some (failed_operation_error r code) else None in
      uncertain ← uncertain_cleanup state answered;
      Ok (Some {| oc_state := if (uncertain : bool) then "blocked" else state;
                  oc_operation_id := Some operation_id;
                  oc_operation := Some (operation_evidence finishing answered);
                  oc_error := if uncertain then attention_guidance (it_kind r) "blocked" true else error |}).

Definition error_detail (answered : dict) : dict := sub_dict "error" answered.

Definition rejection_error (r : Intent) (status : Z) : string :=
  if String.eqb (it_kind r) "app_restart" && (status =? 404) then
    "Restart is not available yet. Ask an admin to update the platform."
  else if word_in ["builder_size"; "default_builder_size"] (it_kind r) && (status =? 404) then
    "Sizes are not available yet. Ask an admin to update the platform."
  else if String.eqb (it_kind r) "storage_limits" then
    "The limits could not be saved. Reload the current limits and try again."
  else "The request was rejected. The slug may be unavailable or the input invalid.".

(** The answer to the stored request. *)
Definition admit_request (r : Intent) (status : Z) (answered : dict) : option Outcome :=
  let operation_id := it_operation_id r in
  if (status =? 201) && String.eqb (it_kind r) "create_app" then
    if match it_app_id r with
       | Some a => json_eqb (refs_get "applicationId" answered) (JStr a)
       | None => json_eqb (refs_get "applicationId" answered) JNull
       end
    then Some {| oc_state := "succeeded"; oc_operation_id := operation_id;
                 oc_operation := it_operation r; oc_error := None |}
    else None
  else if status =? 202 then
    if json_eqb (refs_get "operationId" answered) (JStr (it_controller_key r))
    then Some {| oc_state := "accepted"; oc_operation_id := Some (it_controller_key r);
                 oc_operation := it_operation r; oc_error := None |}
    else None
  else if (status =? 503) && String.eqb (it_kind r) "storage_limits"
          && json_eqb (refs_get "code" (error_detail answered)) (JStr "INSTANCE_MANAGER_UNAVAILABLE") then
    Some {| oc_state := "unknown"; oc_operation_id := operation_id;
            oc_operation := Some [("controllerErrorCode", JStr "INSTANCE_MANAGER_UNAVAILABLE")];
            oc_error := Some "The storage service is temporarily unavailable. This change will retry automatically." |}
  else if existsb (Z.eqb status) [400; 404; 409; 413; 415; 422] then
    let code := controller_error_code (refs_get "code" (error_detail answered)) in
    let operation := match code with Some c => Some [("controllerErrorCode", JStr c)] | None => None end in
    if opt_in ["RECOVERY_REQUIRED"; "UNFINISHED_OPERATION"; "OPERATION_CONFLICT"] code then
      Some {| oc_state := "blocked"; oc_operation_id := operation_id; oc_operation := operation;
              oc_error := attention_guidance (it_kind r) "blocked" true |}
    else
      Some {| oc_state := "failed"; oc_operation_id := operation_id; oc_operation := operation;
              oc_error := Some (rejection_error r status) |}
  else None.

(** [intent["state"] == "accepted" and operation_id]: an empty id is false. *)
Definition polled_operation (r : Intent) : option string :=
  if String.eqb (it_state r) "accepted" then
    match it_operation_id r with Some (String a s) => Some (String a s) | _ => None end
  else None.

(** The stored body as the controller gets it. *)
Definition controller_body (r : Intent) : result dict :=
  let body := dict_pop "_portalAdmin" (it_body r) in
  if String.eqb (it_kind r) "storage_limits" then
    match dict_get "resourceId" body with
    | Some _ => Ok (dict_pop "resourceId" body)
    | None => Raise KeyError
    end
  else Ok body.

Definition request_of (r : Intent) (secret : option json) (body : dict) : Request :=
  match polled_operation r with
  | Some id => {| rq_method := "GET"; rq_path := "/v1/operations/" +:+ id; rq_body := JNull; rq_key := None |}
  | None => {| rq_method := it_method r; rq_path := it_path r;
               rq_body := if word_in env_kinds (it_kind r) then default JNull secret else JObj body;
               rq_key := Some (it_controller_key r) |}
  end.

(** Without a usable answer the intent stays accepted, or its outcome is unknown. *)
Definition unanswered (r : Intent) : Outcome := {|
  oc_state := match polled_operation r with Some _ => "accepted" | None => "unknown" end;
  oc_operation_id := it_operation_id r; oc_operation := it_operation r; oc_error := None |}.

Definition outcome_of (r : Intent) (a : answer) : result Outcome :=
  match a with
  | Unavailable => Ok (unanswered r)
  | Answer status answered =>
      default (unanswered r) <$>
        (match polled_operation r with
         | Some id => observe_operation r id status answered
         | None => Ok (admit_request r status answered)
         end)
  end.

(** ** Recording it *)

Definition backoff (attempts : Z) : Z := Z.min (10 * second) (second / 2 * 2 ^ Z.min attempts 4).

Definition set_outcome (o : Outcome) (now : Z) (attempts : Z) (r : Intent) : Intent := {|
  it_id := it_id r; it_user_id := it_user_id r; it_app_id := it_app_id r; it_kind := it_kind r;
  it_client_key := it_client_key r; it_controller_key := it_controller_key r;
  it_method := it_method r; it_path := it_path r; it_body := it_body r;
  it_state := oc_state o; it_operation_id := oc_operation_id o; it_operation := stored <$> oc_operation o;
  it_safe_error := oc_error o; it_created := it_created r; it_updated := now;
  it_attempts := it_attempts r; it_next_retry := now + backoff attempts; it_lease := 0 |}.

Definition stale (r : Observation) : Observation := {| ob_app_id := ob_app_id r; ob_updated := 0 |}.

Definition set_app_lifecycle (lifecycle : string) (revision : option Z) (r : App) : App := {|
  ap_id := ap_id r; ap_user_id := ap_user_id r; ap_slug := ap_slug r; ap_lifecycle := lifecycle;
  ap_revision := default (ap_revision r) revision; ap_created := ap_created r |}.

Definition fail_deleted (now : Z) (r : Intent) : Intent := {|
  it_id := it_id r; it_user_id := it_user_id r; it_app_id := it_app_id r; it_kind := it_kind r;
  it_client_key := it_client_key r; it_controller_key := it_controller_key r;
  it_method := it_method r; it_path := it_path r; it_body := it_body r;
  it_state := "failed"; it_operation_id := it_operation_id r; it_operation := it_operation r;
  it_safe_error := Some "This application was deleted by an administrator."; it_created := it_created r;
  it_updated := now; it_attempts := it_attempts r; it_next_retry := it_next_retry r; it_lease := 0 |}.

(** [WHERE column = ?]: a NULL equals nothing. *)
Definition sql_eq (o : option string) (s : string) : bool := bool_decide (o = Some s).

Definition retire_app (app_id : string) (now : Z) : MDB unit :=
  _ ← update (fun r => String.eqb (ap_id r) app_id) (set_app_lifecycle "deleted" (Some 0));
  _ ← delete (fun r : Member => String.eqb (mb_app_id r) app_id);
  _ ← delete (fun r : Configuration => String.eqb (cf_app_id r) app_id);
  _ ← delete (fun r : Observation => String.eqb (ob_app_id r) app_id);
  _ ← update (fun r => sql_eq (it_app_id r) app_id && negb (String.eqb (it_kind r) "app_delete")
                       && word_in ["prepared"; "unknown"; "blocked"] (it_state r)) (fail_deleted now);
  mret tt.

Definition audit (actor target : option string) (action : string) (details : dict) (now : Z) : MDB unit :=
  insert {| aa_actor_id := actor; aa_target_id := target; aa_action := action;
            aa_details := stored details; aa_created := now |}.

Definition text_or_null (o : option string) : json := match o with Some s => JStr s | None => JNull end.

(** [d[k]] *)
Definition item (k : string) (d : dict) : result json :=
  match dict_get k d with Some v => Ok v | None => Raise KeyError end.

Definition settled_states : list string := ["succeeded"; "failed"; "blocked"].

(** The audit rows of a state reached for the first time. *)
Definition record_settled (r : Intent) (state : string) (body : dict) (now : Z) : MDB unit :=
  _ ← insert {| au_user_id := Some (it_user_id r); au_app_id := it_app_id r; au_intent_id := Some (it_id r);
                au_action := state; au_created := now |};
  _ ← (if String.eqb (it_kind r) "app_delete" then
         audit (Some (it_user_id r)) None ("app_delete_" +:+ state)
           [("applicationId", text_or_null (it_app_id r)); ("intentId", JStr (it_id r))] now
       else mret tt : MDB unit);
  _ ← (if String.eqb (it_kind r) "storage_limits" then
         resource ← lift (match nth_error (split_on "/" (it_path r)) 3 with
                          | Some s => Ok s | None => Raise IndexError end);
         audit (Some (it_user_id r)) None ("storage_limits_" +:+ state)
           (dict_merge [("intentId", JStr (it_id r)); ("resourceId", JStr resource)] body) now
       else mret tt : MDB unit);
  if String.eqb (it_kind r) "default_builder_size" then
    flavor ← lift (item "flavor" body);
    expected ← lift (item "expectedFlavor" body);
    audit (Some (it_user_id r)) None ("default_builder_size_" +:+ state)
      [("intentId", JStr (it_id r)); ("flavor", flavor); ("expectedFlavor", expected)] now
  else mret tt.

(** The second transaction of [dispatch]. *)
Definition record (r : Intent) (o : Outcome) (body : dict) : MDB unit :=
  now ← datetime_now;
  connect (
    _ ← update (int_id (it_id r)) (set_outcome o now (it_attempts r));
    _ ← update (fun x : Observation => match it_app_id r with Some a => String.eqb (ob_app_id x) a | None => false end) stale;
    _ ← (if String.eqb (it_kind r) "app_delete" && String.eqb (oc_state o) "succeeded" then
           match it_app_id r with Some a => retire_app a now | None => mret tt end
         else mret tt : MDB unit);
    _ ← (if String.eqb (it_kind r) "create_app" then
           let lifecycle := if String.eqb (oc_state o) "succeeded" then Some "ready"
                            else if String.eqb (oc_state o) "failed" then Some "rejected" else None in
           match lifecycle with
           | Some l =>
               _ ← update (fun x : App => match it_app_id r with Some a => String.eqb (ap_id x) a | None => false end)
                     (set_app_lifecycle l None); mret tt
           | None => mret tt
           end
         else mret tt : MDB unit);
    if word_in settled_states (oc_state o) && negb (String.eqb (oc_state o) (it_state r))
    then record_settled r (oc_state o) body now else mret tt).

(** The whole handler; the result is the request it made of the controller. *)
Definition dispatch (controller : Request -> answer) (timeout : Z) (identifier : string) (secret : option json)
    : MDB (option Request) :=
  row ← claim timeout identifier secret;
  match row with
  | None => mret None
  | Some r =>
      body ← lift (controller_body r);
      let q := request_of r secret body in
      a ← lift (request controller q);
      o ← lift (outcome_of r a);
      _ ← record r o body;
      mret (Some q)
  end.

(** ** Reconciliation *)

Definition recoverable (d : MDb) (now : Z) (r : Intent) : bool :=
  word_in ["prepared"; "unknown"; "accepted"] (it_state r)
  && (negb (word_in env_kinds (it_kind r)) || String.eqb (it_state r) "accepted")
  && (it_next_retry r <=? now) && (it_lease r <=? now)
  && match List.find (fun x => String.eqb (us_id x) (it_user_id r)) (m_users d) with
     | Some x => us_enabled x || String.eqb (it_state r) "accepted"
     | None => false
     end.

(** [ORDER BY created LIMIT 4] *)
Definition recovery_batch (d : MDb) (now : Z) : list Intent :=
  take 4 (sort_by (fun a b => it_created a <=? it_created b) (List.filter (recoverable d now) (m_intents d))).

(** Only [project not found] retires a ready application. *)
Definition definitely_missing (a : answer) : bool :=
  match a with
  | Answer status answered =>
      (status =? 404) && json_eqb (refs_get "code" (error_detail answered)) (JStr "APPLICATION_NOT_FOUND")
  | Unavailable => false
  end.

Definition observe_deleted (controller : Request -> answer) (app_id : string) (missing : bool) : MDB bool :=
  app ← fetchone (fun r => String.eqb (ap_id r) app_id);
  match app with
  | None => mret false
  | Some app =>
      if negb (String.eqb (ap_lifecycle app) "ready") then mret (String.eqb (ap_lifecycle app) "deleted")
      else
        missing ← (if missing then mret true
          else
            a ← lift (request controller {| rq_method := "GET";
                 rq_path := "/v1/applications/" +:+ app_id +:+ "/environment"; rq_body := JNull; rq_key := None |});
            mret (definitely_missing a) : MDB bool);
        if negb missing then mret false
        else
          now ← datetime_now;
          _ ← connect (
            changed ← update (fun r => String.eqb (ap_id r) app_id && String.eqb (ap_lifecycle r) "ready")
                        (set_app_lifecycle "deleted" None);
            if Nat.eqb changed 0 then mret tt
            else
              _ ← retire_app app_id now;
              insert {| au_user_id := Some (ap_user_id app); au_app_id := Some app_id; au_intent_id := None;
                        au_action := "app_deleted_by_administrator"; au_created := now |});
          mret true
  end.

(** The scan goes on after the application it stopped at. *)
Definition after_cursor (cursor : option (Z * string)) (r : App) : bool :=
  match cursor with
  | None => true
  | Some (created, id) => (created <? ap_created r) || ((ap_created r =? created) && str_ltb id (ap_id r))
  end.

Definition scan_order (a b : App) : bool :=
  (ap_created a <? ap_created b) || ((ap_created a =? ap_created b) && str_leb (ap_id a) (ap_id b)).

Definition scan_batch (cursor : option (Z * string)) (d : MDb) : list App :=
  take 4 (sort_by scan_order
    (List.filter (fun r => String.eqb (ap_lifecycle r) "ready" && after_cursor cursor r) (m_apps d))).

Definition reconcile_apps (controller : Request -> answer) (cursor : option (Z * string))
    : MDB (option (Z * string)) :=
  rows ← gets (fun c => scan_batch cursor (store c));
  _ ← for_each rows (fun r => _ ← observe_deleted controller (ap_id r) false; mret tt);
  mret (if Nat.eqb (length rows) 4 then (fun r => (ap_created r, ap_id r)) <$> last rows else None).

(** [scan]: five seconds have passed since the last scan of applications. *)
Definition reconcile (controller : Request -> answer) (timeout : Z) (scan : bool) (cursor : option (Z * string))
    : MDB (option (Z * string)) :=
  now ← datetime_now;
  rows ← gets (fun c => recovery_batch (store c) now);
  _ ← for_each rows (fun r => catch (_ ← dispatch controller timeout (it_id r) None; mret tt) (fun _ => mret tt));
  if scan then reconcile_apps controller cursor else mret cursor.

(** ** What a browser sees *)

Definition names_of (body : dict) : json := default (JArr []) (dict_get "names" body).

Definition can_resume (r : Intent) (diagnostic admin : bool) : bool :=
  negb (word_in env_kinds (it_kind r)) && (negb (String.eqb (it_kind r) "app_delete") || admin)
  && word_in ["blocked"; "unknown"] (it_state r) && (negb (portal_admin (it_body r)) || diagnostic).

Definition resubmittable (r : Intent) : bool :=
  word_in env_kinds (it_kind r) && word_in ["prepared"; "unknown"; "blocked"] (it_state r).

(** [a or b] of texts *)
Definition first_text (a b : option string) : option string :=
  match a with Some (String _ _) => a | _ => b end.

Definition shown_operation (r : Intent) : dict := dict_pop "controllerErrorCode" (default [] (it_operation r)).

Definition operation_code (r : Intent) : option string :=
  controller_error_code (refs_get "controllerErrorCode" (default [] (it_operation r))).

Definition intent_model (r : Intent) (diagnostic : bool) (viewer : option string) (admin : bool) : dict :=
  let operation := shown_operation r in
  let other := match viewer with Some v => negb (String.eqb (it_user_id r) v) | None => false end in
  let base := [
    ("intentId", JStr (it_id r));
    ("appId", text_or_null (it_app_id r));
    ("kind", JStr (it_kind r));
    ("state", JStr (it_state r));
    ("operationId", text_or_null (it_operation_id r));
    ("operation", match operation with [] => JNull | _ => JObj operation end);
    ("statusUrl", JStr ("/api/v1/intents/" +:+ it_id r));
    ("safeError", text_or_null (first_text (attention_guidance (it_kind r) (it_state r) (can_resume r diagnostic admin))
       (first_text (deploy_failure_guidance (it_kind r) (it_state r) (text_or_null (operation_code r)) (refs_get "phase" operation))
          (it_safe_error r))));
    ("createdAt", JStr (utc_text_micro (it_created r)));
    ("updatedAt", JStr (utc_text_micro (it_updated r)));
    ("commit", if String.eqb (it_kind r) "deploy" then refs_get "commit" (it_body r) else JNull);
    ("names", if word_in env_kinds (it_kind r) then names_of (it_body r) else JArr []);
    ("retryKey", if resubmittable r && negb other then JStr (it_client_key r) else JNull);
    ("canResume", JBool (can_resume r diagnostic admin));
    ("requiresResubmit", JBool (resubmittable r && negb other))] in
  if diagnostic then base ++ [("controllerErrorCode", text_or_null (operation_code r))] else base.
