(* ===== verification/ManagementJournalSpec.v ===== *)
(** * Properties of the management broker's journal

    Nothing is sent for an intent whose authority is gone, what is sent is what
    was stored, and the state recorded follows from the controller's answer. *)

From S2P Require Import Prelude Regex Json Clock Validation Sql StorageCapacity ManagementDb ManagementJournal.

Definition intent_at (i : string) (d : MDb) : option Intent := List.find (int_id i) (m_intents d).

Lemma updated_at i f d : (forall r, it_id (f r) = it_id r) ->
  List.find (int_id i) (apply_where (int_id i) f (m_intents d)) = f <$> intent_at i d.
Proof.
  intros Hid. unfold intent_at. induction (m_intents d) as [|r l IH]; simpl; [done|].
  destruct (int_id i r) eqn:E; unfold int_id at 1; rewrite ?Hid; fold (int_id i r); by rewrite E.
Qed.

(** ** Claims *)

(** A claim that returns, by the row it read. *)
Lemma claim_returns t i secret c o c' :
  claim t i secret c = (Ok o, c') ->
  let now := clock c (ticks c) in
  match intent_at i (store c) with
  | None => o = None /\ store c' = store c
  | Some r =>
      if not_dispatchable secret now r then o = None /\ store c' = store c
      else if needs_authority r && negb (may_act (store c) r) then
        o = None /\ m_intents (store c') = apply_where (int_id i) (set_state "blocked" (Some "Admin review required.")) (m_intents (store c))
      else o = Some r /\ store c' = with_intents (apply_where (int_id i) (set_lease (now + t + 5 * second)) (m_intents (store c))) (store c)
  end.
Proof.
  intros H now. unfold claim in H. rewrite (bind_eq datetime_now _ c now (tick c) eq_refl) in H.
  unfold connect in H. match type of H with context[match ?m with _ => _ end] => destruct m as [[o'|e] c1] eqn:E end; [|done].
  injection H as <- <-. apply bind_ok in E as (row & c2 & Hrow & E). injection Hrow as Hrow <-.
  change (intent_at i (store c) = row) in Hrow. subst row.
  destruct (intent_at i (store c)) as [r|]; [|by injection E as <- <-].
  destruct (not_dispatchable secret now r); [by injection E as <- <-|].
  apply bind_ok in E as (allowed & c3 & Hal & E). injection Hal as <- <-. cbn [store tick] in E.
  destruct (needs_authority r && negb (may_act (store c) r));
    apply bind_ok in E as (n & c4 & (-> & _)%update_ok & Hret); injection Hret as <- <-; done.
Qed.

(** The intent may be sent now: it is open, not leased, its secret is at hand,
    and whoever is responsible for it still has the authority. *)
Definition sendable (c : conn MDb) (secret : option json) (r : Intent) : bool :=
  negb (not_dispatchable secret (clock c (ticks c)) r) && (negb (needs_authority r) || may_act (store c) r).

Lemma claim_some t i secret c r c' : claim t i secret c = (Ok (Some r), c') ->
  intent_at i (store c) = Some r /\ sendable c secret r = true
  /\ store c' = with_intents (apply_where (int_id i) (set_lease (clock c (ticks c) + t + 5 * second)) (m_intents (store c))) (store c).
Proof.
  intros H. apply claim_returns in H. cbv zeta in H. unfold sendable.
  destruct (intent_at i (store c)) as [r'|]; [|by destruct H].
  destruct (not_dispatchable _ _ _) eqn:E; [by destruct H|].
  destruct (needs_authority r' && negb (may_act (store c) r')) eqn:Ea; destruct H as [H1 H2]; [done|].
  injection H1 as <-. rewrite E. split_and!; [done| |done].
  by destruct (needs_authority r), (may_act (store c) r).
Qed.

(** C30. Nothing is sent without authority: if an intent is missing, settled,
    leased, waits for a secret, or needs an administrator or staff member who
    is no longer one, [dispatch] ends without consulting the controller; and
    what it does send is the stored method, path and body under the stored
    idempotency key, or the question about the operation already accepted. *)
Theorem dispatch_only_authorised controller t i secret c :
  match intent_at i (store c) with
  | Some r => sendable c secret r = false ->
      forall other, dispatch other t i secret c = dispatch controller t i secret c
        /\ forall q, (dispatch other t i secret c).1 <> Ok (Some q)
  | None => forall other, dispatch other t i secret c = dispatch controller t i secret c
        /\ forall q, (dispatch other t i secret c).1 <> Ok (Some q)
  end
  /\ forall q c', dispatch controller t i secret c = (Ok (Some q), c') ->
     exists r, intent_at i (store c) = Some r /\ sendable c secret r = true /\ project_path (rq_path q) = true
       /\ match polled_operation r with
          | Some id => q = {| rq_method := "GET"; rq_path := "/v1/operations/" +:+ id; rq_body := JNull; rq_key := None |}
          | None => rq_method q = it_method r /\ rq_path q = it_path r /\ rq_key q = Some (it_controller_key r)
              /\ (word_in env_kinds (it_kind r) = false -> exists body, controller_body r = Ok body /\ rq_body q = JObj body)
              /\ (word_in env_kinds (it_kind r) = true -> rq_body q = default JNull secret)
          end.
Proof.
  split.
  - assert (Hno : (forall r, intent_at i (store c) = Some r -> sendable c secret r = false) ->
      forall other, dispatch other t i secret c = dispatch controller t i secret c
        /\ forall q, (dispatch other t i secret c).1 <> Ok (Some q)).
    { intros Hn other. unfold dispatch, mbind, M_bind. destruct (claim t i secret c) as [[[r|]|e] c'] eqn:E; [|done..].
      apply claim_some in E as (Hr & Hs & _). by rewrite (Hn r Hr) in Hs. }
    destruct (intent_at i (store c)) as [r|]; [intros Hs; apply Hno; by intros ? [= <-]|by apply Hno].
  - intros q c' (row & c1 & Hclaim & H)%bind_ok. destruct row as [r|]; [|done].
    apply claim_some in Hclaim as (Hr & Hs & _). exists r. split; [done|]. split; [done|].
    apply bind_ok in H as (body & c2 & [Hbody ->]%lift_ok & H). cbv zeta in H.
    apply bind_ok in H as (a & c3 & [Ha ->]%lift_ok & H).
    apply bind_ok in H as (o & c4 & [Ho ->]%lift_ok & H).
    apply bind_ok in H as (u & c5 & _ & Hret). injection Hret as <- _.
    unfold request in Ha. destruct (project_path _) eqn:Hp; [|done]. split; [done|].
    unfold request_of. destruct (polled_operation r) as [id|] eqn:Epoll; [done|]. simpl. split_and!; try done.
    + intros ->. by exists body.
    + by intros ->.
Qed.

(** ** Records *)

Section Keeps.
Context (i kind : string).

(** The row of an intent of this kind stays as it is. *)
Definition keeps_intent (d d' : MDb) : Prop :=
  forall r, intent_at i d = Some r -> it_kind r = kind -> intent_at i d' = Some r.

#[local] Instance keeps_intent_preorder : PreOrder keeps_intent.
Proof. split; [by intros d r|]. intros d1 d2 d3 H12 H23 r Hr Hk. auto. Qed.

Lemma keeps_intent_frame d d' : m_intents d' = m_intents d -> keeps_intent d d'.
Proof. unfold keeps_intent, intent_at. by intros ->. Qed.

#[local] Hint Extern 1 (keeps_intent _ (put_rows _ _)) => apply keeps_intent_frame; reflexivity : evolve.

Lemma keeps_retire a now : kind = "app_delete" -> evolves keeps_intent (retire_app a now).
Proof.
  intros Hk. unfold retire_app. evolve; auto with evolve.
  intros r Hr Hkr. unfold intent_at. simpl.
  set (p := fun r => sql_eq (it_app_id r) a && negb (String.eqb (it_kind r) "app_delete") && word_in ["prepared"; "unknown"; "blocked"] (it_state r)).
  assert (Hf : List.find (int_id i) (apply_where p (fail_deleted now) (m_intents d))
    = (fun r => if p r then fail_deleted now r else r) <$> intent_at i d).
  { unfold intent_at. induction (m_intents d) as [|x l IH]; simpl; [done|].
    destruct (p x) eqn:E; unfold int_id at 1; simpl; fold (int_id i x); destruct (int_id i x); simpl; rewrite ?E; done. }
  change (List.find (int_id i) (apply_where p (fail_deleted now) (m_intents d)) = Some r). rewrite Hf, Hr. simpl.
  unfold p. by rewrite Hkr, Hk, andb_false_r.
Qed.

Lemma keeps_settled r state body now : evolves keeps_intent (record_settled r state body now).
Proof. unfold record_settled, audit. evolve; auto with evolve. Qed.

(** What the second transaction leaves of the intent. *)
Lemma record_row r o body c u c' x :
  record r o body c = (Ok u, c') -> it_id r = i -> it_kind r = kind ->
  intent_at i (store c) = Some x -> it_kind x = kind ->
  exists now, intent_at i (store c') = Some (set_outcome o now (it_attempts r) x).
Proof.
  intros H Hi Hk Hx Hkx. unfold record in H. set (now := clock c (ticks c)).
  rewrite (bind_eq datetime_now _ c now (tick c) eq_refl) in H. exists now.
  unfold connect in H. match type of H with context[match ?m with _ => _ end] => destruct m as [[[]|e] c1] eqn:E end; [|done].
  injection H as _ <-. apply bind_ok in E as (n & c2 & (-> & _)%update_ok & E).
  set (c2 := with_store _ (tick c)) in E.
  assert (H2 : intent_at i (store c2) = Some (set_outcome o now (it_attempts r) x)).
  { subst c2. cbn [store with_store put_rows intents_table rows]. rewrite Hi. unfold intent_at. cbn [m_intents with_intents].
    rewrite updated_at by done. change (store (tick c)) with (store c). by rewrite Hx. }
  clearbody c2.
  match type of E with ?m _ = _ => assert (Hev : evolves keeps_intent m) end.
  { apply (evolves_bind keeps_intent); [by evolve; auto with evolve|intros _].
    apply (evolves_bind keeps_intent).
    { destruct (String.eqb_spec (it_kind r) "app_delete") as [Hd|]; [|apply (evolves_ret keeps_intent)].
      simpl. destruct (String.eqb (oc_state o) "succeeded"); [|apply (evolves_ret keeps_intent)].
      destruct (it_app_id r); [|apply (evolves_ret keeps_intent)]. apply keeps_retire. congruence. }
    intros _. apply (evolves_bind keeps_intent); [by evolve; auto with evolve|intros _].
    pose proof keeps_settled. evolve; auto with evolve. }
  specialize (Hev c2). rewrite E in Hev. by apply Hev.
Qed.
End Keeps.

(** What has to be seen for a success to be recorded. *)
Definition success_evidence (r : Intent) (a : answer) : Prop :=
  match a with
  | Unavailable => False
  | Answer status answered =>
      match polled_operation r with
      | Some id => status = 200 /\ refs_get "operationId" answered = JStr id
          /\ refs_get "status" answered = JStr "succeeded"
          /\ refs_get "scope" answered = JStr (expected_scope r)
          /\ (refs_get "cleanupState" answered = JStr "confirmed" \/ refs_get "cleanupState" answered = JStr "not_required")
      | None => status = 201 /\ it_kind r = "create_app"
          /\ refs_get "applicationId" answered = text_or_null (it_app_id r)
      end
  end.

(** An operation is followed only under the intent's own key. *)
Definition accepted_evidence (r : Intent) (o : Outcome) : Prop :=
  oc_operation_id o = Some (it_controller_key r) \/ oc_operation_id o = it_operation_id r.

Lemma json_eqb_str v s : json_eqb v (JStr s) = true -> v = JStr s.
Proof. destruct v; simpl; try done. by intros ->%String.eqb_eq. Qed.

Lemma json_eqb_null v : json_eqb v JNull = true -> v = JNull.
Proof. by destruct v. Qed.

Lemma member_true l v : member l v = Ok true -> exists s, v = JStr s /\ In s l.
Proof.
  unfold member. destruct (hashable v); [|done]. intros [= H]. destruct v; try done. exists s. split; [done|].
  unfold word_in in H. by apply existsb_exists in H as (t & Ht & ->%String.eqb_eq).
Qed.

Lemma observed_success r id status answered o :
  observe_operation r id status answered = Ok (Some o) ->
  oc_operation_id o = Some id /\ (oc_state o = "succeeded" ->
    status = 200 /\ refs_get "operationId" answered = JStr id /\ refs_get "status" answered = JStr "succeeded"
    /\ refs_get "scope" answered = JStr (expected_scope r)
    /\ (refs_get "cleanupState" answered = JStr "confirmed" \/ refs_get "cleanupState" answered = JStr "not_required")).
Proof.
  unfold observe_operation. destruct (negb (status =? 200) || _) eqn:E1; [done|].
  apply orb_false_iff in E1 as [H200%negb_false_iff%Z.eqb_eq Hid%negb_false_iff%json_eqb_str].
  destruct (member _ (refs_get "status" answered)) as [known|] eqn:Em; [|done]. cbn [mbind result_bind].
  destruct (negb known || _) eqn:E2; [done|].
  apply orb_false_iff in E2 as [->%negb_false_iff Hsc%negb_false_iff%json_eqb_str].
  apply member_true in Em as (s & Hs & Hin). destruct (finishing_evidence r answered) as [fin|]; [|done].
  cbn [mbind result_bind]. rewrite Hs. cbn [text_of].
  set (state := if String.eqb s "running" then _ else _).
  destruct (uncertain_cleanup state answered) as [u|] eqn:Eu; [|done]. cbn [mbind result_bind]. intros [= <-].
  cbn [oc_operation_id oc_state]. split; [done|]. destruct u; [done|]. intros Hst.
  assert (Hss : s = "succeeded").
  { subst state. destruct Hin as [<-|[<-|[<-|[<-|[]]]]]; done. }
  split_and!; try done; [congruence|].
  unfold uncertain_cleanup in Eu. rewrite Hst in Eu. cbn in Eu.
  destruct (member _ _) as [m|] eqn:Ec; [|done]. injection Eu as Eu. apply negb_false_iff in Eu. subst m.
  apply member_true in Ec as (t & -> & [<-|[<-|[]]]); auto.
Qed.

Lemma admitted_success r status answered o : admit_request r status answered = Some o ->
  accepted_evidence r o /\ (oc_state o = "succeeded" ->
    status = 201 /\ it_kind r = "create_app" /\ refs_get "applicationId" answered = text_or_null (it_app_id r)).
Proof.
  unfold admit_request, accepted_evidence. destruct ((status =? 201) && _) eqn:E.
  - apply andb_true_iff in E as [->%Z.eqb_eq Hk%String.eqb_eq].
    destruct (it_app_id r) as [a|]; destruct (json_eqb _ _) eqn:Ej; intros [= <-]; (split; [by right|]); intros _;
      [apply json_eqb_str in Ej|apply json_eqb_null in Ej]; done.
  - destruct (status =? 202); [destruct (json_eqb _ _); intros [= <-]; (split; [by left|done])|].
    destruct (_ && json_eqb _ _); [intros [= <-]; (split; [by right|done])|].
    destruct (existsb _ _); [|done]. destruct (opt_in _ _); intros [= <-]; (split; [by right|done]).
Qed.

(** C31. What [dispatch] records is what the controller's answer shows: when it
    made a request and returned, the intent's row is the stored one with the
    state, operation and message of that answer, unleased and one attempt
    older; it follows only the operation of its own key; and it is recorded as
    succeeded only on the controller's evidence for this very intent, with a
    settled cleanup. *)
Theorem dispatch_records controller t i secret c q c' :
  dispatch controller t i secret c = (Ok (Some q), c') ->
  exists r o r', intent_at i (store c) = Some r /\ outcome_of r (controller q) = Ok o
    /\ intent_at i (store c') = Some r'
    /\ it_state r' = oc_state o /\ it_operation_id r' = oc_operation_id o
    /\ it_operation r' = stored <$> oc_operation o /\ it_safe_error r' = oc_error o
    /\ it_lease r' = 0 /\ it_attempts r' = it_attempts r + 1
    /\ (it_kind r', it_method r', it_path r', it_body r', it_controller_key r')
       = (it_kind r, it_method r, it_path r, it_body r, it_controller_key r)
    /\ accepted_evidence r o
    /\ (it_state r' = "succeeded" -> success_evidence r (controller q)).
Proof.
  intros (row & c1 & Hclaim & H)%bind_ok. destruct row as [r|]; [|done].
  apply claim_some in Hclaim as (Hr & _ & Hc1).
  apply bind_ok in H as (body & c2 & [_ ->]%lift_ok & H). cbv zeta in H.
  apply bind_ok in H as (a & c3 & [Ha ->]%lift_ok & H).
  apply bind_ok in H as (o & c4 & [Ho ->]%lift_ok & H).
  apply bind_ok in H as (u & c5 & Hrec & Hret). injection Hret as <- <-.
  unfold request in Ha. destruct (project_path _); [|done]. injection Ha as <-.
  assert (Hid : it_id r = i) by (apply find_some_in in Hr as [_ ?%String.eqb_eq]; done).
  assert (Hrow : intent_at i (store c1) = Some (set_lease (clock c (ticks c) + t + 5 * second) r)).
  { rewrite Hc1. unfold intent_at at 1. cbn [m_intents with_intents]. by rewrite updated_at, Hr. }
  destruct (record_row i (it_kind r) r o body c1 u c5 _ Hrec Hid eq_refl Hrow eq_refl) as [now Hfin].
  exists r, o, (set_outcome o now (it_attempts r) (set_lease (clock c (ticks c) + t + 5 * second) r)).
  assert (Hev : accepted_evidence r o /\ (oc_state o = "succeeded" -> success_evidence r (controller (request_of r secret body)))).
  { unfold outcome_of, unanswered in Ho. destruct (controller _) as [|status answered] eqn:Ea.
    - injection Ho as <-. simpl. split; [by right|]. by destruct (polled_operation r).
    - unfold success_evidence. destruct (polled_operation r) as [id|] eqn:Ep.
      + destruct (observe_operation r id status answered) as [[o'|]|] eqn:Eo; [| |done]; injection Ho as <-.
        * apply observed_success in Eo as [Hop Hs]. split; [|done]. right. rewrite Hop.
          unfold polled_operation in Ep. destruct (String.eqb _ _), (it_operation_id r) as [[]|]; congruence.
        * split; [by right|done].
      + destruct (admit_request r status answered) as [o'|] eqn:Eo; injection Ho as <-.
        * by apply admitted_success in Eo.
        * split; [by right|done]. }
  split_and!; try done; apply Hev.
Qed.

(** *** One owner, an administrator who lost the role, two intents *)

Definition demo_intent (id kind user : string) (body : dict) : Intent := {|
  it_id := id; it_user_id := user; it_app_id := Some "a1"; it_kind := kind; it_client_key := "c-" +:+ id;
  it_controller_key := "k-" +:+ id; it_method := "POST"; it_path := "/v1/applications/a1/deployments";
  it_body := body; it_state := "prepared"; it_operation_id := None; it_operation := None; it_safe_error := None;
  it_created := 0; it_updated := 0; it_attempts := 0; it_next_retry := 0; it_lease := 0 |}.

Definition demo_broker : conn MDb := {|
  store := {| m_users := [{| us_id := "u1"; us_role := "owner"; us_enabled := true; us_status := "active";
                             us_issuer := "local"; us_username := ""; us_generation := 1 |};
                          {| us_id := "u2"; us_role := "staff"; us_enabled := true; us_status := "active";
                             us_issuer := "local"; us_username := ""; us_generation := 1 |}];
              m_intents := [demo_intent "i1" "deploy" "u1" [("commit", JStr "c")]; demo_intent "i2" "app_delete" "u2" []];
              m_apps := []; m_members := []; m_configurations := []; m_observations := [];
              m_audit := []; m_admin_audit := []; m_local_accounts := []; m_failures := [] |};
  in_transaction := false; clock := fun _ => days_before_year 2025 * day; uuids := fun _ => ""; ticks := 0 |}.

(** A controller that accepts every request under its key. *)
Definition demo_controller (q : Request) : answer :=
  match rq_key q with Some k => Answer 202 [("operationId", JStr k)] | None => Unavailable end.

Lemma dispatch_only_authorised_witness :
  (forall q, (dispatch demo_controller (5 * second) "i2" None demo_broker).1 <> Ok (Some q))
  /\ exists q c', dispatch demo_controller (5 * second) "i1" None demo_broker = (Ok (Some q), c')
       /\ rq_key q = Some "k-i1".
Proof.
  split.
  - assert (Hs : sendable demo_broker None (demo_intent "i2" "app_delete" "u2" []) = false) by (vm_compute; reflexivity).
    exact (proj2 (proj1 (dispatch_only_authorised demo_controller (5 * second) "i2" None demo_broker) Hs demo_controller)).
  - assert (E : exists q c', dispatch demo_controller (5 * second) "i1" None demo_broker = (Ok (Some q), c'))
      by (eexists _, _; vm_compute; reflexivity).
    destruct E as (q & c' & E). exists q, c'. split; [exact E|].
    destruct (proj2 (dispatch_only_authorised demo_controller (5 * second) "i1" None demo_broker) q c' E)
      as (r & Hr & _ & _ & Hq).
    injection Hr as <-. exact (proj1 (proj2 (proj2 Hq))).
Defined.

Lemma dispatch_records_witness :
  exists q c' r', dispatch demo_controller (5 * second) "i1" None demo_broker = (Ok (Some q), c')
    /\ intent_at "i1" (store c') = Some r' /\ it_lease r' = 0 /\ it_attempts r' = 1.
Proof.
  assert (E : exists q c', dispatch demo_controller (5 * second) "i1" None demo_broker = (Ok (Some q), c'))
    by (eexists _, _; vm_compute; reflexivity).
  destruct E as (q & c' & E). pose proof E as H. apply dispatch_records in H as (r & o & r' & Hr & _ & Hr' & _ & _ & _ & _ & Hl & Ha & _).
  exists q, c', r'. injection Hr as <-. split; [exact E|]. split; [exact Hr'|]. split; [exact Hl|exact Ha].
Defined.
