(* ===== verification/Totp.v ===== *)
(** * One-time codes (src/openstack_platform/management/broker/local_security.py)

    RFC 6238 codes over HMAC-SHA-1, with the primitives of Python's standard
    library they use: [hashlib.sha1], [hmac.digest] and [base64.b32decode].
    Bytes are integers below 256; times are instants of [Clock]. *)

From S2P Require Import Prelude Regex Json Clock Validation Sha256.

(** ** Primitives *)

Definition rotl (n x : Z) : Z := rotr (32 - n) x.

Definition sha1_initial : list Z := [0x67452301; 0xEFCDAB89; 0x98BADCFE; 0x10325476; 0xC3D2E1F0].

(** The schedule, newest word first *)
Fixpoint sha1_extend (n : nat) (w : list Z) : list Z :=
  match n with
  | O => w
  | S n' =>
      let at_ i := nth i w 0 in
      sha1_extend n' (rotl 1 (Z.lxor (Z.lxor (at_ 2%nat) (at_ 7%nat)) (Z.lxor (at_ 13%nat) (at_ 15%nat))) :: w)
  end.

Definition sha1_mix (t : nat) (b c d : Z) : Z * Z :=
  if (t <? 20)%nat then (choose b c d, 0x5A827999)
  else if (t <? 40)%nat then (Z.lxor b (Z.lxor c d), 0x6ED9EBA1)
  else if (t <? 60)%nat then (majority b c d, 0x8F1BBCDC)
  else (Z.lxor b (Z.lxor c d), 0xCA62C1D6).

Definition sha1_round (state : list Z) (tw : nat * Z) : list Z :=
  match state with
  | [a; b; c; d; e] =>
      let (f, k) := sha1_mix tw.1 b c d in
      [add32 (add32 (rotl 5 a) f) (add32 e (add32 k tw.2)); a; rotl 30 b; c; d]
  | _ => state
  end.

Definition sha1_compress (state : list Z) (block : list Z) : list Z :=
  let schedule := rev (sha1_extend 64 (rev block)) in
  zip_with add32 state (fold_left sha1_round (zip (seq 0 80) schedule) state).

Definition word_bytes (words : list Z) : list Z := concat (map (fun w => be_bytes 4 w []) words).

Definition sha1 (bytes : list Z) : list Z :=
  let words := words_of (padded bytes) in
  word_bytes (fold_left sha1_compress (blocks (length words / 16) words) sha1_initial).

Definition sha256 (bytes : list Z) : list Z := word_bytes (sha256_words bytes).

(** [hmac.digest(key, message, hash)], with blocks of 64 bytes *)
Definition hmac (hash : list Z -> list Z) (key message : list Z) : list Z :=
  let key := if (64 <? length key)%nat then hash key else key in
  let block := key ++ repeat 0 (64 - length key) in
  hash (map (Z.lxor 0x5C) block ++ hash (map (Z.lxor 0x36) block ++ message)).

Definition bytes_of (s : string) : list Z := map code (list_ascii_of_string s).

Definition base32_digit (a : ascii) : option Z :=
  if upper a then Some (code a - 65) else if rng "2" "7" a then Some (code a - 24) else None.

Fixpoint base32_value (acc : Z) (l : list ascii) : option Z :=
  match l with
  | [] => Some acc
  | a :: l' => match base32_digit a with Some d => base32_value (acc * 32 + d) l' | None => None end
  end.

(** Groups of eight digits; the last may be shorter by the padding. *)
Fixpoint base32_groups (n : nat) (l : list ascii) (padding : nat) : option (list Z) :=
  match n, l with
  | O, _ | _, [] => Some []
  | S n', _ =>
      match base32_value 0 (take 8 l) with
      | None => None
      | Some v =>
          if (length l <? 8)%nat then
            Some (take ((43 - 5 * padding) / 8) (be_bytes 5 (v * 32 ^ Z.of_nat padding) []))
          else match base32_groups n' (drop 8 l) padding with
               | Some rest => Some (be_bytes 5 v [] ++ rest)
               | None => None
               end
      end
  end.

Fixpoint drop_padding (l : list ascii) : list ascii :=
  match l with a :: l' => if is_char "=" a then drop_padding l' else l | [] => [] end.

(** [base64.b32decode(secret, casefold=False)]; [binascii.Error] is a [ValueError]. *)
Definition b32decode (secret : string) : result (list Z) :=
  let l := list_ascii_of_string secret in
  let digits := rev (drop_padding (rev l)) in
  let padding := (length l - length digits)%nat in
  if negb (Nat.eqb (length l mod 8) 0) || negb (existsb (Nat.eqb padding) [0; 1; 3; 4; 6]%nat)
     || existsb (fun a => 127 <? code a) l then Raise ValueError
  else match base32_groups (length l) digits padding with
       | Some bytes => Ok bytes
       | None => Raise ValueError
       end.

(** ** Codes *)

Definition totp_code (secret : string) (counter : Z) : result string :=
  key ← b32decode secret;
  if negb ((0 <=? counter) && (counter <? 2 ^ 64)) then Raise ValueError
  else
    let digest := hmac sha1 key (be_bytes 8 counter []) in
    let offset := Z.to_nat (Z.land (List.last digest 0) 15) in
    let number := match words_of (take 4 (drop offset digest)) with w :: _ => w | [] => 0 end in
    Ok (digits 6 (Z.land number 0x7FFFFFFF mod 1000000)).

Definition _CODE : re := Times 6 (Cls digit).

(** One candidate counter of the loop in [verify_totp] *)
Definition try_counter (secret code : string) (last_counter : Z) (matched : option Z) (candidate : Z)
    : result (option Z) :=
  if 0 <=? candidate then
    expected ← totp_code secret candidate;
    Ok (if String.eqb expected code && (last_counter <? candidate) then Some candidate else matched)
  else Ok matched.

Definition verify_totp (secret : string) (supplied : json) (now last_counter : Z) : option Z :=
  match supplied with
  | JStr code =>
      if fullmatch _CODE code then
        let counter := now / (30 * second) in
        match m ← try_counter secret code last_counter None (counter - 1);
              m ← try_counter secret code last_counter m counter;
              try_counter secret code last_counter m (counter + 1) with
        | Ok matched => matched
        | Raise _ => None
        end
      else None
  | _ => None
  end.

(** The test vectors of FIPS 180-4, RFC 2202 and RFC 6238 (the last six digits). *)
Definition rfc_secret : string := "GEZDGNBVGY3TQOJQGEZDGNBVGY3TQOJQ".

Example sha1_abc : concat_all (map hex_byte (sha1 (bytes_of "abc"))) = "a9993e364706816aba3e25717850c26c9cd0d89d".
Proof. vm_compute. reflexivity. Qed.

Example hmac_jefe : concat_all (map hex_byte (hmac sha1 (bytes_of "Jefe") (bytes_of "what do ya want for nothing?")))
  = "effcdf6ae5eb2fa2d27416d5f184df9c259a7c79".
Proof. vm_compute. reflexivity. Qed.

Example totp_59 : totp_code rfc_secret 1 = Ok "287082"%string.
Proof. vm_compute. reflexivity. Qed.

Example totp_1111111109 : totp_code rfc_secret 37037036 = Ok "081804"%string.
Proof. vm_compute. reflexivity. Qed.

(** ** What a verified code shows *)

Lemma try_counter_ok secret code last m candidate m' : try_counter secret code last m candidate = Ok m' ->
  m' = m \/ m' = Some candidate /\ 0 <= candidate /\ last < candidate /\ totp_code secret candidate = Ok code.
Proof.
  unfold try_counter. destruct (Z.leb_spec 0 candidate); [|intros [= <-]; by left].
  intros (expected & He & [= <-])%rbind_ok. destruct (String.eqb_spec expected code) as [->|]; [|by left].
  destruct (Z.ltb_spec last candidate); [right|by left]. done.
Qed.

(** A code is accepted only for a counter after the last one, at most one step
    from the present, whose code it is. *)
Lemma verify_totp_ok secret supplied now last c : verify_totp secret supplied now last = Some c ->
  last < c /\ 0 <= c /\ Z.abs (c - now / (30 * second)) <= 1
  /\ exists code, supplied = JStr code /\ totp_code secret c = Ok code.
Proof.
  unfold verify_totp. destruct supplied as [| | |code| |]; try done. destruct (fullmatch _CODE code); [|done].
  intros H. set (k := now / (30 * second)) in *.
  match type of H with match ?r with _ => _ end = _ => destruct r as [m|] eqn:E; [subst m|done] end.
  apply rbind_ok in E as (m1 & E1 & E). apply rbind_ok in E as (m2 & E2 & E3).
  apply try_counter_ok in E1 as [->|(-> & H1)], E2 as [->|(-> & H2)], E3 as [E3|(E3 & H3)]; try done;
    injection E3 as ->; split_and!; try tauto; try lia; exists code; tauto.
Qed.
