(* ===== verification/NomadJobs.v ===== *)
(** * Nomad jobs (src/openstack_platform/controller/nomad_jobs.py)

    The job a deployment submits, and what the controller reads back from a
    saved one: its identifier, placement, route and exact identity.  A job is
    rendered as a list of lines; in literal text ['] stands for a double quote
    ([double_quotes]), interpolated values are never touched. *)

From S2P Require Import Prelude Regex Json Clock Validation Sha256 Totp Sql Schema StorageContract DeploymentConfig.

(** ** The contract (infra/lib/platform_contract.json, read by contracts.py) *)

Definition APPLICATION_HOST_PORT : Z := 8080.
Definition REGISTRY_PORT : Z := 5000.
Definition DEPLOYMENT_ROUTE_HEADER : string := "X-Platform-Deployment".
Definition DEPLOYMENT_ROUTE_HEADER_LOWER : string := "x-platform-deployment".
Definition NOMAD_CANDIDATE_JOB_SHA_KEY : string := "platform_candidate_job_sha256".
Definition NOMAD_CANDIDATE_IMAGE_KEY : string := "platform_candidate_image".
Definition NOMAD_ROUTE_MARKER_KEY : string := "platform_route_marker".
Definition NOMAD_SOURCE_COMMIT_KEY : string := "platform_source_commit".
Definition NOMAD_RECIPE_SHA_KEY : string := "platform_recipe_sha256".

Definition HEALTHY_DEADLINE_SECONDS : Z := 600.
Definition PROGRESS_DEADLINE_SECONDS : Z := 720.

(** The settings of [PlatformConfig] a job depends on *)
Record PlatformConfig := {
  pc_namespace : string;
  pc_prefix : string;
  pc_project_id : string;
  pc_network : string;           (* the workers' network *)
  pc_domain : string;
  pc_datacenter : string;
  pc_region : string;
  pc_storage_name : string;      (* internalNames.storage *)
  pc_storage_address : string;   (* addresses.storage *)
}.

(** ** Text *)

Definition newline : string := String "010" "".
Definition q : string -> string := double_quotes.
Definition unlines (l : list string) : string := concat_all (map (fun s => s +:+ newline) l).

(** [s.replace(old, new, 1)] *)
Fixpoint replace_first (old new s : string) : string :=
  if String.prefix old s then new +:+ String.substring (String.length old) (String.length s) s
  else match s with EmptyString => "" | String a s' => String a (replace_first old new s') end.

(** [pattern.finditer(s)] for a pattern that never matches the empty text: the
    text before each match, its groups, and the text after it *)
Record Match := { mt_before : string; mt_groups : caps; mt_text : string; mt_after : string }.

Fixpoint find_from (r : re) (fuel : nat) (before : string) (p : pos) : list Match :=
  match fuel with
  | O => []
  | S fuel' =>
      match match_at r p with
      | Some (c, p') =>
          let text := consumed p p' in
          {| mt_before := before; mt_groups := c; mt_text := text; mt_after := p'.2 |}
            :: find_from r fuel' (before +:+ text) p'
      | None => match p.2 with
                | EmptyString => []
                | String a s' => find_from r fuel' (before +:+ String a "") (Some a, s')
                end
      end
  end.

Definition finditer (r : re) (s : string) : list Match := find_from r (S (String.length s)) "" (None, s).

(** [re.findall] with one group *)
Definition findall (r : re) (s : string) : list string :=
  map (fun m => default "" (group 1 (mt_groups m))) (finditer r s).

(** [re.sub("^" r, "", s, flags=MULTILINE)] *)
Fixpoint delete_at_lines (r : re) (fuel : nat) (p : pos) : string :=
  match fuel with
  | O => p.2
  | S fuel' =>
      let here := match p.1 with Some a => code a =? 10 | None => true end in
      match (if here then match_at r p else None) with
      | Some (_, p') => delete_at_lines r fuel' p'
      | None => match p.2 with
                | EmptyString => ""
                | String a s' => String a (delete_at_lines r fuel' (Some a, s'))
                end
      end
  end.

(** [not value] *)
Definition falsy (v : json) : bool :=
  match v with
  | JNull | JBool false | JArr [] | JObj [] => true
  | JInt z => z =? 0
  | JStr s => String.eqb s ""
  | _ => false
  end.

(** ** Rendering *)

Record JobInput := {
  ji_application_id : string;
  ji_application_slug : string;
  ji_image : json;
  ji_manifest : Manifest;
  ji_cpu_mhz : json;
  ji_memory_mib : json;
  ji_source_commit : string;
  ji_recipe_hash : json;
  ji_candidate : bool;
  ji_placement_id : json;
  ji_staged : bool;
  ji_promoted : bool;
  ji_route_marker : json;
  ji_route_priority : json;
  ji_force_pull : bool;
}.

Definition bool_text (b : bool) : string := if b then "true" else "false".

Definition at_least (minimum : Z) (message : string) (v : json) : result Z :=
  match v with
  | JInt z => if minimum <=? z then Ok z else Raise (ValidationError message)
  | _ => Raise (ValidationError message)
  end.

Definition priority_of (v : json) : result Z :=
  match v with
  | JInt z => if (100 <=? z) && (z <=? 1000000000) then Ok z
              else Raise (ValidationError "route priority must be from 100 through 1000000000")
  | JBool _ => Raise (ValidationError "route priority must be from 100 through 1000000000")
  | _ => Raise TypeError
  end.

Definition route_lines (job_id : string) (router : string * string * Z) : list string :=
  let '(name, host, priority) := router in
  let tag (rest : string) := q "        'traefik.http.routers." +:+ name +:+ rest +:+ q "'," in
  [tag ".entrypoints=web"; tag (".rule=Host(`" +:+ host +:+ "`)"); tag (".priority=" +:+ decimal_text priority);
   tag (".service=" +:+ job_id); tag (".middlewares=" +:+ job_id +:+ "-headers")].

(** The outputs of a binding that are, or are not, platform facts *)
Definition outputs_of (derived : bool) (b : StorageBinding) : result (list (string * string)) :=
  match mb_environment b with
  | [] => Ok []
  | env =>
      names ← known (DERIVED_OUTPUTS (mb_resource_type b));
      Ok (List.filter (fun ot => Bool.eqb (one_of_words names ot.1) derived) env)
  end.

Definition alias_lines (b : StorageBinding) : result (list string) :=
  outputs ← outputs_of false b;
  lines ← each (fun ot =>
    key ← canonical_secret_key (mb_resource_type b) (mb_name b) ot.1;
    Ok [q "{{ $value := index . '" +:+ key +:+ q "' }}"; ot.2 +:+ "={{ $value | toJSON }}"]) outputs;
  Ok (concat lines).

Definition derived_values (domain : string) (b : StorageBinding) : result (list (string * string)) :=
  outputs ← outputs_of true b;
  each (fun ot => v ← derived_output (mb_resource_type b) ot.1 domain; Ok (ot.2, v)) outputs.

Definition binding_keys (b : StorageBinding) : result (list string) :=
  stored ← canonical_secret_keys (mb_resource_type b) (mb_name b);
  retired ← retired_secret_keys (mb_resource_type b) (mb_name b);
  Ok (stored ++ retired).

(** [sorted(set)] of keys *)
Definition sorted_keys (l : list string) : list string := sort_by str_leb (nodup string_dec l).

(** The checked parts of a job *)
Record JobParts := {
  jp_id : string;
  jp_slug : string;
  jp_placement : string;
  jp_marker : string;
  jp_image : string;
  jp_cpu : Z;
  jp_memory : Z;
  jp_port : Z;
  jp_health_path : string;
  jp_force_pull : bool;
  jp_routes : list string;
  jp_comparisons : string;
  jp_aliases : list string;
  jp_environment : list string;
}.

(** The job after its opening line *)
Definition job_body (platform : PlatformConfig) (p : JobParts) : list string :=
  let id := jp_id p in
  [q "  region      = '" +:+ pc_region platform +:+ q "'";
   q "  datacenters = ['" +:+ pc_datacenter platform +:+ q "']";
   q "  type        = 'service'";
   "";
   "  constraint {";
   q "    attribute = '${meta.application_id}'";
   q "    operator  = '='";
   q "    value     = '" +:+ jp_placement p +:+ q "'";
   "  }";
   "";
   "  update {";
   "    max_parallel      = 1";
   q "    min_healthy_time  = '10s'";
   q "    healthy_deadline  = '" +:+ decimal_text (HEALTHY_DEADLINE_SECONDS / 60) +:+ q "m'";
   q "    progress_deadline = '" +:+ decimal_text (PROGRESS_DEADLINE_SECONDS / 60) +:+ q "m'";
   "    auto_revert       = false";
   "    canary            = 0";
   "  }";
   "";
   q "  group 'app' {";
   "    count          = 1";
   q "    shutdown_delay = '5s'";
   "    network {";
   q "      mode = 'bridge'";
   q "      port 'http' {";
   "        static = " +:+ decimal_text APPLICATION_HOST_PORT;
   "        to     = " +:+ decimal_text (jp_port p);
   "      }";
   "    }";
   "";
   "    restart {";
   "      attempts = 3";
   q "      interval = '5m'";
   q "      delay    = '10s'";
   q "      mode     = 'fail'";
   "    }";
   "";
   "    service {";
   q "      provider     = 'nomad'";
   q "      name         = 'app-" +:+ id +:+ q "'";
   q "      port         = 'http'";
   q "      address_mode = 'host'";
   "      tags = [";
   q "        '" +:+ pc_namespace platform +:+ q ".platform=true',";
   q "        'traefik.enable=true',"]
  ++ jp_routes p ++
  [q "        'traefik.http.services." +:+ id +:+ ".loadbalancer.server.port="
     +:+ decimal_text APPLICATION_HOST_PORT +:+ q "',";
   q "        'traefik.http.middlewares." +:+ id +:+ q "-headers.headers.contenttypenosniff=true',";
   q "        'traefik.http.middlewares." +:+ id +:+ q "-headers.headers.referrerpolicy=no-referrer',";
   q "        'traefik.http.middlewares." +:+ id +:+ "-headers.headers.customresponseheaders."
     +:+ DEPLOYMENT_ROUTE_HEADER +:+ "=" +:+ jp_marker p +:+ q "',";
   "      ]";
   "      check {";
   q "        name     = 'http-ready'";
   q "        type     = 'http'";
   q "        path     = '" +:+ jp_health_path p +:+ q "'";
   q "        interval = '10s'";
   q "        timeout  = '3s'";
   "      }";
   "    }";
   "";
   q "    volume 'internal-ca' {";
   q "      type      = 'host'";
   q "      source    = '" +:+ pc_namespace platform +:+ q "-internal-ca'";
   "      read_only = true";
   "    }";
   "";
   q "    task 'app' {";
   q "      driver = 'docker'";
   "      config {";
   q "        image           = '" +:+ jp_image p +:+ q "'";
   "        extra_hosts     = [" +:+ dumps (pc_storage_name platform +:+ ":" +:+ pc_storage_address platform) +:+ "]";
   q "        ports           = ['http']";
   "        force_pull      = " +:+ bool_text (jp_force_pull p);
   "        readonly_rootfs = true";
   q "        security_opt    = ['no-new-privileges:true']";
   q "        cap_drop        = ['all']";
   q "        cap_add         = ['net_bind_service']";
   "        pids_limit      = 256";
   "      }";
   "      volume_mount {";
   q "        volume      = 'internal-ca'";
   q "        destination = '/platform-ca'";
   "        read_only   = true";
   "      }";
   "      env {";
   q "        HOST = '0.0.0.0'"]
  ++ jp_environment p ++
  ["      }";
   "      template {";
   q "        destination = 'secrets/app.env'";
   "        env         = true";
   q "        perms       = '0600'";
   q "        change_mode = 'restart'";
   "        data = <<EOH";
   q "{{ with nomadVar 'nomad/jobs/" +:+ id +:+ q "' }}";
   "{{ range $key, $value := . }}{{ if and " +:+ jp_comparisons p +:+ " }}{{ $key }}={{ $value | toJSON }}";
   "{{ end }}";
   "{{ end }}"]
  ++ (match jp_aliases p with [] => [""] | l => l end) ++
  ["{{ end }}";
   "EOH";
   "      }";
   "      resources {";
   "        cpu    = " +:+ decimal_text (jp_cpu p);
   "        memory = " +:+ decimal_text (jp_memory p);
   "      }";
   "      logs {";
   "        max_files     = 3";
   "        max_file_size = 10";
   "      }";
   q "      kill_timeout = '30s'";
   "    }";
   "  }";
   "}"].

Definition job_opening (job_id : string) : string := q "job '" +:+ job_id +:+ q "' {" +:+ newline.

Definition unmarked_job (platform : PlatformConfig) (p : JobParts) : string :=
  job_opening (jp_id p) +:+ unlines (job_body platform p).

Definition marker_block (identity image marker source recipe : string) : string :=
  let entry (k v : string) := "    " +:+ k +:+ q " = '" +:+ v +:+ q "'" in
  unlines ["  meta {"; entry NOMAD_CANDIDATE_JOB_SHA_KEY identity; entry NOMAD_CANDIDATE_IMAGE_KEY image;
    entry NOMAD_ROUTE_MARKER_KEY marker; entry NOMAD_SOURCE_COMMIT_KEY source;
    entry NOMAD_RECIPE_SHA_KEY recipe; "  }"; ""].

(** The checks of [render_nomad_job], in its order *)
Definition job_parts (platform : PlatformConfig) (i : JobInput) : result (JobParts * string * string) :=
  identifier ← uuid (ji_application_id i);
  placement ← uuid (if falsy (ji_placement_id i) then JStr identifier else ji_placement_id i);
  marker_id ← uuid (if falsy (ji_route_marker i) then JStr identifier else ji_route_marker i);
  app_slug ← slug (ji_application_slug i);
  _ ← guard_else (negb (ji_promoted i && negb (ji_staged i)))
        (ValidationError "only a staged job can be route-promoted");
  priority ← priority_of (ji_route_priority i);
  let job_id := if ji_candidate i then app_slug +:+ "-candidate" else app_slug in
  image_pin ← oci_digest_pin (ji_image i);
  cpu ← at_least 100 "scheduler CPU must be an integer of at least 100 MHz" (ji_cpu_mhz i);
  memory ← at_least 64 "scheduler memory must be an integer of at least 64 MiB" (ji_memory_mib i);
  checked_source ← commit (ji_source_commit i);
  checked_recipe ← sha256_hex (ji_recipe_hash i);
  let manifest := ji_manifest i in
  let hostname := app_slug +:+ "." +:+ pc_domain platform in
  let routers :=
    (if ji_staged i then [(job_id +:+ "-preview", app_slug +:+ "-preview." +:+ pc_domain platform, priority)]
     else [(job_id, hostname, 100)])
    ++ (if ji_promoted i then [(job_id +:+ "-promoted", hostname, priority)] else []) in
  aliases ← each alias_lines (mf_storage_bindings manifest);
  derived ← each (derived_values (pc_domain platform)) (mf_storage_bindings manifest);
  keys ← each binding_keys (mf_storage_bindings manifest);
  platform_values ← platform_environment_values identifier app_slug (JInt (mf_port manifest));
  let environment := dict_merge (dict_merge (dict_merge [] (concat derived)) platform_values) JOB_ENVIRONMENT in
  Ok ({| jp_id := job_id; jp_slug := app_slug; jp_placement := placement; jp_marker := marker_id; jp_image := image_pin;
         jp_cpu := cpu; jp_memory := memory; jp_port := mf_port manifest; jp_health_path := mf_health_path manifest;
         jp_force_pull := ji_force_pull i;
         jp_routes := concat (map (route_lines job_id) routers);
         jp_comparisons := join " " (map (fun k => q "(ne $key '" +:+ k +:+ q "')")
                                       (sorted_keys (RESERVED_ENVIRONMENT_KEYS ++ concat keys)));
         jp_aliases := concat aliases;
         jp_environment := map (fun kv => "        " +:+ kv.1 +:+ " = " +:+ dumps (JStr kv.2)) (sort_items environment)
      |}, checked_source, checked_recipe).

Definition render_nomad_job (platform : PlatformConfig) (i : JobInput) : result string :=
  parts ← job_parts platform i;
  let '(p, source, recipe) := parts in
  let job := unmarked_job platform p in
  let marker := marker_block (sha256_hexdigest job) (jp_image p) (jp_marker p) source recipe in
  Ok (replace_first (job_opening (jp_id p)) (job_opening (jp_id p) +:+ marker) job).

(** ** Reading a saved job *)

Definition space : re := Star (Cls whitespace).
Definition quotes : re := Cls (fun a => code a =? 34).
Definition line_end : re := Cls (fun a => code a =? 10).
Definition no_quote_or_newline (a : ascii) : bool := negb (code a =? 34) && negb (code a =? 10).
Definition uuid_char : ascii -> bool := either hexdigit (is_char "-").

(** [    key\s*=\s*"value"\n] *)
Definition setting (key : string) (value : re) : re :=
  cats [lit "    "; lit key; space; lit "="; space; quotes; value; quotes; line_end].

Definition _JOB_MARKER_BLOCK : re := cats [
  lit "  meta {"; line_end;
  setting NOMAD_CANDIDATE_JOB_SHA_KEY (Grp 1 (Times 64 (Cls hexdigit)));
  setting NOMAD_CANDIDATE_IMAGE_KEY
    (Grp 2 (cats [Plus (Cls no_quote_or_newline); lit "@sha256:"; Times 64 (Cls hexdigit)]));
  Opt (setting NOMAD_ROUTE_MARKER_KEY (Times 36 (Cls uuid_char)));
  setting NOMAD_SOURCE_COMMIT_KEY (Times 40 (Cls hexdigit));
  setting NOMAD_RECIPE_SHA_KEY (Times 64 (Cls hexdigit));
  lit "  }"; line_end; line_end].

Definition JOB_LIMIT : Z := 262144.

Definition opening_re : re := cats [lit "job "; quotes; Grp 1 (Plus (Cls no_quote_or_newline)); quotes; lit " {"; line_end].

Definition nomad_job_id (nomad_job application_slug : string) : result string :=
  job ← bounded_text JOB_LIMIT nomad_job;
  app_slug ← slug application_slug;
  match match_at opening_re (None, job) with
  | Some (c, _) =>
      let id := default "" (group 1 c) in
      if String.eqb id app_slug || String.eqb id (app_slug +:+ "-candidate") then Ok id
      else Raise (ValidationError "Nomad job ID is not the stable or candidate application job")
  | None => Raise (ValidationError "Nomad job ID is not the stable or candidate application job")
  end.

(** [str(uuid.uuid5(namespace, name))] *)
Definition uuid5 (namespace : Z) (name : string) : string :=
  let digest := take 16 (sha1 (be_bytes 16 namespace [] ++ bytes_of name)) in
  let z := fold_left (fun acc b => acc * 256 + b) digest 0 in
  let versioned := Z.lor (Z.land z (Z.lnot (Z.shiftl 0xF000 64))) (Z.shiftl 5 76) in
  uuid_str (Z.lor (Z.land versioned (Z.lnot (Z.shiftl 0xC000 48))) (Z.shiftl 0x8000 48)).

Definition deployment_worker_ids (application_id : string) : result (string * string) :=
  identifier ← uuid application_id;
  match uuid_int identifier with
  | Some namespace => Ok (uuid5 namespace "stable", uuid5 namespace "candidate")
  | None => Raise ValueError
  end.

Definition placement_re : re := cats [
  lit (q "    attribute = '${meta.application_id}'"); line_end; lit (q "    operator  = '='"); line_end;
  lit (q "    value     = '"); Grp 1 (Times 36 (Cls uuid_char)); quotes].

Definition nomad_placement_id (nomad_job : string) : result string :=
  job ← bounded_text JOB_LIMIT nomad_job;
  match findall placement_re job with
  | [m] => uuid m
  | _ => Raise (ValidationError "Nomad job placement identity was missing or ambiguous")
  end.

Definition decimal (s : string) : Z :=
  fold_left (fun acc a => acc * 10 + (code a - 48)) (list_ascii_of_string s) 0.

Definition priority_re : re := cats [lit ".priority="; Grp 1 (Plus (Cls digit)); quotes; lit ","].

Definition nomad_route_priority (nomad_job : string) : result Z :=
  job ← bounded_text JOB_LIMIT nomad_job;
  let texts := findall priority_re job in
  if existsb (fun t => (4300 <? String.length t)%nat) texts then Raise ValueError
  else Ok (fold_left Z.max (map decimal texts) 0).

Definition marker_re : re := cats [
  lit "    "; lit NOMAD_ROUTE_MARKER_KEY; lit " = "; quotes; Grp 1 (Times 36 (Cls uuid_char)); quotes; line_end].

Definition nomad_route_marker (nomad_job : string) : result string :=
  job ← bounded_text JOB_LIMIT nomad_job;
  match findall marker_re job with
  | [m] => uuid m
  | _ => Raise (ValidationError "Nomad route marker was missing or ambiguous")
  end.

Definition nomad_candidate_identity (nomad_job : string) : result (string * string) :=
  job ← bounded_text JOB_LIMIT nomad_job;
  match finditer _JOB_MARKER_BLOCK job with
  | [m] =>
      let identity := default "" (group 1 (mt_groups m)) in
      let image := default "" (group 2 (mt_groups m)) in
      if negb (String.eqb (sha256_hexdigest (mt_before m +:+ mt_after m)) identity) then
        Raise (ValidationError "Nomad job candidate identity does not match the exact job")
      else pin ← oci_digest_pin image; Ok (identity, pin)
  | _ => Raise (ValidationError "Nomad job must contain exactly one platform candidate marker")
  end.

Definition dot_line : re := Star (Cls (fun a => negb (code a =? 10))).
Definition hosts_re : re := cats [lit "        extra_hosts"; space; lit "="; dot_line; line_end].
Definition image_re : re := Grp 1 (cats [lit (q "        image           = '"); Plus (Cls no_quote_or_newline); quotes; line_end]).

Definition storage_hosts_job (job : string) (platform : PlatformConfig) : result string :=
  _ ← nomad_candidate_identity job;
  let hosts := "        extra_hosts     = [" +:+ dumps (pc_storage_name platform +:+ ":" +:+ pc_storage_address platform) +:+ "]" in
  if contains hosts job then Ok job
  else match finditer _JOB_MARKER_BLOCK job with
       | [] => Raise AssertionError
       | m :: _ =>
           let raw := mt_before m +:+ mt_after m in
           let raw := delete_at_lines hosts_re (S (String.length raw)) (None, raw) in
           let count := length (finditer image_re raw) in
           let raw := sub image_re (fun c => default "" (group 1 c) +:+ hosts +:+ newline) raw in
           if negb (Nat.eqb count 1) then
             Raise (ValidationError "saved application Docker configuration is ambiguous")
           else
             let metadata := replace_first (default "" (group 1 (mt_groups m))) (sha256_hexdigest raw) (mt_text m) in
             let start := String.length (mt_before m) in
             Ok (String.substring 0 start raw +:+ metadata +:+ String.substring start (String.length raw - start) raw)
       end.

#[global] Arguments nomad_candidate_identity : simpl never.
#[global] Arguments nomad_job_id : simpl never.

(** ** A rendered job *)

Definition demo_platform : PlatformConfig := {|
  pc_namespace := "course"; pc_prefix := "course"; pc_project_id := "11111111-1111-4111-8111-111111111111";
  pc_network := "workers"; pc_domain := "apps.example.org"; pc_datacenter := "dc1"; pc_region := "global";
  pc_storage_name := "storage.internal"; pc_storage_address := "10.0.0.5" |}.
Definition demo_application : string := "6d9b6e9c-3f39-4c4e-9d0a-0f6a4a1f0b11".
Definition demo_manifest : Manifest := {|
  mf_runtime := "node"; mf_packages := ["."]; mf_build_script := None; mf_start_script := "start";
  mf_port := 3000; mf_health_path := "/health";
  mf_storage_bindings := [{| mb_name := "main"; mb_resource_type := "s3";
    mb_environment := [("bucket", "S3_BUCKET"); ("public_endpoint", "S3_PUBLIC")] |}] |}.
Definition sixty_four (s : string) : string := concat_all (repeat s 64).
Definition demo_image : string := "10.0.0.5:5000/projects/notes/app@sha256:" +:+ sixty_four "a".
Definition demo_job (staged : bool) : JobInput := {|
  ji_application_id := demo_application; ji_application_slug := "notes"; ji_image := demo_image;
  ji_manifest := demo_manifest; ji_cpu_mhz := JInt 500; ji_memory_mib := JInt 512;
  ji_source_commit := concat_all (repeat "b" 40); ji_recipe_hash := sixty_four "c"; ji_candidate := staged;
  ji_placement_id := JNull; ji_staged := staged; ji_promoted := false; ji_route_marker := JNull;
  ji_route_priority := JInt 200; ji_force_pull := true |}.
