(* ===== verification/Service.v ===== *)
(** * Services: calls to the helper between database calls
    (src/openstack_platform/controller/service_support.py, the helper calls of
    application_runtime.py and deployment_service.py)

    A service works through a deployment or a change of storage in a thread of
    its own.  Its state ([World]) is the controller's database, what it has asked
    of the outside, and what the environment will answer: the helper (a program
    on the host), the public route, the monotonic clock, and the other threads,
    which may write to the database before each of its steps ([w_others]).
    Answers may depend on everything asked before.  Times are microseconds. *)

From S2P Require Import Prelude Regex Json Clock Validation Runtime Sql Schema StorageCapacity Operations.

(** What a service asks of the outside, in order *)
Inductive Request :=
  | Helper (action : string) (args : dict) (timeout : Z)
  | Command (arguments : list string) (timeout : Z)
  | Get (url : string) (timeout : Z)
  | Sleep (time : Z)
  | Acquire (scope : string)
  | Free (scope : string).

(** The status and headers of a bounded GET *)
Record Response := { rs_status : Z; rs_headers : list (string * string) }.

(** A finished command of the OpenStack client: [stdout], and whether the output
    exceeded its limits *)
Record CommandResult := { cr_stdout : string; cr_stdout_truncated : bool; cr_stderr_truncated : bool }.

Record World := {
  w_db : conn Db;
  w_others : nat -> Db -> Db;
  w_steps : nat;
  w_monotonic : nat -> Z;
  w_readings : nat;
  w_helper : list Request -> result dict;
  w_command : list Request -> result CommandResult;
  w_http : list Request -> result Response;
  w_lock : list Request -> bool;
  w_requests : list Request;      (* newest first *)
}.

Abbreviation Svc := (M World).

Definition with_db (c : conn Db) (w : World) : World := {|
  w_db := c; w_others := w_others w; w_steps := w_steps w; w_monotonic := w_monotonic w;
  w_readings := w_readings w; w_helper := w_helper w; w_command := w_command w; w_http := w_http w; w_lock := w_lock w;
  w_requests := w_requests w |}.

(** The other threads' turn *)
Definition interfere (w : World) : World := {|
  w_db := with_store (w_others w (w_steps w) (store (w_db w))) (w_db w);
  w_others := w_others w; w_steps := S (w_steps w); w_monotonic := w_monotonic w;
  w_readings := w_readings w; w_helper := w_helper w; w_command := w_command w; w_http := w_http w; w_lock := w_lock w;
  w_requests := w_requests w |}.

Definition asked (r : Request) (w : World) : World := {|
  w_db := w_db w; w_others := w_others w; w_steps := w_steps w; w_monotonic := w_monotonic w;
  w_readings := w_readings w; w_helper := w_helper w; w_command := w_command w; w_http := w_http w; w_lock := w_lock w;
  w_requests := r :: w_requests w |}.

(** A database call: one transaction, after the other threads' turn *)
Definition db {A} (m : DB A) : Svc A := fun w =>
  let w := interfere w in
  let (r, c) := m (w_db w) in (r, with_db c w).

(** [time.monotonic()] *)
Definition monotonic : Svc Z := fun w =>
  (Ok (w_monotonic w (w_readings w)),
   {| w_db := w_db w; w_others := w_others w; w_steps := w_steps w; w_monotonic := w_monotonic w;
      w_readings := S (w_readings w); w_helper := w_helper w; w_command := w_command w; w_http := w_http w; w_lock := w_lock w;
      w_requests := w_requests w |}).

Definition call_helper (action : string) (args : dict) (timeout : Z) : Svc dict := fun w =>
  let w := asked (Helper action args timeout) w in (w_helper w (w_requests w), w).

(** [command_runner]: the OpenStack client, or the provider's socket for reads *)
Definition command_runner (arguments : list string) (timeout : Z) : Svc CommandResult := fun w =>
  let w := asked (Command arguments timeout) w in (w_command w (w_requests w), w).

Definition bounded_http (url : string) (timeout : Z) : Svc Response := fun w =>
  let w := asked (Get url timeout) w in (w_http w (w_requests w), w).

Definition sleep (time : Z) : Svc unit := fun w => (Ok tt, asked (Sleep time) w).

(** [with runtime.lock(...): body] *)
Definition lock {A} (scope : string) (body : Svc A) : Svc A := fun w =>
  let w := asked (Acquire scope) w in
  if w_lock w (w_requests w) then
    let (r, w') := body w in (r, asked (Free scope) w')
  else (Raise LockBusy, w).

(** [try: m finally: ...] is [lock]; [try: m except Exception: h] is [catch]. *)

(** ** service_support.py *)

Definition operation_deadline (process_seconds : Z) : Svc Z := now ← monotonic; mret (now + process_seconds).

Definition remaining_seconds (deadline maximum : Z) : Svc Z :=
  now ← monotonic;
  let remaining := deadline - now in
  if remaining <=? 0 then raise ServiceDeadlineError else mret (Z.min maximum remaining).

(** [(datetime.now(UTC) + timedelta(seconds=remaining)).isoformat(timespec="microseconds")] *)
Definition timestamp_after (remaining : Z) : DB string :=
  now ← datetime_now;
  let t := now + remaining in
  if datetime_max <=? t then raise OverflowError else mret (utc_text_micro t).

Definition wall_deadline (deadline : Z) : Svc string :=
  now ← monotonic;
  let remaining := deadline - now in
  if remaining <=? 0 then raise ServiceDeadlineError else db (timestamp_after remaining).

Definition reject_deleting (a : Application) : Svc unit :=
  operation ← db (get_unfinished_operation ("app-" +:+ app_application_id a));
  match operation with
  | Some o => if String.eqb (op_kind o) "app.delete"
              then raise (UnfinishedOperationError (op_scope o) (op_operation_id o) (op_kind o)) else mret tt
  | None => mret tt
  end.

(** ** What a service changes

    [preserves R m]: however [m] ends, [R] holds between the states before and
    after it. *)

Definition preserves {S A} (R : S -> S -> Prop) (m : M S A) : Prop := forall w, R w (m w).2.

Create HintDb service discriminated.

Section Preserves.
Context {S : Type} (R : S -> S -> Prop) `{!PreOrder R}.

Lemma preserves_ret {A} (a : A) : preserves R (mret a).
Proof. intros w. reflexivity. Qed.

Lemma preserves_raise {A} e : preserves R (raise e : M S A).
Proof. intros w. reflexivity. Qed.

Lemma preserves_lift {A} (r : result A) : preserves R (lift r : M S A).
Proof. intros w. reflexivity. Qed.

Lemma preserves_require b e : preserves R (require b e : M S unit).
Proof. intros w. reflexivity. Qed.

Lemma preserves_bind {A B} (m : M S A) (f : A -> M S B) :
  preserves R m -> (forall a, preserves R (f a)) -> preserves R (m ≫= f).
Proof.
  intros Hm Hf w. unfold mbind, M_bind. specialize (Hm w). destruct (m w) as [[a|e] w1]; simpl in *; [|done].
  etransitivity; [exact Hm|apply Hf].
Qed.

Lemma preserves_catch {A} (m : M S A) (h : error -> M S A) :
  preserves R m -> (forall e, preserves R (h e)) -> preserves R (catch m h).
Proof.
  intros Hm Hh w. unfold catch. specialize (Hm w). destruct (m w) as [[a|e] w1]; simpl in *; [done|].
  etransitivity; [exact Hm|apply Hh].
Qed.

Lemma preserves_for_each {A} (l : list A) (f : A -> M S unit) :
  (forall a, preserves R (f a)) -> preserves R (for_each l f).
Proof.
  intros Hf. induction l as [|x l IH]; simpl; [apply preserves_ret|]. by apply preserves_bind.
Qed.
End Preserves.

Lemma preserves_lock {A} (R : World -> World -> Prop) `{!PreOrder R} scope (m : Svc A) :
  (forall w, R w (asked (Acquire scope) w)) -> (forall w, R w (asked (Free scope) w)) ->
  preserves R m -> preserves R (lock scope m).
Proof.
  intros Ha Hf Hm w. unfold lock. destruct (w_lock _ _); [|apply Ha]. specialize (Hm (asked (Acquire scope) w)).
  destruct (m _) as [r w']. simpl in *. etransitivity; [apply Ha|]. etransitivity; [exact Hm|apply Hf].
Qed.

#[export] Hint Resolve preserves_ret preserves_raise preserves_lift preserves_require : service.

Ltac preserving :=
  repeat match goal with
  | |- preserves _ (_ ≫= _) => apply preserves_bind; [apply _| |intros ?]
  | |- preserves _ (catch _ _) => apply preserves_catch; [apply _| |intros ?]
  | |- preserves _ (match ?x with _ => _ end) => destruct x
  | |- preserves _ (let _ := _ in _) => cbv zeta
  | |- preserves _ _ => progress (eauto 3 with service typeclass_instances)
  end.

(** ** What a service cannot change *)

(** The environment of a world is fixed; requests only accumulate. *)
Record follows (w w' : World) : Prop := {
  follows_others : w_others w' = w_others w;
  follows_steps : (w_steps w <= w_steps w')%nat;
  follows_monotonic : w_monotonic w' = w_monotonic w;
  follows_helper : w_helper w' = w_helper w;
  follows_command : w_command w' = w_command w;
  follows_http : w_http w' = w_http w;
  follows_lock : w_lock w' = w_lock w;
  follows_requests : exists l, w_requests w' = l ++ w_requests w;
}.

#[export] Instance follows_preorder : PreOrder follows.
Proof.
  split.
  - intros w. split; try done. by exists [].
  - intros a b c [H1 H2 H3 H4 H5 H6 H7 [l H8]] [K1 K2 K3 K4 K5 K6 K7 [m K8]].
    split; try congruence; [lia|]. exists (m ++ l). by rewrite K8, H8, app_assoc.
Qed.

(** ** Steps that only compute *)

Lemma lift_step {S A B} (x : result A) (f : A -> M S B) s r s' : (lift x ≫= f) s = (r, s') ->
  (exists e, x = Raise e /\ r = Raise e /\ s' = s) \/ exists a, x = Ok a /\ f a s = (r, s').
Proof. unfold mbind, M_bind, lift. destruct x as [a|e]; naive_solver. Qed.

Lemma require_step {S B} (b : bool) e (f : unit -> M S B) s r s' : (require b e ≫= f) s = (r, s') ->
  (b = false /\ r = Raise e /\ s' = s) \/ b = true /\ f tt s = (r, s').
Proof. unfold mbind, M_bind, require, guard_else. destruct b; naive_solver. Qed.

Lemma any_step {S A B} (m : M S A) (f : A -> M S B) s r s' : (m ≫= f) s = (r, s') ->
  (exists e, r = Raise e /\ m s = (Raise e, s')) \/ exists a s1, m s = (Ok a, s1) /\ f a s1 = (r, s').
Proof. unfold mbind, M_bind. destruct (m s) as [[a|e] s1]; naive_solver. Qed.

(** Passes such a step in [H]; [refused] closes the case in which it raises. *)
Tactic Notation "pass" hyp(H) "as" simple_intropattern(p) "by" tactic3(refused) :=
  first [apply require_step in H as [(_ & -> & ->)|p]; [refused|]
        |apply lift_step in H as [(? & _ & -> & ->)|p]; [refused|]].

(** The other threads' next [k] turns *)
Fixpoint turns (others : nat -> Db -> Db) (n k : nat) (d : Db) : Db :=
  match k with O => d | S k' => turns others (S n) k' (others n d) end.

Lemma turns_add o k : forall n j d, turns o n (k + j) d = turns o (n + k) j (turns o n k d).
Proof.
  induction k as [|k IH]; intros n j d; simpl; [by rewrite Nat.add_0_r|].
  rewrite IH. f_equal. lia.
Qed.

(** Nothing but the other threads has changed the database. *)
Record drifts (w w' : World) : Prop := {
  drifts_follows : follows w w';
  drifts_store : store (w_db w') = turns (w_others w) (w_steps w) (w_steps w' - w_steps w) (store (w_db w));
}.

#[export] Instance drifts_preorder : PreOrder drifts.
Proof.
  split.
  - intros w. split; [reflexivity|]. by rewrite Nat.sub_diag.
  - intros a b c [H1 H2] [K1 K2]. split; [by etransitivity|]. rewrite K2, H2, (follows_others _ _ H1).
    pose proof (follows_steps _ _ H1). pose proof (follows_steps _ _ K1).
    replace (w_steps c - w_steps a)%nat with ((w_steps b - w_steps a) + (w_steps c - w_steps b))%nat by lia.
    rewrite turns_add. by replace (w_steps a + (w_steps b - w_steps a))%nat with (w_steps b) by lia.
Qed.

Lemma follows_asked r w : follows w (asked r w).
Proof. split; try done. by exists [r]. Qed.

Lemma drifts_asked r w : drifts w (asked r w).
Proof. split; [apply follows_asked|]. simpl. by rewrite Nat.sub_diag. Qed.

Lemma follows_db {A} (m : DB A) : preserves follows (db m).
Proof.
  intros w. unfold db. destruct (m _) as [r c]. simpl. split; simpl; try done; [lia|by exists []].
Qed.

Lemma drifts_db {A} (m : DB A) : evolves eq m -> preserves drifts (db m).
Proof.
  intros Hm w. split; [apply follows_db|]. unfold db. specialize (Hm (w_db (interfere w))).
  destruct (m _) as [r c]. simpl in *. rewrite <- Hm. by replace (S (w_steps w) - w_steps w)%nat with 1%nat by lia.
Qed.

Section Steps.
Context (R : World -> World -> Prop) `{!PreOrder R} (Hasked : forall r w, R w (asked r w))
  (Hdrifts : forall w w', drifts w w' -> R w w').

Lemma preserves_helper a args t : preserves R (call_helper a args t).
Proof. intros w. apply Hasked. Qed.

Lemma preserves_command a t : preserves R (command_runner a t).
Proof. intros w. apply Hasked. Qed.

Lemma preserves_http u t : preserves R (bounded_http u t).
Proof. intros w. apply Hasked. Qed.

Lemma preserves_sleep t : preserves R (sleep t).
Proof. intros w. apply Hasked. Qed.

Lemma preserves_monotonic : preserves R monotonic.
Proof.
  intros w. apply Hdrifts. split; simpl; [split; try done; by exists []|]. by rewrite Nat.sub_diag.
Qed.
End Steps.

Lemma follows_drifts w w' : drifts w w' -> follows w w'.
Proof. by intros []. Qed.

Definition drifts_helper a args t := preserves_helper drifts drifts_asked a args t.
Definition drifts_command a t := preserves_command drifts drifts_asked a t.
Definition drifts_http u t := preserves_http drifts drifts_asked u t.
Definition drifts_sleep t := preserves_sleep drifts drifts_asked t.
Definition drifts_monotonic := preserves_monotonic drifts (fun _ _ H => H).
Definition follows_helper_call a args t := preserves_helper follows follows_asked a args t.
Definition follows_monotonic_read := preserves_monotonic follows follows_drifts.
#[export] Hint Resolve drifts_helper drifts_command drifts_http drifts_sleep drifts_monotonic follows_helper_call
  follows_monotonic_read follows_db : service.

(** The database has changed by the other threads' turns and by calls of this
    service whose effect satisfies [P]. *)
Inductive acts (P : Db -> Db -> Prop) : World -> World -> Prop :=
  | acts_drift w w' : drifts w w' -> acts P w w'
  | acts_call w w1 c : acts P w w1 -> P (store (w_db (interfere w1))) (store c) ->
      acts P w (with_db c (interfere w1))
  | acts_more w w1 w2 : acts P w w1 -> drifts w1 w2 -> acts P w w2.

Section Acts.
Context (P : Db -> Db -> Prop).

#[export] Instance acts_preorder : PreOrder (acts P).
Proof.
  split; [intros w; by apply acts_drift|]. intros a b c Hab Hbc.
  induction Hbc as [w w' H|w w1 k _ IH Hk|w w1 w2 _ IH H].
  - by eapply acts_more.
  - apply acts_call; [by apply IH|done].
  - eapply acts_more; [by apply IH|exact H].
Qed.

Lemma acts_asked r w : acts P w (asked r w).
Proof. apply acts_drift, drifts_asked. Qed.

Lemma acts_db {A} (m : DB A) : evolves P m -> preserves (acts P) (db m).
Proof.
  intros Hm w. specialize (Hm (w_db (interfere w))). unfold db. destruct (m _) as [r c] eqn:E. simpl in Hm.
  cbn [snd]. apply acts_call; [reflexivity|exact Hm].
Qed.

Lemma follows_call c w : follows w (with_db c (interfere w)).
Proof. split; simpl; try done; [lia|by exists []]. Qed.

Lemma acts_follows w w' : acts P w w' -> follows w w'.
Proof.
  induction 1 as [w w' H|w w1 c _ IH _|w w1 w2 _ IH H]; [apply H| |].
  - etransitivity; [exact IH|]. apply follows_call.
  - etransitivity; [exact IH|]. apply H.
Qed.

Lemma acts_helper a args t : preserves (acts P) (call_helper a args t).
Proof. apply preserves_helper, acts_asked. Qed.
Lemma acts_command a t : preserves (acts P) (command_runner a t).
Proof. apply preserves_command, acts_asked. Qed.
Lemma acts_monotonic : preserves (acts P) monotonic.
Proof. apply preserves_monotonic, acts_drift. Qed.
Lemma acts_lock {A} scope (m : Svc A) : preserves (acts P) m -> preserves (acts P) (lock scope m).
Proof. apply preserves_lock; [apply _|intros w; apply acts_asked..]. Qed.
End Acts.

Lemma acts_weaken (P Q : Db -> Db -> Prop) w w' : (forall d d', P d d' -> Q d d') -> acts P w w' -> acts Q w w'.
Proof.
  intros H. induction 1 as [w w' D|w w1 c _ IH Hc|w w1 w2 _ IH D];
    [by apply acts_drift|by apply acts_call; [|apply H]|by eapply acts_more].
Qed.

#[export] Hint Resolve acts_helper acts_command acts_monotonic acts_lock acts_db : service.

(** ** What a service asks *)

(** Everything asked between the worlds satisfies [ok]. *)
Definition asks (ok : Request -> Prop) (w w' : World) : Prop :=
  exists l, w_requests w' = l ++ w_requests w /\ Forall ok l.

Section Asks.
Context (ok : Request -> Prop).

#[export] Instance asks_preorder : PreOrder (asks ok).
Proof.
  split; [intros w; by exists []|]. intros a b c (l & Hl & Fl) (m & Hm & Fm). exists (m ++ l).
  split; [by rewrite Hm, Hl, app_assoc|by apply Forall_app].
Qed.

Lemma asks_asked r w : ok r -> asks ok w (asked r w).
Proof. intros H. exists [r]. split; [done|by constructor]. Qed.

Lemma asks_db {A} (m : DB A) : preserves (asks ok) (db m).
Proof. intros w. unfold db. destruct (m _). by exists []. Qed.

Lemma asks_monotonic : preserves (asks ok) monotonic.
Proof. intros w. by exists []. Qed.

Lemma asks_helper a args t : ok (Helper a args t) -> preserves (asks ok) (call_helper a args t).
Proof. intros H w. by apply asks_asked. Qed.

Lemma asks_lock {A} scope (m : Svc A) : ok (Acquire scope) -> ok (Free scope) ->
  preserves (asks ok) m -> preserves (asks ok) (lock scope m).
Proof. intros Ha Hf. apply preserves_lock; [apply _|intros w; by apply asks_asked..]. Qed.
End Asks.

#[export] Hint Resolve asks_db asks_monotonic asks_helper asks_lock : service.

(** *** A protocol

    [obeys allow w w']: every request between the worlds was allowed in the world
    in which it was asked. *)
Section Protocol.
Context (allow : World -> Request -> Prop).

Inductive obeys : World -> World -> Prop :=
  | obeys_silent w w' : follows w w' -> w_requests w' = w_requests w -> obeys w w'
  | obeys_ask w r : allow w r -> obeys w (asked r w)
  | obeys_trans w w1 w2 : obeys w w1 -> obeys w1 w2 -> obeys w w2.

#[export] Instance obeys_preorder : PreOrder obeys.
Proof. split; [intros w; by apply obeys_silent|]. intros a b c. apply obeys_trans. Qed.

Lemma obeys_db {A} (m : DB A) : preserves obeys (db m).
Proof.
  intros w. apply obeys_silent; [apply follows_db|]. unfold db. by destruct (m _).
Qed.

Lemma obeys_monotonic : preserves obeys monotonic.
Proof. intros w. apply obeys_silent; [apply follows_monotonic_read|done]. Qed.

Lemma obeys_command a t : (forall w, allow w (Command a t)) -> preserves obeys (command_runner a t).
Proof. intros H w. apply obeys_ask, H. Qed.

Lemma obeys_lock {A} scope (m : Svc A) :
  (forall w, allow w (Acquire scope)) -> (forall w, allow w (Free scope)) -> preserves obeys m -> preserves obeys (lock scope m).
Proof. intros Ha Hf. apply preserves_lock; [apply _|intros w; by apply obeys_ask..]. Qed.

(** A step whose continuation needs to know what the step did *)
Lemma obeys_then {A B} (m : Svc A) (f : A -> Svc B) w : obeys w (m w).2 ->
  (forall a w1, m w = (Ok a, w1) -> obeys w1 (f a w1).2) -> obeys w ((m ≫= f) w).2.
Proof.
  intros Hm Hf. unfold mbind, M_bind. destruct (m w) as [[a|e] w1]; [|done].
  etransitivity; [exact Hm|]. by apply Hf.
Qed.

Lemma obeys_follows w w' : obeys w w' -> follows w w'.
Proof. induction 1 as [|w r _|]; [done|apply follows_asked|by etransitivity]. Qed.

(** Every request was asked somewhere on the way, where it was allowed. *)
Lemma obeys_sent w w' r : obeys w w' -> In r (w_requests w') ->
  In r (w_requests w) \/ exists u, obeys w u /\ allow u r /\ obeys (asked r u) w'.
Proof.
  induction 1 as [w w' _ E|w x Hx|w w1 w2 H1 IH1 H2 IH2]; intros H.
  - left. by rewrite <- E.
  - destruct H as [->|H]; [right|by left]. exists w. split_and!; [reflexivity|done|reflexivity].
  - destruct (IH2 H) as [K|(u & K1 & K2 & K3)].
    + destruct (IH1 K) as [|(u & K1 & K2 & K3)]; [by left|]. right. exists u. split_and!; [done|done|].
      by etransitivity.
    + right. exists u. split_and!; [by etransitivity|done|done].
Qed.
End Protocol.

#[export] Hint Resolve obeys_db obeys_monotonic obeys_command : service.

(** The database is left alone, by the other threads too. *)
Record untouched (w w' : World) : Prop := {
  untouched_follows : follows w w';
  untouched_db : w_db w' = w_db w;
}.

#[export] Instance untouched_preorder : PreOrder untouched.
Proof.
  split; [intros w; by split|]. intros a b c [H1 H2] [K1 K2]. split; [by etransitivity|congruence].
Qed.

Lemma untouched_asked r w : untouched w (asked r w).
Proof. split; [apply follows_asked|done]. Qed.
Lemma untouched_monotonic : preserves untouched monotonic.
Proof. intros w. split; [apply follows_monotonic_read|done]. Qed.
Lemma untouched_command a t : preserves untouched (command_runner a t).
Proof. intros w. apply untouched_asked. Qed.
#[export] Hint Resolve untouched_monotonic untouched_command : service.

(** ** Moments, and steps that ask nothing *)

Lemma kept {A} R (m : Svc A) w r w' : preserves R m -> m w = (r, w') -> R w w'.
Proof. intros Hm H. specialize (Hm w). by rewrite H in Hm. Qed.

(** At some moment since [w0] *)
Definition once (P : World -> Prop) (w0 w : World) : Prop := exists u, follows w0 u /\ follows u w /\ P u.

Lemma once_later P w0 w w' : follows w w' -> once P w0 w -> once P w0 w'.
Proof. intros F (u & H1 & H2 & H3). exists u. split_and!; [done|by etransitivity|done]. Qed.

Lemma once_now (P : World -> Prop) w0 w : follows w0 w -> P w -> once P w0 w.
Proof. intros F H. exists w. by split_and!; [|reflexivity|]. Qed.

(** Only the database and the clock are used. *)
Definition quietly (w w' : World) : Prop := follows w w' /\ w_requests w' = w_requests w.

#[export] Instance quietly_preorder : PreOrder quietly.
Proof. split; [by intros w|]. intros a b c [H1 H2] [K1 K2]. split; [by etransitivity|congruence]. Qed.

Lemma quietly_db {A} (m : DB A) : preserves quietly (db m).
Proof. intros w. split; [apply follows_db|]. unfold db. by destruct (m _). Qed.
Lemma quietly_monotonic : preserves quietly monotonic.
Proof. intros w. by split; [apply follows_monotonic_read|]. Qed.

Lemma quiet_obeys allow w w' : quietly w w' -> obeys allow w w'.
Proof. intros [F E]. by apply obeys_silent. Qed.

(** Only the other threads have written, and nothing was asked. *)
Definition silent (w w' : World) : Prop := drifts w w' /\ w_requests w' = w_requests w.

#[export] Instance silent_preorder : PreOrder silent.
Proof. split; [by intros w|]. intros a b c [H1 H2] [K1 K2]. split; [by etransitivity|congruence]. Qed.

Lemma silent_quietly w w' : silent w w' -> quietly w w'.
Proof. intros [D E]. by split; [apply D|]. Qed.

Lemma silent_db {A} (m : DB A) : evolves eq m -> preserves silent (db m).
Proof. intros H w. split; [by apply drifts_db|]. unfold db. by destruct (m _). Qed.

Lemma silent_monotonic : preserves silent monotonic.
Proof. intros w. by split; [apply drifts_monotonic|]. Qed.

(** Every request was allowed where it was asked, and every change of the
    service's own is one that [change] admits after what was asked so far. *)
Section Justified.
Context (allow : World -> Request -> Prop) (change : World -> Db -> Db -> Prop).

Inductive justified : World -> World -> Prop :=
  | just_silent w w' : silent w w' -> justified w w'
  | just_ask w r : allow w r -> justified w (asked r w)
  | just_write w c : change w (store (w_db (interfere w))) (store c) -> justified w (with_db c (interfere w))
  | just_trans w w1 w2 : justified w w1 -> justified w1 w2 -> justified w w2.

#[export] Instance justified_preorder : PreOrder justified.
Proof. split; [intros w; by apply just_silent|]. intros a b c. apply just_trans. Qed.

Lemma justified_obeys w w' : justified w w' -> obeys allow w w'.
Proof.
  induction 1 as [w w' H|w r H|w c _|w w1 w2 _ IH1 _ IH2]; [by apply quiet_obeys, silent_quietly|by apply obeys_ask| |by etransitivity].
  apply obeys_silent; [apply follows_call|done].
Qed.

Lemma justified_db {A} (m : DB A) w : (forall d d' c, store c = d -> (m c).2 = d' -> change w d (store d')) ->
  justified w (db m w).2.
Proof.
  intros H. unfold db. destruct (m _) as [r c] eqn:E. simpl. apply just_write. eapply H; [done|]. by rewrite E.
Qed.

Lemma justified_evolves {A} (P : Db -> Db -> Prop) (m : DB A) w : evolves P m -> (forall d d', P d d' -> change w d d') ->
  justified w (db m w).2.
Proof. intros Hm H. apply justified_db. intros d c' c <- <-. apply H, Hm. Qed.
End Justified.

Lemma justified_weaken (allow allow' : World -> Request -> Prop) change w w' : (forall u r, allow u r -> allow' u r) ->
  justified allow change w w' -> justified allow' change w w'.
Proof.
  intros H. induction 1 as [u u' S|u r Hr|u c Hc|u u1 u2 _ IH1 _ IH2];
    [by apply just_silent|by apply just_ask, H|by apply just_write|by etransitivity].
Qed.
