(* ===== verification/Rollout.v ===== *)
(** * Rolling a deployment out
    (src/openstack_platform/controller/application_runtime.py, from the
    evidence of a start to the acceptance of a healthy deployment)

    Submit a job and watch it, remove a candidate that stays unhealthy, promote
    one that does not, and accept it: the transaction that makes it the
    application's deployment.  The callables the code passes along
    ([helper_caller], [public_health_check], the phases of a workflow) are
    arguments here too.  The cause chained to an exception is not kept. *)

From S2P Require Import Prelude Regex Json Clock Validation Runtime Sql Schema StorageCapacity Operations.
From S2P Require Import StorageContract DeploymentConfig Applications NomadJobs Service.

(** ** Evidence of a start *)

Definition STARTUP_LINES : Z := 200.
Definition _STARTUP_TEXT_BYTES : Z := 65536.

(** [repr] of a text, and [str] of a value *)
Definition hex_escape (c : Z) : string :=
  String (chr 92) (String "x" (String (hex_char (c / 16)) (String (hex_char (c mod 16)) ""))).

Definition repr_char (mark : ascii) (a : ascii) : string :=
  let c := code a in
  if Ascii.eqb a mark || (c =? 92) then String (chr 92) (String a "")
  else if c =? 10 then String (chr 92) "n" else if c =? 13 then String (chr 92) "r"
  else if c =? 9 then String (chr 92) "t"
  else if (c <? 32) || ((127 <=? c) && (c <=? 160)) || (c =? 173) then hex_escape c
  else String a "".

Definition repr_text (s : string) : string :=
  let l := list_ascii_of_string s in
  let single := existsb (is_char "'") l in
  let double := existsb (fun a => code a =? 34) l in
  let mark := if single && negb double then chr 34 else "'"%char in
  String mark (concat_all (map (repr_char mark) l) +:+ String mark "").

Fixpoint py_repr (v : json) : string :=
  match v with
  | JNull => "None"
  | JBool true => "True"
  | JBool false => "False"
  | JInt z => decimal_text z
  | JStr s => repr_text s
  | JArr l => "[" +:+ join ", " (map py_repr l) +:+ "]"
  | JObj d => "{" +:+ join ", " (map (fun kv => repr_text kv.1 +:+ ": " +:+ py_repr kv.2) d) +:+ "}"
  end.

Definition py_str (v : json) : string := match v with JStr s => s | _ => py_repr v end.

Definition shown (limit : nat) (key : string) (d : dict) : json :=
  JStr (String.substring 0 limit (py_str (default (JStr "") (dict_get key d)))).

Definition number (v : json) : json := match v with JInt z => JInt z | _ => JNull end.

Definition is_true_at (key : string) (d : dict) : json :=
  JBool (match refs_get key d with JBool true => true | _ => false end).

(** [item.encode()[-n:].decode(errors="ignore")] *)
Fixpoint last_bytes (n : Z) (s : string) : string :=
  match s with
  | EmptyString => ""
  | String _ s' => if utf8_length s <=? n then s else last_bytes n s'
  end.

Definition startup_event (v : json) : option json :=
  match v with
  | JObj d =>
      match refs_get "type" d with
      | JStr t => Some (JObj [
          ("type", JStr (String.substring 0 64 t));
          ("message", match refs_get "message" d with JStr m => JStr (String.substring 0 512 m) | _ => JStr "" end);
          ("exitCode", number (refs_get "exitCode" d));
          ("oomKilled", is_true_at "oomKilled" d);
          ("time", number (refs_get "time" d))])
      | _ => None
      end
  | _ => None
  end.

Definition startup_check (v : json) : option json :=
  match v with
  | JObj d => Some (JObj [
      ("name", shown 64 "name" d); ("status", shown 16 "status" d);
      ("statusCode", number (refs_get "statusCode" d)); ("output", shown 300 "output" d);
      ("time", number (refs_get "time" d))])
  | _ => None
  end.

Definition elements (v : json) : list json := match v with JArr l => l | _ => [] end.

Definition last_elements {A} (n : nat) (l : list A) : list A := drop (length l - n) l.

Definition startup_text (key : string) (d : dict) : option json :=
  match refs_get key d with JStr s => Some (JStr (last_bytes _STARTUP_TEXT_BYTES s)) | _ => None end.

(** [None] when the record is unusable.  [found] may be 0 or 1, which Python
    holds equal to a boolean but not identical with it. *)
Definition startup_evidence (value : dict) : option dict :=
  match refs_get "found" value with
  | JBool false => Some [("found", JBool false)]
  | JBool true | JInt 0 | JInt 1 =>
      match startup_text "stdout" value, startup_text "stderr" value with
      | Some stdout, Some stderr => Some [
          ("found", JBool true);
          ("checks", JArr (omap startup_check (take 4 (elements (refs_get "checks" value)))));
          ("clientStatus", shown 32 "clientStatus" value);
          ("taskState", shown 32 "taskState" value);
          ("failed", is_true_at "failed" value);
          ("restarts", JInt (match refs_get "restarts" value with JInt z => Z.max 0 z | _ => 0 end));
          ("events", JArr (omap startup_event (last_elements 12 (elements (refs_get "events" value)))));
          ("stdout", stdout); ("stderr", stderr);
          ("stdoutTruncated", is_true_at "stdoutTruncated" value);
          ("stderrTruncated", is_true_at "stderrTruncated" value)]
      | _, _ => None
      end
  | _ => None
  end.

(** ** Data *)

Record DeploymentResult := { dr_nomad_version : Z; dr_observations : Z }.

Record DeploymentSpec := {
  ds_application_id : string;
  ds_application_slug : string;
  ds_repository : string;
  ds_source_commit : string;
  ds_requested_ref : string;
  ds_configuration_revision : Z;
  ds_configuration_sha256 : string;
  ds_worker_flavor : string;
  ds_cpu_mhz : Z;
  ds_memory_mib : Z;
}.

Record DeploymentBuild := {
  db_image : string;
  db_manifest : Manifest;
  db_recipe_hash : string;
  db_build_log_path : string;
  db_refs : dict;
}.

Record DeploymentWorker := {
  dw_server_id : string;
  dw_server_name : string;
  dw_port_id : string;
  dw_port_name : string;
  dw_refs : dict;
}.

Record DeploymentAcceptance := {
  da_application_id : string;
  da_application_slug : string;
  da_repository : string;
  da_deployment_id : string;
  da_worker_server_id : string;
  da_worker_server_name : string;
  da_worker_port_id : string;
  da_worker_port_name : string;
  da_worker_flavor : string;
  da_cpu_mhz : Z;
  da_memory_mib : Z;
  da_source_commit : string;
  da_recipe_hash : string;
  da_image : string;
  da_nomad_job : string;
  da_nomad_job_sha256 : string;
  da_nomad_version : Z;
  da_health_path : string;
  da_application_port : Z;
  da_build_log_path : string;
  da_public_url : string;
}.

(** ** Recovery of an interrupted deployment *)

Definition _DEPLOY_PHASES : list string := [
  "validated"; "source_acquired"; "builder_creating"; "builder_created"; "source_transferred"; "building";
  "image_pushed"; "builder_cleaned"; "worker_creating"; "worker_ready"; "job_submitted";
  "deployment_healthy"; "accepted"].

Definition deployment_recovery_action (phase : string) (candidate_digest : option string) : result string :=
  _ ← guard_else (one_of_words _DEPLOY_PHASES phase)
        (ApplicationError "deployment operation has an unknown recovery phase");
  _ ← opt_check candidate_digest (fun g => ignore (oci_digest_pin g));
  if one_of_words ["validated"; "source_acquired"] phase then Ok "acquire_source"
  else if one_of_words ["builder_creating"; "builder_created"; "source_transferred"; "building"] phase then
    Ok "cleanup_builder_then_rebuild"
  else if String.eqb phase "image_pushed" then
    match candidate_digest with
    | None => Raise (ApplicationError "image-pushed phase omitted its candidate digest")
    | Some _ => Ok "cleanup_builder_then_reconcile_worker"
    end
  else if one_of_words ["builder_cleaned"; "worker_creating"] phase then Ok "reconcile_worker"
  else if String.eqb phase "worker_ready" then Ok "submit_job"
  else if String.eqb phase "job_submitted" then Ok "observe_health_or_remove_candidate"
  else if String.eqb phase "deployment_healthy" then Ok "accept_deployment"
  else Ok "complete".

(** ** Health *)

Definition HEALTH_OBSERVATION_SECONDS : Z := PROGRESS_DEADLINE_SECONDS.

(** [math.ceil(720 / poll_interval_seconds) + 1] *)
Definition health_observation_attempts (poll_interval : Z) : Z :=
  - (- (HEALTH_OBSERVATION_SECONDS * second) / poll_interval) + 1.

Definition Caller : Type := string -> dict -> Z -> Svc dict.

Definition check_public_health (application_slug : string) (platform : PlatformConfig) (path : json)
    (timeout : Z) (preview : bool) (expected_marker : json) : Svc bool :=
  app_slug ← lift (slug application_slug);
  checked_path ← lift (health_path path);
  let route := if preview then app_slug +:+ "-preview" else app_slug in
  marker ← lift (uuid expected_marker);
  result ← bounded_http ("https://" +:+ route +:+ "." +:+ pc_domain platform +:+ checked_path) timeout;
  mret ((200 <=? rs_status result) && (rs_status result <? 300)
        && bool_decide (dict_get DEPLOYMENT_ROUTE_HEADER_LOWER (rs_headers result) = Some marker)).

Definition int_is (v : json) (z : Z) : bool := match v with JInt n => n =? z | _ => false end.
Definition text_is (v : json) (s : string) : bool := match v with JStr t => String.eqb t s | _ => false end.

(** [exact_health]: the answer is about this version of this candidate. *)
Definition exact_health (observation : dict) (version : Z) (candidate : string * string) : bool :=
  int_is (refs_get "version" observation) version
  && int_is (refs_get "currentVersion" observation) version
  && text_is (refs_get "candidateJobSha256" observation) candidate.1
  && text_is (refs_get "candidateImage" observation) candidate.2
  && match refs_get "allocations" observation with JInt n => (0 <=? n) && (n <=? 128) | _ => false end.

Inductive observed :=
  | Settled (r : DeploymentResult)
  | Unhealthy (scheduler public : option bool).

(** [try: m except Exception: None] *)
Definition attempted {A} (m : Svc A) : Svc (option A) :=
  catch (a ← m; mret (Some a)) (fun _ => mret None).

(** [pause] is the caller's [sleep]. *)
Section Rollout.
Context (helper_caller : Caller) (pause : Z -> Svc unit).

Section Watch.
Context (health_args : dict) (version : Z) (candidate : string * string) (health_deadline : option Z)
  (helper_timeout poll_interval : Z) (public_health_check : option (Svc bool)).

(** A bound on the next wait *)
Definition bounded_by (maximum : Z) : Svc Z :=
  match health_deadline with
  | None => mret maximum
  | Some d => now ← monotonic; mret (Z.min maximum (d - now))
  end.

Definition out_of_time : Svc bool :=
  match health_deadline with None => mret false | Some d => now ← monotonic; mret (d <=? now) end.

(** The loop of [deploy_and_cleanup], with [n] attempts left *)
Fixpoint watch (n : nat) (observation_number : Z) (scheduler public : option bool) : Svc observed :=
  match n with
  | O => mret (Unhealthy scheduler public)
  | S n' =>
      over ← out_of_time;
      if over : bool then mret (Unhealthy scheduler public) else
      answer ← attempted (timeout ← bounded_by helper_timeout; helper_caller "app.health" health_args timeout);
      match answer with
      | None => mret (Unhealthy scheduler public)
      | Some observation =>
          match refs_get "healthy" observation, refs_get "terminal" observation with
          | JBool healthy, JBool terminal =>
              if negb (exact_health observation version candidate) then mret (Unhealthy scheduler public) else
              public ← (if healthy then
                  match public_health_check with
                  | None => mret (Some true)
                  | Some check => b ← attempted check; mret (Some (default false b))
                  end
                else mret public : Svc (option bool));
              if healthy && default false public then
                mret (Settled {| dr_nomad_version := version; dr_observations := observation_number |})
              else if terminal then mret (Unhealthy (Some healthy) public)
              else match n' with
                   | O => mret (Unhealthy (Some healthy) public)
                   | S _ =>
                       delay ← bounded_by poll_interval;
                       if delay <=? 0 then mret (Unhealthy (Some healthy) public)
                       else _ ← pause delay; watch n' (observation_number + 1) (Some healthy) public
                   end
          | _, _ => mret (Unhealthy scheduler public)
          end
      end
  end.
End Watch.

Record Bounds := {
  bo_attempts : Z;
  bo_poll_interval : Z;
  bo_helper_timeout : Z;
  bo_deadline : option Z;
  bo_cleanup_reserve : Z;
  bo_observe : option Z;
}.


(** Reading the record of a start, and removing the candidate *)
Definition remove_candidate (app_slug job_id : string) (candidate : string * string) (helper_timeout : Z)
    (scheduler public : option bool) : Svc DeploymentResult :=
  answer ← attempted (helper_caller "app.startup"
    [("slug", JStr app_slug); ("jobId", JStr job_id); ("lines", JInt STARTUP_LINES)] helper_timeout);
  let startup := (fun d => dict_set "health"
    (JObj [("schedulerHealthy", opt_json JBool scheduler); ("publicHealthy", opt_json JBool public)]) d)
    <$> (answer ≫= startup_evidence) in
  removed ← attempted (helper_caller "app.remove"
    [("slug", JStr app_slug); ("jobId", JStr job_id); ("candidateJobSha256", JStr candidate.1);
     ("candidateImage", JStr candidate.2)] helper_timeout);
  raise (DeploymentFailed (match removed with Some d => is_true (refs_get "jobAbsent" d) | None => false end) startup).

Definition deploy_and_cleanup (application_slug nomad_job : string) (b : Bounds)
    (public_health_check : option (Svc bool)) : Svc DeploymentResult :=
  app_slug ← lift (slug application_slug);
  job ← lift (bounded_text JOB_LIMIT nomad_job);
  _ ← require ((1 <=? bo_attempts b) && (bo_attempts b <=? 1000)
               && (0 <? bo_poll_interval b) && (bo_poll_interval b <=? 30 * second)) ValueError;
  _ ← require (0 <=? bo_cleanup_reserve b) ValueError;
  _ ← require (match bo_observe b with Some o => 0 <? o | None => true end) ValueError;
  let health_deadline := (fun d => d - bo_cleanup_reserve b) <$> bo_deadline b in
  candidate ← lift (nomad_candidate_identity job);
  job_id ← lift (nomad_job_id job app_slug);
  deployed ← helper_caller "app.deploy" [("slug", JStr app_slug); ("job", JStr job)] (bo_helper_timeout b);
  _ ← require (text_is (refs_get "jobId" deployed) job_id)
        (ApplicationError "helper observed an unexpected deployment job");
  version ← lift (match refs_get "nomadVersion" deployed with
    | JInt v => if v <? 0 then Raise (ApplicationError "helper returned an invalid Nomad version") else Ok v
    | _ => Raise (ApplicationError "helper returned an invalid Nomad version")
    end);
  _ ← require (text_is (refs_get "candidateJobSha256" deployed) candidate.1
               && text_is (refs_get "candidateImage" deployed) candidate.2)
        (ApplicationError "helper did not observe the exact deployment candidate");
  health_deadline ← (match bo_observe b with
    | None => mret health_deadline
    | Some o => now ← monotonic;
        mret (Some (match health_deadline with None => now + o | Some d => Z.min d (now + o) end))
    end : Svc (option Z));
  let health_args := [("slug", JStr app_slug); ("version", JInt version); ("candidateJobSha256", JStr candidate.1);
    ("candidateImage", JStr candidate.2); ("jobId", JStr job_id)] in
  outcome ← watch health_args version candidate health_deadline (bo_helper_timeout b) (bo_poll_interval b)
              public_health_check (Z.to_nat (bo_attempts b)) 1 None None;
  match outcome with
  | Settled r => mret r
  | Unhealthy scheduler public => remove_candidate app_slug job_id candidate (bo_helper_timeout b) scheduler public
  end.

Definition promote_candidate (application_slug promoted_job : string) (candidate_version : Z)
    (candidate_identity : string * string) (predecessor_priority : Z) (helper_timeout : Z) : Svc DeploymentResult :=
  app_slug ← lift (slug application_slug);
  job ← lift (bounded_text JOB_LIMIT promoted_job);
  job_id ← lift (nomad_job_id job app_slug);
  expected ← lift (nomad_candidate_identity job);
  candidate_hash ← lift (sha256_hex candidate_identity.1);
  _ ← require ((0 <=? predecessor_priority) && (predecessor_priority <? 1000000000))
        (ValidationError "predecessor route priority is invalid");
  candidate_image ← lift (oci_digest_pin candidate_identity.2);
  _ ← require (String.eqb expected.2 candidate_image)
        (ValidationError "promoted route image does not match the candidate");
  marker ← lift (nomad_route_marker job);
  result ← helper_caller "app.promote"
    [("slug", JStr app_slug); ("job", JStr job); ("candidateJobId", JStr job_id);
     ("candidateVersion", JInt candidate_version); ("candidateJobSha256", JStr candidate_hash);
     ("candidateImage", JStr candidate_image); ("routeMarker", JStr marker);
     ("predecessorPriority", JInt predecessor_priority)] helper_timeout;
  match refs_get "nomadVersion" result with
  | JInt version =>
      if (version <? 0) || negb (text_is (refs_get "jobId" result) job_id)
         || negb (text_is (refs_get "candidateJobSha256" result) expected.1)
         || negb (text_is (refs_get "candidateImage" result) expected.2)
      then raise (ApplicationError "helper did not confirm the exact route promotion")
      else mret {| dr_nomad_version := version; dr_observations := 1 |}
  | _ => raise (ApplicationError "helper did not confirm the exact route promotion")
  end.

(** ** Accepting a healthy deployment *)

(** The helper's answer shows exactly the accepted job, healthy and alone. *)
Definition accepted_health (observation : dict) (version : Z) (hash image : string) : bool :=
  int_is (refs_get "version" observation) version
  && int_is (refs_get "currentVersion" observation) version
  && text_is (refs_get "candidateJobSha256" observation) hash
  && text_is (refs_get "candidateImage" observation) image
  && int_is (refs_get "allocations" observation) 1
  && match refs_get "healthy" observation with JBool true => true | _ => false end
  && match refs_get "terminal" observation with JBool false => true | _ => false end.

Definition acceptance_input (a : DeploymentAcceptance) (identifier app_slug : string) : ApplicationInput := {|
  in_application_id := identifier; in_slug := app_slug; in_worker_flavor := da_worker_flavor a;
  in_scheduler_cpu_mhz := da_cpu_mhz a; in_scheduler_memory_mib := da_memory_mib a;
  in_repository_url := Some (da_repository a); in_desired_running := true; in_url := Some (da_public_url a);
  in_worker_server_id := Some (da_worker_server_id a); in_worker_server_name := Some (da_worker_server_name a);
  in_worker_port_id := Some (da_worker_port_id a); in_worker_port_name := Some (da_worker_port_name a) |}.

Definition acceptance_evidence (a : DeploymentAcceptance) (hash image : string) : Evidence := {|
  ev_recipe_hash := Some (da_recipe_hash a); ev_image_digest := Some image; ev_nomad_job := Some (da_nomad_job a);
  ev_nomad_job_sha256 := Some hash; ev_nomad_version := Some (da_nomad_version a);
  ev_build_log_path := Some (da_build_log_path a); ev_error := None; ev_cleanup_state := Some "not_required"%string |}.

(** Placement, acceptance and the finishing lane commit together. *)
Definition accept_transaction (a : DeploymentAcceptance) (identifier app_slug hash image : string) : DB unit :=
  transaction (
    _ ← put_application (acceptance_input a identifier app_slug) None true;
    _ ← checkpoint_deployment_attempt (da_deployment_id a) "succeeded" (acceptance_evidence a hash image) None true;
    operation ← get_operation (da_deployment_id a);
    match operation with
    | Some o =>
        if String.eqb (op_kind o) "app.deploy" then mark_operation_finishing (op_operation_id o) true
        else mret tt
    | None => mret tt
    end).

Definition accept_healthy_deployment (a : DeploymentAcceptance) (helper_timeout : Z)
    (public_health_check : Svc bool) : Svc DeploymentResult :=
  identifier ← lift (uuid (da_application_id a));
  app_slug ← lift (slug (da_application_slug a));
  expected_hash ← lift (sha256_hex (da_nomad_job_sha256 a));
  expected_image ← lift (oci_digest_pin (da_image a));
  expected_job_id ← lift (nomad_job_id (da_nomad_job a) app_slug);
  let version := da_nomad_version a in
  _ ← require (0 <=? version) (ValidationError "accepted Nomad version must be non-negative");
  observation ← helper_caller "app.health"
    [("slug", JStr app_slug); ("version", JInt version); ("candidateJobSha256", JStr expected_hash);
     ("candidateImage", JStr expected_image); ("jobId", JStr expected_job_id)] helper_timeout;
  _ ← require (accepted_health observation version expected_hash expected_image)
        (ApplicationError "exact deployment health could not be reobserved for acceptance");
  route_healthy ← catch public_health_check
    (fun _ => raise (ApplicationError "public deployment route could not be reobserved"));
  _ ← require route_healthy (ApplicationError "public deployment route was not healthy for acceptance");
  attempt ← db (get_deployment_attempt (da_deployment_id a));
  _ ← require (match attempt with
               | Some r => String.eqb (at_application_id (attempt_row r)) identifier
               | None => false
               end) (ApplicationError "deployment attempt snapshot is missing for acceptance");
  _ ← db (accept_transaction a identifier app_slug expected_hash expected_image);
  mret {| dr_nomad_version := version; dr_observations := 1 |}.

(** ** Variables of an application *)

Definition text_values (values : list (string * string)) : json := JObj (map (fun kv => (kv.1, JStr kv.2)) values).

Definition ENVIRONMENT_VALUE_LIMIT : Z := 65536.

Definition set_environment (application_slug : string) (updates ownership : list (string * string))
    (timeout : Z) : Svc dict :=
  validated ← lift (dict_of (fun kv : string * string =>
      key ← env_key (JStr kv.1); value ← bounded_text ENVIRONMENT_VALUE_LIMIT (JStr kv.2); Ok (key, value)) updates []);
  app_slug ← lift (slug application_slug);
  helper_caller "app.env.set"
    [("slug", JStr app_slug); ("updates", text_values validated); ("ownership", text_values ownership)] timeout.

Definition remove_environment (application_slug : string) (keys : list string)
    (ownership : list (string * string)) (timeout : Z) : Svc dict :=
  app_slug ← lift (slug application_slug);
  checked ← lift (each (fun k => env_key (JStr k)) keys);
  helper_caller "app.env.remove"
    [("slug", JStr app_slug); ("keys", JArr (map JStr checked)); ("ownership", text_values ownership)] timeout.

Definition list_environment (application_slug : string) (timeout : Z) : Svc dict :=
  app_slug ← lift (slug application_slug);
  helper_caller "app.env.list" [("slug", JStr app_slug)] timeout.
End Rollout.

(** ** The workflow of a deployment

    [deadline] is given, as by the only caller. *)

Definition workflow_refs (intent_refs : dict) (spec : DeploymentSpec) (identifier app_slug repository source hash : string)
    : dict :=
  dict_merge intent_refs [
    ("application_id", JStr identifier); ("slug", JStr app_slug); ("repository", JStr repository);
    ("source_commit", JStr source); ("requested_ref", JStr (ds_requested_ref spec));
    ("configuration_revision", JInt (ds_configuration_revision spec)); ("configuration_sha256", JStr hash)].

Definition first_application (spec : DeploymentSpec) (domain identifier app_slug : string) : ApplicationInput := {|
  in_application_id := identifier; in_slug := app_slug; in_worker_flavor := ds_worker_flavor spec;
  in_scheduler_cpu_mhz := ds_cpu_mhz spec; in_scheduler_memory_mib := ds_memory_mib spec;
  in_repository_url := Some (ds_repository spec); in_desired_running := true;
  in_url := Some ("https://" +:+ app_slug +:+ "." +:+ domain); in_worker_server_id := None;
  in_worker_server_name := None; in_worker_port_id := None; in_worker_port_name := None |}.

Section Workflow.
Context (verify_project : Svc unit) (recover : Operation -> Svc (option Operation))
  (prepare_build : Operation -> Svc DeploymentBuild)
  (prepare_environment : string -> DeploymentBuild -> Svc dict)
  (prepare_worker : string -> DeploymentBuild -> dict -> Svc DeploymentWorker)
  (deploy_and_accept : string -> DeploymentBuild -> DeploymentWorker -> Svc DeploymentResult)
  (create_attempt : string -> Svc unit) (checkpoint_attempt : string -> error -> Svc unit).

(** [except Exception as error] of the phases *)
Definition record_failure (operation_id : string) (e : error) : Svc unit :=
  current ← db (get_operation operation_id);
  match current with
  | Some o =>
      if bool_decide (op_st o = op_running) then
        _ ← (if op_finishing o then db (record_finishing_failure operation_id (Exn (error_name e)))
             else db (mark_recovery_required operation_id (Exn (error_name e)) None None));
        checkpoint_attempt operation_id e
      else mret tt
  | None => mret tt
  end.

Definition phases (operation_id : string) (unfinished : Operation) : Svc (string * DeploymentResult) :=
  catch (
    build ← prepare_build unfinished;
    refs ← prepare_environment operation_id build;
    worker ← prepare_worker operation_id build refs;
    result ← deploy_and_accept operation_id build worker;
    mret (db_image build, result))
  (fun e => _ ← record_failure operation_id e; raise e).

(** The operation to resume, or a new one *)
Definition start_operation (operation_id : option string) (scope deadline_at : string) (base_refs : dict)
    : Svc (string * Operation) :=
  id ← (match operation_id with
        | None => db fresh_uuid
        | Some i => lift (uuid i)
        end : Svc string);
  _ ← db (begin_operation id "app.deploy" scope "validated" deadline_at base_refs None);
  started ← db (get_operation id);
  match started with
  | None => raise AssertionError
  | Some o =>
      _ ← catch (create_attempt id) (fun e =>
            _ ← db (mark_failed id (Exn (error_name e)) "not_required" None); raise e);
      mret (id, o)
  end.

Definition foreground_or_own (scope : string) (operation_id : option string) : Svc (option Operation) :=
  unfinished ← db (get_unfinished_operation scope);
  finishing ← db (get_finishing_operation scope);
  mret (match finishing with
        | Some f => if bool_decide (Some (op_operation_id f) = operation_id) then finishing else unfinished
        | None => unfinished
        end).

Definition differs (base_refs : dict) (o : Operation) : bool :=
  negb (String.eqb (op_kind o) "app.deploy")
  || existsb (fun kv => negb (py_eqb (refs_get kv.1 (op_refs o)) kv.2)) base_refs.

(** [None] when recovery completed the operation *)
Definition execute_deployment_workflow (platform : PlatformConfig) (spec : DeploymentSpec) (deadline_at : string)
    (operation_id : option string) (intent_refs : dict) : Svc (option (string * DeploymentResult)) :=
  identifier ← lift (uuid (ds_application_id spec));
  app_slug ← lift (slug (ds_application_slug spec));
  let scope := "app-" +:+ identifier in
  repository ← lift (repository_url (ds_repository spec));
  source ← lift (commit (ds_source_commit spec));
  hash ← lift (sha256_hex (ds_configuration_sha256 spec));
  let base_refs := workflow_refs intent_refs spec identifier app_slug repository source hash in
  lock scope (
    _ ← verify_project;
    application ← db (get_application identifier);
    _ ← (match application with
         | Some _ => mret tt
         | None => db (put_application (first_application spec (pc_domain platform) identifier app_slug) None false)
         end : Svc unit);
    unfinished ← foreground_or_own scope operation_id;
    match unfinished with
    | Some u =>
        if differs base_refs u
        then raise (UnfinishedOperationError scope (op_operation_id u) (op_kind u))
        else
          renewed ← db (renew_operation_deadline (op_operation_id u) deadline_at None);
          resumed ← recover renewed;
          match resumed with
          | None => mret None
          | Some o => r ← phases (op_operation_id o) o; mret (Some r)
          end
    | None =>
        started ← start_operation operation_id scope deadline_at base_refs;
        r ← phases started.1 started.2; mret (Some r)
    end).
End Workflow.
