(* ===== verification/RolloutSpec.v ===== *)
(** * Properties of a rollout

    What a rollout that ends has asked and seen; the gate in front of accepting
    a deployment; and the state an exception leaves behind. *)

From S2P Require Import Prelude Regex Json Clock Validation Runtime Sql Schema StorageCapacity Operations.
From S2P Require Import OperationsSpec AdmissionSpec RuntimeVersions StorageContract DeploymentConfig Applications ApplicationsSpec Sha256 NomadJobs.
From S2P Require Import Service Rollout.

(** ** Requests *)

Definition is_action (action : string) (r : Request) : bool :=
  match r with Helper a _ _ => String.eqb a action | _ => false end.

Definition tally (action : string) (w : World) : nat := length (List.filter (is_action action) (w_requests w)).

Definition is_get (r : Request) : bool := match r with Get _ _ => true | _ => false end.

(** Only the route was asked, and only the other threads wrote. *)
Definition only_gets (w w' : World) : Prop :=
  drifts w w' /\ exists l, w_requests w' = l ++ w_requests w /\ forallb is_get l = true.

#[export] Instance only_gets_preorder : PreOrder only_gets.
Proof.
  split.
  - intros w. split; [reflexivity|]. by exists [].
  - intros a b c (H1 & l & H2 & H3) (K1 & m & K2 & K3). split; [by etransitivity|].
    exists (m ++ l). by rewrite K2, H2, app_assoc, forallb_app, H3, K3.
Qed.

Lemma only_gets_tally action w w' : only_gets w w' -> tally action w' = tally action w.
Proof.
  intros (_ & l & Hl & Hg). unfold tally. rewrite Hl, List.filter_app, length_app.
  replace (length (List.filter (is_action action) l)) with 0%nat; [done|]. clear Hl.
  induction l as [|r l IH]; [done|]. simpl in *. apply andb_true_iff in Hg as [Hr Hg]. destruct r; try done. by apply IH.
Qed.

Lemma http_gets url t : preserves only_gets (bounded_http url t).
Proof. intros w. split; [apply drifts_asked|]. by exists [Get url t]. Qed.
#[export] Hint Resolve http_gets : service.

Lemma check_public_health_gets s p h t v m : preserves only_gets (check_public_health s p h t v m).
Proof. unfold check_public_health. preserving. Qed.

(** ** Stepping through calls that cannot raise *)

Lemma attempted_cases {A} (m : Svc A) w : exists o w', attempted m w = (Ok o, w') /\ w' = (m w).2
  /\ (forall a, o = Some a <-> (m w).1 = Ok a).
Proof.
  unfold attempted, catch, mbind, M_bind. destruct (m w) as [[a|e] w1]; simpl; eexists _, _; split_and!; try done;
    naive_solver.
Qed.

Lemma out_of_time_runs hd w : exists b w', out_of_time hd w = (Ok b, w') /\ drifts w w'
  /\ w_requests w' = w_requests w.
Proof.
  destruct hd as [d|]; simpl; [|by exists false, w].
  eexists _, _. split; [reflexivity|]. split; [apply drifts_monotonic|done].
Qed.

Lemma bounded_by_runs hd t w : exists z w', bounded_by hd t w = (Ok z, w') /\ drifts w w'
  /\ w_requests w' = w_requests w.
Proof.
  destruct hd as [d|]; simpl; [|by exists t, w].
  eexists _, _. split; [reflexivity|]. split; [apply drifts_monotonic|done].
Qed.

Section Watch.
Context (health_args : dict) (version : Z) (candidate : string * string) (hd : option Z) (ht pi : Z)
  (check : Svc bool) (check_gets : preserves only_gets check).

Abbreviation watching := (watch call_helper sleep health_args version candidate hd ht pi (Some check)).

(** A candidate settled: its last health observation, then the route *)
Definition settled (w : World) (d : DeploymentResult) (w' : World) : Prop :=
  dr_nomad_version d = version
  /\ exists w1 t observation, drifts w w1
       /\ w_helper w (Helper "app.health" health_args t :: w_requests w1) = Ok observation
       /\ refs_get "healthy" observation = JBool true /\ exact_health observation version candidate = true
       /\ check (asked (Helper "app.health" health_args t) w1) = (Ok true, w').

Definition watched (n : nat) (num : Z) (w : World) (r : result observed) (w' : World) : Prop :=
  drifts w w' /\ (tally "app.health" w' <= tally "app.health" w + n)%nat
  /\ (forall a, a <> "app.health"%string -> tally a w' = tally a w)
  /\ match r with
     | Ok (Settled d) => num <= dr_observations d < num + Z.of_nat n /\ settled w d w'
     | Ok (Unhealthy _ _) => True
     | Raise _ => False
     end.

Lemma same_tally a w w' : w_requests w' = w_requests w -> tally a w' = tally a w.
Proof. unfold tally. by intros ->. Qed.

Lemma tally_asked a r w : tally a (asked r w) = ((if is_action a r then 1 else 0) + tally a w)%nat.
Proof. unfold tally. simpl. by destruct (is_action a r). Qed.

(** Giving up after at most one more observation *)
Lemma watched_end n num s p w w' : drifts w w' -> (tally "app.health" w' <= S (tally "app.health" w))%nat ->
  (forall a, a <> "app.health"%string -> tally a w' = tally a w) -> watched (S n) num w (Ok (Unhealthy s p)) w'.
Proof. intros H1 H2 H3. split_and!; [done|lia|done|done]. Qed.

Lemma watched_later n num w w1 r w' : drifts w w1 -> (tally "app.health" w1 <= S (tally "app.health" w))%nat ->
  (forall a, a <> "app.health"%string -> tally a w1 = tally a w) ->
  watched n (num + 1) w1 r w' -> watched (S n) num w r w'.
Proof.
  intros H1 H2 H3 (K1 & K2 & K3 & K4). split_and!; [by etransitivity|lia|intros a Ha; by rewrite K3, H3|].
  destruct r as [[d|]|]; try done. destruct K4 as (Hd & Hv & u & t & o & Hu & Ho). split; [lia|].
  split; [done|]. exists u, t, o. split; [by etransitivity|].
  by rewrite <- (follows_helper _ _ (drifts_follows _ _ H1)).
Qed.

(** One observation of the loop; [rest] is its continuation. *)
Definition observe (rest : dict -> Svc observed) (otherwise : Svc observed) : Svc observed :=
  over ← out_of_time hd;
  if over : bool then otherwise else
  answer ← attempted (timeout ← bounded_by hd ht; call_helper "app.health" health_args timeout);
  match answer with None => otherwise | Some observation => rest observation end.

Lemma observe_cases rest otherwise w : exists w1, drifts w w1
  /\ (tally "app.health" w1 <= S (tally "app.health" w))%nat
  /\ (forall a, a <> "app.health"%string -> tally a w1 = tally a w)
  /\ (observe rest otherwise w = otherwise w1
      \/ exists w0 t observation, drifts w w0 /\ w1 = asked (Helper "app.health" health_args t) w0
           /\ w_helper w (Helper "app.health" health_args t :: w_requests w0) = Ok observation
           /\ observe rest otherwise w = rest observation w1).
Proof.
  destruct (out_of_time_runs hd w) as (over & w1 & E & D1 & R1).
  assert (T1 : forall a, tally a w1 = tally a w) by (intros a; by apply same_tally).
  assert (Eo : observe rest otherwise w = if over then otherwise w1 else
    (answer ← attempted (timeout ← bounded_by hd ht; call_helper "app.health" health_args timeout);
     match answer with None => otherwise | Some observation => rest observation end) w1).
  { unfold observe. rewrite (bind_eq _ _ _ _ _ E). by destruct over. }
  destruct over; [exists w1; split_and!; [done|rewrite T1; lia|done|by left]|].
  destruct (bounded_by_runs hd ht w1) as (t & w2 & E2 & D2 & R2).
  assert (Em : (timeout ← bounded_by hd ht; call_helper "app.health" health_args timeout) w1
    = call_helper "app.health" health_args t w2) by by rewrite (bind_eq _ _ _ _ _ E2).
  destruct (attempted_cases (timeout ← bounded_by hd ht; call_helper "app.health" health_args timeout) w1)
    as (o & w3 & E3 & -> & Ho). rewrite (bind_eq _ _ _ _ _ E3), Em in Eo. rewrite Em in Ho.
  unfold call_helper in Eo, Ho. cbn [fst snd] in Eo, Ho. set (req := Helper "app.health" health_args t) in *.
  exists (asked req w2). assert (D3 : drifts w w2) by by etransitivity.
  assert (T3 : forall a, tally a (asked req w2) = ((if is_action a req then 1 else 0) + tally a w)%nat).
  { intros a. rewrite tally_asked, <- T1. f_equal. by apply same_tally. }
  split_and!; [etransitivity; [exact D3|apply drifts_asked]|rewrite T3; simpl; lia| |].
  - intros a Ha. rewrite T3. unfold req, is_action. destruct (String.eqb_spec "app.health" a); [congruence|done].
  - destruct o as [obs|]; [right|by left]. exists w2, t, obs. split_and!; [done|done| |done].
    rewrite <- (follows_helper _ _ (drifts_follows _ _ D3)). by apply Ho.
Qed.

(** After an observation *)
Definition conclude (n : nat) (num : Z) (scheduler public : option bool) (observation : dict) : Svc observed :=
  match refs_get "healthy" observation, refs_get "terminal" observation with
  | JBool healthy, JBool terminal =>
      if negb (exact_health observation version candidate) then mret (Unhealthy scheduler public) else
      public ← (if healthy then b ← attempted check; mret (Some (default false b)) else mret public : Svc (option bool));
      if healthy && default false public then
        mret (Settled {| dr_nomad_version := version; dr_observations := num |})
      else if terminal then mret (Unhealthy (Some healthy) public)
      else match n with
           | O => mret (Unhealthy (Some healthy) public)
           | S _ =>
               delay ← bounded_by hd pi;
               if delay <=? 0 then mret (Unhealthy (Some healthy) public)
               else _ ← sleep delay; watching n (num + 1) (Some healthy) public
           end
  | _, _ => mret (Unhealthy scheduler public)
  end.

Lemma watch_unfold n num s p : watching (S n) num s p = observe (conclude n num s p) (mret (Unhealthy s p)).
Proof. reflexivity. Qed.

(** Waiting, then the next observation *)
Lemma pause_ok n num healthy public w r w' :
  (forall num s p w r w', watching n num s p w = (r, w') -> watched n num w r w') ->
  match n with
  | O => mret (Unhealthy (Some healthy) public)
  | S _ =>
      delay ← bounded_by hd pi;
      if delay <=? 0 then mret (Unhealthy (Some healthy) public)
      else _ ← sleep delay; watching n (num + 1) (Some healthy) public
  end w = (r, w') -> watched n (num + 1) w r w'.
Proof.
  intros IH H. destruct n as [|n]; [injection H as <- <-; split_and!; [reflexivity|lia|done|done]|].
  destruct (bounded_by_runs hd pi w) as (delay & w1 & E & D1 & R1). rewrite (bind_eq _ _ _ _ _ E) in H.
  assert (T1 : forall a, tally a w1 = tally a w) by (intros a; by apply same_tally).
  destruct (delay <=? 0); [injection H as <- <-; split_and!; [done|rewrite T1; lia|done|done]|].
  apply IH in H as (D & T & Ta & Hr).
  assert (T2 : forall a, tally a (asked (Sleep delay) w1) = tally a w) by (intros a; rewrite tally_asked; apply T1).
  rewrite T2 in T. split_and!; [|done|intros a Ha; by rewrite Ta|].
  { etransitivity; [exact D1|]. etransitivity; [apply drifts_asked|exact D]. }
  destruct r as [[d|]|]; try done. destruct Hr as (Hd & Hv & u & t & o & Hu & Ho). split; [done|]. split; [done|].
  exists u, t, o. split; [etransitivity; [exact D1|]; etransitivity; [apply drifts_asked|exact Hu]|].
  by rewrite <- (follows_helper _ _ (drifts_follows _ _ D1)).
Qed.

Lemma watch_ok : forall n num s p w r w', watching n num s p w = (r, w') -> watched n num w r w'.
Proof.
  induction n as [|n IH]; intros num s p w r w' H.
  { injection H as <- <-. split_and!; [reflexivity|lia|done|done]. }
  rewrite watch_unfold in H.
  destruct (observe_cases (conclude n num s p) (mret (Unhealthy s p)) w) as (w1 & D & Th & Ta & Hc).
  pose proof (watched_end n num) as Hend.
  destruct Hc as [E|(w0 & t & obs & D0 & -> & Ho & E)]; rewrite E in H; clear E; [injection H as <- <-; by apply Hend|].
  unfold conclude in H.
  destruct (refs_get "healthy" obs) as [|healthy| | | |] eqn:Eh; try (injection H as <- <-; by apply Hend).
  destruct (refs_get "terminal" obs) as [|terminal| | | |]; try (injection H as <- <-; by apply Hend).
  destruct (exact_health obs version candidate) eqn:Ex; [cbn [negb] in H|injection H as <- <-; by apply Hend].
  set (w1 := asked _ w0) in *. destruct healthy.
  - destruct (attempted_cases check w1) as (o & w2 & E2 & Hw2 & Hchk).
    assert (G : only_gets w1 w2) by (rewrite Hw2; apply check_gets).
    assert (D2 : drifts w w2) by (etransitivity; [exact D|apply G]).
    assert (T2 : forall a, tally a w2 = tally a w1) by (intros a; by apply only_gets_tally).
    rewrite (bind_eq _ _ _ (Some (default false o)) w2) in H; [|by rewrite (bind_eq _ _ _ _ _ E2)].
    destruct o as [[|]|]; cbn [default andb] in H.
    { injection H as <- <-. split_and!; [done|rewrite T2; lia|intros a ?; rewrite T2; by apply Ta|simpl; lia|simpl; lia|split; [done|]].
      exists w0, t, obs. split_and!; try done. rewrite (surjective_pairing (check _)). fold w1.
      rewrite <- Hw2. f_equal. by apply Hchk. }
    all: destruct terminal; [injection H as <- <-; apply Hend; [done|by rewrite T2|intros a ?; rewrite T2; by apply Ta]|].
    all: eapply watched_later; [exact D2|by rewrite T2|intros a ?; rewrite T2; by apply Ta|exact (pause_ok _ _ _ _ _ _ _ IH H)].
  - cbn [andb] in H. destruct terminal; [injection H as <- <-; by apply Hend|].
    eapply watched_later; [exact D|done|done|exact (pause_ok _ _ _ _ _ _ _ IH H)].
Qed.
End Watch.

(** ** A rollout *)

Definition health_query (app_slug : string) (version : Z) (candidate : string * string) (job_id : string) : dict :=
  [("slug", JStr app_slug); ("version", JInt version); ("candidateJobSha256", JStr candidate.1);
   ("candidateImage", JStr candidate.2); ("jobId", JStr job_id)].

Definition removal (app_slug : string) (candidate : string * string) (job_id : string) : dict :=
  [("slug", JStr app_slug); ("jobId", JStr job_id); ("candidateJobSha256", JStr candidate.1);
   ("candidateImage", JStr candidate.2)].

Definition shows_absent (answer : result dict) : bool :=
  match answer with Ok d => is_true (refs_get "jobAbsent" d) | Raise _ => false end.

(** The last thing [w'] asked was to remove the candidate, and [cleaned] is
    what the answer showed. *)
Definition removed_last (w : World) (app_slug : string) (candidate : string * string) (job_id : string)
    (cleaned : bool) (w' : World) : Prop :=
  exists t earlier, w_requests w' = Helper "app.remove" (removal app_slug candidate job_id) t :: earlier
    /\ cleaned = shows_absent (w_helper w (w_requests w')).

Lemma remove_candidate_ok s id c t sch pub w r w' : remove_candidate call_helper s id c t sch pub w = (r, w') ->
  drifts w w' /\ tally "app.health" w' = tally "app.health" w
  /\ tally "app.remove" w' = S (tally "app.remove" w)
  /\ exists cleaned startup, r = Raise (DeploymentFailed cleaned startup) /\ removed_last w s c id cleaned w'.
Proof.
  unfold remove_candidate. set (sa := [("slug", JStr s); ("jobId", JStr id); ("lines", JInt STARTUP_LINES)]).
  set (ra := [("slug", JStr s); ("jobId", JStr id); ("candidateJobSha256", JStr c.1); ("candidateImage", JStr c.2)]).
  destruct (attempted_cases (call_helper "app.startup" sa t) w) as (o & w1 & E1 & Hw1 & _).
  rewrite (bind_eq _ _ _ _ _ E1).
  destruct (attempted_cases (call_helper "app.remove" ra t) w1) as (o2 & w2 & E2 & Hw2 & Ho2).
  cbv zeta. rewrite (bind_eq _ _ _ _ _ E2). intros [= <- <-]. simpl in Hw1, Hw2, Ho2. subst w1 w2.
  split_and!; [etransitivity; apply drifts_asked|by rewrite !tally_asked|by rewrite !tally_asked|].
  eexists _, _. split; [reflexivity|]. exists t. eexists. split; [reflexivity|].
  simpl. destruct o2 as [d|].
  - assert (Hd : w_helper w (Helper "app.remove" ra t :: Helper "app.startup" sa t :: w_requests w) = Ok d) by (by apply Ho2).
    by rewrite Hd.
  - destruct (w_helper w _) as [d|e] eqn:Ew; [|done]. assert (None = Some d) by (by apply Ho2). done.
Qed.

Lemma bounded_text_same n s t : bounded_text n (JStr s) = Ok t -> t = s.
Proof. unfold bounded_text. destruct (contains _ s); [done|]. destruct (_ <? _); [done|]. by intros [= ->]. Qed.

(** The answer to the submission names the candidate, and version [v] of it. *)
Definition confirms (candidate : string * string) (job_id : string) (v : Z) (answer : result dict) : Prop :=
  exists d, answer = Ok d /\ text_is (refs_get "jobId" d) job_id = true
    /\ refs_get "nomadVersion" d = JInt v /\ 0 <= v
    /\ text_is (refs_get "candidateJobSha256" d) candidate.1 && text_is (refs_get "candidateImage" d) candidate.2 = true.

Definition submission (app_slug nomad_job : string) (t : Z) : Request :=
  Helper "app.deploy" [("slug", JStr app_slug); ("job", JStr nomad_job)] t.

(** The job was the first thing to be submitted, and the answer confirmed it. *)
Definition submitted (app_slug nomad_job : string) (candidate : string * string) (job_id : string) (v : Z) (w w' : World) : Prop :=
  exists l t, w_requests w' = l ++ submission app_slug nomad_job t :: w_requests w
    /\ confirms candidate job_id v (w_helper w (submission app_slug nomad_job t :: w_requests w)).

(** The job was the only thing to be submitted, and no answer confirmed it. *)
Definition unconfirmed (app_slug nomad_job : string) (candidate : string * string) (job_id : string) (w w' : World) : Prop :=
  exists t, w_requests w' = submission app_slug nomad_job t :: w_requests w
    /\ forall v, ~ confirms candidate job_id v (w_helper w (w_requests w')).

(** How a rollout of [nomad_job] ends *)
Definition rolled_out (application_slug nomad_job : string) (b : Bounds) (check : Svc bool) (w : World)
    (r : result DeploymentResult) (w' : World) : Prop :=
  drifts w w'
  /\ (tally "app.health" w' <= tally "app.health" w + Z.to_nat (bo_attempts b))%nat
  /\ match r with
     | Ok d => exists app_slug candidate job_id w1,
         slug application_slug = Ok app_slug /\ nomad_candidate_identity nomad_job = Ok candidate
         /\ nomad_job_id nomad_job app_slug = Ok job_id
         /\ submitted app_slug nomad_job candidate job_id (dr_nomad_version d) w w'
         /\ drifts w w1 /\ settled (health_query app_slug (dr_nomad_version d) candidate job_id)
                             (dr_nomad_version d) candidate check w1 d w'
         /\ 1 <= dr_observations d <= bo_attempts b /\ tally "app.remove" w' = tally "app.remove" w
     | Raise e =>
         w_requests w' = w_requests w
         \/ (exists app_slug candidate job_id,
              slug application_slug = Ok app_slug /\ nomad_candidate_identity nomad_job = Ok candidate
              /\ nomad_job_id nomad_job app_slug = Ok job_id
              /\ unconfirmed app_slug nomad_job candidate job_id w w')
         \/ exists app_slug candidate job_id v cleaned startup, e = DeploymentFailed cleaned startup
              /\ slug application_slug = Ok app_slug /\ nomad_candidate_identity nomad_job = Ok candidate
              /\ nomad_job_id nomad_job app_slug = Ok job_id
              /\ submitted app_slug nomad_job candidate job_id v w w'
              /\ removed_last w app_slug candidate job_id cleaned w'
              /\ tally "app.remove" w' = S (tally "app.remove" w)
     end.

Ltac refusal := split_and!; [reflexivity|lia|by left].

Lemma rolled_out_ok application_slug nomad_job b check w r w' : preserves only_gets check ->
  deploy_and_cleanup call_helper sleep application_slug nomad_job b (Some check) w = (r, w') ->
  rolled_out application_slug nomad_job b check w r w'.
Proof.
  intros Hcheck H. unfold deploy_and_cleanup in H. unfold rolled_out.
  pass H as (s & Hs & H) by refusal. pass H as (j & ->%bounded_text_same & H) by refusal.
  pass H as (Hb & H) by refusal. pass H as (_ & H) by refusal. pass H as (_ & H) by refusal.
  pass H as (cand & Hc & H) by refusal. pass H as (id & Hid & H) by refusal.
  set (req := Helper "app.deploy" [("slug", JStr s); ("job", JStr nomad_job)] (bo_helper_timeout b)).
  set (w1 := asked req w). assert (D1 : drifts w w1) by apply drifts_asked.
  assert (T1 : forall a, a <> "app.deploy"%string -> tally a w1 = tally a w).
  { intros a Ha. unfold w1. rewrite tally_asked. unfold req, is_action. destruct (String.eqb_spec "app.deploy" a); [congruence|done]. }
  assert (Refused : (forall v, ~ confirms cand id v (w_helper w (req :: w_requests w))) ->
            forall e w2, w2 = w1 -> rolled_out application_slug nomad_job b check w (Raise e) w2).
  { intros N e w2 ->. split_and!; [done|rewrite T1; [lia|done]|right; left]. exists s, cand, id. split_and!; [done..|].
    exists (bo_helper_timeout b). by split. }
  apply any_step in H as [(e & -> & H)|(deployed & w1' & H1 & H)].
  { injection H as He <-. fold req in He. apply Refused; [|done]. intros v (d & Hd & _). by rewrite Hd in He. }
  injection H1 as H1 <-. fold req in H1, H. fold w1 in H.
  assert (Other : (forall v, ~ confirms cand id v (Ok deployed)) -> forall e, rolled_out application_slug nomad_job b check w (Raise e) w1).
  { intros N e. apply Refused; [|done]. by rewrite H1. }
  apply require_step in H as [(Hf & -> & ->)|(Hjob & H)].
  { apply Other. intros v (d & [= ->] & Hj & _). congruence. }
  apply lift_step in H as [(e & He & -> & ->)|(version & Hv & H)].
  { apply Other. intros v (d & [= ->] & _ & Hn & Hv & _). rewrite Hn in He. by destruct (Z.ltb_spec v 0); [lia|]. }
  apply require_step in H as [(Hf & -> & ->)|(Hcand & H)].
  { apply Other. intros v (d & [= ->] & _ & _ & _ & Hj). congruence. }
  assert (Hsub : forall w3, follows w1 w3 -> submitted s nomad_job cand id version w w3).
  { intros w3 [_ _ _ _ _ _ _ [l Hl]]. exists l, (bo_helper_timeout b). split; [exact Hl|]. exists deployed. split_and!; [done|done|..|done];
      destruct (refs_get "nomadVersion" deployed); try done; destruct (Z.ltb_spec z 0); try done; by injection Hv as <-. }
  apply any_step in H as [(e & -> & H)|(hd & w2 & H2 & H)].
  { destruct (bo_observe b); [|done]. unfold mbind, M_bind in H. done. }
  assert (D12 : drifts w1 w2 /\ w_requests w2 = w_requests w1).
  { destruct (bo_observe b); [|injection H2 as _ <-; by split].
    apply bind_ok in H2 as (now & w3 & H3 & H2). injection H2 as _ <-. injection H3 as _ <-.
    split; [|done]. apply drifts_monotonic. }
  destruct D12 as [D12 R2]. assert (D2 : drifts w w2) by (by etransitivity).
  assert (T2 : forall a, a <> "app.deploy"%string -> tally a w2 = tally a w).
  { intros a Ha. rewrite <- T1 by done. by apply same_tally. }
  apply any_step in H as [(e & -> & H)|(o & w3 & H3 & H)].
  { apply (watch_ok _ _ _ _ _ _ _ Hcheck) in H as (_ & _ & _ & []). }
  apply (watch_ok _ _ _ _ _ _ _ Hcheck) in H3 as (D3 & Th & Ta & Ho).
  assert (D : drifts w w3) by (by etransitivity).
  assert (Th' : (tally "app.health" w3 <= tally "app.health" w + Z.to_nat (bo_attempts b))%nat).
  { rewrite <- (T2 "app.health"%string) by done. exact Th. }
  assert (Tr : tally "app.remove" w3 = tally "app.remove" w) by by rewrite Ta, T2.
  destruct o as [d|sch pub].
  - injection H as <- <-. destruct Ho as [Hd Ho]. split_and!; [done|done|].
    exists s, cand, id, w2. apply andb_true_iff in Hb as [[[Hb1 Hb2]%andb_true_iff _]%andb_true_iff _].
    apply Z.leb_le in Hb1. rewrite Z2Nat.id in Hd by lia. pose proof (proj1 Ho) as Hn. rewrite Hn.
    split_and!; [done|done|done| |done|exact Ho|lia|lia|done]. apply Hsub.
    exact (transitivity (drifts_follows _ _ D12) (drifts_follows _ _ D3)).
  - apply remove_candidate_ok in H as (D4 & T4 & T5 & cleaned & st & -> & Hl).
    split_and!; [by etransitivity|by rewrite T4|right; right]. exists s, cand, id, version, cleaned, st.
    split_and!; [done|done|done|done|apply Hsub, drifts_follows; by do 2 (etransitivity; [eassumption|])| |by rewrite T5, Tr].
    destruct Hl as (t & l & Hl & Hcl). exists t, l. split; [done|].
    by rewrite <- (follows_helper _ _ (drifts_follows _ _ D)).
Qed.

(** ** The gate of acceptance *)

Definition same_operations (d d' : Db) : Prop := operations d' = operations d.
#[export] Instance same_operations_preorder : PreOrder same_operations.
Proof. unfold same_operations. split; [done|]. intros x y z Hxy Hyz. congruence. Qed.

Lemma put_application_operations a n w : evolves same_operations (put_application a n w).
Proof. unfold put_application. evolve; done. Qed.

Lemma checkpoint_operations i s e n w : evolves same_operations (checkpoint_deployment_attempt i s e n w).
Proof.
  unfold checkpoint_deployment_attempt, incomplete_evidence. evolve; done.
Qed.

Lemma finishing_same_apps i w : evolves same_apps (mark_operation_finishing i w).
Proof. unfold mark_operation_finishing. evolve; done. Qed.

(** The deployment [i] is its application's, with the accepted job. *)
Definition accepted_in (d : Db) (i : string) (a : DeploymentAcceptance) (hash image : string) : Prop :=
  exists row active, List.find (attempt_is i) (deployment_attempts d) = Some row
    /\ at_st row = a_succeeded /\ at_image_digest row = Some image /\ at_nomad_job row = Some (da_nomad_job a)
    /\ at_nomad_job_sha256 row = Some hash /\ at_nomad_version row = Some (da_nomad_version a)
    /\ at_recipe_hash row = Some (da_recipe_hash a) /\ at_build_log_path row = Some (da_build_log_path a)
    /\ List.find (active_of (at_application_id row)) (active_deployments d) = Some active
    /\ ac_deployment_id active = i /\ ac_lifecycle_state active = l_running.

(** The application's row has the accepted placement and sizing. *)
Definition placed_in (d : Db) (identifier app_slug : string) (a : DeploymentAcceptance) : Prop :=
  exists row, List.find (app_is identifier) (applications d) = Some row
    /\ Schema.app_slug row = app_slug /\ app_repository_url row = Some (da_repository a)
    /\ app_desired_running row = true /\ app_url row = Some (da_public_url a)
    /\ app_worker_server_id row = Some (da_worker_server_id a) /\ app_worker_server_name row = Some (da_worker_server_name a)
    /\ app_worker_port_id row = Some (da_worker_port_id a) /\ app_worker_port_name row = Some (da_worker_port_name a)
    /\ app_worker_flavor row = da_worker_flavor a /\ app_scheduler_cpu_mhz row = da_cpu_mhz a
    /\ app_scheduler_memory_mib row = da_memory_mib a.

Definition operation_at (i : string) (d : Db) : option Operation :=
  List.find (fun r => String.eqb (op_operation_id r) i) (operations d).

Lemma finishing_marked i c u c' o : mark_operation_finishing i true c = (Ok u, c') ->
  operation_at i (store c) = Some o -> exists o', operation_at i (store c') = Some o' /\ op_finishing o' = true.
Proof.
  unfold mark_operation_finishing, acceptance_write. destruct (in_transaction c); [|done]. intros H Ho.
  apply bind_ok in H as (op & c1 & [Hop ->]%reads_ok & H); [|auto with reads].
  destruct op as [op|]; [|done]. destruct (one_of_words _ _); [|done].
  apply bind_ok in H as (n & c2 & (-> & _)%update_ok & H). apply bind_ok in H as (m & c3 & (-> & _)%update_ok & H).
  injection H as _ <-. unfold operation_at in *. simpl. rewrite find_updated by done. rewrite Ho. simpl.
  eexists. split; [reflexivity|]. apply find_some_in in Ho as [_ Ho]. by rewrite Ho.
Qed.

Lemma slug_same s t : slug (JStr s) = Ok t -> t = s.
Proof. intros H. by apply slug_ok in H as [[= ->] _]. Qed.

Lemma find_upsert {R} `{Table Db R} p r f c u c' : p r = true -> (forall x, p (f x) = p x) -> upsert p r f c = (Ok u, c') ->
  exists t, store c' = put_rows t (store c) /\ (List.find p t = Some r \/ exists x, List.find p t = Some (f x)).
Proof.
  unfold upsert. intros Hp Hf. destruct (existsb _ _) eqn:E.
  - intros H0. apply bind_ok in H0 as (n & c1 & (-> & _)%update_ok & H1). injection H1 as _ <-. eexists. split; [reflexivity|right].
    rewrite find_updated by done. apply existsb_exists in E as (x & Hx & Hpx). destruct (List.find p _) as [y|] eqn:F.
    + exists y. apply find_some_in in F as [_ Hy]. simpl. by rewrite Hy.
    + apply (find_none_in _ _ _ F) in Hx. congruence.
  - intros [-> _]%insert_ok. eexists. split; [reflexivity|left]. apply find_app_some; [|done].
    destruct (List.find p _) as [x|] eqn:F; [|done]. apply find_some_in in F as [Hx Hpx].
    assert (existsb p (rows (store c)) = true); [|congruence]. apply existsb_exists. eauto.
Qed.

(** Placing an application writes the row that is asked for. *)
Lemma put_application_row a n w c u c' : put_application a n w c = (Ok u, c') ->
  exists now, List.find (app_is (in_application_id a)) (applications (store c')) = Some (input_row a now)
    \/ exists x, List.find (app_is (in_application_id a)) (applications (store c')) = Some (input_update a now x).
Proof.
  unfold put_application. intros H.
  apply bind_ok in H as (i & c1 & [->%uuid_same ->]%lift_ok & H). apply bind_ok in H as (s & c0 & [_ ->]%lift_ok & H).
  do 3 (apply bind_ok in H as (? & ? & _ & H)). apply bind_ok in H as (now & c2 & _ & H).
  apply acceptance_ok in H as (c3 & c4 & H & _ & ->). apply bind_ok in H as (tomb & c5 & _ & H).
  destruct tomb; [done|]. apply bind_ok in H as (old & c6 & _ & H).
  apply bind_ok in H as (? & c7 & _ & H). apply bind_ok in H as (? & c8 & Hup & H).
  apply bind_ok in H as (? & c9 & Hrev & H). apply bind_ok in H as (? & c10 & Hact & H). injection H as _ <-.
  apply update_ok in Hact as (-> & _). apply (find_upsert (app_is (in_application_id a))) in Hup as (t & E & Ht); [|apply String.eqb_refl|done].
  assert (Ha : applications (store c9) = t).
  { apply insert_or_ignore_ok in Hrev as [->|[-> _]]; by rewrite E. }
  simpl. rewrite Ha. exists now. destruct Ht as [Ht|[y Ht]]; [by left|right; by exists y].
Qed.

Definition same_applications (d d' : Db) : Prop := applications d' = applications d.
#[export] Instance same_applications_preorder : PreOrder same_applications.
Proof. unfold same_applications. split; [done|]. intros x y z Hxy Hyz. congruence. Qed.

Lemma finishing_same_applications i w : evolves same_applications (mark_operation_finishing i w).
Proof. unfold mark_operation_finishing. evolve; done. Qed.

Lemma placed_row i s a now row d : List.find (app_is i) (applications d) = Some row ->
  (row = input_row (acceptance_input a i s) now \/ exists x, row = input_update (acceptance_input a i s) now x) -> placed_in d i s a.
Proof. intros H [->|[x ->]]; eexists; split; try exact H; done. Qed.

Lemma placed_running p now d d' i s a : applications d' = apply_where p (set_running now) (applications d) ->
  placed_in d i s a -> placed_in d' i s a.
Proof.
  intros E (row & H & K). unfold placed_in. rewrite E, find_updated by done. rewrite H. eexists. split; [reflexivity|].
  destruct (p row); [|exact K]. by destruct K as (? & ? & ? & ? & ? & ? & ? & ? & ? & ? & ?).
Qed.

Lemma placed_same d d' i s a : same_applications d d' -> placed_in d i s a -> placed_in d' i s a.
Proof. unfold placed_in. by intros ->. Qed.

Lemma accept_transaction_ok a i s hash image c u c' : accept_transaction a i s hash image c = (Ok u, c') ->
  accepted_in (store c') (da_deployment_id a) a hash image /\ placed_in (store c') i s a
  /\ forall o, operation_at (da_deployment_id a) (store c) = Some o -> op_kind o = "app.deploy"%string ->
       exists o', operation_at (da_deployment_id a) (store c') = Some o' /\ op_finishing o' = true.
Proof.
  unfold accept_transaction. intros (c1 & H & -> & _)%transaction_ok. cbn [store with_transaction].
  set (c0 := with_transaction true c) in *.
  apply bind_ok in H as (? & c2 & H1 & H). apply bind_ok in H as (? & c3 & H2 & H).
  apply bind_ok in H as (op & c4 & [Hop ->]%reads_ok & H); [|auto with reads].
  pose proof (put_application_operations (acceptance_input a i s) None true c0) as O1. rewrite H1 in O1.
  pose proof (checkpoint_operations (da_deployment_id a) "succeeded" (acceptance_evidence a hash image) None true c2) as O2.
  rewrite H2 in O2. unfold same_operations in O1, O2. simpl in O1, O2.
  assert (Hf : same_apps (store c3) (store c1)).
  { destruct op as [o|]; [destruct (String.eqb _ _)|]; try (injection H as _ <-; reflexivity).
    pose proof (finishing_same_apps (op_operation_id o) true c3) as Hs. by rewrite H in Hs. }
  assert (Hp : same_applications (store c3) (store c1)).
  { destruct op as [o|]; [destruct (String.eqb _ _)|]; try (injection H as _ <-; reflexivity).
    pose proof (finishing_same_applications (op_operation_id o) true c3) as Hs. by rewrite H in Hs. }
  destruct Hf as (_ & _ & Hat & Hac). apply acceptance_store in H2 as (now & r0 & H0 & Hrow & _ & Hactive & Happs & Hfind).
  split_and!.
  - unfold accepted_in. rewrite Hat, Hac. eexists _, _. split; [exact Hfind|]. rewrite Hrow. simpl.
    split_and!; try done. all: exact Hactive || done.
  - apply (placed_same _ _ _ _ _ Hp), (placed_running _ _ _ _ _ _ _ Happs).
    apply put_application_row in H1 as [t [H1|[y H1]]]; eapply placed_row; [exact H1|by left|exact H1|right; by exists y].
  - intros o Ho Hk. rewrite peek_operation in Hop. injection Hop as Hop. unfold operation_at in *.
    rewrite O2, O1, Ho in Hop. subst op. rewrite Hk in H. change (String.eqb "app.deploy" "app.deploy") with true in H.
    cbv iota in H. apply find_some_in in Ho as Hid. destruct Hid as [_ Hid%String.eqb_eq]. rewrite Hid in H.
    eapply finishing_marked; [exact H|]. unfold operation_at. by rewrite O2, O1.
Qed.


(** C17. A rollout ends in one of four ways, after at most as many health
    observations as its bound says, and has then written nothing to the
    database.  It returns only when the answer to its submission of this job
    confirmed the candidate and its version, its last observation showed this
    version of exactly this candidate, current and healthy, and the route check
    after that observation succeeded; it then never asked to remove anything.  It
    raises having asked nothing, when an argument was refused.  It raises having
    asked only for the submission, when no answer confirmed the candidate: the
    job may then be running, and nothing was asked to remove it.  Or the
    submission was confirmed and it gives up: the removal of exactly this
    candidate is then the last thing it asked, and it asked for it once, and the
    error tells whether the answer showed the candidate absent. *)
Theorem rollout_outcome application_slug nomad_job b check w r w' (Hcheck : preserves only_gets check) :
  deploy_and_cleanup call_helper sleep application_slug nomad_job b (Some check) w = (r, w') ->
  rolled_out application_slug nomad_job b check w r w'.
Proof. by apply rolled_out_ok. Qed.

(** *** A healthy and an unhealthy candidate *)

Definition demo_marker : string := "0d9b6e9c-3f39-4c4e-9d0a-0f6a4a1f0b12".

Definition small_job : string :=
  let opening := job_opening "demo-app" in
  opening +:+ marker_block (sha256_hexdigest opening) demo_image demo_marker (concat_all (repeat "b" 40)) (sixty_four "c").

Definition identity_fields : dict :=
  [("jobId", JStr "demo-app"); ("candidateJobSha256", JStr (sha256_hexdigest (job_opening "demo-app")));
   ("candidateImage", JStr demo_image)].

(** The helper runs version 3; it is healthy, or not. *)
Definition demo_helper (healthy : bool) (l : list Request) : result dict :=
  match l with
  | Helper "app.deploy" _ _ :: _ => Ok (("nomadVersion", JInt 3) :: identity_fields)
  | Helper "app.health" _ _ :: _ =>
      Ok ([("version", JInt 3); ("currentVersion", JInt 3); ("allocations", JInt 1);
           ("healthy", JBool healthy); ("terminal", JBool false)] ++ identity_fields)
  | Helper "app.startup" _ _ :: _ => Ok [("found", JBool false)]
  | Helper "app.remove" _ _ :: _ => Ok [("jobAbsent", JBool true)]
  | _ => Raise (HelperError "unknown")
  end.

Definition demo_world (healthy : bool) (d : Db) : World := {|
  w_db := Conn d false (fun n => 1767225600000000 + Z.of_nat n) (fun _ => demo_marker) 0;
  w_others := fun _ d => d; w_steps := 0; w_monotonic := fun n => Z.of_nat n; w_readings := 0;
  w_helper := demo_helper healthy; w_command := fun _ => Raise CommandFailure;
  w_http := fun _ => Ok {| rs_status := 200; rs_headers := [(DEPLOYMENT_ROUTE_HEADER_LOWER, demo_marker)] |};
  w_lock := fun _ => true; w_requests := [] |}.

Definition demo_check : Svc bool := check_public_health "demo-app" demo_platform (JStr "/health") second false (JStr demo_marker).

Definition demo_bounds : Bounds := {|
  bo_attempts := 3; bo_poll_interval := second; bo_helper_timeout := 10 * second; bo_deadline := None;
  bo_cleanup_reserve := 0; bo_observe := None |}.

Definition demo_rollout (healthy : bool) := deploy_and_cleanup call_helper sleep "demo-app" small_job demo_bounds (Some demo_check) (demo_world healthy empty_db).

(** What a run returned, with a view of the world after it *)
Definition outcome {A B} (view : World -> B) (run : result A * World) : result A * B := (run.1, view run.2).

Lemma outcome_result {A B} (view : World -> B) (run : result A * World) r b : outcome view run = (r, b) -> run.1 = r.
Proof. by injection 1. Qed.

Lemma outcome_view {A B} (view : World -> B) (run : result A * World) r b : outcome view run = (r, b) -> view run.2 = b.
Proof. by injection 1. Qed.

Lemma rollout_outcome_witness :
  (demo_rollout true).1 = Ok {| dr_nomad_version := 3; dr_observations := 1 |}
  /\ outcome (fun w => length (w_requests w)) (demo_rollout false)
     = (Raise (DeploymentFailed true (Some [("found", JBool false);
         ("health", JObj [("schedulerHealthy", JBool false); ("publicHealthy", JNull)])])), 8%nat)
  /\ forall healthy, rolled_out "demo-app" small_job demo_bounds demo_check (demo_world healthy empty_db)
                       (demo_rollout healthy).1 (demo_rollout healthy).2.
Proof.
  split_and!; [vm_compute; reflexivity|vm_compute; reflexivity|]. intros healthy.
  apply rollout_outcome; [apply check_public_health_gets|]. apply surjective_pairing.
Defined.

(** *** Accepting *)

Lemma transaction_still {A} (m : DB A) c e c' : transaction m c = (Raise e, c') -> store c' = store c.
Proof. unfold transaction. destruct (in_transaction c); [|destruct (m _) as [[]]]; by intros [= <- <-]. Qed.

Lemma db_step {A} (m : DB A) w r w' : db m w = (r, w') -> m (w_db (interfere w)) = (r, w_db w').
Proof. unfold db. destruct (m _) as [x c] eqn:E. by intros [= <- <-]. Qed.

Lemma db_drifts {A} (m : DB A) w r w' : db m w = (r, w') -> store (w_db w') = store (w_db (interfere w)) -> drifts w w'.
Proof.
  intros H Hs. split; [pose proof (follows_db m w) as F; by rewrite H in F|]. rewrite Hs. unfold db in H.
  destruct (m _) as [x c]. injection H as _ <-. simpl. by replace (S (w_steps w) - w_steps w)%nat with 1%nat by lia.
Qed.

Definition health_query_of (a : DeploymentAcceptance) (app_slug job_id hash image : string) : dict :=
  [("slug", JStr app_slug); ("version", JInt (da_nomad_version a)); ("candidateJobSha256", JStr hash);
   ("candidateImage", JStr image); ("jobId", JStr job_id)].

(** The deployment's attempt is the application's, as read from [w1] to [w2]. *)
Definition attempt_read (a : DeploymentAcceptance) (w1 w2 : World) : Prop :=
  exists r, db (get_deployment_attempt (da_deployment_id a)) w1 = (Ok (Some r), w2)
    /\ at_application_id (attempt_row r) = da_application_id a.

(** The evidence an acceptance has seen, up to the world [w1] *)
Definition confirmed (a : DeploymentAcceptance) (check : Svc bool) (timeout : Z) (w w1 : World) : Prop :=
  exists app_slug job_id observation,
    let query := Helper "app.health" (health_query_of a app_slug job_id (da_nomad_job_sha256 a) (da_image a)) timeout in
    slug (da_application_slug a) = Ok app_slug /\ nomad_job_id (da_nomad_job a) app_slug = Ok job_id
    /\ w_helper w (query :: w_requests w) = Ok observation
    /\ accepted_health observation (da_nomad_version a) (da_nomad_job_sha256 a) (da_image a) = true
    /\ check (asked query w) = (Ok true, w1).

(** The deployment is accepted in the transaction that starts in [c] and ends in [c']. *)
Definition acceptance_recorded (a : DeploymentAcceptance) (c c' : conn Db) : Prop :=
  accepted_in (store c') (da_deployment_id a) a (da_nomad_job_sha256 a) (da_image a)
  /\ placed_in (store c') (da_application_id a) (da_application_slug a) a
  /\ forall o, operation_at (da_deployment_id a) (store c) = Some o -> op_kind o = "app.deploy"%string ->
       exists o', operation_at (da_deployment_id a) (store c') = Some o' /\ op_finishing o' = true.

Lemma accept_healthy_cases a timeout check w r w' : preserves only_gets check ->
  accept_healthy_deployment call_helper a timeout check w = (r, w') ->
  match r with
  | Ok d => d = {| dr_nomad_version := da_nomad_version a; dr_observations := 1 |}
      /\ exists w1 w2, confirmed a check timeout w w1 /\ attempt_read a w1 w2 /\ drifts w1 w2
           /\ acceptance_recorded a (w_db (interfere w2)) (w_db w')
  | Raise e => drifts w w'
  end.
Proof.
  intros Hcheck H. unfold accept_healthy_deployment in H.
  pass H as (id & ->%uuid_same & H) by reflexivity. pass H as (s & Hs & H) by reflexivity. pose proof (slug_same _ _ Hs) as ->.
  pass H as (h & ([= <-] & _ & _)%sha256_hex_ok & H) by reflexivity.
  pass H as (i & [= <-]%oci_digest_pin_stable & H) by reflexivity.
  pass H as (j & Hj & H) by reflexivity. pass H as (_ & H) by reflexivity.
  set (query := Helper "app.health" (health_query_of a (da_application_slug a) j (da_nomad_job_sha256 a) (da_image a)) timeout). unfold health_query_of in query.
  apply any_step in H as [(e & -> & H)|(obs & w0 & H0 & H)]; [injection H as _ <-; apply drifts_asked|].
  injection H0 as Hobs <-. fold query in Hobs, H. assert (D0 : drifts w (asked query w)) by apply drifts_asked.
  apply require_step in H as [(_ & -> & ->)|(Hh & H)]; [exact D0|].
  pose proof (Hcheck (asked query w)) as [Dc _].
  apply any_step in H as [(e & -> & H)|(routed & w1 & H1 & H)].
  { unfold catch in H. destruct (check (asked query w)) as [[x|x] w1]; [done|]. injection H as _ <-. by etransitivity. }
  assert (H1' : check (asked query w) = (Ok routed, w1)).
  { unfold catch in H1. by destruct (check (asked query w)) as [[x|x] w1']. }
  rewrite H1' in Dc. assert (D1 : drifts w w1) by (by etransitivity).
  apply require_step in H as [(_ & -> & ->)|(-> & H)]; [exact D1|].
  assert (Dg : preserves drifts (db (get_deployment_attempt (da_deployment_id a)))).
  { apply drifts_db, still_reads. auto with reads. }
  specialize (Dg w1). apply any_step in H as [(e & -> & H)|(attempt & w2 & H2 & H)].
  { rewrite H in Dg. by etransitivity. }
  rewrite H2 in Dg. pose proof (PreOrder_Transitive _ _ _ D1 Dg : drifts w w2) as D2.
  apply require_step in H as [(_ & -> & ->)|(Hat & H)]; [exact D2|].
  assert (Ra : attempt_read a w1 w2).
  { destruct attempt as [x|]; [|done]. apply String.eqb_eq in Hat. by exists x. }
  apply any_step in H as [(e & -> & H)|(u & w3 & H3 & H)].
  { etransitivity; [exact D2|]. eapply db_drifts; [exact H|]. apply db_step in H. by apply transaction_still in H. }
  injection H as <- <-. split; [done|]. apply db_step, accept_transaction_ok in H3.
  exists w1, w2. split_and!; [|exact Ra|exact Dg|exact H3]. by exists (da_application_slug a), j, obs.
Qed.

(** C18. A healthy deployment is accepted only on the evidence the code asks for.
    [accept_healthy_deployment] returns only if the helper's answer to the query
    for exactly this version, job and image showed it current, healthy, not
    terminal and with one allocation, and the public route check then returned
    true, and the deployment's attempt was then read as the application's.  One
    transaction then writes it all: the application's row has the accepted
    placement and sizing, its worker, its port, its flavor, its address and its
    repository, and is wanted running; the deployment is its application's active
    one with the whole evidence of the acceptance, its recipe, its image, its
    job, the job's hash, its version and its build log; and its deployment
    operation has moved to the finishing lane.  If it raises, nothing was written: the database is the
    one the other threads left. *)
Theorem acceptance_gated a timeout check w r w' (Hcheck : preserves only_gets check) :
  accept_healthy_deployment call_helper a timeout check w = (r, w') ->
  match r with
  | Ok d => d = {| dr_nomad_version := da_nomad_version a; dr_observations := 1 |}
      /\ exists w1 w2, confirmed a check timeout w w1 /\ attempt_read a w1 w2 /\ drifts w1 w2
           /\ acceptance_recorded a (w_db (interfere w2)) (w_db w')
  | Raise e => drifts w w'
  end.
Proof. by apply accept_healthy_cases. Qed.

Definition demo_acceptance : DeploymentAcceptance := {|
  da_application_id := demo_id; da_application_slug := "demo-app"; da_repository := "https://github.com/o/demo-app";
  da_deployment_id := demo_other; da_worker_server_id := demo_id; da_worker_server_name := "worker";
  da_worker_port_id := demo_other; da_worker_port_name := "port"; da_worker_flavor := "example.1c2g";
  da_cpu_mhz := 1000; da_memory_mib := 2048; da_source_commit := demo_commit; da_recipe_hash := sixty_four "c";
  da_image := demo_image; da_nomad_job := small_job; da_nomad_job_sha256 := sha256_hexdigest (job_opening "demo-app");
  da_nomad_version := 3; da_health_path := "/"; da_application_port := 3000; da_build_log_path := "/log";
  da_public_url := "https://demo-app.apps.example.org" |}.

Definition deploying_db : Db := Eval vm_compute in store (after_app [Journal (Claim demo_id demo_digest None); PutApplication demo_app None;
             Journal (Begin demo_other "app.deploy" ("app-" +:+ demo_id) "validated" "2027-01-01T00:00:00Z" [] None);
             CreateAttempt demo_attempt None]).

Definition demo_acceptance_run (healthy : bool) :=
  accept_healthy_deployment call_helper demo_acceptance second demo_check (demo_world healthy deploying_db).

Lemma acceptance_gated_witness :
  (exists e, (demo_acceptance_run false).1 = Raise e)
  /\ drifts (demo_world false deploying_db) (demo_acceptance_run false).2
  /\ (exists o, operation_at demo_other deploying_db = Some o /\ op_kind o = "app.deploy"%string)
  /\ (demo_acceptance_run true).1 = Ok {| dr_nomad_version := 3; dr_observations := 1 |}
  /\ exists w1 w2, confirmed demo_acceptance demo_check second (demo_world true deploying_db) w1
       /\ attempt_read demo_acceptance w1 w2 /\ drifts w1 w2 /\ acceptance_recorded demo_acceptance (w_db (interfere w2)) (w_db (demo_acceptance_run true).2).
Proof.
  assert (E : exists e, (demo_acceptance_run false).1 = Raise e) by (eexists; vm_compute; reflexivity).
  assert (F : (demo_acceptance_run true).1 = Ok {| dr_nomad_version := 3; dr_observations := 1 |})
    by (vm_compute; reflexivity).
  pose proof (fun healthy r w' H => acceptance_gated demo_acceptance second demo_check
    (demo_world healthy deploying_db) r w' (check_public_health_gets _ _ _ _ _ _) H) as G.
  split; [exact E|]. split; [|split; [eexists; split; vm_compute; reflexivity|split; [exact F|]]].
  - destruct E as [e E]. apply (G false (Raise e) _). rewrite <- E. apply surjective_pairing.
  - refine (proj2 (G true (Ok {| dr_nomad_version := 3; dr_observations := 1 |}) _ _)). rewrite <- F. apply surjective_pairing.
Defined.
