(* ===== verification/StorageLimits.v ===== *)
(** * Storage limits and usage (src/openstack_platform/controller/storage_limits.py,
    the helper metadata of controller/storage_capacity.py)

    The accepted limits of a managed resource and its cached usage; changing the
    limits through the helper under a journaled operation, with the application's
    old job stopped before and redeployed after; repairing the PostgreSQL
    resources; and the collector that samples usage.

    A helper call takes the operation's deadline where those of Rollout.v take a
    timeout.  The collector's pool of threads is one visit after the other: each
    works on its own resource under its own application's lock. *)

From S2P Require Import Prelude Regex Json Clock Validation Runtime Sql Schema StorageCapacity Operations.
From S2P Require Import StorageContract Applications Resources NomadJobs Service Rollout.

(** ** Instants of ISO texts

    [datetime.fromisoformat] of the extended calendar form with a zone, which is
    what the helper writes; a text without a zone cannot be compared with the
    clock.  The library's other forms (week dates, no separators) are not read. *)
Definition two : re := Times 2 (Cls digit).
Definition colon : re := lit ":".
Definition iso_re : re := cats [
  Grp 1 (Times 4 (Cls digit)); lit "-"; Grp 2 two; lit "-"; Grp 3 two; lit "T";
  Grp 4 two; colon; Grp 5 two;
  Opt (cats [colon; Grp 6 two; Opt (cats [Cls (either (is_char ".") (is_char ",")); Grp 7 (Rep 1 (Some 6%nat) true (Cls digit)); Star (Cls digit)])]);
  Alt (Grp 8 (lit "Z")) (cats [Grp 9 (Cls (either (is_char "+") (is_char "-"))); Grp 10 two; colon; Grp 11 two; Opt (cats [colon; Grp 12 two])])].

Definition number_at (n : nat) (c : caps) : Z := default 0 (decimal <$> group n c).

Definition fraction (c : caps) : Z :=
  match group 7 c with Some t => decimal t * 10 ^ (6 - Z.of_nat (String.length t)) | None => 0 end.

Definition aware_instant (s : string) : option Z :=
  c ← fullmatch_groups iso_re s;
  let year := number_at 1 c in let month := number_at 2 c in let dom := number_at 3 c in
  let offset := number_at 10 c * 3600 + number_at 11 c * 60 + number_at 12 c in
  if (1 <=? year) && (1 <=? month) && (month <=? 12) && (1 <=? dom)
     && (dom <=? nth (Z.to_nat (month - 1)) (month_lengths year) 0)
     && (number_at 4 c <? 24) && (number_at 5 c <? 60) && (number_at 6 c <? 60)
     && (number_at 11 c <? 60) && (number_at 12 c <? 60) && (offset <? 86400)
  then Some ((days_before_year year + days_before_month year month + dom - 1) * day
             + (number_at 4 c * 3600 + number_at 5 c * 60 + number_at 6 c) * second + fraction c
             - (match group 9 c with Some "-"%string => - offset | _ => offset end) * second)
  else None.

Example instants : (t ← aware_instant "2026-03-01T10:00:05Z"; Some (utc_text t)) = Some "2026-03-01T10:00:05Z"%string
  /\ aware_instant "2026-03-01T10:00:05.5+01:30" = (fun t => t + second / 2) <$> aware_instant "2026-03-01T08:30:05Z"
  /\ aware_instant "2026-02-29T10:00:05Z" = None /\ aware_instant "2026-03-01T10:00:05" = None.
Proof. vm_compute. done. Qed.

(** ** The accepted limits and the cached usage of a resource *)

Definition LIMITS_KIND : string := "storage.limits.set".
Definition COLLECT_KIND : string := "storage.usage.collect".
Definition REPAIR_KIND : string := "storage.postgres.repair".
Definition COLLECT_SECONDS : Z := 300 * second.
Definition FAST_COLLECT_SECONDS : Z := 60 * second.
Definition STALE_SECONDS : Z := 900 * second.

(** [quotas(resource)] *)
Definition accepted_quotas (r : ManagedResource) : quotas :=
  if String.eqb (mr_resource_type r) "s3" then
    [("s3Bytes", or_z (mr_s3_bytes r) 0); ("s3Objects", or_z (mr_s3_objects r) 0)]
  else
    [("connections", or_z (mr_postgres_connections r) (or_z (mr_mongo_connections r) 10));
     ("sizeBytes", or_z (mr_measured_target_bytes r) 0);
     ("memoryBytes", or_z (mr_memory_bytes r) 536870912);
     ("cpuMillicores", or_z (mr_cpu_millicores r) 500)].

Definition quotas_value (target : quotas) : json := JObj (map (fun kv => (kv.1, JInt kv.2)) target).

Definition stale (measured_at : json) : DB bool :=
  match measured_at with
  | JStr s =>
      now ← datetime_now;
      mret (match aware_instant s with
            | Some t => (STALE_SECONDS <? now - t) || (now - t <? - (60 * second))
            | None => true
            end)
  | _ => mret true
  end.

Definition usage_fields : list string := ["usedBytes"; "objectCount"; "currentConnections"; "instanceMemoryBytes"; "cpuTimeMilliseconds"; "measuredAt"].

Definition usage_model (r : ManagedResource) : DB dict :=
  old ← stale (refs_get "measuredAt" (mr_usage r));
  mret (map (fun name => (name, refs_get name (mr_usage r))) usage_fields ++ [("stale", JBool old)]).

(** An [int]; Python's booleans are integers *)
Definition int_of (v : json) : option Z :=
  match v with JInt z => Some z | JBool b => Some (if b then 1 else 0) | _ => None end.

Definition safety_margin (resource_type : string) : Z := (if String.eqb resource_type "postgres" then 384 else 128) * MIB.

Definition validate_reduction (r : ManagedResource) (target : quotas) : DB unit :=
  if String.eqb (mr_resource_type r) "s3" then mret tt
  else match dict_get "sizeBytes" target with
  | None => raise KeyError
  | Some size =>
      if or_z (mr_measured_target_bytes r) 0 <=? size then mret tt
      else
        old ← stale (refs_get "measuredAt" (mr_usage r));
        match int_of (refs_get "usedBytes" (mr_usage r)) with
        | Some used =>
            if old : bool then raise (CapacityError "USAGE_NOT_FRESH")
            else require (used + safety_margin (mr_resource_type r) <=? size) (CapacityError "SIZE_BELOW_USAGE")
        | None => raise (CapacityError "USAGE_NOT_FRESH")
        end
  end.

Definition opt_text (o : option string) : json := match o with Some s => JStr s | None => JNull end.

Definition block_model (r : ManagedResource) : dict := [
  ("blocked", JBool (mr_write_blocked r));
  ("reason", if mr_write_blocked r then JStr "size_limit_exceeded" else JNull);
  ("since", opt_text (mr_blocked_since r))].

Definition host_model : DB (option dict) :=
  usage ← get_storage_host_usage;
  match usage with
  | None => mret None
  | Some u => old ← stale (refs_get "measuredAt" u); mret (Some (dict_set "stale" (JBool old) u))
  end.

Definition count_ok (name : string) (v : json) : bool :=
  match v with
  | JNull => negb (String.eqb name "usedBytes")
  | JInt z => 0 <=? z
  | _ => false
  end.

Definition invalid_evidence : error := ValidationError "storage usage evidence is invalid".

(** [_usage]: the usage and the write block of a helper's answer *)
Definition _usage (answer : dict) : DB (dict * bool) :=
  match refs_get "usage" answer, refs_get "writeBlocked" answer with
  | JObj value, JBool blocked =>
      _ ← require (same_keys value usage_fields) invalid_evidence;
      _ ← require (forallb (fun name => count_ok name (refs_get name value)) (take 5 usage_fields)) invalid_evidence;
      old ← stale (refs_get "measuredAt" value);
      _ ← require (negb old) (ValidationError "storage usage evidence is stale");
      mret (value, blocked)
  | _, _ => raise invalid_evidence
  end.

(** ** What the controller tells the helper about a resource *)

Definition reservations : DB json :=
  r ← gets (fun c => disk_reservations (store c));
  mret (JObj [("databaseBytes", JInt r.1); ("garageBytes", JInt r.2)]).

Definition record_item (key : string) (d : dict) : result json :=
  match dict_get key d with Some v => Ok v | None => Raise KeyError end.

Definition retained_worker (application_id : string) : DB json :=
  row ← fetchone (fun p : FixedPort => String.eqb (fp_application_id p) application_id);
  match row with
  | None => mret JNull
  | Some p =>
      mret (JObj [("slotId", opt_text (po_worker_slot_id (fp_record p)));
                  ("address", JStr (po_address (fp_record p)))])
  end.

Definition workload_job (application_id : string) : DB json :=
  application ← get_application application_id;
  deployment ← get_deployment application_id;
  match application, deployment with
  | Some a, Some d =>
      if app_desired_running a then j ← lift (nomad_job_id (de_nomad_job d) (app_slug a)); mret (JStr j) else mret JNull
  | _, _ => mret JNull
  end.

Definition staged_instance (r : ManagedResource) : json :=
  match mr_instance_id r, mr_migration_state r with
  | None, Some "aborted"%string => JStr (mr_resource_id r)
  | _, _ => JNull
  end.

Definition instance_quotas (r : ManagedResource) : json :=
  if String.eqb (mr_resource_type r) "s3" then JNull else quotas_value (accepted_quotas r).

Definition worker_ids (application_id : string) : result json :=
  ids ← deployment_worker_ids application_id;
  Ok (JArr [JStr application_id; JStr ids.1; JStr ids.2]).

Definition helper_metadata (application_id : string) (resource : option ManagedResource) : DB dict :=
  reserved ← reservations;
  job ← workload_job application_id;
  worker ← retained_worker application_id;
  ids ← lift (worker_ids application_id);
  let field f := match resource with Some r => f r | None => JNull end in
  mret [("resourceId", field (fun r => JStr (mr_resource_id r))); ("stagedInstanceId", field staged_instance);
        ("reservations", reserved); ("workloadJobId", job); ("retainedWorker", worker);
        ("instanceId", field (fun r => opt_text (mr_instance_id r))); ("instanceQuotas", field instance_quotas);
        ("workerIds", ids)].

(** ** The service *)

Section StorageLimitsService.
Context (helper_caller : Caller) (platform : PlatformConfig) (process_seconds helper_seconds : Z).

Definition _resource (identifier : string) : Svc ManagedResource :=
  row ← db (get_managed_resource identifier);
  match row with
  | None => raise (ValidationError "storage resource does not exist")
  | Some r => mret r
  end.

Definition _call (r : ManagedResource) (action : string) (deadline : Z) (target : option quotas)
    (operation_id : option string) (recovering : bool) : Svc dict :=
  application ← db (get_application (mr_application_id r));
  match application with
  | None => raise (ValidationError "application does not exist")
  | Some a =>
      reserved ← db reservations;
      job ← db (workload_job (mr_application_id r));
      worker ← db (retained_worker (mr_application_id r));
      ids ← lift (worker_ids (mr_application_id r));
      let args := [("applicationId", JStr (app_application_id a)); ("applicationSlug", JStr (app_slug a));
        ("resourceName", JStr (mr_resource_name r)); ("providerId", opt_text (mr_provider_id r));
        ("providerName", JStr (mr_provider_name r)); ("resourceId", JStr (mr_resource_id r));
        ("reservations", reserved); ("workloadJobId", job); ("retainedWorker", worker);
        ("instanceId", opt_text (mr_instance_id r)); ("stagedInstanceId", staged_instance r);
        ("instanceQuotas", instance_quotas r); ("workerIds", ids)] in
      let change := match target with
        | None => []
        | Some t => [("quotas", quotas_value t); ("operationId", opt_text operation_id); ("recover", JBool recovering)]
        end in
      helper_caller ("storage." +:+ mr_resource_type r +:+ "." +:+ action) (args ++ change) deadline
  end.

(** *** The application's job around a change *)

Definition quiesce_dns_job (application_id : string) (deadline : Z) : Svc unit :=
  deployment ← db (get_deployment application_id);
  application ← db (get_application application_id);
  match deployment, application with
  | Some d, Some a =>
      if negb (app_desired_running a) then mret tt else
      job ← lift (storage_hosts_job (de_nomad_job d) platform);
      if String.eqb job (de_nomad_job d) then mret tt else
      identity ← lift (nomad_candidate_identity (de_nomad_job d));
      job_id ← lift (nomad_job_id (de_nomad_job d) (app_slug a));
      result ← helper_caller "app.stop"
        [("slug", JStr (app_slug a)); ("jobId", JStr job_id); ("candidateJobSha256", JStr identity.1);
         ("candidateImage", JStr identity.2)] deadline;
      require (is_true (refs_get "jobStopped" result)) (ValidationError "DNS mapping quiescence was not confirmed")
  | _, _ => mret tt
  end.

Definition set_job (job hash : string) (version : Z) (r : DeploymentAttempt) : DeploymentAttempt := {|
  at_deployment_id := at_deployment_id r; at_application_id := at_application_id r; at_st := at_st r;
  at_source_commit := at_source_commit r; at_requested_ref := at_requested_ref r;
  at_configuration_revision := at_configuration_revision r; at_configuration_json := at_configuration_json r;
  at_configuration_sha256 := at_configuration_sha256 r; at_environment_revision := at_environment_revision r;
  at_idempotency_request_id := at_idempotency_request_id r; at_recipe_hash := at_recipe_hash r;
  at_image_digest := at_image_digest r; at_nomad_job := Some job; at_nomad_job_sha256 := Some hash;
  at_nomad_version := Some version; at_health_path := at_health_path r;
  at_application_port := at_application_port r; at_build_log_path := at_build_log_path r;
  at_safe_error := at_safe_error r; at_cleanup_state := at_cleanup_state r; at_requested_at := at_requested_at r;
  at_updated_at := at_updated_at r; at_accepted_at := at_accepted_at r; at_last_healthy_at := at_last_healthy_at r |}.

Definition prepare_dns_job (application_id : string) (deadline : Z) : Svc unit :=
  deployment ← db (get_deployment application_id);
  application ← db (get_application application_id);
  match deployment, application with
  | Some d, Some a =>
      job ← lift (storage_hosts_job (de_nomad_job d) platform);
      if String.eqb job (de_nomad_job d) then mret tt else
      version ← (if app_desired_running a then
          result ← helper_caller "app.deploy" [("slug", JStr (app_slug a)); ("job", JStr job)] deadline;
          match refs_get "nomadVersion" result with
          | JInt v => mret v
          | _ => raise (ValidationError "DNS mapping deployment was not confirmed")
          end
        else mret (de_nomad_version d) : Svc Z);
      db (transaction (
        identity ← lift (nomad_candidate_identity job);
        _ ← update (fun r => String.eqb (at_deployment_id r) (de_deployment_id d)) (set_job job identity.1 version);
        mret tt))
  | _, _ => mret tt
  end.

(** *** Changing the limits *)

Definition limits_intent (resource_id : string) (target : quotas) (expected : dict) : dict :=
  [("resource_id", JStr resource_id); ("quotas", quotas_value target); ("expected_quotas", JObj expected)].

(** The accepted limits are the given ones *)
Definition accepts (r : ManagedResource) (expected : json) : bool := py_eqb (quotas_value (accepted_quotas r)) expected.

(** Shared instances have connection limits of their own. *)
Definition migration_needed (r : ManagedResource) (target : quotas) : bool :=
  negb (String.eqb (mr_resource_type r) "s3") && bool_decide (mr_instance_id r = None)
  && let wanted := quota "connections" target in
     let accepted := quota "connections" (accepted_quotas r) in
     (accepted <? wanted) || String.eqb (mr_resource_type r) "mongo" && negb (wanted =? accepted).

(** The operation the change runs under, and whether it is an interrupted one *)
Definition limits_operation (r : ManagedResource) (resource_id : string) (target : quotas) (expected : dict)
    (request_id scope : string) (deadline : Z) : Svc (Operation * bool) :=
  let intent := limits_intent resource_id target expected in
  operation ← db (get_unfinished_operation scope);
  match operation with
  | Some o =>
      if negb (String.eqb (op_operation_id o) request_id) || negb (String.eqb (op_kind o) LIMITS_KIND)
         || existsb (fun kv => negb (py_eqb (refs_get kv.1 (op_refs o)) kv.2)) intent
      then raise (UnfinishedOperationError scope (op_operation_id o) (op_kind o))
      else
        at_ ← wall_deadline deadline;
        renewed ← db (renew_operation_deadline request_id at_ None);
        mret (renewed, true)
  | None =>
      _ ← db (validate_reduction r target);
      _ ← require (String.eqb (mr_lifecycle_state r) "active") (ValidationError "storage resource must be active");
      _ ← require (accepts r (JObj expected))
            (ValidationError "storage limits changed; read current limits and submit a new request");
      at_ ← wall_deadline deadline;
      begun ← db (begin_operation request_id LIMITS_KIND scope "validated" at_ intent None);
      mret (begun, false)
  end.

(** The helper changes the limits; its evidence is recorded. *)
Definition apply_limits (r : ManagedResource) (target : quotas) (intent : dict) (request_id : string)
    (recovering : bool) (deadline : Z) : Svc (json * json) :=
  _ ← db (checkpoint_operation request_id "applying" None false None None None);
  _ ← (if is_database (mr_resource_type r) then quiesce_dns_job (mr_application_id r) deadline else mret tt);
  result ← _call r "limits" deadline (Some target) (Some request_id) recovering;
  _ ← require (is_true (refs_get "applied" result)) (ValidationError "storage limit assignment was not confirmed");
  evidence ← db (_usage result);
  _ ← db (checkpoint_operation request_id "applied"
        (Some (dict_merge intent [("usage", JObj evidence.1); ("write_blocked", JBool evidence.2)])) false None None None);
  mret (JObj evidence.1, JBool evidence.2).

(** A recorded usage is an object, a recorded block a boolean. *)
Definition recorded_evidence (evidence : json * json) : result (dict * bool) :=
  match evidence with (JObj usage, JBool blocked) => Ok (usage, blocked) | _ => Raise TypeError end.

Definition reconcile_limits (r : ManagedResource) (o : Operation) (resource_id : string) (target : quotas) (expected : dict)
    (request_id : string) (recovering : bool) (deadline : Z) : Svc unit :=
  let applied := String.eqb (op_phase o) "applied" in
  _ ← require (one_of_words ["validated"; "applying"; "applied"] (op_phase o))
        (DatabaseError "storage limits recovery phase is invalid");
  _ ← require (accepts r (JObj expected) || applied && accepts r (quotas_value target))
        (DatabaseError "accepted storage limits changed during reconciliation");
  evidence ← (if applied then
      usage ← lift (record_item "usage" (op_refs o));
      blocked ← lift (record_item "write_blocked" (op_refs o));
      mret (usage, blocked)
    else apply_limits r target (limits_intent resource_id target expected) request_id recovering deadline);
  _ ← (if is_database (mr_resource_type r) then prepare_dns_job (mr_application_id r) deadline else mret tt);
  known ← lift (recorded_evidence evidence);
  _ ← db (put_storage_limits resource_id target known.1 known.2);
  _ ← db (mark_succeeded request_id "not_required" None);
  mret tt.

Definition reconciliation_needed : failure := Text "storage limit assignment requires reconciliation".

Definition select (resource_id : string) (target expected : json) (request_id : string) : Svc unit :=
  r ← _resource resource_id;
  target ← lift (validate_quotas (mr_resource_type r) target);
  expected ← lift (validate_expected_quotas (mr_resource_type r) expected);
  _ ← require (negb (migration_needed r target))
        (ValidationError "instance migration is required before increasing shared connection caps");
  request_id ← lift (uuid request_id);
  deadline ← operation_deadline process_seconds;
  let scope := "app-" +:+ mr_application_id r in
  lock scope (
    r ← _resource resource_id;
    application ← db (get_application (mr_application_id r));
    match application with
    | None => raise AssertionError
    | Some a =>
        _ ← reject_deleting a;
        started ← limits_operation r resource_id target expected request_id scope deadline;
        catch (reconcile_limits r started.1 resource_id target expected request_id started.2 deadline)
          (fun e => _ ← db (mark_recovery_required request_id reconciliation_needed None None); raise e)
    end).

(** *** Repairing the PostgreSQL resources *)

Definition members (v : json) : result (list json) := match v with JArr l => Ok l | _ => Raise TypeError end.

(** One resource, under its application's lock; the references of the operation
    afterwards *)
Definition repair_resource (identifier : string) (r : ManagedResource) (refs : dict) (request_id : string)
    (recovering : bool) (deadline : Z) : Svc dict :=
  let scope := "app-" +:+ mr_application_id r in
  lock scope (
    pending ← db (get_unfinished_operation scope);
    match pending with
    | Some o => raise (UnfinishedOperationError scope (op_operation_id o) (op_kind o))
    | None =>
        r ← _resource identifier;
        _ ← require (String.eqb (mr_lifecycle_state r) "active")
              (ValidationError "PostgreSQL repair requires active resources");
        refs ← (if text_is (refs_get "dns_pending_resource" refs) identifier then mret refs
          else
            _ ← quiesce_dns_job (mr_application_id r) deadline;
            result ← _call r "limits" deadline (Some (accepted_quotas r)) (Some request_id) recovering;
            _ ← require (is_true (refs_get "applied" result)) (ValidationError "PostgreSQL repair was not confirmed");
            o ← db (checkpoint_operation request_id "repairing"
                      (Some [("dns_pending_resource", JStr identifier)]) true None None None);
            mret (op_refs o));
        _ ← prepare_dns_job (mr_application_id r) deadline;
        mret refs
    end).

Fixpoint repair_each (identifiers completed : list json) (refs : dict) (request_id : string)
    (recovering : bool) (deadline : Z) : Svc unit :=
  match identifiers with
  | [] => mret tt
  | v :: rest =>
      if existsb (py_eqb v) completed then repair_each rest completed refs request_id recovering deadline
      else
        identifier ← lift (uuid v);
        row ← db (get_managed_resource identifier);
        refs ← (match row with
                | Some r => repair_resource identifier r refs request_id recovering deadline
                | None => mret refs
                end : Svc dict);
        _ ← db (checkpoint_operation request_id "repairing"
                  (Some [("completed", JArr (completed ++ [v])); ("dns_pending_resource", JNull)]) true None None None);
        repair_each rest (completed ++ [v]) refs request_id recovering deadline
  end.

Definition repair_operation (request_id : string) (deadline : Z) : Svc (Operation * bool) :=
  operation ← db (get_unfinished_operation "infrastructure");
  match operation with
  | Some o =>
      if negb (String.eqb (op_operation_id o) request_id) || negb (String.eqb (op_kind o) REPAIR_KIND)
      then raise (UnfinishedOperationError "infrastructure" (op_operation_id o) (op_kind o))
      else
        at_ ← wall_deadline deadline;
        renewed ← db (renew_operation_deadline request_id at_ None);
        mret (renewed, true)
  | None =>
      all ← db (list_managed_resources None);
      let resources := map (fun r => JStr (mr_resource_id r))
        (List.filter (fun r => String.eqb (mr_resource_type r) "postgres") all) in
      at_ ← wall_deadline deadline;
      begun ← db (begin_operation request_id REPAIR_KIND "infrastructure" "repairing" at_
                    [("resources", JArr resources); ("completed", JArr [])] None);
      mret (begun, false)
  end.

Definition repair_postgres (request_id : string) : Svc unit :=
  deadline ← operation_deadline process_seconds;
  lock "infrastructure" (
    started ← repair_operation request_id deadline;
    completed ← lift (v ← record_item "completed" (op_refs started.1); members v);
    catch (
      identifiers ← lift (v ← record_item "resources" (op_refs started.1); members v);
      _ ← repair_each identifiers completed (op_refs started.1) request_id started.2 deadline;
      _ ← db (mark_succeeded request_id "not_required" None);
      mret tt)
    (fun e => _ ← db (mark_recovery_required request_id (Text "PostgreSQL role repair requires reconciliation") None None);
              raise e)).

(** *** Collecting usage *)

(** The resource's usage is sampled; the time its next sample is due, unless the
    visit was skipped. *)
Definition nearly_full (r : ManagedResource) (usage : dict) : bool :=
  let limit := if String.eqb (mr_resource_type r) "s3" then or_z (mr_s3_bytes r) 0 else or_z (mr_measured_target_bytes r) 0 in
  negb (limit =? 0) && match refs_get "usedBytes" usage with JInt used => limit * 80 <=? used * 100 | _ => false end.

Definition sample_resource (now : Z) (r : ManagedResource) : Svc (option Z) :=
  started ← monotonic;
  let deadline := started + Z.min (10 * second) helper_seconds in
  let scope := "app-" +:+ mr_application_id r in
  lock scope (
    pending ← db (get_unfinished_operation scope);
    pending ← (match pending with
      | Some o =>
          if String.eqb (op_kind o) COLLECT_KIND then
            _ ← db (mark_failed (op_operation_id o) (Text "collector reconciliation is superseded by a new sample")
                      "not_required" None);
            mret None
          else mret (Some o)
      | None => mret None
      end : Svc (option Operation));
    match pending with
    | Some _ => mret None
    | None =>
        fresh ← _resource (mr_resource_id r);
        result ← (if String.eqb (mr_resource_type fresh) "mongo" then
            i ← db fresh_uuid; _call fresh "limits" deadline (Some (accepted_quotas fresh)) (Some i) false
          else _call fresh "usage" deadline None None false);
        evidence ← db (_usage result);
        _ ← db (put_storage_usage (mr_resource_id r) evidence.1 evidence.2);
        mret (Some (now + (if nearly_full fresh evidence.1 || evidence.2 then FAST_COLLECT_SECONDS else COLLECT_SECONDS)))
    end).

Definition set_usage_error (r : ManagedResource) : ManagedResource := {|
  mr_resource_id := mr_resource_id r; mr_application_id := mr_application_id r;
  mr_resource_type := mr_resource_type r; mr_resource_name := mr_resource_name r;
  mr_display_label := mr_display_label r; mr_provider_id := mr_provider_id r;
  mr_provider_name := mr_provider_name r; mr_lifecycle_state := mr_lifecycle_state r;
  mr_postgres_connections := mr_postgres_connections r;
  mr_measured_target_bytes := mr_measured_target_bytes r;
  mr_s3_bytes := mr_s3_bytes r; mr_s3_objects := mr_s3_objects r;
  mr_last_verified_at := mr_last_verified_at r; mr_created_at := mr_created_at r;
  mr_updated_at := mr_updated_at r; mr_usage := mr_usage r; mr_usage_error := Some "collection_failed"%string;
  mr_write_blocked := mr_write_blocked r; mr_blocked_since := mr_blocked_since r;
  mr_memory_bytes := mr_memory_bytes r; mr_cpu_millicores := mr_cpu_millicores r;
  mr_mongo_connections := mr_mongo_connections r; mr_instance_id := mr_instance_id r;
  mr_instance_port := mr_instance_port r; mr_migration_state := mr_migration_state r |}.

(** The attributes of a service object: when samples are due *)
Record Collector := { co_world : World; co_next_due : list (string * Z); co_next_host_due : Z }.

Definition serve {A} (m : Svc A) : M Collector A := fun s =>
  let (r, w) := m (co_world s) in
  (r, {| co_world := w; co_next_due := co_next_due s; co_next_host_due := co_next_host_due s |}).

Definition set_due (identifier : string) (due : Z) : M Collector unit := fun s =>
  (Ok tt, {| co_world := co_world s; co_next_due := dict_set identifier due (co_next_due s);
             co_next_host_due := co_next_host_due s |}).

Definition set_host_due (due : Z) : M Collector unit := fun s =>
  (Ok tt, {| co_world := co_world s; co_next_due := co_next_due s; co_next_host_due := due |}).

(** Another thread or operation has the application. *)
Definition busy (e : error) : bool :=
  match e with
  | LockBusy | UnfinishedOperationError _ _ _ | FinishingOperationConflictError _ => true
  | _ => false
  end.

Definition visit (now : Z) (r : ManagedResource) : M Collector unit :=
  catch (due ← serve (sample_resource now r);
         match due with Some t => set_due (mr_resource_id r) t | None => mret tt end)
    (fun e =>
      if busy e then mret tt
      else
        _ ← set_due (mr_resource_id r) (now + FAST_COLLECT_SECONDS);
        serve (db (transaction (_ ← update (resource_is (mr_resource_id r)) set_usage_error; mret tt)))).

Definition is_due (scheduled : bool) (now : Z) (next_due : list (string * Z)) (r : ManagedResource) : bool :=
  String.eqb (mr_lifecycle_state r) "active"
  && (negb scheduled || (default 0 (dict_get (mr_resource_id r) next_due) <=? now)).

(** [collect(_resource_id=identifier)] in a service of its own, as in the pool:
    when the resource is due next, or the error *)
Definition sample (now : Z) (identifier : string) : M Collector (result Z) := fun s =>
  let m := started ← serve monotonic;
           resources ← serve (db (list_managed_resources None));
           for_each (List.filter (fun r => resource_is identifier r && String.eqb (mr_lifecycle_state r) "active") resources)
             (visit started) in
  let (r, s') := m {| co_world := co_world s; co_next_due := []; co_next_host_due := 0 |} in
  (Ok (_ ← r; Ok (default (now + FAST_COLLECT_SECONDS) (dict_get identifier (co_next_due s')))),
   {| co_world := co_world s'; co_next_due := co_next_due s; co_next_host_due := co_next_host_due s |}).

Fixpoint all_samples (now : Z) (selected : list string) : M Collector (list (string * result Z)) :=
  match selected with
  | [] => mret []
  | i :: rest => r ← sample now i; others ← all_samples now rest; mret ((i, r) :: others)
  end.

(** The schedule the loop over the resources looks at is the current one. *)
Definition visit_due (scheduled : bool) (now : Z) (r : ManagedResource) : M Collector unit := fun s =>
  if is_due scheduled now (co_next_due s) r then visit now r s else (Ok tt, s).

Definition observe_host (scheduled : bool) (now : Z) : M Collector unit := fun s =>
  if scheduled && (now <? co_next_host_due s) then (Ok tt, s)
  else (_ ← set_host_due (now + COLLECT_SECONDS);
        serve (catch (deadline ← operation_deadline process_seconds;
                      result ← helper_caller "storage.host.observe" [] deadline;
                      db (put_storage_host_usage result)) (fun _ => mret tt))) s.

(** [collect(scheduled=...)]; [on_disk] unless the database is in memory *)
Definition collect (on_disk scheduled : bool) : M Collector unit :=
  now ← serve monotonic;
  resources ← serve (db (list_managed_resources None));
  next_due ← ((fun s => (Ok (co_next_due s), s)) : M Collector (list (string * Z)));
  let selected := map mr_resource_id (List.filter (is_due scheduled now next_due) resources) in
  _ ← (if (1 <? length selected)%nat && on_disk then
      results ← all_samples now selected;
      for_each results (fun ir => due ← lift ir.2; set_due ir.1 due)
    else for_each resources (visit_due scheduled now) : M Collector unit);
  observe_host scheduled now.
End StorageLimitsService.
