(* ===== verification/StorageLimitsSpec.v ===== *)
(** * Properties of storage limits

    Accepted limits change only on the helper's evidence, and collecting usage
    never changes them. *)

From S2P Require Import Prelude Regex Json Clock Validation Runtime Sql Schema StorageCapacity Operations.
From S2P Require Import OperationsSpec AdmissionSpec StorageContract Applications ApplicationsSpec Resources ResourcesSpec.
From S2P Require Import NomadJobs Service Rollout RolloutSpec StorageLimits.

(** ** Which calls leave the resources alone *)

Lemma resources_live i f : evolves same_resources (update_live i f).
Proof. unfold update_live. evolve; done. Qed.
#[local] Hint Resolve resources_live : evolve.

Lemma resources_checkpoint i p r m g s n : evolves same_resources (checkpoint_operation i p r m g s n).
Proof. unfold checkpoint_operation. evolve; done. Qed.
Lemma resources_renew i d n : evolves same_resources (renew_operation_deadline i d n).
Proof. unfold renew_operation_deadline. evolve; done. Qed.
Lemma resources_begin i k s p d r n : evolves same_resources (begin_operation i k s p d r n).
Proof. unfold begin_operation. evolve; done. Qed.
Lemma resources_finished i st e p u n : evolves same_resources (_finish_operation i st e p u n).
Proof. unfold _finish_operation. evolve. Qed.
#[local] Hint Resolve resources_finished : evolve.
Lemma resources_recovery i e p n : evolves same_resources (mark_recovery_required i e p n).
Proof. unfold mark_recovery_required. evolve. Qed.
Lemma resources_succeeded i c n : evolves same_resources (mark_succeeded i c n).
Proof. unfold mark_succeeded. evolve. Qed.
Lemma resources_failed i e c n : evolves same_resources (mark_failed i e c n).
Proof. unfold mark_failed. evolve. Qed.
Lemma resources_job i j h v : evolves same_resources (update (fun r => String.eqb (at_deployment_id r) i) (set_job j h v)).
Proof. evolve; done. Qed.
#[export] Hint Resolve resources_checkpoint resources_renew resources_begin resources_recovery resources_succeeded
  resources_failed resources_job : evolve.


Lemma still_evolves {A} (P : Db -> Db -> Prop) `{!Reflexive P} (m : DB A) : evolves eq m -> evolves P m.
Proof. intros Hm c. by rewrite <- (Hm c). Qed.

Lemma stale_still v : evolves eq (stale v).
Proof. unfold stale. evolve. Qed.
#[export] Hint Resolve stale_still : evolve.
Lemma usage_still answer : evolves eq (_usage answer).
Proof. unfold _usage. evolve. Qed.
Lemma reduction_still r q : evolves eq (validate_reduction r q).
Proof. unfold validate_reduction. evolve. Qed.
Lemma reservations_still : evolves eq reservations.
Proof. unfold reservations. evolve. Qed.
Lemma retained_still i : evolves eq (retained_worker i).
Proof. unfold retained_worker. evolve. Qed.
Lemma reads_deployment i : reads (get_deployment i).
Proof. unfold get_deployment. reads. Qed.
Lemma deployment_still i : evolves eq (get_deployment i).
Proof. apply still_reads, reads_deployment. Qed.
Lemma application_still i : evolves eq (get_application i).
Proof. apply still_reads. auto with reads. Qed.
#[export] Hint Resolve deployment_still application_still : evolve.
Lemma workload_still i : evolves eq (workload_job i).
Proof. unfold workload_job. evolve. Qed.
Lemma resource_still i : evolves eq (get_managed_resource i).
Proof. unfold get_managed_resource. evolve. Qed.
Lemma listed_still o : evolves eq (list_managed_resources o).
Proof. unfold list_managed_resources. evolve. Qed.
Lemma unfinished_still s : evolves eq (get_unfinished_operation s).
Proof. apply still_reads. auto with reads. Qed.
Lemma timestamp_still t : evolves eq (timestamp_after t).
Proof. unfold timestamp_after. evolve. Qed.
Lemma uuid_still : evolves eq (fresh_uuid : DB string).
Proof. evolve. Qed.
Lemma helper_metadata_still i r : evolves eq (helper_metadata i r).
Proof.
  unfold helper_metadata. evolve_step; [apply reservations_still|]. evolve_step; [apply workload_still|].
  evolve_step; [apply retained_still|]. evolve.
Qed.
#[export] Hint Resolve usage_still reduction_still reservations_still retained_still workload_still resource_still
  listed_still unfinished_still timestamp_still uuid_still : evolve.

Lemma acts_still {A} P `{!Reflexive P} (m : DB A) : evolves eq m -> preserves (acts P) (db m).
Proof. intros Hm. by apply acts_db, still_evolves. Qed.

Lemma acts_more_than {A} (P Q : Db -> Db -> Prop) (m : Svc A) : (forall d d', P d d' -> Q d d') ->
  preserves (acts P) m -> preserves (acts Q) m.
Proof. intros H Hm w. eapply acts_weaken; [exact H|apply Hm]. Qed.

Ltac quiet := intros; preserving;
  try (first [apply acts_helper | apply acts_monotonic | apply acts_lock
             | apply acts_still; [apply _|solve [auto with evolve]]
             | apply acts_db; solve [evolve; done]]).

Section Service.
Context (platform : PlatformConfig) (process_seconds helper_seconds : Z).

Abbreviation keeps := (preserves (acts same_resources)).

Lemma deadline_keeps : keeps (operation_deadline process_seconds).
Proof. unfold operation_deadline. quiet. Qed.
Lemma wall_keeps d : keeps (wall_deadline d).
Proof. unfold wall_deadline. quiet. Qed.
Lemma found_keeps i : keeps (_resource i).
Proof. unfold _resource. quiet. Qed.
Lemma deleting_keeps a : keeps (reject_deleting a).
Proof. unfold reject_deleting. quiet. Qed.
Lemma call_keeps r a d t o b : keeps (_call call_helper r a d t o b).
Proof. unfold _call. quiet. Qed.
Lemma quiesce_keeps i d : keeps (quiesce_dns_job call_helper platform i d).
Proof. unfold quiesce_dns_job. quiet. Qed.
Lemma prepare_keeps i d : keeps (prepare_dns_job call_helper platform i d).
Proof. unfold prepare_dns_job. quiet. Qed.

(** ** Collecting usage *)

(** A row without its cached usage *)
Definition without_usage (r : ManagedResource) : ManagedResource :=
  set_usage [] false None r.

(** Resources keep all but their cached usage; applications and deployments
    keep everything. *)
Definition only_usage (d d' : Db) : Prop :=
  map without_usage (managed_resources d') = map without_usage (managed_resources d) /\ same_apps d d'.

(** The row was on record at a moment since the newest request, which took a
    lock: nothing else was asked in between. *)
Definition read_under_lock (row : ManagedResource) (w : World) : Prop :=
  exists u scope earlier, follows u w /\ w_requests u = Acquire scope :: earlier /\ w_requests w = w_requests u
    /\ In row (managed_resources (store (w_db u))).

(** A request changes no limit: it names no limits, or those that are accepted,
    on record, for the very resource it is about. *)
Definition harmless (w : World) (r : Request) : Prop :=
  match r with
  | Helper action args _ =>
      refs_get "quotas" args = JNull
      \/ exists row, read_under_lock row w /\ action = "storage." +:+ mr_resource_type row +:+ ".limits"
           /\ refs_get "resourceId" args = JStr (mr_resource_id row)
           /\ refs_get "quotas" args = quotas_value (accepted_quotas row)
  | _ => True
  end.
End Service.

#[export] Instance only_usage_preorder : PreOrder only_usage.
Proof.
  split; [split; reflexivity|]. intros a b c [H1 H2] [K1 K2]. split; [congruence|by etransitivity].
Qed.

Lemma only_usage_update p f d : (forall r, without_usage (f r) = without_usage r) ->
  only_usage d (with_managed_resources (apply_where p f (managed_resources d)) d).
Proof.
  intros Hf. split; [|by repeat split]. simpl. unfold apply_where. rewrite map_map. apply map_ext. intros r.
  by destruct (p r).
Qed.

Lemma apps_live i f : evolves same_apps (update_live i f).
Proof. unfold update_live. evolve; done. Qed.
Lemma apps_finish i st e p u n : evolves same_apps (_finish_operation i st e p u n).
Proof. unfold _finish_operation. evolve. apply apps_live. Qed.

Lemma failed_only_usage i e c n : evolves only_usage (mark_failed i e c n).
Proof.
  intros k. split; [by rewrite (resources_failed i e c n k)|]. revert k. change (evolves same_apps (mark_failed i e c n)).
  unfold mark_failed. evolve. apply apps_finish.
Qed.

Lemma usage_only_usage i u b : evolves only_usage (put_storage_usage i u b).
Proof. unfold put_storage_usage. evolve. by apply only_usage_update. Qed.
Lemma error_only_usage i : evolves only_usage (transaction (_ ← update (resource_is i) set_usage_error; mret tt)).
Proof. evolve. by apply only_usage_update. Qed.
Lemma host_only_usage u : evolves only_usage (put_storage_host_usage u).
Proof. unfold put_storage_host_usage. evolve; by repeat split. Qed.
#[export] Hint Resolve failed_only_usage usage_only_usage error_only_usage host_only_usage : evolve.

Section Collecting.
Context (process_seconds helper_seconds : Z).

(** What a collector does to the world *)
Definition collects (w w' : World) : Prop := acts only_usage w w' /\ obeys harmless w w'.

#[export] Instance collects_preorder : PreOrder collects.
Proof. split; [done|]. intros a b c [H1 H2] [K1 K2]. split; by etransitivity. Qed.

Lemma collects_still {A} (m : DB A) : evolves eq m -> preserves collects (db m).
Proof. intros Hm w. split; [by apply acts_still; [apply _|]|apply obeys_db]. Qed.
Lemma collects_db {A} (m : DB A) : evolves only_usage m -> preserves collects (db m).
Proof. intros Hm w. split; [by apply acts_db|apply obeys_db]. Qed.
Lemma collects_monotonic : preserves collects monotonic.
Proof. intros w. split; [apply acts_monotonic|apply obeys_monotonic]. Qed.
Lemma collects_helper a args t w : harmless w (Helper a args t) -> collects w (call_helper a args t w).2.
Proof. intros H. split; [apply acts_helper|by apply obeys_ask]. Qed.
Lemma collects_then {A B} (m : Svc A) (f : A -> Svc B) w : collects w (m w).2 ->
  (forall a w1, m w = (Ok a, w1) -> collects w1 (f a w1).2) -> collects w ((m ≫= f) w).2.
Proof.
  intros Hm Hf. unfold mbind, M_bind. destruct (m w) as [[a|e] w1]; [|done]. etransitivity; [exact Hm|]. by apply Hf.
Qed.

Ltac collecting := intros;
  repeat first [progress preserving | apply collects_monotonic
               | apply collects_still; solve [auto with evolve] | apply collects_db; solve [auto with evolve]].

Lemma under_lock_later row w w' : quietly w w' -> read_under_lock row w -> read_under_lock row w'.
Proof.
  intros [F E] (u & scope & earlier & H1 & H2 & H3 & H4). exists u, scope, earlier. split_and!; [by etransitivity|done|congruence|done].
Qed.

(** A step that only reads, then the rest *)
Lemma collects_read {A B} (m : DB A) (f : A -> Svc B) w : evolves eq m ->
  (forall a w1, quietly w w1 -> collects w1 (f a w1).2) -> collects w ((db m ≫= f) w).2.
Proof.
  intros Hm Hf. apply collects_then; [by apply collects_still|]. intros a w1 H. apply Hf. exact (kept _ _ _ _ _ (quietly_db _) H).
Qed.

Lemma call_collects r a d t o w : (t = None \/ t = Some (accepted_quotas r) /\ a = "limits"%string /\ read_under_lock r w) ->
  collects w (_call call_helper r a d t o false w).2.
Proof.
  intros Ht. unfold _call. apply collects_read; [auto with evolve|]. intros [x|] w1 Q1; [|reflexivity].
  apply collects_read; [auto with evolve|]. intros res w2 Q2. apply collects_read; [auto with evolve|]. intros job w3 Q3.
  apply collects_read; [auto with evolve|]. intros wk w4 Q4. apply collects_then; [reflexivity|]. intros ids ? [_ ->]%lift_ok.
  cbv zeta. apply collects_helper. unfold harmless. destruct Ht as [->|(-> & -> & Ht)]; [by left|right]. exists r.
  split_and!; try done. do 4 (eapply under_lock_later; [eassumption|]). exact Ht.
Qed.

Lemma fresh_usage_collects r d w : read_under_lock r w -> collects w
  ((if String.eqb (mr_resource_type r) "mongo" then
     i ← db fresh_uuid; _call call_helper r "limits" d (Some (accepted_quotas r)) (Some i) false
   else _call call_helper r "usage" d None None false) w).2.
Proof.
  intros H. destruct (String.eqb _ _); [|apply call_collects; by left].
  apply collects_read; [evolve|]. intros i w1 Q. apply call_collects. right. split_and!; [done|done|by eapply under_lock_later].
Qed.

Lemma found_row i w r w' : _resource i w = (Ok r, w') -> quietly w w' /\ In r (managed_resources (store (w_db w'))).
Proof.
  unfold _resource. intros H. apply bind_ok in H as (row & w1 & H1 & H). pose proof (kept _ _ _ _ _ (quietly_db _) H1) as Q.
  apply db_step, get_resource_peek in H1 as (_ & E & Hr). destruct row as [x|]; [|done]. injection H as -> <-. split; [done|].
  rewrite E. symmetry in Hr. by apply find_some in Hr as [Hr _].
Qed.

Lemma found_collects i : preserves collects (_resource i).
Proof. unfold _resource. collecting. Qed.

Lemma sample_collects now r : preserves collects (sample_resource call_helper helper_seconds now r).
Proof.
  intros w. unfold sample_resource. apply collects_then; [apply collects_monotonic|]. intros t w1 _. cbv zeta. unfold lock.
  set (scope := "app-" +:+ _). set (w2 := asked (Acquire scope) w1).
  assert (C2 : collects w1 w2) by (split; [apply acts_asked|by apply obeys_ask]). destruct (w_lock _ _); [|exact C2].
  match goal with |- collects _ (let (_, _) := ?m w2 in _).2 => assert (C : collects w2 (m w2).2); [|destruct (m w2) as [x w3]] end.
  2: { simpl in *. etransitivity; [exact C2|]. etransitivity; [exact C|]. split; [apply acts_asked|by apply obeys_ask]. }
  apply collects_read; [auto with evolve|]. intros p w3 Q3.
  match goal with |- collects _ ((?m ≫= _) _).2 => assert (K : preserves collects m /\ preserves quietly m) end.
  { split; [collecting|]. pose proof (fun A => @quietly_db A). preserving. }
  destruct K as [K1 K2]. apply collects_then; [apply K1|]. intros o w4 H4. pose proof (kept _ _ _ _ _ K2 H4) as Q4.
  destruct o; [reflexivity|]. apply collects_then; [apply found_collects|]. intros f w5 [Q5 Hf]%found_row.
  assert (L : read_under_lock f w5).
  { exists w5, scope, (w_requests w1). split_and!; [reflexivity| |done|done]. destruct Q3 as [_ E3], Q4 as [_ E4], Q5 as [_ E5].
    by rewrite E5, E4, E3. }
  apply collects_then; [by apply fresh_usage_collects|]. intros answer w6 _. revert w6.
  match goal with |- forall w6, collects w6 (?m w6).2 => change (preserves collects m) end. collecting.
Qed.

(** *** The loops *)

Definition co_collects (s s' : Collector) : Prop := collects (co_world s) (co_world s').

#[export] Instance co_collects_preorder : PreOrder co_collects.
Proof. unfold co_collects. split; [intros s; reflexivity|]. intros a b c Hab Hbc. by etransitivity. Qed.

Lemma serve_collects {A} (m : Svc A) : preserves collects m -> preserves co_collects (serve m).
Proof. intros Hm s. unfold serve, co_collects. specialize (Hm (co_world s)). by destruct (m _). Qed.

Lemma due_collects i t : preserves co_collects (set_due i t).
Proof. intros s. unfold co_collects, set_due. reflexivity. Qed.

Ltac looping := intros;
  repeat first [progress preserving | apply due_collects | apply serve_collects | apply preserves_for_each; [apply _|intros]
               | apply collects_monotonic | apply collects_still; solve [auto with evolve]
               | apply collects_db; solve [auto with evolve]].

Lemma visit_collects now r : preserves co_collects (visit call_helper helper_seconds now r).
Proof. unfold visit. looping. apply sample_collects. Qed.

Lemma pool_collects now i : preserves co_collects (StorageLimits.sample call_helper helper_seconds now i).
Proof.
  intros s. unfold StorageLimits.sample.
  set (s0 := {| co_world := co_world s; co_next_due := []; co_next_host_due := 0 |}).
  assert (H : forall (m : M Collector unit), preserves co_collects m -> co_collects s (m s0).2) by (intros m Hm; exact (Hm s0)).
  specialize (H (started ← serve monotonic;
    resources ← serve (db (list_managed_resources None));
    for_each (List.filter (fun r => resource_is i r && String.eqb (mr_lifecycle_state r) "active") resources)
      (visit call_helper helper_seconds started))).
  destruct ((started ← serve monotonic; _) s0) as [r s'].
  unfold co_collects in *. simpl in *. apply H. looping. apply visit_collects.
Qed.

Lemma samples_collect now l : preserves co_collects (all_samples call_helper helper_seconds now l).
Proof. induction l as [|i l IH]; simpl; [apply preserves_ret; apply _|]. preserving. apply pool_collects. Qed.

Lemma host_collects scheduled now : preserves co_collects (observe_host call_helper process_seconds scheduled now).
Proof.
  intros s. unfold observe_host. destruct (_ && _); [reflexivity|]. revert s.
  match goal with |- forall s, co_collects s (?m s).2 => change (preserves co_collects m) end.
  apply preserves_bind; [apply _|intros s; unfold co_collects; reflexivity|]. intros _. apply serve_collects.
  unfold operation_deadline. collecting. intros w. apply collects_helper. by left.
Qed.

Lemma collect_ok on_disk scheduled : preserves co_collects (collect call_helper process_seconds helper_seconds on_disk scheduled).
Proof.
  unfold collect. apply preserves_bind; [apply _|apply serve_collects, collects_monotonic|]. intros now.
  apply preserves_bind; [apply _|apply serve_collects, collects_still, listed_still|]. intros resources.
  apply preserves_bind; [apply _|intros s; unfold co_collects; reflexivity|]. intros due. cbv zeta.
  apply preserves_bind; [apply _| |intros _; apply host_collects].
  destruct (_ && _).
  - apply preserves_bind; [apply _|apply samples_collect|]. intros results. looping.
  - apply preserves_for_each; [apply _|]. intros r s. unfold visit_due. destruct (is_due _ _ _ _); [apply visit_collects|].
    unfold co_collects. reflexivity.
Qed.
End Collecting.


(** ** Accepted limits *)

(** The resource's accepted limits are the target's. *)
Definition limits_hold (r : ManagedResource) (target : quotas) : Prop :=
  forall k, In k (expected_fields (mr_resource_type r)) -> dict_get k (accepted_quotas r) = dict_get k target.

Lemma keys_get {A} k (d : list (string * A)) : In k (dict_keys d) -> exists v, dict_get k d = Some v.
Proof.
  induction d as [|[j v] d IH]; [done|]. simpl. intros [->|H]; [rewrite String.eqb_refl; eauto|].
  destruct (String.eqb k j); eauto.
Qed.

Lemma same_keys_in {A} (d : list (string * A)) fields k : same_keys d fields = true -> In k fields -> In k (dict_keys d).
Proof.
  unfold same_keys. intros [_ H]%andb_true_iff Hk. rewrite forallb_forall in H.
  by apply H, existsb_exists in Hk as (x & Hx & ->%String.eqb_eq).
Qed.

Lemma limit_items_get d : forall q k v, validate_limit_items d = Ok q -> dict_get k d = Some v ->
  exists z, validate_limit k v = Ok z /\ dict_get k q = Some z.
Proof.
  induction d as [|[j u] d IH]; simpl; intros q k v H Hk; [done|].
  apply rbind_ok in H as (z & Hz & H). apply rbind_ok in H as (rest & Hr & [= <-]). simpl.
  destruct (String.eqb_spec k j) as [->|_]; [|by apply IH]. injection Hk as ->. by exists z.
Qed.

Lemma s3_items_get d : forall q k v, each (fun kv : string * json => z ← s3_limit kv.1 kv.2; Ok (kv.1, z)) d = Ok q ->
  dict_get k d = Some v -> exists z, s3_limit k v = Ok z /\ dict_get k q = Some z.
Proof.
  induction d as [|[j u] d IH]; simpl; intros q k v H Hk; [done|].
  apply rbind_ok in H as (p & Hp & H). apply rbind_ok in Hp as (z & Hz & [= <-]).
  apply rbind_ok in H as (rest & Hr & [= <-]). simpl in *.
  destruct (String.eqb_spec k j) as [->|_]; [|by apply (IH rest)]. injection Hk as ->. by exists z.
Qed.

Lemma validate_limit_positive k v z : validate_limit k v = Ok z -> 0 < z.
Proof.
  unfold validate_limit. destruct v as [| |z'| | |]; destruct (limit_bounds k) as [[lo hi]|] eqn:B; try done.
  destruct (negb _) eqn:E; [done|]. apply negb_false_iff, andb_true_iff in E as [E _]. apply Z.leb_le in E.
  destruct (_ && _); [done|]. intros [= ->]. unfold limit_bounds in B.
  repeat (destruct (String.eqb _ _); [injection B as <- <-; unfold GIB, DEFAULT_MEMORY, MIB in E; lia|]). done.
Qed.

Lemma s3_limit_positive k v z : s3_limit k v = Ok z -> 0 < z.
Proof.
  unfold s3_limit, MIN_STORAGE_BYTES. destruct (String.eqb k "s3Objects"), v; try done;
    (destruct (_ && _) eqn:E; [|done]); intros [= ->]; apply andb_true_iff in E as [E _]; apply Z.leb_le in E; lia.
Qed.

Lemma validated_positive t v q k : validate_quotas t v = Ok q -> In k (expected_fields t) ->
  exists z, dict_get k q = Some z /\ 0 < z.
Proof.
  unfold validate_quotas, expected_fields. destruct (one_of_words ["postgres"; "mongo"] t) eqn:Et.
  - assert (String.eqb t "s3" = false) as -> by (apply one_of_words_in in Et as [<-|[<-|[]]]; done).
    intros H Hk. unfold validate_limits in H. destruct v as [| | | | |d]; try done.
    destruct (same_keys d limit_fields) eqn:S; [|done].
    destruct (keys_get k d) as (u & Hu); [by apply (same_keys_in _ limit_fields)|].
    destruct (limit_items_get _ _ _ _ H Hu) as (z & Hz & Hq). exists z. split; [done|]. by eapply validate_limit_positive.
  - destruct (String.eqb t "s3"); [|done]. intros H Hk. destruct v as [| | | | |d]; try done.
    destruct (same_keys _ _) eqn:S; [|done].
    destruct (keys_get k d) as (u & Hu); [by apply (same_keys_in _ _ _ S)|].
    destruct (s3_items_get _ _ _ _ H Hu) as (z & Hz & Hq). exists z. split; [done|]. by eapply s3_limit_positive.
Qed.

Lemma validated_type t v q : validate_quotas t v = Ok q -> t = "postgres"%string \/ t = "mongo"%string \/ t = "s3"%string.
Proof.
  unfold validate_quotas. destruct (one_of_words _ t) eqn:E; [apply one_of_words_in in E as [<-|[<-|[]]]; auto|].
  destruct (String.eqb_spec t "s3"); [auto|done].
Qed.

Lemma or_z_positive z y : 0 < z -> or_z (Some z) y = z.
Proof. intros H. simpl. destruct (Z.eqb_spec z 0); [lia|done]. Qed.

Lemma set_limits_hold t v q u b ts now r : validate_quotas t v = Ok q -> mr_resource_type r = t ->
  limits_hold (set_usage u b ts (set_limits t q now r)) q.
Proof.
  intros Hv Ht k. unfold limits_hold. change (mr_resource_type (set_usage _ _ _ _)) with (mr_resource_type r).
  rewrite Ht. intros Hk. pose proof (validated_positive t v q) as P.
  unfold accepted_quotas. change (mr_resource_type (set_usage _ _ _ _)) with (mr_resource_type r). rewrite Ht.
  destruct (validated_type _ _ _ Hv) as [->|[->| ->]]; simpl in Hk; destruct_or?; try done; subst k; simpl;
    match goal with |- Some (_ (dict_get ?k q) _) = _ => idtac | |- Some _ = dict_get ?k q => idtac end;
    match goal with |- _ = dict_get ?k q => destruct (P k Hv) as (z & Hz & Hp); [simpl; tauto|] end;
    rewrite Hz, or_z_positive by done; done.
Qed.

(** ** The write *)

(** The row [id], otherwise what it was, holds the target and the evidence;
    nothing else changed. *)
Definition limits_written (id t : string) (target : quotas) (usage : dict) (blocked : bool) (d d' : Db) : Prop :=
  (exists r r', List.find (resource_is id) (managed_resources d) = Some r
     /\ List.find (resource_is id) (managed_resources d') = Some r'
     /\ mr_application_id r' = mr_application_id r /\ mr_resource_type r' = mr_resource_type r
     /\ mr_resource_name r' = mr_resource_name r /\ mr_lifecycle_state r' = mr_lifecycle_state r
     /\ mr_usage r' = usage /\ mr_write_blocked r' = blocked /\ (mr_resource_type r' = t -> limits_hold r' target))
  /\ List.filter (fun r => negb (resource_is id r)) (managed_resources d')
     = List.filter (fun r => negb (resource_is id r)) (managed_resources d)
  /\ same_apps d d' /\ operations d' = operations d.

Lemma find_found {R} (p : R -> bool) f t r : (forall x, p (f x) = p x) -> List.find p t = Some r ->
  List.find p (apply_where p f t) = Some (f r).
Proof.
  intros Hp H. rewrite (find_updated p p f t Hp), H. simpl. apply find_some in H as [_ H]. by rewrite H.
Qed.

Lemma filter_others {R} (p : R -> bool) f t : (forall x, p (f x) = p x) ->
  List.filter (fun r => negb (p r)) (apply_where p f t) = List.filter (fun r => negb (p r)) t.
Proof.
  intros Hp. induction t as [|r t IH]; [done|]. simpl. destruct (p r) eqn:E; simpl; [by rewrite Hp, E|by rewrite E, IH].
Qed.

Lemma put_limits_written id t v q usage blocked c u c' : validate_quotas t v = Ok q ->
  put_storage_limits id q usage blocked c = (Ok u, c') -> limits_written id t q usage blocked (store c) (store c').
Proof.
  intros Hv H. unfold put_storage_limits in H.
  apply bind_ok in H as (row & c1 & (_ & -> & H1)%get_resource_peek & H).
  destruct row as [r|]; [|done]. apply transaction_ok in H as (c1 & H & -> & _).
  apply bind_ok in H as (now & c2 & Hn & H). assert (Hs : store c2 = store c).
  { unfold read_clock in Hn. by injection Hn as _ <-. }
  apply bind_ok in H as (x & c3 & [_ ->]%lift_ok & H). apply bind_ok in H as (ts & c3 & [_ ->]%lift_ok & H).
  apply bind_ok in H as (n & c3 & (-> & _)%update_ok & H). injection H as _ <-.
  change (rows (store c2)) with (managed_resources (store c2)). rewrite Hs. clear Hs.
  split_and!; [|by apply filter_others|by repeat split|done].
  exists r. eexists. split; [by symmetry|]. split; [apply find_found; [done|by symmetry]|]. split_and!; try done.
  intros Ht. simpl in Ht. subst t. by eapply set_limits_hold.
Qed.

Lemma put_limits_raise id q usage blocked c e c' : put_storage_limits id q usage blocked c = (Raise e, c') -> store c' = store c.
Proof.
  intros H. unfold put_storage_limits in H. apply bind_raise in H as [H|(row & c1 & H1 & H)].
  - pose proof (resource_still id c) as S. by rewrite H in S.
  - pose proof (resource_still id c) as S. rewrite H1 in S. destruct row; [|by injection H as _ <-].
    apply transaction_still in H. by rewrite H.
Qed.

(** ** The operation *)

Lemma read_back i c o c' : (get_operation i ≫= asserted) c = (Ok o, c') -> c' = c /\ operation_at i (store c) = Some o.
Proof.
  intros H. apply bind_ok in H as (x & c1 & [Hx ->]%reads_ok & H); [|auto with reads].
  rewrite peek_operation in Hx. injection Hx as <-. fold (operation_at i (store c)) in H.
  unfold asserted in H. destruct (operation_at i (store c)) as [r|]; [|done]. revert H. by intros [= <- <-].
Qed.

Lemma live_updated i f c u c' : (forall r, op_operation_id (f r) = op_operation_id r) ->
  update_live i f c = (Ok u, c') -> exists o, operation_at i (store c') = Some (f o) /\ live i o = true.
Proof.
  intros Hf H. unfold update_live in H. apply bind_ok in H as (n & c1 & (-> & Hn & Hok)%update_ok & H).
  destruct (Nat.eqb_spec n 1) as [->|]; [|done]. injection H as _ <-.
  destruct (List.filter (live i) (rows (store c))) as [|o l] eqn:E; [done|].
  assert (Ho : In o (rows (store c)) /\ live i o = true) by (apply filter_In; rewrite E; by left).
  destruct Ho as [Ho Hl]. exists o. split; [|done]. pose proof Hl as [Hi _]%andb_true_iff.
  assert (Hin : In (f o) (apply_where (live i) f (rows (store c)))).
  { apply in_map_iff. exists o. by rewrite Hl. }
  assert (Hid : String.eqb (op_operation_id (f o)) i = true) by by rewrite Hf.
  set (d' := with_operations (apply_where (live i) f (rows (store c))) (store c)). assert (Hrows : operations d' = apply_where (live i) f (rows (store c))) by done.
  unfold operation_at. change (store (with_store _ c)) with d'.
  destruct (List.find (fun r => String.eqb (op_operation_id r) i) (operations d')) as [x|] eqn:F.
  - f_equal. symmetry. eapply (operation_row d' i x); [|exact F|by rewrite Hrows|done].
    rewrite Hrows. apply (table_ok_unique _ _ op_key Hok). by left.
  - exfalso. rewrite Hrows in F. pose proof (List.find_none _ _ F _ Hin) as K. simpl in K. congruence.
Qed.

Lemma finished_row i st e p cl n c o c' : _finish_operation i st e p cl n c = (Ok o, c') ->
  operation_at i (store c') = Some o /\ op_st o = st.
Proof.
  intros H. unfold _finish_operation in H. apply bind_ok in H as (x & c1 & [_ ->]%lift_ok & H).
  apply bind_ok in H as (t & c1 & _ & H). apply bind_ok in H as (y & c2 & [_ ->]%lift_ok & H).
  apply bind_ok in H as (z & c2 & [_ ->]%lift_ok & H).
  apply bind_ok in H as (u & c2 & (c3 & Hu & -> & _)%transaction_ok & H).
  apply read_back in H as [-> H]. split; [exact H|].
  apply live_updated in Hu as (o0 & Hu & _); [|done]. simpl in H. rewrite Hu in H. by injection H as <-.
Qed.

Lemma renewed_row i d n c o c' : renew_operation_deadline i d n c = (Ok o, c') -> operation_at i (store c') = Some o.
Proof.
  intros H. unfold renew_operation_deadline in H. apply bind_ok in H as (x & c1 & [_ ->]%lift_ok & H).
  apply bind_ok in H as (y & c2 & [_ ->]%lift_ok & H). apply bind_ok in H as (u & c2 & _ & H).
  by apply read_back in H as [-> H].
Qed.

(** ** The evidence *)

Section Evidence.
Context (platform : PlatformConfig) (process_seconds : Z).

(** The helper confirmed this change of this resource, asked in [wa]. *)
Definition confirmed_change (r : ManagedResource) (target : quotas) (request_id : string) (usage : dict)
    (blocked : bool) (w wa : World) (query : Request) : Prop :=
  exists args deadline answer,
    query = Helper ("storage." +:+ mr_resource_type r +:+ ".limits") args deadline
    /\ refs_get "resourceId" args = JStr (mr_resource_id r) /\ refs_get "quotas" args = quotas_value target
    /\ refs_get "operationId" args = JStr request_id
    /\ w_helper w (query :: w_requests wa) = Ok answer
    /\ refs_get "applied" answer = JBool true /\ refs_get "usage" answer = JObj usage
    /\ refs_get "writeBlocked" answer = JBool blocked.

Definition sent_change (r : ManagedResource) (target : quotas) (request_id : string) (w : World)
    (answer : dict) (w' : World) : Prop :=
  exists wa args deadline, let query := Helper ("storage." +:+ mr_resource_type r +:+ ".limits") args deadline in
    acts same_resources w wa /\ w' = asked query wa
    /\ refs_get "resourceId" args = JStr (mr_resource_id r) /\ refs_get "quotas" args = quotas_value target
    /\ refs_get "operationId" args = JStr request_id /\ w_helper w (query :: w_requests wa) = Ok answer.

Lemma call_sent r d target request_id recovering w answer w' :
  _call call_helper r "limits" d (Some target) (Some request_id) recovering w = (Ok answer, w') ->
  sent_change r target request_id w answer w'.
Proof.
  unfold _call. intros H. apply bind_ok in H as (a & w1 & H1 & H). destruct a as [a|]; [|done].
  apply bind_ok in H as (x2 & w2 & H2 & H). apply bind_ok in H as (x3 & w3 & H3 & H).
  apply bind_ok in H as (x4 & w4 & H4 & H). apply bind_ok in H as (ids & w5 & [_ ->]%lift_ok & H).
  cbv zeta in H. injection H as H <-.
  assert (D : acts same_resources w w4).
  { etransitivity; [eapply kept; [|exact H1]|]; [apply acts_still; [apply _|auto with evolve]|].
    etransitivity; [eapply kept; [|exact H2]|]; [apply acts_still; [apply _|auto with evolve]|].
    etransitivity; [eapply kept; [|exact H3]|]; [apply acts_still; [apply _|auto with evolve]|].
    eapply kept; [|exact H4]. apply acts_still; [apply _|auto with evolve]. }
  eexists w4, _, d. split_and!; [exact D|reflexivity|done|done|done|].
  rewrite <- (follows_helper _ _ (acts_follows _ _ _ D)). exact H.
Qed.

Lemma usage_of_answer answer c usage blocked c' : _usage answer c = (Ok (usage, blocked), c') ->
  refs_get "usage" answer = JObj usage /\ refs_get "writeBlocked" answer = JBool blocked.
Proof.
  unfold _usage. destruct (refs_get "usage" answer) as [| | | | |v]; try done.
  destruct (refs_get "writeBlocked" answer); try done. intros H.
  apply bind_ok in H as (x & c1 & _ & H). apply bind_ok in H as (y & c2 & _ & H). apply bind_ok in H as (z & c3 & _ & H).
  apply bind_ok in H as (t & c4 & _ & H). by injection H as <- <-.
Qed.

Lemma is_true_eq v : is_true v = true -> v = JBool true.
Proof. by destruct v as [|[]| | | |]. Qed.

(** Between [w] and [w1] the helper confirmed the change. *)
Definition evidence_of_helper (r : ManagedResource) (target : quotas) (request_id : string) (usage : dict)
    (blocked : bool) (w w1 : World) : Prop :=
  exists wa query, acts same_resources w wa /\ confirmed_change r target request_id usage blocked w wa query
    /\ acts same_resources (asked query wa) w1.

Abbreviation keeps := (preserves (acts same_resources)).

Lemma apply_keeps r target intent request_id recovering d :
  keeps (apply_limits call_helper platform r target intent request_id recovering d).
Proof.
  unfold apply_limits. apply preserves_bind; [apply _|apply acts_db; auto with evolve|]. intros _.
  apply preserves_bind; [apply _| |].
  { destruct (is_database _); [apply quiesce_keeps|apply preserves_ret; apply _]. }
  intros _. apply preserves_bind; [apply _|apply call_keeps|]. intros answer.
  apply preserves_bind; [apply _|intros w; reflexivity|]. intros _.
  apply preserves_bind; [apply _|apply acts_still; [apply _|auto with evolve]|]. intros ev.
  apply preserves_bind; [apply _|apply acts_db; auto with evolve|]. intros _. intros w. reflexivity.
Qed.

Lemma apply_confirmed r target intent request_id recovering d w ev w1 :
  apply_limits call_helper platform r target intent request_id recovering d w = (Ok ev, w1) ->
  exists usage blocked, ev = (JObj usage, JBool blocked) /\ evidence_of_helper r target request_id usage blocked w w1.
Proof.
  unfold apply_limits. intros H. apply bind_ok in H as (x & wb & H1 & H).
  apply bind_ok in H as (y & wc & H2 & H). apply bind_ok in H as (answer & wd & H3 & H).
  apply bind_ok in H as (z & we & H4 & H). apply lift_ok in H4 as [Ha ->].
  apply bind_ok in H as ([usage blocked] & wf & H5 & H). apply bind_ok in H as (t & wg & H6 & H).
  injection H as <- <-. exists usage, blocked. split; [done|].
  assert (D1 : acts same_resources w wb) by (eapply kept; [|exact H1]; apply acts_db; auto with evolve).
  assert (D2 : acts same_resources wb wc).
  { destruct (is_database _); [eapply kept; [apply quiesce_keeps|exact H2]|injection H2 as _ <-; reflexivity]. }
  apply call_sent in H3 as (wa & args & d' & D3 & -> & F1 & F2 & F3 & F4).
  assert (D : acts same_resources w wc) by (by etransitivity).
  exists wa. eexists. split; [by etransitivity|]. split.
  - exists args, d', answer. split_and!; try done.
    + rewrite <- (follows_helper _ _ (acts_follows _ _ _ D)). exact F4.
    + apply is_true_eq. unfold guard_else in Ha. by destruct (is_true _).
    + apply db_step, usage_of_answer in H5. apply H5.
    + apply db_step, usage_of_answer in H5. apply H5.
  - etransitivity; (eapply kept; [|eassumption]); [apply acts_still; [apply _|auto with evolve]|apply acts_db; auto with evolve].
Qed.

(** An interrupted attempt recorded the confirmation in the operation. *)
Definition evidence_of_record (o : Operation) (usage : dict) (blocked : bool) : Prop :=
  op_phase o = "applied"%string /\ refs_get "usage" (op_refs o) = JObj usage
  /\ refs_get "write_blocked" (op_refs o) = JBool blocked.

Definition succeeded_in (i : string) (w : World) : Prop :=
  exists o, operation_at i (store (w_db w)) = Some o /\ op_st o = op_succeeded.

(** The accepted limits are those the request expects, or, once the helper has
    applied the change, already the target. *)
Definition still_accepted_limits (r : ManagedResource) (o : Operation) (target : quotas) (expected : dict) : Prop :=
  accepts r (JObj expected) = true \/ op_phase o = "applied"%string /\ accepts r (quotas_value target) = true.

Definition reconciled (r : ManagedResource) (o : Operation) (resource_id : string) (target : quotas) (expected : dict)
    (request_id : string) (w : World) (res : result unit) (w' : World) : Prop :=
  (exists e, res = Raise e) /\ acts same_resources w w'
  \/ exists usage blocked w1 u w2,
       (evidence_of_helper r target request_id usage blocked w w1
        \/ evidence_of_record o usage blocked /\ acts same_resources w w1)
       /\ still_accepted_limits r o target expected
       /\ db (put_storage_limits resource_id target usage blocked) w1 = (Ok u, w2)
       /\ acts same_resources w2 w' /\ (res = Ok tt -> succeeded_in request_id w').

Lemma item_get k d v : record_item k d = Ok v -> refs_get k d = v.
Proof. unfold record_item, refs_get. destruct (dict_get k d); [|done]. by intros [= ->]. Qed.

Lemma put_raise_acts id q u b w e w' : db (put_storage_limits id q u b) w = (Raise e, w') -> acts same_resources w w'.
Proof. intros H. apply acts_drift. eapply db_drifts; [exact H|]. apply db_step in H. by eapply put_limits_raise. Qed.

Lemma reconcile_ok r o resource_id target expected request_id recovering d w res w' :
  reconcile_limits call_helper platform r o resource_id target expected request_id recovering d w = (res, w') ->
  reconciled r o resource_id target expected request_id w res w'.
Proof.
  intros H. unfold reconcile_limits in H. cbv zeta in H.
  assert (Refused : forall e (w1 : World), acts same_resources w w1 -> reconciled r o resource_id target expected request_id w (Raise e) w1).
  { intros e w1 D. left. eauto. }
  pass H as (_ & H) by (by apply Refused). pass H as (Hacc & H) by (by apply Refused).
  match type of H with (?m ≫= _) _ = _ => set (gather := m) in H end.
  assert (G : keeps gather).
  { unfold gather. destruct (String.eqb _ _); [|apply apply_keeps].
    apply preserves_bind; [apply _|intros s; reflexivity|]. intros u.
    apply preserves_bind; [apply _|intros s; reflexivity|]. intros b s. reflexivity. }
  apply any_step in H as [(e & -> & H)|(ev & w1 & H1 & H)]; [apply Refused; by eapply kept|].
  assert (D1 : acts same_resources w w1) by (by eapply kept).
  assert (P : keeps (if is_database (mr_resource_type r) then prepare_dns_job call_helper platform (mr_application_id r) d else mret tt)).
  { destruct (is_database _); [apply prepare_keeps|intros s; reflexivity]. }
  apply any_step in H as [(e & -> & H)|(? & w2 & H2 & H)]; [apply Refused; etransitivity; [exact D1|by eapply kept]|].
  assert (D2 : acts same_resources w1 w2) by (by eapply kept).
  assert (D : acts same_resources w w2) by (by etransitivity).
  pass H as (known & Hk & H) by (by apply Refused).
  assert (E : evidence_of_helper r target request_id known.1 known.2 w w2
    \/ evidence_of_record o known.1 known.2 /\ acts same_resources w w2).
  { unfold gather in H1. destruct (String.eqb_spec (op_phase o) "applied") as [Ep|].
    - right. split; [|exact D]. apply bind_ok in H1 as (u & ? & [Hu ->]%lift_ok & H1).
      apply bind_ok in H1 as (b & ? & [Hb ->]%lift_ok & H1). injection H1 as <- <-.
      apply item_get in Hu, Hb. unfold recorded_evidence in Hk. destruct u, b; try done. injection Hk as <-. by split_and!.
    - left. apply apply_confirmed in H1 as (u & b & -> & wa & q & Ha & Hq & Hw). injection Hk as <-.
      exists wa, q. split_and!; [done|done|by etransitivity]. }
  apply any_step in H as [(e & -> & H)|(u & w3 & H3 & H)].
  { apply Refused. etransitivity; [exact D|]. by eapply put_raise_acts. }
  right. exists known.1, known.2, w2, u, w3. split; [exact E|]. split.
  { apply orb_true_iff in Hacc as [Hacc|[Hp%String.eqb_eq Hacc]%andb_true_iff]; [by left|by right]. }
  split; [exact H3|].
  apply any_step in H as [(e & -> & H)|(done_ & w4 & H4 & H)].
  { split; [|done]. eapply kept; [|exact H]. apply acts_db; auto with evolve. }
  injection H as <- <-. split; [eapply kept; [|exact H4]; apply acts_db; auto with evolve|]. intros _.
  apply db_step, finished_row in H4 as [H4 H5]. by exists done_.
Qed.

(** *** Admission *)

(** Why the change may start: the request matches the accepted limits of an
    active resource and its size covers the usage, or it resumes the operation
    that already carries exactly this request. *)
Definition admitted (r : ManagedResource) (scope resource_id : string) (target : quotas) (expected : dict)
    (request_id : string) (w : World) : Prop :=
  (mr_lifecycle_state r = "active"%string /\ accepts r (JObj expected) = true
   /\ exists wx c, acts same_resources w wx /\ validate_reduction r target (w_db (interfere wx)) = (Ok tt, c))
  \/ exists o wx, acts same_resources w wx
       /\ peek (get_unfinished_operation scope) (store (w_db (interfere wx))) = Ok (Some o)
       /\ op_operation_id o = request_id /\ op_kind o = LIMITS_KIND
       /\ forall k v, In (k, v) (limits_intent resource_id target expected) -> py_eqb (refs_get k (op_refs o)) v = true.

Definition journaled (o : Operation) (request_id : string) (w : World) : Prop :=
  exists wx, acts same_resources w wx /\ operation_at request_id (store (w_db wx)) = Some o.

Lemma begun_row i k sc p d refs n c o c' : begin_operation i k sc p d refs n c = (Ok o, c') ->
  operation_at i (store c') = Some o.
Proof.
  intros H. unfold begin_operation in H.
  do 5 (apply bind_ok in H as (?x & ?c & [?E ->]%lift_ok & H)). apply bind_ok in H as (t & c2 & _ & H).
  apply bind_ok in H as (u & c3 & _ & H). repeat match goal with K : uuid _ = Ok _ |- _ => apply uuid_same in K as -> end.
  by apply read_back in H as [-> H].
Qed.

Lemma acts_read {A} (m : DB A) w r w' : evolves eq m -> db m w = (r, w') -> acts same_resources w w'.
Proof. intros Hm H. eapply kept; [|exact H]. by apply acts_still; [apply _|]. Qed.

Lemma acts_write {A} (m : DB A) w r w' : evolves same_resources m -> db m w = (r, w') -> acts same_resources w w'.
Proof. intros Hm H. eapply kept; [|exact H]. by apply acts_db. Qed.

Lemma operation_admitted r scope resource_id target expected request_id d w o recovering w' :
  limits_operation r resource_id target expected request_id scope d w = (Ok (o, recovering), w') ->
  admitted r scope resource_id target expected request_id w /\ journaled o request_id w.
Proof.
  unfold limits_operation. cbv zeta. intros H. apply bind_ok in H as (u & w1 & H1 & H).
  pose proof (acts_read _ _ _ _ (unfinished_still _) H1) as D1.
  apply db_step, reads_ok in H1 as [H1 _]; [|auto with reads]. destruct u as [o0|].
  - destruct (_ || _) eqn:E; [done|]. apply orb_false_iff in E as [[E1 E2]%orb_false_iff E3].
    apply negb_false_iff, String.eqb_eq in E1, E2. apply bind_ok in H as (t & w2 & H2 & H).
    apply bind_ok in H as (o' & w3 & H3 & H). injection H as -> _ <-. split.
    + right. exists o0, w. split_and!; [reflexivity|exact H1|done|done|]. intros k v Hkv.
      apply negb_false_iff. apply not_true_iff_false. intros Hn. rewrite <- not_true_iff_false in E3. apply E3.
      apply existsb_exists. by exists (k, v).
    + exists w3. split; [|by eapply renewed_row, db_step]. etransitivity; [exact D1|].
      etransitivity; [eapply kept; [apply wall_keeps|exact H2]|].
      eapply acts_write; [|exact H3]. auto with evolve.
  - apply bind_ok in H as (v & w2 & H2 & H). pose proof (acts_read _ _ _ _ (reduction_still _ _) H2) as D2.
    apply bind_ok in H as (?x & ?c & [Ha ->]%lift_ok & H). apply bind_ok in H as (?x & ?c & [Hb ->]%lift_ok & H).
    apply bind_ok in H as (t & w3 & H3 & H). apply bind_ok in H as (o' & w4 & H4 & H). injection H as -> _ <-.
    unfold guard_else in Ha, Hb. split.
    + left. destruct (String.eqb_spec (mr_lifecycle_state r) "active"); [|done]. destruct (accepts _ _); [|done].
      split_and!; [done|done|]. destruct v. exists w1. eexists. split; [exact D1|]. by apply db_step.
    + exists w4. split; [|by eapply begun_row, db_step]. etransitivity; [exact D1|]. etransitivity; [exact D2|].
      etransitivity; [eapply kept; [apply wall_keeps|exact H3]|]. eapply acts_write; [|exact H4]. auto with evolve.
Qed.

Lemma operation_keeps r resource_id target expected request_id sc d :
  keeps (limits_operation r resource_id target expected request_id sc d).
Proof.
  unfold limits_operation. cbv zeta. apply preserves_bind; [apply _|apply acts_still; [apply _|auto with evolve]|].
  intros [o|].
  - destruct (_ || _); [intros s; reflexivity|]. apply preserves_bind; [apply _|apply wall_keeps|]. intros t.
    apply preserves_bind; [apply _|apply acts_db; auto with evolve|]. intros o' s. reflexivity.
  - apply preserves_bind; [apply _|apply acts_still; [apply _|auto with evolve]|]. intros ?.
    apply preserves_bind; [apply _|intros s; reflexivity|]. intros ?.
    apply preserves_bind; [apply _|intros s; reflexivity|]. intros ?.
    apply preserves_bind; [apply _|apply wall_keeps|]. intros t.
    apply preserves_bind; [apply _|apply acts_db; auto with evolve|]. intros o' s. reflexivity.
Qed.

(** *** A change of limits *)

(** The row of the resource as this call has read it *)
Definition row_seen (resource_id : string) (r : ManagedResource) (w wa : World) : Prop :=
  exists u, acts same_resources w u /\ acts same_resources u wa
    /\ List.find (resource_is resource_id) (managed_resources (store (w_db u))) = Some r.

Lemma seen_row i w r w' : _resource i w = (Ok r, w') -> List.find (resource_is i) (managed_resources (store (w_db w'))) = Some r.
Proof.
  unfold _resource. intros H. apply bind_ok in H as (row & w1 & H1 & H).
  apply db_step, get_resource_peek in H1 as (_ & E & Hr). destruct row as [x|]; [|done]. injection H as -> <-. by rewrite E.
Qed.

Lemma row_seen_later i r w wa wb : acts same_resources wa wb -> row_seen i r w wa -> row_seen i r w wb.
Proof. intros D (u & H1 & H2 & H3). exists u. split_and!; [done|by etransitivity|done]. Qed.

(** [r0] is the resource as first read, [r] as read under the lock. *)
Definition limits_changed (resource_id : string) (target_value expected_value : json) (request_id : string)
    (w : World) (res : result unit) (w' : World) : Prop :=
  exists r0 r target expected o usage blocked wa w1 w2,
    row_seen resource_id r0 w wa /\ row_seen resource_id r w wa
    /\ validate_quotas (mr_resource_type r0) target_value = Ok target /\ migration_needed r0 target = false
    /\ validate_expected_quotas (mr_resource_type r0) expected_value = Ok expected
    /\ acts same_resources w wa
    /\ admitted r ("app-" +:+ mr_application_id r0) resource_id target expected request_id wa
    /\ journaled o request_id wa /\ still_accepted_limits r o target expected
    /\ (evidence_of_helper r target request_id usage blocked wa w1
        \/ evidence_of_record o usage blocked /\ acts same_resources wa w1)
    /\ limits_written resource_id (mr_resource_type r0) target usage blocked
         (store (w_db (interfere w1))) (store (w_db w2))
    /\ acts same_resources w2 w' /\ (res = Ok tt -> succeeded_in request_id w').

Lemma evidence_later r target i u b w wa w1 : acts same_resources w wa ->
  evidence_of_helper r target i u b wa w1 -> evidence_of_helper r target i u b w w1.
Proof.
  intros D (wx & q & Dx & (args & d & answer & Hq & H1 & H2 & H3 & H4 & H5) & Hw).
  exists wx, q. split; [by etransitivity|]. split; [|done]. exists args, d, answer.
  by rewrite <- (follows_helper _ _ (acts_follows _ _ _ D)).
Qed.

(** [catch] around the reconciliation: what it wrote, then perhaps the mark *)
Lemma marked_ok (m : Svc unit) i w res w' :
  catch m (fun e => _ ← db (mark_recovery_required i reconciliation_needed None None); raise e) w = (res, w') ->
  (m w = (res, w') /\ res = Ok tt)
  \/ exists e w1, m w = (Raise e, w1) /\ (exists e', res = Raise e') /\ acts same_resources w1 w'.
Proof.
  unfold catch. destruct (m w) as [[[]|e] w1]; [intros [= <- <-]; by left|]. intros H. right. exists e, w1. split; [done|].
  apply any_step in H as [(e' & -> & H)|(o & w2 & H2 & H)]; [split; [eauto|]|injection H as <- <-; split; [eauto|]].
  all: eapply acts_write; [|eassumption]; auto with evolve.
Qed.

(** The body under the lock *)
Lemma select_body r0 resource_id target_value expected_value target expected request_id d w0 w res w' :
  row_seen resource_id r0 w0 w -> acts same_resources w0 w -> migration_needed r0 target = false ->
  validate_quotas (mr_resource_type r0) target_value = Ok target ->
  validate_expected_quotas (mr_resource_type r0) expected_value = Ok expected ->
  (r ← _resource resource_id;
   application ← db (get_application (mr_application_id r));
   match application with
   | None => raise AssertionError
   | Some a =>
       _ ← reject_deleting a;
       started ← limits_operation r resource_id target expected request_id ("app-" +:+ mr_application_id r0) d;
       catch (reconcile_limits call_helper platform r started.1 resource_id target expected request_id started.2 d)
         (fun e => _ ← db (mark_recovery_required request_id reconciliation_needed None None); raise e)
   end) w = (res, w') ->
  (exists e, res = Raise e) /\ acts same_resources w w'
  \/ limits_changed resource_id target_value expected_value request_id w0 res w'.
Proof.
  intros Hseen D0 Hmig Ht He H.
  apply any_step in H as [(e & -> & H)|(r & w1 & H1 & H)]; [left; split; [eauto|]; by eapply kept, H; apply found_keeps|].
  pose proof (kept _ _ _ _ _ (found_keeps _) H1) as D1.
  apply any_step in H as [(e & -> & H)|(a & w2 & H2 & H)].
  { left. split; [eauto|]. etransitivity; [exact D1|]. eapply acts_read; [|exact H]. auto with evolve. }
  assert (D2 : acts same_resources w w2).
  { etransitivity; [exact D1|]. eapply acts_read; [|exact H2]. auto with evolve. }
  destruct a as [a|]; [|injection H as <- <-; left; eauto].
  apply any_step in H as [(e & -> & H)|(? & w3 & H3 & H)].
  { left. split; [eauto|]. etransitivity; [exact D2|]. by eapply kept, H; apply deleting_keeps. }
  assert (D3 : acts same_resources w w3) by (etransitivity; [exact D2|]; by eapply kept, H3; apply deleting_keeps).
  apply any_step in H as [(e & -> & H)|([o recovering] & wa & H4 & H)].
  { left. split; [eauto|]. etransitivity; [exact D3|]. by eapply kept, H; apply operation_keeps. }
  pose proof (operation_admitted _ _ _ _ _ _ _ _ _ _ _ H4) as [Had Hj].
  assert (Da : acts same_resources w3 wa) by (by eapply kept, H4; apply operation_keeps).
  assert (R : exists res1 wb, reconciled r o resource_id target expected request_id wa res1 wb /\ acts same_resources wb w'
    /\ (res = Ok tt -> res1 = Ok tt /\ w' = wb) /\ ((exists e, res1 = Raise e) -> exists e, res = Raise e)).
  { apply marked_ok in H as [[H ->]|(e & wb & H & [e' ->] & Db)]; apply reconcile_ok in H; eexists _, _.
    - split_and!; [exact H|reflexivity|done|done].
    - split_and!; [exact H|exact Db|done|eauto]. }
  destruct R as (res1 & wb & [[Hr Dr]|(u & b & w4 & ?x & w5 & Hev & Hacc & Hput & Dp & Hs)] & Dw & Hok & Hraise).
  - left. split; [auto|]. do 2 (etransitivity; [eassumption|]). by etransitivity.
  - right. exists r0, r, target, expected, o, u, b, w3, w4, w5.
    assert (D13 : acts same_resources w1 w3).
    { etransitivity; [eapply acts_read; [|exact H2]; auto with evolve|]. by eapply kept, H3; apply deleting_keeps. }
    split_and!; try done.
    + exact (row_seen_later _ _ _ _ _ D3 Hseen).
    + exists w1. split_and!; [exact (transitivity D0 D1)|done|by eapply seen_row].
    + exact (transitivity D0 D3).
    + destruct Hev as [Hev|[Hev D4]]; [left; by eapply evidence_later|right; split; [done|exact (transitivity Da D4)]].
    + apply db_step in Hput. by eapply put_limits_written.
    + exact (transitivity Dp Dw).
    + intros Hres. destruct (Hok Hres) as [-> ->]. auto.
Qed.

Lemma lock_cases {A} scope (m : Svc A) w r w' : lock scope m w = (r, w') ->
  (r = Raise LockBusy /\ acts same_resources w w')
  \/ exists w1 w2, acts same_resources w w1 /\ m w1 = (r, w2) /\ w' = asked (Free scope) w2.
Proof.
  unfold lock. destruct (w_lock _ _).
  - destruct (m _) as [x w2] eqn:E. intros [= <- <-]. right. eexists _, w2. split; [apply (acts_asked _ (Acquire scope))|]. done.
  - intros [= <- <-]. left. split; [done|]. apply acts_asked.
Qed.

Lemma select_ok resource_id target_value expected_value request_id w res w' :
  select call_helper platform process_seconds resource_id target_value expected_value request_id w = (res, w') ->
  (exists e, res = Raise e) /\ acts same_resources w w'
  \/ limits_changed resource_id target_value expected_value request_id w res w'.
Proof.
  intros H. unfold select in H.
  apply any_step in H as [(e & -> & H)|(r0 & w1 & H1 & H)]; [left; split; [eauto|]; by eapply kept, H; apply found_keeps|].
  pose proof (kept _ _ _ _ _ (found_keeps _) H1) as D1.
  pass H as (target & Ht & H) by (left; eauto). pass H as (expected & He & H) by (left; eauto).
  pass H as (Hmig & H) by (left; eauto). pass H as (i & ->%uuid_same & H) by (left; eauto).
  apply any_step in H as [(e & -> & H)|(d & w2 & H2 & H)].
  { left. split; [eauto|]. etransitivity; [exact D1|]. by eapply kept, H; apply deadline_keeps. }
  assert (D2 : acts same_resources w w2).
  { etransitivity; [exact D1|]. by eapply kept, H2; apply deadline_keeps. }
  cbv zeta in H. apply lock_cases in H as [[-> D]|(w3 & w4 & D3 & H & ->)].
  { left. split; [eauto|]. by etransitivity. }
  assert (D : acts same_resources w w3) by (by etransitivity).
  apply negb_true_iff in Hmig.
  assert (Hseen : row_seen resource_id r0 w w3).
  { exists w1. split_and!; [done| |by eapply seen_row]. etransitivity; [eapply kept, H2; apply deadline_keeps|done]. }
  pose proof (select_body _ _ _ _ _ _ _ _ _ _ _ _ Hseen D Hmig Ht He H) as [[Hr D4]|K]; [left|right].
  - split; [done|]. etransitivity; [exact D|]. etransitivity; [exact D4|apply acts_asked].
  - destruct K as (a1 & a2 & a3 & a4 & a5 & a6 & a7 & a8 & a9 & a10 & K1 & K2 & K3 & K4 & K5 & K6 & K7 & K8 & K9 & K10 & K11 & K12 & K13).
    exists a1, a2, a3, a4, a5, a6, a7, a8, a9, a10. split_and!; try done.
    etransitivity; [exact K12|apply acts_asked].
Qed.
End Evidence.


(** *** A change, and one the helper does not confirm *)

Definition limited : conn Db := (set_managed_resource_lifecycle demo_other "active" None demo_stored).2.

Definition sampled_usage : dict := [
  ("usedBytes", JInt (5 * MIB)); ("objectCount", JNull); ("currentConnections", JInt 3);
  ("instanceMemoryBytes", JNull); ("cpuTimeMilliseconds", JNull); ("measuredAt", JStr "2025-01-01T00:00:00Z")].

Definition limits_helper (confirms : bool) (l : list Request) : result dict :=
  match l with
  | Helper "storage.postgres.limits" _ _ :: _ | Helper "storage.postgres.usage" _ _ :: _ =>
      Ok [("applied", JBool confirms); ("usage", JObj sampled_usage); ("writeBlocked", JBool false)]
  | _ => Raise (HelperError "UNKNOWN_ACTION")
  end.

Definition limits_world (confirms : bool) : World := {|
  w_db := limited; w_others := fun _ d => d; w_steps := 0; w_monotonic := fun n => Z.of_nat n; w_readings := 0;
  w_helper := limits_helper confirms; w_command := fun _ => Raise CommandFailure; w_http := fun _ => Raise OSError; w_lock := fun _ => true; w_requests := [] |}.

Definition limits_value (size cpu : Z) : json :=
  JObj [("sizeBytes", JInt size); ("connections", JInt 20); ("memoryBytes", JInt 536870912); ("cpuMillicores", JInt cpu)].

Definition demo_change (confirms : bool) :=
  select call_helper demo_platform (900 * second) demo_other (limits_value (3 * GIB) 1000) (limits_value (2 * GIB) 500)
    demo_id (limits_world confirms).

Definition limits_now (w : World) : list quotas := map accepted_quotas (managed_resources (store (w_db w))).


Definition demo_collection : result unit * Collector :=
  collect call_helper (900 * second) (60 * second) true true
    {| co_world := limits_world true; co_next_due := []; co_next_host_due := 0 |}.


(** ** Reducing a size *)

(** Whether a sample is too old, or ahead of the clock *)
Definition old_at (measured_at : json) (now : Z) : bool :=
  match measured_at with
  | JStr s =>
      match aware_instant s with
      | Some t => (STALE_SECONDS <? now - t) || (now - t <? - (60 * second))
      | None => true
      end
  | _ => true
  end.

Lemma stale_value v c : exists c', stale v c = (Ok (old_at v (clock c (ticks c))), c').
Proof. destruct v; by eexists. Qed.

Lemma old_at_false v now : old_at v now = false <->
  exists s t, v = JStr s /\ aware_instant s = Some t /\ - 60 * second <= now - t <= 900 * second.
Proof.
  unfold old_at. destruct v as [| | |s| |]; try (split; [done|by intros (? & ? & ? & _)]).
  destruct (aware_instant s) as [t|] eqn:E; [|split; [done|intros (? & ? & [= <-] & ? & _); congruence]].
  rewrite orb_false_iff, !Z.ltb_ge. unfold STALE_SECONDS, second. split.
  - intros [H1 H2]. exists s, t. split_and!; [done|done|lia|lia].
  - intros (s' & t' & [= <-] & Ht & H). rewrite E in Ht. injection Ht as <-. lia.
Qed.

(** A database may be made smaller only on a fresh sample: a size below the
    accepted one passes exactly when the cached usage was measured at most
    fifteen minutes ago (and not more than a minute ahead of the clock) and the
    size covers it with the engine's safety headroom; a size at or above the
    accepted one always passes. *)
Theorem reduction_covered r target size c (Hsize : dict_get "sizeBytes" target = Some size)
    (Hdb : mr_resource_type r <> "s3"%string) :
  (validate_reduction r target c).1 = Ok tt
  <-> or_z (mr_measured_target_bytes r) 0 <= size
      \/ exists used s t, int_of (refs_get "usedBytes" (mr_usage r)) = Some used
           /\ refs_get "measuredAt" (mr_usage r) = JStr s /\ aware_instant s = Some t
           /\ - 60 * second <= clock c (ticks c) - t <= 900 * second
           /\ used + safety_margin (mr_resource_type r) <= size.
Proof.
  unfold validate_reduction. apply String.eqb_neq in Hdb. rewrite Hdb, Hsize.
  destruct (Z.leb_spec (or_z (mr_measured_target_bytes r) 0) size) as [L|L]; [split; [by left|done]|].
  destruct (stale_value (refs_get "measuredAt" (mr_usage r)) c) as (c' & E). rewrite (bind_eq _ _ _ _ _ E).
  destruct (int_of _) as [used|]; [|by split; [|intros [|(? & ? & ? & ? & _)]; [lia|]]].
  destruct (old_at _ _) eqn:Eo.
  - split; [done|]. intros [|(u & s & t & _ & Hm & Ht & Ha & _)]; [lia|].
    assert (old_at (refs_get "measuredAt" (mr_usage r)) (clock c (ticks c)) = false) by (apply old_at_false; eauto).
    congruence.
  - apply old_at_false in Eo as (s & t & Hm & Ht & Ha). unfold require, guard_else. simpl.
    destruct (Z.leb_spec (used + safety_margin (mr_resource_type r)) size) as [Hu|Hu]; simpl.
    + split; [|done]. intros _. right. by exists used, s, t.
    + split; [done|]. intros [|(u & s' & t' & [= <-] & _ & _ & _ & Hs)]; lia.
Qed.

Lemma reduction_covered_witness :
  let r := default (new_resource demo_database demo_other "default" "default" "") (head (managed_resources (store limited))) in
  let used := set_usage sampled_usage false None r in
  let smaller := [("sizeBytes", GIB)] in
  (validate_reduction used smaller demo).1 = Ok tt
  /\ (validate_reduction r smaller demo).1 = Raise (CapacityError "USAGE_NOT_FRESH")
  /\ or_z (mr_measured_target_bytes used) 0 > GIB.
Proof.
  cbv zeta. split_and!; [|vm_compute; reflexivity|vm_compute; reflexivity].
  apply (reduction_covered _ _ GIB); [reflexivity|vm_compute; discriminate|right].
  exists (5 * MIB), "2025-01-01T00:00:00Z"%string, (days_before_year 2025 * day).
  split_and!; vm_compute; try reflexivity; intros H; discriminate H.
Defined.
