(* ===== verification/IpAddress.v ===== *)
(** * The module [ipaddress], as the address services use it
    (src/openstack_platform/floating_ip.py and fixed_ip.py)

    [IPv4Address] and [ip_address] of Python's standard library on the values a
    JSON document holds, and the two functions [ipv4] that check addresses. *)

From stdpp Require Import pretty.
From S2P Require Import Prelude Regex Json Validation.

(** ** IPv4 *)

Definition decimal_value (s : string) : Z :=
  fold_left (fun acc a => acc * 10 + (code a - 48)) (list_ascii_of_string s) 0.

(** [_parse_octet]; [None]: the text is refused *)
Definition parse_octet (s : string) : option Z :=
  if String.eqb s "" || negb (forallb digit (list_ascii_of_string s)) then None
  else if (3 <? String.length s)%nat then None
  else if negb (String.eqb s "0") && String.prefix "0" s then None
  else if 255 <? decimal_value s then None
  else Some (decimal_value s).

Definition ip_of_octets (octets : list Z) : Z := fold_left (fun acc z => Z.lor (Z.shiftl acc 8) z) octets 0.

(** The address a text denotes.  A slash is refused before the text is split. *)
Definition parse_ipv4 (s : string) : option Z :=
  if contains "/" s then None
  else
    match split_on "." s with
    | [a; b; c; d] =>
        match parse_octet a, parse_octet b, parse_octet c, parse_octet d with
        | Some a, Some b, Some c, Some d => Some (ip_of_octets [a; b; c; d])
        | _, _, _, _ => None
        end
    | _ => None
    end.

(** [str] of an address *)
Definition ipv4_text (ip : Z) : string :=
  let octet n := pretty (Z.land (Z.shiftr ip n) 255) in
  octet 24 +:+ "." +:+ octet 16 +:+ "." +:+ octet 8 +:+ "." +:+ octet 0.

(** [IPv4Address(value)]: an integer is taken as it is, a boolean is one of them;
    the text of any other value has no four decimal octets. *)
Definition IPv4Address (value : json) : option Z :=
  match value with
  | JInt z => if (0 <=? z) && (z <? 2 ^ 32) then Some z else None
  | JBool b => Some (if b then 1 else 0)
  | JStr s => parse_ipv4 s
  | _ => None
  end.

(** ** IPv6: only whether a text is an address *)

Definition hex_digit (a : ascii) : bool := hexdigit a || between 65 70 a.

Definition hextet (s : string) : bool :=
  negb (String.eqb s "") && forallb hex_digit (list_ascii_of_string s) && (String.length s <=? 4)%nat.

(** The parts once an IPv4 suffix has become two groups *)
Definition without_suffix (parts : list string) : option (list string) :=
  let last := default ""%string (List.last (map Some parts) None) in
  if contains "." last then
    match parse_ipv4 last with
    | Some _ => Some (removelast parts ++ ["0"; "0"])
    | None => None
    end
  else Some parts.

(** The indices of the empty parts but for the first and the last *)
Definition inner_gaps (parts : list string) : list nat :=
  List.filter (fun i => match nth_error parts i with Some s => String.eqb s "" | None => false end)
    (seq 1 (length parts - 2)).

Definition valid_parts (parts : list string) : bool :=
  let first := default ""%string (head parts) in
  let last := default ""%string (List.last (map Some parts) None) in
  if (9 <? length parts)%nat then false
  else
    match inner_gaps parts with
    | [] => (length parts =? 8)%nat && forallb hextet parts
    | [gap] =>
        let lo := drop (S gap) parts in
        let open_left := String.eqb first "" in
        let open_right := String.eqb last "" in
        (negb open_left || (gap =? 1)%nat) && (negb open_right || (length lo =? 1)%nat)
        && (let hi := if open_left then [] else take gap parts in
            let lo := if open_right then [] else lo in
            (length hi + length lo <? 8)%nat && forallb hextet hi && forallb hextet lo)
    | _ => false
    end.

Definition is_ipv6 (s : string) : bool :=
  if contains "/" s then false
  else
    let scoped address :=
      let parts := split_on ":" address in
      if (length parts <? 3)%nat then false
      else match without_suffix parts with Some p => valid_parts p | None => false end in
    match split_on "%" s with
    | [address] => scoped address
    | [address; zone] => negb (String.eqb zone "") && scoped address
    | _ => false
    end.

(** [ip_address(s)]: an IPv4 address with its text, an IPv6 address, or neither *)
Inductive address := Version4 (text : string) | Version6 | NoAddress.

Definition ip_address (s : string) : address :=
  match parse_ipv4 s with
  | Some ip => Version4 (ipv4_text ip)
  | None => if is_ipv6 s then Version6 else NoAddress
  end.

(** ** The checks of the two modules *)

(** floating_ip.py *)
Definition floating_ipv4 (value : json) : result string :=
  match IPv4Address value with
  | Some ip => Ok (ipv4_text ip)
  | None => Raise (DriftError "floating address must be IPv4")
  end.

(** fixed_ip.py: the text must be the address's own *)
Definition fixed_ipv4 (value : json) : result string :=
  match IPv4Address value with
  | None => Raise (DriftError "requested fixed address must be IPv4")
  | Some ip =>
      if json_eqb (JStr (ipv4_text ip)) value then Ok (ipv4_text ip)
      else Raise (DriftError "requested fixed address must be canonical IPv4 text")
  end.

Example ipv4_plain : floating_ipv4 (JStr "10.1.2.30") = Ok "10.1.2.30".
Proof. vm_compute. reflexivity. Qed.
Example ipv4_leading_zero : is_ok (floating_ipv4 (JStr "10.01.2.30")) = false.
Proof. vm_compute. reflexivity. Qed.
Example ipv6_texts : map is_ipv6 ["fe80::1"; "::"; "1::2::3"; "1:2:3:4:5:6:7:8"; "::ffff:10.0.0.1"; ":1"; "1:2:3:4:5:6:7::"; "fe80::1%eth0"; "1:2:3:4:5:6:7:8::"]
  = [true; true; false; true; true; false; true; true; false].
Proof. vm_compute. reflexivity. Qed.
