(* ===== verification/OpenStack.v ===== *)
(** * Calls to OpenStack (src/openstack_platform/openstack.py)

    The command layer that the address services share.  Each command has a
    timeout; a decorated operation shares one absolute deadline over its
    commands.  The runner, [Service.command_runner], is the OpenStack client or,
    for reads, the provider's socket: code outside this repository answers. *)

From S2P Require Import Prelude Regex Json JsonParse Clock Validation Runtime Sql Schema StorageCapacity Operations.
From S2P Require Import Sizing NomadJobs Service.

(** ** Deadlines *)

Definition _timeout_value (timeout : Z) (operation : string) : result Z :=
  if timeout <=? 0 then
    Raise (OpenStackError ("OpenStack " +:+ operation +:+ " timeout must be positive and finite"))
  else Ok timeout.

Definition _deadline_remaining (deadline : Z) (operation : string) : Svc Z :=
  now ← monotonic;
  let remaining := deadline - now in
  if remaining <=? 0 then raise (OpenStackError ("OpenStack " +:+ operation +:+ " exceeded its deadline"))
  else mret remaining.

(** [_command_scope], outside any other: the deadline of the operation *)
Definition _command_scope (timeout_seconds : Z) (operation : string) : Svc Z :=
  timeout ← lift (_timeout_value timeout_seconds operation);
  now ← monotonic;
  let deadline := now + timeout in
  _ ← _deadline_remaining deadline operation;
  mret deadline.

(** ** Reads (provider.py) *)

Definition command_words : list (list string) := [
  ["server"]; ["flavor"]; ["image"]; ["port"]; ["volume"]; ["network"]; ["subnet"]; ["router"]; ["keypair"];
  ["floating"; "ip"]; ["security"; "group"]; ["security"; "group"; "rule"]; ["volume"; "type"]].

Definition COMMANDS : list (list string) :=
  [["token"; "issue"]; ["project"; "show"]; ["catalog"; "show"]; ["console"; "log"; "show"];
   ["server"; "volume"; "list"]; ["quota"; "show"]; ["limits"; "show"]]
  ++ concat (map (fun words => [words ++ ["show"]; words ++ ["list"]]) command_words).

(** [arguments[:len(words)] == words] *)
Fixpoint begins (words arguments : list string) : bool :=
  match words, arguments with
  | [], _ => true
  | w :: words', a :: arguments' => String.eqb w a && begins words' arguments'
  | _ :: _, [] => false
  end.

Definition is_read (arguments : list string) : bool := existsb (fun words => begins words arguments) COMMANDS.

(** ** Commands; [active] is the deadline of the operation around them *)

Definition withheld : error := OpenStackError "OpenStack command failed; provider details were withheld".

Definition _run (active : option Z) (arguments : list string) (timeout_seconds : Z) : Svc CommandResult :=
  timeout ← lift (_timeout_value timeout_seconds "command");
  timeout ← (match active with
             | Some deadline => left ← _deadline_remaining deadline "command"; mret (Z.min timeout left)
             | None => mret timeout
             end : Svc Z);
  result ← catch (command_runner arguments timeout)
             (fun e => match e with CommandFailure => raise withheld | _ => raise e end);
  _ ← require (negb (cr_stdout_truncated result || cr_stderr_truncated result))
        (OpenStackError "OpenStack command output exceeded its safety limit");
  mret result.

Definition decoded (result : CommandResult) : Prelude.result json :=
  match loads (cr_stdout result) with
  | Some v => Ok v
  | None => Raise (OpenStackError "OpenStack returned malformed JSON")
  end.

Definition _json_command (active : option Z) (arguments : list string) (timeout_seconds : Z) : Svc json :=
  result ← _run active (arguments ++ ["--format"; "json"]) timeout_seconds;
  lift (decoded result).

(** ** A provider's commands: each must meet its deadline. *)

Definition within (expired : string) (deadline : Z) : Svc Z :=
  now ← monotonic;
  let remaining := deadline - now in
  if remaining <=? 0 then raise (OpenStackError expired) else mret remaining.

Definition ask (expired : string) (deadline : Z) (arguments : list string) : Svc json :=
  t ← within expired deadline; _json_command None arguments t.

Definition tell (expired : string) (deadline : Z) (arguments : list string) : Svc unit :=
  t ← within expired deadline; _ ← _run None arguments t; mret tt.

(** ** What an answer holds *)

Definition _provider_uuid (value : json) (field : string) : result string :=
  otherwise (OpenStackError ("OpenStack returned a malformed " +:+ field)) (openstack_uuid value).

(** [_field(row, name)]: only a mapping has items. *)
Definition row_field (row : json) (name : string) : result json :=
  match row with JObj d => Ok (_field d name) | _ => Raise AttributeError end.

(** [value == text], and with [None] when there is no text *)
Definition same_text (value : json) (text : option string) : bool :=
  match value, text with
  | JStr s, Some t => String.eqb s t
  | JNull, None => true
  | _, _ => false
  end.

Definition has_text (key : string) (d : dict) (text : string) : bool := same_text (refs_get key d) (Some text).

(** [bool(value)] *)
Definition truthy (value : json) : bool :=
  match value with
  | JNull | JBool false | JArr [] | JObj [] => false
  | JInt z => negb (z =? 0)
  | JStr s => negb (String.eqb s "")
  | _ => true
  end.

Definition _metadata_prefix (platform : PlatformConfig) : string :=
  map_string (fun a => if is_char "-" a then "_"%char else a) (pc_namespace platform).

(** [isinstance(value, dict)] and [isinstance(value, list)], or else the error *)
Definition document (value : json) (otherwise : error) : Svc dict :=
  match value with JObj d => mret d | _ => raise otherwise end.

Definition array (value : json) (otherwise : error) : Svc (list json) :=
  match value with JArr l => mret l | _ => raise otherwise end.

(** ** The authenticated project *)

Section Scope.
Context (scope : Z).

(** The body of [verify_project], under the deadline of an operation *)
Definition project_identity (platform : PlatformConfig) : Svc string :=
  _ ← _deadline_remaining scope "project verification";
  left ← _deadline_remaining scope "project verification";
  token ← _json_command (Some scope) ["token"; "issue"; "--column"; "project_id"] left;
  match token with
  | JObj d =>
      project_id ← lift (_provider_uuid (_field d "project_id") "project UUID");
      configured ← lift (uuid (pc_project_id platform));
      _ ← require (String.eqb project_id configured)
            (OpenStackError "authenticated OpenStack project UUID does not match configuration");
      mret project_id
  | _ => raise (OpenStackError "OpenStack token projection was not an object")
  end.

(** A decorated operation inside another shares its deadline. *)
Definition nested_scope (operation : string) : Svc unit := _ ← _deadline_remaining scope operation; mret tt.
End Scope.

Definition verify_project (platform : PlatformConfig) (timeout_seconds : Z) : Svc string :=
  scope ← _command_scope timeout_seconds "verify_project"; project_identity scope platform.

(** ** Flavors *)

Definition observe_flavor_capacity (platform : PlatformConfig) (reference : json) (timeout_seconds : Z) : Svc Flavor :=
  scope ← _command_scope timeout_seconds "observe_flavor_capacity";
  reference ← lift (flavor_reference reference);
  _ ← nested_scope scope "verify_project";
  _ ← project_identity scope platform;
  shown ← _json_command (Some scope) ["flavor"; "show"; reference; "--column"; "id"; "--column"; "name";
                                      "--column"; "vcpus"; "--column"; "ram"; "--column"; "disk"] timeout_seconds;
  match shown with
  | JObj d =>
      flavor ← lift (_flavor_capacity d);
      _ ← require (String.eqb reference (fl_flavor_id flavor) || String.eqb reference (fl_name flavor))
            (OpenStackError "OpenStack flavor reference resolved to a different identity");
      mret flavor
  | _ => raise (OpenStackError "OpenStack flavor projection was not an object")
  end.

Definition observe_flavor (platform : PlatformConfig) (reference : json) (timeout_seconds : Z) : Svc string :=
  flavor ← observe_flavor_capacity platform reference timeout_seconds; mret (fl_name flavor).
