(* ===== verification/OpenStackSpec.v ===== *)
(** * Properties of the calls to OpenStack

    What reads preserve; what an answered command has just asked; and what must
    hold where a command that changes something is asked. *)

From S2P Require Import Prelude Regex Json JsonParse Clock Validation Runtime Sql Schema StorageCapacity Operations.
From S2P Require Import OperationsSpec AdmissionSpec StorageContract DeploymentConfig Applications ApplicationsSpec.
From S2P Require Import Sizing NomadJobs Service Rollout RolloutSpec StorageLimits StorageLimitsSpec OpenStack.

(** ** Helpers *)

Lemma require_true {S} b e (s : S) u s' : require b e s = (Ok u, s') -> b = true /\ s' = s.
Proof. unfold require, guard_else. destruct b; [|done]. by intros [= _ <-]. Qed.

Lemma uuid_json v i : uuid v = Ok i -> v = JStr i.
Proof.
  unfold uuid. destruct v; try done. destruct (uuid_int s); [|done]. destruct (String.eqb_spec (uuid_str z) s); [|done].
  by intros [= ->].
Qed.

Lemma found_put {A} (p : A -> bool) x l : p x = true -> existsb p l = true ->
  List.find p (apply_where p (fun _ => x) l) = Some x.
Proof.
  intros Hp. unfold apply_where. induction l as [|y l IH]; simpl; [done|].
  destruct (p y) eqn:Ey; simpl; [by rewrite Hp|by rewrite Ey].
Qed.

Lemma found_new {A} (p : A -> bool) x l : p x = true -> existsb p l = false -> List.find p (l ++ [x]) = Some x.
Proof.
  intros Hp. induction l as [|y l IH]; simpl; [by rewrite Hp|]. intros [-> E]%orb_false_iff. by apply IH.
Qed.

(** A saved row is the one found. *)
Lemma put_found {R} `{Table Db R} (p : R -> bool) (x : R) c u c' : p x = true ->
  transaction (upsert p x (fun _ => x)) c = (Ok u, c') -> List.find p (rows (store c')) = Some x.
Proof.
  intros Hp Ht. apply transaction_ok in Ht as (c1 & Ht & -> & _). change (store (with_transaction _ c1)) with (store c1).
  unfold upsert in Ht. destruct (existsb _ _) eqn:E.
  - apply bind_ok in Ht as (n & c2 & (-> & _)%update_ok & Ht). injection Ht as _ <-. simpl in *.
    rewrite rows_put. by apply found_put.
  - apply insert_ok in Ht as [-> _]. simpl in *. rewrite rows_put. by apply found_new.
Qed.

(** A deleted row is not. *)
Lemma deleted_none {R} `{Table Db R} (p : R -> bool) c u c' :
  transaction (Sql.delete p) c = (Ok u, c') -> List.find p (rows (store c')) = None.
Proof.
  intros Ht. apply transaction_ok in Ht as (c1 & ->%delete_ok & -> & _). simpl. rewrite rows_put.
  destruct (List.find _ _) as [x|] eqn:E; [|done]. apply find_some in E as [[_ Hx]%filter_In E]. by rewrite E in Hx.
Qed.

Lemma no_match {A} (p : A -> bool) l : existsb p l = false -> List.filter p l = [].
Proof. induction l as [|x l IH]; [done|]. simpl. intros [-> H]%orb_false_iff. by apply IH. Qed.

Lemma ran_db {A} (m : DB A) w r w' : db m w = (r, w') -> follows w w'.
Proof. intros H. exact (kept _ _ _ _ _ (follows_db _) H). Qed.

Lemma still_drifts {A} (m : DB A) w r w' : evolves eq m -> db m w = (r, w') -> drifts w w'.
Proof. intros Hm H. by eapply kept; [apply drifts_db|]. Qed.

(** ** Reads

    Whatever relation reading the clock and asking for reads preserves, the
    observations of a provider preserve. *)

Section Reads.
Context (R : World -> World -> Prop) `{!PreOrder R} (Hclock : preserves R monotonic)
  (Hread : forall args t, is_read args = true -> preserves R (command_runner args t)).

Ltac observing := intros;
  repeat first [progress preserving | apply Hclock | apply preserves_ret; apply _ | apply preserves_raise; apply _
               | apply preserves_lift; apply _ | apply preserves_require; apply _].

Lemma remaining_reads d o : preserves R (_deadline_remaining d o).
Proof. unfold _deadline_remaining. observing. Qed.

Lemma run_reads active args t : is_read args = true -> preserves R (_run active args t).
Proof.
  intros Ha. unfold _run. apply preserves_bind; [apply _|observing|]. intros t1.
  apply preserves_bind; [apply _|destruct active; observing; apply remaining_reads|]. intros t2.
  apply preserves_bind; [apply _|apply preserves_catch; [apply _|by apply Hread|observing]|]. observing.
Qed.

Lemma json_reads active args t : is_read (args ++ ["--format"; "json"]) = true -> preserves R (_json_command active args t).
Proof. intros Ha. unfold _json_command. apply preserves_bind; [apply _|by apply run_reads|]. observing. Qed.

Lemma within_reads x dl : preserves R (within x dl).
Proof. unfold within. observing. Qed.

Lemma ask_reads x dl args : is_read (args ++ ["--format"; "json"]) = true -> preserves R (ask x dl args).
Proof. intros Ha. unfold ask. apply preserves_bind; [apply _|apply within_reads|]. intros t. by apply json_reads. Qed.

Lemma document_reads v e : preserves R (document v e).
Proof. unfold document. observing. Qed.
Lemma array_reads v e : preserves R (array v e).
Proof. unfold array. observing. Qed.

Lemma project_reads platform t : preserves R (OpenStack.verify_project platform t).
Proof.
  unfold OpenStack.verify_project, project_identity, _command_scope.
  repeat first [progress observing | apply remaining_reads | apply json_reads; reflexivity].
Qed.
End Reads.

(** Steps through a computation that only observes. *)
Ltac reading R Hclock Hread := intros;
  repeat first [progress preserving | apply (within_reads R Hclock) | apply (document_reads R) | apply (array_reads R)
               | apply (ask_reads R Hclock Hread); reflexivity
               | apply preserves_ret; apply _ | apply preserves_raise; apply _
               | apply preserves_lift; apply _ | apply preserves_require; apply _ | assumption].

(** ** Commands and the database *)

Lemma command_untouched args t : is_read args = true -> preserves untouched (command_runner args t).
Proof. intros _. apply untouched_command. Qed.
Lemma command_drifts args t : is_read args = true -> preserves drifts (command_runner args t).
Proof. intros _. apply drifts_command. Qed.

Lemma run_untouched args t : preserves untouched (_run None args t).
Proof.
  unfold _run. repeat first [progress preserving | apply untouched_command | apply preserves_ret; apply _ | apply preserves_raise; apply _
    | apply preserves_lift; apply _ | apply preserves_require; apply _].
Qed.

Lemma tell_untouched x dl args : preserves untouched (tell x dl args).
Proof.
  unfold tell. apply preserves_bind; [apply _|apply (within_reads untouched untouched_monotonic)|]. intros t.
  apply preserves_bind; [apply _|apply run_untouched|]. intros. apply preserves_ret. apply _.
Qed.

(** ** What an answered command has just asked *)

(** Only the clock separates the worlds. *)
Definition at_rest (w w1 : World) : Prop := untouched w w1 /\ w_requests w1 = w_requests w.

Lemma within_rests x dl w t w1 : within x dl w = (Ok t, w1) -> at_rest w w1.
Proof.
  intros H. split; [exact (kept _ _ _ _ _ (within_reads untouched untouched_monotonic x dl) H)|].
  unfold within in H. apply bind_ok in H as (n & w4 & [= <- <-] & H). cbv zeta in H.
  destruct (_ <=? _); [done|]. by injection H as _ <-.
Qed.

Lemma run_answered args t w r w' : _run None args t w = (Ok r, w') ->
  exists t', w' = asked (Command args t') w /\ w_command w' (w_requests w') = Ok r.
Proof.
  intros H. unfold _run in H. apply bind_ok in H as (t1 & w1 & [_ ->]%lift_ok & H).
  apply bind_ok in H as (t2 & w2 & [= <- <-] & H). apply bind_ok in H as (y & w3 & H3 & H).
  apply bind_ok in H as (z & w4 & [= _ <-] & [= <- <-]).
  unfold catch, command_runner in H3. destruct (w_command _ _) as [a|e] eqn:E; [|by destruct e].
  injection H3 as <- <-. by exists t1.
Qed.

Lemma ask_answered x dl args w v w' : ask x dl args w = (Ok v, w') ->
  exists t result w1, at_rest w w1 /\ w' = asked (Command (args ++ ["--format"; "json"]) t) w1
    /\ w_command w' (w_requests w') = Ok result /\ decoded result = Ok v.
Proof.
  intros H. unfold ask in H. apply bind_ok in H as (t & w1 & H1%within_rests & H).
  unfold _json_command in H. apply bind_ok in H as (r & w2 & H2 & H). apply lift_ok in H as [Hx ->].
  apply run_answered in H2 as (t' & -> & Hc). by exists t', r, w1.
Qed.

Lemma document_ok v e w d w' : document v e w = (Ok d, w') -> v = JObj d /\ w' = w.
Proof. unfold document. destruct v; try done. by intros [= -> <-]. Qed.

(** ** A protocol for the commands *)

Section Obeys.
Context (allow : World -> Request -> Prop).

Lemma run_obeys args t w : (forall t, allow w (Command args t)) -> obeys allow w (_run None args t w).2.
Proof.
  intros Ha. unfold _run. apply obeys_then; [reflexivity|]. intros t1 w1 [_ ->]%lift_ok.
  apply obeys_then; [reflexivity|]. intros t2 w2 [= <- <-]. apply obeys_then.
  - unfold catch, command_runner. destruct (w_command _ _) as [a|e]; [|destruct e]; apply obeys_ask, Ha.
  - intros r w3 _. apply obeys_then; [reflexivity|]. intros ? ? [= _ <-]. reflexivity.
Qed.

Lemma within_obeys {A} (m : Z -> Svc A) x dl w : (forall t w1, at_rest w w1 -> obeys allow w1 (m t w1).2) ->
  obeys allow w ((t ← within x dl; m t) w).2.
Proof.
  intros Hm. apply obeys_then; [apply (within_reads (obeys allow) (obeys_monotonic _) x dl)|]. intros t w1 H.
  by apply Hm, (within_rests x dl w t).
Qed.

Lemma tell_obeys x args dl w : (forall w1 t, at_rest w w1 -> allow w1 (Command args t)) ->
  obeys allow w (tell x dl args w).2.
Proof.
  intros Ha. apply within_obeys. intros t w1 U. apply obeys_then; [|intros; reflexivity].
  apply run_obeys. intros t'. by apply Ha.
Qed.

Lemma ask_obeys x args dl w : (forall w1 t, at_rest w w1 -> allow w1 (Command (args ++ ["--format"; "json"]) t)) ->
  obeys allow w (ask x dl args w).2.
Proof.
  intros Ha. apply within_obeys. intros t w1 U. unfold _json_command.
  apply obeys_then; [|intros; reflexivity]. apply run_obeys. intros t'. by apply Ha.
Qed.
End Obeys.

(** Steps over a call in a goal about what the requests obey. *)
Ltac next H :=
  apply obeys_then;
  [first [reflexivity
         |match goal with |- ?R ?w (?m ?w).2 =>
            let K := fresh in assert (K : preserves R m) by (auto with service); exact (K w) end]
  |intros ? ?w H].

(** ** Requests of one kind *)

Definition command_of (words : list string) (r : Request) : bool :=
  match r with Command args _ => begins words args | _ => false end.

Definition asked_for (words : list string) (w : World) : nat := length (List.filter (command_of words) (w_requests w)).

Definition not_asked (words : list string) (w w' : World) : Prop := asked_for words w' = asked_for words w.

#[export] Instance not_asked_preorder words : PreOrder (not_asked words).
Proof. unfold not_asked. split; [by intros w|]. intros a b c Hab Hbc. congruence. Qed.

Lemma begins_app words args : begins words args = true <-> exists rest, args = words ++ rest.
Proof.
  revert args. induction words as [|w words IH]; intros args; simpl; [split; eauto|].
  destruct args as [|a args]; [split; [done|by intros []]|]. rewrite andb_true_iff, String.eqb_eq, IH. split.
  - intros [-> [rest ->]]. by exists rest.
  - intros [rest [= -> ->]]. eauto.
Qed.

Section NotAsked.
Context (words : list string) (Hwords : forall rest, is_read (words ++ rest) = false).

Lemma read_not_asked args t : is_read args = true -> preserves (not_asked words) (command_runner args t).
Proof.
  intros Ha w. unfold not_asked, asked_for. cbn [command_runner asked snd w_requests List.filter command_of].
  destruct (begins _ args) eqn:E; [|done]. apply begins_app in E as [rest ->]. by rewrite Hwords in Ha.
Qed.

Lemma db_not_asked {A} (m : DB A) : preserves (not_asked words) (db m).
Proof. intros w. unfold db, not_asked. by destruct (m _). Qed.

Lemma clock_not_asked : preserves (not_asked words) monotonic.
Proof. by intros w. Qed.
End NotAsked.
