(* ===== verification/FloatingIp.v ===== *)
(** * Floating addresses of the provider (src/openstack_platform/floating_ip.py)

    Reads and the four mutations of Neutron floating addresses: [create],
    [assign], [detach] and [delete].  A provider is built for one platform with
    one deadline, which every command of it must meet. *)

From S2P Require Import Prelude Regex Json JsonParse Clock Validation Runtime Sql Schema StorageCapacity Operations.
From S2P Require Import Sizing NomadJobs Service Rollout OpenStack IpAddress.

Section Provider.
Context (platform : PlatformConfig) (deadline : Z).

Definition _bounds : Svc Z := within "floating IP operation exceeded its deadline" deadline.

Definition query : list string -> Svc json := ask "floating IP operation exceeded its deadline" deadline.

Definition mutate : list string -> Svc unit := tell "floating IP operation exceeded its deadline" deadline.

Definition verify : Svc unit := t ← _bounds; _ ← verify_project platform t; mret tt.

(** ** One address *)

Definition show (identifier : string) : Svc dict :=
  identifier ← lift (uuid identifier);
  value ← query ["floating"; "ip"; "show"; identifier];
  value ← document value (OpenStackError "floating IP observation is malformed");
  id ← lift (_provider_uuid (refs_get "id" value) "floating IP UUID");
  _ ← require (String.eqb id identifier) (DriftError "floating IP UUID or project ownership drifted");
  project ← lift (_provider_uuid (refs_get "project_id" value) "floating IP project UUID");
  _ ← require (String.eqb project (pc_project_id platform))
        (DriftError "floating IP UUID or project ownership drifted");
  mret value.

(** [value.get("description") or ""] *)
Definition description_of (value : dict) : json :=
  let description := refs_get "description" value in if truthy description then description else JStr "".

(** The address observed is the recorded one. *)
Definition recorded (value : dict) (record : Reservation) : bool :=
  same_text (refs_get "id" value) (re_floating_ip_id record)
  && same_text (refs_get "project_id" value) (Some (re_project_id record))
  && same_text (refs_get "floating_network_id" value) (Some (re_network_id record))
  && same_text (refs_get "floating_ip_address" value) (re_address record)
  && py_eqb (description_of value) (re_description record).

Definition check (value : dict) (record : Reservation) : result unit :=
  _ ← guard_else (recorded value record) (DriftError "recorded floating IP identity drifted");
  _ ← floating_ipv4 (refs_get "floating_ip_address" value);
  Ok tt.

(** ** All of the project's addresses *)

Fixpoint show_rows (rows : list json) (seen : list string) : Svc (list dict) :=
  match rows with
  | [] => mret []
  | row :: rest =>
      d ← document row (OpenStackError "floating IP inventory is malformed");
      identifier ← lift (_provider_uuid (_field d "id") "floating IP UUID");
      _ ← require (negb (existsb (String.eqb identifier) seen)) (DriftError "duplicate floating IP inventory identity");
      value ← show identifier;
      values ← show_rows rest (identifier :: seen);
      mret (value :: values)
  end.

Definition inventory : Svc (list dict) :=
  rows ← query ["floating"; "ip"; "list"; "--project"; pc_project_id platform];
  rows ← array rows (OpenStackError "floating IP inventory is malformed");
  show_rows rows [].

(** ** Networks *)

Definition network (identifier : string) : Svc unit :=
  checked ← lift (uuid identifier);
  value ← query ["network"; "show"; checked];
  let drifted := DriftError "floating IP network is not the exact external network" in
  d ← document value drifted;
  id ← lift (_provider_uuid (refs_get "id" d) "network UUID");
  require (String.eqb id identifier && is_true (refs_get "router:external" d)) drifted.

Definition worker_network : Svc dict :=
  value ← query ["network"; "show"; pc_network platform];
  let drifted := DriftError "configured worker network identity is ambiguous" in
  d ← document value drifted;
  _ ← require (has_text "name" d (pc_network platform)) drifted;
  _ ← lift (_provider_uuid (refs_get "id" d) "worker network UUID");
  mret d.

(** ** Capability: read-only evidence that an address would work *)

Definition quota_limits (quota : list json) : list json :=
  omap (fun row => match row with
    | JObj d => if has_text "Resource" d "floating_ips" then Some (refs_get "Limit" d) else None
    | _ => None
    end) quota.

Definition quota_limit (quota : list json) : result Z :=
  match quota_limits quota with
  | [JInt z] => if z <? -1 then Raise (OpenStackError "floating IP quota is unavailable or malformed") else Ok z
  | _ => Raise (OpenStackError "floating IP quota is unavailable or malformed")
  end.

Definition add_new (s : string) (set : list string) : list string :=
  if existsb (String.eqb s) set then set else set ++ [s].

(** The IPv4 subnets of the workers' network *)
Fixpoint ipv4_subnets (worker_id : json) (subnets : list json) (found : list string) : Svc (list string) :=
  match subnets with
  | [] => mret found
  | v :: rest =>
      identifier ← lift (uuid v);
      subnet ← query ["subnet"; "show"; identifier];
      let drifted := DriftError "worker subnet ownership drifted" in
      d ← document subnet drifted;
      _ ← require (has_text "id" d identifier && py_eqb (refs_get "network_id" d) worker_id) drifted;
      ipv4_subnets worker_id rest
        (if json_eqb (refs_get "ip_version" d) (JInt 4) then add_new identifier found else found)
  end.

(** [value in {texts}]: a list or a dict is not hashable. *)
Definition in_words (texts : list string) (value : json) : result bool :=
  match value with
  | JStr s => Ok (one_of_words texts s)
  | JArr _ | JObj _ => Raise TypeError
  | _ => Ok false
  end.

Definition interface_owners : list string :=
  ["network:router_interface"; "network:router_interface_distributed"; "network:ha_router_replicated_interface"].

Fixpoint interface_subnets (items : list json) : result (list string) :=
  match items with
  | [] => Ok []
  | JObj d :: rest => s ← uuid (refs_get "subnet_id" d); others ← interface_subnets rest; Ok (s :: others)
  | _ :: _ => Raise AttributeError
  end.

Definition is_dict (v : json) : bool := match v with JObj _ => true | _ => false end.

(** The subnets a router's interfaces on the workers' network have *)
Fixpoint connected_subnets (router worker_id : json) (ports : list json) : Svc (list string) :=
  match ports with
  | [] => mret []
  | row :: rest =>
      id ← lift (row_field row "id");
      pid ← lift (_provider_uuid id "router port UUID");
      port ← query ["port"; "show"; pid];
      let drifted := DriftError "router interface ownership drifted" in
      d ← document port drifted;
      owner ← lift (in_words interface_owners (refs_get "device_owner" d));
      _ ← require (has_text "id" d pid && has_text "project_id" d (pc_project_id platform)
                   && py_eqb (refs_get "device_id" d) router && py_eqb (refs_get "network_id" d) worker_id
                   && owner) drifted;
      let malformed := DriftError "router interface subnet evidence is malformed" in
      fixed ← array (refs_get "fixed_ips" d) malformed;
      _ ← require (forallb is_dict fixed) malformed;
      subnets ← lift (interface_subnets fixed);
      others ← connected_subnets router worker_id rest;
      mret (subnets ++ others)
  end.

(** A router that gives the external network to the workers by SNAT *)
Definition snat_gateway (router : dict) (network_id : string) : bool :=
  match refs_get "external_gateway_info" router with
  | JObj gateway => has_text "network_id" gateway network_id && is_true (refs_get "enable_snat" gateway)
  | _ => false
  end.

Fixpoint matching_routers (network_id : string) (worker_id : string) (ipv4 : list string) (routers : list json)
    : Svc (list string) :=
  match routers with
  | [] => mret []
  | row :: rest =>
      id ← lift (row_field row "id");
      identifier ← lift (_provider_uuid id "router UUID");
      router ← query ["router"; "show"; identifier];
      let drifted := DriftError "router UUID or project ownership drifted" in
      d ← document router drifted;
      _ ← require (has_text "id" d identifier && has_text "project_id" d (pc_project_id platform)) drifted;
      if snat_gateway d network_id then
        ports ← query ["port"; "list"; "--device-id"; identifier; "--network"; worker_id];
        ports ← array ports (OpenStackError "router interface inventory is malformed");
        connected ← connected_subnets identifier worker_id ports;
        others ← matching_routers network_id worker_id ipv4 rest;
        mret (if (length ipv4 =? 1)%nat && forallb (fun s => existsb (String.eqb s) connected) ipv4
              then identifier :: others else others)
      else matching_routers network_id worker_id ipv4 rest
  end.

Record Capability := {
  cp_reasons : list string;
  cp_network : string;
  cp_worker_network : string;
  cp_quota : Z;
  cp_used : Z;
  cp_router : option string;
}.

(** [capability["supported"]] *)
Definition supported (c : Capability) : bool := (length (cp_reasons c) =? 0)%nat.

Definition plan (network_id : string) (allocating : bool) : Svc Capability :=
  _ ← verify;
  _ ← network network_id;
  worker ← worker_network;
  worker_id ← lift (match refs_get "id" worker with JStr s => Ok s | _ => Raise KeyError end);
  quota ← query ["quota"; "show"; "--network"];
  quota ← array quota (OpenStackError "network quota projection is malformed");
  limit ← lift (quota_limit quota);
  addresses ← inventory;
  let used := Z.of_nat (length addresses) in
  let exhausted := allocating && negb (limit =? -1) && (limit <=? used) in
  let incomplete := DriftError "configured worker subnet inventory is incomplete" in
  subnets ← array (refs_get "subnets" worker) incomplete;
  _ ← require (negb (length subnets =? 0)%nat) incomplete;
  ipv4 ← ipv4_subnets worker_id subnets [];
  routers ← query ["router"; "list"; "--project"; pc_project_id platform];
  routers ← array routers (OpenStackError "router inventory is malformed");
  matching ← matching_routers network_id worker_id ipv4 routers;
  mret {| cp_reasons := (if exhausted then ["floating_ip_quota_exhausted"] else [])
            ++ (match matching with [_] => [] | _ => ["no_unique_visible_snat_router_for_worker_subnet"] end);
          cp_network := network_id; cp_worker_network := worker_id; cp_quota := limit; cp_used := used;
          cp_router := match matching with [r] => Some r | _ => None end |}.

(** ** A worker's port: proof of full ownership, not of a name *)

(** [server.get("project_id", server.get("tenant_id"))] *)
Definition server_project (server : dict) : json :=
  match dict_get "project_id" server with Some v => v | None => refs_get "tenant_id" server end.

Definition slot_marker (slot slug : string) : string :=
  "managed-by=platform;application-id=" +:+ slot +:+ ";application-slug=" +:+ slug.

Definition owned_port (d : dict) (target : WorkerSlot) (slot : string) : bool :=
  has_text "id" d (ws_port_id target)
  && has_text "project_id" d (pc_project_id platform)
  && has_text "device_id" d (ws_server_id target)
  && has_text "name" d (ws_port_name target)
  && has_text "description" d (slot_marker slot (ws_slug target))
  && is_true (refs_get "port_security_enabled" d).

(** Each rule belongs to the group; ingress only comes from the ingress group. *)
Fixpoint no_direct_ingress (group ingress_id : string) (rules : list json) : Svc unit :=
  match rules with
  | [] => mret tt
  | row :: rest =>
      id ← lift (row_field row "id");
      rule_id ← lift (_provider_uuid id "security rule UUID");
      rule ← query ["security"; "group"; "rule"; "show"; rule_id];
      let drifted := DriftError "worker security rule ownership drifted" in
      d ← document rule drifted;
      _ ← require (has_text "id" d rule_id && has_text "security_group_id" d group
                   && has_text "project_id" d (pc_project_id platform)) drifted;
      _ ← require (has_text "direction" d "egress"
                   || has_text "direction" d "ingress" && has_text "remote_group_id" d ingress_id
                      && json_eqb (refs_get "remote_ip_prefix" d) JNull
                      && json_eqb (refs_get "remote_address_group_id" d) JNull)
            (DriftError "direct worker ingress is unsupported for stable outbound IPv4");
      no_direct_ingress group ingress_id rest
  end.

Definition security (groups : json) : Svc unit :=
  let changed := DriftError "worker must retain exactly its worker security group" in
  groups ← array groups changed;
  match groups with
  | [v] =>
      group_id ← lift (uuid v);
      group ← query ["security"; "group"; "show"; group_id];
      let drifted := DriftError "worker security group ownership drifted" in
      d ← document group drifted;
      _ ← require (has_text "id" d group_id && has_text "project_id" d (pc_project_id platform)
                   && has_text "name" d (pc_prefix platform +:+ "-worker")) drifted;
      ingress ← query ["security"; "group"; "show"; pc_prefix platform +:+ "-ingress"];
      let drifted := DriftError "ingress security group ownership drifted" in
      i ← document ingress drifted;
      _ ← require (has_text "project_id" i (pc_project_id platform)
                   && has_text "name" i (pc_prefix platform +:+ "-ingress")) drifted;
      ingress_id ← lift (_provider_uuid (refs_get "id" i) "ingress security group UUID");
      rules ← query ["security"; "group"; "rule"; "list"; group_id];
      rules ← array rules (DriftError "worker security rules are malformed");
      no_direct_ingress group_id ingress_id rules
  | _ => raise changed
  end.

Definition owned_server (d : dict) (target : WorkerSlot) (slot : string) : bool :=
  let prefix := _metadata_prefix platform in
  has_text "id" d (ws_server_id target)
  && has_text "name" d (ws_server_name target)
  && same_text (server_project d) (Some (pc_project_id platform))
  && match refs_get "properties" d with
     | JObj properties => has_text (prefix +:+ "_managed_by") properties "platform"
         && has_text (prefix +:+ "_application_id") properties slot
         && has_text (prefix +:+ "_application_slug") properties (ws_slug target)
     | _ => false
     end.

(** The IPv4 addresses among [fixed_ips] *)
Fixpoint ipv4_addresses (items : list json) : result (list string) :=
  match items with
  | [] => Ok []
  | JObj d :: rest =>
      match ip_address (py_str (refs_get "ip_address" d)) with
      | NoAddress => Raise (DriftError "worker fixed address is malformed")
      | Version6 => ipv4_addresses rest
      | Version4 text => others ← ipv4_addresses rest; Ok (text :: others)
      end
  | _ :: _ => Raise (DriftError "worker fixed addresses are malformed")
  end.

(** The port's one IPv4 address; [expected] is the recorded one, if any. *)
Definition port (target : WorkerSlot) (expected : option string) : Svc string :=
  port_id ← lift (uuid (ws_port_id target));
  value ← query ["port"; "show"; port_id];
  slot ← lift (uuid (ws_slot_id target));
  let drifted := DriftError "worker port ownership or port security drifted" in
  d ← document value drifted;
  _ ← require (owned_port d target slot) drifted;
  network ← worker_network;
  _ ← require (py_eqb (refs_get "network_id" d) (refs_get "id" network))
        (DriftError "worker port is outside the configured network");
  _ ← security (refs_get "security_group_ids" d);
  server_id ← lift (uuid (ws_server_id target));
  server ← query ["server"; "show"; server_id];
  let drifted := DriftError "worker server ownership drifted" in
  s ← document server drifted;
  _ ← require (owned_server s target slot) drifted;
  fixed ← array (refs_get "fixed_ips" d) (DriftError "worker fixed addresses are malformed");
  addresses ← lift (ipv4_addresses fixed);
  match addresses with
  | [a] =>
      _ ← require (match expected with Some e => String.eqb e a | None => true end)
            (DriftError "recorded worker fixed IPv4 address drifted");
      mret a
  | _ => raise (DriftError "worker must have exactly one fixed IPv4 address")
  end.

(** ** Mutations *)

Definition create (network_id description : string) : Svc dict :=
  value ← query ["floating"; "ip"; "create"; "--description"; description; network_id];
  document value (OpenStackError "floating IP creation response is malformed").

Definition assign (identifier : string) (target : Binding) : Svc unit :=
  mutate ["floating"; "ip"; "set"; "--port"; ws_port_id (bi_slot target); "--fixed-ip-address"; bi_fixed_ip target;
          identifier].

Definition detach (identifier : string) : Svc unit := mutate ["floating"; "ip"; "unset"; "--port"; identifier].

Definition delete (identifier : string) : Svc unit := mutate ["floating"; "ip"; "delete"; identifier].
End Provider.
