(* ===== verification/FixedIp.v ===== *)
(** * Retained primary ports of the provider (src/openstack_platform/fixed_ip.py)

    Reads, [create] and [delete] of the Neutron port that keeps an application's
    primary address, and [check_port], the closed projection every use of the
    port must match. *)

From stdpp Require Import pretty.
From S2P Require Import Prelude Regex Json JsonParse Clock Validation Runtime Sql Schema StorageCapacity Operations.
From S2P Require Import StorageContract DeploymentConfig Sizing NomadJobs Service Rollout OpenStack IpAddress FloatingIp.

(** ** IPv4 networks ([ipaddress.IPv4Network], strict) *)

(** [_prefix_from_ip_int]: the mask is a run of ones followed by zeros. *)
Definition mask_of (prefix : Z) : Z := Z.shiftl (2 ^ prefix - 1) (32 - prefix).

Definition prefix_of_mask (mask : Z) : option Z :=
  List.find (fun p => mask_of p =? mask) (map Z.of_nat (seq 0 33)).

(** A netmask, or else a hostmask *)
Definition prefix_of_text (s : string) : option Z :=
  if negb (String.eqb s "") && forallb digit (list_ascii_of_string s) then
    if decimal_value s <=? 32 then Some (decimal_value s) else None
  else
    match parse_ipv4 s with
    | Some mask => match prefix_of_mask mask with
                   | Some p => Some p
                   | None => prefix_of_mask (Z.lxor mask (2 ^ 32 - 1))
                   end
    | None => None
    end.

Record Network4 := { nw_address : Z; nw_prefix : Z }.

Definition strict_network (address prefix : Z) : option Network4 :=
  if Z.land address (mask_of prefix) =? address then Some {| nw_address := address; nw_prefix := prefix |} else None.

Definition parse_network (value : json) : option Network4 :=
  match value with
  | JInt _ | JBool _ => address ← IPv4Address value; strict_network address 32
  | JStr s =>
      match split_on "/" s with
      | [a] => address ← parse_ipv4 a; strict_network address 32
      | [a; p] => address ← parse_ipv4 a; prefix ← prefix_of_text p; strict_network address prefix
      | _ => None
      end
  | _ => None
  end.

Definition network_text (n : Network4) : string := ipv4_text (nw_address n) +:+ "/" +:+ pretty (nw_prefix n).

Definition in_network (ip : Z) (n : Network4) : bool := Z.land ip (mask_of (nw_prefix n)) =? nw_address n.

Definition broadcast (n : Network4) : Z := Z.lor (nw_address n) (Z.lxor (mask_of (nw_prefix n)) (2 ^ 32 - 1)).

Example networks : (fun s => network_text <$> parse_network (JStr s)) <$> ["10.1.0.0/16"; "10.1.0.0/255.255.0.0"; "10.1.0.1/16"; "10.0.0.7"]
  = [Some "10.1.0.0/16"; Some "10.1.0.0/16"; None; Some "10.0.0.7/32"]%string.
Proof. vm_compute. reflexivity. Qed.

(** ** A port's closed projection *)

(** [result["key"] = _provider_uuid(value.get("key"))] *)
Definition normal_field (key field : string) (value result : dict) : Prelude.result dict :=
  u ← _provider_uuid (refs_get key value) field; Ok (dict_set key (JStr u) result).

Fixpoint uuids_of (field : string) (items : list json) : Prelude.result (list json) :=
  match items with
  | [] => Ok []
  | v :: rest => u ← _provider_uuid v field; others ← uuids_of field rest; Ok (JStr u :: others)
  end.

Fixpoint normal_addresses (items : list json) : Prelude.result (list json) :=
  match items with
  | [] => Ok []
  | JObj d :: rest =>
      u ← _provider_uuid (refs_get "subnet_id" d) "port subnet UUID";
      others ← normal_addresses rest;
      Ok (JObj (dict_set "subnet_id" (JStr u) d) :: others)
  | _ :: _ => Raise AttributeError
  end.

Definition normalize_port (value : dict) : Prelude.result dict :=
  r ← normal_field "id" "port id" value value;
  r ← normal_field "project_id" "port project_id" value r;
  r ← normal_field "network_id" "port network_id" value r;
  r ← (if truthy (refs_get "device_id" value) then normal_field "device_id" "port device UUID" value r else Ok r);
  let malformed := DriftError "retained port group/address projection is malformed" in
  match refs_get "security_group_ids" value, refs_get "fixed_ips" value with
  | JArr groups, JArr fixed =>
      _ ← guard_else (forallb is_dict fixed) malformed;
      groups ← uuids_of "port security group UUID" groups;
      fixed ← normal_addresses fixed;
      Ok (dict_set "fixed_ips" (JArr fixed) (dict_set "security_group_ids" (JArr groups) r))
  | _, _ => Raise malformed
  end.

Definition expected_port (record : PortRecord) (device_id : string) : dict := [
  ("id", opt_text (po_port_id record)); ("name", JStr (po_name record)); ("project_id", JStr (po_project_id record));
  ("network_id", JStr (po_network_id record)); ("description", JStr (po_description record));
  ("fixed_ips", JArr [JObj [("subnet_id", JStr (po_subnet_id record)); ("ip_address", JStr (po_address record))]]);
  ("security_group_ids", JArr [JStr (po_security_group_id record)]); ("port_security_enabled", JBool true);
  ("allowed_address_pairs", JArr []); ("device_id", JStr device_id)].

Definition is_none_or (empty : json) (v : json) : bool := json_eqb v JNull || json_eqb v empty.

Definition compute_owner (owner : json) : bool :=
  match owner with JStr s => String.prefix "compute:" s && negb (String.eqb s "compute:") | _ => false end.

Definition check_port (value : dict) (record : PortRecord) (device_id : string) : Prelude.result unit :=
  value ← normalize_port value;
  let detached := String.eqb device_id "" in
  _ ← guard_else (is_true (refs_get "port_security_enabled" value)
                  && forallb (fun kv => py_eqb (refs_get kv.1 value) kv.2) (expected_port record device_id))
        (DriftError "retained primary port identity, address, security or attachment drifted");
  let owner := refs_get "device_owner" value in
  _ ← guard_else (if detached then json_eqb owner (JStr "") else compute_owner owner)
        (DriftError "retained primary port device owner drifted");
  _ ← guard_else (is_none_or (JObj []) (refs_get "trunk_details" value))
        (DriftError "retained primary port must not be a trunk");
  guard_else (negb detached || is_none_or (JStr "") (refs_get "binding:host_id" value)
                               && is_none_or (JStr "") (refs_get "binding_host_id" value))
    (DriftError "retained primary port is still bound to a host").

(** ** The provider *)

Section FixedProvider.
Context (platform : PlatformConfig) (deadline : Z).

Definition _bounds : Svc Z := within "retained port operation exceeded its deadline" deadline.

Definition query : list string -> Svc json := ask "retained port operation exceeded its deadline" deadline.

Definition verify : Svc unit := t ← _bounds; _ ← verify_project platform t; mret tt.

Definition worker_group : string := pc_prefix platform +:+ "-worker".

(** [subnet_id not in {_provider_uuid(item) for item in ...}] *)
Definition lists_subnet (subnet_id : string) (network : dict) (drifted : error) : Prelude.result unit :=
  match refs_get "subnets" network with
  | JArr items =>
      known ← uuids_of "subnet UUID" items;
      guard_else (existsb (json_eqb (JStr subnet_id)) known) drifted
  | _ => Raise drifted
  end.

(** The address can be asked for in the subnet. *)
Definition usable_address (ip : Z) (address : string) (cidr : Network4) (gateway : json) : bool :=
  in_network ip cidr && negb (ip =? nw_address cidr) && negb (ip =? broadcast cidr) && negb (same_text gateway (Some address)).

Record PortPlan := {
  pp_network_id : string;
  pp_subnet_id : string;
  pp_address : string;
  pp_security_group_id : string;
  pp_cidr : string;
}.

Definition plan (network_id subnet_id address : string) : Svc PortPlan :=
  _ ← verify;
  network_id ← lift (uuid network_id);
  subnet_id ← lift (uuid (JStr subnet_id));
  address ← lift (fixed_ipv4 (JStr address));
  network ← query ["network"; "show"; pc_network platform];
  subnet ← query ["subnet"; "show"; subnet_id];
  let drifted := DriftError "retained port must use the exact configured worker network" in
  n ← document network drifted;
  id ← lift (_provider_uuid (refs_get "id" n) "network UUID");
  _ ← require (String.eqb id network_id && has_text "name" n (pc_network platform)) drifted;
  _ ← lift (lists_subnet subnet_id n drifted);
  let drifted := DriftError "retained port subnet identity drifted" in
  s ← document subnet drifted;
  id ← lift (_provider_uuid (refs_get "id" s) "subnet UUID");
  _ ← require (String.eqb id subnet_id) drifted;
  of_network ← lift (_provider_uuid (refs_get "network_id" s) "network UUID");
  _ ← require (String.eqb of_network network_id && json_eqb (refs_get "ip_version" s) (JInt 4)) drifted;
  cidr ← lift (match parse_network (refs_get "cidr" s) with
               | Some c => Ok c
               | None => Raise (DriftError "worker subnet CIDR is malformed")
               end);
  ip ← lift (match parse_ipv4 address with Some ip => Ok ip | None => Raise ValueError end);
  _ ← require (usable_address ip address cidr (refs_get "gateway_ip" s))
        (DriftError "requested IPv4 is not a usable address in the worker subnet");
  group ← query ["security"; "group"; "show"; worker_group];
  let drifted := DriftError "worker security group identity drifted" in
  g ← document group drifted;
  project ← lift (_provider_uuid (refs_get "project_id" g) "security group project UUID");
  _ ← require (String.eqb project (pc_project_id platform) && has_text "name" g worker_group) drifted;
  group_id ← lift (_provider_uuid (refs_get "id" g) "worker security group UUID");
  mret {| pp_network_id := network_id; pp_subnet_id := subnet_id; pp_address := address;
          pp_security_group_id := group_id; pp_cidr := network_text cidr |}.

Definition show (identifier : string) : Svc dict :=
  checked ← lift (uuid identifier);
  value ← query ["port"; "show"; checked];
  let malformed := DriftError "retained port observation identity is malformed" in
  d ← document value malformed;
  value ← lift (normalize_port d);
  _ ← require (has_text "id" value identifier) malformed;
  mret value.

(** What narrows an inventory *)
Inductive selector := ByName (name : string) | ByIdentifier (identifier : string).

Fixpoint row_ids (rows : list json) : Prelude.result (list (json * string)) :=
  match rows with
  | [] => Ok []
  | row :: rest =>
      v ← row_field row "id";
      id ← _provider_uuid v "port UUID";
      others ← row_ids rest;
      Ok ((row, id) :: others)
  end.

Definition selected (s : selector) (row : json) (id : string) : bool :=
  match s with
  | ByIdentifier i => String.eqb id i
  | ByName n => match row with JObj d => same_text (_field d "name") (Some n) | _ => false end
  end.

Fixpoint show_selected (s : selector) (rows : list (json * string)) : Svc (list dict) :=
  match rows with
  | [] => mret []
  | (row, id) :: rest =>
      if selected s row id then value ← show id; values ← show_selected s rest; mret (value :: values)
      else show_selected s rest
  end.

Definition inventory (s : selector) : Svc (list dict) :=
  _ ← lift (match s with ByIdentifier i => ignore (uuid i) | ByName _ => Ok tt end);
  rows ← query ["port"; "list"; "--project"; pc_project_id platform];
  rows ← array rows (OpenStackError "port inventory is malformed");
  ids ← lift (row_ids rows);
  _ ← require (bool_decide (NoDup (map snd ids))) (DriftError "duplicate port inventory identity");
  show_selected s ids.

Definition check (value : dict) (record : PortRecord) (device_id : string) : Svc unit :=
  _ ← lift (check_port value record device_id);
  _ ← require (String.eqb (po_project_id record) (pc_project_id platform))
        (DriftError "retained port belongs to a different project");
  p ← plan (po_network_id record) (po_subnet_id record) (po_address record);
  require (String.eqb (pp_security_group_id p) (po_security_group_id record))
    (DriftError "retained worker security group changed").

Definition create (record : PortRecord) : Svc dict :=
  value ← query ["port"; "create"; "--network"; po_network_id record; "--fixed-ip";
    "subnet=" +:+ po_subnet_id record +:+ ",ip-address=" +:+ po_address record;
    "--security-group"; po_security_group_id record; "--description"; po_description record; po_name record];
  d ← document value (OpenStackError "retained port creation response is malformed");
  id ← lift (_provider_uuid (refs_get "id" d) "created port UUID");
  mret (dict_set "id" (JStr id) d).

Definition delete (identifier : string) : Svc unit :=
  checked ← lift (uuid identifier);
  tell "retained port operation exceeded its deadline" deadline ["port"; "delete"; checked].
End FixedProvider.

(** ** What a helper's request may say of a port *)

Definition marker (platform : PlatformConfig) (app_id request_id : string) : string :=
  pc_namespace platform +:+ ":app-fixed-port:" +:+ app_id +:+ ":" +:+ request_id.

Definition port_name (platform : PlatformConfig) (app_id : string) : string :=
  pc_prefix platform +:+ "-app-" +:+ app_id +:+ "-primary-v4".

Definition request_uuids : list string :=
  ["application_id"; "request_id"; "project_id"; "network_id"; "subnet_id"; "security_group_id"; "port_id"].

Definition validate_request (value : json) (platform : PlatformConfig) (slot_id application_slug : string)
    : Prelude.result dict :=
  match value with
  | JObj d =>
      _ ← guard_else (same_keys d (request_uuids ++ ["address"; "name"; "description"]))
            (DriftError "retained port request fields are invalid");
      _ ← each (fun k => uuid (refs_get k d)) request_uuids;
      _ ← fixed_ipv4 (refs_get "address" d);
      app_id ← uuid (refs_get "application_id" d);
      ids ← deployment_worker_ids app_id;
      request_id ← uuid (refs_get "request_id" d);
      _ ← guard_else (one_of_words [app_id; ids.1; ids.2] slot_id
                      && has_text "project_id" d (pc_project_id platform)
                      && has_text "name" d (port_name platform app_id)
                      && has_text "description" d (marker platform app_id request_id))
            (DriftError "retained port request ownership does not match worker slot");
      Ok d
  | _ => Raise (DriftError "retained port request fields are invalid")
  end.
