(* ===== verification/PublicIp.v ===== *)
(** * Stable outbound addresses
    (src/openstack_platform/controller/public_ip_service.py)

    The reservation of a floating address for an application, its handover to the
    accepted worker, and its release.  [PublicIPService.mutate] runs the three
    under the application's lock, inside a journaled operation; before every
    mutation of the provider the reservation records what is about to happen. *)

From S2P Require Import Prelude Regex Json JsonParse Clock Validation Runtime Sql Schema StorageCapacity Operations.
From S2P Require Import StorageContract DeploymentConfig Applications NomadJobs Service Rollout OpenStack IpAddress FloatingIp.

(** ** The row *)

Definition ip_of (application_id : string) (r : FloatingIp) : bool := String.eqb (fi_application_id r) application_id.

Definition get (application_id : string) : DB (option Reservation) :=
  identifier ← lift (uuid application_id);
  row ← fetchone (ip_of identifier);
  mret (fi_record <$> row).

Definition reservation_row (application_id : string) (r : Reservation) : FloatingIp :=
  {| fi_application_id := application_id; fi_floating_ip_id := re_floating_ip_id r; fi_record := r |}.

Definition _save (application_id : string) (r : Reservation) : DB unit :=
  transaction (upsert (ip_of application_id) (reservation_row application_id r)
    (fun _ => reservation_row application_id r)).

Definition _forget (application_id : string) : DB unit :=
  transaction (Sql.delete (ip_of application_id)).

(** [record_json]: what the column holds, with [sort_keys] *)
Definition phase_text (p : ip_phase) : string :=
  match p with
  | ip_allocating => "allocating" | ip_reserved => "reserved" | ip_assigning => "assigning" | ip_active => "active"
  | ip_releasing => "releasing" | ip_detached => "detached" | ip_deleting => "deleting"
  end.

Definition binding_document (b : Binding) : json := JObj [
  ("slot_id", JStr (ws_slot_id (bi_slot b))); ("slug", JStr (ws_slug (bi_slot b)));
  ("server_id", JStr (ws_server_id (bi_slot b))); ("server_name", JStr (ws_server_name (bi_slot b)));
  ("port_id", JStr (ws_port_id (bi_slot b))); ("port_name", JStr (ws_port_name (bi_slot b)));
  ("fixed_ip", JStr (bi_fixed_ip b))].

Definition record_document (r : Reservation) : json := JObj [
  ("request_id", JStr (re_request_id r)); ("project_id", JStr (re_project_id r));
  ("network_id", JStr (re_network_id r)); ("floating_ip_id", opt_json JStr (re_floating_ip_id r));
  ("address", opt_json JStr (re_address r)); ("description", re_description r);
  ("allocated", JBool (re_allocated r)); ("phase", JStr (phase_text (re_phase r)));
  ("port", opt_json binding_document (re_port r)); ("pending_port", opt_json binding_document (re_pending_port r))].

(** ... and how it is read back *)
Definition phase_of_text (s : string) : option ip_phase :=
  List.find (fun p => String.eqb (phase_text p) s)
    [ip_allocating; ip_reserved; ip_assigning; ip_active; ip_releasing; ip_detached; ip_deleting].

Definition read_text (v : json) : option string := match v with JStr s => Some s | _ => None end.

Definition read_opt {A} (f : json -> option A) (v : json) : option (option A) :=
  match v with JNull => Some None | _ => Some <$> f v end.

Definition read_binding (v : json) : option Binding :=
  match v with
  | JObj d =>
      slot ← read_text (refs_get "slot_id" d); slug ← read_text (refs_get "slug" d);
      server ← read_text (refs_get "server_id" d); server_name ← read_text (refs_get "server_name" d);
      port ← read_text (refs_get "port_id" d); port_name ← read_text (refs_get "port_name" d);
      fixed_ip ← read_text (refs_get "fixed_ip" d);
      Some {| bi_slot := {| ws_slot_id := slot; ws_slug := slug; ws_server_id := server; ws_server_name := server_name;
                            ws_port_id := port; ws_port_name := port_name |}; bi_fixed_ip := fixed_ip |}
  | _ => None
  end.

Definition read_record (v : json) : option Reservation :=
  match v with
  | JObj d =>
      request ← read_text (refs_get "request_id" d); project ← read_text (refs_get "project_id" d);
      network ← read_text (refs_get "network_id" d); ip ← read_opt read_text (refs_get "floating_ip_id" d);
      address ← read_opt read_text (refs_get "address" d);
      allocated ← (match refs_get "allocated" d with JBool b => Some b | _ => None end);
      phase ← read_text (refs_get "phase" d) ≫= phase_of_text;
      port ← read_opt read_binding (refs_get "port" d);
      pending ← read_opt read_binding (refs_get "pending_port" d);
      Some {| re_request_id := request; re_project_id := project; re_network_id := network; re_floating_ip_id := ip;
              re_address := address; re_description := refs_get "description" d; re_allocated := allocated;
              re_phase := phase; re_port := port; re_pending_port := pending |}
  | _ => None
  end.

(** ** What the interface shows *)

Definition port_of (o : option Binding) : json := opt_json (fun b => JStr (ws_port_id (bi_slot b))) o.

Definition model (application_id : string) : DB dict :=
  record ← get application_id;
  mret (match record with
  | None => [("applicationId", JStr application_id); ("enabled", JBool false)]
  | Some r => [
      ("applicationId", JStr application_id); ("enabled", JBool true);
      ("floatingIpId", opt_json JStr (re_floating_ip_id r)); ("address", opt_json JStr (re_address r));
      ("externalNetworkId", JStr (re_network_id r)); ("phase", JStr (phase_text (re_phase r)));
      ("reservationId", JStr (re_request_id r));
      ("allocationMarker", if re_allocated r then re_description r else JNull);
      ("ownership", JStr (if re_allocated r then "allocated" else "supplied"));
      ("portId", port_of (re_port r)); ("pendingPortId", port_of (re_pending_port r));
      ("ingressPolicy", JStr "unsupported"); ("purpose", JStr "stable-outbound-ipv4")]
  end).

(** ** Changes of a reservation *)

Definition with_address (id address : string) (r : Reservation) : Reservation := {|
  re_request_id := re_request_id r; re_project_id := re_project_id r; re_network_id := re_network_id r;
  re_floating_ip_id := Some id; re_address := Some address; re_description := re_description r;
  re_allocated := re_allocated r; re_phase := re_phase r; re_port := re_port r;
  re_pending_port := re_pending_port r |}.

Definition with_phase (p : ip_phase) (r : Reservation) : Reservation := {|
  re_request_id := re_request_id r; re_project_id := re_project_id r; re_network_id := re_network_id r;
  re_floating_ip_id := re_floating_ip_id r; re_address := re_address r; re_description := re_description r;
  re_allocated := re_allocated r; re_phase := p; re_port := re_port r; re_pending_port := re_pending_port r |}.

Definition with_ports (port pending : option Binding) (r : Reservation) : Reservation := {|
  re_request_id := re_request_id r; re_project_id := re_project_id r; re_network_id := re_network_id r;
  re_floating_ip_id := re_floating_ip_id r; re_address := re_address r; re_description := re_description r;
  re_allocated := re_allocated r; re_phase := re_phase r; re_port := port; re_pending_port := pending |}.

(** [value.get("port_id")] and [value.get("fixed_ip_address")] are a target's,
    or both absent. *)
Definition _association (value : dict) (target : option Binding) : bool :=
  match target with
  | None => json_eqb (refs_get "port_id" value) JNull && json_eqb (refs_get "fixed_ip_address" value) JNull
  | Some b => has_text "port_id" value (ws_port_id (bi_slot b)) && has_text "fixed_ip_address" value (bi_fixed_ip b)
  end.

Section PublicIP.
Context (platform : PlatformConfig) (process_seconds : Z).

Definition recovery_required (message : string) : error := RecoveryRequired message.

(** The accepted worker, if the application should run *)
Definition worker_names (slot : string) : string * string :=
  let server := pc_prefix platform +:+ "-worker-" +:+ String.substring 0 12 (concat_all (split_on "-" slot)) in
  (server, server +:+ "-v4").

Definition _target (application_id : string) : Svc (option WorkerSlot) :=
  application ← db (get_application application_id);
  deployment ← db (get_deployment application_id);
  match application, deployment with
  | Some a, Some d =>
      if negb (app_desired_running a) then mret None else
      slot ← lift (nomad_placement_id (de_nomad_job d));
      ids ← lift (deployment_worker_ids application_id);
      _ ← require (one_of_words [application_id; ids.1; ids.2] slot)
            (DriftError "accepted worker slot does not belong to this application");
      let names := worker_names slot in
      _ ← require (bool_decide (app_worker_server_name a = Some names.1)
                   && bool_decide (app_worker_port_name a = Some names.2))
            (DriftError "accepted worker names do not match the owned slot");
      server_id ← lift (uuid (opt_json JStr (app_worker_server_id a)));
      port_id ← lift (uuid (opt_json JStr (app_worker_port_id a)));
      mret (Some {| ws_slot_id := slot; ws_slug := app_slug a; ws_server_id := server_id;
                    ws_server_name := names.1; ws_port_id := port_id; ws_port_name := names.2 |})
  | _, _ => mret None
  end.

Definition _record_identity (record : Reservation) : result unit :=
  _ ← guard_else (String.eqb (re_project_id record) (pc_project_id platform))
        (DriftError "floating IP reservation belongs to a different project");
  _ ← uuid (re_network_id record);
  match re_floating_ip_id record with
  | Some i => _ ← uuid i; _ ← floating_ipv4 (opt_json JStr (re_address record)); Ok tt
  | None => Ok tt
  end.

(** [record] becomes the address [value] shows, once all agrees. *)
Definition _adopt_result (application_id : string) (record : Reservation) (value : dict) : Svc Reservation :=
  identifier ← lift (uuid (refs_get "id" value));
  address ← lift (floating_ipv4 (refs_get "floating_ip_address" value));
  let record := with_address identifier address record in
  _ ← lift (check value record);
  _ ← require (_association value None) (DriftError "new or supplied floating IP must be unassociated");
  let record := with_phase ip_reserved record in
  _ ← db (_save application_id record);
  mret record.

Definition unresolved : error :=
  recovery_required "allocation outcome unresolved; inspect exact reservation marker before recovery".

Definition _recover_allocation (deadline : Z) (application_id : string) (record : Reservation) : Svc Reservation :=
  values ← inventory platform deadline;
  match List.filter (fun v => py_eqb (refs_get "description" v) (re_description record)) values with
  | [value] => _adopt_result application_id record value
  | _ => raise unresolved
  end.

(** Recovery of an allocation whose outcome is open *)
Definition settled_allocation (deadline : Z) (application_id : string) (record : Reservation) : Svc Reservation :=
  if bool_decide (re_phase record = ip_allocating) then _recover_allocation deadline application_id record
  else mret record.

(** The recorded address, observed and checked *)
Definition reobserve (deadline : Z) (record : Reservation) : Svc dict :=
  identifier ← lift (uuid (opt_json JStr (re_floating_ip_id record)));
  value ← show platform deadline identifier;
  _ ← lift (check value record);
  mret value.

(** [record["floating_ip_id"]], once it was observed *)
Definition address_id (record : Reservation) : string := default ""%string (re_floating_ip_id record).

Definition activated (value : dict) : bool :=
  has_text "status" value "ACTIVE" && truthy (refs_get "router_id" value).

(** [provider.port(binding)] *)
Definition prove_binding (deadline : Z) (b : option Binding) : Svc unit :=
  match b with
  | Some b => _ ← port platform deadline (bi_slot b) (Some (bi_fixed_ip b)); mret tt
  | None => mret tt
  end.

Definition in_phase (phases : list ip_phase) (record : Reservation) : bool := bool_decide (re_phase record ∈ phases).

(** *** The handover to the accepted worker *)

(** The address, last seen as [value], moves from its port to [target], or is
    there already. *)
Definition hand_over (deadline : Z) (application_id : string) (record : Reservation) (value : dict)
    (target : Binding) : Svc unit :=
  let old := re_port record in
  let record := with_ports old (Some target) (with_phase ip_assigning record) in
  _ ← db (_save application_id record);
  _ ← (if _association value (Some target) then mret tt
       else
         value ← reobserve deadline record;
         _ ← require (_association value old) (DriftError "floating IP association changed before reassignment");
         assign deadline (address_id record) target : Svc unit);
  value ← reobserve deadline record;
  _ ← port platform deadline (bi_slot target) (Some (bi_fixed_ip target));
  _ ← require (_association value (Some target) && activated value)
        (recovery_required "floating IP reassociation and router activation were not confirmed");
  db (_save application_id (with_ports (Some target) None (with_phase ip_active record))).

Definition pending_at (value : dict) (pending : option Binding) : bool :=
  match pending with Some _ => _association value pending | None => false end.

Definition reconcile_accepted (application_id : string) (deadline : Z) : Svc unit :=
  record ← db (get application_id);
  match record with
  | None => mret tt
  | Some record =>
      _ ← lift (_record_identity record);
      _ ← verify platform deadline;
      record ← settled_allocation deadline application_id record;
      _ ← require (in_phase [ip_reserved; ip_active; ip_assigning] record)
            (recovery_required "floating IP release must finish before deployment");
      target ← _target application_id;
      value ← reobserve deadline record;
      match target with
      | None =>
          require (bool_decide (re_port record = None) && _association value None)
            (DriftError "unbound reservation unexpectedly has an association")
      | Some slot =>
          fixed_ip ← port platform deadline slot None;
          let target := {| bi_slot := slot; bi_fixed_ip := fixed_ip |} in
          _ ← require (bool_decide (re_pending_port record = None \/ re_pending_port record = Some target))
                (DriftError "accepted worker differs from journaled floating IP target");
          _ ← prove_binding deadline (re_port record);
          _ ← require (_association value (re_port record) || pending_at value (re_pending_port record))
                (DriftError "floating IP association drifted outside the recorded transition");
          if bool_decide (re_port record = Some target /\ re_pending_port record = None) then
            require (activated value) (recovery_required "floating IP router activation was not confirmed")
          else hand_over deadline application_id record value target
      end
  end.

(** *** Release *)

(** The address leaves its port. *)
Definition take_off (deadline : Z) (application_id : string) (record : Reservation) : Svc Reservation :=
  let record := with_phase ip_releasing record in
  _ ← db (_save application_id record);
  value ← reobserve deadline record;
  _ ← require (_association value (re_port record)) (DriftError "floating IP association changed before release");
  _ ← detach deadline (address_id record);
  value ← reobserve deadline record;
  _ ← require (_association value None) (recovery_required "floating IP detach was not confirmed");
  mret record.

Definition delete_allocated (deadline : Z) (application_id : string) (record : Reservation) : Svc unit :=
  let record := with_phase ip_deleting record in
  _ ← db (_save application_id record);
  value ← reobserve deadline record;
  _ ← require (_association value None) (DriftError "floating IP acquired an association before deletion");
  _ ← delete deadline (address_id record);
  values ← inventory platform deadline;
  require (negb (existsb (fun v => same_text (refs_get "id" v) (re_floating_ip_id record)) values))
    (recovery_required "floating IP deletion was not confirmed").

Definition release_locked (application_id : string) (deadline : Z) (reserve_only : bool) : Svc unit :=
  record ← db (get application_id);
  match record with
  | None => mret tt
  | Some record =>
      _ ← lift (_record_identity record);
      _ ← verify platform deadline;
      record ← settled_allocation deadline application_id record;
      _ ← require (bool_decide (re_pending_port record = None))
            (recovery_required "finish floating IP handover before release");
      values ← inventory platform deadline;
      match List.filter (fun v => same_text (refs_get "id" v) (re_floating_ip_id record)) values with
      | [] =>
          if re_allocated record && in_phase [ip_deleting] record then db (_forget application_id)
          else raise (DriftError "recorded floating IP is missing without deletion intent")
      | value :: _ =>
          _ ← lift (check value record);
          _ ← prove_binding deadline (re_port record);
          _ ← require (_association value (re_port record)
                       || in_phase [ip_releasing; ip_detached; ip_deleting] record && _association value None)
                (DriftError "refusing release of a floating IP with unrelated association");
          record ← (if _association value None then mret record
                    else take_off deadline application_id record : Svc Reservation);
          let record := with_ports None (re_pending_port record)
                          (with_phase (if reserve_only then ip_reserved else ip_detached) record) in
          _ ← db (_save application_id record);
          if reserve_only then mret tt else
          _ ← (if re_allocated record then delete_allocated deadline application_id record else mret tt : Svc unit);
          db (_forget application_id)
      end
  end.

(** ** PublicIPService *)

Definition capability_document (application_id : string) (c : Capability) : dict := [
  ("applicationId", JStr application_id); ("supported", JBool (supported c));
  ("reasons", JArr (map JStr (cp_reasons c))); ("externalNetworkId", JStr (cp_network c));
  ("workerNetworkId", JStr (cp_worker_network c)); ("floatingIpQuota", JInt (cp_quota c));
  ("floatingIpsUsed", JInt (cp_used c)); ("routerId", opt_json JStr (cp_router c));
  ("purpose", JStr "stable-outbound-ipv4"); ("ingressPolicy", JStr "unsupported")].

(** [prepare_plan(...)()] *)
Definition plan_capability (application_id network_id : string) : Svc dict :=
  identifier ← lift (uuid application_id);
  application ← db (get_application identifier);
  match application with
  | None => raise (ValidationError "application does not exist")
  | Some _ =>
      deadline ← operation_deadline process_seconds;
      checked ← lift (uuid network_id);
      capability ← plan platform deadline checked true;
      mret (capability_document application_id capability)
  end.

Inductive action := Allocate | Attach | Release | Reconcile.
#[export] Instance action_eq : EqDecision action.
Proof. solve_decision. Defined.

Definition read_action (s : string) : result action :=
  if String.eqb s "allocate" then Ok Allocate else if String.eqb s "attach" then Ok Attach
  else if String.eqb s "release" then Ok Release else if String.eqb s "reconcile" then Ok Reconcile
  else Raise (ValidationError "invalid public IP action").

Definition acquires (a : action) : bool := match a with Allocate | Attach => true | _ => false end.

Record IpRequest := {
  ir_application_id : string;
  ir_action : string;
  ir_network_id : option string;
  ir_floating_ip_id : option string;
  ir_request_id : string;
}.

Definition ip_scope (q : IpRequest) : string := "app-" +:+ ir_application_id q.

Definition ip_refs (q : IpRequest) : dict := [
  ("application_id", JStr (ir_application_id q)); ("action", JStr (ir_action q));
  ("network_id", opt_json JStr (ir_network_id q)); ("floating_ip_id", opt_json JStr (ir_floating_ip_id q))].

(** The operation the request runs under; [true] when it succeeded already. *)
Definition public_ip_operation (q : IpRequest) (deadline : Z) : Svc bool :=
  operation ← db (get_operation (ir_request_id q));
  match operation with
  | Some o =>
      if negb (String.eqb (op_kind o) "app.public-ip") || negb (String.eqb (op_scope o) (ip_scope q))
         || negb (py_eqb (JObj (op_refs o)) (JObj (ip_refs q)))
      then raise (IdempotencyConflictError "public IP request identity differs")
      else if bool_decide (op_st o = op_succeeded) then mret true
      else if bool_decide (op_st o = op_failed) then raise (DatabaseError "public IP request already failed")
      else
        at_ ← wall_deadline deadline;
        _ ← db (renew_operation_deadline (ir_request_id q) at_ None);
        mret false
  | None =>
      at_ ← wall_deadline deadline;
      _ ← db (begin_operation (ir_request_id q) "app.public-ip" (ip_scope q) "validated" at_ (ip_refs q) None);
      mret false
  end.

(** *** A new reservation *)

Definition marker (q : IpRequest) : string :=
  pc_namespace platform +:+ ":app-public-ip:" +:+ ir_application_id q +:+ ":" +:+ ir_request_id q.

Definition new_reservation (q : IpRequest) (a : action) (network_id : string) (description : json) : Reservation := {|
  re_request_id := ir_request_id q; re_project_id := pc_project_id platform; re_network_id := network_id;
  re_floating_ip_id := ir_floating_ip_id q; re_address := None; re_description := description;
  re_allocated := bool_decide (a = Allocate); re_phase := ip_allocating; re_port := None;
  re_pending_port := None |}.

Definition reserved_elsewhere (floating_ip_id : string) : DB bool :=
  row ← fetchone (fun r : FloatingIp => bool_decide (fi_floating_ip_id r = Some floating_ip_id));
  mret (match row with Some _ => true | None => false end).

Definition attach_supplied (q : IpRequest) (network_id floating_ip_id : string) (deadline : Z) : Svc unit :=
  value ← show platform deadline floating_ip_id;
  let supplied := DriftError "supplied floating IP must be unassociated" in
  _ ← require (_association value None) supplied;
  taken ← db (reserved_elsewhere floating_ip_id);
  _ ← require (negb taken) (DriftError "floating IP is already reserved for another app");
  _ ← _adopt_result (ir_application_id q) (new_reservation q Attach network_id (description_of value)) value;
  mret tt.

Definition allocate_new (q : IpRequest) (network_id : string) (deadline : Z) : Svc unit :=
  let record := new_reservation q Allocate network_id (JStr (marker q)) in
  _ ← db (_save (ir_application_id q) record);
  created ← create deadline network_id (marker q);
  identifier ← lift (uuid (refs_get "id" created));
  value ← show platform deadline identifier;
  _ ← _adopt_result (ir_application_id q) record value;
  mret tt.

(** *** mutate *)

Definition has_fixed_port (application_id : string) : DB bool :=
  row ← fetchone (fun r : FixedPort => String.eqb (fp_application_id r) application_id);
  mret (match row with Some _ => true | None => false end).

Definition unavailable (c : Capability) : error :=
  CapabilityUnavailable ("stable outbound IPv4 unavailable: " +:+ join ", " (cp_reasons c)).

(** The reservation of this request, made unless it exists *)
Definition acquire (q : IpRequest) (a : action) (network_id : string) (deadline : Z) : Svc unit :=
  fixed ← db (has_fixed_port (ir_application_id q));
  _ ← require (negb fixed)
        (ValidationError "floating and retained fixed IP reservations are mutually exclusive");
  record ← db (get (ir_application_id q));
  match record with
  | Some r =>
      require (String.eqb (re_request_id r) (ir_request_id q))
        (ValidationError "release the existing reservation before replacing it")
  | None =>
      capability ← plan platform deadline network_id (bool_decide (a = Allocate));
      _ ← require (supported capability) (unavailable capability);
      match ir_floating_ip_id q with
      | Some i => attach_supplied q network_id i deadline
      | None => allocate_new q network_id deadline
      end
  end.

Definition perform (q : IpRequest) (a : action) (deadline : Z) : Svc unit :=
  match a with
  | Allocate | Attach =>
      network_id ← lift (match ir_network_id q with Some n => Ok n | None => Raise AssertionError end);
      _ ← acquire q a network_id deadline;
      reconcile_accepted (ir_application_id q) deadline
  | Release => release_locked (ir_application_id q) deadline false
  | Reconcile => reconcile_accepted (ir_application_id q) deadline
  end.

(** [except Exception as error]: nothing is reserved for this request, or what is
    reserved needs recovery. *)
Definition record_ip_failure (q : IpRequest) (a : action) (e : error) : Svc unit :=
  saved ← db (get (ir_application_id q));
  let failed := match saved with
    | None => true
    | Some r => acquires a && negb (String.eqb (re_request_id r) (ir_request_id q))
    end in
  _ ← (if failed then db (mark_failed (ir_request_id q) (Exn (error_name e)) "not_required" None)
       else db (mark_recovery_required (ir_request_id q) (Exn (error_name e)) None None));
  mret tt.

(** The arguments, checked *)
Definition checked_ip_request (application_id action_text : string) (network_id floating_ip_id : option string)
    : result (string * action) :=
  identifier ← uuid application_id;
  a ← read_action action_text;
  _ ← guard_else (Bool.eqb (acquires a) (bool_decide (network_id <> None)))
        (ValidationError "allocate/attach require the exact external network UUID");
  _ ← guard_else (Bool.eqb (bool_decide (a = Attach)) (bool_decide (floating_ip_id <> None)))
        (ValidationError "only attach requires an existing floating IP UUID");
  _ ← opt_check network_id (fun n => ignore (uuid n));
  _ ← opt_check floating_ip_id (fun i => ignore (uuid i));
  Ok (identifier, a).

(** The body under the application's lock *)
Definition mutate_locked (q : IpRequest) (a : action) (deadline : Z) : Svc dict :=
  application ← db (get_application (ir_application_id q));
  match application with
  | None => raise (ValidationError "application does not exist")
  | Some _ =>
      done ← public_ip_operation q deadline;
      if done : bool then db (model (ir_application_id q)) else
      _ ← catch (_ ← perform q a deadline;
                 _ ← db (mark_succeeded (ir_request_id q) "confirmed" None); mret tt)
            (fun e => _ ← record_ip_failure q a e; raise e);
      db (model (ir_application_id q))
  end.

(** [PublicIPService.mutate] *)
Definition mutate (application_id action_text : string) (network_id floating_ip_id request_id : option string)
    : Svc dict :=
  checked ← lift (checked_ip_request application_id action_text network_id floating_ip_id);
  request ← (match request_id with
             | Some s => if String.eqb s "" then db fresh_uuid else mret s
             | None => db fresh_uuid
             end : Svc string);
  request ← lift (uuid (JStr request));
  let q := {| ir_application_id := checked.1; ir_action := action_text; ir_network_id := network_id;
              ir_floating_ip_id := floating_ip_id; ir_request_id := request |} in
  deadline ← operation_deadline process_seconds;
  lock (ip_scope q) (mutate_locked q checked.2 deadline).
End PublicIP.
