(* ===== verification/RetainedPort.v ===== *)
(** * Retained primary ports of applications
    (src/openstack_platform/controller/fixed_ip_service.py)

    The reservation of a port for an application's workers, the helper calls that
    carry it through every worker slot, and its release.  Two journals protect
    what cannot be asked twice: the creation of the port, and the creation of a
    worker on it. *)

From S2P Require Import Prelude Regex Json JsonParse Clock Validation Runtime Sql Schema StorageCapacity Operations.
From S2P Require Import StorageContract DeploymentConfig Applications Resources Sizing NomadJobs Service Rollout.
From S2P Require Import OpenStack IpAddress FloatingIp PublicIp FixedIp.

(** ** The row *)

Definition port_of_app (application_id : string) (r : FixedPort) : bool := String.eqb (fp_application_id r) application_id.

Definition get (application_id : string) : DB (option PortRecord) :=
  row ← fetchone (port_of_app application_id);
  mret (fp_record <$> row).

Definition port_row (r : PortRecord) : FixedPort :=
  {| fp_application_id := po_application_id r; fp_port_id := po_port_id r; fp_record := r |}.

Definition _save (r : PortRecord) : DB unit :=
  transaction (upsert (port_of_app (po_application_id r)) (port_row r) (fun _ => port_row r)).

Definition _forget (application_id : string) : DB unit :=
  transaction (Sql.delete (port_of_app application_id)).

Definition with_port (id : string) (r : PortRecord) : PortRecord := {|
  po_application_id := po_application_id r; po_request_id := po_request_id r; po_project_id := po_project_id r;
  po_network_id := po_network_id r; po_subnet_id := po_subnet_id r; po_address := po_address r;
  po_security_group_id := po_security_group_id r; po_port_id := Some id; po_name := po_name r;
  po_description := po_description r; po_phase := po_phase r; po_worker_slot_id := po_worker_slot_id r;
  po_worker_create_pending := po_worker_create_pending r |}.

Definition with_port_phase (p : port_phase) (r : PortRecord) : PortRecord := {|
  po_application_id := po_application_id r; po_request_id := po_request_id r; po_project_id := po_project_id r;
  po_network_id := po_network_id r; po_subnet_id := po_subnet_id r; po_address := po_address r;
  po_security_group_id := po_security_group_id r; po_port_id := po_port_id r; po_name := po_name r;
  po_description := po_description r; po_phase := p; po_worker_slot_id := po_worker_slot_id r;
  po_worker_create_pending := po_worker_create_pending r |}.

Definition with_worker (slot : option string) (pending : bool) (r : PortRecord) : PortRecord := {|
  po_application_id := po_application_id r; po_request_id := po_request_id r; po_project_id := po_project_id r;
  po_network_id := po_network_id r; po_subnet_id := po_subnet_id r; po_address := po_address r;
  po_security_group_id := po_security_group_id r; po_port_id := po_port_id r; po_name := po_name r;
  po_description := po_description r; po_phase := po_phase r; po_worker_slot_id := slot;
  po_worker_create_pending := pending |}.

Definition port_phase_text (p : port_phase) : string :=
  match p with po_allocating => "allocating" | po_reserved => "reserved" | po_deleting => "deleting" end.

Definition model (application_id : string) : DB dict :=
  record ← get application_id;
  mret (match record with
  | None => [("applicationId", JStr application_id); ("enabled", JBool false)]
  | Some r => [
      ("applicationId", JStr application_id); ("enabled", JBool true); ("portId", opt_text (po_port_id r));
      ("networkId", JStr (po_network_id r)); ("subnetId", JStr (po_subnet_id r)); ("address", JStr (po_address r));
      ("reservationId", JStr (po_request_id r)); ("phase", JStr (port_phase_text (po_phase r)));
      ("workerSlotId", opt_text (po_worker_slot_id r)); ("workerCreatePending", JBool (po_worker_create_pending r));
      ("replacementPolicy", JStr "disabled-predecessor-absent"); ("purpose", JStr "retained-primary-ipv4")]
  end).

Definition helper_identity (r : PortRecord) : result dict :=
  if bool_decide (po_phase r = po_reserved) && bool_decide (po_port_id r <> None) then
    Ok [("application_id", JStr (po_application_id r)); ("request_id", JStr (po_request_id r));
        ("project_id", JStr (po_project_id r)); ("network_id", JStr (po_network_id r));
        ("subnet_id", JStr (po_subnet_id r)); ("address", JStr (po_address r));
        ("security_group_id", JStr (po_security_group_id r)); ("port_id", opt_text (po_port_id r));
        ("name", JStr (po_name r)); ("description", JStr (po_description r))]
  else Raise (RecoveryRequired "finish retained primary port reservation/release first").

(** ** Helper calls that carry the reservation *)

Definition text_item (key : string) (args : dict) : result string :=
  match dict_get key args with Some (JStr s) => Ok s | Some _ => Raise TypeError | None => Raise KeyError end.

Definition item (key : string) (args : dict) : result json :=
  match dict_get key args with Some v => Ok v | None => Raise KeyError end.

Definition slots_of (application_id : string) : result (list string) :=
  ids ← deployment_worker_ids application_id; Ok [application_id; ids.1; ids.2].

Section WorkerHelper.
Context (caller : Caller).

Definition is_single (args : dict) : bool := truthy (refs_get "single" args).

(** The first reservation that bears on the call *)
Definition bears (action slot : string) (args : dict) (r : FixedPort) : bool :=
  String.eqb action "app.worker.delete" && String.eqb slot (po_application_id (fp_record r)) && negb (is_single args)
  || bool_decide (po_worker_slot_id (fp_record r) = Some slot).

Definition worker_actions : list string :=
  ["app.worker.create"; "app.worker.observe"; "app.worker.delete"; "app.worker.capacity"].

(** The slot's reservation, and the arguments with its identity *)
Definition carry (r : PortRecord) (args : dict) : Svc dict :=
  current ← db (get_application (po_application_id r));
  let foreign := DriftError "retained port worker request belongs to another app" in
  _ ← lift (match current with
            | Some a => slug ← item "slug" args; guard_else (same_text slug (Some (app_slug a))) foreign
            | None => Raise foreign
            end);
  identity ← lift (helper_identity r);
  mret (dict_set "retainedPort" (JObj identity) args).

(** The application of a slot, with its storage instances *)
Fixpoint owner_among (slot : string) (apps : list Application) : result (option string) :=
  match apps with
  | [] => Ok None
  | a :: rest =>
      slots ← slots_of (app_application_id a);
      if one_of_words slots slot then Ok (Some (app_application_id a)) else owner_among slot rest
  end.

Definition instances_of (slot : string) : Svc (option (string * list string)) :=
  apps ← db list_applications;
  owner ← lift (owner_among slot apps);
  match owner with
  | None => mret None
  | Some o =>
      resources ← db (list_managed_resources (Some o));
      mret (Some (o, omap mr_instance_id resources))
  end.

(** *** The allow-list of the instances' network *)

(** The allow-list last applied has this slot at the address [result] shows. *)
Definition still_listed (cached : WorkerAllowlist) (instance_ids : list string) (slot : string) (result : dict) : bool :=
  let address := refs_get "address" result in
  bool_decide (wa_instance_ids cached = sort_by str_leb instance_ids)
  && match dict_get slot (wa_slots cached) with
     | Some listed => same_text address listed
     | None => false
     end
  && (negb (json_eqb address JNull) || is_true (refs_get "absent" result)).

(** The address of one slot, observed unless the call's own answer shows it *)
Definition probe (args : dict) (deadline : Z) (retained : option PortRecord) (slot : string) (result : option dict)
    (identity : string) : Svc dict :=
  slug ← lift (item "slug" args);
  let plain := [("applicationId", JStr identity); ("slug", slug)] in
  arguments ← lift (match retained with
    | Some r =>
        if bool_decide (po_worker_slot_id r = Some identity) then
          i ← helper_identity r; Ok (dict_set "retainedPort" (JObj i) plain)
        else Ok plain
    | None => Ok plain
    end);
  match result with
  | Some answer => if String.eqb identity slot then mret answer else caller "app.worker.observe" arguments deadline
  | None => caller "app.worker.observe" arguments deadline
  end.

(** [str(address)], and the address itself where there is one *)
Fixpoint slot_addresses (args : dict) (deadline : Z) (retained : option PortRecord) (slot : string) (result : option dict)
    (removed identities : list string) : Svc (list (string * option string) * list json) :=
  match identities with
  | [] => mret ([], [])
  | identity :: rest =>
      if one_of_words removed identity then
        others ← slot_addresses args deadline retained slot result removed rest;
        mret ((identity, None) :: others.1, others.2)
      else
        observed ← probe args deadline retained slot result identity;
        let address := refs_get "address" observed in
        let present := negb (json_eqb address JNull) in
        _ ← require (present || is_true (refs_get "absent" observed))
              (ApplicationError "worker address observation was not confirmed");
        others ← slot_addresses args deadline retained slot result removed rest;
        mret ((identity, if present then Some (py_str address) else None) :: others.1,
              if present then address :: others.2 else others.2)
  end.

Definition allowlist_of (application_id : string) (r : WorkerAllowlist) : bool :=
  String.eqb (wa_application_id r) application_id.

Definition put_allowlist (r : WorkerAllowlist) : DB unit :=
  transaction (upsert (allowlist_of (wa_application_id r)) r (fun _ => r)).

Definition removed_slots (action slot owner : string) (args : dict) : result (list string) :=
  if String.eqb action "app.worker.delete" then
    if is_single args then Ok [slot] else slots ← slots_of owner; Ok (slot :: slots)
  else Ok [].

Definition reconcile_network (action slot : string) (args : dict) (deadline : Z)
    (instances : option (string * list string)) (result : option dict) : Svc unit :=
  match instances with
  | None | Some (_, []) => mret tt
  | Some (owner, instance_ids) =>
      removed ← lift (removed_slots action slot owner args);
      cached ← db (fetchone (allowlist_of owner));
      let unchanged := match result, cached with
        | Some answer, Some c => String.eqb action "app.worker.observe" && still_listed c instance_ids slot answer
        | _, _ => false
        end in
      if unchanged : bool then mret tt else
      retained ← db (get owner);
      slots ← lift (slots_of owner);
      found ← slot_addresses args deadline retained slot result removed slots;
      applied ← caller "storage.instances.network"
        [("applicationId", JStr owner); ("instanceIds", JArr (map JStr instance_ids)); ("addresses", JArr found.2);
         ("mode", JStr "replace")] deadline;
      _ ← require (is_true (refs_get "applied" applied))
            (ApplicationError "instance worker network assignment was not confirmed");
      db (put_allowlist {| wa_application_id := owner; wa_instance_ids := sort_by str_leb instance_ids;
                           wa_slots := found.1 |})
  end.

(** *** One call *)

(** An answer that shows the server on the port ends an open creation. *)
Definition resolve_creation (selected : option PortRecord) (result : dict) : Svc unit :=
  match selected with
  | Some r =>
      if po_worker_create_pending r then
        _ ← require (negb (json_eqb (refs_get "serverId" result) JNull)
                     && same_text (refs_get "portId" result) (po_port_id r))
              (RecoveryRequired "retained worker create outcome unresolved; exact server observation required");
        _ ← lift (uuid (refs_get "serverId" result));
        db (_save (with_worker (po_worker_slot_id r) false r))
      else mret tt
  | None => mret tt
  end.

(** The call with its reservation, if any, once that is carried *)
Definition carried_call (action slot : string) (args : dict) (deadline : Z) (selected : option PortRecord) : Svc dict :=
  instances ← (if one_of_words ["app.worker.create"; "app.worker.observe"; "app.worker.delete"] action
               then instances_of slot else mret None : Svc (option (string * list string)));
  _ ← (if one_of_words ["app.worker.delete"; "app.worker.create"] action
       then reconcile_network action slot args deadline instances None else mret tt : Svc unit);
  result ← caller action args deadline;
  _ ← (if one_of_words ["app.worker.create"; "app.worker.observe"] action
       then reconcile_network action slot args deadline instances (Some result) else mret tt : Svc unit);
  _ ← resolve_creation selected result;
  mret result.

(** A call for one slot, with the first reservation that bears on it *)
Definition observe_slot (slot : string) (args : dict) (deadline : Z) : Svc dict :=
  rows ← db (select (bears "app.worker.observe" slot args));
  match rows with
  | r :: _ =>
      carried ← carry (fp_record r) args;
      carried_call "app.worker.observe" slot carried deadline (Some (fp_record r))
  | [] => carried_call "app.worker.observe" slot args deadline None
  end.

(** Before a worker is created or deleted: an open creation is resolved, and a
    new one is recorded. *)
Definition prepare_slot (action slot : string) (args : dict) (deadline : Z) (r : PortRecord) : Svc PortRecord :=
  if one_of_words ["app.worker.create"; "app.worker.delete"] action then
    r ← (if po_worker_create_pending r then
           slug ← lift (item "slug" args);
           _ ← observe_slot slot [("applicationId", JStr slot); ("slug", slug)] deadline;
           fresh ← db (get (po_application_id r));
           match fresh with Some f => mret f | None => raise AssertionError end
         else mret r : Svc PortRecord);
    if String.eqb action "app.worker.create" then
      let r := with_worker (po_worker_slot_id r) true r in
      _ ← db (_save r); mret r
    else mret r
  else mret r.

Definition call_slot (action slot : string) (args : dict) (deadline : Z) (selected : option PortRecord) : Svc dict :=
  match selected with
  | Some r =>
      carried ← carry r args;
      prepared ← prepare_slot action slot carried deadline r;
      carried_call action slot carried deadline (Some prepared)
  | None => carried_call action slot args deadline None
  end.

(** [call] for one slot of a bounded cleanup *)
Definition call_single (slot : string) (args : dict) (deadline : Z) : Svc dict :=
  rows ← db (select (bears "app.worker.delete" slot args));
  call_slot "app.worker.delete" slot args deadline (fp_record <$> head rows).

Fixpoint call_each (args : dict) (deadline : Z) (slots : list string) : Svc (list dict) :=
  match slots with
  | [] => mret []
  | slot :: rest =>
      result ← call_single slot (dict_set "single" (JBool true) (dict_set "applicationId" (JStr slot) args)) deadline;
      others ← call_each args deadline rest;
      mret (result :: others)
  end.

Definition worker_helper : Caller := fun action args deadline =>
  if one_of_words worker_actions action then
    slot ← lift (text_item "applicationId" args);
    rows ← db (select (bears action slot args));
    match rows with
    | [] => call_slot action slot args deadline None
    | r :: _ =>
        let owner := po_application_id (fp_record r) in
        if String.eqb action "app.worker.delete" && String.eqb slot owner && negb (is_single args) then
          slots ← lift (slots_of owner);
          results ← call_each args deadline slots;
          _ ← require (forallb (fun result => is_true (refs_get "absent" result)) results)
                (ApplicationError "bounded worker-slot cleanup was not confirmed");
          lift (match results with x :: _ => Ok x | [] => Raise IndexError end)
        else call_slot action slot args deadline (Some (fp_record r))
    end
  else caller action args deadline.
End WorkerHelper.

(** ** Uses of a reservation *)

Fixpoint predecessors_absent (caller : Caller) (slug : string) (deadline : Z) (slots : list string) : Svc unit :=
  match slots with
  | [] => mret tt
  | slot :: rest =>
      result ← caller "app.worker.observe" [("applicationId", JStr slot); ("slug", JStr slug)] deadline;
      _ ← require (is_true (refs_get "absent" result))
            (ValidationError "retained primary port requires every predecessor worker absent");
      predecessors_absent caller slug deadline rest
  end.

Definition bind_worker (caller : Caller) (application_id slot_id : string) (deadline : Z) : Svc unit :=
  record ← db (get application_id);
  match record with
  | None => mret tt
  | Some r =>
      _ ← lift (helper_identity r);
      slots ← lift (slots_of application_id);
      _ ← require (one_of_words slots slot_id)
            (DriftError "retained port target is outside application worker slots");
      if bool_decide (po_worker_slot_id r = Some slot_id) then mret tt else
      current ← db (get_application application_id);
      match current with
      | None => raise AssertionError
      | Some a =>
          _ ← predecessors_absent caller (app_slug a) deadline slots;
          db (_save (with_worker (Some slot_id) (po_worker_create_pending r) r))
      end
  end.

Definition require_maintenance (application_id : string) : DB unit :=
  record ← get application_id;
  match record with
  | None => mret tt
  | Some r =>
      _ ← lift (helper_identity r);
      current ← get_application application_id;
      require (match current with Some a => negb (app_desired_running a) | None => false end)
        (ValidationError "retained primary port replacement requires disable first; rolling overlap is unsupported")
  end.

Section FixedIP.
Context (platform : PlatformConfig) (process_seconds : Z).

(** [uuid(record["port_id"])] is the provider's; it refuses [None]. *)
Definition shown_port (deadline : Z) (r : PortRecord) : Svc dict :=
  identifier ← lift (uuid (opt_text (po_port_id r)));
  FixedIp.show deadline identifier.

Definition preflight_cutover (application_id : string) (deadline : Z) : Svc unit :=
  record ← db (get application_id);
  match record with
  | None => mret tt
  | Some r =>
      current ← db (get_application application_id);
      match current with
      | Some a =>
          _ ← require (bool_decide (po_phase r = po_reserved))
                (ValidationError "retained primary port reservation is not ready for cutover");
          value ← shown_port deadline r;
          let unattached := DriftError "retained port is not detached or attached to the accepted worker" in
          match refs_get "device_id" value with
          | JStr device =>
              _ ← require (String.eqb device "" || bool_decide (app_worker_server_id a = Some device)) unattached;
              FixedIp.check platform deadline value r device
          | _ => raise unattached
          end
      | None => raise (ValidationError "retained primary port reservation is not ready for cutover")
      end
  end.

(** *** The port itself *)

(** [_accept]: the port becomes the reservation's, once all agrees. *)
Definition _accept (deadline : Z) (r : PortRecord) (value : dict) : Svc PortRecord :=
  identifier ← lift (uuid (refs_get "id" value));
  let candidate := with_port identifier r in
  _ ← FixedIp.check platform deadline value candidate "";
  let r := with_port_phase po_reserved candidate in
  _ ← db (_save r);
  mret r.

Definition _recover (deadline : Z) (r : PortRecord) : Svc PortRecord :=
  values ← FixedIp.inventory platform deadline (ByName (po_name r));
  match List.filter (fun v => has_text "description" v (po_description r)) values with
  | [value] => _accept deadline r value
  | _ => raise (RecoveryRequired
      "retained port allocation outcome unresolved; retry exact reservation, never allocate again")
  end.

(** The reservation is this application's own, by every name it carries. *)
Definition own_record (application_id : string) (r : PortRecord) : bool :=
  String.eqb (po_application_id r) application_id
  && String.eqb (po_project_id r) (pc_project_id platform)
  && String.eqb (po_description r) (FixedIp.marker platform application_id (po_request_id r))
  && String.eqb (po_name r) (port_name platform application_id).

Definition port_inventory (deadline : Z) (r : PortRecord) : Svc (list dict) :=
  identifier ← lift (match po_port_id r with Some i => Ok i | None => Raise ValueError end);
  FixedIp.inventory platform deadline (ByIdentifier identifier).

Definition release_locked (application_id : string) (deadline : Z) : Svc unit :=
  record ← db (get application_id);
  match record with
  | None => mret tt
  | Some r =>
      _ ← require (own_record application_id r) (DriftError "retained port journal ownership drifted");
      _ ← require (negb (po_worker_create_pending r))
            (RecoveryRequired "resolve retained worker create before releasing its primary port");
      _ ← FixedIp.verify platform deadline;
      r ← (if bool_decide (po_phase r = po_allocating) then _recover deadline r else mret r : Svc PortRecord);
      matches ← port_inventory deadline r;
      match matches with
      | [] =>
          if bool_decide (po_phase r = po_deleting) then db (_forget application_id)
          else raise (DriftError "retained port disappeared without deletion intent")
      | value :: _ =>
          _ ← FixedIp.check platform deadline value r "";
          let r := with_port_phase po_deleting r in
          _ ← db (_save r);
          value ← shown_port deadline r;
          _ ← FixedIp.check platform deadline value r "";
          _ ← FixedIp.delete deadline (default ""%string (po_port_id r));
          left ← port_inventory deadline r;
          _ ← require (bool_decide (left = []))
                (RecoveryRequired "retained port deletion was not confirmed");
          db (_forget application_id)
      end
  end.

(** ** FixedIPService *)

(** *** Reading a reservation with evidence of its attachment *)

Definition attached_server (r : PortRecord) (slot slug : string) (server : dict) : result bool :=
  let prefix := _metadata_prefix platform in
  let names := worker_names platform slot in
  project ← _provider_uuid (server_project server) "worker project UUID";
  Ok (String.eqb project (po_project_id r) && has_text "name" server names.1
      && match refs_get "properties" server with
         | JObj p => has_text (prefix +:+ "_managed_by") p "platform" && has_text (prefix +:+ "_application_id") p slot
             && has_text (prefix +:+ "_application_slug") p slug
         | _ => false
         end).

Definition probe_attachment (deadline : Z) (r : PortRecord) (slug device : string) : Svc unit :=
  slot ← lift (uuid (opt_text (po_worker_slot_id r)));
  checked ← lift (uuid (JStr device));
  server ← FixedIp.query deadline ["server"; "show"; checked];
  let drifted := DriftError "retained port attached worker ownership drifted" in
  s ← document server drifted;
  id ← lift (_provider_uuid (refs_get "id" s) "worker server UUID");
  _ ← require (String.eqb id device) drifted;
  owned ← lift (attached_server r slot slug s);
  _ ← require owned drifted;
  ports ← FixedIp.query deadline ["port"; "list"; "--server"; device];
  let several := DriftError "retained worker must have exactly its primary port" in
  ports ← array ports several;
  match ports with
  | [row] =>
      v ← lift (row_field row "id");
      id ← lift (_provider_uuid v "worker port UUID");
      require (bool_decide (po_port_id r = Some id)) several
  | _ => raise several
  end.

(** [prepare_read(...)()]: what the interface shows, with the attachment *)
Definition read_locked (application_id : string) (deadline : Z) : Svc dict :=
  record ← db (get application_id);
  result ← db (model application_id);
  match record with
  | Some r =>
      if negb (bool_decide (po_phase r = po_reserved)) then mret result else
      current ← db (get_application application_id);
      match current with
      | None => raise AssertionError
      | Some a =>
          value ← shown_port deadline r;
          match refs_get "device_id" value with
          | JStr device =>
              _ ← FixedIp.check platform deadline value r device;
              let attached := negb (String.eqb device "") in
              _ ← (if attached then probe_attachment deadline r (app_slug a) device else mret tt : Svc unit);
              mret (dict_set "attachment" (JStr (if attached then "attached" else "detached"))
                      (dict_set "serverId" (if attached then JStr device else JNull) result))
          | _ => raise (DriftError "retained port attachment evidence is malformed")
          end
      end
  | None => mret result
  end.

Definition read (application_id : string) : Svc dict :=
  deadline ← operation_deadline process_seconds;
  lock ("app-" +:+ application_id) (read_locked application_id deadline).

(** [prepare_plan(...)()] *)
Definition plan_port (application_id network_id subnet_id address : string) : Svc dict :=
  identifier ← lift (uuid application_id);
  application ← db (get_application identifier);
  match application with
  | None => raise (ValidationError "application does not exist")
  | Some _ =>
      deadline ← operation_deadline process_seconds;
      p ← FixedIp.plan platform deadline network_id subnet_id address;
      mret [("applicationId", JStr application_id); ("supported", JBool true); ("networkId", JStr (pp_network_id p));
            ("subnetId", JStr (pp_subnet_id p)); ("address", JStr (pp_address p));
            ("securityGroupId", JStr (pp_security_group_id p)); ("cidr", JStr (pp_cidr p));
            ("availability", JStr "unproven-until-reserved"); ("replacementPolicy", JStr "disabled-predecessor-absent");
            ("purpose", JStr "retained-primary-ipv4")]
  end.

(** *** mutate *)

Record PortRequest := {
  pr_application_id : string;
  pr_action : string;
  pr_network_id : option string;
  pr_subnet_id : option string;
  pr_address : option string;
  pr_request_id : string;
}.

Definition port_scope (q : PortRequest) : string := "app-" +:+ pr_application_id q.

Definition port_refs (q : PortRequest) : dict := [
  ("application_id", JStr (pr_application_id q)); ("action", JStr (pr_action q));
  ("network_id", opt_text (pr_network_id q)); ("subnet_id", opt_text (pr_subnet_id q));
  ("address", opt_text (pr_address q))].

Definition reserves (q : PortRequest) : bool := String.eqb (pr_action q) "reserve".

(** The arguments, checked: a reservation names all three, a release none. *)
Definition checked_port_request (application_id action : string) (network_id subnet_id address : option string)
    : result (string -> PortRequest) :=
  identifier ← uuid application_id;
  if String.eqb action "reserve" then
    n ← uuid (opt_text network_id); s ← uuid (opt_text subnet_id); a ← fixed_ipv4 (opt_text address);
    Ok (fun request => {| pr_application_id := identifier; pr_action := action; pr_network_id := Some n;
                          pr_subnet_id := Some s; pr_address := Some a; pr_request_id := request |})
  else if String.eqb action "release" then
    match network_id, subnet_id, address with
    | None, None, None =>
        Ok (fun request => {| pr_application_id := identifier; pr_action := action; pr_network_id := None;
                              pr_subnet_id := None; pr_address := None; pr_request_id := request |})
    | _, _, _ => Raise (ValidationError "release accepts no allocation fields")
    end
  else Raise (ValidationError "invalid retained fixed IP action").

(** The operation the request runs under; [true] when it succeeded already. *)
Definition fixed_ip_operation (q : PortRequest) (deadline : Z) : Svc bool :=
  operation ← db (get_operation (pr_request_id q));
  match operation with
  | Some o =>
      if negb (String.eqb (op_kind o) "app.fixed-ip") || negb (String.eqb (op_scope o) (port_scope q))
         || negb (py_eqb (JObj (op_refs o)) (JObj (port_refs q)))
      then raise (IdempotencyConflictError "retained IP request identity differs")
      else if bool_decide (op_st o = op_succeeded) then mret true
      else if bool_decide (op_st o = op_failed) then raise (DatabaseError "retained IP request already failed")
      else
        at_ ← wall_deadline deadline;
        _ ← db (renew_operation_deadline (pr_request_id q) at_ None);
        mret false
  | None =>
      at_ ← wall_deadline deadline;
      _ ← db (begin_operation (pr_request_id q) "app.fixed-ip" (port_scope q) "validated" at_ (port_refs q) None);
      mret false
  end.

Definition new_port (q : PortRequest) (network_id subnet_id address security_group_id : string) : PortRecord := {|
  po_application_id := pr_application_id q; po_request_id := pr_request_id q;
  po_project_id := pc_project_id platform; po_network_id := network_id; po_subnet_id := subnet_id;
  po_address := address; po_security_group_id := security_group_id; po_port_id := None;
  po_name := port_name platform (pr_application_id q);
  po_description := FixedIp.marker platform (pr_application_id q) (pr_request_id q);
  po_phase := po_allocating; po_worker_slot_id := None; po_worker_create_pending := false |}.

Definition allocate_port (q : PortRequest) (network_id subnet_id address : string) (deadline : Z) : Svc unit :=
  p ← FixedIp.plan platform deadline network_id subnet_id address;
  let r := new_port q network_id subnet_id address (pp_security_group_id p) in
  _ ← db (_save r);
  created ← FixedIp.create deadline r;
  identifier ← lift (uuid (refs_get "id" created));
  value ← FixedIp.show deadline identifier;
  _ ← _accept deadline r value;
  mret tt.

Definition has_floating_ip (application_id : string) : DB bool :=
  row ← PublicIp.get application_id;
  mret (match row with Some _ => true | None => false end).

Definition reserve (q : PortRequest) (deadline : Z) : Svc unit :=
  floating ← db (has_floating_ip (pr_application_id q));
  _ ← require (negb floating)
        (ValidationError "floating and retained fixed IP reservations are mutually exclusive");
  record ← db (get (pr_application_id q));
  match record with
  | Some r =>
      _ ← require (String.eqb (po_request_id r) (pr_request_id q))
            (ValidationError "release the existing retained port before replacing it");
      if bool_decide (po_phase r = po_allocating) then _ ← _recover deadline r; mret tt
      else value ← shown_port deadline r; FixedIp.check platform deadline value r ""
  | None =>
      match pr_network_id q, pr_subnet_id q, pr_address q with
      | Some n, Some s, Some a => allocate_port q n s a deadline
      | _, _, _ => raise AssertionError
      end
  end.

Definition perform_port (q : PortRequest) (deadline : Z) : Svc unit :=
  if reserves q then reserve q deadline else release_locked (pr_application_id q) deadline.

Definition record_port_failure (q : PortRequest) (e : error) : Svc unit :=
  saved ← db (get (pr_application_id q));
  let failed := match saved with
    | None => true
    | Some r => reserves q && negb (String.eqb (po_request_id r) (pr_request_id q))
    end in
  _ ← (if failed then db (mark_failed (pr_request_id q) (Exn (error_name e)) "not_required" None)
       else db (mark_recovery_required (pr_request_id q) (Exn (error_name e)) None None));
  mret tt.

Definition mutate_locked (q : PortRequest) (deadline : Z) : Svc dict :=
  application ← db (get_application (pr_application_id q));
  match application with
  | None => raise (ValidationError "application does not exist")
  | Some _ =>
      done ← fixed_ip_operation q deadline;
      if done : bool then db (model (pr_application_id q)) else
      _ ← catch (_ ← perform_port q deadline;
                 _ ← db (mark_succeeded (pr_request_id q) "confirmed" None); mret tt)
            (fun e => _ ← record_port_failure q e; raise e);
      db (model (pr_application_id q))
  end.

(** [FixedIPService.mutate] *)
Definition mutate (application_id action : string) (network_id subnet_id address request_id : option string) : Svc dict :=
  checked ← lift (checked_port_request application_id action network_id subnet_id address);
  request ← (match request_id with
             | Some s => if String.eqb s "" then db fresh_uuid else mret s
             | None => db fresh_uuid
             end : Svc string);
  request ← lift (uuid (JStr request));
  deadline ← operation_deadline process_seconds;
  lock (port_scope (checked request)) (mutate_locked (checked request) deadline).
End FixedIP.
