(* ===== verification/PublicIpSpec.v ===== *)
(** * Properties of stable outbound addresses

    No mutation of the provider without the intent on record; what a handover and
    a release that return have confirmed; and the outcome an exception leaves. *)

From S2P Require Import Prelude Regex Json JsonParse Clock Validation Runtime Sql Schema StorageCapacity Operations.
From S2P Require Import OperationsSpec AdmissionSpec StorageContract DeploymentConfig Applications ApplicationsSpec.
From S2P Require Import Sizing NomadJobs Service Rollout RolloutSpec StorageLimits StorageLimitsSpec.
From S2P Require Import OpenStack OpenStackSpec IpAddress FloatingIp PublicIp.

(** ** The column [record_json] holds the reservation. *)

Lemma get_canonical k d : refs_get k (sort_items (map (fun kv => (kv.1, canonical kv.2)) d)) = canonical (refs_get k d).
Proof. unfold refs_get. rewrite dict_get_canonical. by destruct (dict_get k d). Qed.

Lemma phase_read p : phase_of_text (phase_text p) = Some p.
Proof. by destruct p. Qed.

Lemma binding_read b : read_binding (canonical (binding_document b)) = Some b.
Proof.
  unfold binding_document. cbn [canonical read_binding]. rewrite !get_canonical. by destruct b as [[]].
Qed.

Lemma optional_read {A} (f : A -> json) (g : json -> option A) o : (forall a, f a <> JNull /\ canonical (f a) <> JNull) ->
  (forall a, g (canonical (f a)) = Some a) -> read_opt g (canonical (opt_json f o)) = Some o.
Proof.
  intros Hn Hg. destruct o as [a|]; [|done]. destruct (Hn a) as [_ N]. specialize (Hg a). simpl.
  unfold read_opt. destruct (canonical (f a)); [done|by rewrite Hg..].
Qed.

Lemma record_read r : canonical (re_description r) = re_description r ->
  read_record (canonical (record_document r)) = Some r.
Proof.
  intros Hd. unfold record_document. cbn [canonical read_record]. rewrite !get_canonical.
  assert (T : forall o, read_opt read_text (canonical (opt_json JStr o)) = Some o) by (intros; by apply optional_read).
  assert (B : forall o, read_opt read_binding (canonical (opt_json binding_document o)) = Some o).
  { intros. apply optional_read; [done|apply binding_read]. }
  destruct r as [a b c ip address d e p port pending]. cbn [re_description] in Hd.
  cbn -[canonical read_opt opt_json phase_of_text phase_text]. rewrite !T, !B, Hd.
  cbn [canonical read_text mbind option_bind]. by rewrite phase_read.
Qed.

Lemma optional_encodable {A} (f : A -> json) o : (forall a, encodable (f a)) -> encodable (opt_json f o).
Proof. by destruct o; simpl. Qed.

Lemma binding_encodable b : encodable (binding_document b).
Proof. apply encodable_obj. split; [refine (bool_decide_unpack _ _); by vm_compute|]. by repeat constructor. Qed.

(** What [_save] writes, [get] reads. *)
Lemma record_round_trip r : encodable (re_description r) -> canonical (re_description r) = re_description r ->
  loads (dumps (record_document r)) ≫= read_record = Some r.
Proof.
  intros He Hd. rewrite loads_dumps; [by apply record_read|]. apply encodable_obj.
  split; [refine (bool_decide_unpack _ _); by vm_compute|]. pose proof binding_encodable.
  repeat constructor; simpl; auto; by apply optional_encodable.
Qed.

(** ** Reads

    Whatever relation reading the clock and asking for reads preserves, the
    observations of the provider preserve. *)

Section Reads.
Context (R : World -> World -> Prop) `{!PreOrder R} (Hclock : preserves R monotonic)
  (Hread : forall args t, is_read args = true -> preserves R (command_runner args t)).
Context (platform : PlatformConfig) (deadline : Z).

Ltac observing := reading R Hclock Hread.

Lemma verify_reads : preserves R (verify platform deadline).
Proof. unfold verify, _bounds. observing. apply (project_reads R Hclock Hread). Qed.
Lemma show_reads i : preserves R (show platform deadline i).
Proof. unfold show. observing. Qed.
Lemma rows_reads rows : forall seen, preserves R (show_rows platform deadline rows seen).
Proof. induction rows as [|row rows IH]; simpl; observing. apply show_reads. Qed.
Lemma inventory_reads : preserves R (inventory platform deadline).
Proof. unfold inventory. observing. apply rows_reads. Qed.
Lemma network_reads i : preserves R (network deadline i).
Proof. unfold network. observing. Qed.
Lemma worker_reads : preserves R (worker_network platform deadline).
Proof. unfold worker_network. observing. Qed.
Lemma subnets_reads w l : forall found, preserves R (ipv4_subnets deadline w l found).
Proof. induction l as [|v l IH]; simpl; observing. Qed.
Lemma connected_reads r w l : preserves R (connected_subnets platform deadline r w l).
Proof. induction l as [|v l IH]; simpl; observing. Qed.
Lemma routers_reads n w ips l : preserves R (matching_routers platform deadline n w ips l).
Proof. induction l as [|v l IH]; simpl; observing. apply connected_reads. Qed.
Lemma plan_reads n b : preserves R (plan platform deadline n b).
Proof.
  unfold plan. observing; [apply verify_reads|apply network_reads|apply worker_reads|apply inventory_reads
                        |apply subnets_reads|apply routers_reads].
Qed.
Lemma ingress_reads g i l : preserves R (no_direct_ingress platform deadline g i l).
Proof. induction l as [|v l IH]; simpl; observing. Qed.
Lemma security_reads g : preserves R (security platform deadline g).
Proof. unfold security. observing; apply ingress_reads. Qed.
Lemma port_reads s e : preserves R (port platform deadline s e).
Proof. unfold port. observing; [apply worker_reads|apply security_reads]. Qed.
Lemma reobserve_reads r : preserves R (reobserve platform deadline r).
Proof. unfold reobserve. observing. apply show_reads. Qed.
Lemma prove_reads b : preserves R (prove_binding platform deadline b).
Proof. unfold prove_binding. destruct b; observing. apply port_reads. Qed.
End Reads.

(** ** The protocol *)

Definition reservation_at (application_id : string) (d : Db) : option Reservation :=
  fi_record <$> List.find (ip_of application_id) (application_floating_ips d).

(** The last request was to show the address recorded, and the answer was the
    recorded address with the property [P]. *)
Definition seen (r : Reservation) (P : dict -> Prop) (w : World) : Prop :=
  exists i t earlier result value,
    re_floating_ip_id r = Some i
    /\ w_requests w = Command ["floating"; "ip"; "show"; i; "--format"; "json"] t :: earlier
    /\ w_command w (w_requests w) = Ok result /\ decoded result = Ok (JObj value)
    /\ recorded value r = true /\ P value.

(** ... on this port, or free *)
Definition just_seen (r : Reservation) (on : option Binding) : World -> Prop :=
  seen r (fun value => _association value on = true).

Definition creates : World -> nat := asked_for ["floating"; "ip"; "create"].

Abbreviation no_create := (not_asked ["floating"; "ip"; "create"]).

Section Protocol.
Context (platform : PlatformConfig) (application_id : string) (w0 : World).

(** The mutations, each with the intent the reservation holds while it is asked *)
Inductive journaled (w : World) : list string -> Prop :=
  | journaled_create r :
      reservation_at application_id (store (w_db w)) = Some r ->
      re_phase r = ip_allocating -> re_allocated r = true -> re_floating_ip_id r = None ->
      creates w = creates w0 ->
      journaled w ["floating"; "ip"; "create"; "--description";
        pc_namespace platform +:+ ":app-public-ip:" +:+ application_id +:+ ":" +:+ re_request_id r;
        re_network_id r; "--format"; "json"]
  | journaled_assign r b :
      reservation_at application_id (store (w_db w)) = Some r ->
      re_phase r = ip_assigning -> re_pending_port r = Some b -> just_seen r (re_port r) w ->
      journaled w ["floating"; "ip"; "set"; "--port"; ws_port_id (bi_slot b); "--fixed-ip-address"; bi_fixed_ip b;
        address_id r]
  | journaled_detach r b :
      reservation_at application_id (store (w_db w)) = Some r ->
      re_phase r = ip_releasing -> re_port r = Some b -> just_seen r (Some b) w ->
      journaled w ["floating"; "ip"; "unset"; "--port"; address_id r]
  | journaled_delete r :
      reservation_at application_id (store (w_db w)) = Some r ->
      re_phase r = ip_deleting -> re_allocated r = true -> re_port r = None -> just_seen r None w ->
      journaled w ["floating"; "ip"; "delete"; address_id r].

Definition allowed (w : World) (r : Request) : Prop :=
  match r with
  | Command args _ => is_read args = true \/ journaled w args
  | Acquire scope | Free scope => scope = "app-" +:+ application_id
  | _ => False
  end.

Abbreviation protocol := (obeys allowed).

Lemma reading_obeys args t : is_read args = true -> preserves protocol (command_runner args t).
Proof. intros H. apply obeys_command. intros w. by left. Qed.

Definition obeys_reobserve dl r : preserves protocol (reobserve platform dl r) :=
  reobserve_reads protocol (obeys_monotonic _) reading_obeys platform dl r.
Definition obeys_inventory dl : preserves protocol (inventory platform dl) :=
  inventory_reads protocol (obeys_monotonic _) reading_obeys platform dl.
Definition obeys_port dl s e : preserves protocol (port platform dl s e) :=
  port_reads protocol (obeys_monotonic _) reading_obeys platform dl s e.
Definition obeys_prove dl b : preserves protocol (prove_binding platform dl b) :=
  prove_reads protocol (obeys_monotonic _) reading_obeys platform dl b.
Definition obeys_verify dl : preserves protocol (verify platform dl) :=
  verify_reads protocol (obeys_monotonic _) reading_obeys platform dl.
Definition obeys_show dl i : preserves protocol (show platform dl i) :=
  show_reads protocol (obeys_monotonic _) reading_obeys platform dl i.
Definition obeys_plan dl n b : preserves protocol (plan platform dl n b) :=
  plan_reads protocol (obeys_monotonic _) reading_obeys platform dl n b.
#[local] Hint Resolve obeys_reobserve obeys_inventory obeys_port obeys_prove obeys_verify obeys_show obeys_plan : service.

(** *** What the steps before a mutation establish *)

Lemma saved_row r c u c' : _save application_id r c = (Ok u, c') ->
  reservation_at application_id (store c') = Some r.
Proof.
  intros H. apply put_found in H; [|apply String.eqb_refl]. unfold reservation_at. simpl in H. by rewrite H.
Qed.

Lemma saved r w u w' : db (_save application_id r) w = (Ok u, w') ->
  reservation_at application_id (store (w_db w')) = Some r.
Proof. intros H%db_step. by eapply saved_row. Qed.

Lemma show_answered dl i w v w' : show platform dl i w = (Ok v, w') ->
  exists t earlier result, untouched w w'
    /\ w_requests w' = Command ["floating"; "ip"; "show"; i; "--format"; "json"] t :: earlier
    /\ w_command w' (w_requests w') = Ok result /\ decoded result = Ok (JObj v).
Proof.
  intros H. pose proof (kept _ _ _ _ _ (show_reads untouched untouched_monotonic command_untouched platform dl i) H) as U.
  unfold show in H. apply bind_ok in H as (j & w1 & [Hj ->]%lift_ok & H). apply uuid_json in Hj. injection Hj as <-.
  apply bind_ok in H as (x & w2 & H2 & H). apply ask_answered in H2 as (t & result & w3 & _ & -> & Hc & Hd).
  apply bind_ok in H as (d & w4 & [-> ->]%document_ok & H).
  apply bind_ok in H as (? & ? & [_ ->]%lift_ok & H). apply bind_ok in H as (? & ? & [= _ <-] & H).
  apply bind_ok in H as (? & ? & [_ ->]%lift_ok & H). apply bind_ok in H as (? & ? & [= _ <-] & [= <- <-]).
  exists t, (w_requests w3), result. by split_and!.
Qed.

Lemma reobserved dl r w v w' : reobserve platform dl r w = (Ok v, w') ->
  untouched w w' /\ forall P : dict -> Prop, P v -> seen r P w'.
Proof.
  intros H. unfold reobserve in H. apply bind_ok in H as (i & w1 & [Hi ->]%lift_ok & H). apply uuid_json in Hi.
  apply bind_ok in H as (x & w2 & H2 & H). apply bind_ok in H as ([] & w3 & [Hc ->]%lift_ok & [= <- <-]).
  apply show_answered in H2 as (t & earlier & result & U & Hr & Ha & Hd). split; [done|]. intros P HP.
  exists i, t, earlier, result, x. split_and!; try done.
  - destruct (re_floating_ip_id r); [by injection Hi as ->|done].
  - unfold check in Hc. by destruct (recorded x r).
Qed.

Lemma just_seen_later r on w w' : untouched w w' -> w_requests w' = w_requests w -> just_seen r on w -> just_seen r on w'.
Proof.
  intros [F _] E (i & t & earlier & result & v & H1 & H2 & H3 & H4). exists i, t, earlier, result, v.
  rewrite E. split_and!; try apply H4; try done. by rewrite (follows_command _ _ F).
Qed.

(** *** The steps around each mutation *)

Lemma row_kept w w1 o : untouched w w1 -> reservation_at application_id (store (w_db w)) = o ->
  reservation_at application_id (store (w_db w1)) = o.
Proof. intros [_ ->]. done. Qed.

Lemma assign_obeys dl r v target w : re_phase r = ip_assigning -> re_pending_port r = Some target ->
  reservation_at application_id (store (w_db w)) = Some r ->
  protocol w ((if _association v (Some target) then mret tt
     else
       v ← reobserve platform dl r;
       _ ← require (_association v (re_port r)) (DriftError "floating IP association changed before reassignment");
       assign dl (address_id r) target : Svc unit) w).2.
Proof.
  intros Hp Ht Hr. destruct (_association v (Some target)); [reflexivity|]. next H.
  apply reobserved in H as [U Hs]. next Hq. apply require_true in Hq as [Ha ->].
  apply tell_obeys. intros w2 t [U2 E2]. right. eapply (journaled_assign _ r target); try done.
  - do 2 (eapply row_kept; [eassumption|]). done.
  - eapply just_seen_later; [exact U2|exact E2|]. by apply Hs.
Qed.

Lemma hand_over_obeys dl r v target w : protocol w (hand_over platform dl application_id r v target w).2.
Proof.
  unfold hand_over. cbv zeta. next H. apply saved in H. apply obeys_then; [exact (assign_obeys dl (with_ports (re_port r) (Some target) (with_phase ip_assigning r)) v target _ eq_refl eq_refl H)|].
  intros ? ? _. next H1. next H2. next H3. apply obeys_db.
Qed.

Lemma take_off_obeys dl r b w : re_port r = Some b -> protocol w (take_off platform dl application_id r w).2.
Proof.
  intros Hb. unfold take_off. cbv zeta. next H. apply saved in H. next Hs. apply reobserved in Hs as [U Hs].
  next Hq. apply require_true in Hq as [Ha ->]. apply obeys_then; [|intros; next K1; next K2; reflexivity].
  apply tell_obeys. intros w3 t [U3 E3]. right. eapply (journaled_detach _ (with_phase ip_releasing r) b); try done.
  - do 2 (eapply row_kept; [eassumption|]). done.
  - eapply just_seen_later; [exact U3|exact E3|]. rewrite <- Hb. by apply Hs.
Qed.

Lemma delete_obeys dl r w : re_allocated r = true -> re_port r = None ->
  protocol w (delete_allocated platform dl application_id r w).2.
Proof.
  intros Hal Hport. unfold delete_allocated. cbv zeta. next H. apply saved in H. next Hs. apply reobserved in Hs as [U Hs].
  next Hq. apply require_true in Hq as [Ha ->]. apply obeys_then; [|intros; next K1; reflexivity].
  apply tell_obeys. intros w3 t [U3 E3]. right. eapply (journaled_delete _ (with_phase ip_deleting r)); try done.
  - do 2 (eapply row_kept; [eassumption|]). done.
  - eapply just_seen_later; [exact U3|exact E3|]. by apply Hs.
Qed.

Lemma adopt_obeys r v : preserves protocol (_adopt_result application_id r v).
Proof. unfold _adopt_result. preserving. Qed.

Lemma settled_obeys dl r : preserves protocol (settled_allocation platform dl application_id r).
Proof. unfold settled_allocation, _recover_allocation. preserving; apply adopt_obeys. Qed.

Lemma target_obeys : preserves protocol (_target platform application_id).
Proof. unfold _target. preserving. Qed.
#[local] Hint Resolve adopt_obeys settled_obeys target_obeys : service.

Lemma reconcile_obeys dl : preserves protocol (reconcile_accepted platform application_id dl).
Proof.
  unfold reconcile_accepted. apply preserves_bind; [apply _|auto with service|]. intros [r|]; [|auto with service typeclass_instances].
  do 3 (apply preserves_bind; [apply _|auto with service typeclass_instances|intros ?]).
  do 3 (apply preserves_bind; [apply _|auto with service typeclass_instances|intros ?]).
  destruct a3 as [slot|]; [|auto with service typeclass_instances].
  do 4 (apply preserves_bind; [apply _|auto with service typeclass_instances|intros ?]).
  destruct (bool_decide _); [auto with service typeclass_instances|]. intros w. apply hand_over_obeys.
Qed.

Lemma release_obeys dl b : preserves protocol (release_locked platform application_id dl b).
Proof.
  unfold release_locked. apply preserves_bind; [apply _|auto with service|]. intros [r|]; [|preserving].
  do 5 (apply preserves_bind; [apply _|preserving|intros ?]). 
  destruct (List.filter _ _) as [|v l]; [preserving|]. do 2 (apply preserves_bind; [apply _|preserving|intros ?]).
  intros w. apply obeys_then; [reflexivity|]. intros ? ?w Hq. apply require_true in Hq as [Ha ->].
  apply obeys_then.
  - destruct (_association v None) eqn:E; [reflexivity|]. 
    destruct (re_port a1) as [b0|] eqn:Hp; [by eapply take_off_obeys|]. rewrite E in Ha. by rewrite andb_comm in Ha.
  - intros r1 w1 _. next K. destruct b; [reflexivity|]. apply obeys_then; [|intros; apply obeys_db].
    match goal with |- context [if re_allocated ?x then _ else _] => destruct (re_allocated x) eqn:Hal end; [|reflexivity].
    by apply delete_obeys.
Qed.

(** *** The requests before a creation are reads. *)

Lemma read_no_create args t : is_read args = true -> preserves no_create (command_runner args t).
Proof. apply read_not_asked. intros rest. by vm_compute. Qed.
Lemma db_no_create {A} (m : DB A) : preserves no_create (db m).
Proof. apply db_not_asked. Qed.
Lemma clock_no_create : preserves no_create monotonic.
Proof. apply clock_not_asked. Qed.

Lemma allocate_obeys q n dl w : ir_application_id q = application_id -> ir_floating_ip_id q = None -> creates w = creates w0 ->
  protocol w (allocate_new platform q n dl w).2.
Proof.
  intros Hq Hf Hc. unfold allocate_new. cbv zeta. rewrite Hq. apply obeys_then; [apply obeys_db|]. intros ? w1 H.
  pose proof (kept _ _ _ _ _ (db_no_create _) H) as Hn. apply saved in H.
  unfold create. apply obeys_then; [|intros; next K1; next K2; next K3; reflexivity].
  apply obeys_then; [|intros; destruct a0; reflexivity].
  apply ask_obeys. intros w2 t [U2 E2]. right. unfold marker. rewrite Hq.
  eapply (journaled_create _ (new_reservation platform q Allocate _ _)); try done.
  - by eapply row_kept.
  - unfold not_asked, creates, asked_for in *. by rewrite E2, Hn.
Qed.

Lemma acquire_obeys q a n dl w : ir_application_id q = application_id -> creates w = creates w0 ->
  protocol w (acquire platform q a n dl w).2.
Proof.
  intros Hq Hc. unfold acquire. apply obeys_then; [apply obeys_db|]. intros b w1 H1.
  pose proof (kept _ _ _ _ _ (db_no_create _) H1) as N1. next H2. apply require_true in H2 as [_ ->].
  apply obeys_then; [apply obeys_db|]. intros o w2 H2. pose proof (kept _ _ _ _ _ (db_no_create _) H2) as N2.
  destruct o as [r|]; [reflexivity|]. next H3.
  pose proof (kept _ _ _ _ _ (plan_reads no_create clock_no_create read_no_create platform dl n _) H3) as N3.
  next H4. apply require_true in H4 as [_ ->]. destruct (ir_floating_ip_id q) as [i|] eqn:Ei.
  - unfold attach_supplied. rewrite Hq. next K1. next K2. next K3. next K4. next K5. reflexivity.
  - apply allocate_obeys; [done|done|]. unfold not_asked, creates in *. congruence.
Qed.

Lemma perform_obeys q a dl w : ir_application_id q = application_id -> creates w = creates w0 ->
  protocol w (perform platform q a dl w).2.
Proof.
  intros Hq Hc. unfold perform. rewrite Hq.
  assert (A : protocol w ((n ← lift (match ir_network_id q with Some n => Ok n | None => Raise AssertionError end);
    _ ← acquire platform q a n dl; reconcile_accepted platform application_id dl) w).2).
  { next H. apply lift_ok in H as [_ ->]. apply obeys_then; [by apply acquire_obeys|]. intros ? w2 _.
    apply reconcile_obeys. }
  destruct a; [exact A|exact A|apply release_obeys|apply reconcile_obeys].
Qed.

Lemma operation_no_create q dl : preserves no_create (public_ip_operation q dl).
Proof.
  unfold public_ip_operation, wall_deadline.
  repeat first [progress preserving | apply db_no_create | apply clock_no_create].
Qed.

Lemma operation_obeys q dl : preserves protocol (public_ip_operation q dl).
Proof. unfold public_ip_operation, wall_deadline. preserving. Qed.

Lemma failure_obeys q a e : preserves protocol (record_ip_failure q a e).
Proof. unfold record_ip_failure. preserving. Qed.
#[local] Hint Resolve operation_obeys failure_obeys : service.

Lemma locked_obeys q a dl w : ir_application_id q = application_id -> creates w = creates w0 ->
  protocol w (mutate_locked platform q a dl w).2.
Proof.
  intros Hq Hc. unfold mutate_locked. apply obeys_then; [apply obeys_db|]. intros o w1 H1.
  pose proof (kept _ _ _ _ _ (db_no_create _) H1) as N1. destruct o as [?|]; [|reflexivity].
  apply obeys_then; [apply operation_obeys|]. intros d w2 H2.
  pose proof (kept _ _ _ _ _ (operation_no_create _ _) H2) as N2. destruct d; [apply obeys_db|].
  apply obeys_then; [|intros; apply obeys_db]. unfold catch.
  set (m := (_ ← perform platform q a dl; _)). assert (A : protocol w2 (m w2).2).
  { apply obeys_then; [apply perform_obeys; [done|unfold not_asked, creates in *; congruence]|].
    intros ? ?w _. next K1. reflexivity. }
  destruct (m w2) as [[u|e] w3]; [done|]. etransitivity; [exact A|]. next K2. reflexivity.
Qed.
End Protocol.


(** ** What a handover that returns has confirmed *)

(** The worker the application's deployment was accepted on, read from the
    database while other threads wrote between the two reads *)
Definition accepted_worker (platform : PlatformConfig) (application_id : string) (s : WorkerSlot) (w : World) : Prop :=
  exists a d w1 w2, drifts w w1 /\ drifts w1 w2
    /\ (get_application application_id (w_db (interfere w))).1 = Ok (Some a)
    /\ (get_deployment application_id (w_db (interfere w1))).1 = Ok (Some d)
    /\ app_desired_running a = true /\ ws_slug s = app_slug a
    /\ nomad_placement_id (de_nomad_job d) = Ok (ws_slot_id s)
    /\ app_worker_server_id a = Some (ws_server_id s) /\ app_worker_port_id a = Some (ws_port_id s)
    /\ app_worker_server_name a = Some (ws_server_name s) /\ app_worker_port_name a = Some (ws_port_name s)
    /\ ws_server_name s = (worker_names platform (ws_slot_id s)).1
    /\ exists ids, deployment_worker_ids application_id = Ok ids
         /\ (ws_slot_id s = application_id \/ ws_slot_id s = ids.1 \/ ws_slot_id s = ids.2).

Lemma opt_uuid o i : uuid (opt_json JStr o) = Ok i -> o = Some i.
Proof. intros H%uuid_json. destruct o; [by injection H as ->|done]. Qed.

Lemma target_accepted platform application_id w s w' : _target platform application_id w = (Ok (Some s), w') ->
  accepted_worker platform application_id s w /\ drifts w w'.
Proof.
  intros H. unfold _target in H. apply bind_ok in H as (a & w1 & H1 & H). apply bind_ok in H as (d & w2 & H2 & H).
  pose proof (still_drifts _ _ _ _ (application_still _) H1) as D1.
  pose proof (still_drifts _ _ _ _ (deployment_still _) H2) as D2.
  apply db_step in H1, H2. destruct a as [a|], d as [d|]; try done.
  destruct (app_desired_running a) eqn:Er; [|done]. simpl in H.
  apply bind_ok in H as (slot & ? & [Hs ->]%lift_ok & H). apply bind_ok in H as (ids & ? & [Hi ->]%lift_ok & H).
  apply bind_ok in H as (? & ? & [Ho ->]%require_true & H). apply bind_ok in H as (? & ? & [Hn ->]%require_true & H).
  apply bind_ok in H as (si & ? & [Hsi%opt_uuid ->]%lift_ok & H). apply bind_ok in H as (pi & ? & [Hpi%opt_uuid ->]%lift_ok & H).
  injection H as <- <-. apply andb_true_iff in Hn as [Hn1%bool_decide_eq_true Hn2%bool_decide_eq_true].
  split; [|by etransitivity]. exists a, d, w1, w2. split_and!; try done; [by rewrite H1|by rewrite H2|].
  exists ids. split; [done|]. rewrite !orb_true_iff, !String.eqb_eq in Ho. destruct Ho as [|[|[|]]]; auto; done.
Qed.

Section Confirmed.
Context (platform : PlatformConfig) (application_id : string).

Abbreviation held := (reservation_at application_id).

(** A reservation read or saved is the one in the table. *)
Lemma got w o w' : db (get application_id) w = (Ok o, w') -> held (store (w_db w')) = o /\ drifts w w'.
Proof.
  intros H. assert (evolves eq (get application_id)) as Hs by (unfold get; evolve).
  split; [|by eapply still_drifts]. apply db_step in H. unfold get in H.
  apply bind_ok in H as (i & c & [Hi%uuid_json ->]%lift_ok & H). injection Hi as <-.
  apply bind_ok in H as (x & c & H1 & H). injection H1 as <- <-. injection H as <- <-. done.
Qed.

Lemma settled dl r w r' w' : held (store (w_db w)) = Some r ->
  settled_allocation platform dl application_id r w = (Ok r', w') -> held (store (w_db w')) = Some r'.
Proof.
  intros Hr H. unfold settled_allocation in H. destruct (bool_decide _); [|by injection H as <- <-].
  unfold _recover_allocation in H. apply bind_ok in H as (l & w1 & _ & H).
  destruct (List.filter _ l) as [|v [|]]; [done| |done].
  unfold _adopt_result in H. do 2 (apply bind_ok in H as (? & ? & [_ ->]%lift_ok & H)).
  apply bind_ok in H as (? & ? & [_ ->]%lift_ok & H). apply bind_ok in H as (? & ? & [_ ->]%require_true & H).
  apply bind_ok in H as (? & w2 & H2 & H). injection H as <- <-. by eapply saved.
Qed.

(** The address was seen on its port and active on the router, and the port
    proven the worker's with its address. *)
Definition bound (dl : Z) (r : Reservation) (b : Binding) (w w' : World) : Prop :=
  (exists u, follows w u /\ follows u w' /\ seen r (fun v => _association v (Some b) = true /\ activated v = true) u)
  /\ (exists e u u', port platform dl (bi_slot b) e u = (Ok (bi_fixed_ip b), u') /\ follows w u /\ follows u' w').

Lemma port_expected dl s e w ip w' : port platform dl s (Some e) w = (Ok ip, w') -> ip = e.
Proof.
  intros H. unfold port in H. do 13 (apply bind_ok in H as (? & ? & _ & H)).
  apply bind_ok in H as (addresses & ? & _ & H). destruct addresses as [|a [|]]; [done| |done].
  apply bind_ok in H as (? & ? & [Ha%String.eqb_eq ->]%require_true & H). by injection H as <- <-.
Qed.

Definition drifts_reobserve dl r := reobserve_reads drifts drifts_monotonic command_drifts platform dl r.
Definition drifts_port dl s e := port_reads drifts drifts_monotonic command_drifts platform dl s e.
Definition drifts_prove dl b := prove_reads drifts drifts_monotonic command_drifts platform dl b.
Definition drifts_inventory dl := inventory_reads drifts drifts_monotonic command_drifts platform dl.
Definition drifts_verify dl := verify_reads drifts drifts_monotonic command_drifts platform dl.

(** Of any call: a step of the protocol follows. *)
Lemma ran_follows {A} (m : Svc A) w r w' w0 : obeys (allowed platform application_id w0) w (m w).2 -> m w = (r, w') ->
  follows w w'.
Proof. intros O H. rewrite H in O. by eapply obeys_follows. Qed.

Lemma handed dl r v b w u w' : hand_over platform dl application_id r v b w = (Ok u, w') ->
  held (store (w_db w')) = Some (with_ports (Some b) None (with_phase ip_active r)) /\ bound dl r b w w'.
Proof.
  intros H. unfold hand_over in H. cbv zeta in H. set (r1 := with_ports _ _ (with_phase ip_assigning r)) in H.
  apply bind_ok in H as (? & w1 & H1 & H). pose proof (kept _ _ _ _ _ (follows_db _) H1) as F1. apply saved in H1.
  apply bind_ok in H as (? & w2 & H2 & H).
  pose proof (ran_follows _ _ _ _ w (assign_obeys _ _ w dl r1 v b w1 eq_refl eq_refl H1) H2) as F2.
  apply bind_ok in H as (v' & w3 & H3 & H). pose proof (kept _ _ _ _ _ (drifts_reobserve dl r1) H3) as [F3 _].
  apply reobserved in H3 as [_ Hs]. apply bind_ok in H as (ip & w4 & H4 & H).
  pose proof (kept _ _ _ _ _ (drifts_port _ _ _) H4) as [F4 _].
  apply bind_ok in H as (? & ? & [[Ha Hact]%andb_true_iff ->]%require_true & H).
  pose proof (kept _ _ _ _ _ (follows_db _) H) as F5. apply saved in H. split; [exact H|].
  pose proof (port_expected _ _ _ _ _ _ H4) as ->.
  split; [exists w3|exists (Some (bi_fixed_ip b)), w3, w4]; split_and!; try done.
  - do 2 (etransitivity; [eassumption|]). done.
  - by etransitivity.
  - by apply (Hs (fun v => _association v (Some b) = true /\ activated v = true)).
  - do 2 (etransitivity; [eassumption|]). done.
Qed.

(** How a reconciliation may end: nothing is reserved; there is no accepted
    worker and the address was just seen free; or the address is bound to the
    accepted worker, as the reservation says. *)
Inductive reconciled_with (dl : Z) (w w' : World) : Prop :=
  | without_reservation : held (store (w_db w')) = None -> drifts w w' -> reconciled_with dl w w'
  | without_worker r w1 w2 : held (store (w_db w1)) = Some r -> re_port r = None ->
      _target platform application_id w1 = (Ok None, w2) -> drifts w2 w' -> just_seen r None w' ->
      reconciled_with dl w w'
  | with_worker r r' b w1 : held (store (w_db w1)) = Some r -> follows w w1 ->
      accepted_worker platform application_id (bi_slot b) w1 -> bound dl r b w1 w' ->
      re_port r' = Some b -> re_pending_port r' = None ->
      (r' = r /\ drifts w1 w' \/ r' = with_ports (Some b) None (with_phase ip_active r) /\ held (store (w_db w')) = Some r') ->
      reconciled_with dl w w'.

Lemma bound_earlier dl r b u w w' : follows u w -> bound dl r b w w' -> bound dl r b u w'.
Proof.
  intros F [(x & H1 & H2 & H3) (e & y & y' & K1 & K2 & K3)]. split; [exists x|exists e, y, y']; split_and!; try done; by etransitivity.
Qed.

Lemma bound_steps dl r b w1 w2 w3 w4 w' v e : follows w1 w2 ->
  reobserve platform dl r w2 = (Ok v, w3) -> port platform dl (bi_slot b) e w3 = (Ok (bi_fixed_ip b), w4) ->
  follows w4 w' -> _association v (Some b) = true -> activated v = true -> bound dl r b w1 w'.
Proof.
  intros F H3 H4 F5 Ha Hact. pose proof (kept _ _ _ _ _ (drifts_reobserve dl r) H3) as [F3 _].
  pose proof (kept _ _ _ _ _ (drifts_port _ _ _) H4) as [F4 _]. apply reobserved in H3 as [_ Hs].
  split; [exists w3|exists e, w3, w4]; split_and!; try done; try (by etransitivity).
  by apply (Hs (fun v => _association v (Some b) = true /\ activated v = true)).
Qed.

(** From the accepted worker on *)
Lemma worker_reconciled dl r slot w w1 w2 w3 v u w' : follows w w1 -> held (store (w_db w1)) = Some r ->
  _target platform application_id w1 = (Ok (Some slot), w2) -> reobserve platform dl r w2 = (Ok v, w3) ->
  (fixed_ip ← port platform dl slot None;
   let target := {| bi_slot := slot; bi_fixed_ip := fixed_ip |} in
   _ ← require (bool_decide (re_pending_port r = None \/ re_pending_port r = Some target))
         (DriftError "accepted worker differs from journaled floating IP target");
   _ ← prove_binding platform dl (re_port r);
   _ ← require (_association v (re_port r) || pending_at v (re_pending_port r))
         (DriftError "floating IP association drifted outside the recorded transition");
   if bool_decide (re_port r = Some target /\ re_pending_port r = None) then
     require (activated v) (recovery_required "floating IP router activation was not confirmed")
   else hand_over platform dl application_id r v target) w3 = (Ok u, w') ->
  reconciled_with dl w w'.
Proof.
  intros F Hr Ht Hv H. apply target_accepted in Ht as [Hacc D2].
  pose proof (kept _ _ _ _ _ (drifts_reobserve dl r) Hv) as D3.
  apply bind_ok in H as (ip & w4 & H4 & H). cbv zeta in H. set (b := {| bi_slot := slot; bi_fixed_ip := ip |}) in *.
  pose proof (kept _ _ _ _ _ (drifts_port _ _ _) H4) as D4.
  apply bind_ok in H as (? & ? & [_ ->]%require_true & H). apply bind_ok in H as (? & w5 & H5 & H).
  pose proof (kept _ _ _ _ _ (drifts_prove _ _) H5) as D5.
  apply bind_ok in H as (? & ? & [Ha ->]%require_true & H).
  assert (D : drifts w1 w5) by (do 3 (etransitivity; [eassumption|]); done).
  destruct (decide (re_port r = Some b /\ re_pending_port r = None)) as [[Hp Hn]|Hd].
  - rewrite bool_decide_eq_true_2 in H by done. apply require_true in H as [Hact ->].
    rewrite Hp, Hn, orb_false_r in Ha.
    eapply (with_worker dl w w5 r r b w1); try done; [|by left].
    eapply (bound_steps dl r b w1 w2 w3 w4); try done; [apply D2|apply D5].
  - rewrite bool_decide_eq_false_2 in H by done. apply handed in H as [Hh Hb].
    eapply (with_worker dl w w' r (with_ports (Some b) None (with_phase ip_active r)) b w1); try done; [|by right].
    eapply bound_earlier; [apply D|exact Hb].
Qed.

Lemma reconciled_ok dl w w' : reconcile_accepted platform application_id dl w = (Ok tt, w') -> reconciled_with dl w w'.
Proof.
  intros H. unfold reconcile_accepted in H. apply bind_ok in H as (o & w1 & H1 & H). apply got in H1 as [Hh D1].
  destruct o as [r0|]; [|injection H as <-; by apply without_reservation].
  apply bind_ok in H as (? & ? & [_ ->]%lift_ok & H). apply bind_ok in H as (? & w2 & H2 & H).
  pose proof (kept _ _ _ _ _ (verify_reads untouched untouched_monotonic command_untouched _ _) H2) as [F2 E2].
  rewrite <- E2 in Hh. apply bind_ok in H as (r & w3 & H3 & H). pose proof (settled _ _ _ _ _ Hh H3) as Hr.
  pose proof (ran_follows _ _ _ _ w (settled_obeys _ _ w _ _ w2) H3) as F3.
  apply bind_ok in H as (? & ? & [_ ->]%require_true & H). apply bind_ok in H as (s & w4 & H4 & H).
  apply bind_ok in H as (v & w5 & H5 & H).
  assert (F : follows w w3) by (etransitivity; [apply D1|]; by etransitivity).
  destruct s as [slot|]; [by eapply worker_reconciled|].
  apply require_true in H as [[Hp%bool_decide_eq_true Ha]%andb_true_iff ->].
  eapply (without_worker dl w w5 r w3 w4); try done; [exact (kept _ _ _ _ _ (drifts_reobserve dl r) H5)|].
  apply reobserved in H5 as [_ Hs]. by apply Hs.
Qed.

(** ** What a release that returns has confirmed *)

Lemma forgot w u w' : db (_forget application_id) w = (Ok u, w') -> held (store (w_db w')) = None.
Proof.
  intros H%db_step%deleted_none. unfold reservation_at. simpl in H. by rewrite H.
Qed.

(** The provider listed its addresses; each one [P]. *)
Definition listed (dl : Z) (P : list dict -> Prop) (w w' : World) : Prop :=
  exists u u' values, inventory platform dl u = (Ok values, u') /\ follows w u /\ follows u' w' /\ P values.

Definition unlisted (r : Reservation) (values : list dict) : Prop :=
  List.filter (fun v => same_text (refs_get "id" v) (re_floating_ip_id r)) values = [].

Definition is_free (r : Reservation) (value : dict) : Prop := recorded value r = true /\ _association value None = true.

(** The address is gone, or was supplied and is free. *)
Inductive released (dl : Z) (r : Reservation) (w w' : World) : Prop :=
  | released_gone : re_allocated r = true -> listed dl (unlisted r) w w' -> released dl r w w'
  | released_listed : re_allocated r = false -> listed dl (fun values => exists v, In v values /\ is_free r v) w w' ->
      released dl r w w'
  | released_seen u : re_allocated r = false -> seen r (fun v => _association v None = true) u -> follows w u -> follows u w' ->
      released dl r w w'.

Lemma deleted dl r w u w' :
  delete_allocated platform dl application_id r w = (Ok u, w') -> listed dl (unlisted r) w w'.
Proof.
  intros H. unfold delete_allocated in H. cbv zeta in H. apply bind_ok in H as (? & w1 & H1 & H).
  pose proof (kept _ _ _ _ _ (follows_db _) H1) as F1. apply bind_ok in H as (v & w2 & H2 & H).
  pose proof (kept _ _ _ _ _ (drifts_reobserve _ _) H2) as [F2 _].
  apply bind_ok in H as (? & ? & [_ ->]%require_true & H). apply bind_ok in H as (? & w3 & H3 & H).
  pose proof (kept _ _ _ _ _ (tell_untouched _ _ _) H3) as [F3 _].
  apply bind_ok in H as (values & w4 & H4 & H). apply require_true in H as [Ha ->].
  exists w3, w4, values. split_and!; [done|do 2 (etransitivity; [eassumption|]); done|reflexivity|].
  unfold unlisted. apply negb_true_iff in Ha. by apply no_match.
Qed.

Lemma taken_off dl r w r' w' : take_off platform dl application_id r w = (Ok r', w') ->
  r' = with_phase ip_releasing r /\ follows w w'
  /\ exists u, seen r (fun v => _association v None = true) u /\ follows w u /\ follows u w'.
Proof.
  intros H. unfold take_off in H. cbv zeta in H. apply bind_ok in H as (? & w1 & H1 & H).
  pose proof (kept _ _ _ _ _ (follows_db _) H1) as F1. apply bind_ok in H as (v & w2 & H2 & H).
  pose proof (kept _ _ _ _ _ (drifts_reobserve _ _) H2) as [F2 _].
  apply bind_ok in H as (? & ? & [_ ->]%require_true & H). apply bind_ok in H as (? & w3 & H3 & H).
  pose proof (kept _ _ _ _ _ (tell_untouched _ _ _) H3) as [F3 _]. apply bind_ok in H as (v' & w4 & H4 & H).
  pose proof (kept _ _ _ _ _ (drifts_reobserve _ _) H4) as [F4 _]. apply reobserved in H4 as [_ Hs].
  apply bind_ok in H as (? & ? & [Ha ->]%require_true & H). injection H as <- <-.
  assert (F : follows w w4) by (do 3 (etransitivity; [eassumption|]); done).
  split_and!; [done|done|]. exists w4. split_and!; [|done|reflexivity].
  by apply (Hs (fun v => _association v None = true)).
Qed.

Lemma released_later dl r w w1 w2 : follows w1 w2 -> released dl r w w1 -> released dl r w w2.
Proof.
  intros F [Hal (xa & ya & vs & L1 & L2 & L3 & L4)|Hal (xa & ya & vs & L1 & L2 & L3 & L4)|u Hal Hs L1 L2].
  - apply released_gone; [done|]. exists xa, ya, vs. split_and!; [done|done|by etransitivity|done].
  - apply released_listed; [done|]. exists xa, ya, vs. split_and!; [done|done|by etransitivity|done].
  - eapply (released_seen dl r w w2 u); [done|exact Hs|done|by etransitivity].
Qed.

(** The address was free in [w], as listed or as taken off before. *)
Lemma forgotten dl r r1 w w1 u w' : re_allocated r1 = re_allocated r -> re_floating_ip_id r1 = re_floating_ip_id r ->
  follows w w1 ->
  (re_allocated r = false -> released dl r w w1) ->
  (_ ← (if re_allocated r1 then delete_allocated platform dl application_id r1 else mret tt : Svc unit);
   db (_forget application_id)) w1 = (Ok u, w') ->
  released dl r w w' /\ held (store (w_db w')) = None.
Proof.
  intros Hal Hid F Hfree H. apply bind_ok in H as (? & w2 & H2 & H). pose proof (ran_db _ _ _ _ H) as F3.
  apply forgot in H. split; [|exact H]. rewrite Hal in H2. destruct (re_allocated r) eqn:E.
  - apply deleted in H2 as (xa & ya & values & L1 & L2 & L3 & L4). apply released_gone; [done|].
    exists xa, ya, values. split_and!; [done|by etransitivity|by etransitivity|]. unfold unlisted in *. by rewrite <- Hid.
  - injection H2 as _ <-. eapply released_later; [exact F3|]. by apply Hfree.
Qed.

(** Before it is forgotten, a listed address is free, or was taken off. *)
Lemma left_free dl r v values w3 w4 w5 r1 w6 : inventory platform dl w3 = (Ok values, w4) -> In v values ->
  recorded v r = true -> follows w4 w5 ->
  (if _association v None then mret r else take_off platform dl application_id r : Svc Reservation) w5 = (Ok r1, w6) ->
  re_allocated r1 = re_allocated r /\ re_floating_ip_id r1 = re_floating_ip_id r /\ follows w3 w6
  /\ (re_allocated r = false -> released dl r w3 w6).
Proof.
  intros H4 Hv Hc F5 H6. pose proof (kept _ _ _ _ _ (drifts_inventory _) H4) as [F4 _].
  destruct (_association v None) eqn:Ea.
  - injection H6 as <- <-. split_and!; [done|done|by etransitivity|]. intros E. apply released_listed; [done|].
    exists w3, w4, values. split_and!; [done|reflexivity|done|]. by exists v.
  - apply taken_off in H6 as (-> & F6 & u & Hs & L1 & L2). split_and!; [done|done|do 2 (etransitivity; [eassumption|]); done|].
    intros E. eapply (released_seen dl r _ _ u); [done|exact Hs|do 2 (etransitivity; [eassumption|]); done|done].
Qed.

Lemma release_ok dl w w' : release_locked platform application_id dl false w = (Ok tt, w') ->
  held (store (w_db w')) = None
  /\ (drifts w w' \/ exists r w1, held (store (w_db w1)) = Some r /\ follows w w1 /\ released dl r w1 w').
Proof.
  intros H. unfold release_locked in H. apply bind_ok in H as (o & w1 & H1 & H). apply got in H1 as [Hh D1].
  destruct o as [r0|]; [|injection H as <-; by split; [|left]].
  apply bind_ok in H as (? & ? & [_ ->]%lift_ok & H). apply bind_ok in H as (? & w2 & H2 & H).
  pose proof (kept _ _ _ _ _ (verify_reads untouched untouched_monotonic command_untouched _ _) H2) as [F2 E2].
  rewrite <- E2 in Hh. apply bind_ok in H as (r & w3 & H3 & H). pose proof (settled _ _ _ _ _ Hh H3) as Hr.
  pose proof (ran_follows _ _ _ _ w (settled_obeys _ _ w _ _ w2) H3) as F3.
  assert (F : follows w w3) by (etransitivity; [apply D1|]; by etransitivity).
  assert (G : held (store (w_db w')) = None /\ released dl r w3 w'); [|destruct G; split; [done|]; right; by exists r, w3].
  clear - H. apply bind_ok in H as (? & ? & [_ ->]%require_true & H). apply bind_ok in H as (values & w4 & H4 & H).
  pose proof (kept _ _ _ _ _ (drifts_inventory _) H4) as [F4 _].
  destruct (List.filter _ values) as [|v l] eqn:Ef.
  { destruct (re_allocated r) eqn:Hal; [|done]. destruct (in_phase _ _); [|done]. simpl in H.
    pose proof (ran_db _ _ _ _ H) as F5. apply forgot in H. split; [done|]. apply released_gone; [done|].
    by exists w3, w4, values. }
  assert (Hv : In v values) by (eapply filter_In; rewrite Ef; by left).
  apply bind_ok in H as (? & ? & [Hc ->]%lift_ok & H). apply bind_ok in H as (? & w5 & H5 & H).
  pose proof (kept _ _ _ _ _ (drifts_prove _ _) H5) as [F5 _]. apply bind_ok in H as (? & ? & [_ ->]%require_true & H).
  apply bind_ok in H as (r1 & w6 & H6 & H).
  destruct (left_free dl r v values w3 w4 w5 r1 w6) as (Hal & Hid & F6 & Hfree); [done|done| |done|done|].
  { unfold check in Hc. by destruct (recorded v r). }
  apply bind_ok in H as (? & w7 & H7 & H). pose proof (ran_db _ _ _ _ H7) as F7.
  apply (forgotten dl r _ w3) in H as [Hrel Hn]; [by split|done|done|by etransitivity|].
  intros E. eapply released_later; [exact F7|]. by apply Hfree.
Qed.
End Confirmed.

(** ** A provider with one address, to look at *)

Definition net_id : string := "33333333-3333-4333-8333-333333333333".
Definition worker_net_id : string := "44444444-4444-4444-8444-444444444444".
Definition ip_id : string := "55555555-5555-4555-8555-555555555555".
Definition server_id : string := "66666666-6666-4666-8666-666666666666".
Definition port_id : string := "77777777-7777-4777-8777-777777777777".
Definition group_id : string := "88888888-8888-4888-8888-888888888888".
Definition ingress_id : string := "99999999-9999-4999-8999-999999999999".
Definition rule_id : string := "aaaaaaaa-aaaa-4aaa-8aaa-aaaaaaaaaaaa".
Definition subnet_id : string := "bbbbbbbb-bbbb-4bbb-8bbb-bbbbbbbbbbbb".
Definition router_id : string := "cccccccc-cccc-4ccc-8ccc-cccccccccccc".

Definition project_entry : string * json := ("project_id", JStr (pc_project_id demo_platform)).
Definition demo_slot : WorkerSlot := {|
  ws_slot_id := demo_id; ws_slug := "demo-app"; ws_server_id := server_id;
  ws_server_name := (worker_names demo_platform demo_id).1; ws_port_id := port_id;
  ws_port_name := (worker_names demo_platform demo_id).2 |}.
Definition demo_binding : Binding := {| bi_slot := demo_slot; bi_fixed_ip := "10.0.0.9" |}.

Definition args_of (r : Request) : list string := match r with Command args _ => args | _ => [] end.

(** Where the address is, given what was asked, newest first *)
Fixpoint placed (l : list Request) : option bool :=
  match l with
  | [] => None
  | r :: l' =>
      if begins ["floating"; "ip"; "create"] (args_of r) then Some false
      else if begins ["floating"; "ip"; "set"] (args_of r) then Some true
      else if begins ["floating"; "ip"; "unset"] (args_of r) then Some false
      else if begins ["floating"; "ip"; "delete"] (args_of r) then None
      else placed l'
  end.

Definition address_document (description : string) (bound : bool) : json := JObj [
  ("id", JStr ip_id); project_entry; ("floating_network_id", JStr net_id);
  ("floating_ip_address", JStr "203.0.113.7"); ("description", JStr description);
  ("port_id", if bound then JStr port_id else JNull); ("fixed_ip_address", if bound then JStr "10.0.0.9" else JNull);
  ("status", JStr "ACTIVE"); ("router_id", JStr router_id)].

Definition named (entries : list (string * string)) : json := JObj (map (fun kv => (kv.1, JStr kv.2)) entries).

Definition demo_marker_text : string := "course:app-public-ip:" +:+ demo_id +:+ ":" +:+ demo_other.

Definition cloud_answer (args : list string) (bound : option bool) : option json :=
  let project := pc_project_id demo_platform in
  match args with
  | "token"%string :: _ => Some (JObj [project_entry])
  | "floating"%string :: "ip"%string :: "list"%string :: _ =>
      Some (JArr (match bound with Some _ => [named [("ID", ip_id)]] | None => [] end))
  | "floating"%string :: "ip"%string :: "show"%string :: _ | "floating"%string :: "ip"%string :: "create"%string :: _ =>
      address_document demo_marker_text <$> bound
  | "floating"%string :: _ => Some JNull
  | "network"%string :: "show"%string :: n :: _ =>
      Some (if String.eqb n net_id then JObj [("id", JStr net_id); ("router:external", JBool true)]
            else JObj [("id", JStr worker_net_id); ("name", JStr "workers"); ("subnets", JArr [JStr subnet_id])])
  | "quota"%string :: _ => Some (JArr [JObj [("Resource", JStr "floating_ips"); ("Limit", JInt 5)]])
  | "subnet"%string :: _ => Some (JObj [("id", JStr subnet_id); ("network_id", JStr worker_net_id); ("ip_version", JInt 4)])
  | "router"%string :: "list"%string :: _ => Some (JArr [named [("ID", router_id)]])
  | "router"%string :: _ => Some (JObj [("id", JStr router_id); project_entry;
      ("external_gateway_info", JObj [("network_id", JStr net_id); ("enable_snat", JBool true)])])
  | "port"%string :: "list"%string :: _ => Some (JArr [named [("ID", router_id)]])
  | "port"%string :: "show"%string :: p :: _ =>
      Some (if String.eqb p port_id then JObj [
          ("id", JStr port_id); project_entry; ("device_id", JStr server_id); ("name", JStr (ws_port_name demo_slot));
          ("description", JStr (slot_marker demo_id "demo-app")); ("port_security_enabled", JBool true);
          ("network_id", JStr worker_net_id); ("security_group_ids", JArr [JStr group_id]);
          ("fixed_ips", JArr [named [("ip_address", "10.0.0.9")]; named [("ip_address", "fd00::9")]])]
        else JObj [("id", JStr router_id); project_entry; ("device_id", JStr router_id); ("network_id", JStr worker_net_id);
          ("device_owner", JStr "network:router_interface"); ("fixed_ips", JArr [named [("subnet_id", subnet_id)]])])
  | "security"%string :: "group"%string :: "rule"%string :: "list"%string :: _ => Some (JArr [named [("ID", rule_id)]])
  | "security"%string :: "group"%string :: "rule"%string :: _ => Some (JObj [("id", JStr rule_id); project_entry;
      ("security_group_id", JStr group_id); ("direction", JStr "ingress"); ("remote_group_id", JStr ingress_id)])
  | "security"%string :: "group"%string :: "show"%string :: g :: _ =>
      Some (if String.eqb g group_id then JObj [("id", JStr group_id); project_entry; ("name", JStr "course-worker")]
            else JObj [("id", JStr ingress_id); project_entry; ("name", JStr "course-ingress")])
  | "server"%string :: _ => Some (JObj [("id", JStr server_id); ("name", JStr (ws_server_name demo_slot)); project_entry;
      ("properties", named [("course_managed_by", "platform"); ("course_application_id", demo_id);
                            ("course_application_slug", "demo-app")])])
  | _ => None
  end.

Definition demo_cloud (reserved : option bool) (l : list Request) : result CommandResult :=
  match l with
  | Command args _ :: _ =>
      match cloud_answer args (match placed l with Some b => Some b | None =>
              if existsb (fun r => begins ["floating"; "ip"; "delete"] (args_of r)) l then None else reserved end) with
      | Some v => Ok {| cr_stdout := dumps v; cr_stdout_truncated := false; cr_stderr_truncated := false |}
      | None => Raise CommandFailure
      end
  | _ => Raise CommandFailure
  end.

(** The application runs in its own slot. *)
Definition placed_job : string := unlines [
  q "    attribute = '${meta.application_id}'"; q "    operator  = '='"; q "    value     = '" +:+ demo_id +:+ q "'"].

Definition hosted_app : ApplicationInput := {|
  in_application_id := demo_id; in_slug := "demo-app"; in_worker_flavor := "example.1c2g";
  in_scheduler_cpu_mhz := 1000; in_scheduler_memory_mib := 2048; in_repository_url := None;
  in_desired_running := true; in_url := None; in_worker_server_id := Some server_id;
  in_worker_server_name := Some (ws_server_name demo_slot); in_worker_port_id := Some port_id;
  in_worker_port_name := Some (ws_port_name demo_slot) |}.

Definition hosted_evidence : Evidence := {|
  ev_recipe_hash := Some demo_digest; ev_image_digest := Some demo_image; ev_nomad_job := Some placed_job;
  ev_nomad_job_sha256 := Some demo_digest; ev_nomad_version := Some 1;
  ev_build_log_path := Some "/log"%string; ev_error := None; ev_cleanup_state := None |}.

Definition hosted_db : Db := Eval vm_compute in store (after_app [
  Journal (Claim demo_id demo_digest None); PutApplication hosted_app None; CreateAttempt demo_attempt None;
  CheckpointAttempt demo_other "succeeded" hosted_evidence None]).

Definition ip_world (reserved : option bool) (d : Db) : World := {|
  w_db := Conn d false (fun n => 1767225600000000 + Z.of_nat n) (fun _ => demo_other) 0;
  w_others := fun _ d => d; w_steps := 0; w_monotonic := fun n => Z.of_nat n; w_readings := 0;
  w_helper := fun _ => Raise (HelperError "unknown"); w_command := demo_cloud reserved;
  w_http := fun _ => Raise OSError; w_lock := fun _ => true; w_requests := [] |}.

Definition mutation (r : Request) : bool := match r with Command args _ => negb (is_read args) | _ => false end.

Definition mutations_asked (w : World) : list (list string) :=
  map (take 3) (map args_of (List.filter mutation (w_requests w))).

(** Allocating an address for the hosted application, and releasing it *)
Definition allocated_run := mutate demo_platform (900 * second) demo_id "allocate" (Some net_id) None (Some demo_other)
  (ip_world None hosted_db).
Definition allocated_db : Db := Eval vm_compute in store (w_db allocated_run.2).
Definition released_run := mutate demo_platform (900 * second) demo_id "release" None None (Some server_id)
  (ip_world (Some true) allocated_db).


(** A handover that returns is confirmed.  When [reconcile_accepted] returns,
    the application has no reservation and nothing was asked; or it has no
    accepted worker, the reservation names no port, and the address was just seen
    free; or the reservation names, with nothing pending, the worker its running
    deployment was accepted on, whose port was proven the application's own with
    its one address, and the recorded address was then seen on that port, active
    on a router; unless all that was so already, this is what the database now
    holds.  Other threads may write anything meanwhile. *)
Theorem handover_confirmed platform application_id deadline w w' :
  reconcile_accepted platform application_id deadline w = (Ok tt, w') ->
  reconciled_with platform application_id deadline w w'.
Proof. apply reconciled_ok. Qed.

(** The address of [allocated_run], reserved and not yet handed over *)
Definition parked_address : World :=
  ip_world (Some false) (store ((_save demo_id {|
    re_request_id := demo_other; re_project_id := pc_project_id demo_platform; re_network_id := net_id;
    re_floating_ip_id := Some ip_id; re_address := Some "203.0.113.7"%string; re_description := JStr demo_marker_text;
    re_allocated := true; re_phase := ip_reserved; re_port := None; re_pending_port := None |}) (opened hosted_db)).2).

Definition handover_run := reconcile_accepted demo_platform demo_id (900 * second) parked_address.

Lemma handover_confirmed_witness :
  outcome (fun w => reservation_at demo_id (store (w_db w)) ≫= re_port) handover_run = (Ok tt, Some demo_binding)
  /\ reconciled_with demo_platform demo_id (900 * second) parked_address handover_run.2.
Proof.
  assert (E : outcome (fun w => reservation_at demo_id (store (w_db w)) ≫= re_port) handover_run = (Ok tt, Some demo_binding))
    by (vm_compute; reflexivity).
  split; [exact E|]. apply handover_confirmed. rewrite <- (outcome_result _ _ _ _ E). apply surjective_pairing.
Defined.


Definition release_run := release_locked demo_platform demo_id (900 * second) false parked_address.

