(* ===== verification/RetainedPortSpec.v ===== *)
(** * Properties of retained primary ports

    A port is created once, and deleted only while it was shown detached, each
    with its intent on record. *)

From S2P Require Import Prelude Regex Json JsonParse Clock Validation Runtime Sql Schema StorageCapacity Operations.
From S2P Require Import OperationsSpec AdmissionSpec StorageContract DeploymentConfig Applications ApplicationsSpec Resources.
From S2P Require Import Sizing NomadJobs Service Rollout RolloutSpec StorageLimits StorageLimitsSpec.
From S2P Require Import OpenStack OpenStackSpec IpAddress FloatingIp PublicIp PublicIpSpec FixedIp RetainedPort.

(** ** Reads of the provider *)

Section Reads.
Context (R : World -> World -> Prop) `{!PreOrder R} (Hclock : preserves R monotonic)
  (Hread : forall args t, is_read args = true -> preserves R (command_runner args t)).
Context (platform : PlatformConfig) (deadline : Z).

Ltac observing := reading R Hclock Hread.

Lemma fixed_verify_reads : preserves R (FixedIp.verify platform deadline).
Proof. unfold FixedIp.verify, FixedIp._bounds. observing. apply (project_reads R Hclock Hread). Qed.
Lemma fixed_plan_reads n s a : preserves R (FixedIp.plan platform deadline n s a).
Proof. unfold FixedIp.plan. observing. apply fixed_verify_reads. Qed.
Lemma fixed_show_reads i : preserves R (FixedIp.show deadline i).
Proof. unfold FixedIp.show. observing. Qed.
Lemma selected_reads s rows : preserves R (show_selected deadline s rows).
Proof. induction rows as [|[row id] rows IH]; simpl; observing. apply fixed_show_reads. Qed.
Lemma fixed_inventory_reads s : preserves R (FixedIp.inventory platform deadline s).
Proof. unfold FixedIp.inventory. observing. apply selected_reads. Qed.
Lemma fixed_check_reads v r d : preserves R (FixedIp.check platform deadline v r d).
Proof. unfold FixedIp.check. observing. apply fixed_plan_reads. Qed.
Lemma shown_reads r : preserves R (shown_port deadline r).
Proof. unfold shown_port. observing. apply fixed_show_reads. Qed.
Lemma listed_reads r : preserves R (port_inventory platform deadline r).
Proof. unfold port_inventory. observing. apply fixed_inventory_reads. Qed.
End Reads.

(** ** The protocol of a reservation *)

Definition port_at (application_id : string) (d : Db) : option PortRecord :=
  fp_record <$> List.find (port_of_app application_id) (application_fixed_ports d).

Definition reads_only (r : Request) : Prop := exists args t, r = Command args t /\ is_read args = true.

(** Since the port [i] was shown, only reads were asked; what was shown is the
    port recorded, with no device, host, owner or trunk. *)
Definition shown_detached (r : PortRecord) (i : string) (w : World) : Prop :=
  exists later t earlier result d value,
    w_requests w = later ++ Command ["port"; "show"; i; "--format"; "json"] t :: earlier /\ Forall reads_only later
    /\ w_command w (Command ["port"; "show"; i; "--format"; "json"] t :: earlier) = Ok result
    /\ decoded result = Ok (JObj d) /\ normalize_port d = Ok value /\ check_port value r "" = Ok tt.

Abbreviation no_port := (not_asked ["port"; "create"]).
Definition port_creates : World -> nat := asked_for ["port"; "create"].

Section Protocol.
Context (platform : PlatformConfig) (application_id : string) (w0 : World).

(** The two mutations, each with the intent the reservation holds *)
Inductive port_journaled (w : World) : list string -> Prop :=
  | journaled_port_create r :
      port_at application_id (store (w_db w)) = Some r -> own_record platform application_id r = true ->
      po_phase r = po_allocating -> po_port_id r = None -> port_creates w = port_creates w0 ->
      port_journaled w ["port"; "create"; "--network"; po_network_id r; "--fixed-ip";
        "subnet=" +:+ po_subnet_id r +:+ ",ip-address=" +:+ po_address r; "--security-group"; po_security_group_id r;
        "--description"; po_description r; po_name r; "--format"; "json"]
  | journaled_port_delete r i :
      port_at application_id (store (w_db w)) = Some r -> own_record platform application_id r = true ->
      po_phase r = po_deleting -> po_port_id r = Some i -> po_worker_create_pending r = false ->
      shown_detached r i w ->
      port_journaled w ["port"; "delete"; i].

Definition port_allowed (w : World) (r : Request) : Prop :=
  match r with
  | Command args _ => is_read args = true \/ port_journaled w args
  | Acquire scope | Free scope => scope = "app-" +:+ application_id
  | _ => False
  end.

Abbreviation protocol := (obeys port_allowed).

Lemma port_reading_obeys args t : is_read args = true -> preserves protocol (command_runner args t).
Proof. intros H. apply obeys_command. intros w. by left. Qed.

Definition obeys_fixed_verify dl : preserves protocol (FixedIp.verify platform dl) :=
  fixed_verify_reads protocol (obeys_monotonic _) port_reading_obeys platform dl.
Definition obeys_fixed_plan dl n s a : preserves protocol (FixedIp.plan platform dl n s a) :=
  fixed_plan_reads protocol (obeys_monotonic _) port_reading_obeys platform dl n s a.
Definition obeys_fixed_show dl i : preserves protocol (FixedIp.show dl i) :=
  fixed_show_reads protocol (obeys_monotonic _) port_reading_obeys dl i.
Definition obeys_fixed_inventory dl s : preserves protocol (FixedIp.inventory platform dl s) :=
  fixed_inventory_reads protocol (obeys_monotonic _) port_reading_obeys platform dl s.
Definition obeys_fixed_check dl v r d : preserves protocol (FixedIp.check platform dl v r d) :=
  fixed_check_reads protocol (obeys_monotonic _) port_reading_obeys platform dl v r d.
Definition obeys_shown dl r : preserves protocol (shown_port dl r) :=
  shown_reads protocol (obeys_monotonic _) port_reading_obeys dl r.
Definition obeys_listed dl r : preserves protocol (port_inventory platform dl r) :=
  listed_reads protocol (obeys_monotonic _) port_reading_obeys platform dl r.
#[local] Hint Resolve obeys_fixed_verify obeys_fixed_plan obeys_fixed_show obeys_fixed_inventory obeys_fixed_check
  obeys_shown obeys_listed : service.

(** *** What the steps before a mutation establish *)

Lemma port_saved r w u w' : po_application_id r = application_id -> db (RetainedPort._save r) w = (Ok u, w') ->
  port_at application_id (store (w_db w')) = Some r.
Proof.
  intros <- H%db_step. apply put_found in H; [|apply String.eqb_refl]. unfold port_at. simpl in H. by rewrite H.
Qed.

Lemma port_shown dl i w v w' : FixedIp.show dl i w = (Ok v, w') ->
  exists t earlier result d, untouched w w'
    /\ w_requests w' = Command ["port"; "show"; i; "--format"; "json"] t :: earlier
    /\ w_command w' (w_requests w') = Ok result /\ decoded result = Ok (JObj d) /\ normalize_port d = Ok v.
Proof.
  intros H. pose proof (kept _ _ _ _ _ (fixed_show_reads untouched untouched_monotonic command_untouched dl i) H) as U.
  unfold FixedIp.show in H. apply bind_ok in H as (j & w1 & [Hj ->]%lift_ok & H). apply uuid_json in Hj. injection Hj as <-.
  apply bind_ok in H as (x & w2 & H2 & H). apply ask_answered in H2 as (t & result & w3 & _ & -> & Hc & Hd).
  apply bind_ok in H as (d & w4 & [-> ->]%document_ok & H).
  apply bind_ok in H as (n & w5 & [Hn ->]%lift_ok & H). apply bind_ok in H as (? & ? & [_ ->]%require_true & H).
  injection H as <- <-. exists t, (w_requests w3), result, d. by split_and!.
Qed.

Lemma command_reads args t : is_read args = true -> preserves (asks reads_only) (command_runner args t).
Proof. intros H w. apply asks_asked. by exists args, t. Qed.

(** The port, shown and checked without a device, stays so over reads. *)
Lemma detached_shown dl r w v w1 u w2 : shown_port dl r w = (Ok v, w1) -> FixedIp.check platform dl v r "" w1 = (Ok u, w2) ->
  exists i, po_port_id r = Some i /\ shown_detached r i w2 /\ untouched w w2.
Proof.
  intros H Hc. unfold shown_port in H. apply bind_ok in H as (i & ? & [Hi ->]%lift_ok & H). apply uuid_json in Hi.
  apply port_shown in H as (t & earlier & result & d & U & Hr & Ha & Hd & Hn).
  pose proof (kept _ _ _ _ _ (fixed_check_reads untouched untouched_monotonic command_untouched _ _ _ _ _) Hc) as U2.
  pose proof (kept _ _ _ _ _ (fixed_check_reads (asks reads_only) (asks_monotonic _) command_reads _ _ _ _ _) Hc) as (later & Hl & Fl).
  exists i. split_and!; [|exists later, t, earlier, result, d, v; split_and!; try done|by etransitivity].
  - unfold opt_text in Hi. destruct (po_port_id r); [by injection Hi as ->|done].
  - by rewrite Hl, Hr.
  - rewrite <- Hr, (follows_command _ _ (untouched_follows _ _ U2)). done.
  - unfold FixedIp.check in Hc. by apply bind_ok in Hc as ([] & ? & [? _]%lift_ok & _).
Qed.

Lemma detached_later r i w w' : at_rest w w' -> shown_detached r i w -> shown_detached r i w'.
Proof.
  intros [[F _] E] (later & t & earlier & result & d & v & H1 & H2 & H3 & H4 & H5 & H6). exists later, t, earlier, result, d, v.
  rewrite E, (follows_command _ _ F). by split_and!.
Qed.

Lemma port_kept w w1 o : untouched w w1 -> port_at application_id (store (w_db w)) = o ->
  port_at application_id (store (w_db w1)) = o.
Proof. intros [_ ->]. done. Qed.

(** *** Release *)

Lemma port_delete_obeys dl r i w : port_at application_id (store (w_db w)) = Some r ->
  own_record platform application_id r = true -> po_phase r = po_deleting -> po_port_id r = Some i ->
  po_worker_create_pending r = false -> shown_detached r i w -> protocol w (FixedIp.delete dl i w).2.
Proof.
  intros Hr Ho Hp Hi Hn Hs. unfold FixedIp.delete. next H. apply lift_ok in H as [Hu ->]. apply uuid_json in Hu as [= <-].
  apply tell_obeys. intros w1 t U. right. eapply (journaled_port_delete _ r i); try done.
  - eapply port_kept; [apply U|done].
  - by eapply detached_later.
Qed.

Lemma recovered dl r w r' w' : _recover platform dl r w = (Ok r', w') ->
  exists i, r' = with_port_phase po_reserved (with_port i r).
Proof.
  unfold _recover. intros H. apply bind_ok in H as (l & w1 & _ & H). destruct (List.filter _ l) as [|v [|]]; [done| |done].
  unfold _accept in H. apply bind_ok in H as (i & w2 & _ & H). do 2 (apply bind_ok in H as (? & ? & _ & H)).
  injection H as <- _. by exists i.
Qed.

Lemma accept_obeys dl r v : preserves protocol (_accept platform dl r v).
Proof. unfold _accept. preserving. Qed.
Lemma recover_obeys dl r : preserves protocol (_recover platform dl r).
Proof. pose proof accept_obeys. unfold _recover. preserving. Qed.
#[local] Hint Resolve accept_obeys recover_obeys : service.

Lemma port_release_obeys dl w : protocol w (RetainedPort.release_locked platform application_id dl w).2.
Proof.
  unfold RetainedPort.release_locked. next H1. destruct a as [r0|]; [|reflexivity].
  next H2. apply require_true in H2 as [Ho ->]. next H3. apply require_true in H3 as [Hn%negb_true_iff ->]. next H4.
  apply obeys_then; [destruct (bool_decide _); [apply recover_obeys|reflexivity]|]. intros r wr H5.
  assert (Hr : own_record platform application_id r = true /\ po_worker_create_pending r = false).
  { destruct (bool_decide _); [|by injection H5 as <- _]. apply recovered in H5 as [i ->]. done. }
  destruct Hr as [Hor Hnr]. apply obeys_then; [apply obeys_listed|]. intros matches wl H6. destruct matches as [|v l].
  { destruct (bool_decide (po_phase r = po_deleting)); [apply obeys_db|reflexivity]. }
  next H7. next H8. apply port_saved in H8; [|by apply andb_true_iff in Hor as [[[Hor%String.eqb_eq _]%andb_true_iff _]%andb_true_iff _]].
  next H9. next H10. destruct (detached_shown _ _ _ _ _ _ _ H9 H10) as (i & Hi & Hs & U).
  change (po_port_id r = Some i) in Hi. cbn [with_port_phase po_port_id]. rewrite Hi. cbn [default].
  apply obeys_then; [|intros; next K1; next K2; apply obeys_db].
  eapply (port_delete_obeys dl (with_port_phase po_deleting r)); try done. eapply port_kept; [exact U|exact H8].
Qed.
(** *** Reservation *)

Lemma read_no_port args t : is_read args = true -> preserves no_port (command_runner args t).
Proof. apply read_not_asked. intros rest. by vm_compute. Qed.
Lemma db_no_port {A} (m : DB A) : preserves no_port (db m).
Proof. apply db_not_asked. Qed.
Lemma clock_no_port : preserves no_port monotonic.
Proof. apply clock_not_asked. Qed.

Lemma allocate_port_obeys q n s a dl w : pr_application_id q = application_id -> port_creates w = port_creates w0 ->
  protocol w (allocate_port platform q n s a dl w).2.
Proof.
  intros Hq Hc. unfold allocate_port. apply obeys_then; [apply obeys_fixed_plan|]. intros p wp Hp.
  pose proof (kept _ _ _ _ _ (fixed_plan_reads no_port clock_no_port read_no_port platform dl n s a) Hp) as Np.
  cbv zeta. set (r := new_port platform q n s a _). apply obeys_then; [apply obeys_db|]. intros ? ws Hs.
  pose proof (kept _ _ _ _ _ (db_no_port _) Hs) as Ns. apply port_saved in Hs; [|exact Hq].
  unfold FixedIp.create. apply obeys_then; [|intros; next K1; next K2; next K3; reflexivity].
  apply obeys_then; [|intros v ? _; destruct v; try reflexivity; next K1; next K2; reflexivity].
  apply ask_obeys. intros w2 t [U E]. right. apply (journaled_port_create _ r); try done.
  - by eapply port_kept.
  - unfold own_record, r, new_port. cbn [po_application_id po_project_id po_description po_name po_request_id].
    by rewrite Hq, !String.eqb_refl.
  - unfold not_asked, port_creates, asked_for in *. by rewrite E, Ns, Np.
Qed.

Lemma reserve_obeys q dl w : pr_application_id q = application_id -> port_creates w = port_creates w0 ->
  protocol w (RetainedPort.reserve platform q dl w).2.
Proof.
  intros Hq Hc. unfold RetainedPort.reserve. apply obeys_then; [apply obeys_db|]. intros b w1 H1.
  pose proof (kept _ _ _ _ _ (db_no_port _) H1) as N1. next H2. apply require_true in H2 as [_ ->].
  apply obeys_then; [apply obeys_db|]. intros o w2 H2. pose proof (kept _ _ _ _ _ (db_no_port _) H2) as N2.
  destruct o as [r|].
  - next H3. destruct (bool_decide _); [next K1; reflexivity|]. next K1. apply obeys_fixed_check.
  - destruct (pr_network_id q), (pr_subnet_id q), (pr_address q); try reflexivity.
    apply allocate_port_obeys; [done|]. unfold not_asked, port_creates in *. congruence.
Qed.

Lemma perform_port_obeys q dl w : pr_application_id q = application_id -> port_creates w = port_creates w0 ->
  protocol w (perform_port platform q dl w).2.
Proof.
  intros Hq Hc. unfold perform_port. destruct (reserves q); [by apply reserve_obeys|]. rewrite Hq. apply port_release_obeys.
Qed.

Lemma fixed_operation_no_port q dl : preserves no_port (fixed_ip_operation q dl).
Proof.
  unfold fixed_ip_operation, wall_deadline.
  repeat first [progress preserving | apply db_no_port | apply clock_no_port].
Qed.
Lemma fixed_operation_obeys q dl : preserves protocol (fixed_ip_operation q dl).
Proof. unfold fixed_ip_operation, wall_deadline. preserving. Qed.
Lemma port_failure_obeys q e : preserves protocol (record_port_failure q e).
Proof. unfold record_port_failure. preserving. Qed.
#[local] Hint Resolve port_failure_obeys : service.

Lemma port_locked_obeys q dl w : pr_application_id q = application_id -> port_creates w = port_creates w0 ->
  protocol w (RetainedPort.mutate_locked platform q dl w).2.
Proof.
  intros Hq Hc. unfold RetainedPort.mutate_locked. apply obeys_then; [apply obeys_db|]. intros o w1 H1.
  pose proof (kept _ _ _ _ _ (db_no_port _) H1) as N1. destruct o as [?|]; [|reflexivity].
  apply obeys_then; [apply fixed_operation_obeys|]. intros d w2 H2.
  pose proof (kept _ _ _ _ _ (fixed_operation_no_port _ _) H2) as N2. destruct d; [apply obeys_db|].
  apply obeys_then; [|intros; apply obeys_db]. unfold catch.
  set (m := (_ ← perform_port platform q dl; _)). assert (A : protocol w2 (m w2).2).
  { apply obeys_then; [apply perform_port_obeys; [done|unfold not_asked, port_creates in *; congruence]|].
    intros ? ?w _. next K1. reflexivity. }
  destruct (m w2) as [[u|e] w3]; [done|]. etransitivity; [exact A|]. next K2. reflexivity.
Qed.
End Protocol.


(** *** A provider with one port, to look at *)

(** Whether the port exists, given what was asked, newest first *)
Fixpoint made (l : list Request) : bool :=
  match l with
  | [] => false
  | r :: l' => if begins ["port"; "create"] (args_of r) then true
               else if begins ["port"; "delete"] (args_of r) then false else made l'
  end.

Definition port_document : json := JObj [
  ("id", JStr port_id); project_entry; ("network_id", JStr worker_net_id); ("name", JStr (port_name demo_platform demo_id));
  ("description", JStr (FixedIp.marker demo_platform demo_id demo_other)); ("device_id", JStr ""); ("device_owner", JStr "");
  ("port_security_enabled", JBool true); ("allowed_address_pairs", JArr []); ("security_group_ids", JArr [JStr group_id]);
  ("fixed_ips", JArr [named [("subnet_id", subnet_id); ("ip_address", "10.0.0.9")]])].

Definition subnet_document : json := JObj [
  ("id", JStr subnet_id); ("network_id", JStr worker_net_id); ("ip_version", JInt 4); ("cidr", JStr "10.0.0.0/24");
  ("gateway_ip", JStr "10.0.0.1")].

Definition group_document : json := JObj [("id", JStr group_id); project_entry; ("name", JStr "course-worker")].

Definition port_cloud (l : list Request) : result CommandResult :=
  let answer v := Ok {| cr_stdout := dumps v; cr_stdout_truncated := false; cr_stderr_truncated := false |} in
  match l with
  | Command args _ :: l' =>
      if begins ["port"; "create"] args || begins ["port"; "show"] args then answer port_document
      else if begins ["port"; "list"] args then answer (JArr (if made l then [named [("ID", port_id)]] else []))
      else if begins ["subnet"; "show"] args then answer subnet_document
      else if begins ["security"; "group"; "show"] args then answer group_document
      else match cloud_answer args None with Some v => answer v | None => answer JNull end
  | _ => Raise CommandFailure
  end.

Definition port_world (l : list Request) (d : Db) : World := {|
  w_db := Conn d false (fun n => 1767225600000000 + Z.of_nat n) (fun _ => demo_other) 0;
  w_others := fun _ d => d; w_steps := 0; w_monotonic := fun n => Z.of_nat n; w_readings := 0;
  w_helper := fun _ => Raise (HelperError "unknown"); w_command := port_cloud; w_http := fun _ => Raise OSError;
  w_lock := fun _ => true; w_requests := l |}.

(** Reserving a port for the hosted application, and releasing it *)
Definition reserve_run := RetainedPort.mutate demo_platform (900 * second) demo_id "reserve" (Some worker_net_id) (Some subnet_id)
  (Some "10.0.0.9"%string) (Some demo_other) (port_world [] hosted_db).
Definition reserved_requests : list Request := Eval vm_compute in w_requests reserve_run.2.
Definition reserved_db : Db := Eval vm_compute in store (w_db reserve_run.2).
Definition reserved_world : World := port_world reserved_requests reserved_db.
Definition unreserve_run := RetainedPort.mutate demo_platform (900 * second) demo_id "release" None None None (Some server_id)
  reserved_world.

