(* ===== verification/WorkerHelperSpec.v ===== *)
(** * Properties of the worker calls that carry a reservation

    Whatever is called through [worker_helper], a worker is deleted only once the
    storage instances no longer admit its address, and created on a retained port
    only once its creation is on record. *)

From S2P Require Import Prelude Regex Json JsonParse Clock Validation Runtime Sql Schema StorageCapacity Operations.
From S2P Require Import OperationsSpec AdmissionSpec StorageContract DeploymentConfig Applications ApplicationsSpec Resources ResourcesSpec.
From S2P Require Import Sizing NomadJobs Service Rollout RolloutSpec StorageLimits StorageLimitsSpec.
From S2P Require Import OpenStack OpenStackSpec IpAddress FloatingIp PublicIp PublicIpSpec FixedIp RetainedPort RetainedPortSpec.

(** ** Deleting a worker revokes its address first *)

(** At [u], the slot's application and its storage instances *)
Definition instances_seen (slot : string) (u : World) (o : option (string * list string)) : Prop :=
  (instances_of slot u).1 = Ok o.

(** The helper has just confirmed the allow-list of the owner's instances, and
    that allow-list, recorded as sent, has no address for the slot. *)
Definition just_revoked (slot owner : string) (instance_ids : list string) (w : World) : Prop :=
  exists args t earlier answer addresses row,
    w_requests w = Helper "storage.instances.network" args t :: earlier
    /\ w_helper w (w_requests w) = Ok answer /\ is_true (refs_get "applied" answer) = true
    /\ refs_get "applicationId" args = JStr owner /\ refs_get "instanceIds" args = JArr (map JStr instance_ids)
    /\ refs_get "addresses" args = JArr addresses /\ refs_get "mode" args = JStr "replace"
    /\ List.find (allowlist_of owner) (storage_worker_allowlists (store (w_db w))) = Some row
    /\ In (slot, None) (wa_slots row) /\ map py_str addresses = omap snd (wa_slots row).

Definition delete_revoked (w0 w : World) (slot : string) : Prop :=
  exists u o, follows w0 u /\ follows u w /\ instances_seen slot u o
    /\ match o with None | Some (_, []) => True | Some (owner, ids) => just_revoked slot owner ids w end.

(** Only the helper is asked; a worker is deleted only once its address is revoked. *)
Definition revoking (w0 w : World) (r : Request) : Prop :=
  match r with
  | Helper action args _ =>
      action = "app.worker.delete" -> exists slot, refs_get "applicationId" args = JStr slot /\ delete_revoked w0 w slot
  | _ => False
  end.

Lemma obeys_helper allow a args t : (forall w, allow w (Helper a args t)) -> preserves (obeys allow) (call_helper a args t).
Proof. intros H w. apply obeys_ask, H. Qed.

Lemma helper_step a args t w r w' : call_helper a args t w = (r, w') ->
  w' = asked (Helper a args t) w /\ w_helper w' (w_requests w') = r.
Proof. by intros [= <- <-]. Qed.

(** What [reconcile_network] has found about each slot *)
Lemma addresses_found args dl retained slot result removed : forall slots w found w',
  slot_addresses call_helper args dl retained slot result removed slots w = (Ok found, w') ->
  map fst found.1 = slots /\ map py_str found.2 = omap snd found.1
  /\ (forall s, In s slots -> one_of_words removed s = true -> In (s, None) found.1).
Proof.
  induction slots as [|s slots IH]; intros w found w' H; simpl in H; [by injection H as <- _|].
  destruct (one_of_words removed s) eqn:E.
  - apply bind_ok in H as (others & w1 & H1%IH & H). injection H as <- _. destruct H1 as (H1 & H2 & H3). simpl.
    split_and!; [by f_equal|done|]. intros s1 [->|Hx] Hr; [by left|right; by apply H3].
  - apply bind_ok in H as (d & w1 & _ & H). apply bind_ok in H as (? & w2 & _ & H).
    apply bind_ok in H as (others & w3 & H1%IH & H). injection H as <- _. destruct H1 as (H1 & H2 & H3). simpl.
    split_and!; [by f_equal| |].
    + destruct (negb _); simpl; [|done]. by f_equal.
    + intros s1 [->|Hx] Hr; [congruence|right; by apply H3].
Qed.

Lemma owner_slots slot apps owner : owner_among slot apps = Ok (Some owner) ->
  exists slots, slots_of owner = Ok slots /\ In slot slots.
Proof.
  induction apps as [|a apps IH]; simpl; [done|]. intros H. apply rbind_ok in H as (slots & Hs & H).
  destruct (one_of_words slots slot) eqn:E; [|by apply IH]. injection H as <-. exists slots.
  split; [done|by apply one_of_words_in].
Qed.

Lemma instances_owner slot u owner ids : instances_seen slot u (Some (owner, ids)) ->
  exists slots, slots_of owner = Ok slots /\ In slot slots.
Proof.
  unfold instances_seen. intros H. destruct (instances_of slot u) as [r u'] eqn:E. simpl in H. subst r.
  unfold instances_of in E.
  apply bind_ok in E as (apps & u1 & _ & E). apply bind_ok in E as (o & u2 & [Ho _]%lift_ok & E).
  destruct o as [o|]; [|done]. apply bind_ok in E as (l & u3 & _ & E). injection E as -> _ _. by eapply owner_slots.
Qed.

Lemma removed_self slot owner args removed :
  removed_slots "app.worker.delete" slot owner args = Ok removed -> one_of_words removed slot = true.
Proof.
  unfold removed_slots. simpl. intros H. apply one_of_words_in. destruct (is_single args); [injection H as <-; by left|].
  apply rbind_ok in H as (slots & _ & H). injection H as <-. by left.
Qed.

(** A reconciliation before a deletion revokes the slot's address. *)
Lemma reconcile_revokes slot owner ids args dl w w' : ids <> [] ->
  (exists slots, slots_of owner = Ok slots /\ In slot slots) ->
  reconcile_network call_helper "app.worker.delete" slot args dl (Some (owner, ids)) None w = (Ok tt, w') ->
  just_revoked slot owner ids w'.
Proof.
  intros Hi (slots & Hs & Hin) H. unfold reconcile_network in H. destruct ids as [|i ids]; [done|].
  apply bind_ok in H as (removed & w1 & [Hr%removed_self ->]%lift_ok & H).
  apply bind_ok in H as (cached & w2 & _ & H). cbv zeta in H. apply bind_ok in H as (retained & w3 & _ & H).
  apply bind_ok in H as (l & w4 & [Hl ->]%lift_ok & H). rewrite Hs in Hl. injection Hl as <-.
  apply bind_ok in H as (found & w5 & (H1 & H2 & H3)%addresses_found & H).
  apply bind_ok in H as (answer & w6 & [-> Ha]%helper_step & H).
  apply bind_ok in H as (? & ? & [Hc ->]%require_true & H). cbv beta in H.
  set (row := {| wa_application_id := owner |}) in H. set (w6 := asked _ w5) in *.
  pose proof (ran_db _ _ _ _ H) as F. assert (E : w_requests w' = w_requests w6).
  { unfold db in H. destruct (put_allowlist row _). by injection H as _ <-. }
  apply db_step, put_found in H; [|apply String.eqb_refl].
  eexists _, dl, (w_requests w5), answer, found.2, row. rewrite E. rewrite (follows_helper _ _ F).
  split_and!; try done. by apply H3.
Qed.

(** *** Steps around a worker call

    Whatever relation observations, network assignments and database calls that
    leave the reservations alone preserve, the steps around a worker call
    preserve. *)
Definition action_of (r : Request) : string := match r with Helper action _ _ => action | _ => "" end.

(** The reservations bound to a slot are the same, and each is still its
    application's. *)
Definition at_slot (slot : string) (x : FixedPort) : bool := bool_decide (po_worker_slot_id (fp_record x) = Some slot).

Definition slot_ports (slot : string) (w : World) : list FixedPort :=
  List.filter (at_slot slot) (application_fixed_ports (store (w_db w))).

Definition same_slot (slot : string) (d d' : Db) : Prop :=
  List.filter (at_slot slot) (application_fixed_ports d') = List.filter (at_slot slot) (application_fixed_ports d)
  /\ forall application_id r, port_at application_id d = Some r -> po_worker_slot_id r = Some slot ->
       port_at application_id d' = Some r.

#[export] Instance same_slot_preorder slot : PreOrder (same_slot slot).
Proof. split; [by intros d|]. intros a b c [H1 K1] [H2 K2]. split; [by rewrite H2|auto]. Qed.

(** No other thread changes a reservation bound to the slot: the lock of its
    application is held.  Those of other slots they may change. *)
Definition undisturbed (slot : string) (w : World) : Prop := forall n d, same_slot slot d (w_others w n d).

(** The reservations bound to the slot are left alone, and no worker is created. *)
Record steady (slot : string) (w w' : World) : Prop := {
  steady_follows : follows w w';
  steady_rows : undisturbed slot w -> same_slot slot (store (w_db w)) (store (w_db w'));
  steady_asks : asks (fun r => action_of r <> "app.worker.create"%string) w w';
}.

Lemma undisturbed_follows slot w w' : follows w w' -> undisturbed slot w -> undisturbed slot w'.
Proof. intros F H. unfold undisturbed. by rewrite (follows_others _ _ F). Qed.

#[export] Instance steady_preorder slot : PreOrder (steady slot).
Proof.
  split; [intros w; by split|]. intros a b c [F1 H1 A1] [F2 H2 A2]. split; [by etransitivity| |by etransitivity].
  intros U. etransitivity; [by apply H1|]. apply H2. by eapply undisturbed_follows.
Qed.

Definition same_ports (d d' : Db) : Prop := application_fixed_ports d' = application_fixed_ports d.

#[export] Instance same_ports_preorder : PreOrder same_ports.
Proof. unfold same_ports. split; [by intros d|]. intros a b c Hab Hbc. congruence. Qed.

Lemma same_ports_slot slot d d' : same_ports d d' -> same_slot slot d d'.
Proof. unfold same_ports, same_slot, port_at. by intros ->. Qed.

Lemma steady_db slot {A} (m : DB A) : evolves same_ports m -> preserves (steady slot) (db m).
Proof.
  intros Hm w. split; [apply follows_db| |apply asks_db]. intros U. unfold db. specialize (Hm (w_db (interfere w))).
  destruct (m _) as [r c]. simpl in *. etransitivity; [apply (U (w_steps w))|by apply same_ports_slot].
Qed.

Lemma steady_still slot {A} (m : DB A) : evolves eq m -> preserves (steady slot) (db m).
Proof. intros Hm. by apply steady_db, evolves_still. Qed.

Lemma steady_helper slot a args t : a <> "app.worker.create"%string -> preserves (steady slot) (call_helper a args t).
Proof. intros H w. split; [apply follows_asked|done|by apply asks_asked]. Qed.

Lemma ports_allowlist row : evolves same_ports (put_allowlist row).
Proof. unfold put_allowlist. by evolve. Qed.

Section Calls.
Context (R : World -> World -> Prop) `{!PreOrder R} (Hdb : forall A (m : DB A), evolves same_ports m -> preserves R (db m))
  (Hobserve : forall args t, preserves R (call_helper "app.worker.observe" args t))
  (Hnetwork : forall args t, preserves R (call_helper "storage.instances.network" args t)).

Ltac stepping := intros;
  repeat first [progress preserving | apply Hobserve | apply Hnetwork | apply Hdb, ports_allowlist
               | apply Hdb, evolves_still; by evolve
               | apply preserves_ret; apply _ | apply preserves_raise; apply _
               | apply preserves_lift; apply _ | apply preserves_require; apply _ | assumption].

Lemma addresses_kept args dl retained slot result removed slots :
  preserves R (slot_addresses call_helper args dl retained slot result removed slots).
Proof. induction slots as [|s slots IH]; simpl; unfold probe; stepping. Qed.

Lemma network_kept action slot args dl instances result :
  preserves R (reconcile_network call_helper action slot args dl instances result).
Proof. unfold reconcile_network, RetainedPort.get. stepping. apply addresses_kept. Qed.

Lemma instances_kept slot : preserves R (instances_of slot).
Proof. unfold instances_of. stepping. Qed.

Lemma carry_kept r args : preserves R (carry r args).
Proof. unfold carry. stepping. Qed.
End Calls.

(** *** Calls that are free

    Whatever relation database calls and the calls of free actions preserve, the
    steps around a worker call preserve, and every call of a free action. *)
Section Free.
Context (R : World -> World -> Prop) `{!PreOrder R} (Hdb : forall A (m : DB A), preserves R (db m))
  (free : string -> Prop) (Hfree : forall a args t, free a -> preserves R (call_helper a args t))
  (Hobserve : free "app.worker.observe") (Hnetwork : free "storage.instances.network").

#[local] Hint Resolve Hdb Hfree : service.
Ltac stepping := intros;
  repeat first [progress preserving | apply preserves_ret; apply _ | apply preserves_raise; apply _
               | apply preserves_lift; apply _ | apply preserves_require; apply _ | assumption].

Lemma network_free action slot args dl instances result :
  preserves R (reconcile_network call_helper action slot args dl instances result).
Proof. apply network_kept; intros; auto with service. Qed.
Lemma instances_free slot : preserves R (instances_of slot).
Proof. apply instances_kept; intros; auto with service. Qed.
Lemma carry_free r args : preserves R (carry r args).
Proof. apply carry_kept; intros; auto with service. Qed.
Lemma resolve_free selected result : preserves R (resolve_creation selected result).
Proof. unfold resolve_creation. stepping. Qed.
#[local] Hint Resolve network_free instances_free carry_free resolve_free : service.

Lemma carried_free action slot args dl selected : free action ->
  preserves R (carried_call call_helper action slot args dl selected).
Proof. intros H. unfold carried_call. stepping. Qed.

Lemma observe_free slot args dl : preserves R (observe_slot call_helper slot args dl).
Proof. unfold observe_slot. stepping; by apply carried_free. Qed.
#[local] Hint Resolve observe_free : service.

Lemma prepare_free action slot args dl r : preserves R (prepare_slot call_helper action slot args dl r).
Proof. unfold prepare_slot. stepping. Qed.
#[local] Hint Resolve prepare_free carried_free : service.

Lemma slot_free action slot args dl selected : free action ->
  preserves R (call_slot call_helper action slot args dl selected).
Proof. intros H. unfold call_slot. stepping; by apply carried_free. Qed.

Lemma each_free args dl slots : free "app.worker.delete" -> preserves R (call_each call_helper args dl slots).
Proof.
  intros H. induction slots as [|slot slots IH]; simpl; unfold call_single; stepping. by apply slot_free.
Qed.

Lemma worker_free action args dl : free action -> free "app.worker.delete" ->
  preserves R (worker_helper call_helper action args dl).
Proof.
  intros H Hd. pose proof (fun args slots => each_free args dl slots Hd). unfold worker_helper. stepping; by apply slot_free.
Qed.
End Free.

Section Revoking.
Context (w0 : World).
Abbreviation protocol := (obeys (revoking w0)).

Lemma revoking_free a args t : a <> "app.worker.delete"%string -> preserves protocol (call_helper a args t).
Proof. intros H. apply obeys_helper. by intros ? ?. Qed.

Definition deletion_network := network_free protocol (fun A m => obeys_db _ m) _ revoking_free ltac:(discriminate) ltac:(discriminate).
Definition deletion_instances := instances_free protocol (fun A m => obeys_db _ m).
Definition deletion_carry := carry_free protocol (fun A m => obeys_db _ m).
Definition deletion_resolve := resolve_free protocol (fun A m => obeys_db _ m).
Definition deletion_prepare := prepare_free protocol (fun A m => obeys_db _ m) _ revoking_free ltac:(discriminate) ltac:(discriminate).
Definition deletion_else := carried_free protocol (fun A m => obeys_db _ m) _ revoking_free ltac:(discriminate) ltac:(discriminate).

Lemma carried_delete slot args dl selected w : follows w0 w -> refs_get "applicationId" args = JStr slot ->
  protocol w (carried_call call_helper "app.worker.delete" slot args dl selected w).2.
Proof.
  intros F Hs. unfold carried_call. simpl one_of_words. cbv iota.
  apply obeys_then; [apply deletion_instances|]. intros o w1 H1. pose proof (deletion_instances slot w) as O1. rewrite H1 in O1.
  apply obeys_then; [apply deletion_network|]. intros [] w2 H2.
  pose proof (deletion_network "app.worker.delete" slot args dl o None w1) as O2. rewrite H2 in O2.
  apply obeys_follows in O1, O2. simpl in O1, O2.
  apply obeys_then; [|intros d w3 _; next K1; apply obeys_then; [apply deletion_resolve|reflexivity]].
  apply obeys_ask. intros _. exists slot. split; [exact Hs|]. exists w, o.
  split_and!; [done|by etransitivity|unfold instances_seen; by rewrite H1|].
  destruct o as [[owner [|i ids]]|]; [done| |done].
  eapply reconcile_revokes; [done| |exact H2]. eapply (instances_owner slot w). unfold instances_seen. by rewrite H1.
Qed.

Lemma carried_any action slot args dl selected w : follows w0 w -> refs_get "applicationId" args = JStr slot ->
  protocol w (carried_call call_helper action slot args dl selected w).2.
Proof.
  intros F Hs. destruct (String.eqb_spec action "app.worker.delete") as [->|H]; [by apply carried_delete|by apply deletion_else].
Qed.

Lemma carried_other r args w c w1 k : carry r args w = (Ok c, w1) -> k <> "retainedPort"%string ->
  refs_get k c = refs_get k args.
Proof.
  unfold carry. intros E Hk. apply bind_ok in E as (? & ? & _ & E). apply bind_ok in E as (? & ? & _ & E).
  apply bind_ok in E as (? & ? & _ & E). injection E as <- _. unfold refs_get. by rewrite dict_get_set_ne.
Qed.

Lemma carried_args r args w carried w' : carry r args w = (Ok carried, w') ->
  refs_get "applicationId" carried = refs_get "applicationId" args.
Proof. intros H. by eapply carried_other. Qed.

Lemma call_slot_obeys action slot args dl selected w : follows w0 w -> refs_get "applicationId" args = JStr slot ->
  protocol w (call_slot call_helper action slot args dl selected w).2.
Proof.
  intros F Hs. unfold call_slot. destruct selected as [r|]; [|by apply carried_any].
  apply obeys_then; [apply deletion_carry|]. intros carried w1 H1. pose proof (deletion_carry r args w) as O1. rewrite H1 in O1.
  apply carried_args in H1. apply obeys_then; [apply deletion_prepare|]. intros p w2 H2.
  pose proof (deletion_prepare action slot carried dl r w1) as O2. rewrite H2 in O2. apply obeys_follows in O1, O2.
  apply carried_any; [|congruence]. etransitivity; [exact F|]. by etransitivity.
Qed.

Lemma single_obeys slot args dl w : follows w0 w -> refs_get "applicationId" args = JStr slot ->
  protocol w (call_single call_helper slot args dl w).2.
Proof.
  intros F Hs. unfold call_single. apply obeys_then; [apply obeys_db|]. intros rows w1 H1.
  apply call_slot_obeys; [|done]. etransitivity; [exact F|]. by eapply ran_db.
Qed.

Lemma each_obeys args dl : forall slots w, follows w0 w -> protocol w (call_each call_helper args dl slots w).2.
Proof.
  induction slots as [|slot slots IH]; intros w F; simpl; [reflexivity|].
  set (single := dict_set "single" _ _).
  assert (E : refs_get "applicationId" single = JStr slot).
  { unfold single, refs_get. rewrite dict_get_set_ne by done. by rewrite dict_get_set_eq. }
  apply obeys_then; [by apply single_obeys|]. intros d w1 H1. pose proof (single_obeys slot single dl w F E) as O1.
  rewrite H1 in O1. apply obeys_follows in O1. apply obeys_then; [|reflexivity]. apply IH. by etransitivity.
Qed.
End Revoking.

Lemma text_item_get key args s : text_item key args = Ok s -> refs_get key args = JStr s.
Proof. unfold text_item, refs_get. destruct (dict_get key args) as [[]|]; try done. by intros [= ->]. Qed.


(** The hosted application with a database of its own *)
Definition stored_db : Db := Eval vm_compute in store ((put_managed_resource demo_database None (opened hosted_db)).2).

Definition worker_answer (l : list Request) : result dict :=
  match l with
  | Helper "app.worker.observe" args _ :: _ =>
      Ok (if has_text "applicationId" args demo_id then [("address", JStr "10.0.0.9")] else [("absent", JBool true)])
  | Helper "storage.instances.network" _ _ :: _ => Ok [("applied", JBool true)]
  | Helper _ _ _ :: _ => Ok [("absent", JBool true)]
  | _ => Raise (HelperError "unknown")
  end.

Definition worker_world (d : Db) : World := {|
  w_db := Conn d false (fun n => 1767225600000000 + Z.of_nat n) (fun _ => demo_other) 0;
  w_others := fun _ d => d; w_steps := 0; w_monotonic := fun n => Z.of_nat n; w_readings := 0;
  w_helper := worker_answer; w_command := port_cloud; w_http := fun _ => Raise OSError;
  w_lock := fun _ => true; w_requests := [] |}.

Definition delete_args : dict := [("applicationId", JStr demo_id); ("slug", JStr "demo-app"); ("single", JBool true)].
Definition delete_run := worker_helper call_helper "app.worker.delete" delete_args (900 * second)
  (worker_world stored_db).


(** ** Creating a worker on a retained port *)

(** An observation of the slot's worker, asked since [w0], showed a server on the
    reservation's port. *)
Definition confirmed_worker (r : PortRecord) (slot : string) (w0 w : World) : Prop :=
  exists later args t earlier answer server port,
    w_requests w = later ++ Helper "app.worker.observe" args t :: earlier ++ w_requests w0
    /\ w_helper w (Helper "app.worker.observe" args t :: earlier ++ w_requests w0) = Ok answer
    /\ refs_get "applicationId" args = JStr slot /\ uuid (refs_get "serverId" answer) = Ok server
    /\ po_port_id r = Some port /\ refs_get "portId" answer = JStr port.

(** The creation is on record in the reservation the call carries, it is the
    first of this call, and an earlier one was not open, or has been confirmed. *)
Definition creation_recorded (w0 w : World) (args : dict) : Prop :=
  exists row r slot identity,
    In row (slot_ports slot w0) /\ r = fp_record row /\ po_worker_slot_id r = Some slot
    /\ refs_get "applicationId" args = JStr slot
    /\ helper_identity r = Ok identity /\ dict_get "retainedPort" args = Some (JObj identity)
    /\ port_at (po_application_id r) (store (w_db w)) = Some (with_worker (Some slot) true r)
    /\ (po_worker_create_pending r = false \/ confirmed_worker r slot w0 w)
    /\ asks (fun r => action_of r <> "app.worker.create"%string) w0 w.

Definition creating (w0 w : World) (r : Request) : Prop :=
  match r with
  | Helper action args _ =>
      action = "app.worker.create" -> dict_get "retainedPort" args <> None -> creation_recorded w0 w args
  | _ => False
  end.


(** *** What the steps before a creation establish *)

Lemma steady_keeps slot {A} (m : Svc A) w r w' : preserves (steady slot) m -> m w = (r, w') -> steady slot w w'.
Proof. intros Hm H. exact (kept _ _ _ _ _ Hm H). Qed.

Definition steady_network action slot args dl instances result :
  preserves (steady slot) (reconcile_network call_helper action slot args dl instances result) :=
  network_kept (steady slot) (fun A m => steady_db slot m) (fun args t => steady_helper slot "app.worker.observe" args t ltac:(discriminate))
    (fun args t => steady_helper slot "storage.instances.network" args t ltac:(discriminate)) action slot args dl instances result.
Definition steady_instances slot : preserves (steady slot) (instances_of slot) := instances_kept (steady slot) (fun A m => steady_db slot m) slot.
Definition steady_carry slot r args : preserves (steady slot) (carry r args) := carry_kept (steady slot) (fun A m => steady_db slot m) r args.

Lemma bears_other action slot args r : action <> "app.worker.delete"%string -> bears action slot args r = at_slot slot r.
Proof. intros H. unfold bears. by apply String.eqb_neq in H as ->. Qed.

(** The rows of the slot that a call finds *)
Lemma selected_rows action slot args w rows w' : undisturbed slot w -> action <> "app.worker.delete"%string ->
  db (Sql.select (bears action slot args)) w = (Ok rows, w') -> rows = slot_ports slot w /\ steady slot w w'.
Proof.
  intros U Ha H. assert (S : steady slot w w') by exact (steady_keeps _ _ _ _ _ (steady_db slot _ (evolves_select same_ports _)) H).
  split; [|exact S]. apply db_step in H. unfold Sql.select, gets in H. injection H as <- _.
  rewrite (filter_ext _ (at_slot slot)) by (intros x; by rewrite bears_other). apply (U (w_steps w) (store (w_db w))).
Qed.

Lemma slot_rows slot w w' : undisturbed slot w -> steady slot w w' -> slot_ports slot w' = slot_ports slot w.
Proof. intros U S. by apply (steady_rows _ _ _ S U). Qed.

Lemma port_stays slot application_id r w w' : undisturbed slot w -> steady slot w w' -> po_worker_slot_id r = Some slot ->
  port_at application_id (store (w_db w)) = Some r -> port_at application_id (store (w_db w')) = Some r.
Proof. intros U S Hs H. by apply (steady_rows _ _ _ S U). Qed.

Lemma confirmed_earlier r slot w0 w w' : follows w0 w -> confirmed_worker r slot w w' -> confirmed_worker r slot w0 w'.
Proof.
  intros F (later & args & t & earlier & answer & server & port & H1 & H2 & H3 & H4 & H5 & H6). destruct (follows_requests _ _ F) as [l Hl].
  rewrite Hl in H1, H2. exists later, args, t, (earlier ++ l), answer, server, port. rewrite <- app_assoc. by split_and!.
Qed.

Lemma confirmed_later r slot w0 w w' : follows w w' -> confirmed_worker r slot w0 w -> confirmed_worker r slot w0 w'.
Proof.
  intros F (later & args & t & earlier & answer & server & port & H1 & H2 & H3 & H4 & H5 & H6). destruct (follows_requests _ _ F) as [l Hl].
  exists (l ++ later), args, t, earlier, answer, server, port. rewrite Hl, H1, app_assoc, (follows_helper _ _ F). by split_and!.
Qed.

Lemma recorded_later slot w0 w w' args : undisturbed slot w -> refs_get "applicationId" args = JStr slot -> steady slot w w' ->
  creation_recorded w0 w args -> creation_recorded w0 w' args.
Proof.
  intros U Hs S (row & r & slot1 & identity & H1 & H2 & H3 & H4 & H5 & H6 & H7 & H8 & H9).
  assert (slot1 = slot) as -> by congruence. destruct (S) as [F E A].
  exists row, r, slot, identity. split_and!; try done; [by eapply port_stays| |by etransitivity].
  destruct H8; [by left|right]. by eapply confirmed_later.
Qed.

(** The identity a call carries *)
Lemma carried_identity slot r args w carried w' : carry r args w = (Ok carried, w') ->
  steady slot w w' /\ exists identity, helper_identity r = Ok identity /\ carried = dict_set "retainedPort" (JObj identity) args.
Proof.
  intros H. split; [by eapply steady_keeps; [apply steady_carry|]|]. unfold carry in H.
  apply bind_ok in H as (? & ? & _ & H). apply bind_ok in H as (? & ? & _ & H).
  apply bind_ok in H as (i & ? & [Hi ->]%lift_ok & H). injection H as <- _. by exists i.
Qed.

Lemma port_get_still application_id : evolves eq (RetainedPort.get application_id).
Proof. unfold RetainedPort.get. by evolve. Qed.

Lemma port_got application_id w o w' : db (RetainedPort.get application_id) w = (Ok o, w') ->
  port_at application_id (store (w_db w')) = o.
Proof.
  intros H%db_step. unfold RetainedPort.get in H. apply bind_ok in H as (x & c & H1 & H).
  injection H1 as <- <-. by injection H as <- <-.
Qed.

(** An observation that returns, with a creation open, has confirmed it. *)
Lemma observation_confirms slot args dl r w d w' : po_worker_create_pending r = true ->
  refs_get "applicationId" args = JStr slot ->
  carried_call call_helper "app.worker.observe" slot args dl (Some r) w = (Ok d, w') ->
  follows w w' /\ asks (fun r => action_of r <> "app.worker.create"%string) w w'
  /\ port_at (po_application_id r) (store (w_db w')) = Some (with_worker (po_worker_slot_id r) false r)
  /\ (po_port_id r <> None -> confirmed_worker r slot w w').
Proof.
  intros Hp Hs H. unfold carried_call in H. simpl one_of_words in H. cbv iota in H.
  apply bind_ok in H as (o & w1 & [F1 _ A1]%(steady_keeps _ _ _ _ _ (steady_instances slot)) & H).
  apply bind_ok in H as (? & ? & [= _ <-] & H). apply bind_ok in H as (answer & w2 & [-> Ha]%helper_step & H).
  set (w2 := asked _ w1) in *.
  apply bind_ok in H as (? & w3 & [F3 _ A3]%(steady_keeps _ _ _ _ _ (steady_network _ _ _ _ _ _)) & H).
  apply bind_ok in H as (? & w4 & H4 & [= _ <-]). unfold resolve_creation in H4. rewrite Hp in H4.
  apply bind_ok in H4 as (? & ? & [[_ Ho]%andb_true_iff ->]%require_true & H4).
  apply bind_ok in H4 as (server & ? & [Hv ->]%lift_ok & H4). pose proof (ran_db _ _ _ _ H4) as F4.
  pose proof (kept _ _ _ _ _ (asks_db (fun r => action_of r <> "app.worker.create"%string) _) H4) as A4.
  apply (port_saved (po_application_id r)) in H4; [|reflexivity].
  assert (F2 : follows w2 w4) by (by etransitivity).
  split_and!; [etransitivity; [exact F1|]; etransitivity; [apply follows_asked|exact F2]| |exact H4|].
  - etransitivity; [exact A1|]. etransitivity; [by apply (asks_asked _ (Helper "app.worker.observe" args dl))|].
    by etransitivity.
  - intros Hn. destruct (follows_requests _ _ F1) as [e He], (follows_requests _ _ F2) as [l Hl].
    destruct (po_port_id r) as [port|] eqn:Ep; [|done].
    exists l, args, dl, e, answer, server, port. change (w_requests w2) with (Helper "app.worker.observe" args dl :: w_requests w1) in Hl, Ha. rewrite He in Hl, Ha.
    rewrite (follows_helper _ _ F2). split_and!; try done. unfold same_text in Ho.
    destruct (refs_get "portId" answer); try done. by apply String.eqb_eq in Ho as ->.
Qed.

Lemma slot_first slot l row rest : List.filter (at_slot slot) l = row :: rest -> po_worker_slot_id (fp_record row) = Some slot.
Proof.
  intros H. assert (K : In row (List.filter (at_slot slot) l)) by (rewrite H; by left).
  apply filter_In in K as [_ Hb]. by apply bool_decide_eq_true in Hb.
Qed.

(** An open creation is resolved by observing the same reservation. *)
Lemma observed_reservation slot slug dl r l w d w' : undisturbed slot w -> po_worker_create_pending r = true ->
  fp_record <$> slot_ports slot w = r :: l ->
  observe_slot call_helper slot [("applicationId", JStr slot); ("slug", slug)] dl w = (Ok d, w') ->
  follows w w' /\ asks (fun r => action_of r <> "app.worker.create"%string) w w'
  /\ port_at (po_application_id r) (store (w_db w')) = Some (with_worker (po_worker_slot_id r) false r)
  /\ confirmed_worker r slot w w'.
Proof.
  intros U Hp Hr H. unfold observe_slot in H. set (oargs := [_; _]) in H.
  apply bind_ok in H as (rows & w1 & [Hs S1]%selected_rows & H); [|done..].
  rewrite <- Hs in Hr. destruct rows as [|row rows]; [done|]. injection Hr as Hr _.
  apply bind_ok in H as (carried & w2 & H2 & H). pose proof (carried_args _ _ _ _ _ H2) as Hc.
  apply (carried_identity slot) in H2 as [S2 (identity & Hi & _)]. rewrite Hr in *.
  apply observation_confirms in H as (F3 & A3 & Hat & Hok); [|done|by rewrite Hc].
  assert (F : follows w w2) by (etransitivity; [apply S1|apply S2]).
  split_and!; [by etransitivity|etransitivity; [apply S1|]; etransitivity; [apply S2|done]|done|].
  eapply confirmed_earlier; [exact F|]. apply Hok. unfold helper_identity in Hi. intros E0. rewrite E0 in Hi.
  by rewrite andb_comm in Hi.
Qed.

(** The reservation is saved with the creation open, once an earlier one is not. *)
Lemma prepared_creation slot args dl r l w p w' : undisturbed slot w -> po_worker_slot_id r = Some slot ->
  fp_record <$> slot_ports slot w = r :: l ->
  prepare_slot call_helper "app.worker.create" slot args dl r w = (Ok p, w') ->
  follows w w' /\ asks (fun r => action_of r <> "app.worker.create"%string) w w'
  /\ port_at (po_application_id r) (store (w_db w')) = Some (with_worker (Some slot) true r)
  /\ (po_worker_create_pending r = false \/ confirmed_worker r slot w w').
Proof.
  intros U Hslot Hr H. unfold prepare_slot in H. simpl one_of_words in H. cbv iota in H. simpl String.eqb in H. cbv iota in H.
  apply bind_ok in H as (f & w1 & H1 & H). apply bind_ok in H as (? & w2 & H2 & [= _ <-]).
  pose proof (ran_db _ _ _ _ H2) as F2.
  pose proof (kept _ _ _ _ _ (asks_db (fun r => action_of r <> "app.worker.create"%string) _) H2) as A2.
  assert (K : follows w w1 /\ asks (fun r => action_of r <> "app.worker.create"%string) w w1
    /\ with_worker (po_worker_slot_id f) true f = with_worker (Some slot) true r
    /\ (po_worker_create_pending r = false \/ confirmed_worker r slot w w1)).
  { destruct (po_worker_create_pending r) eqn:Hp.
    - apply bind_ok in H1 as (slug & ? & [_ ->]%lift_ok & H1). apply bind_ok in H1 as (d & w3 & H3 & H1).
      apply (observed_reservation slot slug dl r l) in H3 as (F3 & A3 & Hat & Hc); [|done..].
      apply bind_ok in H1 as (fresh & w4 & H4 & H1). pose proof (ran_db _ _ _ _ H4) as F4.
      pose proof (steady_keeps slot _ _ _ _ (steady_db slot _ (evolves_still _ _ (port_get_still _))) H4) as S4.
      pose proof (steady_asks _ _ _ S4) as A4. rewrite Hslot in Hat.
      apply (port_stays slot _ _ w3 w4) in Hat; [|by eapply undisturbed_follows|done|done].
      destruct fresh as [f1|]; [|done]. injection H1 as <- <-.
      apply port_got in H4. rewrite Hat in H4. injection H4 as <-.
      split_and!; [by etransitivity|by etransitivity|done|right]. by eapply confirmed_later.
    - injection H1 as <- <-. rewrite Hslot. split_and!; [done|reflexivity|done|by left]. }
  destruct K as (F1 & A1 & Ef & Hc). rewrite Ef in H2.
  apply (port_saved (po_application_id r)) in H2; [|reflexivity].
  split_and!; [by etransitivity|by etransitivity|exact H2|]. destruct Hc; [by left|right]. by eapply confirmed_later.
Qed.

Section Creating.
Context (w0 : World) (slot : string) (Hquiet : undisturbed slot w0).
Abbreviation protocol := (obeys (creating w0)).

Lemma creating_free a args t : a <> "app.worker.create"%string -> preserves protocol (call_helper a args t).
Proof. intros H. apply obeys_helper. by intros ? ?. Qed.

Definition creation_network := network_free protocol (fun A m => obeys_db _ m) _ creating_free ltac:(discriminate) ltac:(discriminate).
Definition creation_instances := instances_free protocol (fun A m => obeys_db _ m).
Definition creation_carry := carry_free protocol (fun A m => obeys_db _ m).
Definition creation_resolve := resolve_free protocol (fun A m => obeys_db _ m).
Definition creation_prepare := prepare_free protocol (fun A m => obeys_db _ m) _ creating_free ltac:(discriminate) ltac:(discriminate).

(** The call for a creation that is recorded where it starts *)
Lemma carried_creation args dl selected w : undisturbed slot w -> refs_get "applicationId" args = JStr slot ->
  (dict_get "retainedPort" args <> None -> creation_recorded w0 w args) ->
  protocol w (carried_call call_helper "app.worker.create" slot args dl selected w).2.
Proof.
  intros U Hs Hc. unfold carried_call. simpl one_of_words. cbv iota.
  apply obeys_then; [apply creation_instances|]. intros o w1 S1%(steady_keeps _ _ _ _ _ (steady_instances slot)).
  apply obeys_then; [apply creation_network|]. intros [] w2 S2%(steady_keeps _ _ _ _ _ (steady_network _ _ _ _ _ _)).
  apply obeys_then.
  - apply obeys_ask. intros _ Hr. eapply (recorded_later slot w0 w); [done|done|by etransitivity|by apply Hc].
  - intros d w3 _. apply obeys_then; [apply creation_network|]. intros ? w4 _.
    apply obeys_then; [apply creation_resolve|reflexivity].
Qed.

Lemma created_obeys args dl w : undisturbed slot w -> steady slot w0 w ->
  refs_get "applicationId" args = JStr slot -> dict_get "retainedPort" args = None ->
  protocol w (call_slot call_helper "app.worker.create" slot args dl (fp_record <$> head (slot_ports slot w)) w).2.
Proof.
  intros U S Hs Hn. unfold call_slot.
  destruct (slot_ports slot w) as [|row rest] eqn:Ef; [by apply carried_creation|]. cbn [head fmap option_fmap option_map].
  set (r := fp_record row). pose proof (slot_first _ _ _ _ Ef) as Hslot.
  apply obeys_then; [apply creation_carry|]. intros carried w1 H1. pose proof (carried_args _ _ _ _ _ H1) as Hc.
  apply (carried_identity slot) in H1 as [S1 (identity & Hi & ->)].
  apply obeys_then; [apply creation_prepare|]. intros p w2 H2.
  assert (U1 : undisturbed slot w1) by (eapply undisturbed_follows; [apply S1|done]).
  apply (prepared_creation slot _ dl r (map fp_record rest)) in H2 as (F2 & A2 & Hat & Hok); [|done|done|].
  - apply carried_creation; [by eapply undisturbed_follows|congruence|]. intros _. exists row, r, slot, identity.
    split_and!; try done.
    + rewrite <- (slot_rows slot w0 w) by done. rewrite Ef. by left.
    + congruence.
    + by rewrite dict_get_set_eq.
    + destruct Hok; [by left|right]. eapply confirmed_earlier; [|done]. etransitivity; [apply S|apply S1].
    + etransitivity; [apply S|]. etransitivity; [apply S1|done].
  - by rewrite (slot_rows slot w w1), Ef.
Qed.
End Creating.


(** The hosted application with a reserved port bound to its slot *)
Definition bound_db : Db := Eval vm_compute in store (RetainedPort._save {|
  po_application_id := demo_id; po_request_id := demo_other; po_project_id := pc_project_id demo_platform;
  po_network_id := worker_net_id; po_subnet_id := subnet_id; po_address := "10.0.0.9"; po_security_group_id := group_id;
  po_port_id := Some port_id; po_name := port_name demo_platform demo_id;
  po_description := FixedIp.marker demo_platform demo_id demo_other; po_phase := po_reserved;
  po_worker_slot_id := Some demo_id; po_worker_create_pending := true |} (opened hosted_db)).2.

Definition creating_answer (l : list Request) : result dict :=
  match l with
  | Helper "app.worker.observe" _ _ :: _ | Helper "app.worker.create" _ _ :: _ =>
      Ok [("serverId", JStr server_id); ("portId", JStr port_id)]
  | _ => Raise (HelperError "unknown")
  end.

Definition creating_world : World := {|
  w_db := Conn bound_db false (fun n => 1767225600000000 + Z.of_nat n) (fun _ => demo_other) 0;
  w_others := fun _ d => d; w_steps := 0; w_monotonic := fun n => Z.of_nat n; w_readings := 0;
  w_helper := creating_answer; w_command := port_cloud; w_http := fun _ => Raise OSError;
  w_lock := fun _ => true; w_requests := [] |}.

Definition create_args : dict := [("applicationId", JStr demo_id); ("slug", JStr "demo-app")].
Definition create_run := worker_helper call_helper "app.worker.create" create_args (900 * second) creating_world.

