(* ===== verification/Finishing.v ===== *)
(** * Finishing an accepted deployment
    (src/openstack_platform/controller/deployment_service.py)

    What remains once a deployment is accepted: its health is observed again, a
    reserved address is handed over, the exact predecessor is removed, and old
    images are given up.  Resuming continues where the recorded phase says. *)

From S2P Require Import Prelude Regex Json JsonParse Clock Validation Runtime Sql Schema StorageCapacity Operations.
From S2P Require Import StorageContract DeploymentConfig Applications NomadJobs Service Rollout StorageLimits OpenStack.
From S2P Require Import FloatingIp PublicIp.

(** [config.policy]: what the services use of it *)
Record Policy := {
  py_worker_flavor : string;          (* standard *)
  py_cpu_mhz : Z;
  py_memory_mib : Z;
  py_postgres_connections : Z;
  py_postgres_measured_bytes : Z;
  py_mongo_measured_bytes : Z;
  py_s3_bytes : Z;
  py_s3_objects : Z;
  py_http_seconds : Z;                (* limits *)
  py_process_seconds : Z;
  py_helper_seconds : Z;
  py_poll_interval_seconds : Z;
}.

Definition _remaining (deadline maximum : Z) : Svc Z :=
  now ← monotonic;
  let remaining := deadline - now in
  if remaining <=? 0 then raise DeploymentDeadlineError else mret (Z.min maximum remaining).

Definition text_of (o : option string) : json := opt_json JStr o.

(** [answer.get("key") is True], or else the error *)
Definition confirmed (key : string) (answer : dict) (otherwise : error) : Svc unit :=
  require (is_true (refs_get key answer)) otherwise.

(** A phase of an operation, with its references *)
Definition checkpoint (operation_id phase : string) (refs : option dict) : Svc Operation :=
  db (checkpoint_operation operation_id phase refs false None None None).

Section Finishing.
Context (platform : PlatformConfig) (policy : Policy) (helper_caller : Caller).

Definition _cleanup_deployment (application_slug job_id worker_application_id : string) (identity : string * string)
    (deadline : Z) (job_absent : Svc unit) : Svc unit :=
  cleaned ← helper_caller "app.remove" [
    ("slug", JStr application_slug); ("jobId", JStr job_id); ("candidateJobSha256", JStr identity.1);
    ("candidateImage", JStr identity.2)] deadline;
  _ ← confirmed "jobAbsent" cleaned (ApplicationError "exact predecessor job absence was not confirmed");
  _ ← job_absent;
  worker ← helper_caller "app.worker.delete" [
    ("applicationId", JStr worker_application_id); ("slug", JStr application_slug); ("single", JBool true)] deadline;
  confirmed "absent" worker (ApplicationError "deployment job or worker cleanup was not confirmed").

(** [list.remove] *)
Fixpoint remove_first (s : string) (l : list string) : list string :=
  match l with [] => [] | t :: l' => if String.eqb s t then l' else t :: remove_first s l' end.

(** The accepted images newest first, then the other candidates *)
Definition retention_history (successful all_images : list string) (current_image : string) : list string :=
  let successful := current_image :: remove_first current_image successful in
  successful ++ List.filter (fun image => negb (one_of_words successful image)) all_images.

Definition is_false (v : json) : bool := match v with JBool false => true | _ => false end.

Definition is_array (v : json) : bool := match v with JArr _ => true | _ => false end.

Definition _apply_registry_retention (application_id application_slug current_image : string) (deadline : Z) : Svc unit :=
  successful ← db (list_application_successful_manifest_history application_id);
  all_images ← db (list_application_manifest_images application_id);
  references ← db (list_active_application_manifest_references application_id);
  result ← helper_caller "app.manifest.retain" [
    ("slug", JStr application_slug);
    ("history", JArr (map JStr (retention_history successful all_images current_image)));
    ("references", JArr (map JStr references))] deadline;
  require (is_array (refs_get "deleted" result) && is_array (refs_get "protected" result))
    (ApplicationError "registry retention evidence was malformed").

(** The answer is about exactly the accepted job, healthy and alone. *)
Definition finishing_health (observation : dict) (version : Z) (accepted : DeploymentAttempt) : bool :=
  is_true (refs_get "healthy" observation)
  && is_false (refs_get "terminal" observation)
  && int_is (refs_get "version" observation) version && int_is (refs_get "currentVersion" observation) version
  && int_is (refs_get "allocations" observation) 1
  && same_text (refs_get "candidateJobSha256" observation) (at_nomad_job_sha256 accepted)
  && same_text (refs_get "candidateImage" observation) (at_image_digest accepted).

(** The accepted job and its public route are healthy. *)
Definition reobserve_accepted (application_slug : string) (accepted : DeploymentAttempt) (deadline : Z) : Svc unit :=
  match at_nomad_job accepted, at_nomad_version accepted, at_health_path accepted with
  | Some job, Some version, Some path =>
      job_id ← lift (nomad_job_id job application_slug);
      observation ← helper_caller "app.health" [
        ("slug", JStr application_slug); ("jobId", JStr job_id); ("version", JInt version);
        ("candidateJobSha256", text_of (at_nomad_job_sha256 accepted));
        ("candidateImage", text_of (at_image_digest accepted))] deadline;
      _ ← require (finishing_health observation version accepted)
            (ApplicationError "exact accepted deployment health could not be reobserved for finishing");
      timeout ← _remaining deadline (py_http_seconds policy);
      marker ← lift (nomad_route_marker job);
      healthy ← check_public_health application_slug platform (JStr path) timeout false (JStr marker);
      require healthy (ApplicationError "accepted public route could not be reobserved for finishing")
  | _, _, _ => raise (ApplicationError "accepted finishing job evidence is incomplete")
  end.

(** The recorded predecessor, unless it is the accepted deployment itself *)
Definition remove_predecessor (operation : Operation) (application_slug : string) (accepted : DeploymentAttempt)
    (deadline : Z) : Svc unit :=
  let refs := op_refs operation in
  if json_eqb (refs_get "predecessor_job_id" refs) JNull || is_true (refs_get "reuse_worker" refs) then mret tt else
  predecessor_job ← lift (bounded_text 128 (refs_get "predecessor_job_id" refs));
  predecessor_worker ← lift (uuid (refs_get "predecessor_worker_application_id" refs));
  let job := default ""%string (at_nomad_job accepted) in
  accepted_job ← lift (nomad_job_id job application_slug);
  let own := ApplicationError "predecessor cleanup targets the accepted deployment" in
  _ ← require (negb (String.eqb predecessor_job accepted_job)) own;
  placement ← lift (nomad_placement_id job);
  _ ← require (negb (String.eqb predecessor_worker placement)) own;
  hash ← lift (sha256_hex (refs_get "predecessor_job_sha256" refs));
  image ← lift (oci_digest_pin (refs_get "predecessor_image" refs));
  _cleanup_deployment application_slug predecessor_job predecessor_worker (hash, image) deadline
    (_ ← db (checkpoint_operation (op_operation_id operation) "predecessor_cleanup"
               (Some [("predecessor_job_absent", JBool true)]) true None None None); mret tt).

(** The accepted deployment the operation names *)
Definition accepted_attempt (operation : Operation) (application_id : string) : Svc (Application * DeploymentAttempt) :=
  application ← db (get_application application_id);
  active ← db (get_active_deployment application_id);
  let expected := if String.eqb (op_kind operation) "app.deploy" then JStr (op_operation_id operation)
                  else refs_get "deployment_id" (op_refs operation) in
  let drifted := ApplicationError "accepted finishing deployment identity drifted" in
  match application, active with
  | Some a, Some d =>
      _ ← require (json_eqb expected (JStr (ac_deployment_id d))) drifted;
      accepted ← db (get_deployment_attempt (ac_deployment_id d));
      let missing := ApplicationError "accepted finishing snapshot is missing" in
      match accepted with
      | Some attempt =>
          let row := attempt_row attempt in
          _ ← require (bool_decide (at_st row = a_succeeded) && op_finishing operation) missing;
          _ ← require (negb (String.eqb (op_kind operation) "app.deploy")
                       || bool_decide (at_image_digest row = op_candidate_digest operation))
                (ApplicationError "accepted finishing image identity drifted");
          mret (a, row)
      | None => raise missing
      end
  | _, _ => raise drifted
  end.

Definition finish_accepted_operation (operation : Operation) (deadline : Z) : Svc unit :=
  application_id ← lift (uuid (refs_get "application_id" (op_refs operation)));
  found ← accepted_attempt operation application_id;
  let application := found.1 in
  let accepted := found.2 in
  let phase := op_phase operation in
  let cleaning := String.eqb phase "predecessor_cleanup" in
  _ ← (if (String.eqb phase "deployment_healthy" || cleaning) && app_desired_running application
       then reobserve_accepted (app_slug application) accepted deadline else mret tt : Svc unit);
  _ ← (if String.eqb phase "deployment_healthy" then
         _ ← reconcile_accepted platform application_id deadline;
         _ ← checkpoint (op_operation_id operation) "predecessor_cleanup" None; mret tt
       else if cleaning && app_desired_running application then reconcile_accepted platform application_id deadline
       else require (one_of_words ["predecessor_cleanup"; "accepted"] phase)
              (ApplicationError "accepted finishing phase is invalid") : Svc unit);
  if String.eqb (op_kind operation) "app.enable" then
    _ ← db (mark_succeeded (op_operation_id operation) "confirmed" None); mret tt
  else
    _ ← (if negb (String.eqb phase "accepted") then
           _ ← remove_predecessor operation (app_slug application) accepted deadline;
           _ ← checkpoint (op_operation_id operation) "accepted" None; mret tt
         else mret tt : Svc unit);
    image ← lift (match at_image_digest accepted with Some i => Ok i | None => Raise AssertionError end);
    _ ← _apply_registry_retention application_id (app_slug application) image deadline;
    _ ← db (mark_succeeded (op_operation_id operation) "confirmed" None);
    mret tt.
End Finishing.
