(* ===== verification/FinishingSpec.v ===== *)
(** * Properties of finishing an accepted deployment

    What is removed is exactly the recorded predecessor, and only once the
    accepted deployment was seen healthy again. *)

From S2P Require Import Prelude Regex Json JsonParse Clock Validation Runtime Sql Schema StorageCapacity Operations.
From S2P Require Import OperationsSpec AdmissionSpec StorageContract DeploymentConfig Applications ApplicationsSpec Resources ResourcesSpec.
From S2P Require Import Sizing NomadJobs Service Rollout RolloutSpec StorageLimits StorageLimitsSpec.
From S2P Require Import OpenStack OpenStackSpec IpAddress FloatingIp PublicIp PublicIpSpec FixedIp RetainedPort RetainedPortSpec.
From S2P Require Import Sha256 WorkerHelperSpec Finishing.

(** ** What the helper has answered *)

(** Since [w0] the helper was asked for the action and answered, as [ok] says of
    the arguments and the answer. *)
Definition answered (action : string) (ok : dict -> dict -> Prop) (w0 w : World) : Prop :=
  exists later args t earlier answer,
    w_requests w = later ++ Helper action args t :: earlier ++ w_requests w0
    /\ w_helper w (Helper action args t :: earlier ++ w_requests w0) = Ok answer /\ ok args answer.

Lemma answered_later action ok w0 w w' : follows w w' -> answered action ok w0 w -> answered action ok w0 w'.
Proof.
  intros F (later & args & t & earlier & answer & H1 & H2 & H3). destruct (follows_requests _ _ F) as [l Hl].
  exists (l ++ later), args, t, earlier, answer. rewrite Hl, H1, <- app_assoc. split_and!; [done| |done].
  by rewrite (follows_helper _ _ F).
Qed.

Lemma answered_call action ok args t w0 w d w' : follows w0 w -> call_helper action args t w = (Ok d, w') ->
  ok args d -> answered action ok w0 w'.
Proof.
  intros F [-> H]%helper_step Hok. destruct (follows_requests _ _ F) as [l Hl].
  exists [], args, t, l, d. simpl in *. rewrite <- Hl. by split_and!.
Qed.

Lemma answered_earlier action ok w0 w1 w : follows w0 w1 -> answered action ok w1 w -> answered action ok w0 w.
Proof.
  intros F (later & args & t & earlier & answer & H1 & H2 & H3). destruct (follows_requests _ _ F) as [l Hl].
  rewrite Hl in H1, H2. exists later, args, t, (earlier ++ l), answer. rewrite <- app_assoc. by split_and!.
Qed.

(** What does not go through the reservations *)
Lemma plain_call action args t w : one_of_words worker_actions action = false ->
  worker_helper call_helper action args t w = call_helper action args t w.
Proof. unfold worker_helper. by intros ->. Qed.

(** ** Protocols of a service *)

Lemma obeys_since allow w1 w2 : obeys (fun u r => follows w1 u -> allow u r) w1 w2 -> obeys allow w1 w2.
Proof.
  intros H. assert (G : forall u v, obeys (fun u r => follows w1 u -> allow u r) u v -> follows w1 u -> obeys allow u v).
  { induction 1 as [u v F E|u r Hr|u v x H1 IH1 H2 IH2]; intros Fu; [by apply obeys_silent|apply obeys_ask; by apply Hr|].
    etransitivity; [by apply IH1|]. apply IH2. etransitivity; [exact Fu|]. by eapply obeys_follows. }
  by apply G.
Qed.

Lemma obeys_weaken (allow allow' : World -> Request -> Prop) w w' : (forall u r, allow u r -> allow' u r) ->
  obeys allow w w' -> obeys allow' w w'.
Proof. intros Hw. induction 1 as [u v F E|u r Hr|u v x _ IH1 _ IH2]; [by apply obeys_silent|by apply obeys_ask, Hw|by etransitivity]. Qed.

(** A step whose continuation needs to know what the step did *)
Lemma then_kept {A B} (R : World -> World -> Prop) `{!PreOrder R} (m : Svc A) (f : A -> Svc B) w : R w (m w).2 ->
  (forall a w1, m w = (Ok a, w1) -> R w1 (f a w1).2) -> R w ((m ≫= f) w).2.
Proof.
  intros Hm Hf. unfold mbind, M_bind. destruct (m w) as [[a|e] w1]; [|done]. etransitivity; [exact Hm|]. by apply Hf.
Qed.

(** *** Deletions of workers

    Around the deletion of a slot's worker only the reservation is added to what
    is asked; a bounded cleanup asks so for each of the application's slots. *)
Section Deletion.
Context (R : World -> World -> Prop) `{!PreOrder R} (Hdb : forall A (m : DB A), preserves R (db m))
  (free : string -> Prop) (Hfree : forall a args t, free a -> preserves R (call_helper a args t))
  (Hobserve : free "app.worker.observe") (Hnetwork : free "storage.instances.network").

Definition deletes_like (args : dict) : Prop :=
  forall args' t, (forall k, k <> "retainedPort"%string -> refs_get k args' = refs_get k args) ->
    preserves R (call_helper "app.worker.delete" args' t).

Lemma slot_kept slot args dl selected : deletes_like args ->
  preserves R (call_slot call_helper "app.worker.delete" slot args dl selected).
Proof.
  intros Hdelete. pose proof (network_free R Hdb free Hfree Hobserve Hnetwork) as Hn.
  pose proof (instances_free R Hdb) as Hi. pose proof (resolve_free R Hdb) as Hr. pose proof (carry_free R Hdb) as Hc.
  pose proof (prepare_free R Hdb free Hfree Hobserve Hnetwork) as Hp.
  assert (Hcarried : forall args' selected, (forall k, k <> "retainedPort"%string -> refs_get k args' = refs_get k args) ->
    preserves R (carried_call call_helper "app.worker.delete" slot args' dl selected)).
  { intros args' selected' Hk. pose proof (fun t => Hdelete args' t Hk). unfold carried_call. preserving. }
  destruct selected as [r|]; [|by apply Hcarried]. intros w. simpl.
  apply (then_kept R); [apply Hc|]. intros c w1 E. apply (then_kept R); [apply Hp|]. intros p w2 _. apply Hcarried.
  intros k Hk. by eapply carried_other.
Qed.

Lemma each_kept args dl : forall slots,
  (forall s, In s slots -> deletes_like (dict_set "single" (JBool true) (dict_set "applicationId" (JStr s) args))) ->
  preserves R (call_each call_helper args dl slots).
Proof.
  induction slots as [|s slots IH]; intros Hs; simpl; [apply preserves_ret; apply _|]. unfold call_single.
  apply preserves_bind; [apply _| |intros d].
  - apply preserves_bind; [apply _|apply Hdb|intros rows]. apply slot_kept, Hs. by left.
  - apply preserves_bind; [apply _| |intros; apply preserves_ret; apply _]. apply IH. intros s' Hin. apply Hs. by right.
Qed.

Lemma deletion_kept args dl slot : refs_get "applicationId" args = JStr slot -> deletes_like args ->
  (is_single args = false -> forall slots s, slots_of slot = Ok slots -> In s slots ->
     deletes_like (dict_set "single" (JBool true) (dict_set "applicationId" (JStr s) args))) ->
  preserves R (worker_helper call_helper "app.worker.delete" args dl).
Proof.
  intros Hslot Hone Heach. pose proof (fun slot selected => slot_kept slot args dl selected Hone) as Hs.
  intros w. unfold worker_helper. simpl one_of_words. cbv iota.
  apply (then_kept R); [apply preserves_lift; apply _|]. intros s ? [E%text_item_get ->]%lift_ok.
  assert (s = slot) as -> by congruence. apply (then_kept R); [apply Hdb|]. intros [|r rest] w1 _; [apply Hs|].
  cbv zeta. simpl (String.eqb "app.worker.delete" _).
  destruct (String.eqb_spec slot (po_application_id (fp_record r))) as [Eo|]; [|apply Hs].
  destruct (is_single args) eqn:Es; [apply Hs|]. rewrite <- Eo. simpl.
  apply (then_kept R); [apply preserves_lift; apply _|]. intros slots ? [Hslots ->]%lift_ok.
  apply (then_kept R); [apply each_kept; intros s Hin; by eapply Heach|]. intros results w2 _.
  apply (then_kept R); [apply preserves_require; apply _|]. intros ? w3 _. destruct results; apply preserves_lift; apply _.
Qed.
End Deletion.

Lemma bounded_text_json n v s : bounded_text n v = Ok s -> v = JStr s.
Proof. destruct v as [| | |t| |]; try done. by intros ->%bounded_text_same. Qed.

Lemma oci_digest_json v s : oci_digest_pin v = Ok s -> v = JStr s.
Proof. unfold oci_digest_pin. destruct v; try done. destruct (_ <? _)%nat; [done|]. by intros [-> _]%matching_ok. Qed.

(** ** Only the predecessor is removed *)

Section Finishing.
Context (platform : PlatformConfig) (policy : Policy) (operation : Operation) (w0 : World).

Abbreviation refs := (op_refs operation).
Abbreviation caller := (worker_helper call_helper).

(** Since [w0] the operation's accepted deployment was read as [row] of [a]. *)
Definition accepted_seen (a : Application) (row : DeploymentAttempt) (w : World) : Prop :=
  exists id active attempt, uuid (refs_get "application_id" refs) = Ok id
    /\ once (fun u => (db (get_application id) u).1 = Ok (Some a)) w0 w
    /\ once (fun u => (db (get_active_deployment id) u).1 = Ok (Some active)) w0 w
    /\ once (fun u => (db (get_deployment_attempt (ac_deployment_id active)) u).1 = Ok (Some attempt)) w0 w
    /\ row = attempt_row attempt.

(** ... and the helper showed exactly its job healthy and alone, and its public
    route answered as its own. *)
Definition health_shown (row : DeploymentAttempt) (args answer : dict) : Prop :=
  exists version, at_nomad_version row = Some version /\ refs_get "version" args = JInt version
    /\ finishing_health answer version row = true.

Definition routed (a : Application) (row : DeploymentAttempt) (w : World) : Prop :=
  exists path marker t u u', at_health_path row = Some path
    /\ nomad_route_marker (default ""%string (at_nomad_job row)) = Ok marker
    /\ check_public_health (app_slug a) platform (JStr path) t false (JStr marker) u = (Ok true, u')
    /\ follows w0 u /\ follows u' w.

Definition healthy_again (a : Application) (row : DeploymentAttempt) (w : World) : Prop :=
  accepted_seen a row w
  /\ (app_desired_running a = true -> answered "app.health" (health_shown row) w0 w /\ routed a row w).

(** The job [args] name is the recorded predecessor. *)
Definition names_predecessor (args : dict) : Prop :=
  refs_get "jobId" args = refs_get "predecessor_job_id" refs
  /\ refs_get "candidateJobSha256" args = refs_get "predecessor_job_sha256" refs
  /\ refs_get "candidateImage" args = refs_get "predecessor_image" refs.

Definition predecessor_absent (args answer : dict) : Prop :=
  names_predecessor args /\ is_true (refs_get "jobAbsent" answer) = true.

Definition job_removable (w : World) (args : dict) : Prop :=
  exists a row own, healthy_again a row w /\ names_predecessor args
    /\ nomad_job_id (default ""%string (at_nomad_job row)) (app_slug a) = Ok own /\ refs_get "jobId" args <> JStr own.

Definition worker_removable (w : World) (args : dict) : Prop :=
  exists a row own, healthy_again a row w /\ refs_get "single" args = JBool true
    /\ refs_get "applicationId" args = refs_get "predecessor_worker_application_id" refs
    /\ nomad_placement_id (default ""%string (at_nomad_job row)) = Ok own /\ refs_get "applicationId" args <> JStr own
    /\ answered "app.remove" predecessor_absent w0 w.

(** The registry is told to keep the accepted image first, then images on record
    for the application, and every image that was read as still referenced. *)
Definition manifests_retainable (w : World) (args : dict) : Prop :=
  exists a row id image history references, accepted_seen a row w /\ uuid (refs_get "application_id" refs) = Ok id
    /\ at_image_digest row = Some image /\ refs_get "slug" args = JStr (app_slug a)
    /\ refs_get "history" args = JArr (map JStr (image :: history))
    /\ refs_get "references" args = JArr (map JStr references)
    /\ once (fun u => (db (list_active_application_manifest_references id) u).1 = Ok references) w0 w
    /\ forall x, In x history ->
         once (fun u => exists l, (db (list_application_successful_manifest_history id) u).1 = Ok l /\ In x l) w0 w
         \/ once (fun u => exists l, (db (list_application_manifest_images id) u).1 = Ok l /\ In x l) w0 w.

Definition finishing_allowed (w : World) (r : Request) : Prop :=
  match r with
  | Helper action args _ =>
      (action = "app.remove" -> job_removable w args) /\ (action = "app.worker.delete" -> worker_removable w args)
      /\ (action = "app.manifest.retain" -> manifests_retainable w args) /\ action <> "app.manifest.delete"%string
  | _ => True
  end.

Definition watched_actions : list string := ["app.remove"; "app.worker.delete"; "app.manifest.retain"; "app.manifest.delete"].

Abbreviation protocol := (obeys finishing_allowed).

Lemma unwatched a args t : one_of_words watched_actions a = false ->
  preserves protocol (call_helper a args t).
Proof.
  intros H. apply obeys_helper. intros w. split_and!; intros ->; discriminate H.
Qed.

Lemma unwatched_call a args t : one_of_words worker_actions a = false -> one_of_words watched_actions a = false ->
  preserves protocol (caller a args t).
Proof. intros Hw Ha w. rewrite plain_call by done. by apply unwatched. Qed.

Lemma seen_later a row w w' : follows w w' -> accepted_seen a row w -> accepted_seen a row w'.
Proof.
  intros F (id & active & attempt & H1 & H2 & H3 & H4 & H5). exists id, active, attempt.
  split_and!; [done|by eapply once_later|by eapply once_later|by eapply once_later|done].
Qed.

Lemma attempt_seen id a row w w' : follows w0 w -> uuid (refs_get "application_id" refs) = Ok id ->
  accepted_attempt operation id w = (Ok (a, row), w') -> accepted_seen a row w'.
Proof.
  intros F Hid H. unfold accepted_attempt in H. apply bind_ok in H as (x & w1 & H1 & H). pose proof (ran_db _ _ _ _ H1) as F1.
  apply bind_ok in H as (y & w2 & H2 & H). pose proof (ran_db _ _ _ _ H2) as F2. cbv zeta in H.
  destruct x as [x|]; [|done]. destruct y as [y|]; [|done]. apply bind_ok in H as (? & ? & [_ ->]%require_true & H).
  apply bind_ok in H as (z & w3 & H3 & H). pose proof (ran_db _ _ _ _ H3) as F3. destruct z as [z|]; [|done].
  do 2 apply bind_ok in H as (? & ? & [_ ->]%require_true & H). injection H as -> <- <-.
  exists id, y, z. pose proof (transitivity F F1) as F01. pose proof (transitivity F01 F2) as F02. pose proof (transitivity F2 F3) as F23.
  split_and!; [done|exists w|exists w1|exists w2|done]; (split_and!; [done|done || by etransitivity|]); [by rewrite H1|by rewrite H2|by rewrite H3].
Qed.

Lemma again_later a row w w' : follows w w' -> healthy_again a row w -> healthy_again a row w'.
Proof.
  intros F [Hs Hh]. split; [by eapply seen_later|]. intros Hr. destruct (Hh Hr) as [Ha (p & m & t & u & u' & H1 & H2 & H3 & H4 & H5)].
  split; [by eapply answered_later|]. exists p, m, t, u, u'. split_and!; try done. by etransitivity.
Qed.

Lemma http_obeys url t : preserves protocol (bounded_http url t).
Proof. intros w. by apply obeys_ask. Qed.
#[local] Hint Resolve http_obeys : service.

Lemma health_obeys s path t b m : preserves protocol (check_public_health s platform path t b m).
Proof. unfold check_public_health. preserving. Qed.
#[local] Hint Resolve health_obeys : service.

Lemma attempt_obeys id : preserves protocol (accepted_attempt operation id).
Proof. unfold accepted_attempt. preserving. Qed.

Lemma reobserve_accepted_obeys s row dl : preserves protocol (reobserve_accepted platform policy caller s row dl).
Proof.
  unfold reobserve_accepted, _remaining.
  repeat first [progress preserving | apply unwatched_call; reflexivity].
Qed.

Lemma first_removed s x l : In x (remove_first s l) -> In x l.
Proof.
  induction l as [|t l IH]; simpl; [done|]. destruct (String.eqb s t); [by right|]. intros [->|H]; [by left|right; by apply IH].
Qed.

Lemma retention_obeys id a row image dl w : follows w0 w -> accepted_seen a row w -> uuid (refs_get "application_id" refs) = Ok id ->
  at_image_digest row = Some image -> protocol w (_apply_registry_retention caller id (app_slug a) image dl w).2.
Proof.
  intros F Hs Hid Hi. unfold _apply_registry_retention.
  apply obeys_then; [apply obeys_db|]. intros successful w1 H1. pose proof (ran_db _ _ _ _ H1) as F1.
  apply obeys_then; [apply obeys_db|]. intros all_images w2 H2. pose proof (ran_db _ _ _ _ H2) as F2.
  apply obeys_then; [apply obeys_db|]. intros references w3 H3. pose proof (ran_db _ _ _ _ H3) as F3.
  pose proof (transitivity F F1) as F01. pose proof (transitivity F01 F2) as F02. pose proof (transitivity F1 (transitivity F2 F3)) as F13.
  apply obeys_then; [|intros; reflexivity]. rewrite plain_call by reflexivity. apply obeys_ask. split_and!; try discriminate. intros _.
  exists a, row, id, image, (remove_first image successful
    ++ List.filter (fun x => negb (one_of_words (image :: remove_first image successful) x)) all_images), references.
  split_and!; try done; [by eapply seen_later|exists w2; split_and!; [done|done|by rewrite H3]|].
  intros x [Hx%first_removed|[Hx _]%filter_In]%in_app_or; [left|right].
  - exists w. split_and!; [done|done|]. exists successful. by rewrite H1.
  - exists w1. split_and!; [done|by etransitivity|]. exists all_images. by rewrite H2.
Qed.

Lemma reconcile_finishing i dl : preserves protocol (reconcile_accepted platform i dl).
Proof.
  intros w. eapply obeys_weaken; [|apply (reconcile_obeys platform i w)]. intros u [] H; simpl in *; done.
Qed.

(** What reobserving has seen *)
Lemma reobserved_accepted a row dl w w' : follows w0 w -> reobserve_accepted platform policy caller (app_slug a) row dl w = (Ok tt, w') ->
  answered "app.health" (health_shown row) w0 w' /\ routed a row w'.
Proof.
  intros F H. unfold reobserve_accepted in H. destruct (at_nomad_job row) as [job|] eqn:Ej; [|done].
  destruct (at_nomad_version row) as [version|] eqn:Ev; [|done]. destruct (at_health_path row) as [path|] eqn:Ep; [|done].
  apply bind_ok in H as (job_id & ? & [_ ->]%lift_ok & H). apply bind_ok in H as (d & w1 & H1 & H).
  rewrite plain_call in H1 by reflexivity. pose proof (kept _ _ _ _ _ (follows_helper_call _ _ _) H1) as F1.
  apply bind_ok in H as (? & ? & [Hd ->]%require_true & H). apply bind_ok in H as (t & w2 & H2 & H).
  assert (F2 : follows w1 w2).
  { unfold _remaining in H2. apply bind_ok in H2 as (n & w3 & H3 & H2). pose proof (kept _ _ _ _ _ follows_monotonic_read H3) as F3.
    cbv zeta in H2. destruct (_ <=? _); [done|]. by injection H2 as _ <-. }
  apply bind_ok in H as (marker & ? & [Hm ->]%lift_ok & H). apply bind_ok in H as (b & w3 & H3 & H).
  apply require_true in H as [-> ->].
  pose proof (kept _ _ _ _ _ (check_public_health_gets _ _ _ _ _ _) H3) as [[F3 _] _].
  assert (F02 : follows w0 w2) by (do 2 (etransitivity; [eassumption|]); done). split.
  - eapply answered_later; [|eapply answered_call; [exact F|exact H1|]].
    + etransitivity; [exact F2|exact F3].
    + by exists version.
  - exists path, marker, t, w2, w3. rewrite Ej. by split_and!.
Qed.

(** The removal of a recorded predecessor that is not the accepted deployment *)
Lemma predecessor_obeys a row dl w : follows w0 w -> healthy_again a row w ->
  protocol w (remove_predecessor caller operation (app_slug a) row dl w).2.
Proof.
  intros F Hh. unfold remove_predecessor. cbv zeta. destruct (_ || _); [reflexivity|].
  apply obeys_then; [reflexivity|]. intros job ? [Hj%bounded_text_json ->]%lift_ok.
  apply obeys_then; [reflexivity|]. intros worker ? [Hw%uuid_json ->]%lift_ok.
  apply obeys_then; [reflexivity|]. intros own ? [Ho ->]%lift_ok.
  apply obeys_then; [reflexivity|]. intros ? ? [Hn ->]%require_true.
  apply obeys_then; [reflexivity|]. intros place ? [Hp ->]%lift_ok.
  apply obeys_then; [reflexivity|]. intros ? ? [Hq ->]%require_true.
  apply obeys_then; [reflexivity|]. intros hash ? [Hhash ->]%lift_ok. apply sha256_hex_ok in Hhash as [Hhash _].
  apply obeys_then; [reflexivity|]. intros image ? [Himage%oci_digest_json ->]%lift_ok.
  apply negb_true_iff, String.eqb_neq in Hn, Hq. unfold _cleanup_deployment. cbn [fst snd].
  set (args := [("slug", _); ("jobId", _); _; _]).
  assert (Hargs : names_predecessor args) by (unfold names_predecessor; rewrite Hj, Hhash, Himage; done).
  apply obeys_then.
  { rewrite plain_call by reflexivity. apply obeys_ask. split_and!; try discriminate. intros _. exists a, row, own.
    split_and!; [done|done|done|]. by injection 1. }
  intros d w1 H1. rewrite plain_call in H1 by reflexivity. pose proof (kept _ _ _ _ _ (follows_helper_call _ _ _) H1) as F1.
  apply obeys_then; [reflexivity|]. intros ? ? [Hd ->]%require_true.
  assert (Hb : answered "app.remove" predecessor_absent w0 w1) by (by eapply answered_call).
  apply obeys_then; [apply obeys_then; [apply obeys_db|reflexivity]|]. intros [] w2 H2.
  assert (F2 : follows w1 w2) by (apply bind_ok in H2 as (? & w3 & H2%ran_db & H3); by injection H3 as <-).
  apply obeys_then; [|intros; reflexivity]. apply obeys_since.
  assert (L : forall u, follows w2 u -> worker_removable u
    [("applicationId", JStr worker); ("slug", JStr (app_slug a)); ("single", JBool true)]).
  { intros u Fu. exists a, row, place. split_and!; try done.
    - eapply again_later; [|exact Hh]. do 2 (etransitivity; [eassumption|]). done.
    - by injection 1.
    - eapply answered_later; [|exact Hb]. by etransitivity. }
  eapply (deletion_kept (obeys _) (fun A m => obeys_db _ m)
    (fun b => one_of_words watched_actions b = false)); try reflexivity; [| |discriminate].
  - intros b args' t Hb'. apply obeys_helper. intros u _. split_and!; intros ->; discriminate Hb'.
  - intros args' t Hk. apply obeys_helper. intros u Fu. split_and!; try discriminate. intros _.
    destruct (L u Fu) as (a' & row' & own' & L1 & L2 & L3 & L4 & L5 & L6). exists a', row', own'.
    split_and!; try done; rewrite Hk by done; done.
Qed.

Lemma accepted_follows id : preserves follows (accepted_attempt operation id).
Proof. unfold accepted_attempt. preserving. Qed.

Lemma obeys_ran {A} (m : Svc A) w r w' : preserves protocol m -> m w = (r, w') -> follows w w'.
Proof. intros Hm H. eapply obeys_follows, kept; [exact Hm|exact H]. Qed.

(** Where the health had to be observed, it was. *)
Lemma health_step a row (due : bool) dl w w' : follows w0 w -> accepted_seen a row w ->
  (if due && app_desired_running a then reobserve_accepted platform policy caller (app_slug a) row dl else mret tt : Svc unit) w
    = (Ok tt, w') -> follows w w' /\ (due = true -> healthy_again a row w').
Proof.
  intros F Hs H. destruct (due && app_desired_running a) eqn:Ec.
  - pose proof (obeys_ran _ _ _ _ (reobserve_accepted_obeys _ _ _) H) as F1. apply reobserved_accepted in H; [|done].
    split; [done|]. intros _. split; [by eapply seen_later|done].
  - injection H as <-. split; [done|]. intros ->. split; [done|]. simpl in Ec. congruence.
Qed.

Lemma predecessor_follows s row dl : preserves follows (remove_predecessor caller operation s row dl).
Proof.
  unfold remove_predecessor, _cleanup_deployment, confirmed. cbv zeta.
  repeat first [progress preserving | apply follows_db | apply (worker_free follows (fun A m => follows_db m) (fun _ => True)); done || (intros; apply follows_helper_call)].
Qed.

(** However finishing ends, it obeys. *)
Lemma finish_obeys dl w r w' : w0 = w -> finish_accepted_operation platform policy caller operation dl w = (r, w') -> protocol w w'.
Proof.
  intros E H. change w' with ((r, w').2). rewrite <- H. clear H. unfold finish_accepted_operation. cbv zeta.
  apply obeys_then; [reflexivity|]. intros id ? [Hid ->]%lift_ok.
  apply obeys_then; [apply attempt_obeys|]. intros [a row] w1 H1. cbn [fst snd].
  pose proof (kept _ _ _ _ _ (accepted_follows id) H1) as F1. rewrite <- E in F1.
  assert (S1 : accepted_seen a row w1).
  { eapply attempt_seen; [|exact Hid|exact H1]. by rewrite E. }
  set (phase := op_phase operation). set (healthy := String.eqb phase "deployment_healthy").
  set (cleaning := String.eqb phase "predecessor_cleanup").
  apply obeys_then; [destruct (_ && _); [apply reobserve_accepted_obeys|reflexivity]|]. intros [] w2 H2.
  apply health_step in H2 as [F2 Hh]; [|done..].
  set (m := if healthy then _ else _ : Svc unit).
  assert (Om : preserves protocol m).
  { unfold m, checkpoint. repeat first [progress preserving | apply reconcile_finishing]. }
  apply obeys_then; [apply Om|]. intros [] w3 H3. pose proof (obeys_ran _ _ _ _ Om H3) as F3.
  assert (Hdue : String.eqb phase "accepted" = false -> healthy || cleaning = true).
  { intros Hp. unfold m in H3. destruct healthy; [done|]. destruct cleaning eqn:Ec; [done|]. simpl in H3.
    apply require_true in H3 as [H3 _]. unfold one_of_words in H3. simpl in H3. unfold cleaning in Ec.
    rewrite String.eqb_sym in Hp. rewrite String.eqb_sym in Ec. by rewrite String.eqb_sym, Ec, String.eqb_sym, Hp in H3. }
  destruct (String.eqb (op_kind operation) "app.enable"); [next K; reflexivity|].
  apply obeys_then.
  - destruct (String.eqb phase "accepted") eqn:Ep; [reflexivity|]. cbn [negb].
    apply obeys_then; [|intros; apply obeys_then; [apply obeys_db|reflexivity]].
    apply predecessor_obeys; [do 2 (etransitivity; [eassumption|]); done|]. eapply again_later; [exact F3|]. by apply Hh, Hdue.
  - intros [] w4 H4. apply obeys_then; [reflexivity|]. intros image ? [Hi ->]%lift_ok.
    destruct (at_image_digest row) as [image'|] eqn:Ei; [injection Hi as ->|done].
    assert (F4 : follows w3 w4).
    { revert H4. match goal with |- ?m w3 = _ -> _ => assert (K : preserves follows m) end; [|intros H4; exact (kept _ _ _ _ _ K H4)].
      destruct (negb _); [|apply preserves_ret; apply _]. apply preserves_bind; [apply _|apply predecessor_follows|].
      intros ?. unfold checkpoint. preserving. }
    apply obeys_then; [|intros ? ? _; next K; reflexivity]. apply (retention_obeys _ a row); [|  |done|done].
    + exact (transitivity F1 (transitivity F2 (transitivity F3 F4))).
    + eapply seen_later; [|exact S1]. exact (transitivity F2 (transitivity F3 F4)).
Qed.
End Finishing.

(** C16. Finishing removes nothing but the recorded predecessor.  However it ends,
    a job is removed only where it is exactly the one the operation recorded as
    predecessor and not the job of the deployment just read as accepted, and a
    worker is deleted, alone, only where its slot is the recorded predecessor's
    and not the accepted one, and after the helper confirmed the absence of the
    predecessor's job; and where the application should run, both only after the
    helper showed exactly the accepted job healthy and alone and its public route
    answered with its marker.  No manifest is deleted by name: the registry is
    told to keep the accepted image first, then images on record for the
    application, and every image read as referenced in this call.  Other threads
    may write anything meanwhile. *)
Theorem only_predecessor_removed platform policy operation deadline w r w' :
  finish_accepted_operation platform policy (worker_helper call_helper) operation deadline w = (r, w') ->
  obeys (finishing_allowed platform operation w) w w'.
Proof. by apply finish_obeys. Qed.

(** *** A deployment that replaced another *)

Definition accepted_opening : string := job_opening "demo-app" +:+ placed_job.
Definition accepted_job : string := accepted_opening +:+
  marker_block (sha256_hexdigest accepted_opening) demo_image demo_marker (concat_all (repeat "b" 40)) (sixty_four "c").

Definition replaced : dict := [
  ("application_id", JStr demo_id); ("predecessor_job_id", JStr "demo-app-old");
  ("predecessor_worker_application_id", JStr port_id); ("predecessor_job_sha256", JStr (sixty_four "d"));
  ("predecessor_image", JStr demo_image)].

Definition accepted_evidence : Evidence := {|
  ev_recipe_hash := Some demo_digest; ev_image_digest := Some demo_image; ev_nomad_job := Some accepted_job;
  ev_nomad_job_sha256 := Some (sha256_hexdigest accepted_opening); ev_nomad_version := Some 3;
  ev_build_log_path := Some "/log"%string; ev_error := None; ev_cleanup_state := None |}.

Definition finishing_db : Db := Eval vm_compute in store (after_app [
  Journal (Claim demo_id demo_digest None); PutApplication hosted_app None;
  Journal (Begin demo_other "app.deploy" ("app-" +:+ demo_id) "deployment_healthy" "2027-01-01T00:00:00Z" replaced None);
  CreateAttempt demo_attempt None; CheckpointAttempt demo_other "succeeded" accepted_evidence None;
  Journal (Checkpoint demo_other "deployment_healthy" None false (Some demo_image) None None); Journal (MarkFinishing demo_other)]).

Definition finishing_answer (l : list Request) : result dict :=
  match l with
  | Helper "app.health" _ _ :: _ =>
      Ok [("version", JInt 3); ("currentVersion", JInt 3); ("allocations", JInt 1); ("healthy", JBool true);
          ("terminal", JBool false); ("candidateImage", JStr demo_image);
          ("candidateJobSha256", JStr (sha256_hexdigest accepted_opening))]
  | Helper "app.manifest.retain" _ _ :: _ => Ok [("deleted", JArr []); ("protected", JArr [])]
  | Helper _ _ _ :: _ => Ok [("absent", JBool true); ("jobAbsent", JBool true)]
  | _ => Raise (HelperError "unknown")
  end.

Definition finishing_world : World := {|
  w_db := Conn finishing_db false (fun n => 1767225600000000 + Z.of_nat n) (fun _ => demo_other) 0;
  w_others := fun _ d => d; w_steps := 0; w_monotonic := fun n => Z.of_nat n; w_readings := 0;
  w_helper := finishing_answer; w_command := fun _ => Raise CommandFailure;
  w_http := fun _ => Ok {| rs_status := 200; rs_headers := [(DEPLOYMENT_ROUTE_HEADER_LOWER, demo_marker)] |};
  w_lock := fun _ => true; w_requests := [] |}.

Definition demo_policy : Policy := {|
  py_worker_flavor := "example.1c2g"; py_cpu_mhz := 1000; py_memory_mib := 2048;
  py_postgres_connections := 10; py_postgres_measured_bytes := 1024 ^ 3; py_mongo_measured_bytes := 1024 ^ 3;
  py_s3_bytes := 1024 ^ 3; py_s3_objects := 10000; py_http_seconds := 10 * second;
  py_process_seconds := 900 * second; py_helper_seconds := 60 * second; py_poll_interval_seconds := second |}.

Definition finished_run (o : Operation) :=
  finish_accepted_operation demo_platform demo_policy (worker_helper call_helper) o (900 * second) finishing_world.

Lemma only_predecessor_removed_witness : exists o,
  operation_at demo_other finishing_db = Some o 
  /\ outcome (fun w => (map action_of (w_requests w), op_st <$> operation_at demo_other (store (w_db w)))) (finished_run o)
     = (Ok tt, (["app.manifest.retain"; "app.worker.delete"; "app.remove"; ""; "app.health"]%string, Some op_succeeded))
  /\ obeys (finishing_allowed demo_platform o finishing_world) finishing_world (finished_run o).2.
Proof.
  eexists. split; [vm_compute; reflexivity|]. split; [vm_compute; reflexivity|].
  eapply (only_predecessor_removed demo_platform demo_policy _ (900 * second) finishing_world). apply surjective_pairing.
Defined.
