(* ===== verification/ApplicationService.v ===== *)
(** * Lifecycle of applications
    (src/openstack_platform/controller/application_service.py)

    Declaring, restarting, disabling, enabling and deleting an application.  Each
    runs under the application's lock inside a journaled operation, whose phases
    say how far it has come, and goes on only from confirmed evidence. *)

From S2P Require Import Prelude Regex Json JsonParse Clock Validation Runtime Sql Schema StorageCapacity Operations.
From S2P Require Import StorageContract DeploymentConfig Applications Resources Sizing NomadJobs Service Rollout StorageLimits.
From S2P Require Import OpenStack FloatingIp PublicIp FixedIp RetainedPort Finishing.

Definition _RESERVED_APPLICATION_SLUGS : list string := ["admin"; "api"; "auth"; "status"; "www"].

Record ApplicationCreated := { ap_application_id : string; ap_slug : string; ap_url : string; ap_enabled : bool }.
Record ApplicationRemoved := { ar_application_id : string; ar_slug : string }.
Inductive lifecycle_change := enabled_state | disabled_state.
Record ApplicationLifecycleChanged := { al_application_id : string; al_slug : string; al_state : lifecycle_change }.

Definition no_worker : WorkerIdentity :=
  {| wk_server_id := None; wk_server_name := None; wk_port_id := None; wk_port_name := None |}.

Definition application_missing : error := ValidationError "application does not exist".

(** [_worker_identity]: a ready worker's server and port *)
Definition _worker_identity (result : dict) : Prelude.result WorkerIdentity :=
  _ ← guard_else (is_true (refs_get "ready" result) && negb (is_true (refs_get "absent" result)))
        (ApplicationError "worker readiness was not confirmed");
  server ← uuid (refs_get "serverId" result);
  server_name ← bounded_text 128 (refs_get "serverName" result);
  port ← uuid (refs_get "portId" result);
  port_name ← bounded_text 128 (refs_get "portName" result);
  Ok {| wk_server_id := Some server; wk_server_name := Some server_name; wk_port_id := Some port;
        wk_port_name := Some port_name |}.

(** The arguments that name exactly the accepted job *)
Definition exact_job (slug : string) (job_id hash image : json) : dict :=
  [("slug", JStr slug); ("jobId", job_id); ("candidateJobSha256", hash); ("candidateImage", image)].

Section ApplicationService.
Context (platform : PlatformConfig) (policy : Policy) (base_caller : Caller).

(** [self.helper_caller] *)
Definition app_helper : Caller := worker_helper base_caller.

(** ** declare *)

Definition declare (application_slug : json) (application_id : option string) : Svc ApplicationCreated :=
  checked_slug ← lift (slug application_slug);
  _ ← require (negb (one_of_words _RESERVED_APPLICATION_SLUGS checked_slug))
        (ValidationError "application slug is reserved by the platform");
  existing ← db (get_application checked_slug);
  _ ← require (is_null existing) (ValidationError "application already exists");
  tombstone ← db (get_slug_tombstone checked_slug);
  _ ← require (is_null tombstone) (ValidationError "application slug is permanently reserved");
  identifier ← (match application_id with
                | None => db fresh_uuid
                | Some i => lift (uuid i)
                end : Svc string);
  let url := "https://" +:+ checked_slug +:+ "." +:+ pc_domain platform in
  _ ← db (put_application {|
        in_application_id := identifier; in_slug := checked_slug; in_worker_flavor := py_worker_flavor policy;
        in_scheduler_cpu_mhz := py_cpu_mhz policy; in_scheduler_memory_mib := py_memory_mib policy;
        in_repository_url := None; in_desired_running := false; in_url := Some url;
        in_worker_server_id := None; in_worker_server_name := None; in_worker_port_id := None;
        in_worker_port_name := None |} None false);
  mret {| ap_application_id := identifier; ap_slug := checked_slug; ap_url := url; ap_enabled := false |}.

(** ** The operation around a change *)

Definition app_scope (a : Application) : string := "app-" +:+ app_application_id a.

(** [unfinished.refs.get(key) == value] for every reference *)
Definition same_refs (refs stored : dict) : bool := forallb (fun kv => py_eqb (refs_get kv.1 stored) kv.2) refs.

(** The operation, and whether it is resumed *)
Definition _operation (application : Application) (kind : string) (refs : dict) (deadline : Z)
    (operation_id : option string) : Svc (Operation * bool) :=
  let scope := app_scope application in
  unfinished ← db (get_unfinished_operation scope);
  match unfinished with
  | Some o =>
      _ ← require (String.eqb (op_kind o) kind && same_refs refs (op_refs o))
            (UnfinishedOperationError scope (op_operation_id o) (op_kind o));
      at_ ← wall_deadline deadline;
      renewed ← db (renew_operation_deadline (op_operation_id o) at_ None);
      mret (renewed, true)
  | None =>
      identifier ← (match operation_id with
                    | None => db fresh_uuid
                    | Some i => lift (uuid i)
                    end : Svc string);
      at_ ← wall_deadline deadline;
      started ← db (begin_operation identifier kind scope "validated" at_ refs None);
      mret (started, false)
  end.

(** [except Exception as error]: a running operation needs recovery; [finishing]
    says what happens to one that is only finishing. *)
Definition recover_running (operation_id : string) (e : error) (finishing : bool) : Svc unit :=
  latest ← db (get_operation operation_id);
  match latest with
  | Some o =>
      if bool_decide (op_st o = op_running) then
        if finishing && op_finishing o then _ ← db (record_finishing_failure operation_id (Exn (error_name e))); mret tt
        else _ ← db (mark_recovery_required operation_id (Exn (error_name e)) None None); mret tt
      else mret tt
  | None => mret tt
  end.

Definition recovering {A} (operation_id : string) (finishing : bool) (body : Svc A) : Svc A :=
  catch body (fun e => _ ← recover_running operation_id e finishing; raise e).

(** ** restart *)

Definition restart_refs (a : Application) (d : Deployment) (job_id : string) : dict := [
  ("application_id", JStr (app_application_id a)); ("job_id", JStr job_id);
  ("job_sha256", JStr (de_nomad_job_sha256 d)); ("image", JStr (de_image_digest d))].

Definition unknown_restart : string :=
  "restart outcome is unknown; inspect the app before requesting another restart".

Definition request_restart (a : Application) (d : Deployment) (job_id operation_id : string) (deadline : Z) : Svc unit :=
  catch (result ← app_helper "app.restart" (exact_job (app_slug a) (JStr job_id) (JStr (de_nomad_job_sha256 d))
                                              (JStr (de_image_digest d))) deadline;
         _ ← confirmed "restarted" result (ApplicationError "task restart was not confirmed");
         _ ← db (mark_succeeded operation_id "not_required" None); mret tt)
    (fun e => _ ← db (mark_failed operation_id (Exn (error_name e)) "not_required" None); raise e).

Definition restart_locked (application_identifier request_id : string) (deadline : Z) : Svc unit :=
  current ← db (get_application application_identifier);
  match current with
  | Some a =>
      _ ← require (app_desired_running a) (ValidationError "restart requires a running application");
      deployment ← db (get_deployment application_identifier);
      match deployment with
      | None => raise (ValidationError "restart requires an accepted deployment")
      | Some d =>
          job_id ← lift (nomad_job_id (de_nomad_job d) (app_slug a));
          let refs := restart_refs a d job_id in
          started ← _operation a "app.restart" refs deadline (Some request_id);
          let operation := started.1 in
          if started.2 && String.eqb (op_phase operation) "restart_requested" then
            _ ← db (mark_failed (op_operation_id operation) (Text unknown_restart) "not_required" None); mret tt
          else
            _ ← checkpoint (op_operation_id operation) "restart_requested" (Some refs);
            request_restart a d job_id (op_operation_id operation) deadline
      end
  | None => raise (ValidationError "restart requires a running application")
  end.

Definition restart (application_identifier request_id : string) : Svc unit :=
  whole ← operation_deadline (py_process_seconds policy);
  now ← monotonic;
  let deadline := Z.min whole (now + 30 * second) in
  lock ("app-" +:+ application_identifier) (restart_locked application_identifier request_id deadline).

(** ** What disabling, enabling and deleting share *)

(** The application, found again under its lock once the project is verified *)
Definition current_application (application : Application) (deadline : Z) : Svc Application :=
  timeout ← remaining_seconds deadline (py_process_seconds policy);
  _ ← OpenStack.verify_project platform timeout;
  current ← db (get_application (app_application_id application));
  match current with Some a => mret a | None => raise application_missing end.

Definition changed (a : Application) (s : lifecycle_change) : ApplicationLifecycleChanged :=
  {| al_application_id := app_application_id a; al_slug := app_slug a; al_state := s |}.

(** The operation of the scope, unless there is none, blocks the change. *)
Definition blocked_by (scope : string) (o : Operation) : error :=
  UnfinishedOperationError scope (op_operation_id o) (op_kind o).

(** ** disable *)

Definition disable_refs (a : Application) (d : Deployment) (job_id placement_id : string) : dict := [
  ("application_id", JStr (app_application_id a)); ("slug", JStr (app_slug a)); ("job_id", JStr job_id);
  ("job_sha256", JStr (de_nomad_job_sha256 d)); ("image", JStr (de_image_digest d));
  ("worker_application_id", JStr placement_id);
  ("worker_server_id", text_of (app_worker_server_id a)); ("worker_port_id", text_of (app_worker_port_id a))].

Definition slot_args (placement_id slug : string) : dict := [("applicationId", JStr placement_id); ("slug", JStr slug)].

(** The slot's worker is absent, or the one the database records. *)
Definition recorded_worker (a : Application) (observed : dict) : Svc unit :=
  if is_true (refs_get "absent" observed) then mret tt else
  identity ← lift (_worker_identity observed);
  require (bool_decide (wk_server_id identity = app_worker_server_id a)
           && bool_decide (wk_port_id identity = app_worker_port_id a))
    (ApplicationError "active worker identity did not match SQLite").

Definition disable_body (a : Application) (d : Deployment) (job_id placement_id operation_id : string) (refs : dict)
    (deadline : Z) : Svc unit :=
  removed ← app_helper "app.remove" (exact_job (app_slug a) (JStr job_id) (JStr (de_nomad_job_sha256 d))
                                       (JStr (de_image_digest d))) deadline;
  _ ← confirmed "jobAbsent" removed (ApplicationError "exact accepted job absence was not confirmed");
  _ ← checkpoint operation_id "job_absent" (Some refs);
  observed ← app_helper "app.worker.observe" (slot_args placement_id (app_slug a)) deadline;
  _ ← recorded_worker a observed;
  _ ← PublicIp.release_locked platform (app_application_id a) deadline true;
  worker ← app_helper "app.worker.delete" (slot_args placement_id (app_slug a) ++ [("single", JBool true)]) deadline;
  _ ← confirmed "absent" worker (ApplicationError "exact worker or fixed-port absence was not confirmed");
  _ ← db (set_application_runtime (app_application_id a) false no_worker None None false);
  _ ← checkpoint operation_id "worker_absent" (Some refs);
  _ ← db (mark_succeeded operation_id "confirmed" None);
  mret tt.

Definition disable_locked (application : Application) (request_id : option string) (deadline : Z)
    : Svc ApplicationLifecycleChanged :=
  current ← current_application application deadline;
  deployment ← db (get_deployment (app_application_id current));
  unfinished ← db (get_unfinished_operation (app_scope application));
  if negb (app_desired_running current) && is_null (app_worker_server_id current) && is_null unfinished
  then mret (changed current disabled_state) else
  match deployment with
  | None =>
      _ ← (match unfinished with Some o => raise (blocked_by (app_scope application) o) | None => mret tt end : Svc unit);
      _ ← db (set_application_runtime (app_application_id current) false no_worker None None false);
      mret (changed current disabled_state)
  | Some d =>
      placement_id ← lift (nomad_placement_id (de_nomad_job d));
      job_id ← lift (nomad_job_id (de_nomad_job d) (app_slug current));
      let refs := disable_refs current d job_id placement_id in
      started ← _operation current "app.disable" refs deadline request_id;
      _ ← recovering (op_operation_id started.1) false
            (disable_body current d job_id placement_id (op_operation_id started.1) refs deadline);
      mret (changed current disabled_state)
  end.

(** Finding the application, then changing it under its lock *)
Definition under_lock {A} (application_identifier : string) (check : Application -> Svc unit)
    (body : Application -> Z -> Svc A) : Svc A :=
  application ← db (get_application application_identifier);
  match application with
  | None => raise application_missing
  | Some a =>
      _ ← check a;
      deadline ← operation_deadline (py_process_seconds policy);
      lock (app_scope a) (body a deadline)
  end.

Definition disable (application_identifier : string) (request_id : option string) : Svc ApplicationLifecycleChanged :=
  under_lock application_identifier (fun _ => mret tt) (fun a deadline => disable_locked a request_id deadline).

(** ** enable *)

(** Every storage resource the accepted deployment uses is there and active. *)
Definition storage_active (application_id : string) : Svc unit :=
  resources ← db (list_managed_resources (Some application_id));
  used ← db (active_storage_resource_ids application_id);
  require (forallb (fun i => existsb (fun r => String.eqb (mr_resource_id r) i
                                               && String.eqb (mr_lifecycle_state r) "active") resources) used)
    (ValidationError "accepted deployment references missing or inactive storage").

(** The image of the worker: selected now, or when the operation began *)
Definition worker_image (unfinished : option Operation) : Svc string :=
  match unfinished with
  | Some o => lift (uuid (refs_get "worker_image_id" (op_refs o)))
  | None =>
      selected ← lock "infrastructure" (db (get_image_selection "worker"));
      match selected with
      | Some i => mret (im_image_id i)
      | None => raise (ValidationError "select a worker image before enable")
      end
  end.

Definition enable_refs (a : Application) (d : Deployment) (active placement_id image_id job_id marker : string) : dict := [
  ("application_id", JStr (app_application_id a)); ("slug", JStr (app_slug a)); ("deployment_id", JStr active);
  ("worker_application_id", JStr placement_id); ("worker_image_id", JStr image_id); ("job_id", JStr job_id);
  ("job_sha256", JStr (de_nomad_job_sha256 d)); ("image", JStr (de_image_digest d)); ("route_marker", JStr marker)].

(** The slot's worker, created where it is absent *)
Definition ready_worker (a : Application) (placement_id image_id : string) (deadline : Z) : Svc WorkerIdentity :=
  worker ← app_helper "app.worker.observe" (slot_args placement_id (app_slug a)) deadline;
  worker ← (if is_true (refs_get "absent" worker) then
              timeout ← remaining_seconds deadline (py_process_seconds policy);
              flavor ← observe_flavor platform (JStr (app_worker_flavor a)) timeout;
              _ ← require (String.eqb flavor (app_worker_flavor a))
                    (ApplicationError "configured worker flavor identity drifted");
              app_helper "app.worker.create" (slot_args placement_id (app_slug a) ++ [
                ("workerImageId", JStr image_id); ("standardFlavor", JStr (app_worker_flavor a))]) deadline
            else mret worker : Svc dict);
  lift (_worker_identity worker).

Definition identity_refs (i : WorkerIdentity) : dict := [
  ("worker_server_id", text_of (wk_server_id i)); ("worker_server_name", text_of (wk_server_name i));
  ("worker_port_id", text_of (wk_port_id i)); ("worker_port_name", text_of (wk_port_name i))].

Definition drifted_identity (i : WorkerIdentity) (refs : dict) : bool :=
  existsb (fun kv => match dict_get kv.1 refs with Some v => negb (py_eqb v kv.2) | None => false end) (identity_refs i).

(** The pinned allocation fits the worker. *)
Definition within_capacity (a : Application) (placement_id : string) (i : WorkerIdentity) (deadline : Z) : Svc unit :=
  capacity ← app_helper "app.worker.capacity" (slot_args placement_id (app_slug a)) deadline;
  budget ← lift (worker_budget capacity (default ""%string (wk_server_id i)) (app_worker_flavor a));
  require ((app_scheduler_cpu_mhz a <=? budget.1) && (app_scheduler_memory_mib a <=? budget.2))
    (ApplicationError "pinned allocation exceeds worker capacity after reserve").

(** The bounds of the rollout: the whole operation's deadline is in the calls. *)
Definition enable_bounds : Bounds := {|
  bo_attempts := health_observation_attempts (py_poll_interval_seconds policy);
  bo_poll_interval := py_poll_interval_seconds policy; bo_helper_timeout := py_helper_seconds policy;
  bo_deadline := None; bo_cleanup_reserve := 0; bo_observe := Some (HEALTH_OBSERVATION_SECONDS * second) |}.

Definition public_route (a : Application) (d : Deployment) (marker : string) (deadline : Z) : Svc bool :=
  timeout ← remaining_seconds deadline (py_http_seconds policy);
  check_public_health (app_slug a) platform (JStr (de_health_path d)) timeout false (JStr marker).

(** [time.sleep(remaining_seconds(deadline, seconds))] *)
Definition bounded_sleep (deadline seconds : Z) : Svc unit :=
  time ← remaining_seconds deadline seconds; sleep time.

(** The application runs, and its operation only has to finish: one transaction. *)
Definition accept_enabled (application_id operation_id : string) (i : WorkerIdentity) (version : Z) : DB unit :=
  transaction (_ ← set_application_runtime application_id true i (Some version) None true;
               mark_operation_finishing operation_id true).

Definition enable_body (a : Application) (d : Deployment) (placement_id image_id marker : string) (operation : Operation)
    (deadline : Z) : Svc unit :=
  let id := op_operation_id operation in
  _ ← bind_worker app_helper (app_application_id a) placement_id deadline;
  identity ← ready_worker a placement_id image_id deadline;
  _ ← within_capacity a placement_id identity deadline;
  _ ← require (negb (drifted_identity identity (op_refs operation))) (ApplicationError "enabling worker identity drifted");
  let refs := dict_merge (op_refs operation) (identity_refs identity) in
  _ ← checkpoint id "worker_ready" (Some refs);
  deployed ← deploy_and_cleanup (fun action values _ => app_helper action values deadline) (bounded_sleep deadline)
               (app_slug a) (de_nomad_job d) enable_bounds (Some (public_route a d marker deadline));
  _ ← checkpoint id "deployment_healthy" (Some (dict_merge refs [("nomad_version", JInt (dr_nomad_version deployed))]));
  _ ← db (accept_enabled (app_application_id a) id identity (dr_nomad_version deployed));
  accepted ← db (get_operation id);
  match accepted with
  | Some o => finish_accepted_operation platform policy app_helper o deadline
  | None => raise AssertionError
  end.

(** What [enable] starts or resumes, once nothing else is to be done *)
Definition enable_operation (current : Application) (d : Deployment) (unfinished : option Operation) (request_id : option string)
    (deadline : Z) : Svc unit :=
  marker ← lift (nomad_route_marker (de_nomad_job d));
  placement_id ← lift (nomad_placement_id (de_nomad_job d));
  _ ← storage_active (app_application_id current);
  image_id ← worker_image unfinished;
  active ← db (get_active_deployment (app_application_id current));
  active ← lift (match active with Some x => Ok (ac_deployment_id x) | None => Raise AttributeError end);
  job_id ← lift (nomad_job_id (de_nomad_job d) (app_slug current));
  started ← _operation current "app.enable" (enable_refs current d active placement_id image_id job_id marker) deadline request_id;
  recovering (op_operation_id started.1) true (enable_body current d placement_id image_id marker started.1 deadline).

(** A running application is enabled already, unless its primary port is retained elsewhere. *)
Definition already_enabled (current : Application) : Svc unit :=
  retained ← db (RetainedPort.get (app_application_id current));
  require (match retained with Some r => bool_decide (app_worker_port_id current = po_port_id r) | None => true end)
    (ValidationError "disable the ordinary predecessor before enabling a retained primary port").

Definition enable_locked (application : Application) (request_id : option string) (deadline : Z)
    : Svc ApplicationLifecycleChanged :=
  let scope := app_scope application in
  current ← current_application application deadline;
  deployment ← db (get_deployment (app_application_id current));
  match deployment with
  | None => raise (ValidationError "enable requires an accepted deployment")
  | Some d =>
      unfinished ← db (get_unfinished_operation scope);
      finishing ← db (get_finishing_operation scope);
      let own := match finishing with
        | Some f => if bool_decide (Some (op_operation_id f) = request_id) then Some f else None
        | None => None
        end in
      match own with
      | Some f =>
          at_ ← wall_deadline deadline;
          _ ← db (renew_operation_deadline (op_operation_id f) at_ None);
          _ ← finish_accepted_operation platform policy app_helper f deadline;
          mret (changed current enabled_state)
      | None =>
          _ ← db (check_finishing_admission scope "app.enable");
          _ ← (if app_desired_running current && is_null unfinished then already_enabled current
               else enable_operation current d unfinished request_id deadline);
          mret (changed current enabled_state)
      end
  end.

Definition enable (application_identifier : string) (request_id : option string) : Svc ApplicationLifecycleChanged :=
  under_lock application_identifier (fun _ => mret tt) (fun a deadline => enable_locked a request_id deadline).

(** ** delete *)

Definition delete_refs (a : Application) (confirmation : string) : dict := [
  ("application_id", JStr (app_application_id a)); ("slug", JStr (app_slug a)); ("confirmed_slug", JStr confirmation)].

(** The accepted deployment's job is stopped. *)
Definition withdraw_workload (a : Application) (operation_id : string) (refs : dict) (deadline : Z) : Svc unit :=
  deployment ← db (get_deployment (app_application_id a));
  match deployment with
  | None => mret tt
  | Some d =>
      job_id ← lift (nomad_job_id (de_nomad_job d) (app_slug a));
      _ ← checkpoint operation_id "workload_stopping" (Some refs);
      stopped ← app_helper "app.remove" (exact_job (app_slug a) (JStr job_id) (JStr (de_nomad_job_sha256 d))
                                           (JStr (de_image_digest d))) deadline;
      confirmed "jobAbsent" stopped (ApplicationError "accepted workload withdrawal was not confirmed")
  end.

Definition storage_action (r : ManagedResource) : string := "storage." +:+ mr_resource_type r +:+ ".remove".

(** What both calls of a removal say about the resource *)
Definition removal_args (a : Application) (r : ManagedResource) (metadata : dict) (operation_id : string) (resuming : bool)
    : dict :=
  let common := dict_merge metadata [
    ("applicationId", JStr (app_application_id a)); ("applicationSlug", JStr (app_slug a));
    ("resourceName", JStr (mr_resource_name r)); ("providerId", text_of (mr_provider_id r));
    ("providerName", JStr (mr_provider_name r)); ("confirmName", JStr (mr_resource_name r));
    ("operationId", JStr operation_id);
    ("recover", JBool (resuming || negb (String.eqb (mr_lifecycle_state r) "active")))] in
  if String.eqb (mr_resource_type r) "s3" then dict_set "purge" (JBool true) common else common.

Definition resource_refs (refs : dict) (r : ManagedResource) : dict := dict_merge refs [
  ("resource_id", JStr (mr_resource_id r)); ("resource_type", JStr (mr_resource_type r));
  ("resource_name", JStr (mr_resource_name r))].

(** One resource: removed at its provider, then from the database *)
Definition remove_resource (a : Application) (operation_id : string) (refs : dict) (resuming : bool) (deadline : Z)
    (r : ManagedResource) : Svc unit :=
  metadata ← db (helper_metadata (app_application_id a) (Some r));
  let common := removal_args a r metadata operation_id resuming in
  preflight ← app_helper (storage_action r) (dict_set "preflight" (JBool true) common) deadline;
  _ ← confirmed "preflightAccepted" preflight (ApplicationError "storage deletion preflight was not confirmed");
  _ ← checkpoint operation_id "storage_removing" (Some (resource_refs refs r));
  _ ← db (set_managed_resource_lifecycle (mr_resource_id r) "removing" None);
  removed ← catch (app_helper (storage_action r) (dict_set "preflight" (JBool false) common) deadline)
    (fun e => _ ← db (set_managed_resource_lifecycle (mr_resource_id r) "recovery_required" None); raise e);
  _ ← require (is_true (refs_get "confirmedAbsent" removed) && is_true (refs_get "environmentRemoved" removed))
        (ApplicationError "storage absence evidence was incomplete");
  owner ← lift (storage_owner (mr_resource_type r) (mr_resource_name r));
  _ ← db (set_environment_keys (app_application_id a) owner []);
  _ ← db (delete_managed_resource (app_application_id a) (mr_resource_type r) (mr_resource_name r));
  _ ← checkpoint operation_id "storage_removed" (Some (resource_refs refs r));
  mret tt.

(** The loop, with [fuel] turns; [None] when they are used up *)
Fixpoint remove_storage (fuel : nat) (a : Application) (operation_id : string) (refs : dict) (resuming : bool)
    (deadline : Z) : Svc (option unit) :=
  match fuel with
  | O => mret None
  | S n =>
      resources ← db (list_managed_resources (Some (app_application_id a)));
      match resources with
      | [] => mret (Some tt)
      | r :: _ =>
          _ ← remove_resource a operation_id refs resuming deadline r;
          remove_storage n a operation_id refs false deadline
      end
  end.

(** The job, its Variable and the deploy key *)
Definition remove_runtime (a : Application) (operation_id : string) (refs : dict) (deadline : Z) : Svc unit :=
  _ ← checkpoint operation_id "storage_absent" (Some refs);
  _ ← checkpoint operation_id "runtime_removing" (Some refs);
  removed ← app_helper "app.remove" [("slug", JStr (app_slug a))] deadline;
  _ ← require (is_true (refs_get "jobAbsent" removed) && is_true (refs_get "variableAbsent" removed))
        (ApplicationError "job or Variable absence was not confirmed");
  _ ← checkpoint operation_id "variable_absent" (Some refs);
  key ← app_helper "app.source.key" [("slug", JStr (app_slug a)); ("mode", JStr "delete")] deadline;
  _ ← require (is_false (refs_get "present" key)) (ApplicationError "deploy key absence was not confirmed");
  _ ← checkpoint operation_id "source_key_absent" (Some refs);
  mret tt.

(** The public address, the workers and the retained port, in this order *)
Definition remove_workers (a : Application) (operation_id : string) (refs : dict) (deadline : Z) : Svc unit :=
  let id := app_application_id a in
  _ ← checkpoint operation_id "worker_removing" (Some refs);
  _ ← PublicIp.release_locked platform id deadline false;
  worker ← app_helper "app.worker.delete" (slot_args id (app_slug a)) deadline;
  _ ← confirmed "absent" worker (ApplicationError "bounded worker-slot absence was not confirmed");
  _ ← RetainedPort.release_locked platform id deadline;
  _ ← db (set_application_runtime id false no_worker None None false);
  _ ← checkpoint operation_id "worker_absent" (Some refs);
  mret tt.

Definition remove_manifest (a : Application) (operation_id : string) (refs : dict) (deadline : Z) (image : string) : Svc unit :=
  _ ← checkpoint operation_id "manifest_removing" (Some (dict_merge refs [("image", JStr image)]));
  manifest ← app_helper "app.manifest.delete"
    [("slug", JStr (app_slug a)); ("image", JStr image); ("references", JArr [])] deadline;
  confirmed "absent" manifest (ApplicationError "registry manifest absence was not confirmed").

Definition remove_manifests (a : Application) (operation_id : string) (refs : dict) (deadline : Z) : Svc unit :=
  images ← db (list_application_manifest_images (app_application_id a));
  _ ← for_each images (remove_manifest a operation_id refs deadline);
  _ ← checkpoint operation_id "manifest_absent" (Some refs);
  mret tt.

Definition delete_body (fuel : nat) (a : Application) (operation_id : string) (refs : dict) (resuming : bool)
    (deadline : Z) : Svc (option unit) :=
  _ ← withdraw_workload a operation_id refs deadline;
  _ ← checkpoint operation_id "workload_absent" (Some refs);
  emptied ← remove_storage fuel a operation_id refs resuming deadline;
  match emptied with
  | None => mret None
  | Some _ =>
      _ ← remove_runtime a operation_id refs deadline;
      _ ← remove_workers a operation_id refs deadline;
      _ ← remove_manifests a operation_id refs deadline;
      _ ← db (complete_application_deletion (app_application_id a) operation_id None);
      mret (Some tt)
  end.

Definition delete_locked (fuel : nat) (application : Application) (confirmation : string) (request_id : option string)
    (deadline : Z) : Svc (option ApplicationRemoved) :=
  current ← current_application application deadline;
  let refs := delete_refs current confirmation in
  started ← _operation current "app.delete" refs deadline request_id;
  let id := op_operation_id started.1 in
  done ← recovering id false (delete_body fuel current id refs started.2 deadline);
  mret ((fun _ => {| ar_application_id := app_application_id current; ar_slug := app_slug current |}) <$> done).

(** [None] when the loop's turns are used up *)
Definition delete (fuel : nat) (application_identifier confirmation : string) (request_id : option string)
    : Svc (option ApplicationRemoved) :=
  under_lock application_identifier
    (fun a => require (String.eqb confirmation (app_slug a)) (ValidationError "application deletion requires the exact slug"))
    (fun a deadline => delete_locked fuel a confirmation request_id deadline).
End ApplicationService.
