(* ===== verification/ApplicationServiceSpec.v ===== *)
(** * Properties of the lifecycle of applications

    The order in which a deletion takes an application apart, what a deletion that
    returns has confirmed, and the termination of its loop; and how often a
    restart is requested. *)

From stdpp Require Import gmap.
From S2P Require Import Prelude Regex Json JsonParse Clock Validation Runtime Sql Schema StorageCapacity Operations.
From S2P Require Import OperationsSpec AdmissionSpec StorageContract DeploymentConfig Applications ApplicationsSpec Resources ResourcesSpec.
From S2P Require Import Sizing NomadJobs Service Rollout RolloutSpec StorageLimits StorageLimitsSpec.
From S2P Require Import OpenStack OpenStackSpec IpAddress FloatingIp PublicIp PublicIpSpec FixedIp RetainedPort RetainedPortSpec.
From S2P Require Import Sha256 WorkerHelperSpec Finishing FinishingSpec ApplicationService.

(** ** Deleting an application *)

Definition app_rows (id : string) (d : Db) : list ManagedResource :=
  List.filter (fun r => String.eqb (mr_application_id r) id) (managed_resources d).

(** A row of an application that was read *)
Definition row_read (a : Application) (w0 w : World) : Prop :=
  once (fun u => exists i, (db (get_application i) u).1 = Ok (Some a)) w0 w.

Lemma read_seen identifier w a w1 : db (get_application identifier) w = (Ok (Some a), w1) ->
  follows w w1 /\ forall w0, follows w0 w ->
    row_read a w0 w1 /\ once (fun u => (db (get_application identifier) u).1 = Ok (Some a)) w0 w1.
Proof.
  intros H. pose proof (ran_db _ _ _ _ H) as F. split; [done|]. intros w0 F0. split; exists w; split_and!; [done|done| |done|done|by rewrite H].
  exists identifier. by rewrite H.
Qed.

(** *** Dropping resources from the record *)

Definition resource_key (r : ManagedResource) : string * string * string :=
  (mr_application_id r, mr_resource_type r, mr_resource_name r).

Definition resource_keys (d : Db) : gset (string * string * string) := list_to_set (map resource_key (managed_resources d)).

(** The newest request asked to remove the resource, for real, and the answer
    shows it absent and the environment's keys removed. *)
Definition absence_shown (k : string * string * string) (w : World) : Prop :=
  exists args t earlier answer,
    w_requests w = Helper ("storage." +:+ k.1.2 +:+ ".remove") args t :: earlier
    /\ refs_get "applicationId" args = JStr k.1.1 /\ refs_get "resourceName" args = JStr k.2
    /\ refs_get "preflight" args = JBool false /\ w_helper w (w_requests w) = Ok answer
    /\ is_true (refs_get "confirmedAbsent" answer) = true /\ is_true (refs_get "environmentRemoved" answer) = true.

(** No resource is recorded anew, and each that is dropped was shown absent. *)
Definition dropping (w : World) (d d' : Db) : Prop :=
  resource_keys d' ⊆ resource_keys d /\ forall k, k ∈ resource_keys d -> k ∉ resource_keys d' -> absence_shown k w.

(** Of the resources on record the service dropped only what was shown absent. *)
Definition clears : World -> World -> Prop := justified (fun _ _ => True) dropping.

#[export] Instance clears_preorder : PreOrder clears.
Proof. apply justified_preorder. Qed.

Lemma clears_follows w w' : clears w w' -> follows w w'.
Proof. intros H%justified_obeys. by eapply obeys_follows. Qed.

Definition same_keys_kept (d d' : Db) : Prop := resource_keys d' = resource_keys d.

#[export] Instance same_keys_preorder : PreOrder same_keys_kept.
Proof. unfold same_keys_kept. split; [by intros d|]. intros a b c H1 H2. congruence. Qed.

Lemma clears_kept {A} (m : DB A) : evolves same_keys_kept m -> preserves clears (db m).
Proof.
  intros Hm w. eapply justified_evolves; [exact Hm|]. intros d d' H. unfold same_keys_kept in H. split; [by rewrite H|].
  intros k H1 H2. by rewrite H in H2.
Qed.

Lemma clears_still {A} (m : DB A) : evolves eq m -> preserves clears (db m).
Proof. intros Hm. apply clears_kept. intros c. unfold same_keys_kept. by rewrite (Hm c). Qed.

Lemma clears_same {A} (m : DB A) : evolves same_resources m -> preserves clears (db m).
Proof.
  intros Hm. apply clears_kept. intros c. specialize (Hm c). unfold same_resources in Hm. unfold same_keys_kept, resource_keys. by rewrite Hm.
Qed.

Lemma clears_helper a args t : preserves clears (call_helper a args t).
Proof. intros w. by apply just_ask. Qed.

Lemma clears_monotonic : preserves clears monotonic.
Proof. intros w. apply just_silent, silent_monotonic. Qed.

Lemma clears_call {A} (k : journal_call) (m : DB A) : run_call k = discard m -> preserves clears (db m).
Proof.
  intros E. apply clears_same. intros c. pose proof (journal_same_resources k c) as H. rewrite E in H.
  unfold discard, mbind, M_bind in H. by destruct (m c) as [[]].
Qed.

Lemma clears_checkpoint i p refs : preserves clears (checkpoint i p refs).
Proof. apply (clears_call (Checkpoint i p refs false None None None)). reflexivity. Qed.

Lemma clears_renew i d n : preserves clears (db (renew_operation_deadline i d n)).
Proof. by apply (clears_call (Renew i d n)). Qed.

Lemma clears_begin i k s p d r n : preserves clears (db (begin_operation i k s p d r n)).
Proof. by apply (clears_call (Begin i k s p d r n)). Qed.

Lemma keys_updated (p : ManagedResource -> bool) f l : (forall r, resource_key (f r) = resource_key r) ->
  map resource_key (apply_where p f l) = map resource_key l.
Proof. intros Hf. unfold apply_where. rewrite map_map. apply map_ext. intros r. by destruct (p r). Qed.

Lemma lifecycle_keys i s n : evolves same_keys_kept (set_managed_resource_lifecycle i s n).
Proof.
  unfold set_managed_resource_lifecycle. evolve. unfold same_keys_kept, resource_keys. simpl. rewrite keys_updated; done.
Qed.

(** Deleting the row of a resource drops its key and no other. *)
Definition drops_only (x : string * string * string) (d d' : Db) : Prop :=
  resource_keys d' ⊆ resource_keys d /\ forall k, k ∈ resource_keys d -> k ∉ resource_keys d' -> k = x.

#[export] Instance drops_preorder x : PreOrder (drops_only x).
Proof.
  split; [by intros d|]. intros a b c [H1 H2] [K1 K2]. split; [by etransitivity|]. intros k Ha Hc.
  destruct (decide (k ∈ resource_keys b)); auto.
Qed.

Lemma deleted_keys a t n : evolves (drops_only (a, t, n)) (delete_managed_resource a t n).
Proof.
  unfold delete_managed_resource. evolve.
  match goal with H : resource_name _ = Ok _ |- _ => apply resource_name_ok in H as [[= <-] _] end.
  unfold drops_only, resource_keys. simpl. split.
  - intros k. rewrite !elem_of_list_to_set, !list_elem_of_In, !in_map_iff. intros (r & <- & [Hr _]%filter_In). by exists r.
  - intros k. rewrite !elem_of_list_to_set, !list_elem_of_In, !in_map_iff. intros (r & <- & Hr) Hn.
    destruct (Resources.named a t n r) eqn:E; [|exfalso; apply Hn; exists r; split; [done|]; apply filter_In; by rewrite E].
    unfold Resources.named in E. apply andb_true_iff in E as [[E1%String.eqb_eq E2%String.eqb_eq]%andb_true_iff E3%String.eqb_eq].
    unfold resource_key. congruence.
Qed.

Lemma clears_delete a t n w : absence_shown (a, t, n) w -> clears w (db (delete_managed_resource a t n) w).2.
Proof.
  intros H. eapply justified_evolves; [apply deleted_keys|]. intros d d' [K1 K2]. split; [done|]. intros k Hk Hn. by rewrite (K2 k Hk Hn).
Qed.

(** A monotone world: no other thread registers a resource. *)
Definition none_added (w : World) : Prop := forall n d, resource_keys (w_others w n d) ⊆ resource_keys d.

Lemma none_added_later w w' : follows w w' -> none_added w -> none_added w'.
Proof. intros F H. unfold none_added. by rewrite (follows_others _ _ F). Qed.

Lemma turns_fewer o : (forall n d, resource_keys (o n d) ⊆ resource_keys d) -> forall k n d, resource_keys (turns o n k d) ⊆ resource_keys d.
Proof. intros H. induction k as [|k IH]; intros n d; simpl; [done|]. etransitivity; [apply IH|apply H]. Qed.

(** Then the record of resources only shrinks. *)
Lemma clears_fewer w w' : clears w w' -> none_added w -> none_added w' /\ resource_keys (store (w_db w')) ⊆ resource_keys (store (w_db w)).
Proof.
  intros C N. split; [by eapply none_added_later; [apply clears_follows|]|]. revert N.
  induction C as [w w' [D _]|w r _|w c Hc|w w1 w2 C1 IH1 C2 IH2]; intros N.
  - rewrite (drifts_store _ _ D). by apply turns_fewer.
  - done.
  - simpl. etransitivity; [apply Hc|]. apply N.
  - etransitivity; [apply IH2|by apply IH1]. eapply none_added_later; [exact (clears_follows _ _ C1)|done].
Qed.

Section Evidence.
Context (a : Application) (w0 : World).

(** No resource of the application is left, and until then the service dropped
    from the record only resources shown absent. *)
Definition storage_gone : World -> Prop :=
  once (fun u => clears w0 u /\ app_rows (app_application_id a) (store (w_db u)) = []) w0.

(** Its job, its Variable and its deploy key are confirmed absent ... *)
Definition purged (args answer : dict) : Prop :=
  args = [("slug", JStr (app_slug a))]
  /\ is_true (refs_get "jobAbsent" answer) = true /\ is_true (refs_get "variableAbsent" answer) = true.

Definition key_deleted (args answer : dict) : Prop :=
  args = [("slug", JStr (app_slug a)); ("mode", JStr "delete")] /\ is_false (refs_get "present" answer) = true.

(** ... and its public address is released. *)
Definition runtime_gone (w : World) : Prop :=
  storage_gone w /\ answered "app.remove" purged w0 w /\ answered "app.source.key" key_deleted w0 w
  /\ once (fun u => reservation_at (app_application_id a) (store (w_db u)) = None) w0 w.

(** Its worker is confirmed absent, and its retained port is released. *)
Definition worker_deleted (args answer : dict) : Prop :=
  refs_get "applicationId" args = JStr (app_application_id a) /\ is_true (refs_get "absent" answer) = true.

Definition workers_gone (w : World) : Prop :=
  runtime_gone w /\ answered "app.worker.delete" worker_deleted w0 w
  /\ once (fun u => port_at (app_application_id a) (store (w_db u)) = None) w0 w.

Lemma runtime_later w w' : follows w w' -> runtime_gone w -> runtime_gone w'.
Proof. intros F (H1 & H2 & H3 & H4). split_and!; (by eapply once_later) || by eapply answered_later. Qed.

Lemma workers_later w w' : follows w w' -> workers_gone w -> workers_gone w'.
Proof. intros F (H1 & H2 & H3). split_and!; [by eapply runtime_later|by eapply answered_later|by eapply once_later]. Qed.
End Evidence.

(** The row the deletion works on: that of the application the identifier names,
    read again under the lock *)
Definition chosen (identifier : string) (a : Application) (w0 w : World) : Prop :=
  once (fun u => exists x, once (fun v => (db (get_application identifier) v).1 = Ok (Some x)) w0 u
    /\ (db (get_application (app_application_id x)) u).1 = Ok (Some a)) w0 w.

(** A resource of the application, as it was on record *)
Definition own_resource (a : Application) (r : ManagedResource) (w0 w : World) : Prop :=
  once (fun u => In r (app_rows (app_application_id a) (store (w_db u)))) w0 w.

Definition names_resource (a : Application) (r : ManagedResource) (args : dict) : Prop :=
  refs_get "applicationId" args = JStr (app_application_id a) /\ refs_get "applicationSlug" args = JStr (app_slug a)
  /\ refs_get "resourceName" args = JStr (mr_resource_name r) /\ refs_get "confirmName" args = JStr (mr_resource_name r)
  /\ refs_get "providerId" args = text_of (mr_provider_id r) /\ refs_get "providerName" args = JStr (mr_provider_name r).

(** The request before was the same with [preflight], and was accepted; the
    resource is recorded as being removed. *)
Definition removal_ready (r : ManagedResource) (action : string) (args : dict) (w : World) : Prop :=
  exists common t earlier answer row,
    args = dict_set "preflight" (JBool false) common
    /\ w_requests w = Helper action (dict_set "preflight" (JBool true) common) t :: earlier
    /\ w_helper w (w_requests w) = Ok answer /\ is_true (refs_get "preflightAccepted" answer) = true
    /\ In row (managed_resources (store (w_db w))) /\ mr_resource_id row = mr_resource_id r
    /\ mr_lifecycle_state row = "removing"%string.

(** The exact job of the deployment read as accepted *)
Definition accepted_job (a : Application) (args : dict) (w0 w : World) : Prop :=
  exists d job, once (fun u => (db (get_deployment (app_application_id a)) u).1 = Ok (Some d)) w0 w
    /\ nomad_job_id (de_nomad_job d) (app_slug a) = Ok job
    /\ args = exact_job (app_slug a) (JStr job) (JStr (de_nomad_job_sha256 d)) (JStr (de_image_digest d)).

(** An image on record for the application *)
Definition own_image (a : Application) (image : string) (w0 w : World) : Prop :=
  once (fun u => exists images, (db (list_application_manifest_images (app_application_id a)) u).1 = Ok images /\ In image images) w0 w.

Definition removal_actions : list string := ["storage.postgres.remove"; "storage.mongo.remove"; "storage.s3.remove"].

(** The worker of one of the application's slots *)
Definition own_worker (a : Application) (args : dict) : Prop :=
  exists slot, refs_get "applicationId" args = JStr slot /\ refs_get "slug" args = JStr (app_slug a)
    /\ (slot = app_application_id a \/ exists slots, slots_of (app_application_id a) = Ok slots /\ In slot slots).

Section Deletion.
Context (identifier : string).

Definition deleting (w0 w : World) (r : Request) : Prop :=
  match r with
  | Helper action args _ =>
      (one_of_words removal_actions action = true ->
         exists a r, chosen identifier a w0 w /\ own_resource a r w0 w /\ action = storage_action r /\ names_resource a r args
           /\ (is_true (refs_get "preflight" args) = true \/ removal_ready r action args w))
      /\ (action = "app.remove" ->
            exists a, chosen identifier a w0 w
              /\ (accepted_job a args w0 w \/ args = [("slug", JStr (app_slug a))] /\ storage_gone a w0 w))
      /\ (action = "app.source.key" ->
            exists a, chosen identifier a w0 w /\ args = [("slug", JStr (app_slug a)); ("mode", JStr "delete")]
              /\ storage_gone a w0 w /\ answered "app.remove" (purged a) w0 w)
      /\ (action = "app.worker.delete" -> exists a, chosen identifier a w0 w /\ own_worker a args /\ runtime_gone a w0 w)
      /\ (action = "app.manifest.delete" ->
            exists a image, chosen identifier a w0 w /\ own_image a image w0 w
              /\ args = [("slug", JStr (app_slug a)); ("image", JStr image); ("references", JArr [])] /\ workers_gone a w0 w)
  | _ => True
  end.

Abbreviation caller := (app_helper call_helper).

(** *** What the steps of a deletion establish *)

Lemma plain_helper action args t w : one_of_words worker_actions action = false ->
  caller action args t w = call_helper action args t w.
Proof. apply plain_call. Qed.

Lemma confirmed_ok key answer e w u w' : Finishing.confirmed key answer e w = (Ok u, w') ->
  is_true (refs_get key answer) = true /\ w' = w.
Proof. apply require_true. Qed.

Lemma checkpoint_follows i p refs : preserves follows (checkpoint i p refs).
Proof. apply follows_db. Qed.
#[local] Hint Resolve checkpoint_follows : service.

(** A call that answered, with evidence of the answer *)
Lemma call_evidence action ok args t w0 w d w' : one_of_words worker_actions action = false -> follows w0 w ->
  caller action args t w = (Ok d, w') -> ok args d -> follows w w' /\ answered action ok w0 w'.
Proof.
  intros Hw F H Hok. rewrite plain_helper in H by done. split; [|by eapply answered_call].
  exact (kept _ _ _ _ _ (follows_helper_call _ _ _) H).
Qed.

Lemma listed_rows id w rows w' : db (list_managed_resources (Some id)) w = (Ok rows, w') ->
  rows ≡ₚ app_rows id (store (w_db w')) /\ follows w w'.
Proof.
  intros H. split; [|by eapply ran_db]. apply db_step in H. unfold list_managed_resources in H.
  apply bind_ok in H as (l & c & H1 & H). injection H1 as <- <-. injection H as <- <-. apply sort_by_perm.
Qed.

Lemma remove_resource_follows a i refs b dl r : preserves follows (remove_resource call_helper a i refs b dl r).
Proof.
  unfold remove_resource, Finishing.confirmed, app_helper.
  repeat first [progress preserving | apply follows_db | apply (worker_free follows (fun A m => follows_db m) (fun _ => True)); done || (intros; apply follows_helper_call)].
Qed.

(** *** Removing a resource *)

Abbreviation protocol w0 := (obeys (deleting w0)).

#[local] Hint Extern 0 (preserves _ (checkpoint _ _ _)) => apply obeys_db : service.

Definition watched : list string := removal_actions ++ ["app.remove"; "app.source.key"; "app.worker.delete"; "app.manifest.delete"]%string.

Lemma unwatched_allowed w0 a args t w : one_of_words watched a = false -> deleting w0 w (Helper a args t).
Proof.
  intros H. unfold watched, one_of_words in H. rewrite existsb_app in H.
  apply orb_false_iff in H as [H1 H2]. split_and!; [intros E; unfold one_of_words in E; congruence|..]; intros ->; discriminate H2.
Qed.

Lemma unwatched_helper w0 a args t : one_of_words watched a = false -> preserves (protocol w0) (call_helper a args t).
Proof. intros H. apply obeys_helper. intros w. by apply unwatched_allowed. Qed.

Lemma unwatched_service w0 a args t : one_of_words worker_actions a = false -> one_of_words watched a = false ->
  preserves (protocol w0) (caller a args t).
Proof. intros Hw Ha w. rewrite plain_helper by done. by apply unwatched_helper. Qed.

Lemma db_requests {A} (m : DB A) w r w' : db m w = (r, w') -> w_requests w' = w_requests w.
Proof. unfold db. destruct (m _). by intros [= _ <-]. Qed.

Lemma lifecycle_recorded id state w u w' : db (set_managed_resource_lifecycle id state None) w = (Ok u, w') ->
  exists row, In row (managed_resources (store (w_db w'))) /\ mr_resource_id row = id /\ mr_lifecycle_state row = state.
Proof.
  intros H%db_step. unfold set_managed_resource_lifecycle in H. apply bind_ok in H as (i & ? & [Hi%uuid_same ->]%lift_ok & H).
  subst i. apply bind_ok in H as (? & ? & [_ ->]%require_true & H). apply transaction_ok in H as (c1 & H & -> & _).
  apply bind_ok in H as (now & c2 & [Hc2 _]%now_or_inv & H). apply bind_ok in H as (n & c3 & (-> & Hn & _)%update_ok & H).
  apply require_true in H as [Hone ->]. simpl in *. apply Nat.eqb_eq in Hone.
  destruct (List.filter _ _) as [|r l] eqn:E in Hn; [simpl in Hn; lia|]. assert (Hr : In r (r :: l)) by by left.
  rewrite <- E in Hr. apply filter_In in Hr as [Hin Hr]. exists (set_resource_lifecycle state now r). split_and!; [|by apply String.eqb_eq in Hr|done].
  unfold apply_where. apply in_map_iff. exists r. by rewrite Hr.
Qed.

Lemma storage_plain r : one_of_words worker_actions (storage_action r) = false.
Proof. reflexivity. Qed.

Lemma removal_named a r metadata i b v : names_resource a r (dict_set "preflight" v (removal_args a r metadata i b)).
Proof.
  unfold removal_args. cbv zeta. set (l := [_; _; _; _; _; _; _; _]).
  assert (E : forall k, one_of_words ["preflight"; "purge"] k = false ->
    refs_get k (dict_set "preflight" v (if String.eqb (mr_resource_type r) "s3" then dict_set "purge" (JBool true) (dict_merge metadata l)
                                        else dict_merge metadata l)) = refs_get k (dict_merge metadata l)).
  { intros k Hk. unfold one_of_words in Hk. simpl in Hk. apply orb_false_iff in Hk as [H1%String.eqb_neq [H2%String.eqb_neq _]%orb_false_iff].
    unfold refs_get. rewrite dict_get_set_ne by done. destruct (String.eqb (mr_resource_type r) "s3"); [by rewrite dict_get_set_ne|done]. }
  unfold names_resource. rewrite !E by done. unfold dict_merge, l, refs_get. simpl.
  split_and!; repeat (rewrite dict_get_set_ne by done); by rewrite dict_get_set_eq.
Qed.

(** After the row is deleted, its key is gone. *)
Lemma key_deleted_now a t n w u w' : db (delete_managed_resource a t n) w = (Ok u, w') ->
  (a, t, n) ∉ resource_keys (store (w_db w')).
Proof.
  intros H%db_step. unfold delete_managed_resource in H. apply bind_ok in H as (? & ? & [_ ->]%lift_ok & H).
  apply bind_ok in H as (name & ? & [[[= ->] _]%resource_name_ok ->]%lift_ok & H).
  apply transaction_ok in H as (c1 & ->%delete_ok & -> & _). unfold resource_keys. simpl.
  rewrite elem_of_list_to_set, list_elem_of_In, in_map_iff. intros (r & E & [_ Hr]%filter_In).
  injection E as E1 E2 E3.
  unfold Resources.named in Hr. by rewrite E1, E2, E3, !String.eqb_refl in Hr.
Qed.

(** One resource is removed: its key is gone, on evidence. *)
Lemma resource_removed a i refs b dl r w u w' : remove_resource call_helper a i refs b dl r w = (Ok u, w') ->
  clears w w' /\ (none_added w -> (app_application_id a, mr_resource_type r, mr_resource_name r) ∉ resource_keys (store (w_db w'))).
Proof.
  intros H. unfold remove_resource in H. apply bind_ok in H as (metadata & w1 & H1 & H).
  apply (kept _ _ _ _ _ (clears_still _ (helper_metadata_still _ _))) in H1.
  cbv zeta in H. apply bind_ok in H as (d & w2 & H2 & H). rewrite plain_helper in H2 by done.
  apply (kept _ _ _ _ _ (clears_helper _ _ _)) in H2. apply bind_ok in H as (? & ? & [_ ->]%require_true & H).
  apply bind_ok in H as (? & w3 & H3%(kept _ _ _ _ _ (clears_checkpoint _ _ _)) & H).
  apply bind_ok in H as (? & w4 & H4%(kept _ _ _ _ _ (clears_kept _ (lifecycle_keys _ _ _))) & H).
  apply bind_ok in H as (removed & w5 & H5 & H). unfold catch in H5. rewrite plain_helper in H5 by done.
  destruct (call_helper _ _ _ w4) as [[y|e] wy] eqn:E5; [|by apply bind_ok in H5 as (? & ? & _ & H5)].
  injection H5 as -> ->. pose proof (kept _ _ _ _ _ (clears_helper _ _ _) E5) as H5. apply helper_step in E5 as [E5 A5].
  apply bind_ok in H as (? & ? & [[Hc1 Hc2]%andb_true_iff ->]%require_true & H). apply bind_ok in H as (owner & ? & [_ ->]%lift_ok & H).
  apply bind_ok in H as (? & w6 & H6 & H). pose proof (kept _ _ _ _ _ (quietly_db _) H6) as [F6 R6].
  assert (C6 : clears w5 w6).
  { refine (kept _ _ _ _ _ (clears_same _ _) H6). unfold set_environment_keys. evolve; done. }
  apply bind_ok in H as (? & w7 & H7 & H).
  assert (A : absence_shown (app_application_id a, mr_resource_type r, mr_resource_name r) w6).
  { destruct (removal_named a r metadata i b (JBool false)) as (K1 & _ & K3 & _).
    rewrite E5 in R6. simpl in R6. unfold absence_shown. rewrite R6. do 4 eexists. split_and!; [reflexivity|exact K1|exact K3| | |exact Hc1|exact Hc2].
    - unfold refs_get. by rewrite dict_get_set_eq.
    - rewrite (follows_helper _ _ F6), E5. rewrite E5 in A5. exact A5. }
  pose proof (clears_delete _ _ _ _ A) as C7. rewrite H7 in C7. cbn [snd] in C7. apply key_deleted_now in H7.
  apply bind_ok in H as (? & w8 & C8%(kept _ _ _ _ _ (clears_checkpoint _ _ _)) & H). injection H as _ <-.
  assert (C : clears w w7) by (do 7 (etransitivity; [eassumption|]); reflexivity).
  split; [by etransitivity|]. intros N Hin. apply H7. apply (clears_fewer _ _ C) in N as [N _]. by apply (clears_fewer _ _ C8 N).
Qed.

Lemma emptied a i refs dl w0 : forall fuel b w w', clears w0 w ->
  remove_storage call_helper fuel a i refs b dl w = (Ok (Some tt), w') -> follows w w' /\ storage_gone a w0 w'.
Proof.
  induction fuel as [|n IH]; intros b w w' C H; cbn [remove_storage] in H; [done|].
  apply bind_ok in H as (rows & w1 & H1 & H). pose proof (kept _ _ _ _ _ (clears_still _ (listed_still _)) H1) as C1.
  apply listed_rows in H1 as [Hr F1]. destruct rows as [|r rest].
  - injection H as <-. split; [done|]. assert (C01 : clears w0 w1) by (by etransitivity).
    apply once_now; [by apply clears_follows|]. split; [done|]. by apply Permutation_nil.
  - apply bind_ok in H as (? & w2 & [C2 _]%resource_removed & H). apply IH in H as [F3 Hg]; [|by do 2 (etransitivity; [eassumption|])].
    split; [|done]. etransitivity; [exact F1|]. etransitivity; [by apply clears_follows|done].
Qed.

Lemma remove_resource_obeys w0 a i refs b dl r w : follows w0 w -> chosen identifier a w0 w -> own_resource a r w0 w ->
  protocol w0 w (remove_resource call_helper a i refs b dl r w).2.
Proof.
  intros F Ha Hr. unfold remove_resource. apply obeys_then; [apply obeys_db|]. intros metadata w1 H1. apply ran_db in H1 as F1. cbv zeta.
  set (common := removal_args a r metadata i b). apply obeys_then.
  { rewrite plain_helper by done. apply obeys_ask. split_and!; [|discriminate..]. intros _. exists a, r.
    split_and!; [by eapply once_later|by eapply once_later|done|apply removal_named|left]. unfold refs_get. by rewrite dict_get_set_eq. }
  intros d w2 H2. rewrite plain_helper in H2 by done. pose proof (kept _ _ _ _ _ (follows_helper_call _ _ _) H2) as F2.
  apply helper_step in H2 as [E2 H2].
  apply obeys_then; [reflexivity|]. intros ? ? [Hd ->]%require_true.
  apply obeys_then; [apply obeys_db|]. intros ? w3 H3. pose proof (ran_db _ _ _ _ H3) as F3. apply db_requests in H3.
  apply obeys_then; [apply obeys_db|]. intros ? w4 H4. pose proof (ran_db _ _ _ _ H4) as F4. pose proof (db_requests _ _ _ _ H4) as R4.
  apply lifecycle_recorded in H4 as (row & Hin & Hid & Hst).
  assert (F04 : follows w w4) by (do 4 (etransitivity; [eassumption|]); reflexivity).
  apply obeys_then.
  - unfold catch. rewrite plain_helper by done.
    assert (A : protocol w0 w4 (asked (Helper (storage_action r) (dict_set "preflight" (JBool false) common) dl) w4)).
    { apply obeys_ask. split_and!; [intros _|discriminate..]. exists a, r.
      split_and!; [by eapply once_later|by eapply once_later|done|apply removal_named|right].
      exists common, dl, (w_requests w1), d, row. rewrite R4, H3, E2. split_and!; try done.
      rewrite <- H2. rewrite (follows_helper _ _ F4), (follows_helper _ _ F3), E2. done. }
    unfold call_helper. cbv zeta. set (wx := asked _ w4) in *. destruct (w_helper wx (w_requests wx)) as [x|e]; [exact A|]. etransitivity; [exact A|]. next K. reflexivity.
  - intros x w5 _. next K1. next K2. next K3. next K4. next K5. reflexivity.
Qed.

Lemma remove_storage_obeys w0 a i refs dl : forall fuel b w, follows w0 w -> chosen identifier a w0 w ->
  protocol w0 w (remove_storage call_helper fuel a i refs b dl w).2.
Proof.
  induction fuel as [|n IH]; intros b w F Ha; simpl; [reflexivity|].
  apply obeys_then; [apply obeys_db|]. intros rows w1 [Hrows F1]%listed_rows. destruct rows as [|r rest]; [reflexivity|].
  assert (Ha1 : chosen identifier a w0 w1) by (by eapply once_later). assert (F01 : follows w0 w1) by (by etransitivity).
  apply obeys_then.
  - apply remove_resource_obeys; [done|done|]. apply once_now; [done|]. eapply Permutation_in; [exact Hrows|by left].
  - intros u w2 H2. pose proof (kept _ _ _ _ _ (remove_resource_follows _ _ _ _ _ _) H2) as F2.
    apply IH; [by etransitivity|by eapply once_later].
Qed.

Lemma withdraw_obeys w0 a i refs dl w : follows w0 w -> chosen identifier a w0 w -> protocol w0 w (withdraw_workload call_helper a i refs dl w).2.
Proof.
  intros F Ha. unfold withdraw_workload. apply obeys_then; [apply obeys_db|]. intros o w1 H1. pose proof (ran_db _ _ _ _ H1) as F1.
  destruct o as [d|]; [|reflexivity]. apply obeys_then; [reflexivity|]. intros job ? [Hj ->]%lift_ok.
  apply obeys_then; [apply obeys_db|]. intros ? w2 H2%ran_db. apply obeys_then.
  - rewrite plain_helper by done. apply obeys_ask. split_and!; try discriminate. intros _. exists a.
    assert (F2 : follows w w2) by (by etransitivity). split; [by eapply once_later|left]. exists d, job. split_and!; [|done|done].
    exists w. split_and!; [done|done|by rewrite H1].
  - intros x w3 _. unfold Finishing.confirmed, require, guard_else. reflexivity.
Qed.

(** *** Purging the runtime *)

Lemma remove_runtime_step w0 a i refs dl w r w' : follows w0 w -> chosen identifier a w0 w -> storage_gone a w0 w ->
  remove_runtime call_helper a i refs dl w = (r, w') ->
  protocol w0 w w' /\ (r = Ok tt -> answered "app.remove" (purged a) w0 w' /\ answered "app.source.key" (key_deleted a) w0 w').
Proof.
  intros F Hread Hs H. assert (O : protocol w0 w (remove_runtime call_helper a i refs dl w).2).
  { unfold remove_runtime. next H1. apply ran_db in H1. next H2. apply ran_db in H2. apply obeys_then.
    - rewrite plain_helper by done. apply obeys_ask. split_and!; try discriminate. intros _. exists a.
      assert (F2 : follows w w2) by (by etransitivity).
      split; [by eapply once_later|right]. split; [done|by eapply once_later].
    - intros d w3 H3. apply obeys_then; [reflexivity|]. intros ? ? [Hd ->]%require_true. apply andb_true_iff in Hd as [Hd1 Hd2].
      eapply (call_evidence _ (purged a) _ _ w0) in H3 as [F3 E3]; [|done|do 2 (etransitivity; [eassumption|]); done|done].
      next H4. apply ran_db in H4. assert (F4 : follows w w4) by (do 4 (etransitivity; [eassumption|]); reflexivity).
      apply obeys_then.
      + rewrite plain_helper by done. apply obeys_ask. split_and!; try discriminate. intros _. exists a.
        split_and!; [by eapply once_later|done|by eapply once_later|exact (answered_later _ _ _ _ _ H4 E3)].
      + intros k wk _. apply obeys_then; [reflexivity|]. intros ? wl _. next H6. reflexivity. }
  rewrite H in O. split; [exact O|]. intros ->. unfold remove_runtime in H.
  apply bind_ok in H as (? & w1 & H1%ran_db & H). apply bind_ok in H as (? & w2 & H2%ran_db & H).
  apply bind_ok in H as (d & w3 & H3 & H). apply bind_ok in H as (? & ? & [Hd ->]%require_true & H).
  apply andb_true_iff in Hd as [Hd1 Hd2].
  eapply (call_evidence _ (purged a) _ _ w0) in H3 as [F3 E3]; [|done|do 2 (etransitivity; [eassumption|]); done|done].
  apply bind_ok in H as (? & w4 & H4%ran_db & H). apply bind_ok in H as (k & w5 & H5 & H).
  apply bind_ok in H as (? & ? & [Hk ->]%require_true & H). apply bind_ok in H as (? & w6 & H6%ran_db & H). injection H as <-.
  eapply (call_evidence _ (key_deleted a) _ _ w0) in H5 as [F5 E5]; [|done|do 4 (etransitivity; [eassumption|]); done|done].
  split; (eapply answered_later; [|eassumption]); [do 2 (etransitivity; [eassumption|])|]; done.
Qed.

(** *** Deleting the workers *)

Definition worker_follows action args dl : preserves follows (worker_helper call_helper action args dl) :=
  worker_free follows (fun A m => follows_db m) (fun _ => True) (fun a args t _ => follows_helper_call a args t) I I action args dl I I.

Definition answers_for (slot : string) (d : dict) (args answer : dict) : Prop :=
  refs_get "applicationId" args = JStr slot /\ answer = d.

Section Answered.
Context (w0 : World) (slot : string) (d : dict).
Abbreviation slot_answered := (answered "app.worker.delete" (answers_for slot d) w0).

Let free_follows := (fun a args t (_ : True) => follows_helper_call a args t).

Lemma carried_answer args dl selected w w' : follows w0 w -> refs_get "applicationId" args = JStr slot ->
  carried_call call_helper "app.worker.delete" slot args dl selected w = (Ok d, w') -> slot_answered w'.
Proof.
  intros F Hs H. unfold carried_call in H. apply bind_ok in H as (o & w1 & H1 & H).
  apply (kept _ _ _ _ _ (instances_free follows (fun A m => follows_db m) _)) in H1.
  apply bind_ok in H as (? & w2 & H2 & H).
  apply (kept _ _ _ _ _ (network_free follows (fun A m => follows_db m) (fun _ => True) free_follows I I _ _ _ _ _ _)) in H2.
  apply bind_ok in H as (result & w3 & H3 & H). apply bind_ok in H as (? & w4 & H4 & H). injection H4 as _ <-.
  apply bind_ok in H as (? & w5 & H5 & H). injection H as -> <-.
  apply (kept _ _ _ _ _ (resolve_free follows (fun A m => follows_db m) _ _)) in H5.
  eapply answered_later; [exact H5|]. eapply answered_call; [|exact H3|done]. by do 2 (etransitivity; [eassumption|]).
Qed.

Lemma slot_answer args dl selected w w' : follows w0 w -> refs_get "applicationId" args = JStr slot ->
  call_slot call_helper "app.worker.delete" slot args dl selected w = (Ok d, w') -> slot_answered w'.
Proof.
  intros F Hs H. destruct selected as [r|]; [|by eapply carried_answer]. unfold call_slot in H.
  apply bind_ok in H as (c & w1 & H1 & H). pose proof (carried_args _ _ _ _ _ H1) as Hc.
  apply (kept _ _ _ _ _ (carry_free follows (fun A m => follows_db m) _ _)) in H1.
  apply bind_ok in H as (p & w2 & H2 & H).
  apply (kept _ _ _ _ _ (prepare_free follows (fun A m => follows_db m) (fun _ => True) free_follows I I _ _ _ _ _)) in H2.
  eapply carried_answer; [|by rewrite Hc|exact H]. by do 2 (etransitivity; [eassumption|]).
Qed.

(** A deletion that returns has shown the answer for the slot itself. *)
Lemma deletion_answer args dl w w' : follows w0 w -> refs_get "applicationId" args = JStr slot ->
  worker_helper call_helper "app.worker.delete" args dl w = (Ok d, w') -> follows w w' /\ slot_answered w'.
Proof.
  intros F Hs H. split; [exact (kept _ _ _ _ _ (worker_follows _ _ _) H)|].
  unfold worker_helper in H. simpl one_of_words in H. cbv iota in H.
  apply bind_ok in H as (s & ? & [E%text_item_get ->]%lift_ok & H). assert (s = slot) as -> by congruence.
  apply bind_ok in H as (rows & w1 & H1%ran_db & H). assert (F1 : follows w0 w1) by (by etransitivity).
  destruct rows as [|r rest]; [by eapply slot_answer|]. cbv zeta in H.
  destruct (_ && _ && _) eqn:Eo; [|by eapply slot_answer].
  apply andb_true_iff in Eo as [[_ Eo%String.eqb_eq]%andb_true_iff _].
  apply bind_ok in H as (slots & ? & [Hslots ->]%lift_ok & H). apply bind_ok in H as (results & w2 & H2 & H).
  apply bind_ok in H as (? & ? & [_ ->]%require_true & H). apply lift_ok in H as [H ->].
  unfold slots_of in Hslots. apply rbind_ok in Hslots as (ids & _ & [= <-]).
  set (slots := [ids.1; ids.2]) in *. clearbody slots. cbn [call_each] in H2.
  apply bind_ok in H2 as (result & w3 & H3 & H2). apply bind_ok in H2 as (others & w4 & H4 & H2). injection H2 as <- <-.
  injection H as ->.
  apply (kept _ _ _ _ _ (each_free follows (fun A m => follows_db m) (fun _ => True) free_follows I I _ _ _ I)) in H4.
  eapply answered_later; [exact H4|]. unfold call_single in H3. apply bind_ok in H3 as (l & w5 & H5%ran_db & H3).
  rewrite <- Eo in H3. eapply slot_answer; [|  |exact H3]; [by etransitivity|].
  unfold refs_get. rewrite dict_get_set_ne by done. by rewrite dict_get_set_eq.
Qed.
End Answered.

(** Nothing else is watched while the worker is deleted. *)
Lemma worker_deletion_obeys w0 a dl w : follows w0 w -> chosen identifier a w0 w -> runtime_gone a w0 w ->
  protocol w0 w (caller "app.worker.delete" (slot_args (app_application_id a) (app_slug a)) dl w).2.
Proof.
  intros F Hread Hgone. apply obeys_since.
  assert (Hask : forall args' t, own_worker a args' ->
    preserves (obeys (fun u r => follows w u -> deleting w0 u r)) (call_helper "app.worker.delete" args' t)).
  { intros args' t Hown. apply obeys_helper. intros u Fu. split_and!; try discriminate. intros _. exists a.
    split_and!; [by eapply once_later|done|by eapply runtime_later]. }
  eapply (deletion_kept (obeys _) (fun A m => obeys_db _ m) (fun b => one_of_words watched b = false)); try reflexivity.
  - intros b args' t Hb. apply obeys_helper. intros u _. by apply unwatched_allowed.
  - intros args' t Hk. apply Hask. exists (app_application_id a). rewrite !Hk by done. split_and!; [done|done|by left].
  - intros _ slots s Hslots Hin args' t Hk. apply Hask. exists s. rewrite !Hk by done.
    unfold refs_get. rewrite !dict_get_set_ne by done. rewrite dict_get_set_eq. split_and!; [done|done|]. right. by exists slots.
Qed.

Lemma reservation_released platform id dl w r w' w0 : PublicIp.release_locked platform id dl false w = (r, w') ->
  protocol w0 w w' /\ follows w w' /\ (r = Ok tt -> reservation_at id (store (w_db w')) = None).
Proof.
  intros H. pose proof (kept _ _ _ _ _ (release_obeys platform id w dl false) H) as O.
  split_and!; [eapply obeys_weaken; [|exact O]|by eapply obeys_follows|].
  - by intros u [].
  - intros ->. by apply release_ok in H as [H _].
Qed.

Lemma port_forgot id w u w' : db (RetainedPort._forget id) w = (Ok u, w') -> port_at id (store (w_db w')) = None.
Proof. intros H%db_step%deleted_none. unfold port_at. simpl in H. by rewrite H. Qed.

Lemma port_released platform id dl w r w' w0 : RetainedPort.release_locked platform id dl w = (r, w') ->
  protocol w0 w w' /\ follows w w' /\ (r = Ok tt -> port_at id (store (w_db w')) = None).
Proof.
  intros H. pose proof (port_release_obeys platform id w dl w) as O. rewrite H in O.
  split_and!; [eapply obeys_weaken; [|exact O]|by eapply obeys_follows|].
  - by intros u [].
  - intros ->. unfold RetainedPort.release_locked in H. apply bind_ok in H as (o & w1 & H1%port_got & H).
    destruct o as [rec|]; [|by injection H as <-]. do 4 (apply bind_ok in H as (? & ? & _ & H)).
    apply bind_ok in H as (matches & ? & _ & H). destruct matches as [|value rest].
    + destruct (bool_decide _); [by apply port_forgot in H|done].
    + apply bind_ok in H as (? & ? & _ & H). cbv zeta in H. do 6 (apply bind_ok in H as (? & ? & _ & H)). by apply port_forgot in H.
Qed.

(** The public address, the workers and the retained port *)
Lemma remove_workers_step platform w0 a i refs dl w r w' : follows w0 w -> chosen identifier a w0 w -> storage_gone a w0 w ->
  answered "app.remove" (purged a) w0 w -> answered "app.source.key" (key_deleted a) w0 w ->
  remove_workers platform call_helper a i refs dl w = (r, w') ->
  protocol w0 w w' /\ (r = Ok tt -> workers_gone a w0 w').
Proof.
  intros F Hread Hs Hp Hk H. set (id := app_application_id a).
  assert (Hgone : forall u, follows w u -> reservation_at id (store (w_db u)) = None -> runtime_gone a w0 u).
  { intros u Fu Hn. split_and!; [by eapply once_later|by eapply answered_later..|]. apply once_now; [by etransitivity|done]. }
  unfold remove_workers in H. cbv zeta in H. fold id in H.
  apply any_step in H as [(e & -> & H)|(? & w1 & H1 & H)].
  { split; [exact (kept _ _ _ _ _ (obeys_db _ _) H)|done]. }
  pose proof (kept _ _ _ _ _ (obeys_db (deleting w0) _) H1) as O1. apply ran_db in H1.
  apply any_step in H as [(e & -> & H)|([] & w2 & H2 & H)].
  { split; [|done]. etransitivity; [exact O1|]. by eapply reservation_released. }
  apply (reservation_released _ _ _ _ _ _ w0) in H2 as (O2 & F2 & Hn). specialize (Hn eq_refl).
  assert (G2 : runtime_gone a w0 w2) by (apply Hgone; [by etransitivity|done]).
  assert (R2 : chosen identifier a w0 w2) by (eapply once_later; [|exact Hread]; by etransitivity).
  assert (F02 : follows w0 w2) by (do 2 (etransitivity; [eassumption|]); done).
  pose proof (worker_deletion_obeys w0 a dl w2 F02 R2 G2) as O3.
  apply any_step in H as [(e & -> & H)|(d & w3 & H3 & H)].
  { split; [|done]. fold id in O3. rewrite H in O3. by do 2 (etransitivity; [eassumption|]). }
  fold id in O3. rewrite H3 in O3. apply (deletion_answer w0 id) in H3 as [F3 A3]; [|done|done].
  pass H as (Hd & H) by (split; [by do 2 (etransitivity; [eassumption|])|done]).
  apply any_step in H as [(e & -> & H)|([] & w4 & H4 & H)]; apply (port_released _ _ _ _ _ _ w0) in H as (O4 & F4 & Hn4) || apply (port_released _ _ _ _ _ _ w0) in H4 as (O4 & F4 & Hn4).
  { split; [by do 3 (etransitivity; [eassumption|])|done]. }
  specialize (Hn4 eq_refl).
  assert (G4 : workers_gone a w0 w4).
  { split_and!.
    - eapply runtime_later; [|exact G2]. by etransitivity.
    - destruct A3 as (later & args & t & earlier & answer & K1 & K2 & K3 & ->).
      eapply answered_later; [exact F4|]. exists later, args, t, earlier, d. by split_and!.
    - apply once_now; [by do 2 (etransitivity; [eassumption|])|done]. }
  assert (O : protocol w0 w w4) by (by do 3 (etransitivity; [eassumption|])).
  set (rest := (_ ← db _; _)) in H. assert (P : preserves (protocol w0) rest) by (unfold rest; preserving).
  pose proof (kept _ _ _ _ _ P H) as O5. split; [by etransitivity|]. intros _.
  eapply workers_later; [by eapply obeys_follows|exact G4].
Qed.

(** *** Deleting the manifests *)

Definition manifest_deleted (a : Application) (image : string) (args answer : dict) : Prop :=
  args = [("slug", JStr (app_slug a)); ("image", JStr image); ("references", JArr [])]
  /\ is_true (refs_get "absent" answer) = true.

(** Every image on record at some moment was confirmed absent. *)
Definition manifests_gone (a : Application) (w0 w : World) : Prop :=
  exists images, once (fun u => (db (list_application_manifest_images (app_application_id a)) u).1 = Ok images) w0 w
    /\ Forall (fun image => answered "app.manifest.delete" (manifest_deleted a image) w0 w) images.

Lemma manifests_later a w0 w w' : follows w w' -> manifests_gone a w0 w -> manifests_gone a w0 w'.
Proof.
  intros F (images & H1 & H2). exists images. split; [by eapply once_later|]. eapply Forall_impl; [exact H2|].
  intros image. by apply answered_later.
Qed.

Lemma remove_manifest_step w0 a i refs dl image w r w' : follows w0 w -> chosen identifier a w0 w -> own_image a image w0 w -> workers_gone a w0 w ->
  remove_manifest call_helper a i refs dl image w = (r, w') ->
  protocol w0 w w' /\ (r = Ok tt -> answered "app.manifest.delete" (manifest_deleted a image) w0 w').
Proof.
  intros F Hread Himage Hgone H. unfold remove_manifest in H. apply any_step in H as [(e & -> & H)|(? & w1 & H1 & H)].
  { split; [exact (kept _ _ _ _ _ (obeys_db _ _) H)|done]. }
  pose proof (kept _ _ _ _ _ (obeys_db (deleting w0) _) H1) as O1. apply ran_db in H1.
  set (args := [_; _; _]) in H. assert (O2 : protocol w0 w1 (caller "app.manifest.delete" args dl w1).2).
  { rewrite plain_helper by done. apply obeys_ask. split_and!; try discriminate. intros _. exists a, image.
    split_and!; [by eapply once_later|by eapply once_later|done|by eapply workers_later]. }
  apply any_step in H as [(e & -> & H)|(d & w2 & H2 & H)]; [rewrite H in O2; split; [by etransitivity|done]|].
  rewrite H2 in O2. assert (O : protocol w0 w w2) by (by etransitivity).
  destruct r as [[]|e].
  - apply require_true in H as [Hd ->]. split; [done|]. intros _.
    eapply (call_evidence _ (manifest_deleted a image) _ _ w0) in H2 as [_ E2]; [done|done|by etransitivity|done].
  - unfold Finishing.confirmed, require in H. injection H as _ <-. by split.
Qed.

Lemma manifests_step w0 a i refs dl : forall images w r w', follows w0 w -> chosen identifier a w0 w ->
  (forall image, In image images -> own_image a image w0 w) -> workers_gone a w0 w ->
  for_each images (remove_manifest call_helper a i refs dl) w = (r, w') ->
  protocol w0 w w' /\ (r = Ok tt -> Forall (fun image => answered "app.manifest.delete" (manifest_deleted a image) w0 w') images).
Proof.
  induction images as [|image images IH]; intros w r w' F Hread Hi Hgone H; simpl in H; [injection H as <- <-; by split|].
  apply any_step in H as [(e & -> & H)|([] & w1 & H1 & H)]; [apply (remove_manifest_step w0) in H as [O _]; [by split|done|done|apply Hi; by left|done]|].
  apply (remove_manifest_step w0) in H1 as [O1 A1]; [|done|done|apply Hi; by left|done]. specialize (A1 eq_refl). pose proof (obeys_follows _ _ _ O1) as F1.
  apply IH in H as [O2 A2]; [|by etransitivity|by eapply once_later| |by eapply workers_later].
  2: { intros x Hx. eapply once_later; [exact F1|]. apply Hi. by right. }
  pose proof (obeys_follows _ _ _ O2) as F2. split; [by etransitivity|]. intros E.
  constructor; [by eapply answered_later|by apply A2].
Qed.

Lemma remove_manifests_step w0 a i refs dl w r w' : follows w0 w -> chosen identifier a w0 w -> workers_gone a w0 w ->
  remove_manifests call_helper a i refs dl w = (r, w') -> protocol w0 w w' /\ (r = Ok tt -> manifests_gone a w0 w').
Proof.
  intros F Hread Hgone H. unfold remove_manifests in H. apply any_step in H as [(e & -> & H)|(images & w1 & H1 & H)].
  { split; [exact (kept _ _ _ _ _ (obeys_db _ _) H)|done]. }
  pose proof (kept _ _ _ _ _ (obeys_db (deleting w0) _) H1) as O1. pose proof (ran_db _ _ _ _ H1) as F1.
  assert (Hi : forall image, In image images -> own_image a image w0 w1).
  { intros x Hx. exists w. split_and!; [done|done|]. exists images. by rewrite H1. }
  apply any_step in H as [(e & -> & H)|([] & w2 & H2 & H)].
  { apply (manifests_step w0) in H as [O2 _]; [|by etransitivity|by eapply once_later|done|by eapply workers_later].
    split; [by etransitivity|done]. }
  apply (manifests_step w0) in H2 as [O2 A2]; [|by etransitivity|by eapply once_later|done|by eapply workers_later].
  specialize (A2 eq_refl). pose proof (obeys_follows _ _ _ O2) as F2.
  set (rest := (_ ← checkpoint _ _ _; _)) in H. assert (P : preserves (protocol w0) rest) by (unfold rest; preserving).
  pose proof (kept _ _ _ _ _ P H) as O3. split; [by do 2 (etransitivity; [eassumption|])|]. intros _.
  eapply manifests_later; [by eapply obeys_follows|]. exists images. split; [|done]. exists w.
  split_and!; [done|by etransitivity|by rewrite H1].
Qed.

(** ** The whole deletion *)

Lemma withdraw_clears a i refs dl : preserves clears (withdraw_workload call_helper a i refs dl).
Proof.
  unfold withdraw_workload. apply preserves_bind; [apply _|apply clears_still; by evolve|]. intros [d|]; [|by apply preserves_ret; apply _].
  apply preserves_bind; [apply _|apply preserves_lift; apply _|]. intros job.
  apply preserves_bind; [apply _|apply clears_checkpoint|]. intros _.
  apply preserves_bind; [apply _| |intros; apply preserves_require; apply _].
  intros w. rewrite plain_helper by done. apply clears_helper.
Qed.

Lemma operation_clears a kind refs dl i : preserves clears (_operation a kind refs dl i).
Proof.
  unfold _operation, wall_deadline, timestamp_after.
  repeat first [progress preserving | apply clears_monotonic | apply clears_still; by evolve
    | apply clears_renew | apply clears_begin
    | apply preserves_lift; apply _ | apply preserves_require; apply _ | apply preserves_raise; apply _ | apply preserves_ret; apply _].
Qed.

Lemma current_clears platform policy a dl : preserves clears (current_application platform policy a dl).
Proof.
  unfold current_application, remaining_seconds.
  repeat first [progress preserving | apply clears_monotonic | apply clears_still; by evolve
    | apply (project_reads clears clears_monotonic); intros; intros ?; by apply just_ask
    | apply preserves_lift; apply _ | apply preserves_require; apply _ | apply preserves_raise; apply _ | apply preserves_ret; apply _].
Qed.


(** What a completed deletion leaves in the database *)
Definition tombstoned_app (a : Application) (operation_id : string) (d : Db) : Prop :=
  (exists t, In t (application_slug_tombstones d) /\ ts_slug t = app_slug a)
  /\ (forall x, In x (applications d) -> app_application_id x = app_application_id a ->
        app_desired_running x = false /\ app_worker_server_id x = None)
  /\ (forall k, In k (environment_keys d) -> ek_application_id k <> app_application_id a)
  /\ exists op, operation_at operation_id d = Some op /\ op_st op = op_succeeded /\ op_phase op = "tombstoned"%string.

Definition taken_apart (a : Application) (w0 w : World) : Prop :=
  chosen identifier a w0 w /\ workers_gone a w0 w /\ manifests_gone a w0 w.

Lemma delete_body_step platform w0 fuel a i refs b dl w r w' : clears w0 w -> chosen identifier a w0 w ->
  delete_body platform call_helper fuel a i refs b dl w = (r, w') ->
  protocol w0 w w' /\ (r = Ok (Some tt) -> taken_apart a w0 w' /\ (exists w1 c,
    complete_application_deletion (app_application_id a) i None (w_db w1) = (Ok tt, c) /\ store c = store (w_db w'))).
Proof.
  intros C Hread H. pose proof (clears_follows _ _ C) as F. unfold delete_body in H. pose proof (withdraw_obeys w0 a i refs dl w F Hread) as O1.
  apply any_step in H as [(e & -> & H)|(? & w1 & H1 & H)]; [rewrite H in O1; by split|].
  pose proof (kept _ _ _ _ _ (withdraw_clears _ _ _ _) H1) as C1. rewrite H1 in O1. clear H1. rename O1 into H1. cbn [snd] in H1.
  apply any_step in H as [(e & -> & H)|(? & w2 & H2 & H)].
  { apply (kept _ _ _ _ _ (obeys_db (deleting w0) _)) in H. split; [by etransitivity|done]. }
  pose proof (kept _ _ _ _ _ (clears_checkpoint _ _ _) H2) as C2. apply (kept _ _ _ _ _ (obeys_db (deleting w0) _)) in H2.
  assert (O2 : protocol w0 w w2) by (by etransitivity). pose proof (obeys_follows _ _ _ O2) as F2.
  pose proof (remove_storage_obeys w0 a i refs dl fuel b w2 (transitivity F F2) (once_later _ _ _ _ F2 Hread)) as O3.
  apply any_step in H as [(e & -> & H)|(o & w3 & H3 & H)]; [rewrite H in O3; split; [by etransitivity|done]|].
  rewrite H3 in O3. cbn [snd] in O3.
  assert (O03 : protocol w0 w w3) by (by etransitivity). destruct o as [[]|]; [|injection H as <- <-; by split].
  apply (emptied _ _ _ _ w0) in H3 as [F3 Hs]; [|exact (transitivity C (transitivity C1 C2))].
  assert (R3 : chosen identifier a w0 w3) by (eapply once_later; [by eapply obeys_follows|done]).
  assert (F03 : follows w0 w3) by (etransitivity; [exact F|by eapply obeys_follows]).
  apply any_step in H as [(e & -> & H)|([] & w4 & H4 & H)].
  { apply (remove_runtime_step w0) in H as [O4 _]; try done. split; [etransitivity; [exact O03|done]|done]. }
  apply (remove_runtime_step w0) in H4 as [O4 E4]; try done. destruct (E4 eq_refl) as [P4 K4]. pose proof (obeys_follows _ _ _ O4) as F4.
  assert (R4 : chosen identifier a w0 w4) by (by eapply once_later). assert (S4 : storage_gone a w0 w4) by (by eapply once_later).
  assert (F04 : follows w0 w4) by (etransitivity; [exact F03|done]).
  assert (O04 : protocol w0 w w4) by (etransitivity; [exact O03|done]).
  apply any_step in H as [(e & -> & H)|([] & w5 & H5 & H)].
  { apply (remove_workers_step platform w0) in H as [O5 _]; try done. split; [etransitivity; [exact O04|done]|done]. }
  apply (remove_workers_step platform w0) in H5 as [O5 G5]; try done. specialize (G5 eq_refl). pose proof (obeys_follows _ _ _ O5) as F5.
  assert (R5 : chosen identifier a w0 w5) by (by eapply once_later). assert (F05 : follows w0 w5) by (etransitivity; [exact F04|done]).
  assert (O05 : protocol w0 w w5) by (etransitivity; [exact O04|done]).
  apply any_step in H as [(e & -> & H)|([] & w6 & H6 & H)].
  { apply (remove_manifests_step w0) in H as [O6 _]; try done. split; [etransitivity; [exact O05|done]|done]. }
  apply (remove_manifests_step w0) in H6 as [O6 G6]; try done. specialize (G6 eq_refl). pose proof (obeys_follows _ _ _ O6) as F6.
  assert (O06 : protocol w0 w w6) by (etransitivity; [exact O05|done]).
  apply any_step in H as [(e & -> & H)|([] & w7 & H7 & H)].
  { split; [|done]. etransitivity; [exact O06|]. exact (kept _ _ _ _ _ (obeys_db _ _) H). }
  injection H as <- <-. pose proof (kept _ _ _ _ _ (obeys_db (deleting w0) _) H7) as O7. pose proof (ran_db _ _ _ _ H7) as F7.
  split; [etransitivity; [exact O06|done]|]. intros _. apply db_step in H7. split; [|by exists (interfere w6), (w_db w7)].
  assert (F57 : follows w5 w7) by (etransitivity; [exact F6|done]).
  split_and!; [exact (once_later _ _ _ _ F57 R5)|exact (workers_later _ _ _ _ F57 G5)|exact (manifests_later _ _ _ _ F7 G6)].
Qed.

Lemma journaled_obeys w0 a kind refs dl i : preserves (protocol w0) (_operation a kind refs dl i).
Proof. unfold _operation, wall_deadline. preserving. Qed.

Lemma recover_obeys_deleting w0 i e b : preserves (protocol w0) (recover_running i e b).
Proof. unfold recover_running. preserving. Qed.

Lemma current_obeys w0 platform policy a dl : preserves (protocol w0) (current_application platform policy a dl).
Proof.
  unfold current_application, remaining_seconds. repeat first [progress preserving
    | apply (project_reads (protocol w0) (obeys_monotonic _)); intros; by apply obeys_command].
Qed.

Lemma current_read platform policy application dl w a w1 w0 : follows w0 w ->
  once (fun u => (db (get_application identifier) u).1 = Ok (Some application)) w0 w ->
  current_application platform policy application dl w = (Ok a, w1) -> chosen identifier a w0 w1.
Proof.
  intros F Hi H. pose proof (kept _ _ _ _ _ (current_obeys w0 _ _ _ _) H) as O. unfold current_application in H.
  apply bind_ok in H as (t & wa & H1 & H). apply bind_ok in H as (? & wb & H2 & H).
  assert (F2 : follows w wb).
  { etransitivity; [refine (kept follows _ _ _ _ _ H1)|refine (kept follows _ _ _ _ _ H2)].
    - unfold remaining_seconds. preserving.
    - apply (project_reads follows follows_monotonic_read). intros. apply preserves_command, follows_asked. }
  apply bind_ok in H as (o & wc & H3 & H). destruct o as [found|]; [|done]. injection H as -> <-.
  exists wb. split_and!; [by etransitivity|by eapply ran_db|]. exists application. split; [by eapply once_later|by rewrite H3].
Qed.

Definition failing {A} (i : string) (e : error) : Svc A := _ ← recover_running i e false; raise e.

Lemma failing_obeys {A} w0 i e : preserves (protocol w0) (failing i e : Svc A).
Proof. apply preserves_bind; [apply _|apply recover_obeys_deleting|]. intros ?. apply preserves_raise; apply _. Qed.

(** A deletion under its lock *)
Lemma delete_locked_step platform policy fuel application confirmation request_id dl w r w' w0 : clears w0 w ->
  once (fun u => (db (get_application identifier) u).1 = Ok (Some application)) w0 w ->
  delete_locked platform policy call_helper fuel application confirmation request_id dl w = (r, w') ->
  protocol w0 w w' /\ forall res, r = Ok (Some res) -> exists a i, res = {| ar_application_id := app_application_id a; ar_slug := app_slug a |}
    /\ taken_apart a w0 w' /\ (exists w1 c,
      complete_application_deletion (app_application_id a) i None (w_db w1) = (Ok tt, c) /\ store c = store (w_db w')).
Proof.
  intros C Hi H. pose proof (clears_follows _ _ C) as F. unfold delete_locked in H. apply any_step in H as [(e & -> & H)|(a & w1 & H1 & H)].
  { split; [exact (kept _ _ _ _ _ (current_obeys w0 _ _ _ _) H)|done]. }
  pose proof (kept _ _ _ _ _ (current_obeys w0 _ _ _ _) H1) as O1. pose proof (kept _ _ _ _ _ (current_clears _ _ _ _) H1) as C1. apply (current_read _ _ _ _ _ _ _ w0 F Hi) in H1.
  cbv zeta in H. apply any_step in H as [(e & -> & H)|(started & w2 & H2 & H)].
  { apply (kept _ _ _ _ _ (journaled_obeys w0 _ _ _ _ _)) in H. split; [by etransitivity|done]. }
  pose proof (kept _ _ _ _ _ (operation_clears _ _ _ _ _) H2) as C2. apply (kept _ _ _ _ _ (journaled_obeys w0 _ _ _ _ _)) in H2.
  assert (C02 : clears w0 w2) by exact (transitivity C (transitivity C1 C2)).
  assert (O2 : protocol w0 w w2) by (by etransitivity). clear O1.
  assert (F2 : follows w0 w2) by (etransitivity; [exact F|by eapply obeys_follows]).
  assert (R2 : chosen identifier a w0 w2) by (refine (once_later _ _ _ _ _ H1); eapply obeys_follows; exact H2).
  set (i := op_operation_id started.1) in *.
  apply any_step in H as [(e & -> & H)|(done_ & w3 & H3 & H)].
  - split; [|done]. etransitivity; [exact O2|]. unfold recovering, catch in H.
    destruct (delete_body _ _ _ _ _ _ _ _ _) as [[x|e1] w3] eqn:E; [done|].
    apply (delete_body_step _ w0) in E as [O3 _]; [|done..]. etransitivity; [exact O3|].
    exact (kept (protocol w0) (failing i e1) _ _ _ (failing_obeys w0 i e1) H).
  - injection H as <- <-. unfold recovering, catch in H3.
    destruct (delete_body _ _ _ _ _ _ _ _ _) as [[x|e1] w4] eqn:E.
    + injection H3 as -> ->. apply (delete_body_step _ w0) in E as [O3 G]; [|done..].
      split; [by etransitivity|]. intros res Hres. destruct done_ as [[]|]; [|done]. injection Hres as <-.
      destruct (G eq_refl) as [G1 G2]. by exists a, i.
    + apply bind_ok in H3 as (? & ? & _ & H3). done.
Qed.

Lemma deadline_runs seconds w : exists d w', operation_deadline seconds w = (Ok d, w') /\ follows w w'
  /\ w_requests w' = w_requests w /\ w_db w' = w_db w.
Proof. eexists _, _. split; [reflexivity|]. split_and!; [apply follows_monotonic_read|done|done]. Qed.

Lemma delete_step platform policy fuel confirmation request_id w r w' :
  delete platform policy call_helper fuel identifier confirmation request_id w = (r, w') ->
  protocol w w w' /\ forall res, r = Ok (Some res) -> exists a i, res = {| ar_application_id := app_application_id a; ar_slug := app_slug a |}
    /\ taken_apart a w w' /\ (exists w1 c,
      complete_application_deletion (app_application_id a) i None (w_db w1) = (Ok tt, c) /\ store c = store (w_db w')).
Proof.
  intros H. unfold delete, under_lock in H. apply any_step in H as [(e & -> & H)|(o & w1 & H1 & H)].
  { split; [exact (kept _ _ _ _ _ (obeys_db _ _) H)|done]. }
  pose proof H1 as Hx. assert (C1 : clears w w1) by (refine (kept clears _ _ _ _ _ H1); apply clears_still; by evolve). apply (kept _ _ _ _ _ (obeys_db (deleting w) _)) in H1. destruct o as [x|]; [|by injection H as <- <-].
  apply read_seen in Hx as [_ Hx]. destruct (Hx w ltac:(reflexivity)) as [_ Hx']. clear Hx.
  pass H as (_ & H) by (by split). destruct (deadline_runs (py_process_seconds policy) w1) as (d & w2 & E & F2 & R2 & _).
  assert (C2 : clears w1 w2) by (refine (kept clears _ _ _ _ _ E); unfold operation_deadline; preserving; apply clears_monotonic).
  rewrite (bind_eq _ _ _ _ _ E) in H. clear E. assert (O2 : protocol w w w2) by (etransitivity; [exact H1|by apply obeys_silent]).
  unfold lock in H. set (wa := asked _ w2) in H. assert (Oa : protocol w w wa) by (etransitivity; [exact O2|by apply obeys_ask]).
  assert (Ca : clears w1 wa) by (etransitivity; [exact C2|by apply just_ask]).
  destruct (w_lock _ _); [|by injection H as <- <-]. destruct (delete_locked _ _ _ _ _ _ _ _ _) as [r1 w3] eqn:E.
  injection H as <- <-. apply (delete_locked_step _ _ _ _ _ _ _ _ _ _ w) in E as [O3 G]; [|exact (transitivity C1 Ca)|].
  2: { eapply once_later; [|exact Hx']. etransitivity; [exact F2|apply follows_asked]. }
  split; [do 2 (etransitivity; [eassumption|]); by apply obeys_ask|]. intros res Hr. destruct (G res Hr) as (a & i & G1 & (G2 & G3 & G4) & G5).
  exists a, i. pose proof (follows_asked (Free (app_scope x)) w3) as F3.
  split_and!; [done| |done]. split_and!; [exact (once_later _ _ _ _ F3 G2)|exact (workers_later _ _ _ _ F3 G3)|exact (manifests_later _ _ _ _ F3 G4)].
Qed.

End Deletion.

Abbreviation caller := (app_helper call_helper).


Lemma tombstoned_store a i w1 c :
  complete_application_deletion (app_application_id a) i None (w_db w1) = (Ok tt, c) ->
  exists x, app_application_id x = app_application_id a /\ tombstoned_app x i (store c).
Proof.
  intros (now & x & tombs & Hready & _ & Hx & Htombs & Ht & Henv & Happs & _ & Hops)%deletion_store.
  apply find_some_in in Hx as [_ Hid%String.eqb_eq]. exists x. split; [done|]. split_and!.
  - rewrite Ht. destruct Htombs as [Hn|(_ & t & Hn & Hs)]; [by eexists|by exists t].
  - intros y Hy E. rewrite Happs in Hy. apply in_apply_where in Hy as (y0 & _ & ->).
    unfold app_is in *. destruct (String.eqb_spec (app_application_id y0) (app_application_id a)); [done|congruence].
  - intros k Hk E. rewrite Henv in Hk. apply filter_In in Hk as [_ Hk]. by rewrite E, Hid, String.eqb_refl in Hk.
  - unfold operation_at. rewrite Hops, find_updated by done.
    destruct (List.find _ (operations _)) as [op|] eqn:Eop; [|done].
    apply find_some_in in Eop as [_ Eop]. eexists. split; [done|]. simpl in Hready.
    rewrite !andb_true_iff in Hready. destruct Hready as [[[_ Hun] _] _]. unfold live. by rewrite Eop, Hun.
Qed.


(** *** The loop over the resources ends *)

(** Enough turns remove every resource. *)
Lemma storage_ends a i refs dl : forall fuel b w r w', none_added w -> (size (resource_keys (store (w_db w))) < fuel)%nat ->
  remove_storage call_helper fuel a i refs b dl w = (r, w') -> r <> Ok None.
Proof.
  induction fuel as [|n IH]; intros b w r w' N Hn H; [lia|]. cbn [remove_storage] in H.
  apply any_step in H as [(e & -> & H)|(rows & w1 & H1 & H)]; [done|].
  destruct (clears_fewer _ _ (kept _ _ _ _ _ (clears_still _ (listed_still _)) H1) N) as [N1 K1%subseteq_size].
  apply listed_rows in H1 as [Hrows _]. destruct rows as [|x rest]; [by injection H as <- <-|].
  apply any_step in H as [(e & -> & H)|(? & w2 & H2 & H)]; [done|]. apply resource_removed in H2 as [C2 Hk]. specialize (Hk N1).
  destruct (clears_fewer _ _ C2 N1) as [N2 K2]. eapply IH; [exact N2| |exact H].
  assert (Hx : (app_application_id a, mr_resource_type x, mr_resource_name x) ∈ resource_keys (store (w_db w1))).
  { assert (Hx : In x (app_rows (app_application_id a) (store (w_db w1)))) by (eapply Permutation_in; [exact Hrows|by left]).
    apply filter_In in Hx as [Hx <-%String.eqb_eq]. unfold resource_keys. rewrite elem_of_list_to_set, list_elem_of_In.
    by apply (in_map resource_key). }
  assert (K3 : resource_keys (store (w_db w2)) ⊂ resource_keys (store (w_db w1))) by set_solver.
  apply subset_size in K3. lia.
Qed.

Lemma clears_bounded {A} (m : Svc A) w r w' : preserves clears m -> m w = (r, w') -> none_added w ->
  none_added w' /\ (size (resource_keys (store (w_db w'))) <= size (resource_keys (store (w_db w))))%nat.
Proof. intros Hm H N. destruct (clears_fewer _ _ (kept _ _ _ _ _ Hm H) N) as [N' K]. split; [done|by apply subseteq_size]. Qed.

Lemma body_ends platform fuel a i refs b dl w r w' : none_added w -> (size (resource_keys (store (w_db w))) < fuel)%nat ->
  delete_body platform call_helper fuel a i refs b dl w = (r, w') -> r <> Ok None.
Proof.
  intros N Hn H ->. unfold delete_body in H.
  apply bind_ok in H as (? & w1 & H1 & H). apply clears_bounded in H1 as [N1 L1]; [|apply withdraw_clears|done].
  apply bind_ok in H as (? & w2 & H2 & H). apply clears_bounded in H2 as [N2 L2]; [|apply clears_checkpoint|done].
  apply bind_ok in H as (em & w3 & H3 & H). apply storage_ends in H3; [|done|lia]. destruct em as [[]|]; [|done].
  do 4 (apply bind_ok in H as (? & ? & _ & H)). done.
Qed.

Lemma locked_ends platform policy fuel application confirmation i dl w r w' : none_added w ->
  (size (resource_keys (store (w_db w))) < fuel)%nat ->
  delete_locked platform policy call_helper fuel application confirmation i dl w = (r, w') -> r <> Ok None.
Proof.
  intros N Hn H ->. unfold delete_locked in H. apply bind_ok in H as (a & w1 & H1 & H).
  apply clears_bounded in H1 as [N1 L1]; [|apply current_clears|done]. cbv zeta in H.
  apply bind_ok in H as (started & w2 & H2 & H). apply clears_bounded in H2 as [N2 L2]; [|apply operation_clears|done].
  apply bind_ok in H as (o & w3 & H3 & H). destruct o as [?|]; [done|].
  unfold recovering, catch in H3. destruct (delete_body _ _ _ _ _ _ _ _ _) as [[y|e] w4] eqn:E.
  - injection H3 as -> ->. apply body_ends in E; [done|done|lia].
  - by apply bind_ok in H3 as (? & ? & _ & H3).
Qed.

Lemma keys_bounded d : (size (resource_keys d) <= length (managed_resources d))%nat.
Proof.
  unfold resource_keys. rewrite <- (length_map resource_key). generalize (map resource_key (managed_resources d)) as l.
  induction l as [|x l IH]; [by rewrite list_to_set_nil, size_empty|]. rewrite list_to_set_cons, size_union_alt, size_singleton.
  simpl. apply le_n_S. etransitivity; [|exact IH]. apply subseteq_size. set_solver.
Qed.

(** C14. A deletion's loop over the application's resources ends: while no other
    thread registers a resource, as many turns as there are resources, and one
    more, are enough, whatever the helper answers and wherever the call fails. *)
Theorem deletion_terminates platform policy fuel identifier confirmation request_id w r w' :
  none_added w -> (length (managed_resources (store (w_db w))) < fuel)%nat ->
  delete platform policy call_helper fuel identifier confirmation request_id w = (r, w') -> r <> Ok None.
Proof.
  intros N Hn H. pose proof (keys_bounded (store (w_db w))) as Hb.
  unfold delete, under_lock in H. apply any_step in H as [(e & -> & H)|(o & w1 & H1 & H)]; [done|].
  apply clears_bounded in H1 as [N1 L1]; [|apply clears_still; by evolve|done].
  destruct o as [x|]; [|by injection H as <- <-]. pass H as (_ & H) by done.
  destruct (deadline_runs (py_process_seconds policy) w1) as (d & w2 & E & F2 & _ & R2). rewrite (bind_eq _ _ _ _ _ E) in H. clear E.
  unfold lock in H. destruct (w_lock _ _); [|by injection H as <- <-].
  destruct (delete_locked _ _ _ _ _ _ _ _ _) as [r1 w3] eqn:E. injection H as <- _.
  apply locked_ends in E; [done| |].
  { eapply none_added_later; [|exact N1]. etransitivity; [exact F2|apply follows_asked]. }
  simpl. rewrite R2. lia.
Qed.

(** *** Taking an application apart *)

Definition lifecycle_answer (l : list Request) : result dict :=
  match l with
  | Helper "storage.postgres.remove" args _ :: _ =>
      if is_true (refs_get "preflight" args) then Ok [("preflightAccepted", JBool true)]
      else Ok [("confirmedAbsent", JBool true); ("environmentRemoved", JBool true)]
  | Helper "storage.instances.network" _ _ :: _ => Ok [("applied", JBool true)]
  | Helper "app.source.key" _ _ :: _ => Ok [("present", JBool false)]
  | Helper "app.restart" _ _ :: _ => Ok [("restarted", JBool true)]
  | Helper _ _ _ :: _ => Ok [("absent", JBool true); ("jobAbsent", JBool true); ("variableAbsent", JBool true)]
  | _ => Raise (HelperError "unknown")
  end.

Definition lifecycle_world (d : Db) : World := {|
  w_db := Conn d false (fun n => 1767225600000000 + Z.of_nat n) (fun _ => demo_marker) 0;
  w_others := fun _ d => d; w_steps := 0; w_monotonic := fun n => Z.of_nat n; w_readings := 0;
  w_helper := lifecycle_answer; w_command := port_cloud; w_http := fun _ => Raise OSError;
  w_lock := fun _ => true; w_requests := [] |}.

(** The hosted application with a database of its own, accepted on a rendered job *)
Definition settled_db : Db := Eval vm_compute in store ((put_managed_resource demo_database None (after_app [
  Journal (Claim demo_id demo_digest None); PutApplication hosted_app None; CreateAttempt demo_attempt None;
  CheckpointAttempt demo_other "succeeded" accepted_evidence None])).2).

Definition delete_demo := delete demo_platform demo_policy call_helper 2 demo_id "demo-app" (Some server_id)
  (lifecycle_world settled_db).

Definition actions_asked (w : World) : list string := map action_of (w_requests w).

Lemma demo_deleted : outcome actions_asked delete_demo
  = (Ok (Some {| ar_application_id := demo_id; ar_slug := "demo-app" |}),
     [""; "app.manifest.delete"; "app.worker.delete"; "app.source.key"; "app.remove"; "storage.postgres.remove";
      "storage.postgres.remove"; "app.remove"; ""; ""]%string).
Proof. vm_compute. reflexivity. Qed.



(** One resource: two turns are enough, one is not. *)
Lemma deletion_terminates_witness :
  length (managed_resources settled_db) = 1%nat /\ delete_demo.1 <> Ok None
  /\ (delete demo_platform demo_policy call_helper 1 demo_id "demo-app" (Some server_id) (lifecycle_world settled_db)).1 = Ok None.
Proof.
  split_and!; [vm_compute; reflexivity| |vm_compute; reflexivity].
  apply (deletion_terminates demo_platform demo_policy 2 demo_id "demo-app" (Some server_id) (lifecycle_world settled_db) _ delete_demo.2).
  - intros n d. reflexivity.
  - assert (E : length (managed_resources (store (w_db (lifecycle_world settled_db)))) = 1%nat) by (vm_compute; reflexivity).
    rewrite E. lia.
  - unfold delete_demo. apply surjective_pairing.
Defined.

(** ** Restarting an application *)

Definition row_marked (i : string) (P : Operation -> Prop) (w : World) : Prop :=
  exists o, In o (operations (store (w_db w))) /\ op_operation_id o = i /\ P o.

Lemma live_row_updated i f c u c' : update_live i f c = (Ok u, c') ->
  exists o, In o (operations (store c)) /\ op_operation_id o = i /\ In (f o) (operations (store c')).
Proof.
  unfold update_live. intros H. apply bind_ok in H as (n & c1 & (-> & Hn & _)%update_ok & H).
  destruct (Nat.eqb_spec n 1) as [->|]; [|done]. injection H as _ <-. simpl in *.
  destruct (List.filter _ _) as [|o l] eqn:E in Hn; [simpl in Hn; lia|]. assert (Ho : In o (o :: l)) by by left.
  rewrite <- E in Ho. apply filter_In in Ho as [Hin Hl]. exists o. split; [done|].
  split; [unfold live in Hl; by apply andb_true_iff in Hl as [Hl%String.eqb_eq _]|].
  apply in_apply_where. exists o. by rewrite Hl.
Qed.

Lemma reads_again i : reads (get_operation i ≫= asserted).
Proof. apply reads_bind; [|intros o]; auto with reads. Qed.

Lemma checkpointed i p refs w o w' : checkpoint i p refs w = (Ok o, w') -> row_marked i (fun o => op_phase o = p) w'.
Proof.
  unfold checkpoint, row_marked. intros H%db_step. unfold checkpoint_operation in H.
  apply bind_ok in H as (? & ? & [_ ->]%lift_ok & H). apply bind_ok in H as (q & ? & [Hq ->]%lift_ok & H).
  apply matching_ok in Hq as [[= <-] _].
  do 3 (apply bind_ok in H as (? & ? & [_ ->]%lift_ok & H)). apply bind_ok in H as (? & c & H1 & H).
  apply (reads_ok _ _ _ _ (reads_again i)) in H as [_ ->].
  apply transaction_ok in H1 as (c1 & H1 & -> & _). apply bind_ok in H1 as (encoded & c2 & _ & H1).
  apply bind_ok in H1 as (now & c3 & _ & H1). apply live_row_updated in H1 as (o0 & _ & Hi & Hin). by eexists.
Qed.

Lemma finish_marked i st e p u n c o c' : _finish_operation i st e p u n c = (Ok o, c') ->
  exists o', In o' (operations (store c')) /\ op_operation_id o' = i /\ op_st o' = st.
Proof.
  unfold _finish_operation. intros H. apply bind_ok in H as (? & ? & [_ ->]%lift_ok & H). apply bind_ok in H as (now & c1 & _ & H).
  cbv zeta in H. do 2 (apply bind_ok in H as (? & ? & [_ ->]%lift_ok & H)). apply bind_ok in H as (? & c2 & H1 & H).
  apply (reads_ok _ _ _ _ (reads_again i)) in H as [_ ->].
  apply transaction_ok in H1 as (c3 & H1 & -> & _). apply live_row_updated in H1 as (o0 & _ & Hi & Hin). by eexists.
Qed.

Abbreviation restarts := "app.restart"%string.

(** No restart since [w0] *)
Definition no_restart : World -> World -> Prop := asks (fun r => action_of r <> restarts).

(** The operation the restart belongs to has not requested one before. *)
Definition first_request (i : string) (u : World) : Prop :=
  exists a refs dl request started, (_operation a "app.restart" refs dl request u).1 = Ok started
    /\ op_operation_id started.1 = i /\ started.2 && String.eqb (op_phase started.1) "restart_requested" = false.

(** The job of the deployment read as accepted, by its exact identity *)
Definition names_accepted (identifier : string) (args : dict) (w0 w : World) : Prop :=
  exists a d job, row_read a w0 w /\ once (fun u => (db (get_deployment identifier) u).1 = Ok (Some d)) w0 w
    /\ nomad_job_id (de_nomad_job d) (app_slug a) = Ok job
    /\ args = exact_job (app_slug a) (JStr job) (JStr (de_nomad_job_sha256 d)) (JStr (de_image_digest d)).

(** A restart is asked for exactly the accepted job, once, with the request on
    record. *)
Definition restarting (identifier : string) (w0 w : World) (r : Request) : Prop :=
  match r with
  | Helper action args _ =>
      action = restarts /\ names_accepted identifier args w0 w /\ no_restart w0 w
      /\ exists i, once (first_request i) w0 w /\ row_marked i (fun o => op_phase o = "restart_requested"%string) w
  | Acquire _ | Free _ => True
  | _ => False
  end.

(** The outcome is on record: it was confirmed, or the operation has failed. *)
Definition restart_settled (w0 w : World) : Prop :=
  (exists i, row_marked i (fun o => op_st o = op_succeeded) w)
    /\ answered restarts (fun _ answer => is_true (refs_get "restarted" answer) = true) w0 w
  \/ (exists i, row_marked i (fun o => op_st o = op_failed) w) /\ no_restart w0 w.

Lemma marked_succeeded i u w o w' : db (mark_succeeded i u None) w = (Ok o, w') -> row_marked i (fun o => op_st o = op_succeeded) w'.
Proof. intros H%db_step. by eapply finish_marked. Qed.

Lemma marked_failed i e u w o w' : db (mark_failed i e u None) w = (Ok o, w') -> row_marked i (fun o => op_st o = op_failed) w'.
Proof.
  intros H%db_step. unfold mark_failed in H. destruct (negb _); [done|]. by eapply finish_marked.
Qed.

Lemma bind_eq_left {A B} (m m' : Svc A) (f : A -> Svc B) w : m w = m' w -> (m ≫= f) w = (m' ≫= f) w.
Proof. unfold mbind, M_bind. by intros ->. Qed.

Lemma request_restart_step identifier w0 a d job i dl w r w' : follows w0 w -> no_restart w0 w ->
  names_accepted identifier (exact_job (app_slug a) (JStr job) (JStr (de_nomad_job_sha256 d)) (JStr (de_image_digest d))) w0 w -> once (first_request i) w0 w ->
  row_marked i (fun o => op_phase o = "restart_requested"%string) w ->
  request_restart call_helper a d job i dl w = (r, w') ->
  obeys (restarting identifier w0) w w' /\ (r = Ok tt -> restart_settled w0 w').
Proof.
  intros F Hn Hargs Hfirst Hmarked H. unfold request_restart, catch in H. set (args := exact_job _ _ _ _) in *.
  set (wa := asked (Helper restarts args dl) w).
  assert (O : obeys (restarting identifier w0) w wa) by (apply obeys_ask; split_and!; [done|done|done|by exists i]).
  set (m := (_ ← caller restarts args dl; _)) in H.
  assert (Om : obeys (restarting identifier w0) w (m w).2 /\ forall w1, m w = (Ok tt, w1) -> restart_settled w0 w1).
  { unfold m. rewrite (bind_eq_left _ _ _ _ (plain_helper restarts args dl w eq_refl)). split.
    - apply obeys_then; [exact O|]. intros answer w1 H1. next K. next K1. reflexivity.
    - intros w1 H1. apply bind_ok in H1 as (answer & w2 & H2 & H1). apply bind_ok in H1 as (? & ? & [Ha ->]%require_true & H1).
      apply bind_ok in H1 as (? & w3 & H3 & H1). injection H1 as <-. left. split; [exists i; by eapply marked_succeeded|].
      eapply answered_later; [by eapply ran_db|]. by eapply answered_call. }
  destruct (m w) as [[[]|e] w1]; [injection H as <- <-; split; [apply Om|intros _; by apply (proj2 Om)]|].
  destruct Om as [Om _]. apply any_step in H as [(e1 & -> & H)|(? & w3 & H3 & H)].
  - split; [|done]. etransitivity; [exact Om|]. exact (kept _ _ _ _ _ (obeys_db _ _) H).
  - injection H as <- <-. split; [|done]. etransitivity; [exact Om|]. exact (kept _ _ _ _ _ (obeys_db _ _) H3).
Qed.

Lemma operation_quiet a kind refs dl i : preserves quietly (_operation a kind refs dl i).
Proof.
  pose proof quietly_monotonic. pose proof (fun A => @quietly_db A). unfold _operation, wall_deadline. preserving; apply quietly_db.
Qed.

Lemma quiet_no_restart w0 w w' : quietly w w' -> no_restart w0 w -> no_restart w0 w'.
Proof. intros [_ E] (l & H1 & H2). exists l. by rewrite E. Qed.

Lemma restart_locked_step identifier request_id dl w0 w r w' : follows w0 w -> no_restart w0 w ->
  restart_locked call_helper identifier request_id dl w = (r, w') ->
  obeys (restarting identifier w0) w w' /\ (r = Ok tt -> restart_settled w0 w').
Proof.
  intros F Hn H. unfold restart_locked in H.
  assert (Q : forall w1, quietly w w1 -> obeys (restarting identifier w0) w w1 /\ (forall e : error, Raise e = Ok tt -> restart_settled w0 w1))
    by (intros w1 Q; split; [by apply quiet_obeys|done]).
  apply any_step in H as [(e & -> & H%(kept _ _ _ _ _ (quietly_db _)))|(o & w1 & R1 & H)]; [by split; [apply Q|]|].
  pose proof (kept _ _ _ _ _ (quietly_db _) R1) as H1. destruct o as [a|]; [|injection H as <- <-; by split; [apply Q|]].
  pass H as (_ & H) by (by split; [apply Q|]).
  apply any_step in H as [(e & -> & H%(kept _ _ _ _ _ (quietly_db _)))|(d & w2 & R2 & H)].
  { split; [|done]. apply Q. by etransitivity. }
  pose proof (kept _ _ _ _ _ (quietly_db _) R2) as H2.
  assert (Q2 : quietly w w2) by (by etransitivity). destruct d as [d|]; [|injection H as <- <-; by split; [apply Q|]].
  pass H as (job & Hjob & H) by (by split; [apply Q|]). cbv zeta in H.
  apply any_step in H as [(e & -> & H%(kept _ _ _ _ _ (operation_quiet _ _ _ _ _)))|(started & w3 & H3 & H)].
  { split; [|done]. apply Q. by etransitivity. }
  pose proof (kept _ _ _ _ _ (operation_quiet _ _ _ _ _) H3) as Q3. assert (Q03 : quietly w w3) by (by etransitivity).
  destruct (started.2 && _) eqn:Er.
  - apply any_step in H as [(e & -> & H%(kept _ _ _ _ _ (quietly_db _)))|(x & w4 & H4 & H)].
    { split; [|done]. apply Q. by etransitivity. }
    injection H as <- <-. pose proof (kept _ _ _ _ _ (quietly_db _) H4) as Q4. assert (Q04 : quietly w w4) by (by etransitivity).
    split; [by apply Q|]. intros _. right. split; [eexists; by eapply marked_failed|by eapply quiet_no_restart].
  - apply any_step in H as [(e & -> & H%(kept _ _ _ _ _ (quietly_db _)))|(x & w4 & H4 & H)].
    { split; [|done]. apply Q. by etransitivity. }
    pose proof (kept _ _ _ _ _ (quietly_db _) H4) as Q4. assert (Q04 : quietly w w4) by (by etransitivity).
    apply (request_restart_step identifier w0) in H as [O G].
    + split; [|done]. etransitivity; [by apply Q|done].
    + etransitivity; [exact F|apply Q04].
    + by eapply quiet_no_restart.
    + apply read_seen in R1 as [_ R1]. specialize (proj1 (R1 w0 F)) as R1'. clear R1. rename R1' into R1. exists a, d, job. split_and!; [| |done|done].
      * refine (once_later _ _ _ _ _ R1). etransitivity; [apply H2|]. etransitivity; [apply Q3|apply Q4].
      * exists w1. split_and!; [etransitivity; [exact F|apply H1]|etransitivity; [apply H2|]; etransitivity; [apply Q3|apply Q4]|by rewrite R2].
    + exists w2. split_and!; [etransitivity; [exact F|apply Q2]|etransitivity; [apply Q3|apply Q4]|].
      eexists _, _, _, _, started. rewrite H3. by split_and!.
    + by eapply checkpointed.
Qed.


(** A restart, and the same request resumed after its answer was lost *)
Definition restart_demo := restart demo_policy call_helper demo_id server_id (lifecycle_world settled_db).
Definition lost_db : Db := Eval vm_compute in store ((checkpoint_operation server_id "restart_requested" None false None None None
  (begin_operation server_id "app.restart" ("app-" +:+ demo_id) "validated" "2027-01-01T00:00:00Z"
     [("application_id", JStr demo_id); ("job_id", JStr "demo-app"); ("job_sha256", JStr (sha256_hexdigest accepted_opening));
      ("image", JStr demo_image)] None (opened settled_db)).2).2).
Definition resumed_demo := restart demo_policy call_helper demo_id server_id (lifecycle_world lost_db).

