(* ===== verification/Storage.v ===== *)
(** * Managed storage: creating, verifying, rotating and removing
    (src/openstack_platform/controller/storage.py, storage_service.py)

    Each mutation works through the selected types of one named resource inside a
    journaled operation: the provider is asked through the helper, and what it
    confirmed is recorded before the next type.  An answer that does not confirm
    leaves the resource and the operation to recovery, and the same request goes
    on from the types the operation has completed. *)

From S2P Require Import Prelude Regex Json Clock Validation Runtime Sql Schema StorageCapacity Operations Sha256.
From S2P Require Import StorageContract Applications Resources NomadJobs Service Rollout StorageLimits OpenStack.
From S2P Require Import Finishing ApplicationService.

Record StorageResult := { sr_requested : list string; sr_completed : list string }.

Definition deadline_reached : error := StorageOperationError "storage operation deadline was reached".
Definition malformed_deadline : error := StorageOperationError "storage operation deadline is malformed".
Definition malformed_metadata : error := StorageOperationError "unfinished storage operation metadata is malformed".

(** The selected types, in the contract's order *)
Definition _selected (resource_types : list string) : result (list string) :=
  _ ← guard_else (forallb (one_of_words RESOURCE_TYPES) resource_types)
        (ValidationError "storage type must be postgres, mongo, or s3");
  _ ← guard_else (negb (Nat.eqb (length resource_types) 0)) (ValidationError "select at least one storage type");
  Ok (List.filter (one_of_words resource_types) RESOURCE_TYPES).

(** [_resources(...).get((resource_type, resource_name))] *)
Definition resource_at (resource_type name : string) (rows : list ManagedResource) : option ManagedResource :=
  List.find (fun r => String.eqb (mr_resource_type r) resource_type && String.eqb (mr_resource_name r) name) rows.

(** Python's [s[:limit]] and [s.rstrip("-")] *)
Definition first_chars (limit : Z) (s : string) : string :=
  String.substring 0 (Z.to_nat (if limit <? 0 then Z.of_nat (String.length s) + limit else limit)) s.

Definition no_hyphens (s : string) : string := concat_all (split_on "-" s).

Fixpoint drop_hyphens (s : list ascii) : list ascii :=
  match s with a :: s' => if is_char "-" a then drop_hyphens s' else s | [] => [] end.

Definition rstrip_hyphens (s : string) : string :=
  string_of_list_ascii (rev (drop_hyphens (rev (list_ascii_of_string s)))).

(** A provider's identifier or name in an answer *)
Definition identity_text (v : json) (otherwise : error) : result string :=
  match v with
  | JStr s => if (0 <? String.length s)%nat && (String.length s <=? 253)%nat
                 && negb (existsb (fun a => code a =? 0) (list_ascii_of_string s)) then Ok s else Raise otherwise
  | _ => Raise otherwise
  end.

Definition invalid_identity : error := StorageOperationError "storage helper returned invalid provider identity".

Definition _identity_result (answer : dict) : result (string * string) :=
  id ← identity_text (refs_get "providerId" answer) invalid_identity;
  name ← identity_text (refs_get "providerName" answer) invalid_identity;
  _ ← guard_else (is_true (refs_get "verified" answer))
        (StorageOperationError "storage helper did not confirm scoped access");
  Ok (id, name).

Definition _rotation_identity_result (answer : dict) (r : ManagedResource) : result unit :=
  identity ← _identity_result answer;
  _ ← guard_else (bool_decide (Some identity.1 = mr_provider_id r) && String.eqb identity.2 (mr_provider_name r))
        (StorageOperationError "storage rotation provider identity drifted");
  _ ← identity_text (refs_get "credentialName" answer)
        (StorageOperationError "storage rotation credential identity was not confirmed");
  Ok tt.

Definition recorded_type (v : json) : result string :=
  match v with
  | JStr s => if one_of_words RESOURCE_TYPES s then Ok s else Raise malformed_metadata
  | _ => Raise malformed_metadata
  end.

Definition _refs_list (refs : dict) (name : string) : result (list string) :=
  match refs_get name refs with
  | JArr items =>
      types ← each recorded_type items;
      if bool_decide (NoDup types) then Ok types else Raise malformed_metadata
  | _ => Raise malformed_metadata
  end.

Definition words (l : list string) : json := JArr (map JStr l).

Definition _checkpoint_refs (selected completed : list string) (current : string) (extra : dict) : dict :=
  dict_merge [("selected", words selected); ("completed", words completed); ("current", JStr current)] extra.

Definition progress_refs (selected completed : list string) : dict :=
  [("selected", words selected); ("completed", words completed)].

Definition _common (a : Application) (name : string) : dict := [
  ("applicationId", JStr (app_application_id a)); ("applicationSlug", JStr (app_slug a)); ("resourceName", JStr name)].

Definition _mutation_args (operation : Operation) (recovering : bool) : dict :=
  [("operationId", JStr (op_operation_id operation)); ("recover", JBool recovering)].

Definition provider_args (r : ManagedResource) : dict :=
  [("providerId", StorageLimits.opt_text (mr_provider_id r)); ("providerName", JStr (mr_provider_name r))].

(** Reads and writes that are always the same way *)
Definition _application (identifier : string) : Svc Application :=
  found ← db (get_application identifier);
  match found with Some a => mret a | None => raise application_missing end.

Definition _resources (application_id : string) : Svc (list ManagedResource) :=
  db (list_managed_resources (Some application_id)).

(** [db.checkpoint_operation(..., phase=phase, refs=refs, merge_refs=True)] *)
Definition progress (operation : Operation) (phase : string) (refs : dict) : Svc unit :=
  _ ← db (checkpoint_operation (op_operation_id operation) phase (Some refs) true None None None); mret tt.

Definition _checkpoint_observed_index (operation : Operation) (phase : string) (refs answer : dict) : Svc unit :=
  match refs_get "modifyIndex" answer with
  | JNull => mret tt
  | JInt index =>
      _ ← require (0 <=? index) (StorageOperationError "storage helper returned an invalid Nomad ModifyIndex");
      progress operation phase (dict_merge refs [("modify_index", JInt index)])
  | _ => raise (StorageOperationError "storage helper returned an invalid Nomad ModifyIndex")
  end.

Definition _existing_operation (a : Application) (kind : string) (selected : list string) (extra_refs : dict)
    : Svc (option Operation) :=
  let scope := app_scope a in
  found ← db (get_unfinished_operation scope);
  match found with
  | None => mret None
  | Some o =>
      let other := UnfinishedOperationError scope (op_operation_id o) (op_kind o) in
      _ ← require (String.eqb (op_kind o) kind) other;
      recorded ← lift (_refs_list (op_refs o) "selected");
      _ ← require (bool_decide (recorded = selected) && same_refs extra_refs (op_refs o)) other;
      _ ← lift (_refs_list (op_refs o) "completed");
      mret (Some o)
  end.

Definition _complete_operation (operation : Operation) (selected completed : list string) (extra_refs : dict)
    : Svc StorageResult :=
  current ← db (get_operation (op_operation_id operation));
  let preserved := match current with Some o => op_refs o | None => [] end in
  let refs := dict_merge (dict_merge preserved (progress_refs selected completed)) extra_refs in
  _ ← db (checkpoint_operation (op_operation_id operation) "accepted" (Some refs) true None (Some "confirmed"%string) None);
  _ ← db (mark_succeeded (op_operation_id operation) "confirmed" None);
  mret {| sr_requested := selected; sr_completed := completed |}.

Section Storage.
Context (platform : PlatformConfig) (policy : Policy) (helper_caller : Caller).

(** ** Deadlines *)

(** [(datetime.now(UTC) + timedelta(seconds=remaining)).isoformat(timespec="seconds")] *)
Definition seconds_after (remaining : Z) : Svc string :=
  db (now ← datetime_now;
      let t := now + remaining in
      if datetime_max <=? t then raise OverflowError else mret (utc_text t)).

Definition _deadline (process_deadline : option Z) : Svc string :=
  remaining ← (match process_deadline with
               | None => mret (py_helper_seconds policy)
               | Some d =>
                   now ← monotonic;
                   _ ← require (0 <? d - now) deadline_reached;
                   mret (d - now)
               end : Svc Z);
  seconds_after remaining.

(** The earlier of a time and what is left of the process's *)
Definition before (process_deadline : option Z) (remaining : Z) : Svc Z :=
  match process_deadline with
  | None => mret remaining
  | Some d => now ← monotonic; mret (Z.min remaining (d - now))
  end.

Definition _fresh_recovery_deadline (process_deadline : option Z) : Svc string :=
  remaining ← before process_deadline (py_helper_seconds policy);
  _ ← require (0 <? remaining) deadline_reached;
  seconds_after remaining.

Definition _attempt_deadline (operation : Operation) (recovering : bool) (process_deadline : option Z) : Svc string :=
  if negb recovering then mret (op_deadline_at operation) else
  match aware_instant (op_deadline_at operation) with
  | None => raise malformed_deadline
  | Some deadline =>
      now ← db datetime_now;
      if now <? deadline then mret (op_deadline_at operation) else _fresh_recovery_deadline process_deadline
  end.

Definition _call (action : string) (args : dict) (deadline_at : string) (process_deadline : option Z) : Svc dict :=
  match aware_instant deadline_at with
  | None => raise malformed_deadline
  | Some deadline =>
      now ← db datetime_now;
      remaining ← before process_deadline (deadline - now);
      _ ← require (0 <? remaining) deadline_reached;
      helper_caller action args (Z.min (py_helper_seconds policy) remaining)
  end.

(** ** Names and limits of a new resource *)

Definition _provider_name (a : Application) (resource_type name : string) : string :=
  let digest := sha256_hexdigest (app_application_id a +:+ ":" +:+ resource_type +:+ ":" +:+ name) in
  let default_name := String.eqb name "default" in
  if is_database resource_type then
    "p_" +:+ (if default_name then first_chars 20 (no_hyphens (app_application_id a)) else first_chars 20 digest)
  else
    let prefix := pc_prefix platform in
    let suffix := if default_name then first_chars 8 (no_hyphens (app_application_id a)) else first_chars 10 digest in
    let visible := if default_name then app_slug a else app_slug a +:+ "-" +:+ name in
    let visible_limit := 63 - Z.of_nat (String.length prefix) - Z.of_nat (String.length suffix) - 2 in
    prefix +:+ "-" +:+ rstrip_hyphens (first_chars visible_limit visible) +:+ "-" +:+ suffix.

Definition _standard_storage_args (resource_type : string) : dict :=
  if String.eqb resource_type "postgres" then
    [("postgresConnections", JInt (py_postgres_connections policy));
     ("measuredTargetBytes", JInt (py_postgres_measured_bytes policy))]
  else if String.eqb resource_type "mongo" then [("measuredTargetBytes", JInt (py_mongo_measured_bytes policy))]
  else [("s3Bytes", JInt (py_s3_bytes policy)); ("s3Objects", JInt (py_s3_objects policy))].

(** The accepted limits of a resource, in columns *)
Record Limits := {
  li_postgres_connections : option Z; li_measured_target_bytes : option Z; li_s3_bytes : option Z; li_s3_objects : option Z }.

Definition _resource_values (resource_type : string) : Limits :=
  let only type (value : Z) := if String.eqb resource_type type then Some value else None in
  {| li_postgres_connections := only "postgres"%string (py_postgres_connections policy);
     li_measured_target_bytes :=
       if String.eqb resource_type "postgres" then Some (py_postgres_measured_bytes policy)
       else only "mongo"%string (py_mongo_measured_bytes policy);
     li_s3_bytes := only "s3"%string (py_s3_bytes policy); li_s3_objects := only "s3"%string (py_s3_objects policy) |}.

Definition kept_values (r : ManagedResource) : Limits := {|
  li_postgres_connections := mr_postgres_connections r; li_measured_target_bytes := mr_measured_target_bytes r;
  li_s3_bytes := mr_s3_bytes r; li_s3_objects := mr_s3_objects r |}.

Definition resource_input (a : Application) (resource_type name lifecycle_state : string) (provider_id : option string)
    (provider_name : string) (existing : option ManagedResource) (verified_at : option string) : ResourceInput :=
  let values := match existing with None => _resource_values resource_type | Some r => kept_values r end in
  let of_existing {B} (f : ManagedResource -> option B) := match existing with Some r => f r | None => None end in {|
  ri_application_id := app_application_id a; ri_resource_type := resource_type; ri_resource_name := name;
  ri_provider_name := provider_name; ri_lifecycle_state := lifecycle_state; ri_provider_id := provider_id;
  ri_resource_id := None; ri_display_label := of_existing (fun r => Some (mr_display_label r));
  ri_memory_bytes := of_existing mr_memory_bytes; ri_cpu_millicores := of_existing mr_cpu_millicores;
  ri_mongo_connections := of_existing mr_mongo_connections;
  ri_isolated := is_null existing && is_database resource_type && String.eqb lifecycle_state "creating";
  ri_postgres_connections := li_postgres_connections values; ri_measured_target_bytes := li_measured_target_bytes values;
  ri_s3_bytes := li_s3_bytes values; ri_s3_objects := li_s3_objects values;
  ri_last_verified_at := match verified_at with Some t => Some t | None => of_existing mr_last_verified_at end |}.

Definition _put_resource (a : Application) (resource_type name lifecycle_state : string) (provider_id : option string)
    (provider_name : string) (existing : option ManagedResource) (verified : bool) : Svc unit :=
  verified_at ← (if verified then now ← db read_clock; mret (Some now) else mret None : Svc (option string));
  _ ← db (put_managed_resource
           (resource_input a resource_type name lifecycle_state provider_id provider_name existing verified_at) None);
  mret tt.

(** ** Beginning, and leaving to recovery *)

Definition _begin (a : Application) (kind : string) (selected : list string) (phase : string)
    (operation_id : option string) (deadline_at : string) (extra_refs : dict) : Svc Operation :=
  identifier ← (match operation_id with
                | Some (String c s) => lift (uuid (String c s))
                | _ => db fresh_uuid
                end : Svc string);
  let refs := dict_merge (progress_refs selected []) extra_refs in
  let passed := ValidationError "storage operation deadline must be a future timestamp" in
  deadline ← lift (match aware_instant deadline_at with Some t => Ok t | None => Raise passed end);
  now ← db datetime_now;
  _ ← require (now <? deadline) passed;
  db (begin_operation identifier kind (app_scope a) phase deadline_at refs None).

Definition recorded_name (operation : Operation) : result string :=
  resource_name (match dict_get "resource_name" (op_refs operation) with Some v => v | None => JStr "default" end).

Definition retry_action : string := "retry the original controller request with the same Idempotency-Key".

Definition _mark_ambiguous {A} (a : Application) (operation : Operation) (resource_type phase : string)
    (provider_id : option string) (provider_name message : string) : Svc A :=
  name ← lift (recorded_name operation);
  rows ← _resources (app_application_id a);
  _ ← _put_resource a resource_type name "recovery_required" provider_id provider_name (resource_at resource_type name rows) false;
  _ ← db (mark_recovery_required (op_operation_id operation) (Text (message +:+ "; " +:+ retry_action)) (Some phase) None);
  raise (StorageOperationError (message +:+ "; recovery is required; " +:+ retry_action)).

(** ** The four mutations

    [process_deadline], [operation_id] and [deadline_at] are the request's. *)
Section Mutation.
Context (operation_id deadline_at : option string) (process_deadline : option Z).

Definition storage_missing (missing : list string) : error :=
  ValidationError ("storage does not exist: " +:+ join ", " missing).

(** The interrupted operation of the same request, or a new one *)
Definition resume_or_begin (a : Application) (found : option Operation) (kind : string) (selected : list string)
    (phase : string) (extra_refs : dict) : Svc Operation :=
  match found with
  | Some o => mret o
  | None =>
      deadline ← (match deadline_at with
                  | Some (String c s) => mret (String c s)
                  | _ => _deadline process_deadline
                  end : Svc string);
      _begin a kind selected phase operation_id deadline extra_refs
  end.

(** Each selected type has a row. *)
Definition all_stored (selected : list string) (name : string) (rows : list ManagedResource) : list string :=
  List.filter (fun ty => is_null (resource_at ty name rows)) selected.

(** *** create *)

Definition create_confirmed (a : Application) (operation : Operation) (name resource_type attempt : string)
    (recovering : bool) (refs : dict) (anticipated : string) : Svc (dict * (string * string)) :=
  result ← _call ("storage." +:+ resource_type +:+ ".create")
             (dict_merge (dict_merge (_common a name) (_standard_storage_args resource_type))
                (_mutation_args operation recovering)) attempt process_deadline;
  identity ← lift (_identity_result result);
  _ ← require (is_true (refs_get "evidenceAccepted" result))
        (StorageOperationError "storage helper did not confirm restart, scheduler, and public health");
  _ ← _checkpoint_observed_index operation ("create_observed_" +:+ resource_type) refs result;
  _ ← require (String.eqb identity.2 anticipated && (negb (is_database resource_type) || String.eqb identity.1 anticipated))
        (StorageOperationError "storage helper returned mismatched provider identity");
  mret (result, identity).

(** The helper undid the creation, and no instance is on record. *)
Definition rolled_back (e : error) (retained : option ManagedResource) : bool :=
  match e with
  | HelperError code => String.eqb code "CREATE_ROLLED_BACK"
                        && match retained with Some r => is_null (mr_instance_id r) | None => true end
  | _ => false
  end.

Definition creation_failed {A} (a : Application) (operation : Operation) (name resource_type : string)
    (provider_id : option string) (anticipated : string) (e : error) : Svc A :=
  rows ← _resources (app_application_id a);
  if rolled_back e (resource_at resource_type name rows) then
    let message := resource_type +:+ " creation failed; rollback was confirmed" in
    _ ← db (delete_managed_resource (app_application_id a) resource_type name);
    _ ← db (mark_failed (op_operation_id operation) (Text message) "confirmed" None);
    raise (StorageOperationError message)
  else
    _mark_ambiguous a operation resource_type ("create_" +:+ resource_type) provider_id anticipated
      (resource_type +:+ " creation was not confirmed").

(** A JSON value bound to the integer column; a text that SQLite would read as a
    number is refused. *)
Definition port_column (v : json) : result Z :=
  match v with
  | JInt z => Ok z
  | JBool b => Ok (if b then 1 else 0)
  | JStr _ => Raise IntegrityError
  | _ => Raise ProgrammingError
  end.

Definition record_instance (a : Application) (name resource_type : string) (answer : dict) : Svc unit :=
  if json_eqb (refs_get "instancePort" answer) JNull then mret tt else
  rows ← _resources (app_application_id a);
  row ← lift (match resource_at resource_type name rows with Some r => Ok r | None => Raise KeyError end);
  port ← lift (port_column (refs_get "instancePort" answer));
  db (set_storage_instance (mr_resource_id row) (mr_resource_id row) port None).

(** One type; [recovering] and [rows] as they are at its turn *)
Definition create_one (a : Application) (operation : Operation) (name attempt : string) (selected completed : list string)
    (recovering : bool) (rows : list ManagedResource) (resource_type : string) : Svc unit :=
  let anticipated := _provider_name a resource_type name in
  let current := resource_at resource_type name rows in
  _ ← (if negb recovering || is_null current
       then _put_resource a resource_type name "creating" None anticipated None false else mret tt : Svc unit);
  let refs := _checkpoint_refs selected completed resource_type [] in
  _ ← progress operation ("create_" +:+ resource_type) refs;
  confirmed ← catch (create_confirmed a operation name resource_type attempt recovering refs anticipated)
    (creation_failed a operation name resource_type (match current with Some r => mr_provider_id r | None => None end)
       anticipated);
  rows ← _resources (app_application_id a);
  _ ← _put_resource a resource_type name "active" (Some confirmed.2.1) confirmed.2.2 (resource_at resource_type name rows) true;
  owner ← lift (storage_owner resource_type name);
  keys ← lift (canonical_secret_keys resource_type name);
  _ ← db (set_environment_keys (app_application_id a) owner keys);
  record_instance a name resource_type confirmed.1.

(** [for resource_type in selected]: [one] for each type not completed; the rows
    are read again after each. *)
Fixpoint each_type (a : Application) (operation : Operation) (selected : list string) (done_phase : string) (extra : dict)
    (reread : bool)
    (one : list string -> bool -> list ManagedResource -> string -> Svc unit)
    (types completed : list string) (recovering : bool) (rows : list ManagedResource) : Svc (list string) :=
  match types with
  | [] => mret completed
  | resource_type :: rest =>
      if one_of_words completed resource_type
      then each_type a operation selected done_phase extra reread one rest completed recovering rows else
      _ ← one completed recovering rows resource_type;
      let completed := completed ++ [resource_type] in
      rows ← (if reread then _resources (app_application_id a) else mret rows : Svc (list ManagedResource));
      _ ← progress operation (done_phase +:+ resource_type) (dict_merge (progress_refs selected completed) extra);
      each_type a operation selected done_phase extra reread one rest completed false rows
  end.

Definition named_refs (name : string) : dict := [("resource_name", JStr name)].

Definition create (application_id : string) (resource_types : list string) (name : string) : Svc StorageResult :=
  a ← _application application_id;
  name ← lift (resource_name name);
  selected ← lift (_selected resource_types);
  found ← _existing_operation a "storage.create" selected (named_refs name);
  rows ← _resources (app_application_id a);
  let duplicates := List.filter (fun ty => negb (is_null (resource_at ty name rows))) selected in
  _ ← require (not_null found || Nat.eqb (length duplicates) 0)
        (ValidationError ("storage already exists: " +:+ join ", " duplicates));
  operation ← resume_or_begin a found "storage.create" selected "validated" (named_refs name);
  let recovering := not_null found in
  attempt ← _attempt_deadline operation recovering process_deadline;
  completed ← lift (_refs_list (op_refs operation) "completed");
  completed ← each_type a operation selected "created_" [] true
    (create_one a operation name attempt selected) selected completed recovering rows;
  _complete_operation operation selected completed [].

(** *** verify *)

(** A resource that has to be there *)
Definition stored (resource_type name : string) (rows : list ManagedResource) : Svc ManagedResource :=
  lift (match resource_at resource_type name rows with Some r => Ok r | None => Raise KeyError end).

Definition keep_resource (a : Application) (r : ManagedResource) (resource_type name state : string) (verified : bool) : Svc unit :=
  _put_resource a resource_type name state (mr_provider_id r) (mr_provider_name r) (Some r) verified.

Definition ambiguous {A} (a : Application) (operation : Operation) (r : ManagedResource) (resource_type phase message : string)
    : Svc A :=
  _mark_ambiguous a operation resource_type (phase +:+ resource_type) (mr_provider_id r) (mr_provider_name r)
    (resource_type +:+ message).

Definition verify_one (a : Application) (operation : Operation) (name attempt : string) (selected completed : list string)
    (recovering : bool) (rows : list ManagedResource) (resource_type : string) : Svc unit :=
  r ← stored resource_type name rows;
  let refs := _checkpoint_refs selected completed resource_type [] in
  _ ← progress operation ("verify_" +:+ resource_type) refs;
  _ ← catch (
    result ← _call ("storage." +:+ resource_type +:+ ".verify")
               (dict_merge (dict_merge (_common a name) (provider_args r)) (_mutation_args operation recovering))
               attempt process_deadline;
    _ ← require (is_true (refs_get "verified" result)) (StorageOperationError "verification evidence was rejected");
    _checkpoint_observed_index operation ("verify_observed_" +:+ resource_type) refs result)
    (fun _ => ambiguous a operation r resource_type "verify_" " verification was not confirmed");
  keep_resource a r resource_type name "active" true.

Definition verify (application_id : string) (resource_types : option (list string)) (name : string) : Svc StorageResult :=
  a ← _application application_id;
  name ← lift (resource_name name);
  rows ← _resources (app_application_id a);
  selected ← lift (match resource_types with
                   | Some types => _selected types
                   | None => Ok (List.filter (fun ty => negb (is_null (resource_at ty name rows))) RESOURCE_TYPES)
                   end);
  _ ← require (negb (Nat.eqb (length selected) 0)) (ValidationError "application has no managed storage");
  found ← _existing_operation a "storage.verify" selected (named_refs name);
  let missing := all_stored selected name rows in
  _ ← require (Nat.eqb (length missing) 0)
        (if not_null found then StorageOperationError "unfinished storage verification metadata is inconsistent"
         else storage_missing missing);
  operation ← resume_or_begin a found "storage.verify" selected "validated" (named_refs name);
  let recovering := not_null found in
  attempt ← _attempt_deadline operation recovering process_deadline;
  completed ← lift (_refs_list (op_refs operation) "completed");
  completed ← each_type a operation selected "verified_" [] false
    (verify_one a operation name attempt selected) selected completed recovering rows;
  _complete_operation operation selected completed [].

(** *** rotate *)

Definition rotation_args (a : Application) (operation : Operation) (r : ManagedResource) (name resource_type : string)
    (recovering : bool) : dict :=
  let args := dict_merge (dict_merge (_common a name) (provider_args r)) (_mutation_args operation recovering) in
  if String.eqb resource_type "postgres"
  then dict_set "postgresConnections" (opt_json JInt (mr_postgres_connections r)) args else args.

(** The helper kept the old credential because the application was unhealthy
    with the new one. *)
Definition rotation_rejected {A} (a : Application) (operation : Operation) (r : ManagedResource) (name resource_type : string)
    (answer : dict) : Svc A :=
  _ ← (if is_true (refs_get "rolledBack" answer) then mret tt
       else ambiguous a operation r resource_type "rotate_" " rotation rollback was not confirmed" : Svc unit);
  _ ← keep_resource a r resource_type name "active" false;
  _ ← db (mark_failed (op_operation_id operation) (Text "rotation health evidence was rejected") "confirmed" None);
  raise (StorageOperationError (resource_type +:+ " rotation health evidence was rejected")).

Definition rotate_one (a : Application) (operation : Operation) (name attempt : string) (selected completed : list string)
    (recovering : bool) (rows : list ManagedResource) (resource_type : string) : Svc unit :=
  r ← stored resource_type name rows;
  let refs := _checkpoint_refs selected completed resource_type [] in
  _ ← progress operation ("rotate_" +:+ resource_type) refs;
  answer ← catch (
    answer ← _call ("storage." +:+ resource_type +:+ ".rotate")
               (rotation_args a operation r name resource_type recovering) attempt process_deadline;
    _ ← lift (_rotation_identity_result answer r);
    _ ← _checkpoint_observed_index operation ("rotate_observed_" +:+ resource_type) refs answer;
    mret answer)
    (fun _ => ambiguous a operation r resource_type "rotate_" " rotation was not confirmed");
  _ ← (if is_true (refs_get "evidenceAccepted" answer) then mret tt
       else rotation_rejected a operation r name resource_type answer : Svc unit);
  _ ← (if is_true (refs_get "retired" answer) then mret tt
       else ambiguous a operation r resource_type "retire_" " old credential retirement was not confirmed" : Svc unit);
  keep_resource a r resource_type name "active" true.

Definition rotate (application_id : string) (resource_types : list string) (name : string) : Svc StorageResult :=
  a ← _application application_id;
  name ← lift (resource_name name);
  selected ← lift (_selected resource_types);
  found ← _existing_operation a "storage.rotate" selected (named_refs name);
  rows ← _resources (app_application_id a);
  let missing := all_stored selected name rows in
  _ ← require (Nat.eqb (length missing) 0)
        (if not_null found then StorageOperationError "unfinished storage rotation metadata is inconsistent"
         else storage_missing missing);
  operation ← resume_or_begin a found "storage.rotate" selected "validated" (named_refs name);
  let recovering := not_null found in
  attempt ← _attempt_deadline operation recovering process_deadline;
  completed ← lift (_refs_list (op_refs operation) "completed");
  completed ← each_type a operation selected "rotated_" [] false
    (rotate_one a operation name attempt selected) selected completed recovering rows;
  _complete_operation operation selected completed [].

(** *** remove *)

Definition purge_refs (purge_s3 : bool) : dict := [("purge_s3", JBool purge_s3)].

Definition removal_arguments (a : Application) (operation : Operation) (r : ManagedResource) (name resource_type : string)
    (purge_s3 preflight recovering : bool) : dict :=
  let args := dict_merge (dict_merge (_common a name)
      (provider_args r ++ [("confirmName", JStr name); ("preflight", JBool preflight)])) (_mutation_args operation recovering) in
  if String.eqb resource_type "s3" then dict_set "purge" (JBool purge_s3) args else args.

Definition remove_action (resource_type : string) : string := "storage." +:+ resource_type +:+ ".remove".

Definition inconsistent_removal : error := StorageOperationError "unfinished storage removal metadata is inconsistent".

(** A pending type's removal would be accepted. *)
Definition preflight_one (a : Application) (operation : Operation) (name attempt : string) (purge_s3 recovering : bool)
    (rows : list ManagedResource) (pending_type : string) : Svc unit :=
  r ← lift (match resource_at pending_type name rows with Some r => Ok r | None => Raise inconsistent_removal end);
  result ← _call (remove_action pending_type) (removal_arguments a operation r name pending_type purge_s3 true recovering)
             attempt process_deadline;
  confirmed "preflightAccepted" result (StorageOperationError "storage removal preflight was rejected").

Definition preflight_failed {A} (operation : Operation) (selected completed : list string) (resource_type : string)
    (purge_s3 recovering : bool) : Svc A :=
  let message := "storage removal preflight failed before another deletion" in
  let phase := "preflight_" +:+ resource_type in
  let id := op_operation_id operation in
  if recovering || negb (Nat.eqb (length completed) 0) then
    _ ← progress operation phase (_checkpoint_refs selected completed resource_type (purge_refs purge_s3));
    _ ← db (mark_recovery_required id (Text message) (Some phase) None);
    raise (StorageOperationError message)
  else
    _ ← db (mark_failed id (Text "storage removal preflight failed before deletion") "confirmed" None);
    raise (StorageOperationError "storage removal preflight failed before any deletion").

Definition removal_confirmed (a : Application) (operation : Operation) (r : ManagedResource) (name attempt resource_type : string)
    (purge_s3 recovering : bool) (refs : dict) : Svc unit :=
  result ← _call (remove_action resource_type) (removal_arguments a operation r name resource_type purge_s3 false recovering)
             attempt process_deadline;
  _ ← require (is_true (refs_get "confirmedAbsent" result) && is_true (refs_get "environmentRemoved" result))
        (StorageOperationError "storage removal evidence was incomplete");
  _checkpoint_observed_index operation ("remove_observed_" +:+ resource_type) refs result.

Definition remove_one (a : Application) (operation : Operation) (name attempt : string) (purge_s3 : bool)
    (selected completed : list string) (recovering : bool) (rows : list ManagedResource) (resource_type : string) : Svc unit :=
  let pending := List.filter (fun ty => negb (one_of_words completed ty)) selected in
  let refs := _checkpoint_refs selected completed resource_type (purge_refs purge_s3) in
  _ ← catch (for_each pending (preflight_one a operation name attempt purge_s3 recovering rows))
        (fun _ => preflight_failed operation selected completed resource_type purge_s3 recovering);
  _ ← progress operation ("preflight_" +:+ resource_type) refs;
  r ← stored resource_type name rows;
  _ ← (if recovering then mret tt else keep_resource a r resource_type name "removing" false : Svc unit);
  _ ← progress operation ("remove_" +:+ resource_type) refs;
  _ ← catch (removal_confirmed a operation r name attempt resource_type purge_s3 recovering refs)
        (fun _ => ambiguous a operation r resource_type "remove_" " absence or environment-key removal was not confirmed");
  owner ← lift (storage_owner resource_type name);
  _ ← db (set_environment_keys (app_application_id a) owner []);
  db (delete_managed_resource (app_application_id a) resource_type name).

(** The running deployment uses the resource of a selected type. *)
Definition is_referenced (name : string) (rows : list ManagedResource) (active : list string) (accepted : option Deployment)
    (resource_type : string) : result bool :=
  match resource_at resource_type name rows with
  | None => Ok false
  | Some r =>
      if one_of_words active (mr_resource_id r) then Ok true else
      match accepted with
      | None => Ok false
      | Some d =>
          keys ← canonical_secret_keys resource_type name;
          Ok (existsb (fun key => contains key (de_nomad_job d)) keys)
      end
  end.

Fixpoint select_result {A} (f : A -> result bool) (l : list A) : result (list A) :=
  match l with
  | [] => Ok []
  | x :: l' => b ← f x; rest ← select_result f l'; Ok (if b : bool then x :: rest else rest)
  end.

(** [confirm_destructive is True] and [confirm_name] are the caller's consent. *)
Definition remove (application_id : string) (resource_types : list string) (name : string)
    (confirm_name confirm_slug : option string) (confirm_destructive purge_s3 : bool) : Svc StorageResult :=
  a ← _application application_id;
  name ← lift (resource_name name);
  selected ← lift (_selected resource_types);
  _ ← require (confirm_destructive && bool_decide (confirm_name = Some name))
        (ValidationError "destructive storage removal requires the exact resource name");
  _ ← (match confirm_slug with
       | None => mret tt
       | Some s =>
           checked ← lift (slug s);
           require (String.eqb checked (app_slug a))
             (ValidationError "destructive storage removal application confirmation is invalid")
       end : Svc unit);
  let extra := dict_merge (purge_refs purge_s3) (named_refs name) in
  found ← _existing_operation a "storage.remove" selected extra;
  let recovering := not_null found in
  rows ← _resources (app_application_id a);
  completed ← lift (match found with Some o => _refs_list (op_refs o) "completed" | None => Ok [] end);
  _ ← require (forallb (one_of_words selected) completed) inconsistent_removal;
  let missing := List.filter (fun ty => is_null (resource_at ty name rows) && negb (one_of_words completed ty)) selected in
  _ ← require (Nat.eqb (length missing) 0) (if recovering then inconsistent_removal else storage_missing missing);
  active ← db (active_storage_resource_ids (app_application_id a));
  accepted ← db (get_deployment (app_application_id a));
  referenced ← lift (select_result (is_referenced name rows active accepted) selected);
  _ ← (match referenced with
       | [] => mret tt
       | ty :: _ => raise (ValidationError ("active deployment references " +:+ ty +:+ " storage '" +:+ name +:+ "'"))
       end : Svc unit);
  operation ← resume_or_begin a found "storage.remove" selected "confirmed" extra;
  attempt ← _attempt_deadline operation recovering process_deadline;
  completed ← each_type a operation selected "removed_" (purge_refs purge_s3) true
    (remove_one a operation name attempt purge_s3 selected) selected completed recovering rows;
  _complete_operation operation selected completed extra.
End Mutation.
End Storage.

(** ** storage_service.py *)

Inductive storage_verb := st_create | st_verify | st_rotate | st_remove.

Record StorageMutationRequest := {
  sm_action : storage_verb;
  sm_application : string;
  sm_resource_types : list string;
  sm_resource_name : string;
  sm_confirm_name : option string;
  sm_purge_s3 : bool;
  sm_request_id : option string;
}.

Section StorageService.
Context (platform : PlatformConfig) (policy : Policy) (base_caller : Caller).

(** [call_helper]: each call with the resource's metadata and the request's deadline *)
Definition call_with_metadata (application_id name : string) (deadline : Z) : Caller := fun action values _ =>
  kind ← lift (match split_on "." action with _ :: kind :: _ => Ok kind | _ => Raise IndexError end);
  rows ← db (list_managed_resources (Some application_id));
  metadata ← db (helper_metadata application_id (resource_at kind name rows));
  base_caller action (dict_merge values metadata) deadline.

Definition mutate_stored (q : StorageMutationRequest) (a : Application) (name : string) (deadline : Z) : Svc StorageResult :=
  let selected := sm_resource_types q in
  timeout ← remaining_seconds deadline (py_process_seconds policy);
  _ ← OpenStack.verify_project platform timeout;
  _ ← (match sm_action q with
       | st_rotate => if existsb is_database selected
                      then prepare_dns_job base_caller platform (app_application_id a) deadline else mret tt
       | _ => mret tt
       end : Svc unit);
  refreshed ← db (get_application (sm_application q));
  refreshed ← (match refreshed with
               | Some r => if String.eqb (app_application_id r) (app_application_id a) then mret r
                           else raise application_missing
               | None => raise application_missing
               end : Svc Application);
  durable ← wall_deadline deadline;
  operation_id ← lift (match sm_request_id q with
                       | None => Ok None
                       | Some i => id ← uuid i; Ok (Some id)
                       end);
  let id := app_application_id refreshed in
  let caller := call_with_metadata id name deadline in
  match sm_action q with
  | st_create => create platform policy caller operation_id (Some durable) (Some deadline) id selected name
  | st_verify => verify policy caller operation_id (Some durable) (Some deadline) id (Some selected) name
  | st_rotate => rotate policy caller operation_id (Some durable) (Some deadline) id selected name
  | st_remove => remove policy caller operation_id (Some durable) (Some deadline) id selected name
                   (sm_confirm_name q) None true (sm_purge_s3 q)
  end.

Definition mutate (q : StorageMutationRequest) : Svc StorageResult :=
  application ← db (get_application (sm_application q));
  match application with
  | None => raise application_missing
  | Some a =>
      _ ← reject_deleting a;
      name ← lift (resource_name (sm_resource_name q));
      _ ← require (negb (Nat.eqb (length (sm_resource_types q)) 0)) (ValidationError "select at least one storage type");
      deadline ← operation_deadline (py_process_seconds policy);
      lock (app_scope a) (mutate_stored q a name deadline)
  end.
End StorageService.
