(* ===== verification/Maintenance.v ===== *)
(** * Replacing a deployment in place
    (src/openstack_platform/controller/maintenance.py, worker_reuse.py, rollback.py,
    deployment_reads.py)

    A replacement that must not overlap its predecessor stops it first, and no
    candidate is created before the stop is on record; the worker may be kept when
    it is exactly the accepted one.  A rollback redeploys a retained deployment
    from a plan that was reviewed. *)

From S2P Require Import Prelude Regex Json JsonParse Clock Validation Runtime Sql Schema StorageCapacity Operations.
From S2P Require Import StorageContract DeploymentConfig Applications Resources Fingerprint Sizing NomadJobs Service Rollout.
From S2P Require Import StorageLimits OpenStack FloatingIp PublicIp FixedIp RetainedPort Finishing ApplicationService.

(** ** worker_reuse.py *)

(** The accepted worker, as the database records it *)
Definition identity (application_id : string) : Svc dict :=
  current ← db (get_application application_id);
  deployment ← db (get_deployment application_id);
  let refused := ValidationError "worker reuse requires an accepted deployment and an existing worker" in
  match current, deployment with
  | Some a, Some d =>
      _ ← require (not_null (app_worker_server_id a)) refused;
      slot ← lift (nomad_placement_id (de_nomad_job d));
      ids ← lift (deployment_worker_ids application_id);
      _ ← require (one_of_words [application_id; ids.1; ids.2] slot)
            (ValidationError "accepted worker placement is outside the application slots");
      retained ← db (RetainedPort.get application_id);
      _ ← (match retained with
           | None => mret tt
           | Some r =>
               _ ← lift (helper_identity r);
               require (negb (po_worker_create_pending r) && bool_decide (po_worker_slot_id r = Some slot)
                        && bool_decide (po_port_id r = app_worker_port_id a))
                 (ValidationError "worker reuse requires the already-attached retained primary port")
           end : Svc unit);
      server ← lift (uuid (text_of (app_worker_server_id a)));
      server_name ← lift (bounded_text 128 (text_of (app_worker_server_name a)));
      port ← lift (uuid (text_of (app_worker_port_id a)));
      port_name ← lift (bounded_text 128 (text_of (app_worker_port_name a)));
      mret [("slot_id", JStr slot); ("server_id", JStr server); ("server_name", JStr server_name); ("port_id", JStr port);
            ("port_name", JStr port_name); ("flavor", JStr (app_worker_flavor a)); ("cpu_mhz", JInt (app_scheduler_cpu_mhz a));
            ("memory_mib", JInt (app_scheduler_memory_mib a))]
  | _, _ => raise refused
  end.

(** [expected], where the caller gave one, is what was recorded before. *)
Definition as_expected (expected : json) (matches : dict -> bool) (drifted : error) : Svc unit :=
  match expected with
  | JNull => mret tt
  | JObj e => require (matches e) drifted
  | _ => raise AttributeError
  end.

(** [prepare_observe]: the identity and the arguments of the probe *)
Definition prepare_observe (application_id : string) (expected : json) : Svc (dict * dict) :=
  selected ← identity application_id;
  _ ← as_expected expected (same_refs selected) (ApplicationError "reused worker identity or allocation drifted");
  current ← db (get_application application_id);
  a ← lift (match current with Some a => Ok a | None => Raise AssertionError end);
  retained ← db (RetainedPort.get application_id);
  port ← lift (match retained with
               | Some r => i ← helper_identity r; Ok [("retainedPort", JObj i)]
               | None => Ok []
               end);
  mret (selected, [("applicationId", refs_get "slot_id" selected); ("slug", JStr (app_slug a));
                   ("acceptedServerId", refs_get "server_id" selected)] ++ port).

Definition worker_fields : list (string * string) := [
  ("serverId", "server_id"); ("serverName", "server_name"); ("portId", "port_id"); ("portName", "port_name");
  ("flavorName", "flavor")].

Definition text_at (key : string) (d : dict) : string := match refs_get key d with JStr s => s | _ => "" end.

Definition number_of (key : string) (d : dict) : Z := match refs_get key d with JInt z => z | _ => 0 end.

(** [probe]: one fresh observation of exactly this worker *)
Definition observe_exact (caller : Caller) (selected arguments : dict) (expected : json) (deadline : Z) : Svc dict :=
  worker ← caller "app.worker.capacity" arguments deadline;
  _ ← require (is_true (refs_get "ready" worker) && negb (is_true (refs_get "absent" worker))
               && forallb (fun f => py_eqb (refs_get f.1 worker) (refs_get f.2 selected)) worker_fields)
        (ApplicationError "exact reused worker readiness or identity was not confirmed");
  image ← lift (uuid (refs_get "imageId" worker));
  let selected := dict_set "image_id" (JStr image) selected in
  _ ← as_expected expected (fun e => py_eqb (JObj selected) (JObj e)) (ApplicationError "reused worker image drifted");
  budget ← lift (worker_budget worker (text_at "server_id" selected) (text_at "flavor" selected));
  _ ← require ((number_of "cpu_mhz" selected <=? budget.1) && (number_of "memory_mib" selected <=? budget.2))
        (ApplicationError "pinned allocation exceeds reused worker capacity after reserve");
  mret selected.

Definition observe_worker (caller : Caller) (application_id : string) (expected : json) (deadline : Z) : Svc dict :=
  prepared ← prepare_observe application_id expected;
  observe_exact caller prepared.1 prepared.2 expected deadline.

Definition direct_route (refs : dict) : result bool :=
  let unproved := ApplicationError "direct reuse requires confirmed predecessor stop" in
  match default (JBool false) (dict_get "direct_reuse" refs) with
  | JBool selected =>
      if selected && negb (forallb (fun key => is_true (refs_get key refs))
           ["reuse_worker"; "maintenance"; "maintenance_quiesced"; "maintenance_stopped"]) then Raise unproved
      else Ok selected
  | _ => Raise unproved
  end.

(** ** maintenance.py *)

Section Maintenance.
Context (platform : PlatformConfig) (caller : Caller) (application_id : string).

(** [intent[key]] *)
Definition intent_value (key : string) (intent : dict) : result json :=
  match dict_get key intent with Some v => Ok v | None => Raise KeyError end.

Definition intent_job (slug : string) (intent : dict) : result dict :=
  job ← intent_value "job_id" intent;
  hash ← intent_value "job_sha256" intent;
  image ← intent_value "image" intent;
  Ok (exact_job slug job hash image).

Definition new_intent (a : Application) (active : ActiveDeployment) (d : Deployment) : result dict :=
  job ← nomad_job_id (de_nomad_job d) (app_slug a);
  placement ← nomad_placement_id (de_nomad_job d);
  Ok [("deployment_id", JStr (ac_deployment_id active)); ("job_id", JStr job); ("job_sha256", JStr (de_nomad_job_sha256 d));
      ("image", JStr (de_image_digest d)); ("placement_id", JStr placement); ("server_id", text_of (app_worker_server_id a));
      ("port_id", text_of (app_worker_port_id a))].

(** The predecessor of the operation: recorded now, unless it is already, or
    nothing runs *)
Definition predecessor_intent (a : Application) (operation : Operation) : Svc (option (dict * json)) :=
  let refs := op_refs operation in
  if negb (json_eqb (refs_get "maintenance_predecessor" refs) JNull)
  then mret (Some (refs, refs_get "maintenance_predecessor" refs)) else
  if negb (app_desired_running a) then mret None else
  accepted ← db (get_active_deployment application_id);
  deployment ← db (get_deployment application_id);
  match accepted, deployment with
  | Some active, Some d =>
      _ ← require (not_null (app_worker_server_id a) && not_null (app_worker_port_id a))
            (ApplicationError "maintenance predecessor identity is incomplete");
      intent ← lift (new_intent a active d);
      let refs := dict_set "maintenance_predecessor" (JObj intent) refs in
      _ ← checkpoint (op_operation_id operation) (op_phase operation) (Some refs);
      mret (Some (refs, JObj intent))
  | _, _ => mret None
  end.

(** The worker to be deleted is the predecessor's, or absent already. *)
Definition observe_predecessor (a : Application) (intent : dict) (deadline : Z) : Svc unit :=
  placement ← lift (intent_value "placement_id" intent);
  observed ← caller "app.worker.observe" [("applicationId", placement); ("slug", JStr (app_slug a))] deadline;
  if is_true (refs_get "absent" observed) then mret tt else
  let drifted := ApplicationError "maintenance predecessor worker identity drifted" in
  server ← lift (intent_value "server_id" intent);
  _ ← require (py_eqb (refs_get "serverId" observed) server) drifted;
  port ← lift (intent_value "port_id" intent);
  require (py_eqb (refs_get "portId" observed) port) drifted.

(** The kept worker is exactly the accepted one, and its allocation is stopped. *)
Definition quiesce_predecessor (a : Application) (operation : Operation) (refs intent : dict) (deadline : Z) : Svc dict :=
  expected ← lift (intent_value "reused_worker" refs);
  _ ← observe_worker caller application_id expected deadline;
  if is_true (refs_get "maintenance_quiesced" refs) then mret refs else
  job ← lift (intent_job (app_slug a) intent);
  stopped ← caller "app.stop" job deadline;
  _ ← confirmed "jobStopped" stopped (ApplicationError "predecessor allocation stop is unconfirmed");
  let refs := dict_set "maintenance_quiesced" (JBool true) refs in
  _ ← checkpoint (op_operation_id operation) (op_phase operation) (Some refs);
  mret refs.

Definition delete_predecessor (a : Application) (intent : dict) (deadline : Z) : Svc unit :=
  _ ← PublicIp.release_locked platform application_id deadline true;
  placement ← lift (intent_value "placement_id" intent);
  deleted ← caller "app.worker.delete"
              [("applicationId", placement); ("slug", JStr (app_slug a)); ("single", JBool true)] deadline;
  confirmed "absent" deleted (ApplicationError "maintenance predecessor worker absence is unconfirmed").

Definition kept_worker (a : Application) : WorkerIdentity := {|
  wk_server_id := app_worker_server_id a; wk_server_name := app_worker_server_name a;
  wk_port_id := app_worker_port_id a; wk_port_name := app_worker_port_name a |}.

Definition stop_recorded (a : Application) (operation : Operation) (refs intent : dict) (deadline : Z) : Svc dict :=
  let id := op_operation_id operation in
  let reuse := is_true (refs_get "reuse_worker" refs) in
  refs ← (if reuse then quiesce_predecessor a operation refs intent deadline
          else _ ← observe_predecessor a intent deadline; mret refs : Svc dict);
  job ← lift (intent_job (app_slug a) intent);
  removed ← caller "app.remove" job deadline;
  _ ← confirmed "jobAbsent" removed (ApplicationError "maintenance predecessor job absence is unconfirmed");
  _ ← (if reuse then mret tt else delete_predecessor a intent deadline : Svc unit);
  let refs := dict_set "maintenance_stopped" (JBool true) refs in
  _ ← checkpoint id (op_phase operation) (Some refs);
  _ ← db (set_application_runtime application_id false (if reuse then kept_worker a else no_worker) None None false);
  mret refs.

Definition stop_predecessor (operation_id : string) (deadline : Z) : Svc dict :=
  operation ← db (get_operation operation_id);
  current ← db (get_application application_id);
  let missing := ApplicationError "maintenance application/operation consent is missing" in
  match operation, current with
  | Some o, Some a =>
      _ ← require (String.eqb (op_kind o) "app.deploy" && String.eqb (op_scope o) ("app-" +:+ application_id)
                   && is_true (refs_get "maintenance" (op_refs o))) missing;
      found ← predecessor_intent a o;
      match found with
      | None => mret (op_refs o)
      | Some (refs, intent) =>
          accepted ← db (get_active_deployment application_id);
          let drifted := ApplicationError "maintenance accepted deployment identity drifted" in
          match intent, accepted with
          | JObj i, Some active =>
              _ ← require (json_eqb (JStr (ac_deployment_id active)) (refs_get "deployment_id" i)) drifted;
              if is_true (refs_get "maintenance_stopped" refs) && negb (app_desired_running a) then mret refs
              else stop_recorded a o refs i deadline
          | _, _ => raise drifted
          end
      end
  | _, _ => raise missing
  end.
End Maintenance.

(** ** deployment_reads.py *)

(** The repository of exactly this deployment's recorded intent *)
Definition source_repository (attempt : DeploymentAttempt) : Svc (option string) :=
  operation ← db (get_operation (at_deployment_id attempt));
  match operation with
  | None => mret None
  | Some o =>
      let recorded key value := py_eqb (refs_get key (op_refs o)) value in
      if String.eqb (op_kind o) "app.deploy" && String.eqb (op_scope o) ("app-" +:+ at_application_id attempt)
         && recorded "application_id"%string (JStr (at_application_id attempt))
         && recorded "source_commit"%string (JStr (at_source_commit attempt))
         && recorded "configuration_sha256"%string (JStr (at_configuration_sha256 attempt))
         && recorded "configuration_revision"%string (opt_json JInt (at_configuration_revision attempt))
         && recorded "requested_ref"%string (text_of (at_requested_ref attempt))
      then match repository_url (refs_get "repository" (op_refs o)) with
           | Ok url => mret (Some url)
           | Raise (ValidationError _) => mret None
           | Raise e => raise e
           end
      else mret None
  end.

(** ** rollback.py *)

Definition target (application_id : string) (deployment_id : json) : Svc (DeploymentAttempt * string) :=
  let incomplete := ValidationError "rollback requires a complete accepted deployment and source snapshot" in
  identifier ← lift (uuid deployment_id);
  attempt ← db (get_deployment_attempt identifier);
  match attempt with
  | None => raise incomplete
  | Some t =>
      let row := attempt_row t in
      _ ← require (String.eqb (at_application_id row) application_id && bool_decide (at_st row = a_succeeded)
                   && not_null (at_configuration_revision row) && not_null (at_requested_ref row)
                   && not_null (at_recipe_hash row) && not_null (at_image_digest row) && not_null (at_build_log_path row))
            incomplete;
      repository ← source_repository row;
      match repository with Some url => mret (row, url) | None => raise incomplete end
  end.

Definition storage_projection (r : ManagedResource) : json := JObj [
  ("resourceId", JStr (mr_resource_id r)); ("type", JStr (mr_resource_type r)); ("name", JStr (mr_resource_name r));
  ("state", JStr (mr_lifecycle_state r)); ("providerId", text_of (mr_provider_id r));
  ("providerName", JStr (mr_provider_name r)); ("updatedAt", JStr (mr_updated_at r))].

(** What the plan shows to the reviewer, and is compared by *)
Definition projection (application_id : string) (a : Application) (active : ActiveDeployment) (attempt : DeploymentAttempt) (source : option string)
    (revision : Z) (rows : list ManagedResource) : dict := [
  ("applicationId", JStr application_id); ("activeDeploymentId", JStr (ac_deployment_id active));
  ("targetDeploymentId", JStr (at_deployment_id attempt)); ("sourceRepository", text_of source);
  ("sourceCommit", JStr (at_source_commit attempt)); ("configurationSha256", JStr (at_configuration_sha256 attempt));
  ("imageDigest", text_of (at_image_digest attempt)); ("environmentRevision", JInt revision);
  ("sizing", JObj [("workerFlavor", JStr (app_worker_flavor a)); ("cpuMHz", JInt (app_scheduler_cpu_mhz a));
                   ("memoryMiB", JInt (app_scheduler_memory_mib a))]);
  ("storage", JArr (map storage_projection (sort_by (fun r s => str_leb (mr_resource_id r) (mr_resource_id s)) rows)));
  ("environmentPolicy", JStr "current-secrets"); ("dataPolicy", JStr "no-data-rollback")].

Definition rollback_plan (application_id : string) (deployment_id reuse : json) : Svc dict :=
  consent ← lift (match reuse with
                  | JBool b => Ok b
                  | _ => Raise (ValidationError "worker reuse consent must be boolean")
                  end);
  let reuse_worker : bool := consent in
  application ← db (get_application application_id);
  active ← db (get_active_deployment application_id);
  retained ← db (RetainedPort.get application_id);
  let disabled := ValidationError "rollback requires an enabled application with an accepted deployment" in
  match application, active with
  | Some a, Some d =>
      _ ← require (reuse_worker || not_null retained || app_desired_running a) disabled;
      _ ← (if not_null retained && negb reuse_worker then db (require_maintenance application_id) else mret tt : Svc unit);
      found ← target application_id deployment_id;
      let attempt := found.1 in
      _ ← require (negb (String.eqb (ac_deployment_id d) (at_deployment_id attempt))
                   || reuse_worker && negb (app_desired_running a))
            (ValidationError "rollback target is already the active deployment");
      environment ← db (get_environment_revision application_id);
      revision ← lift (match environment with
                       | Some r => Ok (er_revision r)
                       | None => Raise (DatabaseError "application environment revision is missing")
                       end);
      source ← source_repository attempt;
      rows ← db (list_managed_resources (Some application_id));
      worker ← (if reuse_worker then w ← identity application_id; mret [("reuseWorker"%string, JBool true); ("worker"%string, JObj w)]
                else mret [] : Svc dict);
      let port := match retained with
        | Some r => [("retainedPort"%string, JObj [("portId", text_of (po_port_id r)); ("reservationId", JStr (po_request_id r))])]
        | None => []
        end in
      let shown := projection application_id a d attempt source revision rows ++ port ++ worker in
      fingerprint ← lift (request_fingerprint shown);
      mret (shown ++ [("fingerprint", JStr fingerprint)])
  | _, _ => raise disabled
  end.

(** A reviewed plan is used only while a fresh one is the same. *)
Definition validate_plan (application_id : string) (value : json) : Svc unit :=
  match value with
  | JObj reviewed =>
      fresh ← rollback_plan application_id (refs_get "targetDeploymentId" reviewed)
                (default (JBool false) (dict_get "reuseWorker" reviewed));
      given ← lift (request_fingerprint reviewed);
      again ← lift (request_fingerprint fresh);
      require (String.eqb given again) (ValidationError "rollback plan drifted; obtain and review a fresh plan")
  | _ => raise (ValidationError "rollback plan must be an exact plan response")
  end.
