(* ===== verification/Environment.v ===== *)
(** * Application environments
    (src/openstack_platform/controller/environment_service.py)

    Staff set and remove environment variables whose values only the helper ever
    holds.  The database keeps the names and who owns each; a name of the
    platform or of a storage resource is never the staff's to change. *)

From S2P Require Import Prelude Regex Json Clock Validation Runtime Sql Schema StorageCapacity Operations.
From S2P Require Import StorageContract Applications NomadJobs Service Rollout OpenStack Finishing ApplicationService.

Inductive env_action := env_set | env_unset | env_import.

Definition action_text (a : env_action) : string :=
  match a with env_set => "set" | env_unset => "unset" | env_import => "import" end.

Record EnvironmentMutationRequest := {
  em_action : env_action;
  em_application : string;
  em_updates : list (string * string);
  em_removals : list string;
  em_request_id : option string;
}.

Record EnvironmentMutationResult := { ek_names : list string; ek_modify_index : option Z }.

Definition is_unset (a : env_action) : bool := match a with env_unset => true | _ => false end.

(** Names of the platform *)
Definition platform_name (name : string) : bool :=
  one_of_words RESERVED_ENVIRONMENT_KEYS name || startswith name RESERVED_ENVIRONMENT_PREFIX.

(** Python's [ownership.get(name, "staff") == "staff"] *)
Definition staff_may (ownership : list (string * string)) (name : string) : bool :=
  String.eqb (default "staff"%string (dict_get name ownership)) "staff".

(** The names the staff owns already *)
Definition staff_names (ownership : list (string * string)) : list string :=
  map fst (List.filter (fun kv => String.eqb kv.2 "staff") ownership).

Definition among (names : list string) (l : list string) : list string := List.filter (one_of_words names) l.

Definition text_items (v : json) (malformed : error) : result (list string) :=
  match v with
  | JArr items => each (fun i => match i with JStr s => Ok s | _ => Raise malformed end) items
  | _ => Raise malformed
  end.

(** The names of an answer, as environment names *)
Definition env_names (names : list string) : result (list string) := each (fun n => env_key (JStr n)) names.

(** The updates and removals that are asked for, checked *)
Definition checked_request (q : EnvironmentMutationRequest) : result (list (string * string) * list string) :=
  updates ← each (fun kv : string * string => key ← env_key (JStr kv.1); Ok (key, kv.2)) (em_updates q);
  removals ← env_names (em_removals q);
  _ ← guard_else (negb (existsb (one_of_words (map fst updates)) removals))
        (ValidationError "environment keys cannot be both set and removed");
  _ ← guard_else (negb (is_unset (em_action q) && Nat.eqb (length removals) 0))
        (ValidationError "select at least one environment key to remove");
  _ ← guard_else (is_unset (em_action q) || Nat.eqb (length removals) 0)
        (ValidationError "environment removals require the unset action");
  _ ← guard_else (negb (is_unset (em_action q) && negb (Nat.eqb (length updates) 0)))
        (ValidationError "environment updates require set or import");
  Ok (updates, removals).

Section Environment.
Context (platform : PlatformConfig) (policy : Policy) (helper_caller : Caller).

(** [self._helper]: the bounds the callee gives are replaced by the deadline. *)
Definition _helper (deadline : Z) : Caller := fun action values _ => helper_caller action values deadline.

Definition _ownership (application_id : string) : Svc (list (string * string)) :=
  rows ← db (list_environment_keys (Some application_id));
  mret (map (fun r => (ek_key_name r, ek_owner r)) rows).

(** The intent an interrupted operation has recorded *)
Definition interrupted_intent (refs : dict) : result (list string * bool) :=
  let malformed := ApplicationError "interrupted environment intent is malformed" in
  intended ← text_items (refs_get "key_names" refs) malformed;
  setting ← match refs_get "mutation" refs with
            | JStr m => if String.eqb m "set" then Ok true else if String.eqb m "unset" then Ok false else Raise malformed
            | JArr _ | JObj _ => Raise TypeError
            | _ => Raise malformed
            end;
  names ← env_names intended;
  _ ← guard_else (negb (existsb platform_name names))
        (ApplicationError "interrupted staff environment intent used a reserved key");
  Ok (names, setting).

Definition _recover_interrupted (a : Application) (ownership : list (string * string)) (operation : Operation) (deadline : Z)
    (finish : bool) : Svc unit :=
  intent ← lift (interrupted_intent (op_refs operation));
  timeout ← remaining_seconds deadline (py_helper_seconds policy);
  observed ← list_environment (_helper deadline) (app_slug a) timeout;
  names ← lift (text_items (refs_get "keys" observed)
                  (ApplicationError "helper returned invalid interrupted environment evidence"));
  present ← lift (env_names names);
  let recovered := among present (staff_names ownership)
    ++ (if intent.2 : bool then List.filter (staff_may ownership) (among present intent.1) else []) in
  _ ← db (set_environment_keys (app_application_id a) "staff" (sorted_set recovered));
  if finish then
    _ ← db (mark_failed (op_operation_id operation)
              (Text "interrupted environment state was observed before explicit retry") "not_required" None);
    mret tt
  else mret tt.

(** What the operation intends, as its references *)
Definition intent_refs (intended : list string) (removing : bool) : dict :=
  [("key_names", JArr (map JStr intended)); ("mutation", JStr (if removing then "unset" else "set"))].

(** Nothing else is under way, or it is an environment change, whose outcome is
    then observed. *)
Definition recover_unfinished (a : Application) (scope : string) (unfinished : option Operation)
    (ownership : list (string * string)) (resuming : bool) (deadline : Z) : Svc (list (string * string)) :=
  match unfinished with
  | None => mret ownership
  | Some o =>
      _ ← require (startswith (op_kind o) "app.env.") (UnfinishedOperationError scope (op_operation_id o) (op_kind o));
      _ ← _recover_interrupted a ownership o deadline (negb resuming);
      _ownership (app_application_id a)
  end.

Definition protected_name (ownership : list (string * string)) (name : string) : bool :=
  platform_name name || match dict_get name ownership with Some owner => negb (String.eqb owner "staff") | None => false end.

Definition record_intent (operation_id kind scope : string) (refs : dict) (resuming : bool) (deadline : Z) : Svc unit :=
  at_ ← wall_deadline deadline;
  if resuming then
    _ ← db (renew_operation_deadline operation_id at_ None);
    _ ← checkpoint operation_id "intent_recorded" (Some refs); mret tt
  else
    _ ← db (begin_operation operation_id kind scope "intent_recorded" at_ refs None); mret tt.

Definition restart_confirmed (a : Application) (answer : dict) : Svc unit :=
  if negb (app_desired_running a) then mret tt else
  deployment ← db (get_deployment (app_application_id a));
  require (is_null deployment || is_true (refs_get "restarted" answer) && is_true (refs_get "schedulerHealthy" answer)
           && is_true (refs_get "publicHealthy" answer))
    (ApplicationError "environment restart and health evidence was not confirmed").

(** The change at the helper, then its names and the revision *)
Definition change_environment (a : Application) (operation_id : string) (revision : Z) (ownership updates : list (string * string))
    (removals : list string) (refs : dict) (deadline : Z) : Svc (dict * list string) :=
  timeout ← remaining_seconds deadline (py_helper_seconds policy);
  answer ← (match removals with
            | [] => set_environment (_helper deadline) (app_slug a) updates ownership timeout
            | _ => remove_environment (_helper deadline) (app_slug a) removals ownership timeout
            end : Svc dict);
  names ← lift (text_items (refs_get "keys" answer) (ApplicationError "helper returned invalid environment key evidence"));
  _ ← restart_confirmed a answer;
  present ← lift (env_names names);
  let owned := among present (staff_names ownership ++ map fst updates) in
  _ ← db (set_environment_keys (app_application_id a) "staff" (sorted_set owned));
  _ ← db (advance_environment_revision (app_application_id a) revision None);
  _ ← checkpoint operation_id "accepted" (Some refs);
  _ ← db (mark_succeeded operation_id "not_required" None);
  mret (answer, present).

Definition change_failed {A} (operation_id : string) (refs : dict) (e : error) : Svc A :=
  _ ← (match e with
       | HelperError "ENVIRONMENT_HEALTH_FAILED" =>
           _ ← checkpoint operation_id "environment_unhealthy" (Some refs);
           _ ← db (mark_failed operation_id
                     (Text "the app was unhealthy with the new environment; prior values were restored") "confirmed" None);
           mret tt
       | _ => _ ← db (mark_recovery_required operation_id (Exn (error_name e)) None None); mret tt
       end : Svc unit);
  raise e.

Definition mutate_locked (q : EnvironmentMutationRequest) (a : Application) (updates : list (string * string))
    (removals : list string) (deadline : Z) : Svc EnvironmentMutationResult :=
  let scope := app_scope a in
  timeout ← remaining_seconds deadline (py_process_seconds policy);
  _ ← OpenStack.verify_project platform timeout;
  refreshed ← db (get_application (em_application q));
  a ← (match refreshed with
       | Some r => if String.eqb (app_application_id r) (app_application_id a) then mret r else raise application_missing
       | None => raise application_missing
       end : Svc Application);
  ownership ← _ownership (app_application_id a);
  revision ← db (get_environment_revision (app_application_id a));
  revision ← lift (match revision with
                   | Some r => Ok (er_revision r)
                   | None => Raise (DatabaseError "application environment revision is missing")
                   end);
  operation_id ← (match em_request_id q with None => db fresh_uuid | Some i => lift (uuid i) end : Svc string);
  let kind := "app.env." +:+ action_text (em_action q) in
  unfinished ← db (get_unfinished_operation scope);
  let resuming := match unfinished with
    | Some o => String.eqb (op_operation_id o) operation_id && String.eqb (op_kind o) kind
    | None => false
    end in
  ownership ← recover_unfinished a scope unfinished ownership resuming deadline;
  let intended := sorted_set (map fst updates ++ removals) in
  _ ← (match List.filter (protected_name ownership) intended with
       | [] => mret tt
       | first :: _ => raise (ValidationError ("environment key '" +:+ first +:+ "' is reserved for the platform or storage"))
       end : Svc unit);
  let refs := intent_refs intended (negb (Nat.eqb (length removals) 0)) in
  _ ← record_intent operation_id kind scope refs resuming deadline;
  changed ← catch (change_environment a operation_id revision ownership updates removals refs deadline)
    (change_failed operation_id refs);
  index ← lift (match refs_get "modifyIndex" changed.1 with
                | JNull => Ok None
                | JInt z => Ok (Some z)
                | _ => Raise (ApplicationError "helper returned invalid environment revision evidence")
                end);
  mret {| ek_names := sorted_set changed.2; ek_modify_index := index |}.

Definition mutate_environment (q : EnvironmentMutationRequest) : Svc EnvironmentMutationResult :=
  application ← db (get_application (em_application q));
  match application with
  | None => raise application_missing
  | Some a =>
      _ ← reject_deleting a;
      checked ← lift (checked_request q);
      deadline ← operation_deadline (py_process_seconds policy);
      lock (app_scope a) (mutate_locked q a checked.1 checked.2 deadline)
  end.
End Environment.
