(* ===== verification/StorageSpec.v ===== *)
(** * Properties of the mutations of managed storage

    What may be asked of the provider and in which order, and what is recorded on
    which evidence, however a mutation ends. *)

From S2P Require Import Prelude Regex Json JsonParse Clock Validation Runtime Sql Schema StorageCapacity Operations.
From S2P Require Import OperationsSpec AdmissionSpec StorageContract DeploymentConfig Applications ApplicationsSpec Resources ResourcesSpec.
From S2P Require Import Sizing NomadJobs Service Rollout RolloutSpec StorageLimits StorageLimitsSpec.
From S2P Require Import OpenStack OpenStackSpec IpAddress FloatingIp PublicIp PublicIpSpec FixedIp RetainedPort RetainedPortSpec.
From S2P Require Import Sha256 WorkerHelperSpec Finishing FinishingSpec ApplicationService ApplicationServiceSpec Storage.

(** ** Where a helper's error comes from

    A call is calm when it raises no [HelperError] of its own. *)

Definition calm {A} (r : result A) : Prop := match r with Raise (HelperError _) => False | _ => True end.

Definition calms {S A} (m : M S A) : Prop := forall s, calm (m s).1.

Create HintDb calm discriminated.

Lemma calm_bind {A B} (m : result A) (f : A -> result B) : calm m -> (forall a, calm (f a)) -> calm (m ≫= f).
Proof. intros Hm Hf. unfold mbind, result_bind. destruct m as [a|[]]; done || apply Hf. Qed.

Lemma calms_bind {S A B} (m : M S A) (f : A -> M S B) : calms m -> (forall a, calms (f a)) -> calms (m ≫= f).
Proof.
  intros Hm Hf s. unfold mbind, M_bind. specialize (Hm s). destruct (m s) as [[a|e] s1]; [apply Hf|exact Hm].
Qed.

Lemma calms_lift {S A} (r : result A) : calm r -> calms (lift r : M S A).
Proof. by intros H s. Qed.

Lemma calms_require {S} b e : calm (Raise e : result unit) -> calms (require b e : M S unit).
Proof. intros H s. unfold require, guard_else. by destruct b. Qed.

Lemma calm_guard b e : calm (Raise e : result unit) -> calm (guard_else b e).
Proof. by destruct b. Qed.

Lemma calms_transaction {D A} (m : Sql.db D A) : calms m -> calms (transaction m).
Proof.
  intros H s. unfold transaction. destruct (in_transaction s); [done|]. specialize (H (with_transaction true s)).
  by destruct (m _) as [[a|e] c].
Qed.

Lemma calms_gets {S A} (f : S -> A) : calms (gets f).
Proof. intros s. exact I. Qed.

Lemma calms_ret {S A} (a : A) : calms (mret a : M S A).
Proof. intros s. exact I. Qed.

Lemma calms_raise {S A} e : calm (Raise e : result A) -> calms (raise e : M S A).
Proof. by intros H s. Qed.

Lemma calms_update {D R} `{Sql.Table D R} p f : calms (update p f : Sql.db D nat).
Proof. intros s. unfold update, write. cbv zeta. destruct (forallb _ _); [destruct (table_ok (store s) _)|]; exact I. Qed.

Lemma calms_select {D R} `{Sql.Table D R} p : calms (Sql.select p : Sql.db D (list R)).
Proof. intros s. exact I. Qed.

Lemma calms_fetchone {D R} `{Sql.Table D R} p : calms (fetchone p : Sql.db D (option R)).
Proof. intros s. exact I. Qed.

Lemma calms_clock {D} : calms (read_clock : Sql.db D string).
Proof. intros s. exact I. Qed.

Lemma calms_now {D} : calms (datetime_now : Sql.db D Z).
Proof. intros s. exact I. Qed.

Lemma calms_monotonic : calms monotonic.
Proof. intros s. exact I. Qed.

Lemma calms_db {A} (m : DB A) : calms m -> calms (db m).
Proof. intros H w. unfold db. specialize (H (w_db (interfere w))). by destruct (m _). Qed.

Lemma calm_each {A B} (f : A -> result B) l : (forall a, calm (f a)) -> calm (each f l).
Proof. intros H. induction l as [|a l IH]; simpl; [done|]. apply calm_bind; [done|intros b]. by apply calm_bind. Qed.

Lemma calm_ignore {A} (r : result A) : calm r -> calm (ignore r).
Proof. by destruct r. Qed.

#[export] Hint Resolve calms_gets calms_ret calms_update calms_select calms_fetchone calms_clock calms_now calms_monotonic : calm.

Ltac head_of t := lazymatch t with ?f _ => head_of f | ?f => f end.

Ltac calm_head :=
  match goal with |- calm ?t => let h := head_of t in unfold h | |- calms ?t => let h := head_of t in unfold h end.

Ltac calm_step :=
  match goal with
  | |- forall _, _ => intros ?
  | |- calm (Ok _) => exact I
  | |- calm (Raise _) => exact I
  | |- calm (_ ≫= _) => apply calm_bind
  | |- calm (guard_else _ _) => apply calm_guard
  | |- calm (each _ _) => apply calm_each
  | |- calm (ignore _) => apply calm_ignore
  | |- calms (_ ≫= _) => apply calms_bind
  | |- calms (lift _) => apply calms_lift
  | |- calms (require _ _) => apply calms_require
  | |- calms (raise _) => apply calms_raise
  | |- calms (transaction _) => apply calms_transaction
  | |- calms (db _) => apply calms_db
  | |- calm (match ?x with _ => _ end) => destruct x
  | |- calms (match ?x with _ => _ end) => destruct x
  | |- calm (let _ := _ in _) => cbv zeta
  | |- calms (let _ := _ in _) => cbv zeta
  | |- _ => solve [auto with calm]
  | |- _ => calm_head
  end.
Ltac calming := repeat calm_step.

Lemma calm_outputs l : forall ts, calm (parse_outputs l ts).
Proof.
  induction l as [|[o t] l IH]; intros ts; simpl; [exact I|]. repeat first [apply IH | calm_step].
Qed.
#[export] Hint Resolve calm_outputs : calm.

Lemma calm_bindings l : forall ids ts, calm (parse_bindings l ids ts).
Proof.
  induction l as [|b l IH]; intros ids ts; [exact I|]. cbn [parse_bindings]. repeat first [apply IH | calm_step].
Qed.
#[export] Hint Resolve calm_bindings : calm.

Lemma calms_checkpoint i p r m g s n : calms (checkpoint_operation i p r m g s n).
Proof. calming. Qed.

Lemma calms_listed o : calms (list_managed_resources o).
Proof. calming. Qed.

Lemma calms_metadata i r : calms (helper_metadata i r).
Proof. calming. Qed.

(** ** Requests and records of a mutation *)

(** *** What the database calls do to the resources *)

Definition same_place (r r' : ManagedResource) : Prop :=
  mr_resource_id r' = mr_resource_id r /\ mr_application_id r' = mr_application_id r
  /\ mr_resource_type r' = mr_resource_type r /\ mr_resource_name r' = mr_resource_name r.

Definition is_active (r : ManagedResource) : Prop := mr_lifecycle_state r = "active"%string.

(** The resources of the place [lost] may be lost, those of [made] become active. *)
Definition moves (lost made : ManagedResource -> Prop) (d d' : Db) : Prop :=
  (forall r, In r (managed_resources d) -> lost r \/ exists r', In r' (managed_resources d') /\ same_place r r')
  /\ forall r', In r' (managed_resources d') -> is_active r' ->
       made r' \/ exists r, In r (managed_resources d) /\ same_place r r' /\ is_active r.

Definition none (r : ManagedResource) : Prop := False.

Lemma same_place_refl r : same_place r r.
Proof. by unfold same_place. Qed.
#[local] Hint Resolve same_place_refl : core.

Lemma same_moves lost made d d' : same_resources d d' -> moves lost made d d'.
Proof. unfold same_resources, moves. intros ->. split; intros r H; [|intros Ha]; right; by exists r. Qed.

#[export] Instance moves_refl lost made : Reflexive (moves lost made).
Proof. intros d. by apply same_moves. Qed.

Lemma moves_insert lost made d r : (is_active r -> made r) ->
  moves lost made d (with_managed_resources (managed_resources d ++ [r]) d).
Proof.
  intros Hr. split; [intros x Hx; right; exists x; split; [by apply in_or_app; left|done]|].
  intros x [Hx|[<-|[]]]%in_app_or Ha; [right; by exists x|left; by apply Hr].
Qed.

Lemma moves_update lost made d p f : (forall r, p r = true -> same_place r (f r) /\ (is_active (f r) -> made (f r) \/ is_active r)) ->
  moves lost made d (with_managed_resources (apply_where p f (managed_resources d)) d).
Proof.
  intros Hf. split.
  - intros r Hr. right. exists (if p r then f r else r). split; [apply in_apply_where; by exists r|].
    destruct (p r) eqn:E; [by apply Hf|done].
  - intros r' (r & Hr & ->)%in_apply_where Ha. destruct (p r) eqn:E; [|right; by exists r].
    destruct (Hf r E) as [Hs Hm]. destruct (Hm Ha); [by left|right; by exists r].
Qed.

Lemma moves_delete made d p :
  moves (fun r => p r = true) made d (with_managed_resources (List.filter (fun r => negb (p r)) (managed_resources d)) d).
Proof.
  split.
  - intros r Hr. destruct (p r) eqn:E; [by left|right]. exists r. split; [|done]. apply filter_In. by rewrite E.
  - intros r [Hr _]%filter_In Ha. right. by exists r.
Qed.

Class Placed (P : ManagedResource -> Prop) := placed r r' : same_place r r' -> P r <-> P r'.

#[export] Instance placed_none : Placed none.
Proof. done. Qed.

#[export] Instance placed_named a t n : Placed (fun r => Resources.named a t n r = true).
Proof. intros r r' (_ & H1 & H2 & H3). unfold Resources.named. by rewrite H1, H2, H3. Qed.

#[export] Instance moves_preorder lost made `{!Placed lost} `{!Placed made} : PreOrder (moves lost made).
Proof.
  split; [apply _|]. intros d1 d2 d3 [H1 H2] [K1 K2]. split.
  - intros r [Hl|(r2 & Hr2 & Hp)]%H1; [by left|]. destruct (K1 _ Hr2) as [Hl|(r3 & Hr3 & Hq)]; [left; by apply (placed r r2)|].
    right. exists r3. split; [done|]. unfold same_place in *. intuition congruence.
  - intros r Hr Ha. destruct (K2 _ Hr Ha) as [|(r2 & Hr2 & Hp & Ha2)]; [by left|].
    destruct (H2 _ Hr2 Ha2) as [Hm|(r1 & Hr1 & Hq & Ha1)]; [left; by apply (placed r2 r)|].
    right. exists r1. split_and!; [done| |done]. unfold same_place in *. intuition congruence.
Qed.

Lemma moves_more lost lost' made made' d d' : (forall r, lost r -> lost' r) -> (forall r, made r -> made' r) ->
  moves lost made d d' -> moves lost' made' d d'.
Proof.
  intros Hl Hm [H1 H2]. split; [intros r [|]%H1; [left; auto|by right]|].
  intros r Hr Ha. destruct (H2 r Hr Ha); [left; auto|by right].
Qed.

(** Recording a resource: only a row of its place can become active, and only
    when the new state says so. *)
Lemma put_moves i n : evolves (moves none (fun r => Resources.named (ri_application_id i) (ri_resource_type i) (ri_resource_name i) r = true
    /\ ri_lifecycle_state i = "active"%string)) (put_managed_resource i n).
Proof.
  set (made := fun r => _). assert (Placed made) by (intros r r' Hr; unfold made; by rewrite (placed_named _ _ _ r r' Hr)).
  unfold put_managed_resource. evolve.
  all: try (apply still_evolves; [apply _|first [apply still_now|apply still_choose|apply still_reads; auto with reads]]).
  all: repeat match goal with
    | H : uuid _ = Ok _ |- _ => apply uuid_json in H; injection H as <-
    | H : resource_name _ = Ok _ |- _ => apply resource_name_ok in H as [[= <-] _] end.
  all: try first [apply reads_admit_resource|apply reads_resource].
  - apply moves_insert. intros Ha. unfold made, Resources.named. simpl. by rewrite !eqb_self.
  - apply moves_update. intros r Hr. split; [by unfold same_place|]. intros Ha. left. by split.
Qed.

Lemma instance_moves i j p m : evolves (moves none none) (set_storage_instance i j p m).
Proof. unfold set_storage_instance. evolve. apply moves_update. intros r _. split; [by unfold same_place|by right]. Qed.

Lemma delete_moves a t n : evolves (moves (fun r => Resources.named a t n r = true) none) (delete_managed_resource a t n).
Proof.
  unfold delete_managed_resource. evolve.
  match goal with H : resource_name _ = Ok _ |- _ => apply resource_name_ok in H as [[= <-] _] end. apply moves_delete.
Qed.

Lemma keys_resources i o l : evolves same_resources (set_environment_keys i o l).
Proof. unfold set_environment_keys. evolve; done. Qed.

(** ** Asking about a resource

    [call_with_metadata] adds what the database tells of the resource; the rest
    of what is asked is the caller's. *)
Definition metadata_keys : list string :=
  ["resourceId"; "stagedInstanceId"; "reservations"; "workloadJobId"; "retainedWorker"; "instanceId"; "instanceQuotas"; "workerIds"].

Definition carries (args sent : dict) : Prop := forall k, one_of_words metadata_keys k = false -> refs_get k sent = refs_get k args.

(** How a call ends: without having asked, or with the answer to one request *)
Definition asked_once (action : string) (args : dict) (w : World) (r : result dict) (w' : World) : Prop :=
  silent w w' /\ (exists e, r = Raise e /\ calm r)
  \/ exists u sent t, silent w u /\ carries args sent /\ w' = asked (Helper action sent t) u /\ r = w_helper w (w_requests w').

Lemma metadata_carried id row c md c' args : helper_metadata id row c = (Ok md, c') -> carries args (dict_merge args md).
Proof.
  unfold helper_metadata. intros H. do 4 apply bind_ok in H as (? & ? & _ & H). injection H as <- _.
  intros k Hk. unfold refs_get. rewrite dict_get_merge; [done|]. intros Hin.
  assert (E : one_of_words metadata_keys k = true) by (apply existsb_exists; exists k; split; [exact Hin|apply eqb_self]). congruence.
Qed.

Lemma silent_steps w w1 w2 : silent w w1 -> silent w1 w2 -> silent w w2.
Proof. intros; by etransitivity. Qed.

(** A step that asks nothing, then the rest *)
Lemma quiet_step {A B} (m : Svc A) (f : A -> Svc B) w r w' : preserves silent m -> calms m -> (m ≫= f) w = (r, w') ->
  silent w w' /\ (exists e, r = Raise e /\ calm r) \/ exists x w1, silent w w1 /\ m w = (Ok x, w1) /\ f x w1 = (r, w').
Proof.
  intros Hs Hc H. pose proof (Hs w) as S. pose proof (Hc w) as C. apply any_step in H as [(e & -> & H)|(x & w1 & H1 & H)].
  - left. rewrite H in S, C. split; [done|]. exists e. split; [done|]. by destruct e.
  - right. exists x, w1. rewrite H1 in S. by split_and!.
Qed.

Lemma forwards id name deadline action args t w r w' : call_with_metadata call_helper id name deadline action args t w = (r, w') ->
  asked_once action args w r w'.
Proof.
  unfold call_with_metadata, asked_once. intros H.
  apply quiet_step in H as [|(kind & w1 & S1 & _ & H)]; [by left| |intros s; reflexivity|calming].
  apply quiet_step in H as [[S ?]|(rows & w2 & S2 & _ & H)]; [left; split; [by etransitivity|done]| |apply silent_db, listed_still|apply calms_db, calms_listed].
  apply quiet_step in H as [[S ?]|(md & w3 & S3 & Hm & H)]; [left; split; [etransitivity; [exact S1|]; by etransitivity|done]| |apply silent_db, helper_metadata_still|apply calms_db, calms_metadata].
  right. apply db_step in Hm. apply helper_step in H as [-> H]. exists w3, (dict_merge args md), deadline.
  assert (S : silent w w3) by (etransitivity; [exact S1|]; by etransitivity). split_and!; [done|by eapply metadata_carried|done|].
  rewrite <- H. simpl. by rewrite (follows_helper _ _ (drifts_follows _ _ (proj1 S))).
Qed.

Lemma before_silent d z : preserves silent (before d z).
Proof. pose proof silent_monotonic. unfold before. preserving. Qed.

Lemma datetime_silent : preserves silent (db datetime_now).
Proof. apply silent_db. evolve. Qed.

Lemma call_cases policy id name deadline action args at_ pd w r w' :
  _call policy (call_with_metadata call_helper id name deadline) action args at_ pd w = (r, w') -> asked_once action args w r w'.
Proof.
  unfold _call, asked_once. intros H. destruct (aware_instant at_) as [d|]; [|injection H as <- <-; left; split; [reflexivity|by eexists]].
  apply quiet_step in H as [|(now & w1 & S1 & _ & H)]; [by left| |apply datetime_silent|apply calms_db, calms_now].
  apply quiet_step in H as [[S ?]|(z & w2 & S2 & _ & H)]; [left; split; [by etransitivity|done]| |apply before_silent|unfold before; calming].
  apply quiet_step in H as [[S ?]|(? & w3 & S3 & _ & H)];
    [left; split; [etransitivity; [exact S1|]; by etransitivity|done]| |intros s; reflexivity|calming].
  assert (S : silent w w3) by (etransitivity; [exact S1|]; by etransitivity).
  apply forwards in H as [[S4 H]|(u & sent & t & S4 & H1 & H2 & ->)]; [left; split; [by etransitivity|done]|right].
  exists u, sent, t. split_and!; [by etransitivity|done|done|]. by rewrite (follows_helper _ _ (drifts_follows _ _ (proj1 S))).
Qed.

(** *** The evidence for a change *)

(** The newest request was the action, for this resource, and its answer is [ok]. *)
Definition newest (action : string) (r : ManagedResource) (ok : dict -> result dict -> Prop) (w : World) : Prop :=
  exists args t earlier, w_requests w = Helper action args t :: earlier
    /\ refs_get "applicationId" args = JStr (mr_application_id r) /\ refs_get "resourceName" args = JStr (mr_resource_name r)
    /\ ok args (w_helper w (w_requests w)).

Definition answer_shows (keys : list string) (r : result dict) : Prop :=
  exists d, r = Ok d /\ Forall (fun key => is_true (refs_get key d) = true) keys.

Definition storage_verb_of (verb : string) (r : ManagedResource) : string := "storage." +:+ mr_resource_type r +:+ verb.

(** The resource is gone: its removal was confirmed, or its creation undone. *)
Definition gone (w : World) (r : ManagedResource) : Prop :=
  newest (storage_verb_of ".remove" r) r (fun args answer =>
    refs_get "preflight" args = JBool false /\ answer_shows ["confirmedAbsent"; "environmentRemoved"] answer) w
  \/ newest (storage_verb_of ".create" r) r (fun _ answer => answer = Raise (HelperError "CREATE_ROLLED_BACK")) w.

(** The resource works: it was created or verified, or its credential was
    replaced or kept. *)
Definition works (w : World) (r : ManagedResource) : Prop :=
  newest (storage_verb_of ".create" r) r (fun _ => answer_shows ["verified"; "evidenceAccepted"]) w
  \/ newest (storage_verb_of ".verify" r) r (fun _ => answer_shows ["verified"]) w
  \/ newest (storage_verb_of ".rotate" r) r (fun _ answer =>
       answer_shows ["verified"; "evidenceAccepted"; "retired"] answer \/ answer_shows ["verified"; "rolledBack"] answer) w.

Definition evidenced (w : World) : Db -> Db -> Prop := moves (gone w) (works w).

(** *** When a resource may be removed *)

(** A request about a resource of the operation *)
Definition about (a : Application) (o : Operation) (name : string) (r : ManagedResource) (preflight : bool) (args : dict) : Prop :=
  refs_get "applicationId" args = JStr (app_application_id a) /\ refs_get "resourceName" args = JStr name
  /\ refs_get "operationId" args = JStr (op_operation_id o) /\ refs_get "preflight" args = JBool preflight
  /\ refs_get "providerId" args = StorageLimits.opt_text (mr_provider_id r) /\ refs_get "providerName" args = JStr (mr_provider_name r).

(** The newest requests were the preflights of the types, the last type first,
    and each was accepted. *)
Fixpoint preflighted (a : Application) (o : Operation) (name : string) (rows : list ManagedResource) (w : World)
    (types : list string) (l : list Request) : Prop :=
  match types, l with
  | [], _ => True
  | ty :: types', Helper action args t :: l' =>
      (exists r, resource_at ty name rows = Some r /\ about a o name r true args) /\ action = remove_action ty
      /\ answer_shows ["preflightAccepted"] (w_helper w l) /\ preflighted a o name rows w types' l'
  | _, _ => False
  end.

(** The running deployment uses none of the resources. *)
Definition unreferenced (a : Application) (name : string) (selected : list string) (w0 w : World) : Prop :=
  exists rows active accepted,
    once (fun u => (_resources (app_application_id a) u).1 = Ok rows) w0 w
    /\ once (fun u => (db (active_storage_resource_ids (app_application_id a)) u).1 = Ok active) w0 w
    /\ once (fun u => (db (get_deployment (app_application_id a)) u).1 = Ok accepted) w0 w
    /\ Forall (fun ty => is_referenced name rows active accepted ty = Ok false) selected.

(** The operation is on record as removing the type, with what it has completed. *)
Definition removing (o : Operation) (selected completed : list string) (ty : string) : World -> Prop :=
  row_marked (op_operation_id o) (fun row => op_phase row = "remove_" +:+ ty
    /\ refs_get "selected" (op_refs row) = Storage.words selected /\ refs_get "completed" (op_refs row) = Storage.words completed).

Definition pending_types (selected completed : list string) : list string :=
  List.filter (fun ty => negb (one_of_words completed ty)) selected.

(** Everything that has to hold when the helper is asked to remove a resource *)
Definition removal_due (q : StorageMutationRequest) (w0 w : World) (action : string) (args : dict) : Prop :=
  exists a o name selected completed rows ty r,
    sm_action q = st_remove /\ sm_confirm_name q = Some name /\ _selected (sm_resource_types q) = Ok selected
    /\ once (fun u => exists i, (db (get_application i) u).1 = Ok (Some a)) w0 w
    /\ unreferenced a name selected w0 w
    /\ In ty (pending_types selected completed)
    /\ preflighted a o name rows w (rev (pending_types selected completed)) (w_requests w)
    /\ once (removing o selected completed ty) w0 w
    /\ resource_at ty name rows = Some r /\ action = remove_action ty /\ about a o name r false args.

Definition guarded (q : StorageMutationRequest) (w0 w : World) (r : Request) : Prop :=
  match r with
  | Helper action args _ => one_of_words removal_actions action = true ->
      is_true (refs_get "preflight" args) = true \/ removal_due q w0 w action args
  | _ => True
  end.

(** ** What a mutation does *)

#[export] Hint Resolve resources_checkpoint resources_begin resources_finished resources_recovery resources_succeeded
  resources_failed keys_resources : evolve.

Section Proofs.
Context (platform : PlatformConfig) (policy : Policy) (id : string) (of_name : string) (deadline : Z)
  (q : StorageMutationRequest) (w0 : World).

Abbreviation R := (justified (guarded q w0) evidenced).
Abbreviation asking := (call_with_metadata call_helper id of_name deadline).

Lemma guarded_other w action args t : one_of_words removal_actions action = false -> guarded q w0 w (Helper action args t).
Proof. intros H E. congruence. Qed.

Lemma R_same {A} (m : DB A) : evolves same_resources m -> preserves R (db m).
Proof. intros H w. eapply justified_evolves; [exact H|]. intros d d'. apply same_moves. Qed.

Lemma R_still {A} (m : DB A) : evolves eq m -> preserves R (db m).
Proof. intros H w. by apply just_silent, silent_db. Qed.

Lemma R_monotonic : preserves R monotonic.
Proof. intros w. apply just_silent, silent_monotonic. Qed.

Lemma R_put i n : ri_lifecycle_state i <> "active"%string -> preserves R (db (put_managed_resource i n)).
Proof. intros H w. eapply justified_evolves; [apply put_moves|]. intros d d'. apply moves_more; [by intros ?|intros r [_ E]; congruence]. Qed.

Lemma R_instance i j p m : preserves R (db (set_storage_instance i j p m)).
Proof. intros w. eapply justified_evolves; [apply instance_moves|]. intros d d'. by apply moves_more; intros ?. Qed.

Lemma R_call action args at_ pd w : (forall u sent t, silent w u -> carries args sent -> guarded q w0 u (Helper action sent t)) ->
  R w (_call policy asking action args at_ pd w).2.
Proof.
  intros H. destruct (_call _ _ _ _ _ _ w) as [r w'] eqn:E. apply call_cases in E as [[S _]|(u & sent & t & S & Hc & -> & _)]; simpl.
  - by apply just_silent.
  - etransitivity; [by apply just_silent|]. by apply just_ask, H.
Qed.

Lemma R_other action args at_ pd : one_of_words removal_actions action = false -> preserves R (_call policy asking action args at_ pd).
Proof. intros H w. apply R_call. intros. by apply guarded_other. Qed.

Lemma newest_later action r ok u u' : quietly u u' -> newest action r ok u -> newest action r ok u'.
Proof.
  intros [F E] (args & t & l & H1 & H2 & H3 & H4). exists args, t, l. rewrite E, (follows_helper _ _ F). by split_and!.
Qed.

Lemma works_later u u' r : quietly u u' -> works u r -> works u' r.
Proof. intros Q [H|[H|H]]; [left|right; left|right; right]; by eapply newest_later. Qed.

Lemma gone_later u u' r : quietly u u' -> gone u r -> gone u' r.
Proof. intros Q [H|H]; [left|right]; by eapply newest_later. Qed.

Lemma R_quiet u u' : silent u u' -> R u u'.
Proof. apply just_silent. Qed.

Lemma put_active i n w : (forall r, Resources.named (ri_application_id i) (ri_resource_type i) (ri_resource_name i) r = true -> works w r) ->
  R w (db (put_managed_resource i n) w).2.
Proof. intros H. eapply justified_evolves; [apply put_moves|]. intros d d'. apply moves_more; [by intros ?|]. intros r [Hr _]. by apply H. Qed.

Ltac mutating := intros; preserving;
  try (first [apply R_monotonic | apply R_still; solve [auto with evolve | evolve]
             | apply R_same; solve [auto with evolve | evolve; done] | apply R_instance]).

Lemma progress_R o ph refs : preserves R (progress o ph refs).
Proof. unfold progress. mutating. Qed.

Lemma index_R o ph refs answer : preserves R (_checkpoint_observed_index o ph refs answer).
Proof. unfold _checkpoint_observed_index. pose proof progress_R. mutating. Qed.

Lemma resources_R i : preserves R (_resources i).
Proof. unfold _resources. mutating. Qed.

Lemma application_R i : preserves R (_application i).
Proof. unfold _application. mutating. Qed.

Lemma existing_R a k s refs : preserves R (_existing_operation a k s refs).
Proof. unfold _existing_operation. mutating. Qed.

Lemma complete_R o s c refs : preserves R (_complete_operation o s c refs).
Proof. unfold _complete_operation. mutating. Qed.

Lemma deadline_R pd : preserves R (_deadline policy pd).
Proof. unfold _deadline, seconds_after. mutating. Qed.

Lemma attempt_R o b pd : preserves R (_attempt_deadline policy o b pd).
Proof. unfold _attempt_deadline, _fresh_recovery_deadline, before, seconds_after. mutating. Qed.

Lemma begin_R a k s ph i dl refs : preserves R (_begin a k s ph i dl refs).
Proof. unfold _begin. mutating. Qed.

Lemma resume_R i dl pd a found k s ph refs : preserves R (resume_or_begin policy i dl pd a found k s ph refs).
Proof. unfold resume_or_begin. pose proof deadline_R. pose proof begin_R. mutating. Qed.

Lemma put_R a ty name state pid pname existing v : state <> "active"%string -> preserves R (_put_resource policy a ty name state pid pname existing v).
Proof. unfold _put_resource. mutating. by apply R_put. Qed.

Lemma ambiguous_R {A} a o ty ph pid pname message : preserves R (_mark_ambiguous policy a o ty ph pid pname message : Svc A).
Proof. unfold _mark_ambiguous. pose proof resources_R. pose proof put_R. mutating. Qed.

(** *** Confirmed calls *)

Lemma caught {A} (m : Svc A) (h : error -> Svc A) w a w' : (forall e u v u', h e u <> (Ok v, u')) -> catch m h w = (Ok a, w') -> m w = (Ok a, w').
Proof. unfold catch. intros Hh. destruct (m w) as [[v|e] w1]; [done|]. intros H. by apply Hh in H. Qed.

Lemma mark_raises {A} a o ty ph pid pname message w (v : A) w' : _mark_ambiguous policy a o ty ph pid pname message w <> (Ok v, w').
Proof. unfold _mark_ambiguous. intros H. by do 4 apply bind_ok in H as (? & ? & _ & H). Qed.

Lemma call_newest verb a ty name args at_ pd ok w r w' :
  _call policy asking ("storage." +:+ ty +:+ verb) args at_ pd w = (r, w') -> (forall e, r = Raise e -> ~ calm r) ->
  refs_get "applicationId" args = JStr (app_application_id a) -> refs_get "resourceName" args = JStr name ->
  (forall sent, carries args sent -> ok sent r) ->
  forall row, Resources.named (app_application_id a) ty name row = true -> newest (storage_verb_of verb row) row ok w'.
Proof.
  intros H Hr H1 H2 Hok row Hrow. unfold Resources.named in Hrow.
  apply andb_true_iff in Hrow as [[E1 E2]%andb_true_iff E3]. apply String.eqb_eq in E1, E2, E3.
  apply call_cases in H as [[_ (e & -> & Hc)]|(u & sent & t & [D _] & Hs & -> & ->)]; [by apply (Hr e) in Hc|].
  exists sent, t, (w_requests u). unfold storage_verb_of. rewrite E1, E2, E3, !Hs by done. simpl in *.
  rewrite (follows_helper _ _ (drifts_follows _ _ D)). split_and!; [done|done|done|]. by apply Hok.
Qed.

Lemma index_quiet o ph refs answer : preserves quietly (_checkpoint_observed_index o ph refs answer).
Proof. pose proof (fun A => @quietly_db A). unfold _checkpoint_observed_index, progress. preserving. Qed.

Lemma activated_R a ty name pid pname existing v w :
  (forall r, Resources.named (app_application_id a) ty name r = true -> works w r) ->
  R w (_put_resource policy a ty name "active" pid pname existing v w).2.
Proof.
  intros H. unfold _put_resource. apply (then_kept R).
  { destruct v; [|reflexivity]. apply (then_kept R); [apply R_still; evolve|]. intros. reflexivity. }
  intros at_ w1 H1. assert (Q : quietly w w1).
  { destruct v; [|by injection H1 as _ <-]. apply bind_ok in H1 as (? & ? & H1 & [= _ <-]). exact (kept _ _ _ _ _ (quietly_db _) H1). }
  apply (then_kept R); [|intros; reflexivity]. apply put_active. intros r Hr. simpl in Hr. eapply works_later; [exact Q|by apply H].
Qed.

Lemma answer_with keys d : forallb (fun key => is_true (refs_get key d)) keys = true -> answer_shows keys (Ok d).
Proof. intros H. exists d. split; [done|]. rewrite forallb_forall in H. by apply List.Forall_forall. Qed.

(** What the answers have to show is checked. *)
Lemma identity_verified d r : _identity_result d = Ok r -> is_true (refs_get "verified" d) = true.
Proof.
  unfold _identity_result, mbind, result_bind, guard_else. destruct (identity_text _ _); [|done].
  destruct (identity_text _ _); [|done]. by destruct (is_true _).
Qed.

Definition verb_plain (verb : string) : Prop := String.length verb = 7%nat /\ verb <> ".remove"%string.

Lemma same_suffix (s t x y : string) : String.length x = String.length y -> s +:+ x = t +:+ y -> x = y.
Proof.
  intros Hl H. apply (f_equal String.length) in H as Hn. rewrite !str_length_app in Hn.
  revert t H Hn. induction s as [|c s IH]; intros [|c' t] H Hn; simpl in *; try lia; [done|].
  injection H as -> H. apply (IH t); [done|lia].
Qed.

Lemma plain_action verb ty : verb_plain verb -> one_of_words removal_actions ("storage." +:+ ty +:+ verb) = false.
Proof.
  intros [Hl Hn]. destruct (one_of_words _ _) eqn:E; [|done]. exfalso. apply Hn. apply existsb_exists in E as (t & Ht & E).
  apply String.eqb_eq in E. change ("storage." +:+ ty +:+ verb) with (("storage." +:+ ty) +:+ verb) in E.
  destruct Ht as [<-|[<-|[<-|[]]]].
  - by apply (same_suffix ("storage." +:+ ty) "storage.postgres" verb ".remove").
  - by apply (same_suffix ("storage." +:+ ty) "storage.mongo" verb ".remove").
  - by apply (same_suffix ("storage." +:+ ty) "storage.s3" verb ".remove").
Qed.

(** *** verify, rotate and create *)

Lemma stored_R ty name rows : preserves R (stored ty name rows).
Proof. unfold stored. mutating. Qed.

(** A call whose error is handled by raising another *)
Lemma then_caught {A B} (m : Svc A) (h : error -> Svc A) (f : A -> Svc B) w : R w (m w).2 ->
  (forall e u, m w = (Raise e, u) -> R u (h e u).2) -> (forall e u v u', h e u <> (Ok v, u')) ->
  (forall a u, m w = (Ok a, u) -> R u (f a u).2) -> R w ((catch m h ≫= f) w).2.
Proof.
  intros Hm Hh Hn Hf. apply (then_kept R).
  - unfold catch. destruct (m w) as [[a|e] u]; [done|]. etransitivity; [exact Hm|]. by apply Hh.
  - intros a u H. apply caught in H; [by apply Hf|done].
Qed.

Lemma verify_one_R pd a o name at_ sel comp b rows ty : preserves R (verify_one policy asking pd a o name at_ sel comp b rows ty).
Proof.
  intros w. unfold verify_one, ambiguous. apply (then_kept R); [apply stored_R|]. intros r w1 _. cbv zeta.
  apply (then_kept R); [apply progress_R|]. intros ? w2 _. apply then_caught.
  - apply (then_kept R); [apply R_other, plain_action; by split|]. intros. apply (then_kept R); [reflexivity|]. intros. apply index_R.
  - intros. apply ambiguous_R.
  - intros. apply mark_raises.
  - intros u w3 H. apply activated_R. intros row Hrow. apply bind_ok in H as (d & w4 & Hd & H).
    apply bind_ok in H as (? & ? & [Hv ->]%require_true & H). apply (kept _ _ _ _ _ (index_quiet _ _ _ _)) in H.
    eapply works_later; [exact H|]. right; left. eapply call_newest; [exact Hd|done|reflexivity|reflexivity| |exact Hrow].
    intros ? _. apply answer_with. simpl. by rewrite Hv.
Qed.

(** What a rotation asks *)
Lemma rotation_args_get a o r name ty b k : k <> "postgresConnections"%string ->
  refs_get k (rotation_args a o r name ty b) = refs_get k (dict_merge (dict_merge (_common a name) (provider_args r)) (_mutation_args o b)).
Proof. intros H. unfold rotation_args. destruct (String.eqb ty "postgres"); [|done]. unfold refs_get. by rewrite dict_get_set_ne. Qed.

Lemma failed_mutation {A} o message (e : error) : preserves R (_ ← db (mark_failed (op_operation_id o) (Text message) "confirmed" None); raise e : Svc A).
Proof. mutating. Qed.

Lemma rotate_one_R pd a o name at_ sel comp b rows ty : preserves R (rotate_one policy asking pd a o name at_ sel comp b rows ty).
Proof.
  intros w. unfold rotate_one, ambiguous. apply (then_kept R); [apply stored_R|]. intros r w1 _. cbv zeta.
  apply (then_kept R); [apply progress_R|]. intros ? w2 _. apply then_caught.
  - apply (then_kept R); [apply R_other, plain_action; by split|]. intros. apply (then_kept R); [reflexivity|].
    intros. apply (then_kept R); [apply index_R|]. intros. reflexivity.
  - intros. apply ambiguous_R.
  - intros. apply mark_raises.
  - intros answer w3 H. apply bind_ok in H as (d & w4 & Hd & H).
    apply bind_ok in H as (? & ? & [Hv ->]%lift_ok & H). apply bind_ok in H as (? & w5 & H & [= <- <-]).
    apply (kept _ _ _ _ _ (index_quiet _ _ _ _)) in H.
    assert (Hid : is_true (refs_get "verified" d) = true).
    { unfold _rotation_identity_result, mbind, result_bind in Hv. destruct (_identity_result d) eqn:E; [|done]. by eapply identity_verified. }
    assert (Hw : forall row keys, Resources.named (app_application_id a) ty name row = true ->
      keys = ["verified"; "evidenceAccepted"; "retired"]%string \/ keys = ["verified"; "rolledBack"]%string ->
      forallb (fun key => is_true (refs_get key d)) keys = true -> works w5 row).
    { intros row keys Hrow Hk Hall. eapply works_later; [exact H|]. right; right.
      eapply call_newest; [exact Hd|done|by rewrite rotation_args_get|by rewrite rotation_args_get| |exact Hrow].
      intros sent _. destruct Hk; [left|right]; subst keys; by apply answer_with. }
    destruct (is_true (refs_get "evidenceAccepted" d)) eqn:Ea.
    + apply (then_kept R); [reflexivity|]. intros ? ? [= _ <-]. destruct (is_true (refs_get "retired" d)) eqn:Er.
      * apply (then_kept R); [reflexivity|]. intros ? ? [= _ <-]. apply activated_R. intros row Hrow.
        eapply (Hw row); [exact Hrow|by left|]. simpl. by rewrite Hid, Ea, Er.
      * apply (then_kept R); [apply ambiguous_R|]. intros ? ? Hm. by apply mark_raises in Hm.
    + apply (then_kept R).
      * unfold rotation_rejected, ambiguous. destruct (is_true (refs_get "rolledBack" d)) eqn:Eb.
        -- apply (then_kept R); [reflexivity|]. intros ? ? [= _ <-]. apply (then_kept R); [|intros; apply failed_mutation].
           apply activated_R. intros row Hrow. eapply (Hw row); [exact Hrow|by right|]. simpl. by rewrite Hid, Eb.
        -- apply (then_kept R); [apply ambiguous_R|]. intros ? ? Hm. by apply mark_raises in Hm.
      * intros ? ? Hm. exfalso. unfold rotation_rejected in Hm. by do 3 apply bind_ok in Hm as (? & ? & _ & Hm).
Qed.

Lemma delete_R a ty name w : (forall row, Resources.named (app_application_id a) ty name row = true -> gone w row) ->
  R w (db (delete_managed_resource (app_application_id a) ty name) w).2.
Proof. intros H. eapply justified_evolves; [apply delete_moves|]. intros d d'. apply moves_more; [exact H|by intros ?]. Qed.

Lemma identity_calm d : calm (_identity_result d).
Proof. calming. Qed.

Lemma index_calms o ph refs answer : calms (_checkpoint_observed_index o ph refs answer).
Proof. pose proof calms_checkpoint. calming. Qed.

Lemma resources_quiet i : preserves quietly (_resources i).
Proof. apply quietly_db. Qed.

(** What a creation asks *)
Lemma creation_args_get a o name ty b k : one_of_words ["applicationId"; "resourceName"] k = true ->
  refs_get k (dict_merge (dict_merge (_common a name) (_standard_storage_args policy ty)) (_mutation_args o b)) = refs_get k (_common a name).
Proof.
  intros H. apply existsb_exists in H as (k' & Hk & <-%String.eqb_eq). unfold _standard_storage_args.
  destruct Hk as [<-|[<-|[]]]; by destruct (String.eqb ty "postgres"), (String.eqb ty "mongo").
Qed.

Lemma creation_undone pd a o name ty at_ b refs anticipated w code u :
  create_confirmed policy asking pd a o name ty at_ b refs anticipated w = (Raise (HelperError code), u) ->
  forall row, Resources.named (app_application_id a) ty name row = true ->
    newest (storage_verb_of ".create" row) row (fun _ answer => answer = Raise (HelperError code)) u.
Proof.
  unfold create_confirmed. intros H row Hrow. apply any_step in H as [(e & [= <-] & H)|(d & w1 & _ & H)].
  - eapply call_newest; [exact H|by intros ? [= <-] []|by rewrite creation_args_get..| |exact Hrow]. done.
  - assert (C : calm (Raise (HelperError code) : result (dict * (string * string)))); [|done].
    pose proof identity_calm. pose proof index_calms.
    match type of H with ?m w1 = _ => assert (Hm : calms m) by calming; specialize (Hm w1); by rewrite H in Hm end.
Qed.

Lemma creation_never {A} a o name ty pid anticipated e w (v : A) w' : creation_failed policy a o name ty pid anticipated e w <> (Ok v, w').
Proof.
  unfold creation_failed. intros H. apply bind_ok in H as (? & ? & _ & H).
  destruct (rolled_back _ _); [by do 2 apply bind_ok in H as (? & ? & _ & H)|by apply mark_raises in H].
Qed.

Lemma create_one_R pd a o name at_ sel comp b rows ty : preserves R (create_one platform policy asking pd a o name at_ sel comp b rows ty).
Proof.
  intros w. unfold create_one. cbv zeta. apply (then_kept R).
  { destruct (_ || _); [by apply put_R|reflexivity]. }
  intros ? w1 _. apply (then_kept R); [apply progress_R|]. intros ? w2 _. apply then_caught.
  - unfold create_confirmed. apply (then_kept R); [apply R_other, plain_action; by split|]. intros. apply (then_kept R); [reflexivity|]. intros.
    apply (then_kept R); [reflexivity|]. intros. apply (then_kept R); [apply index_R|]. intros. apply (then_kept R); reflexivity.
  - intros e u H. unfold creation_failed. apply (then_kept R); [apply resources_R|]. intros known w3 Hq.
    apply (kept _ _ _ _ _ (resources_quiet _)) in Hq. destruct (rolled_back _ _) eqn:Er; [|apply ambiguous_R].
    destruct e; try done. apply andb_true_iff in Er as [Ec%String.eqb_eq _]. subst. apply (then_kept R); [|intros; apply failed_mutation].
    apply delete_R. intros row Hrow. eapply gone_later; [exact Hq|]. right. by eapply creation_undone.
  - intros. apply creation_never.
  - intros [answer identity] u H. apply bind_ok in H as (d & w3 & Hd & H). apply bind_ok in H as (? & ? & [Hi%identity_verified ->]%lift_ok & H).
    apply bind_ok in H as (? & ? & [He ->]%require_true & H). apply bind_ok in H as (? & w4 & Hx & H).
    apply bind_ok in H as (? & ? & [_ ->]%require_true & H). injection H as <- <- <-.
    apply (kept _ _ _ _ _ (index_quiet _ _ _ _)) in Hx. apply (then_kept R); [apply resources_R|]. intros known w5 Hq.
    apply (kept _ _ _ _ _ (resources_quiet _)) in Hq. apply (then_kept R).
    + apply activated_R. intros row Hrow. eapply works_later; [etransitivity; [exact Hx|exact Hq]|]. left.
      eapply call_newest; [exact Hd|done|by rewrite creation_args_get..| |exact Hrow].
      intros ? _. apply answer_with. simpl. by rewrite Hi, He.
    + intros ? w6 _. unfold record_instance. pose proof resources_R.
      match goal with |- R _ (?m w6).2 => assert (Hm : preserves R m) by mutating; apply Hm end.
Qed.

(** *** remove *)

Lemma each_R a o sel ph extra b one : (forall comp b rows ty, preserves R (one comp b rows ty)) -> forall types comp c rows,
  preserves R (each_type a o sel ph extra b one types comp c rows).
Proof.
  intros Hone. pose proof resources_R. pose proof progress_R.
  induction types as [|ty types IH]; intros comp c rows; cbn [each_type]; [mutating|]. destruct (one_of_words _ _); mutating.
Qed.

(** What is asked about a removal *)
Lemma removal_about a o r name ty purge pre b sent :
  carries (removal_arguments a o r name ty purge pre b) sent -> about a o name r pre sent.
Proof.
  intros H. assert (E : forall k, k <> "purge"%string -> one_of_words metadata_keys k = false -> refs_get k sent = refs_get k
    (dict_merge (dict_merge (_common a name) (provider_args r ++ [("confirmName", JStr name); ("preflight", JBool pre)])) (_mutation_args o b))).
  { intros k Hk Hm. rewrite H by done. unfold removal_arguments. destruct (String.eqb ty "s3"); [|done].
    unfold refs_get. by rewrite dict_get_set_ne. }
  unfold about. by rewrite !E.
Qed.

Lemma preflight_R a o name at_ purge b rows pd ty w :
  R w (preflight_one policy asking pd a o name at_ purge b rows ty w).2.
Proof.
  unfold preflight_one. apply (then_kept R); [reflexivity|]. intros r w1 _. apply (then_kept R); [|intros; reflexivity].
  apply R_call. intros u sent t _ Hc _. left. apply removal_about in Hc as (_ & _ & _ & E & _). by rewrite E.
Qed.

Lemma preflights_R a o name at_ purge b rows pd types : preserves R (for_each types (preflight_one policy asking pd a o name at_ purge b rows)).
Proof. apply (preserves_for_each R). intros ty w. apply preflight_R. Qed.

Lemma preflighted_later a o name rows w w' : w_helper w' = w_helper w -> forall types l,
  preflighted a o name rows w types l -> preflighted a o name rows w' types l.
Proof.
  intros E. induction types as [|ty types IH]; intros l H; [done|]. destruct l as [|[action args t| | | | |] l]; try done.
  cbn [preflighted] in *. rewrite E. destruct H as (H1 & H2 & H3 & H4). split_and!; [done|done|done|by apply IH].
Qed.

Lemma preflight_step a o name at_ purge b rows pd ty w u w' done :
  preflight_one policy asking pd a o name at_ purge b rows ty w = (Ok u, w') ->
  preflighted a o name rows w done (w_requests w) -> preflighted a o name rows w' (ty :: done) (w_requests w').
Proof.
  intros H Hd. unfold preflight_one in H. apply bind_ok in H as (r & ? & [Hr ->]%lift_ok & H).
  apply bind_ok in H as (d & w1 & H & [Hc ->]%confirmed_ok).
  apply call_cases in H as [[_ (e & [=] & _)]|(v & sent & t & [D E] & Hs & -> & Hans)]. cbn [asked w_requests preflighted].
  destruct (resource_at ty name rows) as [r'|] eqn:Er; [|done]. injection Hr as ->. apply removal_about in Hs.
  split_and!; [by exists r|done| |].
  - exists d. simpl in *. rewrite (follows_helper _ _ (drifts_follows _ _ D)). split; [done|by constructor].
  - rewrite E. eapply preflighted_later; [|exact Hd]. simpl. apply (follows_helper _ _ (drifts_follows _ _ D)).
Qed.

Lemma preflights_step a o name at_ purge b rows pd : forall types w u w' done,
  for_each types (preflight_one policy asking pd a o name at_ purge b rows) w = (Ok u, w') ->
  preflighted a o name rows w done (w_requests w) -> preflighted a o name rows w' (rev types ++ done) (w_requests w').
Proof.
  induction types as [|ty types IH]; intros w u w' done H Hd; cbn [for_each] in H; [by injection H as _ <-|].
  apply bind_ok in H as (? & w1 & H1 & H). eapply preflight_step in H1; [|exact Hd].
  eapply IH in H; [|exact H1]. simpl. by rewrite <- app_assoc.
Qed.

Lemma canonical_words l : canonical (Storage.words l) = Storage.words l.
Proof. unfold Storage.words. simpl. f_equal. induction l as [|x l IH]; simpl; [done|]. by rewrite IH. Qed.

(** What a checkpoint puts on record *)
Lemma checkpoint_recorded i ph refs (merge : bool) w o w' :
  db (checkpoint_operation i ph (Some refs) merge None None None) w = (Ok o, w') ->
  row_marked i (fun row => op_phase row = ph
    /\ exists old, forall k, refs_get k (op_refs row) = canonical (refs_get k (if merge then dict_merge old refs else refs))) w'.
Proof.
  unfold row_marked. intros Hw. apply db_step in Hw as H. clear Hw. unfold checkpoint_operation in H.
  apply bind_ok in H as (? & ? & [_ ->]%lift_ok & H). apply bind_ok in H as (p & ? & [[[= <-] _]%matching_ok ->]%lift_ok & H).
  do 3 (apply bind_ok in H as (? & ? & [_ ->]%lift_ok & H)). apply bind_ok in H as (? & c & H1 & H).
  apply (reads_ok _ _ _ _ (reads_again _)) in H as [_ ->].
  apply transaction_ok in H1 as (c1 & H1 & -> & _). apply bind_ok in H1 as (encoded & c2 & He & H1).
  apply bind_ok in He as (merged & c4 & Hm & He). apply bind_ok in He as (stored & ? & [Hs ->]%lift_ok & [= <- <-]).
  apply bind_ok in H1 as (now & c3 & _ & H1). apply live_row_updated in H1 as (o0 & _ & Hi & Hin). eexists. split; [exact Hin|].
  split; [done|]. split; [done|]. assert (E : exists old, merged = if merge then dict_merge old refs else refs).
  { destruct merge; [|exists []; by injection Hm as <- _]. apply bind_ok in Hm as (row & c5 & _ & Hm).
    destruct row as [row|]; [|done]. exists (op_refs row). by injection Hm as <- _. }
  destruct E as [old ->]. exists old. intros k. simpl. unfold refs_get.
  apply refs_json_ok in Hs as (_ & [= <-] & _). rewrite dict_get_canonical. by destruct (dict_get k _).
Qed.

Lemma progress_marked o ph refs w u w' : progress o ph refs w = (Ok u, w') ->
  row_marked (op_operation_id o) (fun row => op_phase row = ph
    /\ exists old, forall k, refs_get k (op_refs row) = canonical (refs_get k (dict_merge old refs))) w'.
Proof.
  unfold progress. intros H. apply bind_ok in H as (? & w1 & Hw & H). injection H as _ <-. by apply (checkpoint_recorded _ _ _ true) in Hw.
Qed.

Lemma removing_marked o sel comp ty purge w u w' :
  progress o ("remove_" +:+ ty) (_checkpoint_refs sel comp ty (purge_refs purge)) w = (Ok u, w') -> removing o sel comp ty w'.
Proof.
  intros (row & Hin & Hi & Hp & old & Hk)%progress_marked. exists row. split_and!; [done|done|done|..]; rewrite Hk, <- canonical_words; f_equal;
    unfold refs_get, dict_merge, _checkpoint_refs, purge_refs; simpl; repeat (rewrite dict_get_set_ne by done); by rewrite dict_get_set_eq.
Qed.

Lemma put_quiet a ty name state pid pname existing v : preserves quietly (_put_resource policy a ty name state pid pname existing v).
Proof. pose proof (fun A => @quietly_db A). unfold _put_resource. preserving. Qed.

Lemma progress_quiet o ph refs : preserves quietly (progress o ph refs).
Proof. pose proof (fun A => @quietly_db A). unfold progress. preserving. Qed.

Lemma preflight_raises {A} o sel comp ty purge b w (v : A) w' : preflight_failed o sel comp ty purge b w <> (Ok v, w').
Proof.
  unfold preflight_failed. intros H. cbv zeta in H. destruct (_ || _); [by do 2 apply bind_ok in H as (? & ? & _ & H)|].
  by apply bind_ok in H as (? & ? & _ & H).
Qed.

Lemma preflight_failed_R {A} o sel comp ty purge b : preserves R (preflight_failed o sel comp ty purge b : Svc A).
Proof. unfold preflight_failed. pose proof progress_R. mutating. Qed.

(** What holds from the beginning of the removals on *)
Definition removals_open (a : Application) (name : string) (selected : list string) (w : World) : Prop :=
  follows w0 w /\ sm_action q = st_remove /\ sm_confirm_name q = Some name /\ _selected (sm_resource_types q) = Ok selected
  /\ once (fun u => exists i, (db (get_application i) u).1 = Ok (Some a)) w0 w /\ unreferenced a name selected w0 w.

Lemma open_later a name sel u u' : follows u u' -> removals_open a name sel u -> removals_open a name sel u'.
Proof.
  intros F (H1 & H2 & H3 & H4 & H5 & rows & active & accepted & K1 & K2 & K3 & K4). split_and!; try done.
  - by etransitivity.
  - by eapply once_later.
  - exists rows, active, accepted. split_and!; [by eapply once_later..|done].
Qed.

Lemma silent_follows u u' : silent u u' -> follows u u'.
Proof. intros S. apply (silent_quietly _ _ S). Qed.

Lemma removal_R a o name at_ pd purge b comp sel rows ty r refs w : removals_open a name sel w ->
  In ty (pending_types sel comp) -> preflighted a o name rows w (rev (pending_types sel comp)) (w_requests w) ->
  removing o sel comp ty w -> resource_at ty name rows = Some r ->
  R w (removal_confirmed policy asking pd a o r name at_ ty purge b refs w).2.
Proof.
  intros Hopen Hty Hpre Hrem Hr. unfold removal_confirmed. apply (then_kept R).
  - apply R_call. intros u sent t S Hc _. right. pose proof (silent_follows _ _ S) as F.
    destruct (open_later _ _ _ _ _ F Hopen) as (H1 & H2 & H3 & H4 & H5 & H6).
    exists a, o, name, sel, comp, rows, ty, r. split_and!; try done.
    + rewrite (proj2 S). eapply preflighted_later; [apply (follows_helper _ _ F)|exact Hpre].
    + exists w. split_and!; [|done|done]. apply Hopen.
    + by eapply removal_about.
  - intros. apply (then_kept R); [reflexivity|]. intros. apply index_R.
Qed.

Lemma remove_one_R a o name at_ purge sel pd comp b rows ty w : removals_open a name sel w -> In ty (pending_types sel comp) ->
  R w (remove_one policy asking pd a o name at_ purge sel comp b rows ty w).2.
Proof.
  intros Hopen Hty. unfold remove_one, ambiguous. cbv zeta. change (List.filter _ sel) with (pending_types sel comp).
  apply then_caught.
  { apply preflights_R. }
  { intros. apply preflight_failed_R. }
  { intros. apply preflight_raises. }
  intros ? w1 H1. pose proof (obeys_follows _ _ _ (justified_obeys _ _ _ _ (kept _ _ _ _ _ (preflights_R _ _ _ _ _ _ _ _ _) H1))) as F1.
  apply preflights_step with (done := []) in H1; [|done]. rewrite app_nil_r in H1.
  apply (then_kept R); [apply progress_R|]. intros ? w2 H2. apply (kept _ _ _ _ _ (progress_quiet _ _ _)) in H2 as Q2. clear H2.
  apply (then_kept R); [apply stored_R|]. intros r w2' [Hr ->]%lift_ok.
  assert (Er : resource_at ty name rows = Some r) by (destruct (resource_at ty name rows); [by injection Hr as ->|done]).
  set (kp := if b then _ else _). assert (Kq : preserves quietly kp) by (unfold kp, keep_resource; destruct b; [intros ?; reflexivity|apply put_quiet]).
  apply (then_kept R); [unfold kp, keep_resource; destruct b; [reflexivity|by apply put_R]|].
  intros ? w3 Q3%(kept _ _ _ _ _ Kq). apply (then_kept R); [apply progress_R|].
  intros ? w4 H4. pose proof (kept _ _ _ _ _ (progress_quiet _ _ _) H4) as Q4. apply removing_marked in H4.
  assert (Q : quietly w1 w4) by (etransitivity; [exact Q2|]; by etransitivity). clear Q2 Q3 Q4 Kq. destruct Q as [F4 E4]. apply then_caught.
  - eapply removal_R; [|exact Hty| |exact H4|exact Er]; [eapply open_later; [|exact Hopen]; by etransitivity|].
    rewrite E4. eapply preflighted_later; [apply (follows_helper _ _ F4)|exact H1].
  - intros. apply ambiguous_R.
  - intros. apply mark_raises.
  - intros ? w5 H5. apply (then_kept R); [reflexivity|]. intros owner ? [_ ->]%lift_ok.
    apply (then_kept R); [apply R_same; auto with evolve|]. intros ? w6 H6. apply (kept _ _ _ _ _ (quietly_db _)) in H6.
    apply delete_R. intros row Hrow. eapply gone_later; [exact H6|]. left. unfold removal_confirmed in H5.
    apply bind_ok in H5 as (d & w7 & Hd & H5). apply bind_ok in H5 as (? & ? & [Hc ->]%require_true & H5).
    apply (kept _ _ _ _ _ (index_quiet _ _ _ _)) in H5. eapply newest_later; [exact H5|].
    apply andb_true_iff in Hc as [Hc1 Hc2]. eapply (call_newest ".remove"); [exact Hd|done| | | |exact Hrow].
    + by apply (removal_about a o r name ty purge false b).
    + by apply (removal_about a o r name ty purge false b).
    + intros sent Hs. split; [by apply removal_about in Hs as (_ & _ & _ & E & _)|]. apply answer_with. simpl. by rewrite Hc1, Hc2.
Qed.

Lemma R_follows u u' : R u u' -> follows u u'.
Proof. intros H. by eapply obeys_follows, justified_obeys. Qed.

Lemma each_remove_R a o name at_ purge sel pd : forall types comp b rows w, incl types sel -> removals_open a name sel w ->
  R w (each_type a o sel "removed_" (purge_refs purge) true (remove_one policy asking pd a o name at_ purge sel) types comp b rows w).2.
Proof.
  induction types as [|ty types IH]; intros comp b rows w Hi Ho; cbn [each_type]; [reflexivity|].
  assert (Hi' : incl types sel) by (intros ty' H; by apply Hi; right).
  destruct (one_of_words comp ty) eqn:Ec; [by apply IH|].
  assert (Hp : In ty (pending_types sel comp)) by (apply filter_In; split; [apply Hi; by left|by rewrite Ec]).
  apply (then_kept R); [by apply remove_one_R|]. intros ? w1 H1.
  assert (F1 : follows w w1) by (apply R_follows; pose proof (remove_one_R a o name at_ purge sel pd comp b rows ty w Ho Hp) as K; by rewrite H1 in K).
  apply (then_kept R); [apply resources_R|]. intros rows' w2 F2%(kept _ _ _ _ _ (resources_R _)). apply R_follows in F2.
  apply (then_kept R); [apply progress_R|]. intros ? w3 F3%(kept _ _ _ _ _ (progress_R _ _ _)). apply R_follows in F3.
  apply IH; [done|]. eapply open_later; [|exact Ho]. etransitivity; [exact F1|]. by etransitivity.
Qed.

Lemma select_none {A} (f : A -> result bool) l : select_result f l = Ok [] -> Forall (fun x => f x = Ok false) l.
Proof.
  induction l as [|x l IH]; simpl; [by constructor|]. unfold mbind, result_bind. intros H.
  destruct (f x) as [[]|] eqn:E; try done; destruct (select_result f l) eqn:El; try done. constructor; [done|]. by apply IH.
Qed.

Lemma once_read {A} (m : Svc A) u v u' u'' : follows w0 u -> m u = (Ok v, u') -> follows u u'' -> once (fun u => (m u).1 = Ok v) w0 u''.
Proof. intros F H F'. exists u. split_and!; [done|done|by rewrite H]. Qed.

Lemma application_found i u a u' : _application i u = (Ok a, u') -> (db (get_application i) u).1 = Ok (Some a).
Proof.
  unfold _application. intros H. apply bind_ok in H as (found & u1 & H1 & H). destruct found; [|done]. injection H as -> _. by rewrite H1.
Qed.

Lemma remove_R i dl pd application_id name slug_ purge w : follows w0 w -> sm_action q = st_remove ->
  R w (remove policy asking i dl pd application_id (sm_resource_types q) name (sm_confirm_name q) slug_ true purge w).2.
Proof.
  intros F0 Hq. unfold remove. apply (then_kept R); [apply application_R|]. intros a w1 H1.
  pose proof (R_follows _ _ (kept _ _ _ _ _ (application_R _) H1)) as F1. apply application_found in H1.
  apply (then_kept R); [reflexivity|]. intros name' ? [_ ->]%lift_ok. apply (then_kept R); [reflexivity|]. intros sel ? [Hsel ->]%lift_ok.
  apply (then_kept R); [reflexivity|]. intros ? ? [Hc ->]%require_true. apply bool_decide_eq_true in Hc.
  apply (then_kept R); [destruct slug_; [apply (then_kept R); intros; reflexivity|reflexivity]|].
  intros ? w2 H2. assert (E2 : w2 = w1).
  { destruct slug_; [|by injection H2 as _ <-]. apply bind_ok in H2 as (? & ? & [_ ->]%lift_ok & H2). by apply require_true in H2 as [_ ->]. }
  subst w2. clear H2. cbv zeta. apply (then_kept R); [apply existing_R|]. intros found w2 F2%(kept _ _ _ _ _ (existing_R _ _ _ _))%R_follows.
  apply (then_kept R); [apply resources_R|]. intros rows w3 H3. pose proof (R_follows _ _ (kept _ _ _ _ _ (resources_R _) H3)) as F3.
  apply (then_kept R); [reflexivity|]. intros comp ? [_ ->]%lift_ok. apply (then_kept R); [reflexivity|]. intros ? ? [_ ->]%require_true.
  apply (then_kept R); [reflexivity|]. intros ? ? [_ ->]%require_true.
  apply (then_kept R); [apply R_still; unfold active_storage_resource_ids; evolve|]. intros active w4 H4. pose proof (ran_db _ _ _ _ H4) as F4.
  apply (then_kept R); [apply R_still, deployment_still|]. intros accepted w5 H5. pose proof (ran_db _ _ _ _ H5) as F5.
  apply (then_kept R); [reflexivity|]. intros referenced ? [Hr ->]%lift_ok. apply (then_kept R); [by destruct referenced|].
  intros ? ? H6. destruct referenced; [|done]. injection H6 as _ <-. apply select_none in Hr.
  assert (Hopen : removals_open a name' sel w5).
  { assert (F35 : follows w3 w5) by (by etransitivity). assert (F25 : follows w2 w5) by (by etransitivity).
    assert (F15 : follows w1 w5) by (by etransitivity). assert (F02 : follows w0 w2) by (etransitivity; [exact F0|]; by etransitivity).
    assert (F03 : follows w0 w3) by (by etransitivity). assert (F04 : follows w0 w4) by (by etransitivity). split_and!; try done.
    - by etransitivity.
    - exists w. split_and!; [done|by etransitivity|by exists application_id].
    - exists rows, active, accepted. split_and!;
        [exact (once_read _ _ _ _ _ F02 H3 F25)|exact (once_read _ _ _ _ _ F03 H4 F35)|exact (once_read _ _ _ _ _ F04 H5 F5)|done]. }
  apply (then_kept R); [apply resume_R|]. intros o w6 F6%(kept _ _ _ _ _ (resume_R _ _ _ _ _ _ _ _ _))%R_follows.
  apply (then_kept R); [apply attempt_R|]. intros at_ w7 F7%(kept _ _ _ _ _ (attempt_R _ _ _))%R_follows.
  apply (then_kept R); [|intros; apply complete_R]. apply each_remove_R; [by intros ?|]. eapply open_later; [|exact Hopen]. by etransitivity.
Qed.

Ltac mutation := pose proof application_R; pose proof resources_R; pose proof existing_R; pose proof resume_R; pose proof attempt_R;
  pose proof complete_R; mutating; try (apply each_R; intros).

Lemma create_R i dl pd application_id types name : preserves R (create platform policy asking i dl pd application_id types name).
Proof. unfold create. mutation. apply create_one_R. Qed.

Lemma verify_R i dl pd application_id types name : preserves R (verify policy asking i dl pd application_id types name).
Proof. unfold verify. mutation. apply verify_one_R. Qed.

Lemma rotate_R i dl pd application_id types name : preserves R (rotate policy asking i dl pd application_id types name).
Proof. unfold rotate. mutation. apply rotate_one_R. Qed.

Lemma ask_R action args t : one_of_words removal_actions action = false -> preserves R (call_helper action args t).
Proof. intros H w. by apply just_ask, guarded_other. Qed.

Lemma command_R args t : preserves R (command_runner args t).
Proof. intros w. by apply just_ask. Qed.

Lemma prepare_R i dl : preserves R (prepare_dns_job call_helper platform i dl).
Proof. unfold prepare_dns_job. mutating; by apply ask_R. Qed.

Lemma remaining_R d m : preserves R (remaining_seconds d m).
Proof. unfold remaining_seconds. mutating. Qed.

Lemma project_R t : preserves R (OpenStack.verify_project platform t).
Proof. apply (project_reads R R_monotonic). intros. apply command_R. Qed.

Lemma wall_R d : preserves R (wall_deadline d).
Proof. unfold wall_deadline. mutating. Qed.

Lemma rejects_R a : preserves R (reject_deleting a).
Proof. unfold reject_deleting. mutating. Qed.
End Proofs.

Lemma mutate_stored_R platform policy q a name deadline w0 w : follows w0 w ->
  justified (guarded q w0) evidenced w (mutate_stored platform policy call_helper q a name deadline w).2.
Proof.
  intros F0. unfold mutate_stored. set (R := justified (guarded q w0) evidenced).
  assert (Later : forall {A} (m : Svc A) u v u', preserves R m -> m u = (Ok v, u') -> follows w0 u -> follows w0 u').
  { intros A m u v u' Hm H F. etransitivity; [exact F|]. eapply R_follows. exact (kept _ _ _ _ _ Hm H). }
  apply (then_kept R); [apply remaining_R|]. intros t w1 F1%Later; [|apply remaining_R|done].
  apply (then_kept R); [apply project_R|]. intros ? w2 F2%Later; [|apply project_R|done].
  assert (Hp : preserves R (match sm_action q with
     | st_rotate => if existsb is_database (sm_resource_types q)
                    then prepare_dns_job call_helper platform (app_application_id a) deadline else mret ()
     | _ => mret () end)).
  { destruct (sm_action q); try (intros u; reflexivity). destruct (existsb _ _); [apply prepare_R|intros u; reflexivity]. }
  apply (then_kept R); [apply Hp|]. intros ? w3 F3%Later; [|done|done]. clear Hp.
  apply (then_kept R); [apply R_still, application_still|]. intros found w4 F4%Later; [|apply R_still, application_still|done].
  apply (then_kept R); [destruct found; [destruct (String.eqb _ _)|]; reflexivity|]. intros b w5 H5.
  assert (E5 : w5 = w4) by (destruct found; [destruct (String.eqb _ _); [by injection H5|done]|done]). subst w5. clear H5.
  apply (then_kept R); [apply wall_R|]. intros durable w5 F5%Later; [|apply wall_R|done].
  apply (then_kept R); [reflexivity|]. intros request ? [_ ->]%lift_ok. cbv zeta. destruct (sm_action q) eqn:Eq.
  - apply create_R.
  - apply verify_R.
  - apply rotate_R.
  - by apply remove_R.
Qed.

Lemma mutate_R platform policy q w : justified (guarded q w) evidenced w (mutate platform policy call_helper q w).2.
Proof.
  unfold mutate. set (R := justified (guarded q w) evidenced).
  apply (then_kept R); [apply R_still, application_still|]. intros [a|] w1 F1%ran_db; [|reflexivity].
  apply (then_kept R); [apply rejects_R|]. intros ? w2 F2%(kept _ _ _ _ _ (rejects_R q w a))%R_follows.
  apply (then_kept R); [reflexivity|]. intros name ? [_ ->]%lift_ok. apply (then_kept R); [reflexivity|]. intros ? ? [_ ->]%require_true.
  unfold operation_deadline. apply (then_kept R); [apply (then_kept R); [apply R_monotonic|intros; reflexivity]|].
  intros deadline w3 H3. apply bind_ok in H3 as (now & w3' & H3 & [= _ ->]).
  pose proof (kept _ _ _ _ _ follows_monotonic_read H3) as F3.
  assert (F : follows w w3) by (etransitivity; [exact F1|]; by etransitivity). unfold lock. destruct (w_lock _ _); [|by apply just_ask].
  pose proof (mutate_stored_R platform policy q a name deadline w (asked (Acquire (app_scope a)) w3)) as K.
  destruct (mutate_stored _ _ _ _ _ _ _ _) as [r w4]. cbn [snd]. etransitivity; [by apply (just_ask _ _ _ (Acquire (app_scope a)))|].
  etransitivity; [apply K; etransitivity; [exact F|apply follows_asked]|]. by apply just_ask.
Qed.


(** C8. The records of managed storage follow the evidence.  Whatever a mutation
    writes, it drops the row of a resource only when the newest request was the
    removal of that resource, for real, and its answer shows the provider's
    instance absent and the environment's keys removed, or its creation, which
    the helper answered to have rolled back; and a resource becomes active only
    when the newest request was its creation, verification or rotation, and the
    answer shows what that needs. *)
Theorem records_follow_evidence platform policy q w r w' :
  mutate platform policy call_helper q w = (r, w') -> justified (fun _ _ => True) evidenced w w'.
Proof. intros H. pose proof (mutate_R platform policy q w) as K. rewrite H in K. by eapply justified_weaken. Qed.

(** *** A removal, and creations *)

Definition mongo_name : string := Eval vm_compute in "p_" +:+ first_chars 20 (no_hyphens demo_id).

Definition storage_answer (l : list Request) : result dict :=
  match l with
  | Helper "storage.s3.create" _ _ :: _ => Raise (HelperError "CREATE_ROLLED_BACK")
  | Helper "storage.mongo.create" _ _ :: _ =>
      Ok [("providerId", JStr mongo_name); ("providerName", JStr mongo_name); ("verified", JBool true);
          ("evidenceAccepted", JBool true); ("instancePort", JInt 30001)]
  | Helper action args _ :: _ =>
      if is_true (refs_get "preflight" args) then Ok [("preflightAccepted", JBool true)]
      else Ok [("confirmedAbsent", JBool true); ("environmentRemoved", JBool true); ("modifyIndex", JInt 7)]
  | _ => Raise (HelperError "unknown")
  end.

Definition storage_world (d : Db) : World := {|
  w_db := Conn d false (fun n => 1767225600000000 + Z.of_nat n) (fun _ => server_id) 0; w_others := fun _ d => d; w_steps := 0;
  w_monotonic := fun n => Z.of_nat n; w_readings := 0;
  w_helper := storage_answer; w_command := port_cloud; w_http := fun _ => Raise OSError;
  w_lock := fun _ => true; w_requests := [] |}.

Definition demo_request (action : storage_verb) (type : string) : StorageMutationRequest := {|
  sm_action := action; sm_application := demo_id; sm_resource_types := [type]; sm_resource_name := "default";
  sm_confirm_name := Some "default"%string; sm_purge_s3 := false; sm_request_id := Some server_id |}.

Definition storage_demo (action : storage_verb) (type : string) :=
  mutate demo_platform demo_policy call_helper (demo_request action type) (storage_world settled_db).

Definition stored_states (w : World) : list string * list (string * string) :=
  (actions_asked w, map (fun r => (mr_resource_type r, mr_lifecycle_state r)) (managed_resources (store (w_db w)))).


Lemma records_follow_evidence_witness :
  outcome stored_states (storage_demo st_create "mongo")
  = (Ok {| sr_requested := ["mongo"]; sr_completed := ["mongo"] |},
     ([""; "storage.mongo.create"; ""; ""], [("postgres", "creating"); ("mongo", "active")]))
  /\ (outcome stored_states (storage_demo st_create "s3")).2
     = ([""; "storage.s3.create"; ""; ""], [("postgres", "creating")])
  /\ justified (fun _ _ => True) evidenced (storage_world settled_db) (storage_demo st_create "mongo").2
  /\ justified (fun _ _ => True) evidenced (storage_world settled_db) (storage_demo st_create "s3").2.
Proof.
  split_and!; [vm_compute; reflexivity|vm_compute; reflexivity|..].
  - apply (records_follow_evidence demo_platform demo_policy (demo_request st_create "mongo") _ (storage_demo st_create "mongo").1).
    unfold storage_demo. apply surjective_pairing.
  - apply (records_follow_evidence demo_platform demo_policy (demo_request st_create "s3") _ (storage_demo st_create "s3").1).
    unfold storage_demo. apply surjective_pairing.
Defined.
