(* ===== verification/StorageDoneSpec.v ===== *)
(** * What a mutation of managed storage that returns has done *)

From S2P Require Import Prelude Regex Json JsonParse Clock Validation Runtime Sql Schema StorageCapacity Operations.
From S2P Require Import OperationsSpec AdmissionSpec StorageContract DeploymentConfig Applications ApplicationsSpec Resources ResourcesSpec.
From S2P Require Import Sizing NomadJobs Service Rollout RolloutSpec StorageLimits StorageLimitsSpec.
From S2P Require Import OpenStack OpenStackSpec IpAddress FloatingIp PublicIp PublicIpSpec FixedIp RetainedPort RetainedPortSpec.
From S2P Require Import Sha256 WorkerHelperSpec Finishing FinishingSpec ApplicationService ApplicationServiceSpec Storage StorageSpec.

Lemma begun_refs i k sc p d refs n c o c' : begin_operation i k sc p d refs n c = (Ok o, c') ->
  (In o (operations (store c')) /\ op_operation_id o = i /\ op_phase o = p)
  /\ forall key, refs_get key (op_refs o) = canonical (refs_get key refs).
Proof.
  intros H. unfold begin_operation in H. apply bind_ok in H as (j & ? & [->%uuid_same ->]%lift_ok & H).
  do 2 (apply bind_ok in H as (?x & ?c & [?E ->]%lift_ok & H)). apply bind_ok in H as (p' & ? & [[[= <-] _]%matching_ok ->]%lift_ok & H).
  apply bind_ok in H as (? & ? & [_ ->]%lift_ok & H). apply bind_ok in H as (t & c2 & _ & H).
  apply bind_ok in H as (u & c3 & (c4 & Ht & -> & _)%transaction_ok & H). apply read_back in H as [-> H].
  apply bind_ok in Ht as (? & c5 & _ & Ht). apply bind_ok in Ht as (existing & c6 & _ & Ht). destruct existing; [done|].
  apply bind_ok in Ht as (? & c7 & _ & Ht). apply bind_ok in Ht as (stored & ? & [Hs ->]%lift_ok & Ht).
  apply insert_ok in Ht as [-> Hok]. unfold operation_at in H. simpl in H.
  set (row := new_operation _ _ _ _ _ _ _) in *.
  assert (row = o) as <-.
  { refine (operation_row (with_operations (operations (store c7) ++ [row]) (store c7)) i o row _ H _ _).
    - exact (table_ok_unique _ _ op_key Hok (or_introl eq_refl)).
    - apply in_or_app. right. by left.
    - apply eqb_self. }
  split; [split_and!; [apply in_or_app; right; by left|done|done]|].
  intros key. simpl. unfold refs_get. apply refs_json_ok in Hs as (_ & [= <-] & _). rewrite dict_get_canonical. by destruct (dict_get key refs).
Qed.

(** A resource is on record in a state. *)
Definition recorded_as (a : Application) (ty name state : string) (w : World) : Prop :=
  exists r, In r (managed_resources (store (w_db w))) /\ Resources.named (app_application_id a) ty name r = true /\ mr_lifecycle_state r = state.

Lemma put_recorded i n c r c' : put_managed_resource i n c = (Ok r, c') -> exists row, In row (managed_resources (store c'))
  /\ Resources.named (ri_application_id i) (ri_resource_type i) (ri_resource_name i) row = true /\ mr_lifecycle_state row = ri_lifecycle_state i.
Proof.
  intros H. unfold put_managed_resource in H. apply bind_ok in H as (id & ? & [[= <-]%uuid_json ->]%lift_ok & H).
  apply bind_ok in H as (name & ? & [[[= <-] _]%resource_name_ok ->]%lift_ok & H). apply bind_ok in H as (label & ? & [_ ->]%lift_ok & H).
  apply bind_ok in H as (supplied & ? & [_ ->]%lift_ok & H). apply bind_ok in H as (now & c1 & _ & H).
  apply bind_ok in H as (j & c2 & (c3 & Ht & -> & _)%transaction_ok & H).
  pose proof (still_read_back j (with_transaction false c3)) as S. rewrite H in S. simpl in S. rewrite <- S. clear H S.
  apply bind_ok in Ht as (existing & c4 & _ & Ht). apply bind_ok in Ht as (j' & c5 & _ & Ht). apply bind_ok in Ht as (? & c6 & _ & Ht).
  cbv zeta in Ht. apply bind_ok in Ht as (? & c7 & Hu & Ht). injection Ht as _ <-. unfold upsert in Hu.
  destruct (existsb _ _) eqn:Ex.
  - apply existsb_exists in Ex as (row & Hrow & Ex). apply bind_ok in Hu as (? & c8 & (-> & _)%update_ok & Hu). injection Hu as _ <-.
    eexists. split; [apply in_apply_where; exists row; split; [exact Hrow|by rewrite Ex]|]. by split.
  - apply insert_ok in Hu as [-> _]. eexists. split; [apply in_or_app; right; by left|]. unfold Resources.named. simpl. by rewrite !eqb_self.
Qed.

Definition verb_suffix (v : storage_verb) : string :=
  match v with st_create => ".create" | st_verify => ".verify" | st_rotate => ".rotate" | st_remove => ".remove" end.

(** What an answer has to show for the type to be done *)
Definition shown_when_done (v : storage_verb) : list string :=
  match v with
  | st_create => ["verified"; "evidenceAccepted"]
  | st_verify => ["verified"]
  | st_rotate => ["verified"; "evidenceAccepted"; "retired"]
  | st_remove => ["confirmedAbsent"; "environmentRemoved"]
  end.

Definition confirms (v : storage_verb) (a : Application) (name : string) (args answer : dict) : Prop :=
  refs_get "applicationId" args = JStr (app_application_id a) /\ refs_get "resourceName" args = JStr name
  /\ (v = st_remove -> refs_get "preflight" args = JBool false)
  /\ forallb (fun key => is_true (refs_get key answer)) (shown_when_done v) = true.

(** The type is done since [w0]: the answer showed it, and the record says it. *)
Definition resource_done (v : storage_verb) (a : Application) (name : string) (w0 w : World) (ty : string) : Prop :=
  answered ("storage." +:+ ty +:+ verb_suffix v) (confirms v a name) w0 w
  /\ match v with
     | st_remove => once (fun u => Forall (fun r => Resources.named (app_application_id a) ty name r = false) (managed_resources (store (w_db u)))) w0 w
     | _ => once (recorded_as a ty name "active") w0 w
     end.

Lemma done_later v a name w0 w w' ty : follows w w' -> resource_done v a name w0 w ty -> resource_done v a name w0 w' ty.
Proof. intros F [H1 H2]. split; [by eapply answered_later|]. destruct v; by eapply once_later. Qed.

Section Returns.
Context (platform : PlatformConfig) (policy : Policy) (id : string) (of_name : string) (deadline : Z) (w0 : World).
Abbreviation asking := (call_with_metadata call_helper id of_name deadline).

Lemma call_answered action args at_ pd (ok : dict -> dict -> Prop) w d w' : follows w0 w -> _call policy asking action args at_ pd w = (Ok d, w') ->
  (forall sent, carries args sent -> ok sent d) -> answered action ok w0 w' /\ follows w0 w'.
Proof.
  intros F H Hok. apply call_cases in H as [[_ (e & [=] & _)]|(u & sent & t & S & Hs & -> & Hd)].
  assert (Fu : follows w0 u) by (etransitivity; [exact F|]; by apply silent_follows).
  split; [|etransitivity; [exact Fu|apply follows_asked]]. apply (answered_call action ok sent t w0 u d); [done| |by apply Hok].
  unfold call_helper. rewrite Hd. simpl. by rewrite (follows_helper _ _ (silent_follows _ _ S)).
Qed.

Lemma put_done a ty name state pid pname existing v w u w' : _put_resource policy a ty name state pid pname existing v w = (Ok u, w') ->
  recorded_as a ty name state w' /\ follows w w'.
Proof.
  intros H. pose proof (kept _ _ _ _ _ (put_quiet policy a ty name state pid pname existing v) H) as [F _]. split; [|done].
  unfold _put_resource in H. apply bind_ok in H as (at_ & w1 & _ & H). apply bind_ok in H as (r & w2 & H%db_step & [= _ <-]).
  by apply put_recorded in H.
Qed.

Lemma active_done v a name ty u u' : v <> st_remove -> answered ("storage." +:+ ty +:+ verb_suffix v) (confirms v a name) w0 u -> follows w0 u ->
  recorded_as a ty name "active" u' -> follows u u' -> resource_done v a name w0 u' ty.
Proof.
  intros Hv Ha F0 Hr F. split; [by eapply answered_later|].
  assert (once (recorded_as a ty name "active") w0 u') by (apply once_now; [by etransitivity|done]). by destruct v.
Qed.

Lemma stored_same ty name rows w r w' : stored ty name rows w = (Ok r, w') -> w' = w /\ resource_at ty name rows = Some r.
Proof. intros [H ->]%lift_ok. destruct (resource_at ty name rows); [|done]. by injection H as ->. Qed.

Lemma quiet_from u u' : follows w0 u -> quietly u u' -> follows w0 u'.
Proof. intros F [F' _]. by etransitivity. Qed.

Lemma verify_one_done pd a o name at_ sel comp b rows ty w w' : follows w0 w ->
  verify_one policy asking pd a o name at_ sel comp b rows ty w = (Ok tt, w') -> resource_done st_verify a name w0 w' ty.
Proof.
  intros F H. unfold verify_one in H. apply bind_ok in H as (r & ? & [-> _]%stored_same & H). cbv zeta in H.
  apply bind_ok in H as (? & w1 & H1%(kept _ _ _ _ _ (progress_quiet _ _ _)) & H). apply (quiet_from _ _ F) in H1.
  apply bind_ok in H as (? & w2 & H2 & H). apply caught in H2; [|intros; apply mark_raises].
  apply bind_ok in H2 as (d & w3 & Hd & H2). apply bind_ok in H2 as (? & ? & [Hv ->]%require_true & H2).
  apply (kept _ _ _ _ _ (index_quiet _ _ _ _)) in H2. unfold keep_resource in H. apply put_done in H as [Hr Fr].
  eapply (call_answered _ _ _ _ (confirms st_verify a name)) in Hd as [Ha F3]; [|exact H1|intros sent Hs; split_and!; [by rewrite Hs|by rewrite Hs|done|simpl; by rewrite Hv]].
  eapply (active_done st_verify); [done|exact Ha|done|exact Hr|]. etransitivity; [apply H2|exact Fr].
Qed.

Lemma rotate_one_done pd a o name at_ sel comp b rows ty w w' : follows w0 w ->
  rotate_one policy asking pd a o name at_ sel comp b rows ty w = (Ok tt, w') -> resource_done st_rotate a name w0 w' ty.
Proof.
  intros F H. unfold rotate_one in H. apply bind_ok in H as (r & ? & [-> _]%stored_same & H). cbv zeta in H.
  apply bind_ok in H as (? & w1 & H1%(kept _ _ _ _ _ (progress_quiet _ _ _)) & H). apply (quiet_from _ _ F) in H1.
  apply bind_ok in H as (d & w2 & H2 & H). apply caught in H2; [|intros; apply mark_raises].
  apply bind_ok in H2 as (d' & w3 & Hd & H2). apply bind_ok in H2 as (? & ? & [Hv ->]%lift_ok & H2).
  apply bind_ok in H2 as (? & w4 & Hx & [= <- <-]). apply (kept _ _ _ _ _ (index_quiet _ _ _ _)) in Hx.
  assert (Hid : is_true (refs_get "verified" d') = true).
  { unfold _rotation_identity_result, mbind, result_bind in Hv. destruct (_identity_result d') eqn:E; [|done]. by eapply identity_verified. }
  apply bind_ok in H as (? & w5 & H5 & H). destruct (is_true (refs_get "evidenceAccepted" d')) eqn:Ea;
    [injection H5 as _ <-|by do 3 apply bind_ok in H5 as (? & ? & _ & H5)].
  apply bind_ok in H as (? & w6 & H6 & H). destruct (is_true (refs_get "retired" d')) eqn:Er;
    [injection H6 as _ <-|by apply mark_raises in H6].
  unfold keep_resource in H. apply put_done in H as [Hr Fr].
  eapply (call_answered _ _ _ _ (confirms st_rotate a name)) in Hd as [Ha F3]; [|exact H1|intros sent Hs; split_and!; [by rewrite Hs, rotation_args_get|by rewrite Hs, rotation_args_get|done|simpl; by rewrite Hid, Ea, Er]].
  eapply (active_done st_rotate); [done|exact Ha|done|exact Hr|]. etransitivity; [apply Hx|exact Fr].
Qed.

Lemma create_one_done pd a o name at_ sel comp b rows ty w w' : follows w0 w ->
  create_one platform policy asking pd a o name at_ sel comp b rows ty w = (Ok tt, w') -> resource_done st_create a name w0 w' ty.
Proof.
  intros F H. unfold create_one in H. cbv zeta in H. apply bind_ok in H as (? & w1 & H1 & H).
  assert (F1 : follows w0 w1) by (destruct (_ || _); [apply put_done in H1 as [_ H1]; by etransitivity|by injection H1 as _ <-]).
  apply bind_ok in H as (? & w2 & H2%(kept _ _ _ _ _ (progress_quiet _ _ _)) & H). apply (quiet_from _ _ F1) in H2.
  apply bind_ok in H as ([d identity] & w3 & H3 & H). apply caught in H3; [|intros; apply creation_never].
  apply bind_ok in H3 as (d' & w4 & Hd & H3). apply bind_ok in H3 as (? & ? & [Hi%identity_verified ->]%lift_ok & H3).
  apply bind_ok in H3 as (? & ? & [He ->]%require_true & H3). apply bind_ok in H3 as (? & w5 & Hx & H3).
  apply bind_ok in H3 as (? & ? & [_ ->]%require_true & H3). injection H3 as <- <- <-.
  apply (kept _ _ _ _ _ (index_quiet _ _ _ _)) in Hx. apply bind_ok in H as (known & w6 & Hq%(kept _ _ _ _ _ (resources_quiet _)) & H).
  apply bind_ok in H as (? & w7 & [Hr Fr]%put_done & H).
  eapply (call_answered _ _ _ _ (confirms st_create a name)) in Hd as [Ha F4]; [|exact H2|intros sent Hs; split_and!; [by rewrite Hs, creation_args_get|by rewrite Hs, creation_args_get|done|simpl; by rewrite Hi, He]].
  assert (F57 : follows w4 w7) by (etransitivity; [apply Hx|]; etransitivity; [apply Hq|exact Fr]).
  eapply done_later; [|eapply (active_done st_create); [done|exact Ha|done|exact Hr|exact F57]].
  match type of H with ?m w7 = _ => refine (kept follows m _ _ _ _ H) end.
  unfold record_instance, _resources. preserving.
Qed.
Lemma call_follows action args at_ pd : preserves follows (_call policy asking action args at_ pd).
Proof.
  intros w. destruct (_call _ _ _ _ _ _ w) as [r w'] eqn:E. apply call_cases in E as [[S _]|(u & sent & t & S & _ & -> & _)]; simpl.
  - by apply silent_follows.
  - etransitivity; [by apply silent_follows|apply follows_asked].
Qed.
#[local] Hint Resolve call_follows : service.

Lemma preflights_follow a o name at_ purge b rows pd types :
  preserves follows (for_each types (preflight_one policy asking pd a o name at_ purge b rows)).
Proof. apply (preserves_for_each follows). intros ty. unfold preflight_one, Finishing.confirmed. preserving. Qed.

Lemma deleted_row a ty name w u w' : db (delete_managed_resource a ty name) w = (Ok u, w') ->
  Forall (fun r => Resources.named a ty name r = false) (managed_resources (store (w_db w'))).
Proof.
  intros H%db_step. unfold delete_managed_resource in H. apply bind_ok in H as (? & ? & [_ ->]%lift_ok & H).
  apply bind_ok in H as (name' & ? & [[[= <-] _]%resource_name_ok ->]%lift_ok & H). apply transaction_ok in H as (c & H & -> & _).
  apply delete_ok in H as ->. apply List.Forall_forall. intros r [_ Hr]%filter_In. by apply negb_true_iff.
Qed.

Lemma remove_one_done a o name at_ purge sel pd comp b rows ty w w' : follows w0 w ->
  remove_one policy asking pd a o name at_ purge sel comp b rows ty w = (Ok tt, w') -> resource_done st_remove a name w0 w' ty.
Proof.
  intros F H. unfold remove_one in H. cbv zeta in H. apply bind_ok in H as (? & w1 & H1 & H).
  apply caught in H1; [|intros; apply preflight_raises]. apply (kept _ _ _ _ _ (preflights_follow _ _ _ _ _ _ _ _ _)) in H1.
  apply bind_ok in H as (? & w2 & [H2 _]%(kept _ _ _ _ _ (progress_quiet _ _ _)) & H). apply bind_ok in H as (r & ? & [-> _]%stored_same & H).
  apply bind_ok in H as (? & w3 & H3 & H). assert (F3 : follows w2 w3).
  { destruct b; [by injection H3 as _ <-|]. unfold keep_resource in H3. by apply put_done in H3 as [_ H3]. }
  apply bind_ok in H as (? & w4 & [H4 _]%(kept _ _ _ _ _ (progress_quiet _ _ _)) & H).
  assert (F4 : follows w0 w4) by (do 3 (etransitivity; [eassumption|]); by etransitivity).
  apply bind_ok in H as (? & w5 & H5 & H). apply caught in H5; [|intros; apply mark_raises].
  apply bind_ok in H as (owner & ? & [_ ->]%lift_ok & H). apply bind_ok in H as (? & w6 & F6%ran_db & H).
  pose proof (ran_db _ _ _ _ H) as F7. apply deleted_row in H. unfold removal_confirmed in H5. apply bind_ok in H5 as (d & w7 & Hd & H5).
  apply bind_ok in H5 as (? & ? & [Hc ->]%require_true & H5). apply (kept _ _ _ _ _ (index_quiet _ _ _ _)) in H5 as [F5 _].
  eapply (call_answered _ _ _ _ (confirms st_remove a name)) in Hd as [Ha Fd]; [|exact F4|].
  - assert (F75 : follows w7 w') by (etransitivity; [exact F5|]; by etransitivity). split; [by eapply answered_later|].
    apply once_now; [by etransitivity|done].
  - intros sent Hs%removal_about. destruct Hs as (K1 & K2 & _ & K4 & _). split_and!; [done|done|done|simpl]. by rewrite andb_true_r.
Qed.

(** Every type of the loop has been completed before, or its turn has ended. *)
Lemma each_type_ok a o v name sel ph extra reread one : 
  (forall comp b rows ty w w', follows w0 w -> one comp b rows ty w = (Ok tt, w') -> resource_done v a name w0 w' ty /\ follows w w') ->
  forall types comp b rows w all w', follows w0 w -> each_type a o sel ph extra reread one types comp b rows w = (Ok all, w') ->
  follows w w' /\ Forall (fun ty => In ty comp \/ resource_done v a name w0 w' ty) types.
Proof.
  intros Hone. induction types as [|ty types IH]; intros comp b rows w all w' F H; cbn [each_type] in H; [by injection H as _ <-|].
  destruct (one_of_words comp ty) eqn:Ec.
  - apply IH in H as [F' H]; [|done]. split; [done|]. constructor; [left|done].
    apply existsb_exists in Ec as (ty' & Hin & ->%String.eqb_eq). done.
  - apply bind_ok in H as ([] & w1 & [Hd F1]%Hone & H); [|done]. cbv zeta in H.
    apply bind_ok in H as (rows' & w2 & H2 & H). assert (F2 : follows w1 w2).
    { destruct reread; [exact (proj1 (kept _ _ _ _ _ (resources_quiet _) H2))|by injection H2 as _ <-]. }
    apply bind_ok in H as (? & w3 & [F3 _]%(kept _ _ _ _ _ (progress_quiet _ _ _)) & H).
    assert (F13 : follows w1 w3) by (by etransitivity). assert (F03 : follows w0 w3) by (do 2 (etransitivity; [eassumption|]); done).
    apply IH in H as [F' H]; [|done]. assert (F1' : follows w1 w') by (by etransitivity). split; [by etransitivity|].
    constructor; [right; by eapply done_later|]. eapply Forall_impl; [exact H|]. intros ty' [[|[<-|[]]]%in_app_or|]; [by left|right; by eapply done_later|by right].
Qed.
#[local] Hint Resolve preflights_follow : service.

Lemma index_follows o ph refs answer : preserves follows (_checkpoint_observed_index o ph refs answer).
Proof. intros w. apply (index_quiet o ph refs answer w). Qed.
Lemma progress_follows o ph refs : preserves follows (progress o ph refs).
Proof. intros w. apply (progress_quiet o ph refs w). Qed.
Lemma put_follows a ty name state pid pname existing v : preserves follows (_put_resource policy a ty name state pid pname existing v).
Proof. intros w. apply (put_quiet policy a ty name state pid pname existing v w). Qed.
Lemma mark_follows {A} a o ty ph pid pname message : preserves follows (_mark_ambiguous policy a o ty ph pid pname message : Svc A).
Proof. pose proof put_follows. unfold _mark_ambiguous, _resources. preserving. Qed.
#[local] Hint Resolve index_follows progress_follows put_follows mark_follows : service.

Lemma verify_one_follows pd a o name at_ sel comp b rows ty : preserves follows (verify_one policy asking pd a o name at_ sel comp b rows ty).
Proof. unfold verify_one, ambiguous, keep_resource, stored. preserving. Qed.
Lemma rotate_one_follows pd a o name at_ sel comp b rows ty : preserves follows (rotate_one policy asking pd a o name at_ sel comp b rows ty).
Proof. unfold rotate_one, rotation_rejected, ambiguous, keep_resource, stored. preserving. Qed.
Lemma create_one_follows pd a o name at_ sel comp b rows ty : preserves follows (create_one platform policy asking pd a o name at_ sel comp b rows ty).
Proof. unfold create_one, create_confirmed, creation_failed, record_instance, _resources. preserving. Qed.
Lemma remove_one_follows pd a o name at_ purge sel comp b rows ty : preserves follows (remove_one policy asking pd a o name at_ purge sel comp b rows ty).
Proof. unfold remove_one, removal_confirmed, preflight_failed, ambiguous, keep_resource, stored. preserving. Qed.

(** The types an interrupted operation of the same request has completed *)
Definition had_completed (a : Application) (w0 w : World) (types : list string) : Prop :=
  types = [] \/ exists o, once (fun u => (db (get_unfinished_operation (app_scope a)) u).1 = Ok (Some o)) w0 w
    /\ _refs_list (op_refs o) "completed" = Ok types.

Lemma existing_found a k sel refs w o w' : follows w0 w -> _existing_operation a k sel refs w = (Ok (Some o), w') ->
  once (fun u => (db (get_unfinished_operation (app_scope a)) u).1 = Ok (Some o)) w0 w'.
Proof.
  intros F H. unfold _existing_operation in H. cbv zeta in H. apply bind_ok in H as (found & w1 & H1 & H). destruct found as [o'|]; [|done].
  do 4 (apply bind_ok in H as (? & ? & [_ ->]%lift_ok & H) || apply bind_ok in H as (? & ? & [_ ->]%require_true & H)).
  injection H as -> <-. exists w. split_and!; [done|by eapply ran_db|by rewrite H1].
Qed.

Lemma begun_here k ph i dl refs a sel w o w' : _begin a k sel ph i dl refs w = (Ok o, w') ->
  dict_get "completed" refs = None -> _refs_list (op_refs o) "completed" = Ok [].
Proof.
  unfold _begin. intros H Hr. apply bind_ok in H as (j & w1 & _ & H). cbv zeta in H. apply bind_ok in H as (? & ? & [_ ->]%lift_ok & H).
  apply bind_ok in H as (? & w2 & _ & H). apply bind_ok in H as (? & ? & [_ ->]%require_true & H). apply db_step in H.
  unfold _refs_list. rewrite (proj2 (begun_refs _ _ _ _ _ _ _ _ _ _ H)). unfold refs_get. rewrite dict_get_merge; [done|].
  intros [v Hv]%keys_get. congruence.
Qed.
Definition settled_operation (o : Operation) (w : World) : Prop := row_marked (op_operation_id o) (fun row => op_st row = op_succeeded) w.

Lemma tail_returns a o v name sel ph extra reread one comp b rows refs w res w' :
  (forall comp b rows ty w w', follows w0 w -> one comp b rows ty w = (Ok tt, w') -> resource_done v a name w0 w' ty /\ follows w w') ->
  follows w0 w ->
  (completed ← each_type a o sel ph extra reread one sel comp b rows; _complete_operation o sel completed refs) w = (Ok res, w') ->
  follows w w' /\ sr_requested res = sel /\ settled_operation o w' /\ Forall (fun ty => In ty comp \/ resource_done v a name w0 w' ty) sel.
Proof.
  intros Hone F H. apply bind_ok in H as (all & w1 & [F1 Hall]%(each_type_ok _ _ _ _ _ _ _ _ _ Hone) & H); [|done].
  unfold _complete_operation in H. apply bind_ok in H as (current & w2 & F2%ran_db & H). cbv zeta in H.
  apply bind_ok in H as (? & w3 & F3%ran_db & H). apply bind_ok in H as (? & w4 & H4 & [= <- <-]).
  pose proof (ran_db _ _ _ _ H4) as F4. apply marked_succeeded in H4.
  assert (F14 : follows w1 w4) by (etransitivity; [exact F2|]; by etransitivity).
  split_and!; [by etransitivity|done|done|]. eapply Forall_impl; [exact Hall|]. intros ty [|Hd]; [by left|right; by eapply done_later].
Qed.

Lemma had_completed_later a w w' types : follows w w' -> had_completed a w0 w types -> had_completed a w0 w' types.
Proof. intros F [|(o & H1 & H2)]; [by left|right]. exists o. split; [by eapply once_later|done]. Qed.

(** The operation of the call, and what it has completed *)
Lemma resumed i dl pd a k sel ph refs w found w1 w2 o w3 : follows w0 w ->
  _existing_operation a k sel refs w = (Ok found, w1) -> follows w1 w2 ->
  resume_or_begin policy i dl pd a found k sel ph refs w2 = (Ok o, w3) -> dict_get "completed" refs = None ->
  follows w2 w3 /\ forall types, _refs_list (op_refs o) "completed" = Ok types -> had_completed a w0 w3 types.
Proof.
  intros F H1 F12 H Hr. assert (F23 : follows w2 w3).
  { refine (kept follows _ _ _ _ _ H). unfold resume_or_begin, _deadline, _begin, seconds_after. preserving. }
  split; [done|]. intros types Ht. unfold resume_or_begin in H. destruct found as [o'|].
  - injection H as -> <-. right. exists o. split; [|done]. eapply once_later; [exact F12|]. by eapply existing_found.
  - apply bind_ok in H as (d & w4 & _ & H). left. apply begun_here in H; [|done]. congruence.
Qed.

(** What has been done when a mutation returns *)
Definition returned (v : storage_verb) (types : list string) (asked_name : string) (w' : World) (res : StorageResult) : Prop :=
  exists a name o earlier, once (fun u => exists i, (db (get_application i) u).1 = Ok (Some a)) w0 w'
    /\ resource_name asked_name = Ok name /\ _selected types = Ok (sr_requested res)
    /\ had_completed a w0 w' earlier /\ settled_operation o w'
    /\ Forall (fun ty => In ty earlier \/ resource_done v a name w0 w' ty) (sr_requested res).

Lemma application_read i w a w' : follows w0 w -> _application i w = (Ok a, w') ->
  once (fun u => exists i, (db (get_application i) u).1 = Ok (Some a)) w0 w' /\ follows w0 w'.
Proof.
  intros F H. assert (F' : follows w w') by (refine (kept follows _ _ _ _ _ H); unfold _application; preserving).
  apply application_found in H. split; [|by etransitivity]. exists w. split_and!; [done|done|by exists i].
Qed.

Lemma attempt_follows o b pd : preserves follows (_attempt_deadline policy o b pd).
Proof. unfold _attempt_deadline, _fresh_recovery_deadline, before, seconds_after. preserving. Qed.

Lemma existing_follows a k sel refs : preserves follows (_existing_operation a k sel refs).
Proof. unfold _existing_operation. preserving. Qed.

(** From the operation on, create, verify and rotate are alike. *)
Lemma worked_returns v i dl pd a name k sel ph0 refs w found w1 w2 o ph reread (one : string -> _) rows w3 res w' :
  (forall at_ comp b rows ty w w', follows w0 w -> one at_ comp b rows ty w = (Ok tt, w') -> resource_done v a name w0 w' ty /\ follows w w') ->
  follows w0 w -> _existing_operation a k sel refs w = (Ok found, w1) -> follows w1 w2 -> dict_get "completed" refs = None ->
  resume_or_begin policy i dl pd a found k sel ph0 refs w2 = (Ok o, w3) ->
  (attempt ← _attempt_deadline policy o (not_null found) pd;
   completed ← lift (_refs_list (op_refs o) "completed");
   completed ← each_type a o sel ph [] reread (one attempt) sel completed (not_null found) rows;
   _complete_operation o sel completed []) w3 = (Ok res, w') ->
  follows w2 w' /\ sr_requested res = sel /\ settled_operation o w'
  /\ exists earlier, had_completed a w0 w' earlier /\ Forall (fun ty => In ty earlier \/ resource_done v a name w0 w' ty) sel.
Proof.
  intros Hone F H1 F12 Hr H2 H. assert (F01 : follows w0 w1) by (etransitivity; [exact F|exact (kept _ _ _ _ _ (existing_follows _ _ _ _) H1)]).
  apply (resumed _ _ _ _ _ _ _ _ _ _ _ _ _ _ F H1 F12) in H2 as [F23 Hi]; [|done].
  apply bind_ok in H as (at_ & w4 & F34%(kept _ _ _ _ _ (attempt_follows _ _ _)) & H). apply bind_ok in H as (comp & ? & [Hc ->]%lift_ok & H).
  assert (F14 : follows w1 w4) by (do 2 (etransitivity; [eassumption|]); done).
  apply (tail_returns _ _ v name) in H as (F4 & <- & Ho & Hall); [|intros; by eapply Hone|by etransitivity].
  assert (F24 : follows w2 w') by (do 2 (etransitivity; [eassumption|]); done).
  split_and!; [done|done|done|]. exists comp. split; [|done]. eapply had_completed_later; [|by apply Hi]. by etransitivity.
Qed.

Lemma create_returns i dl pd application_id types name w res w' : follows w0 w ->
  create platform policy asking i dl pd application_id types name w = (Ok res, w') -> returned st_create types name w' res.
Proof.
  intros F H. unfold create in H. apply bind_ok in H as (a & w1 & [Ha F1]%(application_read _ _ _ _ F) & H).
  apply bind_ok in H as (name' & ? & [Hn ->]%lift_ok & H). apply bind_ok in H as (sel & ? & [Hs ->]%lift_ok & H).
  apply bind_ok in H as (found & w2 & H2 & H). pose proof (kept _ _ _ _ _ (existing_follows _ _ _ _) H2) as F2.
  apply bind_ok in H as (rows & w3 & [F3 _]%(kept _ _ _ _ _ (resources_quiet _)) & H). cbv zeta in H.
  apply bind_ok in H as (? & ? & [_ ->]%require_true & H). apply bind_ok in H as (o & w4 & H4 & H).
  apply (worked_returns st_create _ _ _ _ name' _ _ _ _ _ _ _ _ _ _ _ (fun at_ => _) _ _ _ _) with (2 := F1) (3 := H2) (4 := F3) (6 := H4) in H
    as (F5 & <- & Ho & earlier & Hi & Hall); [| |done].
  - exists a, name', o, earlier. split_and!; try done. eapply once_later; [|exact Ha]. do 2 (etransitivity; [eassumption|]). done.
  - intros; split; [by eapply create_one_done|exact (kept _ _ _ _ _ (create_one_follows _ _ _ _ _ _ _ _ _ _) H1)].
Qed.
Lemma verify_returns i dl pd application_id types name w res w' : follows w0 w ->
  verify policy asking i dl pd application_id (Some types) name w = (Ok res, w') -> returned st_verify types name w' res.
Proof.
  intros F H. unfold verify in H. apply bind_ok in H as (a & w1 & [Ha F1]%(application_read _ _ _ _ F) & H).
  apply bind_ok in H as (name' & ? & [Hn ->]%lift_ok & H). apply bind_ok in H as (rows & w2 & [F2 _]%(kept _ _ _ _ _ (resources_quiet _)) & H).
  apply bind_ok in H as (sel & ? & [Hs ->]%lift_ok & H). apply bind_ok in H as (? & ? & [_ ->]%require_true & H).
  assert (F02 : follows w0 w2) by (by etransitivity).
  apply bind_ok in H as (found & w3 & H3 & H). pose proof (kept _ _ _ _ _ (existing_follows _ _ _ _) H3) as F3. cbv zeta in H.
  apply bind_ok in H as (? & ? & [_ ->]%require_true & H). apply bind_ok in H as (o & w4 & H4 & H).
  apply (worked_returns st_verify _ _ _ _ name' _ _ _ _ _ _ _ _ _ _ _ (fun at_ => _) _ _ _ _) with (2 := F02) (3 := H3) (6 := H4) in H
    as (F5 & <- & Ho & earlier & Hi & Hall); [| |reflexivity|done].
  - exists a, name', o, earlier. split_and!; try done. eapply once_later; [|exact Ha]. do 2 (etransitivity; [eassumption|]). done.
  - intros; split; [by eapply verify_one_done|exact (kept _ _ _ _ _ (verify_one_follows _ _ _ _ _ _ _ _ _ _) H1)].
Qed.

Lemma rotate_returns i dl pd application_id types name w res w' : follows w0 w ->
  rotate policy asking i dl pd application_id types name w = (Ok res, w') -> returned st_rotate types name w' res.
Proof.
  intros F H. unfold rotate in H. apply bind_ok in H as (a & w1 & [Ha F1]%(application_read _ _ _ _ F) & H).
  apply bind_ok in H as (name' & ? & [Hn ->]%lift_ok & H). apply bind_ok in H as (sel & ? & [Hs ->]%lift_ok & H).
  apply bind_ok in H as (found & w2 & H2 & H). pose proof (kept _ _ _ _ _ (existing_follows _ _ _ _) H2) as F2.
  apply bind_ok in H as (rows & w3 & [F3 _]%(kept _ _ _ _ _ (resources_quiet _)) & H). cbv zeta in H.
  apply bind_ok in H as (? & ? & [_ ->]%require_true & H). apply bind_ok in H as (o & w4 & H4 & H).
  apply (worked_returns st_rotate _ _ _ _ name' _ _ _ _ _ _ _ _ _ _ _ (fun at_ => _) _ _ _ _) with (2 := F1) (3 := H2) (4 := F3) (6 := H4) in H
    as (F5 & <- & Ho & earlier & Hi & Hall); [| |done].
  - exists a, name', o, earlier. split_and!; try done. eapply once_later; [|exact Ha]. do 2 (etransitivity; [eassumption|]). done.
  - intros; split; [by eapply rotate_one_done|exact (kept _ _ _ _ _ (rotate_one_follows _ _ _ _ _ _ _ _ _ _) H1)].
Qed.

Lemma remove_returns i dl pd application_id types name confirm slug_ purge w res w' : follows w0 w ->
  remove policy asking i dl pd application_id types name confirm slug_ true purge w = (Ok res, w') -> returned st_remove types name w' res.
Proof.
  intros F H. unfold remove in H. apply bind_ok in H as (a & w1 & [Ha F1]%(application_read _ _ _ _ F) & H).
  apply bind_ok in H as (name' & ? & [Hn ->]%lift_ok & H). apply bind_ok in H as (sel & ? & [Hs ->]%lift_ok & H).
  apply bind_ok in H as (? & ? & [_ ->]%require_true & H). apply bind_ok in H as (? & w2 & H2 & H).
  assert (E2 : w2 = w1).
  { destruct slug_; [|by injection H2 as _ <-]. apply bind_ok in H2 as (? & ? & [_ ->]%lift_ok & H2). by apply require_true in H2 as [_ ->]. }
  subst w2. clear H2. cbv zeta in H. apply bind_ok in H as (found & w2 & H2 & H).
  pose proof (kept _ _ _ _ _ (existing_follows _ _ _ _) H2) as F2.
  apply bind_ok in H as (rows & w3 & [F3 _]%(kept _ _ _ _ _ (resources_quiet _)) & H).
  apply bind_ok in H as (comp & ? & [Hc ->]%lift_ok & H). do 2 apply bind_ok in H as (? & ? & [_ ->]%require_true & H).
  apply bind_ok in H as (active & w4 & F4%ran_db & H). apply bind_ok in H as (accepted & w5 & F5%ran_db & H).
  apply bind_ok in H as (referenced & ? & [_ ->]%lift_ok & H). apply bind_ok in H as (? & w6 & H6 & H).
  assert (w6 = w5) as -> by (destruct referenced; [by injection H6 as _ <-|done]).
  apply bind_ok in H as (o & w7 & H7 & H). pose proof H7 as H7'.
  assert (F25 : follows w2 w5) by (etransitivity; [exact F3|]; by etransitivity).
  apply (resumed _ _ _ _ _ _ _ _ _ _ _ _ _ _ F1 H2 F25) in H7 as [F7 Hi]; [|done].
  apply bind_ok in H as (at_ & w8 & F8%(kept _ _ _ _ _ (attempt_follows _ _ _)) & H).
  assert (F28 : follows w2 w8) by (do 2 (etransitivity; [eassumption|]); done).
  apply (tail_returns _ _ st_remove name') in H as (F9 & <- & Ho & Hall);
    [|intros; split; [by eapply remove_one_done|exact (kept _ _ _ _ _ (remove_one_follows _ _ _ _ _ _ _ _ _ _ _) H1)]|].
  2: etransitivity; [exact F1|]; by etransitivity.
  exists a, name', o, comp. split_and!; try done.
  - eapply once_later; [|exact Ha]. do 2 (etransitivity; [eassumption|]). done.
  - destruct found as [o'|]; [|left; by injection Hc]. injection H7' as -> <-. eapply had_completed_later; [|by apply Hi]. by etransitivity.
Qed.
End Returns.

Lemma settled_later r o w : settled_operation o w -> settled_operation o (asked r w).
Proof. done. Qed.

Lemma returned_later v types name w0 w r res : returned w0 v types name w res -> returned w0 v types name (asked r w) res.
Proof.
  intros (a & n & o & earlier & H1 & H2 & H3 & H4 & H5 & H6). pose proof (follows_asked r w) as F. exists a, n, o, earlier.
  split_and!; try done; [by eapply once_later|by eapply had_completed_later|]. eapply Forall_impl; [exact H6|].
  intros ty [|Hd]; [by left|right; by eapply done_later].
Qed.

Lemma mutate_stored_returns platform policy q a name deadline w0 w res w' : follows w0 w ->
  mutate_stored platform policy call_helper q a name deadline w = (Ok res, w') -> returned w0 (sm_action q) (sm_resource_types q) name w' res.
Proof.
  intros F0 H. assert (Later : forall {A} (m : Svc A) u v u', preserves follows m -> m u = (Ok v, u') -> follows w0 u -> follows w0 u').
  { intros A m u v u' Hm Hu Fu. etransitivity; [exact Fu|exact (kept _ _ _ _ _ Hm Hu)]. }
  unfold mutate_stored in H. apply bind_ok in H as (t & w1 & F1%Later & H); [|unfold remaining_seconds; preserving|done].
  apply bind_ok in H as (? & w2 & F2%Later & H);
    [|apply (project_reads follows follows_monotonic_read); intros; apply preserves_command, follows_asked|done].
  apply bind_ok in H as (? & w3 & H3 & H). assert (F3 : follows w0 w3).
  { match type of H3 with ?m w2 = _ => apply (Later _ m _ _ _) with (2 := H3) (3 := F2) end.
    destruct (sm_action q); try (intros u; reflexivity). destruct (existsb _ _); [unfold prepare_dns_job; preserving|intros u; reflexivity]. }
  apply bind_ok in H as (found & w4 & F4%Later & H); [|apply follows_db|done]. apply bind_ok in H as (b & w5 & H5 & H).
  assert (w5 = w4) as -> by (destruct found; [destruct (String.eqb _ _); [by injection H5|done]|done]).
  apply bind_ok in H as (durable & w6 & F6%Later & H); [|unfold wall_deadline; preserving|done].
  apply bind_ok in H as (request & ? & [_ ->]%lift_ok & H). cbv zeta in H. destruct (sm_action q).
  - eapply create_returns; [exact F6|exact H].
  - eapply verify_returns; [exact F6|exact H].
  - eapply rotate_returns; [exact F6|exact H].
  - eapply remove_returns; [exact F6|exact H].
Qed.


