(* ===== verification/EnvironmentSpec.v ===== *)
(** * Properties of changes to the environment of an application

    What the helper may be asked to change, and where the recorded names come
    from, however a change ends. *)

From S2P Require Import Prelude Regex Json JsonParse Clock Validation Runtime Sql Schema StorageCapacity Operations.
From S2P Require Import OperationsSpec AdmissionSpec StorageContract DeploymentConfig Applications ApplicationsSpec Resources ResourcesSpec.
From S2P Require Import Sizing NomadJobs Service Rollout RolloutSpec StorageLimits StorageLimitsSpec.
From S2P Require Import OpenStack OpenStackSpec IpAddress FloatingIp PublicIp PublicIpSpec FixedIp RetainedPort RetainedPortSpec.
From S2P Require Import Sha256 WorkerHelperSpec Finishing FinishingSpec ApplicationService ApplicationServiceSpec Storage StorageSpec StorageDoneSpec.
From S2P Require Import Environment.

(** ** The names on record *)

Definition staff_key (r : EnvironmentKey) : bool := String.eqb (ek_owner r) "staff".

Definition others_keys (d : Db) : list EnvironmentKey := List.filter (fun r => negb (staff_key r)) (environment_keys d).

(** The names of the other owners stay; new names are among [shown]. *)
Definition names_among (shown : string -> Prop) (d d' : Db) : Prop :=
  others_keys d' = others_keys d /\ forall r, In r (environment_keys d') -> In r (environment_keys d) \/ shown (ek_key_name r).

#[export] Instance names_among_preorder shown : PreOrder (names_among shown).
Proof.
  split; [intros d; by split; [|left]|]. intros d1 d2 d3 [H1 H2] [K1 K2]. split; [congruence|].
  intros r [Hr|Hr]%K2; [by apply H2|by right].
Qed.

Definition same_names (d d' : Db) : Prop := environment_keys d' = environment_keys d.

#[export] Instance same_names_preorder : PreOrder same_names.
Proof. unfold same_names. split; [done|]. intros x y z. congruence. Qed.

Lemma same_among shown d d' : same_names d d' -> names_among shown d d'.
Proof. unfold same_names, names_among, others_keys. intros ->. split; [done|]. by left. Qed.

Lemma among_more (shown shown' : string -> Prop) d d' : (forall n, shown n -> shown' n) -> names_among shown d d' -> names_among shown' d d'.
Proof. intros H [H1 H2]. split; [done|]. intros r [Hr|Hr]%H2; [by left|right; auto]. Qed.

Lemma evolves_each_in {A} (P : Db -> Db -> Prop) `{!PreOrder P} (l : list A) (f : A -> DB unit) :
  (forall x, In x l -> evolves P (f x)) -> evolves P (for_each l f).
Proof.
  intros H. induction l as [|x l IH]; cbn [for_each]; [apply (evolves_ret P)|].
  apply (evolves_bind P); [apply H; by left|]. intros ?. apply IH. intros y Hy. apply H. by right.
Qed.

Lemma sorted_set_in x l : In x (sorted_set l) -> In x l.
Proof.
  induction l as [|y l IH]; cbn [sorted_set]; [done|]. cbv zeta. destruct (one_of_words _ _); [by right; apply IH|].
  intros H. apply (Permutation_in _ (insert_by_perm _ _ _)) in H. destruct H as [->|H]; [by left|right; by apply IH].
Qed.

Lemma filter_within {A} (p q : A -> bool) l : (forall x, p x = true -> q x = true) -> List.filter p (List.filter q l) = List.filter p l.
Proof.
  intros H. induction l as [|x l IH]; simpl; [done|]. destruct (q x) eqn:Eq; simpl; [by rewrite IH|]. rewrite IH.
  destruct (p x) eqn:Ep; [|done]. apply H in Ep. congruence.
Qed.

Lemma env_key_same k s : env_key (JStr k) = Ok s -> s = k.
Proof. by intros [[= ->] _]%matching_ok. Qed.

Lemma env_names_same l names : env_names l = Ok names -> names = l.
Proof. intros H%each_ok. induction H as [|x y l l' Hx _ IH]; [done|]. apply env_key_same in Hx as ->. by rewrite IH. Qed.

Lemma staff_names_written i l : evolves (names_among (fun n => In n l)) (set_environment_keys i "staff" l).
Proof.
  unfold set_environment_keys. apply (evolves_bind_lift _); intros j _. apply (evolves_bind _); [apply (evolves_require _)|intros ?].
  apply (evolves_bind_lift _); intros checked Hc. apply (evolves_transaction _). apply (evolves_bind _).
  - apply (evolves_delete _). intros d. split.
    + unfold others_keys. simpl. apply filter_within. intros r Hr. unfold staff_key in Hr.
      apply negb_true_iff. by destruct (String.eqb (ek_owner r) "staff"); rewrite ?andb_false_r.
    + intros r [Hr _]%filter_In. by left.
  - intros ?. apply evolves_each_in; [apply _|]. intros k Hk%sorted_set_in. apply (evolves_insert _). intros d _. split.
    + unfold others_keys. simpl. rewrite List.filter_app. simpl. by rewrite app_nil_r.
    + intros r [Hr|[<-|[]]]%in_app_or; [by left|right]. simpl. by rewrite <- (env_names_same _ _ Hc).
Qed.

(** ** What may be asked, and recorded *)

(** The newest answer names these variables. *)
Definition answer_names (w : World) (name : string) : Prop :=
  exists action args t earlier d names, w_requests w = Helper action args t :: earlier
    /\ w_helper w (w_requests w) = Ok d /\ refs_get "keys" d = Storage.words names /\ In name names.

Definition names_shown (w : World) : Db -> Db -> Prop := names_among (answer_names w).

Definition env_removes (removing : bool) : string := if removing then "unset" else "set".

(** The intent of the operation is on record, with at least these names. *)
Definition intent_marked (i : string) (removing : bool) (names : list string) (w : World) : Prop :=
  row_marked i (fun o => op_phase o = "intent_recorded"%string /\ refs_get "mutation" (op_refs o) = JStr (env_removes removing)
    /\ exists intended, refs_get "key_names" (op_refs o) = Storage.words intended /\ incl names intended) w.

(** A change of these names of an application that was read in this call: none
    is the platform's, or another owner's as the names were read, and the intent
    is on record. *)
Definition change_due (w0 w : World) (removing : bool) (args : dict) (names : list string) : Prop :=
  exists a ownership i, once (fun u => exists j, (db (get_application j) u).1 = Ok (Some a)) w0 w
    /\ once (fun u => (_ownership (app_application_id a) u).1 = Ok ownership) w0 w
    /\ refs_get "slug" args = JStr (app_slug a) /\ refs_get "ownership" args = text_values ownership
    /\ Forall (fun name => protected_name ownership name = false) names
    /\ once (intent_marked i removing names) w0 w.

Definition env_allowed (w0 w : World) (r : Request) : Prop :=
  match r with
  | Helper action args _ =>
      (action = "app.env.set" -> exists values, refs_get "updates" args = text_values values /\ change_due w0 w false args (map fst values))
      /\ (action = "app.env.remove" -> exists names, refs_get "keys" args = Storage.words names /\ change_due w0 w true args names)
  | _ => True
  end.

Lemma names_checkpoint i p r m g s n : evolves same_names (checkpoint_operation i p r m g s n).
Proof. unfold checkpoint_operation, update_live. evolve; done. Qed.
Lemma names_renew i d n : evolves same_names (renew_operation_deadline i d n).
Proof. unfold renew_operation_deadline, update_live. evolve; done. Qed.
Lemma names_begin i k s p d r n : evolves same_names (begin_operation i k s p d r n).
Proof. unfold begin_operation. evolve; done. Qed.
Lemma names_finish i st e p u n : evolves same_names (_finish_operation i st e p u n).
Proof. unfold _finish_operation, update_live. evolve; done. Qed.
#[local] Hint Resolve names_finish : evolve.
Lemma names_recovery i e p n : evolves same_names (mark_recovery_required i e p n).
Proof. unfold mark_recovery_required. evolve. Qed.
Lemma names_succeeded i c n : evolves same_names (mark_succeeded i c n).
Proof. unfold mark_succeeded. evolve. Qed.
Lemma names_failed i e c n : evolves same_names (mark_failed i e c n).
Proof. unfold mark_failed. evolve. Qed.
Lemma names_revision i r n : evolves same_names (advance_environment_revision i r n).
Proof. unfold advance_environment_revision. evolve; done. Qed.
#[local] Hint Resolve names_checkpoint names_renew names_begin names_recovery names_succeeded names_failed names_revision : evolve.

Lemma dict_set_keys {A} k (v : A) d n : In n (dict_keys (dict_set k v d)) -> n = k \/ In n (dict_keys d).
Proof.
  unfold dict_keys. induction d as [|[k' v'] d IH]; simpl; [intros [->|[]]; by left|].
  destruct (String.eqb k k'); simpl; (intros [->|H]; [|]); [by left|by right; right|by right; left|].
  destruct (IH H); [by left|by right; right].
Qed.

(** The names of a dictionary built from named items *)
Lemma dict_of_keys {A B} (f : A -> result (string * B)) (g : A -> string) : (forall x kv, f x = Ok kv -> kv.1 = g x) ->
  forall l d r, dict_of f l d = Ok r -> forall n, In n (dict_keys r) -> In n (dict_keys d) \/ In n (map g l).
Proof.
  intros Hf. induction l as [|x l IH]; intros d r; simpl; [intros [= <-]; by left|]. unfold mbind, result_bind.
  destruct (f x) as [kv|] eqn:E; [|done]. intros H n Hn. apply Hf in E. destruct (IH _ _ H n Hn) as [Hd|]; [|by right; right].
  apply dict_set_keys in Hd as [->|]; [right; left; congruence|by left].
Qed.

Section Proofs.
Context (platform : PlatformConfig) (policy : Policy) (deadline : Z) (w0 : World).

Abbreviation R := (justified (env_allowed w0) names_shown).
Abbreviation asking := (_helper call_helper deadline).

Lemma E_same {A} (m : DB A) : evolves same_names m -> preserves R (db m).
Proof. intros H w. eapply justified_evolves; [exact H|]. intros d d'. apply same_among. Qed.

Lemma E_still {A} (m : DB A) : evolves eq m -> preserves R (db m).
Proof. intros H w. by apply just_silent, silent_db. Qed.

Lemma E_monotonic : preserves R monotonic.
Proof. intros w. apply just_silent, silent_monotonic. Qed.

Lemma E_follows u u' : R u u' -> follows u u'.
Proof. intros H. by eapply obeys_follows, justified_obeys. Qed.

Lemma E_ask action args t : one_of_words ["app.env.set"; "app.env.remove"] action = false -> preserves R (asking action args t).
Proof. intros H w. apply just_ask. split; intros ->; discriminate H. Qed.

Lemma E_names i l w : (forall n, In n l -> answer_names w n) -> R w (db (set_environment_keys i "staff" l) w).2.
Proof. intros H. eapply justified_evolves; [apply staff_names_written|]. intros d d'. by apply among_more. Qed.

Ltac environment := intros; preserving;
  try (first [apply E_monotonic | apply E_still; solve [auto with evolve | evolve] | apply E_same; solve [auto with evolve | evolve; done]]).

Lemma E_remaining d m : preserves R (remaining_seconds d m).
Proof. unfold remaining_seconds. environment. Qed.

Lemma E_wall d : preserves R (wall_deadline d).
Proof. unfold wall_deadline. environment. Qed.

Lemma E_project t : preserves R (OpenStack.verify_project platform t).
Proof. apply (project_reads R E_monotonic). intros a m _ w. by apply just_ask. Qed.

Lemma E_rejects a : preserves R (reject_deleting a).
Proof. unfold reject_deleting. environment. Qed.

Lemma E_ownership i : preserves R (_ownership i).
Proof. unfold _ownership, list_environment_keys. environment. Qed.

Lemma E_failed {A} i refs e : preserves R (change_failed i refs e : Svc A).
Proof. unfold change_failed, checkpoint. environment. Qed.

Lemma E_restart a answer : preserves R (restart_confirmed a answer).
Proof. unfold restart_confirmed. environment. Qed.

Lemma items_words v e names : text_items v e = Ok names -> v = Storage.words names.
Proof.
  unfold text_items. destruct v; try done. intros H%each_ok. unfold Storage.words. f_equal.
  induction H as [|x y l l' Hx _ IH]; [done|]. destruct x; try done. injection Hx as ->. simpl. by rewrite IH.
Qed.

Lemma among_in n names l : In n (among names l) -> In n names.
Proof. intros [_ (n' & H & ->%String.eqb_eq)%existsb_exists]%filter_In. done. Qed.

(** An answer just given *)
Lemma asked_names action args t w d w' names e present : asking action args t w = (Ok d, w') -> text_items (refs_get "keys" d) e = Ok names ->
  env_names names = Ok present -> forall w1, quietly w' w1 -> forall n, In n present -> answer_names w1 n.
Proof.
  intros H Hn%items_words ->%env_names_same w1 [F E] n Hin. apply helper_step in H as [-> H].
  exists action, args, deadline, (w_requests w), d, names. rewrite E, (follows_helper _ _ F). by split_and!.
Qed.

Lemma recover_E a ownership o finish : preserves R (_recover_interrupted policy call_helper a ownership o deadline finish).
Proof.
  intros w. unfold _recover_interrupted. apply (then_kept R); [reflexivity|]. intros intent ? [_ ->]%lift_ok.
  apply (then_kept R); [apply E_remaining|]. intros t w1 _. unfold list_environment. apply (then_kept R).
  { apply (then_kept R); [reflexivity|]. intros. by apply E_ask. }
  intros observed w2 H2. apply bind_ok in H2 as (s & ? & [_ ->]%lift_ok & H2).
  apply (then_kept R); [reflexivity|]. intros names ? [Hn ->]%lift_ok. apply (then_kept R); [reflexivity|]. intros present ? [Hp ->]%lift_ok.
  cbv zeta. apply (then_kept R).
  - apply E_names. intros n Hin%sorted_set_in. eapply asked_names; [exact H2|exact Hn|exact Hp|reflexivity|].
    apply in_app_or in Hin as [Hin|Hin]; [by apply among_in in Hin|].
    destruct intent.2; [|done]. apply filter_In in Hin as [Hin _]. by apply among_in in Hin.
  - intros ? w3 _. destruct finish; [|reflexivity]. apply (then_kept R); [apply E_same; auto with evolve|]. intros. reflexivity.
Qed.

Lemma unfinished_E a scope unfinished ownership resuming : preserves R (recover_unfinished policy call_helper a scope unfinished ownership resuming deadline).
Proof. unfold recover_unfinished. pose proof recover_E. pose proof E_ownership. environment. Qed.

Lemma intent_E i kind scope refs resuming : preserves R (record_intent i kind scope refs resuming deadline).
Proof. unfold record_intent, checkpoint. pose proof E_wall. environment. Qed.

Lemma intent_recorded i kind scope names removing resuming w u w' :
  record_intent i kind scope (intent_refs names removing) resuming deadline w = (Ok u, w') -> intent_marked i removing names w'.
Proof.
  unfold record_intent. intros H. apply bind_ok in H as (at_ & w1 & _ & H). unfold intent_marked.
  assert (E : forall row, (forall k, refs_get k (op_refs row) = canonical (refs_get k (intent_refs names removing))) ->
    refs_get "mutation" (op_refs row) = JStr (env_removes removing) /\ refs_get "key_names" (op_refs row) = Storage.words names).
  { intros row Hk. rewrite !Hk. split; [by destruct removing|]. apply canonical_words. }
  destruct resuming.
  - apply bind_ok in H as (? & w2 & _ & H). apply bind_ok in H as (? & w3 & H & [= _ <-]). apply checkpoint_recorded in H as (row & Hin & Hi & Hp & _ & Hk).
    apply E in Hk as [H1 H2]. exists row. split_and!; try done. exists names. split; [done|apply incl_refl].
  - apply bind_ok in H as (? & w3 & H%db_step & [= _ <-]). apply begun_refs in H as [(Hin & Hi & Hp) Hk].
    apply E in Hk as [H1 H2]. eexists. split_and!; try done. exists names. split; [done|apply incl_refl].
Qed.

(** What holds when the change is asked for *)
Definition change_open (a : Application) (ownership : list (string * string)) (removing : bool) (names : list string) (w : World) : Prop :=
  follows w0 w /\ once (fun u => exists j, (db (get_application j) u).1 = Ok (Some a)) w0 w
  /\ once (fun u => (_ownership (app_application_id a) u).1 = Ok ownership) w0 w
  /\ Forall (fun name => protected_name ownership name = false) names
  /\ exists i, once (intent_marked i removing names) w0 w.

Lemma open_due a ownership removing names w args : change_open a ownership removing names w ->
  refs_get "slug" args = JStr (app_slug a) -> refs_get "ownership" args = text_values ownership ->
  forall names', incl names' names -> change_due w0 w removing args names'.
Proof.
  intros (H1 & H2 & H3 & H4 & i & H5) Hs Ho names' Hin. exists a, ownership, i. split_and!; try done.
  - rewrite !List.Forall_forall in *. auto.
  - destruct H5 as (u & F1 & F2 & row & K1 & K2 & K3 & K4 & all & K5 & K6). exists u. split_and!; [done|done|].
    exists row. split_and!; try done. exists all. split; [done|]. intros n Hn. by apply K6, Hin.
Qed.

Lemma set_E a ownership names updates t w : change_open a ownership false names w -> incl (map fst updates) names ->
  R w (set_environment asking (app_slug a) updates ownership t w).2.
Proof.
  intros Ho Hin. unfold set_environment. apply (then_kept R); [reflexivity|]. intros values ? [Hv ->]%lift_ok.
  apply (then_kept R); [reflexivity|]. intros s ? [Hs ->]%lift_ok. apply slug_ok in Hs as [[= <-] _].
  apply just_ask. split; [|discriminate]. intros _. exists values. split; [done|]. eapply open_due; [exact Ho|done|done|].
  intros n Hn. apply Hin. refine (match dict_of_keys _ fst _ _ _ _ Hv n Hn with or_introl H => match H with end | or_intror H => H end).
  intros [k v] [k' v']. cbn [fst snd]. unfold mbind, result_bind. destruct (env_key k) as [x|] eqn:E; [|done].
  apply env_key_same in E as ->. destruct (bounded_text _ _); [|done]. by intros [= <- _].
Qed.

Lemma remove_E a ownership names removals t w : change_open a ownership true names w -> incl removals names ->
  R w (remove_environment asking (app_slug a) removals ownership t w).2.
Proof.
  intros Ho Hin. unfold remove_environment. apply (then_kept R); [reflexivity|]. intros s ? [Hs ->]%lift_ok. apply slug_ok in Hs as [[= <-] _].
  apply (then_kept R); [reflexivity|]. intros checked ? [->%env_names_same ->]%lift_ok.
  apply just_ask. split; [discriminate|]. intros _. exists removals. split; [done|]. by eapply open_due.
Qed.

Lemma change_later a ownership removing names u u' : follows u u' -> change_open a ownership removing names u -> change_open a ownership removing names u'.
Proof.
  intros F (H1 & H2 & H3 & H4 & i & H5). split_and!; [by etransitivity|by eapply once_later|by eapply once_later|done|].
  exists i. by eapply once_later.
Qed.

Lemma restart_quiet a answer : preserves quietly (restart_confirmed a answer).
Proof. pose proof (fun A => @quietly_db A). unfold restart_confirmed. preserving. Qed.

(** A change answered by the helper, which named the variables *)
Definition change_asked (a : Application) (updates ownership : list (string * string)) (removals : list string) (t : Z) : Svc dict :=
  match removals with
  | [] => set_environment asking (app_slug a) updates ownership t
  | _ => remove_environment asking (app_slug a) removals ownership t
  end.

Lemma change_asked_E a updates ownership removals t w :
  change_open a ownership (negb (Nat.eqb (length removals) 0)) (sorted_set (map fst updates ++ removals)) w ->
  R w (change_asked a updates ownership removals t w).2.
Proof.
  assert (Hs : forall n l, In n l -> In n (sorted_set l)).
  { intros n l. induction l as [|x l IH]; cbn [sorted_set]; [done|]. intros Hn. cbv zeta. destruct (one_of_words _ x) eqn:E.
    - destruct Hn as [->|Hn]; [|by apply IH]. apply existsb_exists in E as (y & Hy & ->%String.eqb_eq). done.
    - apply (Permutation_in _ (Permutation_sym (insert_by_perm _ _ _))). destruct Hn as [->|Hn]; [by left|right; by apply IH]. }
  intros Ho. unfold change_asked. destruct removals as [|r rs].
  - eapply set_E; [exact Ho|]. intros n Hn. apply Hs, in_or_app. by left.
  - eapply remove_E; [exact Ho|]. intros n Hn. apply Hs, in_or_app. by right.
Qed.

Lemma change_answered a updates ownership removals t w d w' : change_asked a updates ownership removals t w = (Ok d, w') ->
  exists action args u, asking action args t u = (Ok d, w').
Proof.
  unfold change_asked. intros H. destruct removals as [|r rs].
  - unfold set_environment in H. do 2 apply bind_ok in H as (? & ? & [_ ->]%lift_ok & H). by eexists _, _, _.
  - unfold remove_environment in H. do 2 apply bind_ok in H as (? & ? & [_ ->]%lift_ok & H). by eexists _, _, _.
Qed.

Lemma change_E a i revision ownership updates removals refs w :
  change_open a ownership (negb (Nat.eqb (length removals) 0)) (sorted_set (map fst updates ++ removals)) w ->
  R w (change_environment policy call_helper a i revision ownership updates removals refs deadline w).2.
Proof.
  intros Ho. unfold change_environment. apply (then_kept R); [apply E_remaining|]. intros t w1 H1%(kept _ _ _ _ _ (E_remaining _ _)).
  apply E_follows in H1. apply (change_later _ _ _ _ _ _ H1) in Ho.
  fold (change_asked a updates ownership removals t). apply (then_kept R); [by apply change_asked_E|].
  intros answer w2 (action & args & u & H2)%change_answered. apply (then_kept R); [reflexivity|]. intros names ? [Hn ->]%lift_ok.
  apply (then_kept R); [apply E_restart|]. intros ? w3 H3%(kept _ _ _ _ _ (restart_quiet _ _)).
  apply (then_kept R); [reflexivity|]. intros present ? [Hp ->]%lift_ok. cbv zeta. apply (then_kept R).
  - apply E_names. intros n Hin%sorted_set_in%among_in. eapply asked_names; [exact H2|exact Hn|exact Hp|exact H3|exact Hin].
  - intros ? w4 _. match goal with |- R _ (?m w4).2 => assert (Hm : preserves R m); [|apply Hm] end. unfold checkpoint.
    apply preserves_bind; [apply _|apply E_same; auto with evolve|intros ?].
    do 2 (apply preserves_bind; [apply _|apply E_same; auto with evolve|intros ?]). intros ?. reflexivity.
Qed.

Lemma locked_E q a updates removals w : follows w0 w ->
  R w (mutate_locked platform policy call_helper q a updates removals deadline w).2.
Proof.
  intros F0. unfold mutate_locked. cbv zeta.
  apply (then_kept R); [apply E_remaining|]. intros t w1 F1%(kept _ _ _ _ _ (E_remaining _ _))%E_follows.
  apply (then_kept R); [apply E_project|]. intros ? w2 F2%(kept _ _ _ _ _ (E_project _))%E_follows.
  apply (then_kept R); [apply E_still, application_still|]. intros found w3 H3. pose proof (ran_db _ _ _ _ H3) as F3.
  apply (then_kept R); [destruct found; [destruct (String.eqb _ _)|]; reflexivity|]. intros b w4 H4.
  assert (E4 : w4 = w3 /\ found = Some b).
  { destruct found; [destruct (String.eqb _ _); [by injection H4 as -> <-|done]|done]. }
  destruct E4 as [-> ->]. clear H4. pose proof (transitivity F0 F1) as F01. pose proof (transitivity F01 F2) as F02. pose proof (transitivity F02 F3) as F03.
  assert (Ha : once (fun u => exists j, (db (get_application j) u).1 = Ok (Some b)) w0 w3).
  { exists w2. split_and!; [done|done|]. exists (em_application q). by rewrite H3. }
  apply (then_kept R); [apply E_ownership|]. intros first w4 H4. pose proof (E_follows _ _ (kept _ _ _ _ _ (E_ownership _) H4)) as F4.
  assert (Hown : once (fun u => (_ownership (app_application_id b) u).1 = Ok first) w0 w4) by (exists w3; split_and!; [done|done|by rewrite H4]).
  apply (then_kept R); [apply E_still, still_reads; unfold get_environment_revision; reads|]. intros revision w5 F5%ran_db.
  apply (then_kept R); [reflexivity|]. intros r ? [_ ->]%lift_ok. apply (then_kept R); [destruct (em_request_id q); [reflexivity|apply E_still; evolve]|].
  intros i w6 H6. assert (F6 : follows w5 w6) by (destruct (em_request_id q); [by apply lift_ok in H6 as [_ ->]|by eapply ran_db]).
  apply (then_kept R); [apply E_still, unfinished_still|]. intros unfinished w7 F7%ran_db.
  pose proof (transitivity (transitivity F5 F6) F7) as F47. pose proof (transitivity F03 (transitivity F4 F47)) as F07.
  apply (then_kept R); [apply unfinished_E|]. intros ownership w8 H8.
  pose proof (E_follows _ _ (kept _ _ _ _ _ (unfinished_E _ _ _ _ _) H8)) as F8.
  assert (Hread : once (fun u => (_ownership (app_application_id b) u).1 = Ok ownership) w0 w8).
  { destruct unfinished as [o|]; [|injection H8 as <- <-; exact (once_later _ _ _ _ F47 Hown)].
    apply bind_ok in H8 as (? & ? & [_ ->]%require_true & H8). apply bind_ok in H8 as (? & w9 & H9 & H8).
    exists w9. split_and!; [|refine (E_follows _ _ (kept _ _ _ _ _ (E_ownership _) H8))|by rewrite H8].
    etransitivity; [exact F07|]. exact (E_follows _ _ (kept _ _ _ _ _ (recover_E _ _ _ _) H9)). }
  set (intended := sorted_set _). apply (then_kept R); [by destruct (List.filter _ _)|]. intros ? w9 H9.
  assert (Hok : w9 = w8 /\ Forall (fun name => protected_name ownership name = false) intended).
  { destruct (List.filter _ _) eqn:E; [|done]. injection H9 as _ <-. split; [done|]. apply List.Forall_forall. intros n Hn.
    destruct (protected_name ownership n) eqn:Ep; [|done]. exfalso. assert (Hin : In n []) by (rewrite <- E; by apply filter_In). done. }
  destruct Hok as [-> Hok]. apply (then_kept R); [apply intent_E|]. intros ? w10 H10.
  pose proof (E_follows _ _ (kept _ _ _ _ _ (intent_E _ _ _ _ _) H10)) as F10. apply intent_recorded in H10.
  assert (F08 : follows w0 w8) by exact (transitivity F07 F8).
  pose proof (transitivity F08 F10) as F010. pose proof (transitivity F4 (transitivity F47 (transitivity F8 F10))) as F310.
  assert (Hopen : change_open b ownership (negb (Nat.eqb (length removals) 0)) intended w10).
  { split_and!; [done|exact (once_later _ _ _ _ F310 Ha)|exact (once_later _ _ _ _ F10 Hread)|done|exists i; by apply once_now]. }
  apply (then_kept R); [|intros; apply (then_kept R); intros; reflexivity].
  unfold catch. pose proof (change_E b i r ownership updates removals (intent_refs intended (negb (Nat.eqb (length removals) 0))) w10 Hopen) as K.
  destruct (change_environment _ _ _ _ _ _ _ _ _ _ w10) as [[x|e] w11]; [done|]. etransitivity; [exact K|apply E_failed].
Qed.
End Proofs.


(** *** Setting a variable *)

Definition environment_answer (l : list Request) : result dict :=
  match l with
  | Helper _ _ _ :: _ => Ok [("keys", JArr [JStr "COLOR"; JStr "MONGO_URL"]); ("restarted", JBool true); ("schedulerHealthy", JBool true);
      ("publicHealthy", JBool true); ("modifyIndex", JInt 12)]
  | _ => Raise (HelperError "unknown")
  end.

Definition environment_world : World := {|
  w_db := w_db (storage_world settled_db); w_others := fun _ d => d; w_steps := 0; w_monotonic := fun n => Z.of_nat n; w_readings := 0;
  w_helper := environment_answer; w_command := port_cloud; w_http := fun _ => Raise OSError;
  w_lock := fun _ => true; w_requests := [] |}.

Definition color_request (name : string) : EnvironmentMutationRequest := {|
  em_action := env_set; em_application := demo_id; em_updates := [(name, "blue"%string)]; em_removals := []; em_request_id := Some server_id |}.

Definition color_demo (name : string) := mutate_environment demo_platform demo_policy call_helper (color_request name) environment_world.

Definition names_on_record (w : World) : list string * list (string * string) :=
  (actions_asked w, map (fun r => (ek_key_name r, ek_owner r)) (environment_keys (store (w_db w)))).

