(* ===== verification/MaintenanceSpec.v ===== *)
(** * Properties of stopping a predecessor for a replacement in place

    Nothing but the recorded predecessor is stopped, in the order that never
    leaves its job running without its worker. *)

From S2P Require Import Prelude Regex Json JsonParse Clock Validation Runtime Sql Schema StorageCapacity Operations.
From S2P Require Import OperationsSpec AdmissionSpec StorageContract DeploymentConfig Applications ApplicationsSpec Resources ResourcesSpec.
From S2P Require Import Sizing NomadJobs Service Rollout RolloutSpec StorageLimits StorageLimitsSpec.
From S2P Require Import OpenStack OpenStackSpec IpAddress FloatingIp PublicIp PublicIpSpec FixedIp RetainedPort RetainedPortSpec.
From S2P Require Import Sha256 WorkerHelperSpec Finishing FinishingSpec ApplicationService ApplicationServiceSpec Maintenance Storage StorageSpec.

Section Stopping.
Context (platform : PlatformConfig) (application_id operation_id : string) (w0 : World).

Abbreviation caller := (worker_helper call_helper).

(** ** What is known of the predecessor *)

(** The application and the operation as the call has read them *)
Definition consent_read (a : Application) (o : Operation) (w : World) : Prop :=
  once (fun u => (db (get_application application_id) u).1 = Ok (Some a)) w0 w
  /\ once (fun u => (db (get_operation operation_id) u).1 = Ok (Some o)) w0 w
  /\ op_kind o = "app.deploy"%string /\ op_scope o = "app-" +:+ application_id /\ is_true (refs_get "maintenance" (op_refs o)) = true.

(** An intent of this call names the job, image, slot and worker of the accepted
    deployment as this call has read them. *)
Definition names_accepted_job (a : Application) (i : dict) (w : World) : Prop :=
  exists active d job placement server port,
    once (fun u => (db (get_active_deployment application_id) u).1 = Ok (Some active)) w0 w
    /\ once (fun u => (db (get_deployment application_id) u).1 = Ok (Some d)) w0 w
    /\ nomad_job_id (de_nomad_job d) (app_slug a) = Ok job /\ nomad_placement_id (de_nomad_job d) = Ok placement
    /\ app_worker_server_id a = Some server /\ app_worker_port_id a = Some port
    /\ forall k v, In (k, v) [("deployment_id"%string, ac_deployment_id active); ("job_id"%string, job);
         ("job_sha256"%string, de_nomad_job_sha256 d); ("image"%string, de_image_digest d); ("placement_id"%string, placement);
         ("server_id"%string, server); ("port_id"%string, port)] -> dict_get k i = Some (JStr v).

(** The intent is the operation's: read with it, or recorded in this call. *)
Definition intent_known (a : Application) (o : Operation) (i : dict) (w : World) : Prop :=
  refs_get "maintenance_predecessor" (op_refs o) = JObj i
  \/ names_accepted_job a i w
     /\ once (row_marked (op_operation_id o) (fun row => refs_get "maintenance_predecessor" (op_refs row) = canonical (JObj i))) w0 w.

Definition still_accepted (i : dict) : World -> Prop :=
  once (fun u => exists active, (db (get_active_deployment application_id) u).1 = Ok (Some active)
    /\ refs_get "deployment_id" i = JStr (ac_deployment_id active)) w0.

Definition predecessor (a : Application) (o : Operation) (i : dict) (w : World) : Prop :=
  consent_read a o w /\ intent_known a o i w /\ still_accepted i w.

(** The worker that is kept is exactly the one recorded, and ready. *)
Definition kept_exactly (o : Operation) (w : World) : Prop :=
  exists expected selected arguments worker t, dict_get "reused_worker" (op_refs o) = Some expected
    /\ once (fun u => (caller "app.worker.capacity" arguments t u).1 = Ok worker) w0 w
    /\ is_true (refs_get "ready" worker) = true /\ is_true (refs_get "absent" worker) = false
    /\ forallb (fun f => py_eqb (refs_get f.1 worker) (refs_get f.2 selected)) worker_fields = true
    /\ (expected = JNull \/ exists e, expected = JObj e /\ same_refs selected e = true).

(** The worker to be deleted is the predecessor's, or absent already. *)
Definition deletable (a : Application) (i : dict) (w : World) : Prop :=
  exists placement observed t, dict_get "placement_id" i = Some placement
    /\ once (fun u => (caller "app.worker.observe" [("applicationId", placement); ("slug", JStr (app_slug a))] t u).1 = Ok observed) w0 w
    /\ (is_true (refs_get "absent" observed) = true
        \/ exists server port, dict_get "server_id" i = Some server /\ dict_get "port_id" i = Some port
             /\ py_eqb (refs_get "serverId" observed) server = true /\ py_eqb (refs_get "portId" observed) port = true).

Definition worker_known (a : Application) (o : Operation) (i : dict) (w : World) : Prop :=
  if is_true (refs_get "reuse_worker" (op_refs o)) then kept_exactly o w else deletable a i w.

(** Its job was shown absent. *)
Definition job_gone (a : Application) (i : dict) (args answer : dict) : Prop :=
  intent_job (app_slug a) i = Ok args /\ is_true (refs_get "jobAbsent" answer) = true.

Definition worker_gone (i : dict) (args answer : dict) : Prop :=
  dict_get "placement_id" i = Some (refs_get "applicationId" args) /\ is_true (refs_get "absent" answer) = true.

(** What may be asked, and when *)
Definition stopping (w : World) (r : Request) : Prop :=
  match r with
  | Helper action args _ =>
      (one_of_words ["app.stop"; "app.remove"] action = true ->
         exists a o i, predecessor a o i w /\ worker_known a o i w /\ intent_job (app_slug a) i = Ok args
           /\ (action = "app.stop" -> is_true (refs_get "reuse_worker" (op_refs o)) = true))
      /\ (action = "app.worker.delete" ->
         exists a o i, predecessor a o i w /\ worker_known a o i w /\ is_true (refs_get "reuse_worker" (op_refs o)) = false
           /\ dict_get "placement_id" i = Some (refs_get "applicationId" args) /\ refs_get "single" args = JBool true
           /\ answered "app.remove" (job_gone a i) w0 w)
  | _ => True
  end.

Abbreviation protocol := (obeys stopping).

Lemma consent_later a o w w' : follows w w' -> consent_read a o w -> consent_read a o w'.
Proof. intros F (H1 & H2 & H3). split_and!; [by eapply once_later|by eapply once_later|apply H3..]. Qed.

Lemma accepted_job_later a i w w' : follows w w' -> names_accepted_job a i w -> names_accepted_job a i w'.
Proof.
  intros F (x & d & job & slot & s & p & H1 & H2 & H). exists x, d, job, slot, s, p. split_and!; [by eapply once_later|by eapply once_later|apply H..].
Qed.

Lemma intent_later a o i w w' : follows w w' -> intent_known a o i w -> intent_known a o i w'.
Proof. intros F [H|[H1 H2]]; [by left|right]. split; [by eapply accepted_job_later|by eapply once_later]. Qed.

Lemma predecessor_later a o i w w' : follows w w' -> predecessor a o i w -> predecessor a o i w'.
Proof.
  intros F (H1 & H2 & H3). split_and!; [by eapply consent_later|by eapply intent_later|by eapply once_later].
Qed.

Lemma known_later a o i w w' : follows w w' -> worker_known a o i w -> worker_known a o i w'.
Proof.
  unfold worker_known. intros F. destruct (is_true _).
  - intros (e & s & args & k & t & H1 & H2 & H3). exists e, s, args, k, t. split_and!; try done; [by eapply once_later|..]; by destruct H3 as (?&?&?&?).
  - intros (p & d & t & H1 & H2 & H3). exists p, d, t. split_and!; [done|by eapply once_later|done].
Qed.

(** ** Calls that are not watched *)

Definition unwatched_action (action : string) : Prop := one_of_words ["app.stop"; "app.remove"; "app.worker.delete"] action = false.

Lemma unwatched_stopping w a args t : unwatched_action a -> stopping w (Helper a args t).
Proof.
  unfold unwatched_action. intros H. split.
  - intros E. exfalso. unfold one_of_words in *. simpl in *. apply orb_true_iff in E as [E|E]; [by rewrite E in H|].
    rewrite orb_false_r in E. rewrite E in H. by rewrite orb_true_r in H.
  - intros ->. discriminate H.
Qed.

Lemma unwatched_asked a args t : unwatched_action a -> preserves protocol (call_helper a args t).
Proof.
  intros H. apply obeys_helper. intros w. by apply unwatched_stopping.
Qed.

Lemma one_slot_free action args dl : unwatched_action action -> preserves protocol (caller action args dl).
Proof.
  intros H. pose proof (fun slot selected => slot_free protocol (fun A m => obeys_db _ m) unwatched_action unwatched_asked eq_refl eq_refl action slot args dl selected H) as Hs.
  assert (E : String.eqb action "app.worker.delete" = false).
  { destruct (String.eqb_spec action "app.worker.delete") as [->|]; [discriminate H|done]. }
  unfold worker_helper. destruct (one_of_words worker_actions action); [|by apply unwatched_asked].
  apply preserves_bind; [apply _|apply preserves_lift; apply _|intros slot]. apply preserves_bind; [apply _|apply obeys_db|intros [|r rest]]; [apply Hs|].
  cbv zeta. rewrite E. apply Hs.
Qed.

(** ** The kept worker *)

Lemma identity_obeys : preserves protocol (identity application_id).
Proof. unfold identity. preserving. Qed.

Lemma expected_obeys e matches err : preserves protocol (as_expected e matches err).
Proof. unfold as_expected. preserving. Qed.

Lemma prepare_observe_obeys e : preserves protocol (prepare_observe application_id e).
Proof. pose proof identity_obeys. pose proof expected_obeys. unfold prepare_observe. preserving. Qed.

Lemma observe_obeys e dl : preserves protocol (observe_worker caller application_id e dl).
Proof.
  pose proof prepare_observe_obeys. pose proof expected_obeys. unfold observe_worker, observe_exact. preserving. by apply one_slot_free.
Qed.

Lemma protocol_follows w w' : protocol w w' -> follows w w'.
Proof. apply obeys_follows. Qed.

Lemma as_expected_ok e matches err w u w' : as_expected e matches err w = (Ok u, w') ->
  w' = w /\ (e = JNull \/ exists d, e = JObj d /\ matches d = true).
Proof.
  unfold as_expected. destruct e; try done; [intros [= _ <-]; split; [done|by left]|]. intros [H ->]%require_true. split; [done|right]. by eexists.
Qed.

Lemma observed_kept o e dl w s w' : follows w0 w -> dict_get "reused_worker" (op_refs o) = Some e ->
  observe_worker caller application_id e dl w = (Ok s, w') -> kept_exactly o w'.
Proof.
  intros F He H. unfold observe_worker in H. apply bind_ok in H as ([selected arguments] & w1 & H1 & H).
  pose proof (protocol_follows _ _ (kept _ _ _ _ _ (prepare_observe_obeys _) H1)) as F1.
  unfold prepare_observe in H1. apply bind_ok in H1 as (sel & w2 & H2 & H1).
  apply bind_ok in H1 as (? & w3 & [-> Hm]%as_expected_ok & H1). apply bind_ok in H1 as (? & ? & _ & H1).
  apply bind_ok in H1 as (? & ? & _ & H1). apply bind_ok in H1 as (? & ? & _ & H1). apply bind_ok in H1 as (? & ? & _ & H1).
  injection H1 as <- <- <-. unfold observe_exact in H. cbn [fst snd] in H. apply bind_ok in H as (worker & w4 & H4 & H).
  match type of H4 with caller _ ?args _ _ = _ => set (arguments := args) in * end.
  assert (Hw : once (fun u => (caller "app.worker.capacity" arguments dl u).1 = Ok worker) w0 w4).
  { eexists. split_and!; [exact (transitivity F F1)|exact (protocol_follows _ _ (kept _ _ _ _ _ (one_slot_free "app.worker.capacity" _ _ eq_refl) H4))|by rewrite H4]. }
  apply bind_ok in H as (? & ? & [Hr ->]%require_true & H). apply andb_true_iff in Hr as [[Hr1 Hr2]%andb_true_iff Hr3].
  exists e, sel, arguments, worker, dl. split_and!; [done| |done|by apply negb_true_iff|done|done].
  refine (once_later _ _ _ _ _ Hw). refine (protocol_follows _ _ (kept protocol _ _ _ _ _ H)).
  pose proof expected_obeys. preserving.
Qed.

(** ** Stopping it *)

Lemma require_true_or {S} b e (u : S) r u' : require b e u = (r, u') -> (r = Raise e /\ u' = u) \/ r = Ok tt /\ b = true /\ u' = u.
Proof. unfold require, guard_else. destruct b; intros [= <- <-]; [by right|by left]. Qed.

(** The references of the operation, with what this call has added *)
Definition same_consent (refs : dict) (o : Operation) : Prop :=
  forall k, one_of_words ["maintenance_predecessor"; "maintenance_quiesced"; "maintenance_stopped"] k = false ->
    dict_get k refs = dict_get k (op_refs o).

Lemma consent_get refs o k : same_consent refs o ->
  one_of_words ["maintenance_predecessor"; "maintenance_quiesced"; "maintenance_stopped"] k = false -> refs_get k refs = refs_get k (op_refs o).
Proof. intros H Hk. unfold refs_get. by rewrite H. Qed.

Lemma consent_set refs o k v : same_consent refs o ->
  one_of_words ["maintenance_predecessor"; "maintenance_quiesced"; "maintenance_stopped"] k = true -> same_consent (dict_set k v refs) o.
Proof.
  intros H Hk k' Hk'. rewrite dict_get_set_ne; [by apply H|]. intros ->. congruence.
Qed.

Lemma plain_stop action args t w : one_of_words ["app.stop"; "app.remove"] action = true -> caller action args t w = call_helper action args t w.
Proof. intros H. apply plain_call. apply existsb_exists in H as (a & Ha & ->%String.eqb_eq). by destruct Ha as [<-|[<-|[]]]. Qed.

Lemma watched_job a o i job action t w : one_of_words ["app.stop"; "app.remove"] action = true -> predecessor a o i w -> worker_known a o i w ->
  intent_job (app_slug a) i = Ok job -> (action = "app.stop" -> is_true (refs_get "reuse_worker" (op_refs o)) = true) ->
  protocol w (caller action job t w).2.
Proof.
  intros Ha Hp Hw Hj Hr. rewrite plain_stop by done. apply obeys_ask. split; [intros _; by exists a, o, i|]. intros ->. discriminate Ha.
Qed.

Lemma checkpoint_obeys i p refs : preserves protocol (checkpoint i p refs).
Proof. apply obeys_db. Qed.

(** The worker is kept *)
Lemma quiesce_step a o i refs dl w r w' : follows w0 w -> predecessor a o i w -> same_consent refs o ->
  is_true (refs_get "reuse_worker" (op_refs o)) = true -> quiesce_predecessor caller application_id a o refs i dl w = (r, w') ->
  protocol w w' /\ forall refs', r = Ok refs' -> worker_known a o i w' /\ same_consent refs' o.
Proof.
  intros F Hp Hc Hr H. unfold quiesce_predecessor in H.
  pass H as (e & He & H) by (by split; [reflexivity|]). unfold intent_value in He. rewrite Hc in He by done.
  destruct (dict_get "reused_worker" (op_refs o)) as [e'|] eqn:Ee; [injection He as ->|done].
  apply any_step in H as [(e1 & -> & H)|(s & w1 & H1 & H)]; [split; [exact (kept _ _ _ _ _ (observe_obeys _ _) H)|done]|].
  pose proof (kept _ _ _ _ _ (observe_obeys _ _) H1) as O1. pose proof (protocol_follows _ _ O1) as F1.
  apply (observed_kept o) in H1; [|done|done].
  assert (Hw : worker_known a o i w1) by (unfold worker_known; by rewrite Hr).
  apply (predecessor_later _ _ _ _ _ F1) in Hp. destruct (is_true (refs_get "maintenance_quiesced" refs)).
  { injection H as <- <-. split; [done|]. by intros ? [= <-]. }
  pass H as (job & Hj & H) by (by split). apply any_step in H as [(e1 & -> & H)|(d & w2 & H2 & H)].
  { split; [|done]. etransitivity; [exact O1|]. pose proof (watched_job a o i job "app.stop" dl w1 eq_refl Hp Hw Hj (fun _ => Hr)) as K. by rewrite H in K. }
  pose proof (watched_job a o i job "app.stop" dl w1 eq_refl Hp Hw Hj (fun _ => Hr)) as O2. rewrite H2 in O2. cbn [snd] in O2.
  pose proof (transitivity O1 O2) as O. apply (known_later _ _ _ _ _ (protocol_follows _ _ O2)) in Hw.
  unfold confirmed in H. pass H as (_ & H) by (by split). cbv zeta in H.
  apply any_step in H as [(e1 & -> & H)|(? & w3 & H3%(kept _ _ _ _ _ (checkpoint_obeys _ _ _)) & H)].
  { split; [|done]. etransitivity; [exact O|]. exact (kept _ _ _ _ _ (checkpoint_obeys _ _ _) H). }
  injection H as <- <-. split; [by etransitivity|]. intros ? [= <-]. split; [|by apply consent_set].
  exact (known_later _ _ _ _ _ (protocol_follows _ _ H3) Hw).
Qed.

(** The worker is deleted *)
Lemma observe_step a o i dl w r w' : follows w0 w -> is_true (refs_get "reuse_worker" (op_refs o)) = false ->
  observe_predecessor caller a i dl w = (r, w') -> protocol w w' /\ (r = Ok tt -> worker_known a o i w').
Proof.
  intros F Hr H. assert (O : preserves protocol (observe_predecessor caller a i dl)).
  { unfold observe_predecessor. preserving. by apply one_slot_free. }
  split; [exact (kept _ _ _ _ _ O H)|]. intros ->. unfold worker_known. rewrite Hr. unfold observe_predecessor in H.
  apply bind_ok in H as (p & ? & [Hp ->]%lift_ok & H). unfold intent_value in Hp. destruct (dict_get "placement_id" i) eqn:Ep; [injection Hp as ->|done].
  apply bind_ok in H as (d & w1 & H1 & H).
  assert (Hd : once (fun u => (caller "app.worker.observe" [("applicationId", p); ("slug", JStr (app_slug a))] dl u).1 = Ok d) w0 w1).
  { exists w. split_and!; [done|exact (protocol_follows _ _ (kept _ _ _ _ _ (one_slot_free "app.worker.observe" _ _ eq_refl) H1))|by rewrite H1]. }
  exists p, d, dl. split; [done|]. destruct (is_true (refs_get "absent" d)) eqn:Ea.
  { injection H as <-. split; [exact Hd|by left]. }
  apply bind_ok in H as (server & ? & [Hs ->]%lift_ok & H). apply bind_ok in H as (? & ? & [K1 ->]%require_true & H).
  apply bind_ok in H as (port & ? & [Hq ->]%lift_ok & H). apply require_true in H as [K2 ->]. split; [exact Hd|right].
  unfold intent_value in Hs, Hq. destruct (dict_get "server_id" i); [injection Hs as ->|done]. destruct (dict_get "port_id" i); [injection Hq as ->|done].
  by exists server, port.
Qed.

Lemma release_quiet dl : preserves protocol (PublicIp.release_locked platform application_id dl true).
Proof. intros w. eapply obeys_weaken; [|apply (release_obeys platform application_id w0 dl true w)]. by intros u []. Qed.

Lemma worker_deleted_obeys a o i p t w : follows w0 w -> predecessor a o i w -> worker_known a o i w ->
  is_true (refs_get "reuse_worker" (op_refs o)) = false -> dict_get "placement_id" i = Some p -> answered "app.remove" (job_gone a i) w0 w ->
  protocol w (caller "app.worker.delete" [("applicationId", p); ("slug", JStr (app_slug a)); ("single", JBool true)] t w).2.
Proof.
  intros F Hp Hw Hr Hi Hj. set (args := [_; _; _]). destruct (text_item "applicationId" args) as [slot|e] eqn:E.
  2: { unfold worker_helper. simpl one_of_words. cbv iota. unfold mbind, M_bind, lift. rewrite E. reflexivity. }
  apply text_item_get in E. apply obeys_since.
  eapply (deletion_kept (obeys _) (fun A m => obeys_db _ m) unwatched_action); try reflexivity; [|exact E| |discriminate].
  - intros b args' t' Hb. apply obeys_helper. intros u _. by apply unwatched_stopping.
  - intros args' t' Hk. apply obeys_helper. intros u Fu. split; [discriminate|]. intros _. exists a, o, i.
    split_and!; [by eapply predecessor_later|by eapply known_later|done| | |by eapply answered_later]; by rewrite Hk.
Qed.

(** What is established when the predecessor has been stopped in this call *)
Definition stopped_now (a : Application) (o : Operation) (i refs : dict) (w : World) : Prop :=
  predecessor a o i w /\ worker_known a o i w /\ answered "app.remove" (job_gone a i) w0 w
  /\ (is_true (refs_get "reuse_worker" (op_refs o)) = true \/ answered "app.worker.delete" (worker_gone i) w0 w)
  /\ is_true (refs_get "maintenance_stopped" refs) = true
  /\ once (row_marked (op_operation_id o) (fun row => refs_get "maintenance_stopped" (op_refs row) = JBool true)) w0 w.

(** The deletion, with what came before it *)
Lemma predecessor_delete_step a o i dl w r w' : follows w0 w -> predecessor a o i w -> worker_known a o i w ->
  is_true (refs_get "reuse_worker" (op_refs o)) = false -> answered "app.remove" (job_gone a i) w0 w ->
  delete_predecessor platform caller application_id a i dl w = (r, w') ->
  protocol w w' /\ (r = Ok tt -> answered "app.worker.delete" (worker_gone i) w0 w').
Proof.
  intros F Hp Hw Hr Hj H. unfold delete_predecessor in H.
  apply any_step in H as [(e & -> & H)|(? & w1 & H1 & H)]; [split; [exact (kept _ _ _ _ _ (release_quiet _) H)|done]|].
  pose proof (kept _ _ _ _ _ (release_quiet _) H1) as O1. pose proof (protocol_follows _ _ O1) as F1. clear H1.
  pass H as (p & Hq & H) by (by split). unfold intent_value in Hq. destruct (dict_get "placement_id" i) as [p'|] eqn:Ep; [injection Hq as ->|done].
  pose proof (worker_deleted_obeys a o i p dl w1 (transitivity F F1) (predecessor_later _ _ _ _ _ F1 Hp) (known_later _ _ _ _ _ F1 Hw) Hr Ep
    (answered_later _ _ _ _ _ F1 Hj)) as O2. set (args := [_; _; _]) in *.
  apply any_step in H as [(e & -> & H)|(d & w2 & H2 & H)]; [rewrite H in O2; split; [by etransitivity|done]|].
  rewrite H2 in O2. cbn [snd] in O2. unfold confirmed in H. pose proof (transitivity O1 O2) as O12.
  destruct (require_true_or _ _ _ _ _ H) as [[-> ->]|(-> & Hd & ->)]; [by split|]. split; [done|]. intros _.
  assert (E : exists slot, p = JStr slot).
  { unfold worker_helper in H2. simpl one_of_words in H2. cbv iota in H2. apply bind_ok in H2 as (slot & ? & [E%text_item_get _]%lift_ok & _). by exists slot. }
  destruct E as [slot Es]. eapply (deletion_answer w0 slot d) in H2 as [F2 (later & args' & t & earlier & d' & K1 & K2 & K3 & K4)];
    [|exact (transitivity F F1)|exact Es].
  subst d'. exists later, args', t, earlier, d. split_and!; [done|done|]. split; [by rewrite K3, Ep, Es|done].
Qed.

Lemma stop_recorded_step a o refs i dl w r w' : follows w0 w -> predecessor a o i w -> same_consent refs o ->
  stop_recorded platform caller application_id a o refs i dl w = (r, w') ->
  protocol w w' /\ forall refs', r = Ok refs' -> stopped_now a o i refs' w'.
Proof.
  intros F Hp Hc H. unfold stop_recorded in H. cbv zeta in H. rewrite (consent_get refs o "reuse_worker" Hc eq_refl) in H.
  set (reuse := is_true _) in *. match type of H with (?m ≫= _) _ = _ => set (first := m) in H end.
  assert (Hfirst : forall r1 w1, first w = (r1, w1) -> protocol w w1 /\ forall refs', r1 = Ok refs' -> worker_known a o i w1 /\ same_consent refs' o).
  { unfold first. intros r1 w1 H1. destruct reuse eqn:Er; [by eapply quiesce_step|].
    apply any_step in H1 as [(e & -> & H1)|([] & w2 & H1 & H2)].
    - apply (observe_step a o) in H1 as [O _]; [by split|done|done].
    - apply (observe_step a o) in H1 as [O K]; [|done|done]. injection H2 as <- <-. split; [done|]. intros ? [= <-]. split; [by apply K|done]. }
  apply any_step in H as [(e & -> & H)|(refs1 & w1 & H1 & H)]; [by split; [eapply Hfirst|]|].
  apply Hfirst in H1 as [O1 K]. destruct (K refs1 eq_refl) as [Hw Hc1]. clear K Hfirst first. pose proof (protocol_follows _ _ O1) as F1.
  apply (predecessor_later _ _ _ _ _ F1) in Hp. pose proof (transitivity F F1) as F01.
  pass H as (job & Hj & H) by (by split).
  pose proof (watched_job a o i job "app.remove" dl w1 eq_refl Hp Hw Hj ltac:(discriminate)) as O2.
  apply any_step in H as [(e & -> & H)|(d & w2 & H2 & H)]; [rewrite H in O2; split; [by etransitivity|done]|].
  rewrite H2 in O2. cbn [snd] in O2. pose proof (transitivity O1 O2) as O12. pose proof (protocol_follows _ _ O2) as F2.
  rewrite plain_stop in H2 by done. unfold confirmed in H. pass H as (Hd & H) by (by split).
  pose proof (answered_call "app.remove" (job_gone a i) _ _ _ _ _ _ F01 H2 (conj Hj Hd)) as Hgone. clear H2.
  apply (predecessor_later _ _ _ _ _ F2) in Hp. apply (known_later _ _ _ _ _ F2) in Hw. pose proof (transitivity F01 F2) as F02.
  match type of H with (?m ≫= _) _ = _ => set (second := m) in H end.
  assert (Hsecond : forall r3 w3, second w2 = (r3, w3) -> protocol w2 w3 /\ (r3 = Ok tt -> reuse = true \/ answered "app.worker.delete" (worker_gone i) w0 w3)).
  { unfold second. intros r3 w3 H3. destruct reuse eqn:Er; [injection H3 as <- <-; split; [reflexivity|by left]|].
    apply (predecessor_delete_step a o) in H3 as [O K]; [|done..]. split; [done|]. right. by apply K. }
  apply any_step in H as [(e & -> & H)|([] & w3 & H3 & H)]; [split; [etransitivity; [exact O12|by eapply Hsecond]|done]|].
  apply Hsecond in H3 as [O3 K]. specialize (K eq_refl). clear Hsecond second. pose proof (protocol_follows _ _ O3) as F3.
  pose proof (transitivity O12 O3) as O13. cbv zeta in H. set (refs2 := dict_set "maintenance_stopped" (JBool true) refs1) in *.
  apply any_step in H as [(e & -> & H)|(? & w4 & H4 & H)].
  { split; [|done]. etransitivity; [exact O13|exact (kept _ _ _ _ _ (checkpoint_obeys _ _ _) H)]. }
  pose proof (kept _ _ _ _ _ (checkpoint_obeys _ _ _) H4) as O4. pose proof (protocol_follows _ _ O4) as F4.
  apply any_step in H as [(e & -> & H)|(? & w5 & H5 & H)].
  { split; [|done]. etransitivity; [exact O13|]. etransitivity; [exact O4|exact (kept _ _ _ _ _ (obeys_db _ _) H)]. }
  injection H as <- <-. pose proof (ran_db _ _ _ _ H5) as F5. pose proof (kept _ _ _ _ _ (obeys_db stopping _) H5) as O5.
  split; [exact (transitivity O13 (transitivity O4 O5))|]. intros ? [= <-]. pose proof (transitivity F3 (transitivity F4 F5)) as F25.
  assert (Hset : refs_get "maintenance_stopped" refs2 = JBool true) by (unfold refs2, refs_get; by rewrite dict_get_set_eq).
  split_and!; [by eapply predecessor_later|by eapply known_later|by eapply answered_later| |by rewrite Hset|].
  - destruct K as [|K]; [by left|right]. exact (answered_later _ _ _ _ _ (transitivity F4 F5) K).
  - apply (checkpoint_recorded _ _ _ false) in H4 as (row & Hin & Hi & _ & _ & Hk). exists w4. split_and!; [|done|].
    + exact (transitivity F02 (transitivity F3 F4)).
    + exists row. split_and!; [done|done|]. by rewrite Hk, Hset.
Qed.

(** No predecessor is on record, and nothing runs that would have to be stopped. *)
Definition nothing_to_stop (a : Application) (o : Operation) (w : World) : Prop :=
  refs_get "maintenance_predecessor" (op_refs o) = JNull
  /\ (app_desired_running a = false
      \/ once (fun u => (db (get_active_deployment application_id) u).1 = Ok None) w0 w
      \/ once (fun u => (db (get_deployment application_id) u).1 = Ok None) w0 w).

Lemma intent_obeys a o : preserves protocol (predecessor_intent application_id a o).
Proof. pose proof checkpoint_obeys. unfold predecessor_intent. preserving. Qed.

Lemma seen_now {A} (m : DB A) v u u' : follows w0 u -> db m u = (Ok v, u') -> once (fun u => (db m u).1 = Ok v) w0 u'.
Proof. intros F H. exists u. split_and!; [done|by eapply ran_db|by rewrite H]. Qed.

Lemma new_intent_names a active d i w : once (fun u => (db (get_active_deployment application_id) u).1 = Ok (Some active)) w0 w ->
  once (fun u => (db (get_deployment application_id) u).1 = Ok (Some d)) w0 w ->
  not_null (app_worker_server_id a) && not_null (app_worker_port_id a) = true -> new_intent a active d = Ok i -> names_accepted_job a i w.
Proof.
  intros Ha Hd Hw H. unfold new_intent in H. destruct (nomad_job_id _ _) as [job|] eqn:Ej; [|done].
  destruct (nomad_placement_id _) as [slot|] eqn:Es; [|done]. injection H as <-.
  destruct (app_worker_server_id a) as [server|] eqn:Ea; [|done]. destruct (app_worker_port_id a) as [port|] eqn:Ep; [|done].
  exists active, d, job, slot, server, port. split_and!; try done. intros k v H.
  repeat destruct H as [[= <- <-]|H]; done.
Qed.

Lemma intent_step a o w found w' : follows w0 w -> predecessor_intent application_id a o w = (Ok found, w') ->
  match found with
  | None => nothing_to_stop a o w'
  | Some (refs, v) => same_consent refs o /\ forall i, v = JObj i -> intent_known a o i w'
  end.
Proof.
  intros F H. unfold predecessor_intent in H. cbv zeta in H. destruct (json_eqb _ JNull) eqn:En.
  2: { injection H as <- _. split; [by intros k _|]. intros i Hi. by left. }
  assert (En' : refs_get "maintenance_predecessor" (op_refs o) = JNull) by (by destruct (refs_get _ _)).
  cbn [negb] in H. destruct (app_desired_running a) eqn:Er; [|injection H as <- _; split; [done|by left]]. cbn [negb] in H.
  apply bind_ok in H as (active & w1 & H1 & H). pose proof (ran_db _ _ _ _ H1) as F1. apply bind_ok in H as (d & w2 & H2 & H).
  pose proof (ran_db _ _ _ _ H2) as F2.
  destruct active as [active|]; [|injection H as <- <-; split; [done|right; left]; exact (once_later _ _ _ _ F2 (seen_now _ _ _ _ F H1))].
  destruct d as [d|]; [|injection H as <- <-; split; [done|right; right]; exact (seen_now _ _ _ _ (transitivity F F1) H2)].
  apply bind_ok in H as (? & ? & [Hw ->]%require_true & H). apply bind_ok in H as (i & ? & [Hi' ->]%lift_ok & H).
  apply bind_ok in H as (? & w3 & H3 & H). injection H as <- <-. pose proof (ran_db _ _ _ _ H3) as F3.
  split; [by apply consent_set|]. intros ? [= <-]. right. split.
  { apply (accepted_job_later _ _ _ _ F3). eapply new_intent_names; [exact (once_later _ _ _ _ F2 (seen_now _ _ _ _ F H1))| |exact Hw|exact Hi'].
    exact (seen_now _ _ _ _ (transitivity F F1) H2). }
  apply (checkpoint_recorded _ _ _ false) in H3 as (row & Hin & Hi & _ & _ & Hk). apply once_now; [exact (transitivity F (transitivity F1 (transitivity F2 F3)))|].
  exists row. split_and!; [done|done|]. rewrite Hk. unfold refs_get. by rewrite dict_get_set_eq.
Qed.

(** What a call that returns has established *)
Definition stop_settled (refs : dict) (w : World) : Prop :=
  exists a o, consent_read a o w
    /\ (refs = op_refs o /\ nothing_to_stop a o w
        \/ is_true (refs_get "maintenance_stopped" refs) = true /\ app_desired_running a = false
        \/ exists i, stopped_now a o i refs w).

Lemma stop_step dl w r w' : follows w0 w -> stop_predecessor platform caller application_id operation_id dl w = (r, w') ->
  protocol w w' /\ forall refs, r = Ok refs -> stop_settled refs w'.
Proof.
  intros F H. unfold stop_predecessor in H.
  apply any_step in H as [(e & -> & H)|(o & w1 & H1 & H)]; [split; [exact (kept _ _ _ _ _ (obeys_db _ _) H)|done]|].
  pose proof (kept _ _ _ _ _ (obeys_db stopping _) H1) as O1. pose proof (ran_db _ _ _ _ H1) as F1. apply (seen_now _ _ _ _ F) in H1 as S1.
  apply any_step in H as [(e & -> & H)|(a & w2 & H2 & H)]; [split; [etransitivity; [exact O1|exact (kept _ _ _ _ _ (obeys_db _ _) H)]|done]|].
  pose proof (kept _ _ _ _ _ (obeys_db stopping _) H2) as O2. pose proof (ran_db _ _ _ _ H2) as F2. pose proof (transitivity O1 O2) as O12.
  pose proof (seen_now _ _ _ _ (transitivity F F1) H2) as S2. apply (once_later _ _ _ _ F2) in S1. cbv zeta in H.
  destruct o as [o|]; [|injection H as <- <-; by split]. destruct a as [a|]; [|injection H as <- <-; by split].
  pass H as (Hk & H) by (by split). apply andb_true_iff in Hk as [[Hk1%String.eqb_eq Hk3%String.eqb_eq]%andb_true_iff Hk2].
  assert (C : consent_read a o w2) by (by split_and!). pose proof (transitivity F (transitivity F1 F2)) as F02.
  apply any_step in H as [(e & -> & H)|(found & w3 & H3 & H)]; [split; [etransitivity; [exact O12|exact (kept _ _ _ _ _ (intent_obeys _ _) H)]|done]|].
  pose proof (kept _ _ _ _ _ (intent_obeys _ _) H3) as O3. pose proof (protocol_follows _ _ O3) as F3. pose proof (transitivity O12 O3) as O13.
  apply (intent_step _ _ _ _ _ F02) in H3. apply (consent_later _ _ _ _ F3) in C. pose proof (transitivity F02 F3) as F03.
  destruct found as [[refs v]|].
  2: { injection H as <- <-. split; [done|]. intros ? [= <-]. exists a, o. split; [done|]. by left. }
  destruct H3 as [Hc Hi].
  apply any_step in H as [(e & -> & H)|(active & w4 & H4 & H)]; [split; [etransitivity; [exact O13|exact (kept _ _ _ _ _ (obeys_db _ _) H)]|done]|].
  pose proof (kept _ _ _ _ _ (obeys_db stopping _) H4) as O4. pose proof (ran_db _ _ _ _ H4) as F4. pose proof (transitivity O13 O4) as O14.
  destruct v as [| | | |l|i]; try (injection H as <- <-; by split). destruct active as [active|]; [|injection H as <- <-; by split].
  pass H as (He & H) by (by split). specialize (Hi i eq_refl).
  assert (P : predecessor a o i w4).
  { split_and!; [by eapply consent_later|by eapply intent_later|].
    exists w3. split_and!; [done|done|]. exists active. rewrite H4. split; [done|]. simpl in He. destruct (refs_get "deployment_id" i); try done.
    by apply String.eqb_eq in He as ->. }
  destruct (_ && _) eqn:Es.
  - injection H as <- <-. split; [done|]. intros ? [= <-]. apply andb_true_iff in Es as [Es1 Es2]. exists a, o. split; [by eapply consent_later|].
    right. left. split; [done|]. by apply negb_true_iff.
  - apply stop_recorded_step in H as [O5 K]; [|exact (transitivity F03 F4)|done|done]. split; [by etransitivity|]. intros refs' Hr.
    pose proof (K refs' Hr) as Hs. exists a, o. split; [apply Hs|]. right. right. by exists i.
Qed.
End Stopping.


(** *** A predecessor stopped for its replacement *)

Definition maintenance_db : Db := Eval vm_compute in store ((begin_operation server_id "app.deploy" ("app-" +:+ demo_id) "build_ready"
  "2027-01-01T00:00:00Z" [("maintenance", JBool true)] None (opened settled_db)).2).

Definition stop_demo := stop_predecessor demo_platform (worker_helper call_helper) demo_id server_id (900 * second) (lifecycle_world maintenance_db).

Definition stop_view (w : World) : list string * (option bool * option bool) :=
  (actions_asked w,
   (app_desired_running <$> List.find (fun a => String.eqb (app_application_id a) demo_id) (applications (store (w_db w))),
    (fun o => is_true (refs_get "maintenance_stopped" (op_refs o))) <$> operation_at server_id (store (w_db w)))).

