(* ===== verification/LocalAuth.v ===== *)
(** * Local sign-in (src/openstack_platform/management/broker/local_auth.py,
    known_device.py and the passwords of local_security.py)

    The transaction that decides a sign-in ([settle]), with the account-wide
    guessing budgets it enforces, the verification of stored passwords and the
    recognition of a browser.  Other transactions may run between the first
    look at the account and the decision, so [settle] takes what the first look
    saw as arguments.  [hashlib.scrypt] is OpenSSL's and an argument; the
    in-memory admission windows and hash slots are left out, except for what
    they decide ([denied], [exempt]).  Times are instants of [Clock]. *)

From S2P Require Import Prelude Regex Json Clock Validation Sql Sha256 Totp ManagementDb.

(** ** Recognized browsers (known_device.py) *)

Definition LIFETIME : Z := 90 * 86400.

Definition hexes (n : nat) : re := Times n (Cls hexdigit).
Definition numeral (n : nat) : re := Rep 1 (Some n) true (Cls digit).

Definition USER : re := cats [hexes 8; lit "-"; hexes 4; lit "-"; Cls (rng "1" "5"); hexes 3; lit "-";
  Cls (either (one_of "89") (one_of "ab")); hexes 3; lit "-"; hexes 12].
Definition FIELDS : re := cats [USER; lit "."; numeral 19; lit "."; numeral 12].
Definition url_char : ascii -> bool := either (either upper lower) (either digit (one_of "_-")).
Definition TOKEN : re := cats [Alt (Cat (lit "1.") FIELDS) (cats [lit "2."; FIELDS; lit "."; hexes 32]);
  lit "."; Times 43 (Cls url_char)].

(** [base64.urlsafe_b64encode(...).rstrip("=")] *)
Definition base64_digit (z : Z) : ascii :=
  if z <? 26 then chr (65 + z) else if z <? 52 then chr (71 + z) else if z <? 62 then chr (z - 4)
  else if z =? 62 then "-"%char else "_"%char.

Fixpoint base64url (bytes : list Z) : string :=
  match bytes with
  | a :: b :: c :: rest =>
      String (base64_digit (a / 4)) (String (base64_digit (a mod 4 * 16 + b / 16))
        (String (base64_digit (b mod 16 * 4 + c / 64)) (String (base64_digit (c mod 64)) (base64url rest))))
  | [a; b] => String (base64_digit (a / 4)) (String (base64_digit (a mod 4 * 16 + b / 16))
        (String (base64_digit (b mod 16 * 4)) ""))
  | [a] => String (base64_digit (a / 4)) (String (base64_digit (a mod 4 * 16)) "")
  | [] => ""
  end.

Definition signature (key : list Z) (payload : string) : string :=
  base64url (hmac sha256 (hmac sha256 key (bytes_of "owner-portal/known-device/v1")) (bytes_of payload)).

Definition number_of (s : string) : Z :=
  fold_left (fun acc a => acc * 10 + (code a - 48)) (list_ascii_of_string s) 0.

Definition known_device_valid (key : list Z) (token : json) (user : option User) (now : Z) : bool :=
  match token, user with
  | JStr t, Some u =>
      if fullmatch TOKEN t && String.eqb (us_issuer u) "local" then
        match split_on "." t with
        | _version :: identifier :: generation :: expires :: _ as fields =>
            String.eqb (signature key (join "." (removelast fields))) (List.last fields "")
            && String.eqb identifier (us_id u) && (number_of generation =? us_generation u)
            && (now <? number_of expires * second) && (number_of expires * second <=? now + LIFETIME * second)
        | _ => false
        end
      else false
  | _, _ => false
  end.

(** ** Passwords (local_security.py) *)

Definition SCRYPT_N : Z := 32768.
Definition SCRYPT_R : Z := 8.
Definition SCRYPT_P : Z := 3.

Definition DUMMY_HASH : string := "scrypt$32768$8$3$00000000000000000000000000000000$595935967a4e93405d5e11de777ea198e4bf73d0cad8e70d865b357de14acaea801ce37252f3c1347134a105f4f1e6dea3116216ee0a848bf4b07203b2f97af7".

Fixpoint strip_left (l : list ascii) : list ascii :=
  match l with a :: l' => if whitespace a then strip_left l' else l | [] => [] end.

(** Digits, single underscores between them *)
Fixpoint int_digits (acc : Z) (after_digit : bool) (l : list ascii) : option Z :=
  match l with
  | [] => if after_digit then Some acc else None
  | a :: l' =>
      if digit a then int_digits (acc * 10 + (code a - 48)) true l'
      else if is_char "_" a && after_digit then int_digits acc false l'
      else None
  end.

(** [int(text)] *)
Definition int_text (s : string) : option Z :=
  let l := rev (strip_left (rev (strip_left (list_ascii_of_string s)))) in
  if (4300 <? length (List.filter digit l))%nat then None
  else match l with
       | a :: l' => if is_char "-" a then Z.opp <$> int_digits 0 false l'
                    else if is_char "+" a then int_digits 0 false l' else int_digits 0 false l
       | [] => None
       end.

(** [bytes.fromhex]: white space (of ASCII) between bytes is skipped. *)
Fixpoint fromhex (l : list ascii) : option (list Z) :=
  match l with
  | [] => Some []
  | a :: l1 =>
      if whitespace a && (code a <=? 32) && negb (between 28 31 a) then fromhex l1
      else match l1 with
           | b :: l2 =>
               match hex_value a, hex_value b, fromhex l2 with
               | Some h, Some l, Some rest => Some (h * 16 + l :: rest)
               | _, _, _ => None
               end
           | [] => None
           end
  end.

Definition hex_text_of (bytes : list Z) : string := concat_all (map hex_byte bytes).

(** The cost, salt and key of a stored password that may be verified *)
Definition stored_password (encoded : string) : option (Z * Z * list Z * list Z) :=
  match split_on "$" encoded with
  | [kind; ns; rs; ps; salt_hex; key_hex] =>
      match int_text ns, int_text rs, int_text ps with
      | Some n, Some r, Some p =>
          if negb (String.eqb kind "scrypt") || negb (existsb (Z.eqb n) [8192; 16384; 32768])
             || negb (r =? 8) || negb ((1 <=? p) && (p <=? 10))
             || negb (Nat.eqb (String.length salt_hex) 32) || negb (Nat.eqb (String.length key_hex) 128)
          then None
          else match fromhex (list_ascii_of_string salt_hex), fromhex (list_ascii_of_string key_hex) with
               | Some salt, Some stored => Some (n, p, salt, stored)
               | _, _ => None
               end
      | _, _, _ => None
      end
  | _ => None
  end.

Section WithScrypt.
(** [hashlib.scrypt(value, salt=..., n=..., r=8, p=..., dklen=64)] *)
Context (scrypt : string -> list Z -> Z -> Z -> list Z).

(** Validity, and whether the hash should be renewed at the present cost *)
Definition verify_password (value encoded : string) : bool * bool :=
  if 1024 <? utf8_length value then (false, false)
  else match stored_password encoded with
       | None => (false, false)
       | Some (n, p, salt, stored) =>
           let valid := bool_decide (scrypt value salt n p = stored) in
           (valid, valid && negb ((n =? SCRYPT_N) && (p =? SCRYPT_P)))
       end.

(** [salt]: the next sixteen random bytes *)
Definition hash_password (value : string) (salt : list Z) : string :=
  "scrypt$" +:+ dumps (JInt SCRYPT_N) +:+ "$" +:+ dumps (JInt SCRYPT_R) +:+ "$" +:+ dumps (JInt SCRYPT_P)
  +:+ "$" +:+ hex_text_of salt +:+ "$" +:+ hex_text_of (scrypt value salt SCRYPT_N SCRYPT_P).
End WithScrypt.

(** ** Budgets (local_auth.py) *)

Definition PASSWORD_FAILURES : nat := 20.
Definition TOTP_FAILURES : nat := 10.
Definition WINDOW_SECONDS : Z := 3600.
Definition TOTP_BACKOFF_SECONDS : Z := 30.
Definition MAX_TOTP_BACKOFF_SECONDS : Z := 3600.

(** A row of users joined with its row of local_accounts *)
Record Account := { ac_user : User; ac_local : LocalAccount }.

Definition account_id (a : Account) : string := us_id (ac_user a).

Definition join_local (d : MDb) (u : User) : option Account :=
  (fun l => {| ac_user := u; ac_local := l |})
    <$> List.find (fun l => String.eqb (la_user_id l) (us_id u)) (m_local_accounts d).

Definition account (username : string) (d : MDb) : option Account :=
  head (omap (join_local d)
    (List.filter (fun u => String.eqb (us_issuer u) "local" && String.eqb (us_username u) username) (m_users d))).

Definition recent (user : string) (k : failure_kind) (now : Z) (f : AuthFailure) : bool :=
  String.eqb (af_user_id f) user && bool_decide (af_kind f = k) && (now - WINDOW_SECONDS * second <? af_created f).

Definition count (d : MDb) (user : string) (k : failure_kind) (now : Z) : nat :=
  length (List.filter (recent user k now) (m_failures d)).

(** [not text] of a nullable column *)
Definition no_text (o : option string) : bool := match o with Some (String _ _) => false | _ => true end.

Definition blocked (d : MDb) (user : option Account) (recognized : bool) (now : Z) : bool :=
  match user with
  | None => true
  | Some a =>
      negb (us_enabled (ac_user a)) || negb (String.eqb (us_status (ac_user a)) "active")
      || no_text (la_password_hash (ac_local a)) || (now <? la_totp_blocked_until (ac_local a))
      || (TOTP_FAILURES <=? count d (account_id a) totp_failure now)%nat
      || (negb recognized && (PASSWORD_FAILURES <=? count d (account_id a) password_failure now)%nat)
  end.

Definition failure (user : string) (k : failure_kind) (now : Z) : MDB unit :=
  _ ← delete (fun f => String.eqb (af_user_id f) user && (af_created f <=? now - WINDOW_SECONDS * second));
  let maximum := match k with password_failure => PASSWORD_FAILURES | totp_failure => TOTP_FAILURES end in
  n ← gets (fun c => count (store c) user k now);
  if (n <? maximum)%nat then insert {| af_user_id := user; af_kind := k; af_created := now |} else mret tt.

Definition set_totp (streak blocked_until : Z) (r : LocalAccount) : LocalAccount := {|
  la_user_id := la_user_id r; la_password_hash := la_password_hash r; la_totp_secret := la_totp_secret r;
  la_totp_confirmed := la_totp_confirmed r; la_last_counter := la_last_counter r;
  la_totp_streak := streak; la_totp_blocked_until := blocked_until |}.

Definition set_counter (counter : Z) (r : LocalAccount) : LocalAccount := {|
  la_user_id := la_user_id r; la_password_hash := la_password_hash r; la_totp_secret := la_totp_secret r;
  la_totp_confirmed := la_totp_confirmed r; la_last_counter := counter;
  la_totp_streak := 0; la_totp_blocked_until := 0 |}.

Definition set_password_hash (h : string) (r : LocalAccount) : LocalAccount := {|
  la_user_id := la_user_id r; la_password_hash := Some h; la_totp_secret := la_totp_secret r;
  la_totp_confirmed := la_totp_confirmed r; la_last_counter := la_last_counter r;
  la_totp_streak := la_totp_streak r; la_totp_blocked_until := la_totp_blocked_until r |}.

Definition is_local (user : string) (r : LocalAccount) : bool := String.eqb (la_user_id r) user.

(** [min(3600, 30 * 2 ** min(streak - 1, 7))] seconds *)
Definition totp_delay (streak : Z) : Z :=
  Z.min MAX_TOTP_BACKOFF_SECONDS (TOTP_BACKOFF_SECONDS * 2 ^ Z.min (streak - 1) 7) * second.

(** How the decision ended; only [Accepted] leaves [eligible] true. *)
Inductive verdict :=
  | Refused
  | WrongPassword (user : string)
  | WrongCode (user : string)
  | Accepted (latest : Account) (counter : option Z).

(** What an attempt brings to its decision: the browser's token, the account as
    first seen, whether that look or the windows denied it, the exemption of a
    recognized browser, the hash that was verified and whether the password
    matched it, and the code. *)
Record SignIn := {
  at_username : string;
  at_device : json;
  at_user : option Account;
  at_denied : bool;
  at_exempt : bool;
  at_encoded : string;
  at_valid : bool;
  at_code : json;
}.

Definition eligible (d : MDb) (q : SignIn) (latest : option Account) (recognized_now : bool) (now : Z) : bool :=
  negb (at_denied q)
  && match latest, at_user q with
     | Some l, Some u =>
         (us_generation (ac_user l) =? us_generation (ac_user u))
         && bool_decide (la_password_hash (ac_local l) = Some (at_encoded q))
         && negb (blocked d latest (recognized_now && at_exempt q) now)
     | _, _ => false
     end.

(** The success path's own update *)
Definition succeed (l : Account) (counter : option Z) : MDB verdict :=
  _ ← update (is_local (account_id l)) (set_totp 0 0);
  mret (Accepted l counter).

Definition check_code (l : Account) (supplied : json) (now : Z) : MDB verdict :=
  match la_totp_confirmed (ac_local l), la_totp_secret (ac_local l) with
  | true, Some (String _ _ as secret) =>
      match verify_totp secret supplied now (la_last_counter (ac_local l)) with
      | None =>
          _ ← failure (account_id l) totp_failure now;
          let streak := Z.min (la_totp_streak (ac_local l) + 1) 32 in
          _ ← update (is_local (account_id l)) (set_totp streak (now + totp_delay streak));
          mret (WrongCode (account_id l))
      | Some counter =>
          _ ← update (is_local (account_id l)) (set_counter counter);
          succeed l (Some counter)
      end
  | _, _ => if String.eqb (us_role (ac_user l)) "admin" then mret Refused else succeed l None
  end.

(** The write transaction of [authenticate] *)
Definition settle (key : list Z) (q : SignIn) : MDB verdict :=
  connect (
    now ← datetime_now;
    latest ← gets (fun c => account (at_username q) (store c));
    let recognized_now := known_device_valid key (at_device q) (ac_user <$> latest) now in
    ok ← gets (fun c => eligible (store c) q latest recognized_now now);
    match latest with
    | Some l =>
        if ok : bool then
          if negb (at_valid q) then
            _ ← failure (account_id l) password_failure now; mret (WrongPassword (account_id l))
          else check_code l (at_code q) now
        else mret Refused
    | None => mret Refused
    end).

(** Renewing the hash of a signed-in account at the present cost *)
Definition rehash (username encoded replacement : string) (result : Account) : MDB bool :=
  connect (
    current ← gets (fun c => account username (store c));
    match current with
    | Some a =>
        if negb (us_generation (ac_user a) =? us_generation (ac_user result))
           || negb (bool_decide (la_password_hash (ac_local a) = Some encoded))
           || negb (us_enabled (ac_user a)) || negb (String.eqb (us_status (ac_user a)) "active")
        then mret false
        else _ ← update (is_local (account_id result)) (set_password_hash replacement); mret true
    | None => mret false
    end).

(** [authenticate] once the in-memory windows have admitted the attempt: the
    first look, the verification and the decision.  [None] is the generic
    error. *)
Definition sign_in (scrypt : string -> list Z -> Z -> Z -> list Z) (key : list Z) (username password : string)
    (supplied device : json) (window_denied window_exempt : bool) (salt : list Z) : MDB (option Account) :=
  now ← datetime_now;
  user ← gets (fun c => account username (store c));
  denied ← gets (fun c => window_denied || blocked (store c) user window_exempt now);
  let encoded := if denied : bool then DUMMY_HASH
                 else default DUMMY_HASH (user ≫= fun a => la_password_hash (ac_local a)) in
  let (valid, upgrade) := verify_password scrypt password encoded in
  v ← settle key {| at_username := username; at_device := device; at_user := user; at_denied := denied;
                    at_exempt := window_exempt; at_encoded := encoded; at_valid := valid; at_code := supplied |};
  match v with
  | Accepted result _ =>
      if upgrade : bool then
        kept ← rehash username encoded (hash_password scrypt password salt) result;
        mret (if kept : bool then Some result else None)
      else mret (Some result)
  | _ => mret None
  end.
