(* ===== verification/LocalAuthSpec.v ===== *)
(** * Properties of local sign-in

    An accepted attempt proved the password and a fresh code; no code is
    accepted twice; and the hourly guessing budgets hold for any sequence of
    attempts, whatever runs between them. *)

From S2P Require Import Prelude Regex Json Clock Validation Sql Sha256 Totp ManagementDb LocalAuth.

(** ** The effect of one decision *)

Definition maximum (k : failure_kind) : nat :=
  match k with password_failure => PASSWORD_FAILURES | totp_failure => TOTP_FAILURES end.

Definition window : Z := WINDOW_SECONDS * second.

Definition record_failure (u : string) (k : failure_kind) (now : Z) (fs : list AuthFailure) : list AuthFailure :=
  let kept := List.filter (fun f => negb (String.eqb (af_user_id f) u && (af_created f <=? now - window))) fs in
  if (length (List.filter (recent u k now) kept) <? maximum k)%nat
  then kept ++ [{| af_user_id := u; af_kind := k; af_created := now |}] else kept.

Lemma failure_ok u k now c c' : failure u k now c = (Ok tt, c') ->
  c' = with_store (with_failures (record_failure u k now (m_failures (store c))) (store c)) c.
Proof.
  unfold failure. intros H. apply bind_ok in H as ([] & c1 & H1 & H). apply delete_ok in H1 as ->.
  apply bind_ok in H as (n & c2 & H2 & H). injection H2 as <- <-. unfold record_failure, maximum.
  unfold count in H. cbn [store with_store put_rows failures_table with_failures m_failures rows] in H. fold window in H.
  destruct (_ <? _)%nat; [apply insert_ok in H as [-> _]|injection H as <-]; done.
Qed.

(** How long ago the last counter of a user was *)
Definition counter_of (u : string) (d : MDb) : option Z :=
  la_last_counter <$> List.find (is_local u) (m_local_accounts d).

(** What each verdict changed: nothing; a recorded failure, within the budget
    that was checked; the counter, which went up. *)
Definition effect (q : SignIn) (now : Z) (v : verdict) (d d' : MDb) : Prop :=
  match v with
  | Refused => d' = d
  | WrongPassword u =>
      m_failures d' = record_failure u password_failure now (m_failures d)
      /\ (at_exempt q = false -> (count d u password_failure now < PASSWORD_FAILURES)%nat)
      /\ (forall w, counter_of w d' = counter_of w d)
  | WrongCode u =>
      m_failures d' = record_failure u totp_failure now (m_failures d)
      /\ (count d u totp_failure now < TOTP_FAILURES)%nat
      /\ (forall w, counter_of w d' = counter_of w d)
  | Accepted l co =>
      m_failures d' = m_failures d
      /\ (forall w, w <> account_id l -> counter_of w d' = counter_of w d)
      /\ counter_of (account_id l) d = Some (la_last_counter (ac_local l))
      /\ counter_of (account_id l) d' = Some (default (la_last_counter (ac_local l)) co)
  end.

Lemma account_some name d a : account name d = Some a ->
  In (ac_user a) (m_users d) /\ us_issuer (ac_user a) = "local"%string /\ us_username (ac_user a) = name
  /\ List.find (is_local (account_id a)) (m_local_accounts d) = Some (ac_local a).
Proof.
  unfold account. intros H. assert (Hin : a ∈ omap (join_local d)
    (List.filter (fun u => String.eqb (us_issuer u) "local" && String.eqb (us_username u) name) (m_users d))).
  { destruct (omap _ _) as [|x l]; [done|]. injection H as ->. by left. }
  apply list_elem_of_omap in Hin as (u & Hu & Hj). apply list_elem_of_In, filter_In in Hu as [Hu Hb].
  apply andb_true_iff in Hb as [Hi Hn]. apply String.eqb_eq in Hi, Hn.
  unfold join_local in Hj. destruct (List.find _ _) as [r|] eqn:E; [|done]. injection Hj as <-. done.
Qed.

Lemma counter_updated u f w d : (forall r, la_user_id (f r) = la_user_id r) ->
  counter_of w (with_local_accounts (apply_where (is_local u) f (m_local_accounts d)) d)
  = if String.eqb w u then (fun r => la_last_counter (f r)) <$> List.find (is_local u) (m_local_accounts d)
    else counter_of w d.
Proof.
  intros Hf. unfold counter_of, apply_where. cbn [m_local_accounts with_local_accounts].
  induction (m_local_accounts d) as [|r rs IH]; simpl; [by destruct (String.eqb w u)|].
  unfold is_local in *. destruct (String.eqb_spec (la_user_id r) u) as [<-|Hr].
  - rewrite Hf. destruct (String.eqb_spec (la_user_id r) w) as [<-|Hw]; [by rewrite String.eqb_refl|].
    rewrite IH. destruct (String.eqb_spec w (la_user_id r)); [congruence|done].
  - destruct (String.eqb_spec (la_user_id r) w) as [<-|Hw]; [|done].
    destruct (String.eqb_spec (la_user_id r) u); [congruence|done].
Qed.

Lemma eligible_true d q l re now : eligible d q (Some l) re now = true ->
  at_denied q = false /\ (exists u, at_user q = Some u /\ us_generation (ac_user u) = us_generation (ac_user l))
  /\ la_password_hash (ac_local l) = Some (at_encoded q) /\ blocked d (Some l) (re && at_exempt q) now = false.
Proof.
  unfold eligible. intros H. apply andb_true_iff in H as [Hd H]. destruct (at_user q) as [u|]; [|done].
  apply andb_true_iff in H as [H Hb]. apply andb_true_iff in H as [Hg Hp].
  apply negb_true_iff in Hd, Hb. apply Z.eqb_eq in Hg. apply bool_decide_eq_true_1 in Hp.
  split_and!; [done|by exists u|done|done].
Qed.

Lemma blocked_false d l re now : blocked d (Some l) re now = false ->
  us_enabled (ac_user l) = true /\ us_status (ac_user l) = "active"%string
  /\ la_totp_blocked_until (ac_local l) <= now
  /\ (count d (account_id l) totp_failure now < TOTP_FAILURES)%nat
  /\ (re = false -> (count d (account_id l) password_failure now < PASSWORD_FAILURES)%nat).
Proof.
  unfold blocked. rewrite !orb_false_iff. intros [[[[[He Hs] _] Hb] Ht] Hp].
  apply negb_false_iff in He, Hs. apply String.eqb_eq in Hs. apply Z.ltb_ge in Hb. apply Nat.leb_gt in Ht.
  split_and!; [done|done|done|done|]. intros ->. by apply Nat.leb_gt in Hp.
Qed.

(** What an accepted attempt proved *)
Definition proved (q : SignIn) (now : Z) (l : Account) (co : option Z) (d : MDb) : Prop :=
  account (at_username q) d = Some l
  /\ at_denied q = false /\ at_valid q = true /\ la_password_hash (ac_local l) = Some (at_encoded q)
  /\ (exists u, at_user q = Some u /\ us_generation (ac_user u) = us_generation (ac_user l))
  /\ us_enabled (ac_user l) = true /\ us_status (ac_user l) = "active"%string
  /\ la_totp_blocked_until (ac_local l) <= now
  /\ match co with
     | Some n => exists secret code, la_totp_confirmed (ac_local l) = true
         /\ la_totp_secret (ac_local l) = Some secret /\ at_code q = JStr code /\ totp_code secret n = Ok code
         /\ la_last_counter (ac_local l) < n /\ Z.abs (n - now / (30 * second)) <= 1
     | None => us_role (ac_user l) <> "admin"%string
         /\ (la_totp_confirmed (ac_local l) = false \/ no_text (la_totp_secret (ac_local l)) = true)
     end.

Lemma succeed_ok l co c v c' : succeed l co c = (Ok v, c') ->
  v = Accepted l co
  /\ c' = with_store (with_local_accounts (apply_where (is_local (account_id l)) (set_totp 0 0) (m_local_accounts (store c))) (store c)) c.
Proof.
  unfold succeed. intros H. apply bind_ok in H as (n & c1 & Hu & H). apply update_ok in Hu as (-> & _ & _).
  by injection H as <- <-.
Qed.

Lemma check_code_ok l q now c v c' : check_code l (at_code q) now c = (Ok v, c') ->
  account (at_username q) (store c) = Some l -> (count (store c) (account_id l) totp_failure now < TOTP_FAILURES)%nat ->
  clock c' = clock c /\ ticks c' = ticks c /\ effect q now v (store c) (store c')
  /\ match v with
     | Accepted l' co => l' = l /\ match co with
         | Some n => exists secret code, la_totp_confirmed (ac_local l) = true
             /\ la_totp_secret (ac_local l) = Some secret /\ at_code q = JStr code /\ totp_code secret n = Ok code
             /\ la_last_counter (ac_local l) < n /\ Z.abs (n - now / (30 * second)) <= 1
         | None => us_role (ac_user l) <> "admin"%string
             /\ (la_totp_confirmed (ac_local l) = false \/ no_text (la_totp_secret (ac_local l)) = true)
         end
     | _ => True
     end.
Proof.
  intros H Ha Hc. apply account_some in Ha as (_ & _ & _ & Hl).
  assert (Hnone : (if String.eqb (us_role (ac_user l)) "admin" then mret Refused else succeed l None) c = (Ok v, c') ->
    la_totp_confirmed (ac_local l) = false \/ no_text (la_totp_secret (ac_local l)) = true ->
    clock c' = clock c /\ ticks c' = ticks c /\ effect q now v (store c) (store c')
    /\ match v with
       | Accepted l' co => l' = l /\ match co with
           | Some n => False
           | None => us_role (ac_user l) <> "admin"%string
               /\ (la_totp_confirmed (ac_local l) = false \/ no_text (la_totp_secret (ac_local l)) = true)
           end
       | _ => True
       end).
  { destruct (String.eqb_spec (us_role (ac_user l)) "admin") as [|Hr].
    { intros H0 _. assert (H1 : (Ok Refused, c) = (Ok v, c')) by exact H0. by injection H1 as <- <-. }
    intros [-> ->]%succeed_ok Hn. split_and!; try done. split_and!; [done| | |].
    - intros w Hw. cbn [store with_store]. rewrite counter_updated by done.
      destruct (String.eqb_spec w (account_id l)); done.
    - unfold counter_of. by rewrite Hl.
    - cbn [store with_store]. rewrite counter_updated, String.eqb_refl, Hl by done. done. }
  unfold check_code in H.
  destruct (la_totp_confirmed (ac_local l)) eqn:Hf; [|apply Hnone in H as (? & ? & ? & H); [|by left];
    split_and!; try done; destruct v as [| | |l' []]; try done; by destruct H as [-> []]].
  destruct (la_totp_secret (ac_local l)) as [[|a s]|] eqn:Hs; [apply Hnone in H as (? & ? & ? & H); [|by right];
    split_and!; try done; destruct v as [| | |l' []]; try done; by destruct H as [-> []]| |apply Hnone in H as (? & ? & ? & H); [|by right];
    split_and!; try done; destruct v as [| | |l' []]; try done; by destruct H as [-> []]].
  destruct (verify_totp _ _ _ _) as [n|] eqn:Hv.
  - apply bind_ok in H as (k & c1 & Hu & H). apply update_ok in Hu as (-> & _ & _). apply succeed_ok in H as [-> ->].
    apply verify_totp_ok in Hv as (H1 & H2 & H3 & code & H4 & H5).
    split_and!; try done.
    + split_and!; [done| | |].
      * intros w Hw. cbn [store with_store]. rewrite counter_updated by done.
        destruct (String.eqb_spec w (account_id l)); [done|]. cbn [store with_store].
        etransitivity; [apply counter_updated; done|]. destruct (String.eqb_spec w (account_id l)); done.
      * unfold counter_of. by rewrite Hl.
      * cbn [store with_store]. rewrite counter_updated, String.eqb_refl by done.
        assert (Hc1 := counter_updated (account_id l) (set_counter n) (account_id l) (store c) (fun _ => eq_refl)).
        rewrite String.eqb_refl, Hl in Hc1. exact Hc1.
    + by exists (String a s), code.
  - apply bind_ok in H as ([] & c1 & Hfail & H). apply failure_ok in Hfail as ->.
    apply bind_ok in H as (k & c2 & Hu & H). apply update_ok in Hu as (-> & _ & _). injection H as <- <-.
    split_and!; [done|done| |done]. split_and!; [done|done|]. intros w. cbn [store with_store].
    etransitivity; [apply (counter_updated _ (set_totp _ _) _ (with_failures _ (store c))); reflexivity|].
    destruct (String.eqb_spec w (account_id l)) as [->|]; [|done]. unfold counter_of.
    cbn [m_local_accounts with_failures]. by rewrite Hl.
Qed.

(** One decision: its effect at the time it read, and what acceptance proved *)
Lemma settle_ok key q c v c' : settle key q c = (Ok v, c') ->
  clock c' = clock c /\ ticks c' = S (ticks c) /\ effect q (clock c (ticks c)) v (store c) (store c')
  /\ match v with Accepted l co => proved q (clock c (ticks c)) l co (store c) | _ => True end.
Proof.
  intros H. unfold settle, connect in H.
  match type of H with match ?m c with _ => _ end = _ => destruct (m c) as [[a|e] c1] eqn:E end; [|done].
  injection H as -> ->. set (now := clock c (ticks c)).
  apply bind_ok in E as (t & c2 & H1 & E). injection H1 as <- <-. fold now in E.
  apply bind_ok in E as (latest & c3 & H1 & E). injection H1 as <- <-.
  apply bind_ok in E as (ok & c4 & H1 & E). injection H1 as <- <-.
  cbn [store tick] in E. destruct (account (at_username q) (store c)) as [l|] eqn:Ha; [|injection E as <- <-; done].
  destruct (eligible _ _ _ _ _) eqn:He; [|injection E as <- <-; done].
  apply eligible_true in He as (Hd & Hg & Hp & Hb). apply blocked_false in Hb as (He & Hs & Hu & Ht & Hpw).
  destruct (at_valid q) eqn:Hv; cbn [negb] in E.
  - apply check_code_ok in E as (E1 & E2 & E3 & E4); [|done|done]. split_and!; [by rewrite E1|by rewrite E2|exact E3|].
    destruct v as [| | |l' co]; try done. destruct E4 as [-> E4]. split_and!; try done.
  - apply bind_ok in E as ([] & c5 & Hf & E). apply failure_ok in Hf as ->. injection E as <- <-.
    split_and!; [done|done| |done]. split_and!; [done| |done]. intros Hx. apply Hpw. by rewrite Hx, andb_false_r.
Qed.

(** ** Sequences of attempts *)

Record Entry := { en_time : Z; en_attempt : SignIn; en_verdict : verdict }.

(** Whatever else the broker does, as long as it leaves the failures and the
    counters alone (an administrator's reset is the exception). *)
Definition undisturbed (c c' : conn MDb) : Prop :=
  clock c' = clock c /\ (ticks c <= ticks c')%nat /\ m_failures (store c') = m_failures (store c)
  /\ forall u, counter_of u (store c') = counter_of u (store c).

(** Decided attempts, oldest first, with anything undisturbing between them *)
Inductive run (key : list Z) (c : conn MDb) : list Entry -> conn MDb -> Prop :=
  | run_start : run key c [] c
  | run_other log c1 c2 : run key c log c1 -> undisturbed c1 c2 -> run key c log c2
  | run_settle log c1 q v c2 : run key c log c1 -> settle key q c1 = (Ok v, c2) ->
      run key c (log ++ [{| en_time := clock c1 (ticks c1); en_attempt := q; en_verdict := v |}]) c2.

Definition monotone (c : conn MDb) : Prop := forall i j, (i <= j)%nat -> clock c i <= clock c j.

(** An attempt that tested a guess and failed: a code, or a password from a
    browser that is not exempt *)
Definition guess (k : failure_kind) (u : string) (e : Entry) : bool :=
  match k, en_verdict e with
  | totp_failure, WrongCode w => String.eqb w u
  | password_failure, WrongPassword w => String.eqb w u && negb (at_exempt (en_attempt e))
  | _, _ => false
  end.

(** The guesses at an account in [(lo, hi]] *)
Definition guesses (k : failure_kind) (u : string) (lo hi : Z) (log : list Entry) : nat :=
  length (List.filter (fun e => guess k u e && (lo <? en_time e) && (en_time e <=? hi)) log).

Definition guesses_since (k : failure_kind) (u : string) (lo : Z) (log : list Entry) : nat :=
  length (List.filter (fun e => guess k u e && (lo <? en_time e)) log).

Lemma filter_snoc {A} (p : A -> bool) l x :
  length (List.filter p (l ++ [x])) = (length (List.filter p l) + (if p x then 1 else 0))%nat.
Proof. rewrite List.filter_app, length_app. simpl. by destruct (p x). Qed.

Lemma filter_le {A} (p q : A -> bool) l : (forall x, In x l -> p x = true -> q x = true) ->
  (length (List.filter p l) <= length (List.filter q l))%nat.
Proof.
  induction l as [|x l IH]; intros H; simpl; [done|].
  assert (Hl : (length (List.filter p l) <= length (List.filter q l))%nat) by (apply IH; intros y Hy; apply H; by right).
  specialize (H x (or_introl eq_refl)). destruct (p x), (q x); simpl; first [lia|by discriminate (H eq_refl)].
Qed.

Lemma filter_narrow {A} (p q : A -> bool) l : (forall x, p x = true -> q x = true) ->
  List.filter p (List.filter q l) = List.filter p l.
Proof.
  intros H. induction l as [|x l IH]; simpl; [done|]. destruct (q x) eqn:Eq; simpl; [by rewrite IH|].
  destruct (p x) eqn:Ep; [|done]. by rewrite (H x Ep) in Eq.
Qed.

(** Recording a failure never lowers a later count, and raises the count of
    its own kind while that is under its maximum. *)
Lemma recorded_count u k now fs w j t : now <= t ->
  (length (List.filter (recent w j t) fs)
   + (if String.eqb u w && bool_decide (k = j) && (t - window <? now)%Z
         && (length (List.filter (recent u k now) fs) <? maximum k)%nat then 1 else 0)
   <= length (List.filter (recent w j t) (record_failure u k now fs)))%nat.
Proof.
  intros Ht. unfold record_failure.
  assert (Hw : forall x y s, now <= s -> List.filter (recent x y s)
    (List.filter (fun f => negb (String.eqb (af_user_id f) u && (af_created f <=? now - window))) fs)
    = List.filter (recent x y s) fs).
  { intros x y s Hs. apply filter_narrow. intros f. unfold recent. fold window. rewrite !andb_true_iff, negb_true_iff, andb_false_iff.
    intros [_ H%Z.ltb_lt]. right. apply Z.leb_gt. lia. }
  rewrite (Hw u k now) by lia. destruct (_ <? maximum k)%nat; [|rewrite andb_false_r, Hw by done; lia].
  rewrite filter_snoc, Hw, andb_true_r by done. unfold recent at 3. cbn [af_user_id af_kind af_created]. fold window.
  destruct (String.eqb u w && bool_decide (k = j)); lia.
Qed.

Lemma run_clock key c log c' : run key c log c' -> monotone c ->
  clock c' = clock c /\ forall e, In e log -> en_time e <= clock c (ticks c').
Proof.
  intros H Hm. induction H as [|log c1 c2 _ [IHc IHt] (H1 & H2 & _)|log c1 q v c2 _ [IHc IHt] (H1 & H2 & _)%settle_ok].
  - done.
  - split; [congruence|]. intros e He. etransitivity; [by apply IHt|by apply Hm].
  - split; [congruence|]. intros e [He|[<-|[]]]%in_app_or.
    + etransitivity; [by apply IHt|]. apply Hm. lia.
    + simpl. rewrite IHc. apply Hm. lia.
Qed.

(** The recorded failures account for every recent guess. *)
Lemma run_counted key c log c' k u : run key c log c' -> monotone c ->
  forall t, clock c (ticks c') <= t -> (guesses_since k u (t - window)%Z log <= count (store c') u k t)%nat.
Proof.
  intros H Hm. induction H as [|log c1 c2 H IH (Hc & Ht & Hf & _)|log c1 q v c2 H IH Hs]; intros t Hle.
  - unfold guesses_since. simpl. lia.
  - unfold count. rewrite Hf. apply IH. etransitivity; [by apply Hm|done].
  - pose proof (run_clock _ _ _ _ H Hm) as [Hc1 _].
    apply settle_ok in Hs as (Hc & Ht & He & _). rewrite Hc1 in He. set (now := clock c (ticks c1)) in *.
    assert (Hnow : now <= t) by (transitivity (clock c (ticks c2)); [apply Hm; lia|done]).
    specialize (IH t Hnow). unfold guesses_since. rewrite filter_snoc. fold (guesses_since k u (t - window) log).
    rewrite Hc1. fold now. cbn [en_time]. unfold count in *. unfold guess at 1. cbn [en_verdict en_attempt].
    destruct v as [|w|w|l co]; cbn [effect] in He.
    + rewrite He. destruct k; simpl; lia.
    + destruct He as (-> & Hn & _). pose proof (recorded_count w password_failure now (m_failures (store c1)) u k t Hnow) as Hr.
      destruct k; [|simpl; lia]. rewrite bool_decide_true in Hr by done.
      destruct (String.eqb w u); [|simpl in *; lia]. destruct (at_exempt q) eqn:Ex; [simpl in *; lia|].
      specialize (Hn eq_refl). change PASSWORD_FAILURES with (maximum password_failure) in Hn. unfold count in Hn.
      rewrite (proj2 (Nat.ltb_lt _ _) Hn) in Hr. destruct (t - window <? now); simpl in *; lia.
    + destruct He as (-> & Hn & _). pose proof (recorded_count w totp_failure now (m_failures (store c1)) u k t Hnow) as Hr.
      destruct k; [simpl; lia|]. rewrite bool_decide_true in Hr by done.
      destruct (String.eqb w u); [|simpl in *; lia].
      change TOTP_FAILURES with (maximum totp_failure) in Hn. unfold count in Hn. rewrite (proj2 (Nat.ltb_lt _ _) Hn) in Hr. destruct (t - window <? now); simpl in *; lia.
    + destruct He as (-> & _). destruct k; simpl; lia.
Qed.

(** C33. The guessing budgets hold: however attempts are interleaved with each
    other and with the rest of the broker, in any hour at most ten wrong codes
    and twenty wrong passwords from browsers that are not exempt are tested
    against an account; further attempts are refused without testing. *)
Theorem guesses_bounded key c log c' k u t : run key c log c' -> monotone c ->
  (guesses k u (t - 3600 * second)%Z t log <= match k with password_failure => 20 | totp_failure => 10 end)%nat.
Proof.
  intros H Hm. change (3600 * second) with window.
  change (guesses k u (t - window)%Z t log <= maximum k)%nat.
  induction H as [|log c1 c2 H IH _|log c1 q v c2 H IH Hs]; [unfold guesses; simpl; lia|done|].
  unfold guesses. rewrite filter_snoc. fold (guesses k u (t - window) t log).
  destruct (guess k u _ && _ && _) eqn:E; [|lia]. apply andb_true_iff in E as [[Eg Elo]%andb_true_iff Ehi].
  pose proof (run_clock _ _ _ _ H Hm) as [Hc Hle]. cbn [en_time] in *. apply Z.ltb_lt in Elo. apply Z.leb_le in Ehi.
  apply settle_ok in Hs as (_ & _ & He & _). rewrite Hc in *. set (now := clock c (ticks c1)) in *.
  assert (Hold : (guesses k u (t - window)%Z t log <= count (store c1) u k now)%nat).
  { transitivity (guesses_since k u (now - window) log); [|by apply (run_counted key c log c1 k u H Hm now)].
    apply filter_le. intros e _ He'. apply andb_true_iff in He' as [[H1 H2]%andb_true_iff _].
    rewrite H1. simpl. apply Z.ltb_lt in H2. apply Z.ltb_lt. lia. }
  assert (Hnew : (count (store c1) u k now < maximum k)%nat); [|lia].
  unfold guess in Eg. cbn [en_verdict en_attempt] in Eg. destruct k, v as [|w|w|l co]; try done; cbn [effect] in He.
  - apply andb_true_iff in Eg as [<-%String.eqb_eq Ex%negb_true_iff]. by apply He.
  - apply String.eqb_eq in Eg as <-. by apply He.
Qed.

(** ** No code twice *)

Definition counter_at_least (u : string) (n : Z) (d : MDb) : Prop := exists m, counter_of u d = Some m /\ n <= m.

Lemma settle_counter key q c v c' u n : settle key q c = (Ok v, c') ->
  counter_at_least u n (store c) -> counter_at_least u n (store c').
Proof.
  intros (_ & _ & He & Hp)%settle_ok (m & Hm & Hn). unfold counter_at_least. destruct v as [|w|w|l co]; cbn [effect] in He.
  - rewrite He. by exists m.
  - destruct He as (_ & _ & ->). by exists m.
  - destruct He as (_ & _ & ->). by exists m.
  - destruct He as (_ & Hother & Hold & Hnew). destruct (decide (u = account_id l)) as [->|Hu].
    + rewrite Hold in Hm. injection Hm as <-. eexists. split; [exact Hnew|].
      destruct co as [k|]; simpl; [|done]. destruct Hp as (_ & _ & _ & _ & _ & _ & _ & _ & secret & code & _ & _ & _ & _ & Hk & _). lia.
    + rewrite Hother by done. by exists m.
Qed.

(** The secret of the account's authenticator *)
Definition secret_of (u : string) (d : MDb) : option string :=
  r ← List.find (is_local u) (m_local_accounts d); la_totp_secret r.

Definition same_secrets (d d' : MDb) : Prop := forall u, secret_of u d' = secret_of u d.

#[export] Instance same_secrets_preorder : PreOrder same_secrets.
Proof. unfold same_secrets. split; [done|]. intros x y z Hxy Hyz u. by rewrite Hyz. Qed.

Lemma secrets_updated u f d : (forall r, la_user_id (f r) = la_user_id r /\ la_totp_secret (f r) = la_totp_secret r) ->
  same_secrets d (with_local_accounts (apply_where (is_local u) f (m_local_accounts d)) d).
Proof.
  intros Hf w. unfold secret_of, apply_where. cbn [m_local_accounts with_local_accounts].
  induction (m_local_accounts d) as [|r rs IH]; simpl; [done|]. destruct (Hf r) as [Hi Hs].
  destruct (is_local u r); unfold is_local in *; rewrite ?Hi; destruct (String.eqb (la_user_id r) w); simpl; congruence || done.
Qed.

Lemma connect_secrets {A} (m : MDB A) : evolves same_secrets m -> evolves same_secrets (connect m).
Proof. intros Hm c. specialize (Hm c). unfold connect. destruct (m c) as [[a|e] c1]; [exact Hm|reflexivity]. Qed.

(** A decision leaves every authenticator alone. *)
Lemma settle_secrets key q : evolves same_secrets (settle key q).
Proof.
  unfold settle. apply connect_secrets. unfold check_code, succeed, failure. evolve; try done; by apply secrets_updated.
Qed.

(** Decided attempts, oldest first, as account [u] sees them.  Between them the
    broker does anything that leaves the account's authenticator in place and its
    counter not lowered (a new password confirmed by a code raises it), and it
    resets or enrols the authenticator, the counter then starting anywhere: the
    secret is gone, or it is new, as random secrets are. *)
Inductive codes_run (key : list Z) (u : string) (c : conn MDb) : list (option string) -> list Entry -> conn MDb -> Prop :=
  | codes_start : codes_run key u c [secret_of u (store c)] [] c
  | codes_other past log c1 c2 : codes_run key u c past log c1 ->
      secret_of u (store c2) = secret_of u (store c1) ->
      (forall n, counter_at_least u n (store c1) -> counter_at_least u n (store c2)) -> codes_run key u c past log c2
  | codes_replaced past log c1 c2 : codes_run key u c past log c1 ->
      secret_of u (store c2) = None \/ ~ In (secret_of u (store c2)) past ->
      codes_run key u c (secret_of u (store c2) :: past) log c2
  | codes_settle past log c1 q v c2 : codes_run key u c past log c1 -> settle key q c1 = (Ok v, c2) ->
      codes_run key u c past (log ++ [{| en_time := clock c1 (ticks c1); en_attempt := q; en_verdict := v |}]) c2.

(** The counter accepted for the account with a secret *)
Definition accepted_counter (u secret : string) (e : Entry) : option Z :=
  match en_verdict e with
  | Accepted l (Some n) =>
      if String.eqb (account_id l) u && bool_decide (la_totp_secret (ac_local l) = Some secret) then Some n else None
  | _ => None
  end.

(** What holds of one secret along a run *)
Definition spent (u secret : string) (past : list (option string)) (log : list Entry) (d : MDb) : Prop :=
  StronglySorted Z.lt (omap (accepted_counter u secret) log)
  /\ (omap (accepted_counter u secret) log <> [] -> In (Some secret) past)
  /\ (secret_of u d = Some secret -> Forall (fun n => counter_at_least u n d) (omap (accepted_counter u secret) log)).

Lemma sorted_snoc l n : StronglySorted Z.lt l -> Forall (fun m => m < n) l -> StronglySorted Z.lt (l ++ [n]).
Proof.
  intros S H. induction S as [|x xs Hxs IH Hx]; simpl; [by repeat constructor|].
  apply Forall_cons in H as [Hxn H]. constructor; [by apply IH|]. apply Forall_app. split; [done|]. by constructor.
Qed.

Lemma settle_spent key q c v c' u secret past log : settle key q c = (Ok v, c') -> In (secret_of u (store c)) past ->
  spent u secret past log (store c) ->
  spent u secret past (log ++ [{| en_time := clock c (ticks c); en_attempt := q; en_verdict := v |}]) (store c').
Proof.
  intros Hs Hin (S & Hp & Hc). pose proof (settle_secrets key q c) as Hk. rewrite Hs in Hk. specialize (Hk u). simpl in Hk.
  set (e := {| en_time := _; en_attempt := q; en_verdict := v |}). unfold spent. rewrite omap_app, Hk. simpl.
  assert (Hkept : secret_of u (store c) = Some secret ->
    Forall (fun n => counter_at_least u n (store c')) (omap (accepted_counter u secret) log)).
  { intros Hsec. eapply Forall_impl; [by apply Hc|]. intros n Hn. by eapply settle_counter. }
  destruct (accepted_counter u secret e) as [n|] eqn:E; [|by rewrite app_nil_r].
  unfold accepted_counter in E. cbn [e en_verdict] in E. destruct v as [| | |l [k|]]; try done.
  destruct (String.eqb_spec (account_id l) u) as [<-|]; [|done]. cbn [andb] in E. case_bool_decide as Hsec; [|done].
  injection E as ->. apply settle_ok in Hs as (_ & _ & (_ & _ & Hold & Hnew) & Hpr).
  destruct Hpr as (Ha & _ & _ & _ & _ & _ & _ & _ & s1 & code & _ & _ & _ & _ & Hlt & _).
  assert (Hnow : secret_of (account_id l) (store c) = Some secret).
  { apply account_some in Ha as (_ & _ & _ & Hf). unfold secret_of. by rewrite Hf. }
  split_and!.
  - apply sorted_snoc; [done|]. eapply Forall_impl; [by apply Hc|].
    intros m (x & Hx & Hm). rewrite Hold in Hx. injection Hx as <-. lia.
  - intros _. by rewrite <- Hnow.
  - intros _. apply Forall_app. split; [by apply Hkept|]. constructor; [|constructor]. exists n. split; [exact Hnew|lia].
Qed.

Lemma codes_spent key u c past log c' secret : codes_run key u c past log c' ->
  In (secret_of u (store c')) past /\ spent u secret past log (store c').
Proof.
  induction 1 as [|past log c1 c2 _ [IH1 (S & Hp & Hc)] He Hn|past log c1 c2 _ [IH1 (S & Hp & Hc)] Hnew|past log c1 q v c2 _ [IH1 IH2] Hs].
  - split; [by left|]. split_and!; [constructor|done|constructor].
  - split; [by rewrite He|]. split_and!; [done|done|]. rewrite He. intros Hsec.
    eapply Forall_impl; [by apply Hc|]. intros n. apply Hn.
  - split; [by left|]. split_and!; [done|intros H; right; by apply Hp|]. intros Hsec.
    destruct (omap (accepted_counter u secret) log) as [|n l] eqn:E; [constructor|]. exfalso.
    rewrite Hsec in Hnew. destruct Hnew as [|Hnew]; [done|]. by apply Hnew, Hp.
  - split; [|by eapply settle_spent]. pose proof (settle_secrets key q c1) as Hk. rewrite Hs in Hk. simpl in Hk. by rewrite (Hk u).
Qed.

(** C32. No one-time code is accepted twice: over any run of decisions, for every
    account and every secret its authenticator has had, the counters whose codes
    were accepted increase strictly.  Between the decisions the broker may reset
    and enrol the authenticator, as long as a new secret is not one the account
    had before, and do any other work that does not lower the counter of an
    authenticator it leaves in place. *)
Theorem codes_never_reused key u c past log c' secret : codes_run key u c past log c' ->
  StronglySorted Z.lt (omap (accepted_counter u secret) log).
Proof. intros H. by apply (codes_spent _ _ _ _ _ _ secret) in H as [_ [S _]]. Qed.

(** C34. [settle] accepts an attempt only when the account, read again in its
    transaction, is active, not blocked and of the generation first seen, its
    stored hash is the one the password was verified against, and its confirmed
    authenticator shows the code for a counter after the last one used and
    within a step of the present (without an authenticator, only an account
    that is not an administrator's); then that counter is recorded.  An attempt
    that was denied before is never accepted. *)
Theorem accepted_sign_in_proved key q c l co c' :
  settle key q c = (Ok (Accepted l co), c') ->
  proved q (clock c (ticks c)) l co (store c)
  /\ counter_of (account_id l) (store c') = Some (default (la_last_counter (ac_local l)) co)
  /\ m_failures (store c') = m_failures (store c).
Proof. intros (_ & _ & (Hf & _ & _ & Hc) & Hp)%settle_ok. done. Qed.

(** ** Witnesses *)

(** An administrator with a confirmed authenticator, attempting a sign-in a
    minute apart from 59 seconds past the epoch *)
Definition demo_user : User := {| us_id := "u"; us_role := "admin"; us_enabled := true; us_status := "active";
  us_issuer := "local"; us_username := "root"; us_generation := 3 |}.
Definition demo_local : LocalAccount := {| la_user_id := "u"; la_password_hash := Some "stored"%string;
  la_totp_secret := Some rfc_secret; la_totp_confirmed := true; la_last_counter := -1;
  la_totp_streak := 0; la_totp_blocked_until := 0 |}.
Definition demo_accounts : conn MDb := {|
  store := {| m_users := [demo_user]; m_intents := []; m_apps := []; m_members := []; m_configurations := [];
              m_observations := []; m_audit := []; m_admin_audit := [];
              m_local_accounts := [demo_local]; m_failures := [] |};
  in_transaction := false; clock := fun i => (59 + 60 * Z.of_nat i) * second; uuids := fun _ => ""%string;
  ticks := 0 |}.
Definition demo_sign_in (typed : string) : SignIn := {| at_username := "root"; at_device := JNull;
  at_user := Some {| ac_user := demo_user; ac_local := demo_local |}; at_denied := false; at_exempt := false;
  at_encoded := "stored"; at_valid := true; at_code := JStr typed |}.

Abbreviation demo_wrong := (settle [] (demo_sign_in "000000") demo_accounts).
Abbreviation demo_first := (settle [] (demo_sign_in "287082") demo_accounts).
Abbreviation demo_second := (settle [] (demo_sign_in "969429") demo_first.2).

Lemma demo_monotone : monotone demo_accounts.
Proof. intros i j H. unfold demo_accounts, second. cbn [clock]. lia. Qed.

Lemma ran {A B} (p : A * B) x : p.1 = x -> p = (x, p.2).
Proof. intros <-. by destruct p. Qed.

(** A wrong code, counted in the hour after it *)
Lemma guesses_bounded_witness :
  exists e, run [] demo_accounts [e] demo_wrong.2 /\ guesses totp_failure "u" (-3541 * second) (59 * second) [e] = 1%nat
    /\ (1 <= 10)%nat.
Proof.
  assert (E : exists v, demo_wrong.1 = Ok v /\ guess totp_failure "u"
    {| en_time := 59 * second; en_attempt := demo_sign_in "000000"; en_verdict := v |} = true)
    by (eexists; split; vm_compute; reflexivity).
  destruct E as (v & E & Hg). eexists.
  assert (R := run_settle [] demo_accounts [] demo_accounts (demo_sign_in "000000") v demo_wrong.2
    (run_start _ _) (ran _ _ E)).
  assert (G : guesses totp_failure "u" (59 * second - 3600 * second) (59 * second)
    [{| en_time := 59 * second; en_attempt := demo_sign_in "000000"; en_verdict := v |}] = 1%nat).
  { unfold guesses. cbn [List.filter]. rewrite Hg. reflexivity. }
  split; [exact R|]. split; [exact G|].
  pose proof (guesses_bounded _ _ _ _ totp_failure "u" (59 * second) R demo_monotone) as B.
  etransitivity; [|exact B]. cbn [app]. rewrite <- G. reflexivity.
Defined.

(** The code of 59 s, then that of 119 s *)
Lemma codes_never_reused_witness :
  exists log, codes_run [] "u" demo_accounts [Some rfc_secret] log demo_second.2
    /\ omap (accepted_counter "u" rfc_secret) log = [1; 3] /\ StronglySorted Z.lt [1; 3].
Proof.
  assert (E1 : exists v, demo_first.1 = Ok v /\ accepted_counter "u" rfc_secret
    {| en_time := 59 * second; en_attempt := demo_sign_in "287082"; en_verdict := v |} = Some 1)
    by (eexists; split; vm_compute; reflexivity).
  assert (E2 : exists v, demo_second.1 = Ok v /\ accepted_counter "u" rfc_secret
    {| en_time := 119 * second; en_attempt := demo_sign_in "969429"; en_verdict := v |} = Some 3)
    by (eexists; split; vm_compute; reflexivity).
  destruct E1 as (v1 & E1 & H1), E2 as (v2 & E2 & H2).
  assert (R := codes_settle [] "u" demo_accounts _ _ _ _ _ _
    (codes_settle [] "u" demo_accounts _ _ _ _ v1 _ (codes_start [] "u" demo_accounts) (ran _ _ E1)) (ran _ _ E2)).
  eexists. split; [exact R|].
  match type of R with codes_run _ _ _ _ ?log _ => assert (L : omap (accepted_counter "u" rfc_secret) log = [1; 3]) end.
  { cbn [app omap list_omap]. unfold accepted_counter in *. cbn [en_verdict] in *. by rewrite H1, H2. }
  split; [exact L|]. rewrite <- L. exact (codes_never_reused _ "u" _ _ _ _ rfc_secret R).
Defined.

(** The code of 59 s is accepted and its counter recorded. *)
Lemma accepted_sign_in_proved_witness :
  exists l, demo_first.1 = Ok (Accepted l (Some 1)) /\ counter_of (account_id l) (store demo_first.2) = Some 1.
Proof.
  assert (E : exists l, demo_first.1 = Ok (Accepted l (Some 1))) by (eexists; vm_compute; reflexivity).
  destruct E as (l & E). exists l. split; [exact E|].
  exact (proj1 (proj2 (accepted_sign_in_proved _ _ _ _ _ _ (ran _ _ E)))).
Defined.
