(* ===== verification/Durable.v ===== *)
(** * Crash-durable replacement of files (src/openstack_platform/durable.py)

    One directory as the operating system keeps it: the name of an entry has a
    current file and, since the directory was last synced, every file it has
    had; a file's bytes are certain after a crash only once it was synced.  A
    crash leaves for each name one of its possible files, independently of the
    others.  [past] is the state at each system call, the points where a crash
    can fall; any system call may fail with [OSError] and [write] may be short,
    as the environment ([fails], [accepts]) decides. *)

From stdpp Require Import gmap.
From S2P Require Import Prelude.

Inductive kind := Regular | Link | Other.

Record Inode := {
  i_kind : kind;
  i_owned : bool;          (* by the current user *)
  i_mode : Z;
  i_data : list ascii;
  i_synced : bool;
}.

(** The entries of the directory: the current file first. *)
Abbreviation entries := (gmap string (list (option nat))).

Record Fs := {
  inodes : gmap nat Inode;
  names : entries;
  next_inode : nat;
  root_direct : bool;      (* opens as a directory, not through a link *)
  root_owned : bool;
  umask : Z;
  fails : nat -> bool;
  accepts : nat -> nat;
  calls : nat;
  past : list (gmap nat Inode * entries);
}.

Definition with_disk (i : gmap nat Inode) (n : entries) (s : Fs) : Fs := {|
  inodes := i; names := n; next_inode := next_inode s; root_direct := root_direct s;
  root_owned := root_owned s; umask := umask s; fails := fails s; accepts := accepts s;
  calls := calls s; past := past s |}.

Definition with_next (n : nat) (s : Fs) : Fs := {|
  inodes := inodes s; names := names s; next_inode := n; root_direct := root_direct s;
  root_owned := root_owned s; umask := umask s; fails := fails s; accepts := accepts s;
  calls := calls s; past := past s |}.

Definition called (s : Fs) : Fs := {|
  inodes := inodes s; names := names s; next_inode := next_inode s; root_direct := root_direct s;
  root_owned := root_owned s; umask := umask s; fails := fails s; accepts := accepts s;
  calls := S (calls s); past := (inodes s, names s) :: past s |}.

(** ** System calls *)

Definition values (n : string) (d : entries) : list (option nat) := default [None] (d !! n).
Definition current (n : string) (s : Fs) : option nat := default None (head (values n (names s))).

Definition sys {A} (m : M Fs A) : M Fs A := fun s =>
  let s' := called s in if fails s (calls s) then (Raise OSError, s') else m s'.

Definition set_entry (n : string) (v : option nat) : M Fs unit := fun s =>
  (Ok tt, with_disk (inodes s) (<[n := v :: values n (names s)]> (names s)) s).

Definition set_inode (i : nat) (f : Inode -> Inode) : M Fs unit := fun s =>
  (Ok tt, with_disk (alter f i (inodes s)) (names s) s).

(** [os.path.lexists] *)
Definition lexists (n : string) : M Fs bool :=
  gets (fun s => match current n s with Some _ => true | None => false end).

(** [os.open(path, O_RDONLY | O_NOFOLLOW)] *)
Definition open_file (n : string) : M Fs nat := sys (fun s =>
  match current n s with
  | Some i =>
      match inodes s !! i with
      | Some x => (match i_kind x with Link => Raise OSError | _ => Ok i end, s)
      | None => (Raise OSError, s)
      end
  | None => (Raise OSError, s)
  end).

Definition fstat (i : nat) : M Fs Inode := sys (fun s =>
  (match inodes s !! i with Some x => Ok x | None => Raise OSError end, s)).

(** [os.open(path, O_WRONLY | O_CREAT | O_EXCL | O_NOFOLLOW, mode)] *)
Definition create (n : string) (mode : Z) : M Fs nat := sys (fun s =>
  match current n s with
  | Some _ => (Raise OSError, s)
  | None =>
      let i := next_inode s in
      let x := {| i_kind := Regular; i_owned := true; i_mode := Z.ldiff mode (umask s); i_data := []; i_synced := false |} in
      (Ok i, with_next (S i) (with_disk (<[i := x]> (inodes s)) (<[n := Some i :: values n (names s)]> (names s)) s))
  end).

Definition fchmod (i : nat) (mode : Z) : M Fs unit := sys (set_inode i (fun x =>
  {| i_kind := i_kind x; i_owned := i_owned x; i_mode := mode; i_data := i_data x; i_synced := false |})).

(** [os.write]: as many bytes as the system takes *)
Definition write (i : nat) (view : list ascii) : M Fs nat := sys (fun s =>
  let k := Nat.min (accepts s (calls s)) (length view) in
  (Ok k, (set_inode i (fun x =>
    {| i_kind := i_kind x; i_owned := i_owned x; i_mode := i_mode x; i_data := i_data x ++ take k view;
       i_synced := false |}) s).2)).

Definition fsync_file (i : nat) : M Fs unit := sys (set_inode i (fun x =>
  {| i_kind := i_kind x; i_owned := i_owned x; i_mode := i_mode x; i_data := i_data x; i_synced := true |})).

Definition fsync_directory : M Fs unit := sys (fun s =>
  (Ok tt, with_disk (inodes s) (take 1 <$> names s) s)).

Definition unlink_file (n : string) : M Fs unit := sys (fun s =>
  match current n s with None => (Raise OSError, s) | Some _ => set_entry n None s end).

(** [os.replace]: nothing happens when both names are links of one file. *)
Definition replace_file (source destination : string) : M Fs unit := sys (fun s =>
  match current source s with
  | None => (Raise OSError, s)
  | Some i =>
      if bool_decide (current destination s = Some i) then (Ok tt, s)
      else (_ ← set_entry destination (Some i); set_entry source None) s
  end).

(** ** The module *)

(** [except OSError as error: raise DurableReplaceError(message) from error] *)
Definition as_durable {A} (message : string) (m : M Fs A) : M Fs A :=
  catch m (fun e => raise match e with OSError => DurableReplaceError message | _ => e end).

Definition _directory_fd : M Fs unit :=
  _ ← as_durable "replacement directory could not be opened safely"
        (sys (fun s => (if root_direct s then Ok tt else Raise OSError, s)));
  owned ← sys (gets root_owned);
  require owned (DurableReplaceError "replacement directory must be direct and current-user-owned").

Definition unexpected (x : Inode) (mode : Z) (maximum_bytes : option nat) : bool :=
  match i_kind x with Regular => false | _ => true end || negb (i_owned x) || negb (i_mode x =? mode)
  || match maximum_bytes with Some m => (m <? length (i_data x))%nat | None => false end.

Definition validate_file (n : string) (mode : Z) (maximum_bytes : option nat) : M Fs Inode :=
  i ← as_durable "replacement file could not be opened safely" (open_file n);
  metadata ← fstat i;
  if unexpected metadata mode maximum_bytes then
    raise (DurableReplaceError "replacement file has an unexpected type, owner, mode, or size")
  else mret metadata.

Definition _validate_destination (n : string) (mode : Z) (maximum_bytes : option nat) : M Fs unit :=
  found ← lexists n;
  if found : bool then _ ← validate_file n mode maximum_bytes; mret tt else mret tt.

Definition _remove_stale (n : string) (mode : Z) : M Fs unit :=
  found ← lexists n;
  if found : bool then
    _ ← validate_file n mode None;
    as_durable "stale replacement file could not be removed durably" (_ ← unlink_file n; fsync_directory)
  else mret tt.

(** [while view: ...]; each turn writes a byte at least, so the length of the
    payload is fuel enough ([write_all_done]). *)
Fixpoint write_all (fuel : nat) (i : nat) (view : list ascii) : M Fs unit :=
  match view, fuel with
  | [], _ => mret tt
  | _, O => raise AssertionError
  | _, S fuel' =>
      written ← write i view;
      if Nat.eqb written 0 then raise (DurableReplaceError "replacement write made no progress")
      else write_all fuel' i (drop written view)
  end.

Definition temporary (n : string) : string := "." +:+ n +:+ ".tmp".

Definition changed (x : Inode) (mode : Z) (payload : list ascii) : bool :=
  unexpected x mode None || negb (Nat.eqb (length (i_data x)) (length payload)).

(** The [try] block up to [os.replace] *)
Definition replacing (n : string) (payload : list ascii) (mode : Z) (maximum_bytes : nat) : M Fs unit :=
  _ ← _validate_destination n mode (Some maximum_bytes);
  _ ← _remove_stale (temporary n) mode;
  i ← create (temporary n) mode;
  _ ← fchmod i mode;
  _ ← write_all (length payload) i payload;
  _ ← fsync_file i;
  metadata ← fstat i;
  if changed metadata mode payload
  then raise (DurableReplaceError "replacement temporary file changed before rename")
  else replace_file (temporary n) n.

(** The [finally] block of a replacement that was not renamed *)
Definition discard_temporary (n : string) (mode : Z) : M Fs unit :=
  found ← lexists (temporary n);
  if found : bool then
    catch (_ ← validate_file (temporary n) mode None; _ ← unlink_file (temporary n); fsync_directory)
      (fun e => match e with OSError | DurableReplaceError _ => mret tt | _ => raise e end)
  else mret tt.

Definition atomic_write (n : string) (payload : list ascii) (mode : Z) (maximum_bytes : nat) : M Fs unit :=
  if (maximum_bytes <? length payload)%nat
  then raise (DurableReplaceError "replacement payload exceeds its configured size limit")
  else
    _ ← _directory_fd;
    _ ← as_durable "crash-durable file replacement failed" (catch (replacing n payload mode maximum_bytes)
          (fun e => _ ← discard_temporary n mode; raise e));
    as_durable "crash-durable file replacement failed" fsync_directory.

(** Both names are in one directory ([same_directory]). *)
Definition commit_prepared (same_directory : bool) (source destination : string) (mode : Z) (maximum_bytes : nat)
    : M Fs unit :=
  if negb same_directory
  then raise (DurableReplaceError "prepared replacement must share the destination directory")
  else
    _ ← _directory_fd;
    as_durable "prepared file could not be committed durably" (
      _ ← _validate_destination destination mode (Some maximum_bytes);
      i ← open_file source;
      metadata ← fstat i;
      if unexpected metadata mode (Some maximum_bytes)
      then raise (DurableReplaceError "prepared replacement has an unexpected type, owner, mode, or size")
      else
        _ ← fsync_file i;
        _ ← replace_file source destination;
        fsync_directory).
