(* ===== verification/DurableSpec.v ===== *)
(** * Properties of crash-durable replacement

    Wherever a crash falls, a replaced file holds what it held before or the
    whole new contents; a call that returned is durable. *)

From stdpp Require Import gmap.
From S2P Require Import Prelude Durable.

(** ** What a crash can leave *)

Abbreviation disk := (gmap nat Inode * entries)%type.

(** What the name can hold after a crash: nothing, or a mode and bytes *)
Definition may_hold (n : string) (d : disk) (o : option (Z * list ascii)) : Prop :=
  exists v, In v (values n d.2) /\
  match v with
  | None => o = None
  | Some i => exists x mode data, d.1 !! i = Some x /\ o = Some (mode, data)
      /\ (i_synced x = true -> mode = i_mode x /\ data = i_data x)
  end.

Definition disk_of (s : Fs) : disk := (inodes s, names s).

(** The entry is durable: one possible file, synced. *)
Definition settled (n : string) (s : Fs) : Prop :=
  exists v, values n (names s) = [v] /\
  forall i, v = Some i -> (i < next_inode s)%nat /\ exists x, inodes s !! i = Some x /\ i_synced x = true.

Definition old_or_whole (n : string) (s : Fs) (whole : Z * list ascii) (d : disk) : Prop :=
  forall o, may_hold n d o -> may_hold n (disk_of s) o \/ o = Some whole.

Lemma settled_holds n s i x : values n (names s) = [Some i] -> inodes s !! i = Some x -> i_synced x = true ->
  forall o, may_hold n (disk_of s) o <-> o = Some (i_mode x, i_data x).
Proof.
  intros Hv Hx Hs o. unfold may_hold, disk_of. cbn [fst snd]. rewrite Hv. split.
  - intros (v & [<-|[]] & y & mode & data & Hy & -> & Hd). rewrite Hx in Hy. injection Hy as <-. by destruct (Hd Hs) as [-> ->].
  - intros ->. exists (Some i). split; [by left|]. by exists x, (i_mode x), (i_data x).
Qed.

Definition io_error (e : error) : Prop := e = OSError \/ exists m, e = DurableReplaceError m.

(** ** Values of the directory *)

Lemma values_set n m v (d : entries) : values n (<[m := v]> d) = if decide (m = n) then v else values n d.
Proof. unfold values. destruct (decide (m = n)) as [->|H]; [by rewrite lookup_insert_eq|by rewrite lookup_insert_ne]. Qed.

Lemma values_synced n (d : entries) : values n (take 1 <$> d) = take 1 (values n d).
Proof. unfold values. rewrite lookup_fmap. by destruct (d !! n). Qed.

Lemma temporary_ne n : temporary n <> n.
Proof.
  intros H. apply (f_equal String.length) in H. unfold temporary in H.
  assert (Hl : forall a b, String.length (a +:+ b) = (String.length a + String.length b)%nat)
    by (induction a; simpl; intros; [done|by rewrite IHa]).
  rewrite !Hl in H. simpl in H. lia.
Qed.

(** ** While the entry of [n] stays *)

Section Untouched.
Context (n : string) (s0 : Fs) (v : option nat) (good : disk -> Prop).
Hypothesis kept_good : forall s, values n (names s) = [v] ->
  (forall i, v = Some i -> inodes s !! i = inodes s0 !! i) -> good (disk_of s).

(** The durable entry is as it was, and every crash point so far was good. *)
Definition kept (s : Fs) : Prop :=
  values n (names s) = [v]
  /\ (forall i, v = Some i -> inodes s !! i = inodes s0 !! i /\ (i < next_inode s)%nat)
  /\ exists new, past s = new ++ past s0 /\ Forall good new.

(** It stays so, and what is raised is an error of the module. *)
Definition keeps {A} (m : M Fs A) : Prop := forall s, kept s ->
  kept (m s).2 /\ forall e, (m s).1 = Raise e -> io_error e.

Lemma kept_called s : kept s -> kept (called s).
Proof.
  intros (Hv & Hi & new & Hp & Hf). split_and!; [done|done|]. exists (disk_of s :: new). split; [by simpl; rewrite Hp|].
  constructor; [|done]. apply kept_good; [done|]. intros i Hvi. by destruct (Hi i Hvi).
Qed.

(** A call that changes neither the entry, its file, nor the record of crash points *)
Lemma kept_disk s s' : kept s -> past s' = past s -> values n (names s') = values n (names s) ->
  (next_inode s <= next_inode s')%nat ->
  (forall i, v = Some i -> inodes s' !! i = inodes s !! i) -> kept s'.
Proof.
  intros (Hv & Hi & Hp) Hp' Hv' Hn Hi'. split_and!; [by rewrite Hv'| |by rewrite Hp'].
  intros i E. rewrite (Hi' i E). destruct (Hi i E). split; [done|lia].
Qed.

Lemma keeps_sys {A} (m : M Fs A) : keeps m -> keeps (sys m).
Proof.
  intros H s Hs. unfold sys. destruct (fails s (calls s)); [|by apply H, kept_called].
  split; [by apply kept_called|]. intros e [= <-]. by left.
Qed.

Lemma keeps_bind {A B} (m : M Fs A) (f : A -> M Fs B) : keeps m -> (forall a, keeps (f a)) -> keeps (m ≫= f).
Proof.
  intros Hm Hf s Hs. unfold mbind, M_bind. destruct (Hm s Hs) as [Hk He]. destruct (m s) as [[a|e] s1]; [by apply Hf|].
  split; [done|]. intros e' [= <-]. by apply He.
Qed.

Lemma keeps_catch {A} (m : M Fs A) h : keeps m -> (forall e, io_error e -> keeps (h e)) -> keeps (catch m h).
Proof.
  intros Hm Hf s Hs. unfold catch. destruct (Hm s Hs) as [Hk He]. destruct (m s) as [[a|e] s1]; [done|]. apply Hf; [|done]. by apply He.
Qed.

Lemma keeps_ret {A} (a : A) : keeps (mret a).
Proof. by intros s. Qed.
Lemma keeps_raise {A} e : io_error e -> keeps (raise e : M Fs A).
Proof. intros He s Hs. split; [done|]. by intros e' [= <-]. Qed.
Lemma keeps_error {A} t : keeps (raise (DurableReplaceError t) : M Fs A).
Proof. apply keeps_raise. right. by exists t. Qed.
Lemma keeps_gets {A} (f : Fs -> A) : keeps (gets f).
Proof. by intros s. Qed.
Lemma keeps_lexists m : keeps (lexists m).
Proof. apply keeps_gets. Qed.
Lemma keeps_require b t : keeps (require b (DurableReplaceError t) : M Fs unit).
Proof. destruct b; [apply (keeps_ret tt)|apply (@keeps_error unit)]. Qed.

Lemma keeps_as_durable {A} t (m : M Fs A) : keeps m -> keeps (as_durable t m).
Proof.
  intros Hm. apply keeps_catch; [done|]. intros e He. apply keeps_raise.
  destruct He as [->|[x ->]]; right; by eexists.
Qed.

Lemma keeps_result {A} (f : Fs -> result A) :
  (forall s e, f s = Raise e -> io_error e) -> keeps (fun s => (f s, s)).
Proof. intros Hf s Hs. split; [done|]. apply Hf. Qed.

Lemma keeps_open m : keeps (open_file m).
Proof.
  apply keeps_sys. intros s Hs. destruct (current m s) as [i|]; [destruct (inodes s !! i) as [x|]|];
    (split; [done|]); simpl; [destruct (i_kind x)| |]; intros e [= <-]; by left.
Qed.

Lemma keeps_fstat i : keeps (fstat i).
Proof. apply keeps_sys, keeps_result. intros s e H. destruct (inodes s !! i); [done|]. injection H as <-. by left. Qed.

Lemma keeps_fsync_directory : keeps fsync_directory.
Proof.
  apply keeps_sys. intros s Hs. split; [|done]. apply (kept_disk s); [done..| |done|done]. simpl. rewrite values_synced.
  by destruct Hs as (-> & _).
Qed.

Lemma keeps_entry m x : m <> n -> keeps (set_entry m x).
Proof.
  intros Hm s Hs. split; [|done]. apply (kept_disk s); [done..| |done|done]. simpl. rewrite values_set.
  by destruct (decide (m = n)).
Qed.

Lemma keeps_unlink m : m <> n -> keeps (unlink_file m).
Proof.
  intros Hm. apply keeps_sys. intros s Hs. destruct (current m s); [by apply (keeps_entry m None)|].
  split; [done|]. intros e [= <-]. by left.
Qed.

Lemma keeps_create m mode : m <> n -> keeps (create m mode).
Proof.
  intros Hm. apply keeps_sys. intros s Hs. destruct (current m s); [split; [done|]; intros e [= <-]; by left|].
  split; [|done]. apply (kept_disk s); [done|done| |simpl; lia|].
  - simpl. rewrite values_set. by destruct (decide (m = n)).
  - intros i E. simpl. apply lookup_insert_ne. destruct Hs as (_ & Hi & _). destruct (Hi i E). lia.
Qed.

Lemma keeps_inode i f : Some i <> v -> keeps (set_inode i f).
Proof.
  intros Hi s Hs. split; [|done]. apply (kept_disk s); [done..|]. intros j E. simpl. apply lookup_alter_ne. congruence.
Qed.

Lemma keeps_fchmod i mode : Some i <> v -> keeps (fchmod i mode).
Proof. intros. by apply keeps_sys, keeps_inode. Qed.
Lemma keeps_fsync_file i : Some i <> v -> keeps (fsync_file i).
Proof. intros. by apply keeps_sys, keeps_inode. Qed.
Lemma keeps_write i view : Some i <> v -> keeps (write i view).
Proof. intros Hi. apply keeps_sys. intros s Hs. split; [|done]. by apply keeps_inode. Qed.

Lemma keeps_validate m mode maximum : keeps (validate_file m mode maximum).
Proof.
  apply keeps_bind; [apply keeps_as_durable, keeps_open|]. intros i. apply keeps_bind; [apply keeps_fstat|]. intros x.
  destruct (unexpected _ _ _); [apply keeps_error|apply keeps_ret].
Qed.

Lemma keeps_destination m mode maximum : keeps (_validate_destination m mode maximum).
Proof.
  apply keeps_bind; [apply keeps_lexists|]. intros []; [|apply keeps_ret].
  apply keeps_bind; [apply keeps_validate|]. intros x. apply keeps_ret.
Qed.

Lemma keeps_stale m mode : m <> n -> keeps (_remove_stale m mode).
Proof.
  intros Hm. apply keeps_bind; [apply keeps_lexists|]. intros []; [|apply keeps_ret].
  apply keeps_bind; [apply keeps_validate|]. intros x.
  apply keeps_as_durable, keeps_bind; [by apply keeps_unlink|]. intros _. apply keeps_fsync_directory.
Qed.

Lemma keeps_discard mode : keeps (discard_temporary n mode).
Proof.
  apply keeps_bind; [apply keeps_lexists|]. intros []; [|apply keeps_ret]. apply keeps_catch.
  - apply keeps_bind; [apply keeps_validate|]. intros x.
    apply keeps_bind; [apply keeps_unlink, temporary_ne|]. intros _. apply keeps_fsync_directory.
  - intros e [->|[t ->]]; apply keeps_ret.
Qed.

Lemma keeps_directory : keeps _directory_fd.
Proof.
  apply keeps_bind; [apply keeps_as_durable, keeps_sys, keeps_result; intros s e H; destruct (root_direct s);
    [done|injection H as <-; by left]|].
  intros _. apply keeps_bind; [apply keeps_sys, keeps_gets|]. intros b. apply keeps_require.
Qed.

(** ** The new file *)

Definition holds (i : nat) (x : Inode) (s : Fs) : Prop :=
  current (temporary n) s = Some i /\ Some i <> v /\ inodes s !! i = Some x /\ (i < next_inode s)%nat.

Definition file (mode : Z) (data : list ascii) (synced : bool) : Inode :=
  {| i_kind := Regular; i_owned := true; i_mode := mode; i_data := data; i_synced := synced |}.

Lemma sys_ok {A} (m : M Fs A) s a s' : sys m s = (Ok a, s') -> m (called s) = (Ok a, s').
Proof. unfold sys. by destruct (fails s (calls s)). Qed.

Lemma created mode s i s' : kept s -> create (temporary n) mode s = (Ok i, s') ->
  exists m, holds i (file m [] false) s'.
Proof.
  intros (_ & Hi & _) H. apply sys_ok in H. destruct (current _ (called s)); [done|]. injection H as <- <-.
  exists (Z.ldiff mode (umask s)). unfold holds, current. simpl. rewrite values_set, decide_True by done.
  split_and!; [done| |by rewrite lookup_insert_eq|lia]. intros E. destruct (Hi _ (eq_sym E)). lia.
Qed.

Lemma altered f i x s s' : holds i x s -> sys (set_inode i f) s = (Ok tt, s') -> holds i (f x) s'.
Proof.
  intros (Hc & Hv & Hx & Hn) H. apply sys_ok in H. injection H as <-. split_and!; [done|done| |done].
  simpl. by rewrite lookup_alter_eq, Hx.
Qed.

Lemma written i mode data b view s k s' : holds i (file mode data b) s -> write i view s = (Ok k, s') ->
  holds i (file mode (data ++ take k view) false) s'.
Proof.
  intros (Hc & Hv & Hx & Hn) H. apply sys_ok in H. injection H as <- <-. split_and!; [done|done| |done].
  simpl. rewrite lookup_alter_eq. cbn -[take Nat.min] in Hx. rewrite Hx. done.
Qed.

(** The loop writes everything, and never runs out of fuel. *)
Lemma write_all_done i mode view : forall fuel data b s u s', holds i (file mode data b) s ->
  write_all fuel i view s = (Ok u, s') -> exists b', holds i (file mode (data ++ view) b') s'.
Proof.
  intros fuel. revert view. induction fuel as [|fuel IH]; intros [|a view] data b s u s' Hh H; simpl in H; try done.
  - injection H as _ <-. exists b. by rewrite app_nil_r.
  - injection H as _ <-. exists b. by rewrite app_nil_r.
  - apply bind_ok in H as (k & s1 & Hw & H). destruct (Nat.eqb k 0); [done|].
    apply (written _ _ _ _ _ _ _ _ Hh) in Hw. destruct (IH _ _ _ _ _ _ Hw H) as [b' Hb]. exists b'.
    by rewrite <- app_assoc, take_drop in Hb.
Qed.

Lemma keeps_write_all i view : Some i <> v -> forall fuel, (length view <= fuel)%nat -> keeps (write_all fuel i view).
Proof.
  intros Hi fuel. revert view. induction fuel as [|fuel IH]; intros [|a view] Hl; simpl in *; try apply keeps_ret; [lia|].
  apply keeps_bind; [by apply keeps_write|]. intros k. destruct (Nat.eqb_spec k 0); [apply keeps_error|].
  apply IH. rewrite length_drop. simpl. lia.
Qed.
End Untouched.

(** ** The rename *)

(** The state the rename leaves: the new file, and the old one until the directory is synced *)
Definition renamed (n : string) (v : option nat) (i : nat) (x : Inode) (s : Fs) : Prop :=
  values n (names s) = [Some i; v] /\ inodes s !! i = Some x /\ i_synced x = true /\ (i < next_inode s)%nat.

Section Replacing.
Context (n : string) (s0 : Fs) (v : option nat) (good : disk -> Prop).
Hypothesis kept_good : forall s, values n (names s) = [v] ->
  (forall i, v = Some i -> inodes s !! i = inodes s0 !! i) -> good (disk_of s).

Abbreviation kept := (kept n s0 v good).

Lemma replaced i x source s s' : kept s -> current source s = Some i -> source <> n -> Some i <> v ->
  inodes s !! i = Some x -> i_synced x = true -> (i < next_inode s)%nat -> replace_file source n s = (Ok tt, s') ->
  renamed n v i x s' /\ inodes s' = inodes s
  /\ (exists new, past s' = new ++ past s0 /\ Forall good new).
Proof.
  intros Hk Hc Hn Hv Hx Hs Hl H. pose proof (kept_called n s0 v good kept_good s Hk) as (_ & _ & Hp).
  destruct Hk as (Hval & _ & _). apply sys_ok in H. change (current source (called s)) with (current source s) in H.
  rewrite Hc in H. change (current n (called s)) with (current n s) in H.
  assert (Hcur : current n s = v) by (unfold current; by rewrite Hval). rewrite Hcur in H.
  rewrite bool_decide_false in H by congruence. injection H as <-. split_and!; [|done|exact Hp]. split_and!; [|done|done|done].
  simpl. rewrite !values_set. rewrite decide_False by done. rewrite decide_True by done. by rewrite Hval.
Qed.

Lemma replacing_ok payload mode maximum s s' : kept s -> replacing n payload mode maximum s = (Ok tt, s') ->
  (exists i, renamed n v i (file mode payload true) s') /\ (exists s1, kept s1 /\ inodes s' = inodes s1)
  /\ (exists new, past s' = new ++ past s0 /\ Forall good new).
Proof.
  intros Hk H. unfold replacing in H. pose proof (temporary_ne n) as Hne.
  apply bind_ok in H as ([] & s1 & H1 & H).
  assert (Hk1 := proj1 (keeps_destination n s0 v good kept_good n mode (Some maximum) s Hk)). rewrite H1 in Hk1.
  apply bind_ok in H as ([] & s2 & H2 & H).
  assert (Hk2 := proj1 (keeps_stale n s0 v good kept_good _ mode Hne s1 Hk1)). rewrite H2 in Hk2.
  apply bind_ok in H as (i & s3 & H3 & H).
  assert (Hk3 := proj1 (keeps_create n s0 v good kept_good _ mode Hne s2 Hk2)). rewrite H3 in Hk3.
  destruct (created n s0 v good mode s2 i s3 Hk2 H3) as [m Hh3]. assert (Hi : Some i <> v) by apply Hh3.
  apply bind_ok in H as ([] & s4 & H4 & H).
  assert (Hk4 := proj1 (keeps_fchmod n s0 v good kept_good i mode Hi s3 Hk3)). rewrite H4 in Hk4.
  apply (altered n v _ _ _ _ _ Hh3) in H4 as Hh4.
  apply bind_ok in H as ([] & s5 & H5 & H).
  assert (Hk5 := proj1 (keeps_write_all n s0 v good kept_good i payload Hi _ (le_n _) s4 Hk4)). rewrite H5 in Hk5.
  apply (write_all_done n v i mode payload _ [] false s4 tt s5 Hh4) in H5 as [b Hh5].
  apply bind_ok in H as ([] & s6 & H6 & H).
  assert (Hk6 := proj1 (keeps_fsync_file n s0 v good kept_good i Hi s5 Hk5)). rewrite H6 in Hk6.
  apply (altered n v _ _ _ _ _ Hh5) in H6 as Hh6. cbn in Hh6.
  apply bind_ok in H as (x & s7 & H7 & H).
  assert (Hk7 := proj1 (keeps_fstat n s0 v good kept_good i s6 Hk6)). rewrite H7 in Hk7.
  apply sys_ok in H7. destruct Hh6 as (Hc & _ & Hx & Hl).
  change (inodes (called s6)) with (inodes s6) in H7. rewrite Hx in H7. injection H7 as <- <-.
  destruct (changed _ mode payload); [done|].
  destruct (replaced i _ _ _ _ Hk7 Hc Hne Hi Hx eq_refl Hl H) as (Hr & Hin & Hp).
  split_and!; [by exists i| |done]. by exists (called s6).
Qed.

Definition raises_kept {A} (m : M Fs A) : Prop := forall s e s', kept s -> m s = (Raise e, s') -> kept s' /\ io_error e.

Lemma raises_keeps {A} (m : M Fs A) : keeps n s0 v good m -> raises_kept m.
Proof. intros Hm s e s' Hs H. destruct (Hm s Hs) as [Hk He]. rewrite H in Hk, He. split; [done|by apply He]. Qed.

Lemma raises_bind {A B} (m : M Fs A) (f : A -> M Fs B) : keeps n s0 v good m ->
  (forall s a s', kept s -> m s = (Ok a, s') -> raises_kept (f a)) -> raises_kept (m ≫= f).
Proof.
  intros Hm Hf s e s' Hs H. apply bind_raise in H as [H|(a & s1 & H1 & H)]; [by apply (raises_keeps m Hm s)|].
  pose proof (proj1 (Hm s Hs)) as Hk. rewrite H1 in Hk. by apply (Hf s a s1 Hs H1 s1).
Qed.

Lemma replace_raises source : raises_kept (replace_file source n).
Proof.
  intros s e s' Hs H. unfold replace_file, sys in H. pose proof (kept_called n s0 v good kept_good s Hs) as Hc.
  destruct (fails s (calls s)); [injection H as <- <-; split; [done|by left]|].
  destruct (current source (called s)); [|injection H as <- <-; split; [done|by left]].
  by destruct (bool_decide _).
Qed.

Lemma replacing_raises payload mode maximum : raises_kept (replacing n payload mode maximum).
Proof.
  pose proof (temporary_ne n) as Hne.
  apply raises_bind; [by apply keeps_destination|]. intros _ _ _ _ _.
  apply raises_bind; [by apply keeps_stale|]. intros _ _ _ _ _.
  apply raises_bind; [by apply keeps_create|]. intros s i s' Hs H.
  destruct (created n s0 v good mode s i s' Hs H) as (m & _ & Hi & _ & _). clear s s' Hs H.
  apply raises_bind; [by apply keeps_fchmod|]. intros _ _ _ _ _.
  apply raises_bind; [by apply keeps_write_all|]. intros _ _ _ _ _.
  apply raises_bind; [by apply keeps_fsync_file|]. intros _ _ _ _ _.
  apply raises_bind; [by apply keeps_fstat|]. intros _ x _ _ _.
  destruct (changed x mode payload); [|apply replace_raises]. apply raises_keeps, keeps_error.
Qed.
End Replacing.

(** ** The two calls *)

Section Calls.
Context (n : string) (s0 : Fs) (v : option nat) (whole : Z * list ascii).
Hypothesis initially : values n (names s0) = [v].

Abbreviation good := (old_or_whole n s0 whole).

Lemma kept_is_old s : values n (names s) = [v] -> (forall i, v = Some i -> inodes s !! i = inodes s0 !! i) ->
  good (disk_of s).
Proof.
  intros Hv Hi o (w & Hw & H). left. exists w. cbn [fst snd disk_of] in *. rewrite Hv in Hw.
  rewrite initially. split; [done|]. destruct Hw as [<-|[]]. destruct v as [i|]; [|done]. by rewrite <- (Hi i).
Qed.

Lemma kept_first : (forall i, v = Some i -> (i < next_inode s0)%nat) -> kept n s0 v good s0.
Proof. intros Hn. split_and!; [done| |by exists []]. intros i E. split; [done|by apply Hn]. Qed.

Lemma renamed_good i x s : renamed n v i x s -> whole = (i_mode x, i_data x) ->
  (forall j, v = Some j -> inodes s !! j = inodes s0 !! j) -> good (disk_of s).
Proof.
  intros (Hv & Hx & Hs & _) Hw Hi o (w & Hin & H). cbn [fst snd disk_of] in *. rewrite Hv in Hin.
  destruct Hin as [<-|[<-|[]]].
  - right. destruct H as (y & mode & data & Hy & -> & Hd). rewrite Hx in Hy. injection Hy as <-.
    destruct (Hd Hs) as [-> ->]. by rewrite Hw.
  - left. exists v. cbn [fst snd disk_of]. rewrite initially. split; [by left|]. destruct v as [j|]; [|done]. by rewrite <- (Hi j).
Qed.

Definition outcome (r : result unit) (s' : Fs) : Prop :=
  (exists new, past s' = new ++ past s0 /\ Forall good (disk_of s' :: new))
  /\ match r with
     | Ok _ => settled n s' /\ forall o, may_hold n (disk_of s') o <-> o = Some whole
     | Raise e => io_error e
     end.

Lemma outcome_kept e s' : kept n s0 v good s' -> io_error e -> outcome (Raise e) s'.
Proof.
  intros (Hv & Hi & new & Hp & Hf) He. split; [|done]. exists new. split; [done|]. constructor; [|done].
  apply kept_is_old; [done|]. intros i E. by destruct (Hi i E).
Qed.

(** Syncing the directory after the rename *)
Lemma outcome_synced i x s r s' : renamed n v i x s -> whole = (i_mode x, i_data x) ->
  (forall j, v = Some j -> inodes s !! j = inodes s0 !! j) ->
  (exists new, past s = new ++ past s0 /\ Forall good new) ->
  fsync_directory s = (r, s') -> outcome r s'.
Proof.
  intros Hr Hw Hi (new & Hp & Hf) H. pose proof (renamed_good i x s Hr Hw Hi) as Hg.
  destruct Hr as (Hv & Hx & Hs & Hn). unfold fsync_directory, sys in H.
  destruct (fails s (calls s)); injection H as <- <-.
  - split; [|by left]. exists (disk_of s :: new). split; [by simpl; rewrite Hp|]. by constructor; [|constructor].
  - assert (Hv' : values n (take 1 <$> names s) = [Some i]) by (by rewrite values_synced, Hv).
    assert (Hh : forall o, may_hold n (inodes s, take 1 <$> names s) o <-> o = Some whole).
    { intros o. rewrite Hw. apply (settled_holds n (with_disk (inodes s) (take 1 <$> names s) s) i x Hv' Hx Hs). }
    split; [|split; [|exact Hh]].
    + exists (disk_of s :: new). split; [by simpl; rewrite Hp|]. constructor; [|by constructor].
      intros o Ho. right. by apply Hh.
    + exists (Some i). split; [done|]. intros j [= <-]. split; [done|]. by exists x.
Qed.

(** One more step before the rename *)
Lemma outcome_step {A} (m : M Fs A) (f : A -> M Fs unit) s r s' : kept n s0 v good s -> keeps n s0 v good m ->
  (m ≫= f) s = (r, s') ->
  (outcome r s' /\ exists e, r = Raise e) \/ exists a s1, m s = (Ok a, s1) /\ kept n s0 v good s1 /\ f a s1 = (r, s').
Proof.
  intros Hk Hm H. unfold mbind, M_bind in H. destruct (Hm s Hk) as [Hk1 He].
  destruct (m s) as [[a|e] s1]; [right; by exists a, s1|left].
  injection H as <- <-. split; [|by exists e]. apply outcome_kept; [done|by apply He].
Qed.

Lemma outcome_durable t (m : M Fs unit) s r s' : as_durable t m s = (r, s') ->
  exists r0, m s = (r0, s') /\ (outcome r0 s' -> outcome r s') /\ (r = Ok tt -> r0 = Ok tt).
Proof.
  unfold as_durable, catch. destruct (m s) as [[[]|e] s1]; intros [= <- <-]; [by exists (Ok tt)|].
  exists (Raise e). split; [done|]. split; [|done]. intros [Hp He]. split; [done|]. destruct He as [->|[x ->]]; right; by eexists.
Qed.
End Calls.

(** *** Which error is raised *)

(** The directory was opened and then could not be examined; nothing else was asked. *)
Definition unexamined (s s' : Fs) : Prop :=
  root_direct s = true /\ fails s (S (calls s)) = true /\ s' = called (called s).

Lemma durable_translates {A} t (m : M Fs A) s r s' : as_durable t m s = (r, s') -> r <> Raise OSError.
Proof. unfold as_durable, catch. destruct (m s) as [[a|e] s1]; intros [= <- <-]; [done|]. by destruct e. Qed.

Lemma directory_error s s' : _directory_fd s = (Raise OSError, s') -> unexamined s s'.
Proof.
  unfold _directory_fd, mbind, M_bind. destruct (as_durable _ _ s) as [[[]|e] s1] eqn:E.
  2:{ intros [= -> <-]. exfalso. by apply (durable_translates _ _ _ _ _ E). }
  unfold as_durable, catch, sys in E. destruct (fails s (calls s)) eqn:F; [done|]. simpl in E.
  destruct (root_direct s) eqn:Hr; [|done]. injection E as <-. unfold sys. simpl.
  destruct (fails s (S (calls s))) eqn:F2; [intros [= <-]; by split_and!|]. unfold gets. simpl. by destruct (root_owned s).
Qed.

Lemma atomic_write_error n payload mode maximum s e s' : atomic_write n payload mode maximum s = (Raise e, s') -> io_error e ->
  (exists t, e = DurableReplaceError t) \/ e = OSError /\ unexamined s s'.
Proof.
  intros H [->|He]; [right|by left]. split; [done|]. unfold atomic_write in H. destruct (_ <? _)%nat; [done|].
  unfold mbind at 1, M_bind in H. destruct (_directory_fd s) as [[[]|e] s1] eqn:E; [|injection H as -> <-; by apply directory_error].
  exfalso. unfold mbind, M_bind in H. destruct (as_durable _ (catch _ _) s1) as [[[]|e] s2] eqn:E2.
  - by apply (durable_translates _ _ _ _ _ H).
  - injection H as -> <-. by apply (durable_translates _ _ _ _ _ E2).
Qed.

(** C40. A crash during [atomic_write] loses nothing.  The name starts settled:
    its entry and the file it names are on disk.  At any system call, and with any
    subset of the unsynced directory changes lost, a crash leaves under the name
    what it could hold before or the whole payload with its mode, never a part of
    it; and once the call has returned, exactly the payload, durably.  Otherwise
    it raises [DurableReplaceError], whichever system call fails, but for one:
    when the directory was opened and could not be examined, the [OSError] is
    raised as it is, before anything was asked of the files.  The same holds of
    the state it then leaves. *)
Theorem atomic_write_atomic n payload mode maximum s r s' :
  settled n s -> atomic_write n payload mode maximum s = (r, s') ->
  (exists new, past s' = new ++ past s /\ Forall (old_or_whole n s (mode, payload)) (disk_of s' :: new))
  /\ match r with
     | Ok _ => (settled n s' /\ forall o, may_hold n (disk_of s') o <-> o = Some (mode, payload))
               /\ (length payload <= maximum)%nat
     | Raise e => (exists t, e = DurableReplaceError t) \/ e = OSError /\ unexamined s s'
     end.
Proof.
  intros (v & Hv & Hd) H. assert (H0 := H). unfold atomic_write in H.
  pose proof (kept_is_old n s v (mode, payload) Hv) as Hgood.
  assert (Hn : forall i, v = Some i -> (i < next_inode s)%nat) by (intros i E; by destruct (Hd i E)).
  pose proof (kept_first n s v (mode, payload) Hv Hn) as Hk.
  destruct (maximum <? length payload)%nat eqn:Hm.
  { injection H as <- <-. destruct (outcome_kept n s v (mode, payload) Hv (DurableReplaceError "replacement payload exceeds its configured size limit") s Hk) as [K _]; [right; by eexists|].
    split; [exact K|]. left. by eexists. }
  apply Nat.ltb_ge in Hm. assert (Ho : outcome n s (mode, payload) r s').
  2:{ destruct Ho as [H1 H2]. split; [exact H1|]. destruct r; [done|]. by eapply atomic_write_error. }
  pose proof (keeps_directory n s v _ Hgood s Hk) as [Hk1 He1].
  unfold mbind at 1, M_bind in H. destruct (_directory_fd s) as [[[]|e] s1].
  2:{ injection H as <- <-. apply (outcome_kept n s v _ Hv _ _ Hk1). by apply He1. }
  unfold mbind, M_bind, as_durable at 1, catch at 1 2 in H.
  destruct (replacing n payload mode maximum s1) as [[[]|e] s2] eqn:Hr.
  - destruct (replacing_ok n s v _ Hgood _ _ _ _ _ Hk1 Hr) as ((i & Hren) & (s3 & (_ & Hi & _) & Hin) & Hp).
    apply outcome_durable with (n := n) (s0 := s) (whole := (mode, payload)) in H as (r0 & H & Hr0 & _). apply Hr0.
    eapply outcome_synced; [exact Hv|exact Hren|reflexivity| |exact Hp|exact H].
    intros j E. rewrite Hin. by destruct (Hi j E).
  - destruct (replacing_raises n s v _ Hgood _ _ _ _ _ _ Hk1 Hr) as [Hk2 He].
    pose proof (keeps_discard n s v _ Hgood mode s2 Hk2) as [Hk3 He3].
    destruct (discard_temporary n mode s2) as [[[]|e'] s3]; injection H as <- <-;
      apply (outcome_kept n s v _ Hv _ _ Hk3); [destruct He as [->|[t ->]]|destruct (He3 e' eq_refl) as [->|[t ->]]];
      right; by eexists.
Qed.

(** *** Calls that leave the disk alone *)

Definition still {A} (m : M Fs A) : Prop := forall s, disk_of (m s).2 = disk_of s /\ next_inode (m s).2 = next_inode s.

Lemma still_bind {A B} (m : M Fs A) (f : A -> M Fs B) : still m -> (forall a, still (f a)) -> still (m ≫= f).
Proof.
  intros Hm Hf s. unfold mbind, M_bind. destruct (Hm s) as [H1 H2]. destruct (m s) as [[a|e] s1]; [|done].
  destruct (Hf a s1) as [H3 H4]. split; [by rewrite H3|by rewrite H4].
Qed.

Lemma still_sys {A} (f : Fs -> result A) : still (sys (fun s => (f s, s))).
Proof. intros s. unfold sys. by destruct (fails s (calls s)). Qed.

Lemma still_as_durable {A} t (m : M Fs A) : still m -> still (as_durable t m).
Proof. intros Hm s. unfold as_durable, catch. specialize (Hm s). by destruct (m s) as [[a|e] s1]. Qed.

Lemma still_open n : still (open_file n).
Proof.
  intros s. unfold open_file, sys. destruct (fails s (calls s)); [done|].
  destruct (current n (called s)) as [i|]; [|done]. by destruct (inodes (called s) !! i).
Qed.

Lemma still_fstat i : still (fstat i).
Proof. apply still_sys. Qed.

Lemma still_destination n mode maximum : still (_validate_destination n mode maximum).
Proof.
  apply still_bind; [by intros s|]. intros []; [|by intros s]. apply still_bind; [|by intros x s].
  apply still_bind; [apply still_as_durable, still_open|]. intros i. apply still_bind; [apply still_fstat|].
  intros x. destruct (unexpected _ _ _); by intros s.
Qed.

Lemma still_directory : still _directory_fd.
Proof.
  apply still_bind; [apply still_as_durable, still_sys|]. intros _. apply still_bind; [apply (still_sys (fun s => Ok (root_owned s)))|].
  intros b. by intros s.
Qed.

Lemma still_ok {A} (m : M Fs A) s a s' : still m -> m s = (Ok a, s') ->
  inodes s' = inodes s /\ names s' = names s /\ next_inode s' = next_inode s.
Proof. intros Hm H. destruct (Hm s) as [Hd Hn]. rewrite H in Hd, Hn. by injection Hd as -> ->. Qed.

Definition sync (x : Inode) : Inode :=
  {| i_kind := i_kind x; i_owned := i_owned x; i_mode := i_mode x; i_data := i_data x; i_synced := true |}.

Lemma unexpected_mode x mode maximum : unexpected x mode (Some maximum) = false ->
  i_mode x = mode /\ (length (i_data x) <= maximum)%nat.
Proof.
  unfold unexpected. destruct (i_kind x), (i_owned x), (Z.eqb_spec (i_mode x) mode),
    (Nat.ltb_spec maximum (length (i_data x))); simpl; done.
Qed.

(** The body of [commit_prepared], from a state the old entry was kept in *)
Lemma committing n source mode maximum s0 v i x s r s' :
  values n (names s0) = [v] -> source <> n -> Some i <> v ->
  kept n s0 v (old_or_whole n s0 (i_mode x, i_data x)) s ->
  current source s = Some i -> (i < next_inode s)%nat -> inodes s !! i = Some x ->
  (_ ← _validate_destination n mode (Some maximum);
   i ← open_file source;
   metadata ← fstat i;
   if unexpected metadata mode (Some maximum)
   then raise (DurableReplaceError "prepared replacement has an unexpected type, owner, mode, or size")
   else
     _ ← fsync_file i;
     _ ← replace_file source n;
     fsync_directory) s = (r, s') ->
  outcome n s0 (i_mode x, i_data x) r s'
  /\ (r = Ok tt -> i_mode x = mode /\ (length (i_data x) <= maximum)%nat).
Proof.
  intros Hv Hne Hi Hk Hc Hl Hx H. pose proof (kept_is_old n s0 v (i_mode x, i_data x) Hv) as Hgood.
  apply (outcome_step n s0 v (i_mode x, i_data x) Hv) in H as [[Ho [e ->]]|([] & s1 & E & Hk1 & H)]; [done| |done|by apply keeps_destination].
  apply still_ok in E as (Ei & En & El); [|apply still_destination].
  apply (outcome_step n s0 v (i_mode x, i_data x) Hv) in H as [[Ho [e ->]]|(j & s2 & E & Hk2 & H)]; [done| |done|by apply keeps_open].
  assert (j = i) as ->.
  { apply sys_ok in E. unfold current in E, Hc. simpl in E. rewrite En, Hc, Ei, Hx in E. by destruct (i_kind x); injection E. }
  apply still_ok in E as (Ei2 & En2 & El2); [|apply still_open].
  apply (outcome_step n s0 v (i_mode x, i_data x) Hv) in H as [[Ho [e ->]]|(y & s3 & E & Hk3 & H)]; [done| |done|by apply keeps_fstat].
  assert (y = x) as -> by (apply sys_ok in E; simpl in E; rewrite Ei2, Ei, Hx in E; by injection E).
  apply still_ok in E as (Ei3 & En3 & El3); [|apply still_fstat].
  destruct (unexpected x mode (Some maximum)) eqn:Hu.
  { injection H as <- <-. split; [|done]. apply (outcome_kept n s0 v _ Hv _ _ Hk3). right. by eexists. }
  apply (outcome_step n s0 v (i_mode x, i_data x) Hv) in H as [[Ho [e ->]]|([] & s4 & E & Hk4 & H)]; [done| |done|by apply keeps_fsync_file].
  apply sys_ok in E. injection E as <-.
  assert (Hx4 : inodes s3 !! i = Some x) by congruence. assert (Hc4 : current source s3 = Some i) by (unfold current in *; by rewrite En3, En2, En).
  split; [|intros _; by apply unexpected_mode].
  unfold mbind, M_bind in H. destruct (replace_file source n _) as [[[]|e] s5] eqn:E in H.
  - eapply (replaced n s0 v _ Hgood i (sync x)) in E as (Hr & Hin & Hp);
      [|exact Hk4|exact Hc4|done|done|simpl; by rewrite lookup_alter_eq, Hx4|done|simpl; lia].
    eapply outcome_synced; [exact Hv|exact Hr|done| |exact Hp|exact H].
    intros j E. rewrite Hin. destruct Hk4 as (_ & Hj & _). by destruct (Hj j E).
  - injection H as <- <-. destruct (replace_raises n s0 v _ Hgood _ _ _ _ Hk4 E) as [Hk5 He].
    by apply (outcome_kept n s0 v _ Hv).
Qed.

(** A crash during [commit_prepared] leaves under the destination what it
    could hold before or the whole prepared file, even when that file was not
    synced when the call began; once the call has returned, exactly the
    prepared file, durably, with the mode and within the size asked for.  (The
    two names are not links of one file.) *)
Theorem commit_prepared_atomic n source mode maximum s i x r s' :
  settled n s -> source <> n -> current source s = Some i -> current n s <> Some i ->
  (i < next_inode s)%nat -> inodes s !! i = Some x ->
  commit_prepared true source n mode maximum s = (r, s') ->
  (exists new, past s' = new ++ past s /\ Forall (old_or_whole n s (i_mode x, i_data x)) (disk_of s' :: new))
  /\ match r with
     | Ok _ => (settled n s' /\ forall o, may_hold n (disk_of s') o <-> o = Some (i_mode x, i_data x))
               /\ i_mode x = mode /\ (length (i_data x) <= maximum)%nat
     | Raise e => io_error e
     end.
Proof.
  intros (v & Hv & Hd) Hne Hc Hcur Hl Hx H. cbn [commit_prepared negb] in H.
  assert (Hi : Some i <> v) by (intros <-; apply Hcur; unfold current; by rewrite Hv).
  assert (Hn : forall j, v = Some j -> (j < next_inode s)%nat) by (intros j E; by destruct (Hd j E)).
  pose proof (kept_is_old n s v (i_mode x, i_data x) Hv) as Hgood.
  apply (outcome_step n s v (i_mode x, i_data x) Hv) in H as [[[Hp He] [e ->]]|([] & s1 & E & Hk1 & H)];
    [done| |by apply kept_first|by apply keeps_directory].
  apply still_ok in E as (Ei & En & El); [|apply still_directory].
  apply outcome_durable with (n := n) (s0 := s) (whole := (i_mode x, i_data x)) in H as (r0 & H & Ho & Hr).
  apply (committing n source mode maximum s v i x) in H as [H1 H2]; [|done..|unfold current; by rewrite En|lia|by rewrite Ei].
  destruct (Ho H1) as [Hp He]. split; [exact Hp|]. destruct r as [[]|e]; [|done]. split; [exact He|]. by apply H2, Hr.
Qed.

(** ** A state file of three bytes, writes of two bytes at a time *)

Definition demo_fs : Fs := {|
  inodes := <[0%nat := file 384 (list_ascii_of_string "old") true]>
            (<[1%nat := file 384 (list_ascii_of_string "prepared") false]> ∅);
  names := <["state"%string := [Some 0%nat]]> (<["next"%string := [Some 1%nat; None]]> ∅);
  next_inode := 2; root_direct := true; root_owned := true; umask := 63;
  fails := fun _ => false; accepts := fun _ => 2%nat; calls := 0; past := [] |}.

Lemma demo_settled : settled "state" demo_fs.
Proof.
  exists (Some 0%nat). split; [vm_compute; reflexivity|]. intros i [= <-]. split; [simpl; lia|].
  exists (file 384 (list_ascii_of_string "old") true). by split.
Qed.

Lemma atomic_write_atomic_witness : exists s',
  atomic_write "state" (list_ascii_of_string "newer") 384 64 demo_fs = (Ok tt, s')
  /\ length (past s') = 13%nat
  /\ forall o, may_hold "state" (disk_of s') o <-> o = Some (384, list_ascii_of_string "newer").
Proof.
  assert (H : exists s', atomic_write "state" (list_ascii_of_string "newer") 384 64 demo_fs = (Ok tt, s')
    /\ length (past s') = 13%nat) by (eexists; split; vm_compute; reflexivity).
  destruct H as (s' & H & Hn). exists s'. split; [exact H|]. split; [exact Hn|].
  destruct (atomic_write_atomic _ _ _ _ _ _ _ demo_settled H) as [_ [[_ Hh] _]]. exact Hh.
Defined.

Lemma commit_prepared_atomic_witness : exists s',
  commit_prepared true "next" "state" 384 64 demo_fs = (Ok tt, s')
  /\ forall o, may_hold "state" (disk_of s') o <-> o = Some (384, list_ascii_of_string "prepared").
Proof.
  assert (H : exists s', commit_prepared true "next" "state" 384 64 demo_fs = (Ok tt, s'))
    by (eexists; vm_compute; reflexivity).
  destruct H as [s' H]. exists s'. split; [exact H|].
  destruct (commit_prepared_atomic "state" "next" 384 64 demo_fs 1 (file 384 (list_ascii_of_string "prepared") false)
    (Ok tt) s' demo_settled) as [_ [[_ Hh] _]]; [discriminate|vm_compute; reflexivity|vm_compute; discriminate|simpl; lia
    |vm_compute; reflexivity|exact H|exact Hh].
Defined.
