(* ===== verification/BackupRetention.v ===== *)
(** * Retention of local backups (src/openstack_platform/backup_retention.py)

    A backup is a set of three files of one directory: the ciphertext, its
    [.sha256] and its [.manifest], which commits it.  [prune] keeps every set of
    the last days and the newest complete sets, and unlinks what has expired,
    the manifest of a set first.

    The directory holds files by name; a run also leaves the sequence of
    unlinks and directory syncs it made, so that what a crash leaves behind can
    be stated.  Times are those of [Clock].  The directory does
    not change under a run except by it, [os.unlink] of an existing file
    succeeds, and names are text of code points below 256. *)

From S2P Require Import Prelude Regex Json JsonParse Clock Runtime StorageCapacity StorageContract.

Definition RETENTION_DAYS : Z := 14.
Definition MINIMUM_KEPT : Z := 3.
Definition _SUFFIXES : list string := [""; ".sha256"; ".manifest"].
Definition _EXPECTED : list string := [".staging"].
Definition _MAXIMUM_MANIFEST_BYTES : Z := 65536.
Definition _LOGGED_IGNORED : nat := 20.

Record RetentionResult := {
  rt_removed : nat;
  rt_kept : nat;
  rt_ignored : list string;
}.

Record _Set := {
  s_name : string;
  s_created : Z;
  s_present : list string;
  s_unsafe : bool;
  s_manifest : option dict;
}.

Definition has (suffix : string) (b : _Set) : bool := existsb (String.eqb suffix) (s_present b).

Definition committed (b : _Set) : bool := has ".manifest" b.

(** [present == set(_SUFFIXES)]; only known suffixes are ever present. *)
Definition all_present (b : _Set) : bool :=
  forallb (fun s => has s b) _SUFFIXES
  && forallb (fun s => existsb (String.eqb s) _SUFFIXES) (s_present b).

Definition complete (b : _Set) : bool :=
  negb (s_unsafe b) && all_present b &&
  match s_manifest b with
  | Some m => json_eqb (refs_get "name" m) (JStr (s_name b))
  | None => false
  end.

(** ** The directory *)

(** [f_text] is the decoded content, [None] when it is not UTF-8. *)
Record File := {
  f_name : string;
  f_regular : bool;
  f_owned : bool;
  f_size : Z;
  f_text : option string;
}.

Inductive event := Unlink (name : string) | Sync.

Record Dir := { files : list File; events : list event }.

Abbreviation FS := (M Dir).

Definition file_at (name : string) (fs : list File) : option File :=
  List.find (fun f => String.eqb (f_name f) name) fs.

(** [os.unlink] with [FileNotFoundError] passed over. *)
Definition unlink (name : string) : FS unit := fun d =>
  match file_at name (files d) with
  | None => (Ok tt, d)
  | Some _ => (Ok tt, {| files := List.filter (fun f => negb (String.eqb (f_name f) name)) (files d);
                         events := events d ++ [Unlink name] |})
  end.

Definition fsync : FS unit := fun d =>
  (Ok tt, {| files := files d; events := events d ++ [Sync] |}).

(** ** Patterns and time *)

Definition timestamp_re : re := cats [Times 8 (Cls digit); lit "T"; Times 6 (Cls digit); lit "Z"].

Definition name_re (series extension : string) : re :=
  cats [lit series; lit "-"; Grp 2 timestamp_re; lit extension].

Definition _pattern (series extension : string) : re :=
  Cat (Grp 1 (name_re series extension)) (Opt (Grp 3 (alts [lit ".sha256"; lit ".manifest"]))).

(** [int] of the digits at an offset *)
Definition field (s : string) (offset length : nat) : Z :=
  Z.of_N (decimal 0 (String.substring offset length s)).

(** [datetime.strptime(text, "%Y%m%dT%H%M%SZ")] of a text the pattern matched;
    [None] is [ValueError]. *)
Definition strptime (text : string) : option Z :=
  let year := field text 0 4 in let month := field text 4 2 in let d := field text 6 2 in
  let hour := field text 9 2 in let minute := field text 11 2 in let s := field text 13 2 in
  if (1 <=? year) && (1 <=? month) && (month <=? 12)
     && (1 <=? d) && (d <=? nth (Z.to_nat (month - 1)) (month_lengths year) 0)
     && (hour <=? 23) && (minute <=? 59) && (s <=? 59)
  then Some ((days_before_year year + days_before_month year month + (d - 1)) * day
             + ((hour * 60 + minute) * 60 + s) * second)
  else None.

(** ** Messages *)

Definition printable (a : ascii) : bool := between 32 126 a || (between 161 255 a && negb (code a =? 173)).

(** [repr] of a text *)
Definition repr_char (mark : ascii) (a : ascii) : string :=
  if Ascii.eqb a mark || (code a =? 92) then String "092" (String a "")
  else if code a =? 9 then String "092" "t"
  else if code a =? 10 then String "092" "n"
  else if code a =? 13 then String "092" "r"
  else if printable a then String a ""
  else String "092" ("x" +:+ String (hex_char (code a / 16)) (String (hex_char (code a mod 16)) "")).

Definition repr (s : string) : string :=
  let chars := list_ascii_of_string s in
  let mark := if existsb (fun a => code a =? 39) chars && negb (existsb (fun a => code a =? 34) chars)
              then chr 34 else chr 39 in
  String mark (concat_all (map (repr_char mark) chars) +:+ String mark "").

Definition note (entry message : string) : string :=
  String.substring 0 120 (repr entry) +:+ ": " +:+ message.

(** ** Scanning *)

Definition _read_manifest (fs : list File) (name : string) : option dict :=
  match file_at name fs with
  | Some f =>
      if negb (f_regular f) || (_MAXIMUM_MANIFEST_BYTES <? f_size f) then None
      else match f_text f with
           | Some text => match loads text with Some (JObj d) => Some d | _ => None end
           | None => None
           end
  | None => None
  end.

Abbreviation sets := (list (string * _Set)).

(** The first pattern that matches, with its sets. *)
Fixpoint first_match (entry : string) (patterns : list re) : option (nat * caps) :=
  match patterns with
  | [] => None
  | p :: rest =>
      match fullmatch_groups p entry with
      | Some c => Some (0%nat, c)
      | None => match first_match entry rest with Some (n, c) => Some (S n, c) | None => None end
      end
  end.

Definition new_set (name : string) (created : Z) : _Set := {|
  s_name := name; s_created := created; s_present := []; s_unsafe := false; s_manifest := None |}.

Definition add_suffix (suffix : string) (safe : bool) (b : _Set) : _Set := {|
  s_name := s_name b; s_created := s_created b;
  s_present := if has suffix b then s_present b else s_present b ++ [suffix];
  s_unsafe := s_unsafe b || negb safe; s_manifest := s_manifest b |}.

Definition safe_file (f : File) : bool := f_regular f && f_owned f.

(** One entry of the loop: the sets found so far and the notes. *)
Definition scan_entry (fs : list File) (patterns : list re) (entry : string)
    (acc : list sets * list string) : list sets * list string :=
  let (found, ignored) := acc in
  if existsb (String.eqb entry) _EXPECTED then acc
  else
    match first_match entry patterns with
    | None => (found, ignored ++ [note entry "unexpected entry"])
    | Some (n, c) =>
        match strptime (default "" (group 2 c)) with
        | None => (found, ignored ++ [note entry "invalid timestamp"])
        | Some created =>
            match file_at entry fs with
            | None => acc
            | Some f =>
                let name := default "" (group 1 c) in
                let suffix := default "" (group 3 c) in
                let here := nth n found [] in
                let b := default (new_set name created) (dict_get name here) in
                (alter (fun _ => dict_set name (add_suffix suffix (safe_file f) b) here) n found,
                 if safe_file f then ignored
                 else ignored ++ [note entry "not a direct current-user-owned file"])
            end
        end
    end.

Definition load_manifest (fs : list File) (b : _Set) : _Set :=
  if committed b && negb (s_unsafe b) then {|
    s_name := s_name b; s_created := s_created b; s_present := s_present b; s_unsafe := s_unsafe b;
    s_manifest := _read_manifest fs (s_name b +:+ ".manifest") |}
  else b.

Definition manifest_note (fs : list File) (b : _Set) : list string :=
  if committed b && negb (s_unsafe b) && negb (complete (load_manifest fs b))
  then [note (s_name b) "committed set is incomplete"] else [].

Definition _scan (fs : list File) (entries : list string) (patterns : list re)
    : list sets * list string :=
  let (found, ignored) :=
    fold_left (fun acc entry => scan_entry fs patterns entry acc) (sort_by str_leb entries)
      (map (fun _ => []) patterns, []) in
  (map (map (fun kv => (kv.1, load_manifest fs kv.2))) found,
   ignored ++ concat (map (fun s : sets => concat (map (fun kv => manifest_note fs kv.2) s)) found)).

(** ** Removing *)

(** One suffix of the loop of [_remove]. *)
Definition remove_suffix (name suffix : string) : FS unit :=
  _ ← unlink (name +:+ suffix);
  if String.eqb suffix ".manifest" then fsync else mret tt.

Definition _remove (b : _Set) : FS unit :=
  for_each (rev _SUFFIXES) (fun suffix =>
    if has suffix b then remove_suffix (s_name b) suffix else mret tt).

(** [backup.present.clear()] *)
Definition cleared (b : _Set) : _Set := {|
  s_name := s_name b; s_created := s_created b; s_present := []; s_unsafe := s_unsafe b;
  s_manifest := s_manifest b |}.

Definition by_name (a b : _Set) : bool := str_leb (s_name a) (s_name b).

(** The loops over the sets in order of name; the sets come back as they are
    after the loop, with the number removed. *)
Fixpoint remove_where (expired : _Set -> bool) (l : list _Set) : FS (list _Set * nat) :=
  match l with
  | [] => mret ([], 0%nat)
  | b :: rest =>
      if expired b then
        _ ← _remove b;
        '(after, n) ← remove_where expired rest;
        mret (cleared b :: after, S n)
      else
        '(after, n) ← remove_where expired rest;
        mret (b :: after, n)
  end.

Definition expired_backup (floor : list string) (cutoff : Z) (b : _Set) : bool :=
  negb (s_unsafe b || existsb (String.eqb (s_name b)) floor || (cutoff <=? s_created b))
  && (complete b || negb (committed b)).

Definition expired_key (referenced : list json) (paired : list Z) (cutoff : Z) (b : _Set) : bool :=
  negb (s_unsafe b || existsb (json_eqb (JStr (s_name b))) referenced
        || existsb (Z.eqb (s_created b)) paired || (cutoff <=? s_created b))
  && (complete b || negb (committed b)).

Definition source_keys (remaining : list _Set) : result (list json) :=
  let values := omap (fun b => refs_get "sourceKeys" <$> s_manifest b) remaining in
  if forallb hashable values then Ok values else Raise TypeError.

Definition values_of (s : sets) : list _Set := map snd s.

(** Complete sets, newest name first. *)
Definition newest_first (l : list _Set) : list _Set :=
  rev (sort_by by_name (List.filter complete l)).

(** [now - timedelta(days=days)] is a time of the calendar. *)
Definition cutoff_of (now days : Z) : result Z :=
  let t := now - days * day in if t <? 0 then Raise OverflowError else Ok t.

Definition count {A} (p : A -> bool) (l : list A) : nat := length (List.filter p l).

(** [root_owned]: [None] when the directory cannot be opened. *)
Definition prune (root_owned : option bool) (series keep : string) (aware : bool) (now : Z)
    (key_series : option string) (days minimum : Z) : FS RetentionResult :=
  _ ← require (negb ((days <? 0) || (minimum <? 1) || negb aware)) ValueError;
  cutoff ← lift (cutoff_of now days);
  _ ← (match root_owned with
       | None => raise (RetentionError "backup-root-unavailable")
       | Some false => raise (RetentionError "backup-root-not-owned")
       | Some true => mret tt
       end);
  fs ← gets files;
  let patterns := _pattern series ".sqlite3.age"
    :: match key_series with Some k => [_pattern k ".tar.age"] | None => [] end in
  let (found, ignored) := _scan fs (map f_name fs) patterns in
  let backups := values_of (nth 0 found []) in
  let keys := values_of (nth 1 found []) in
  let newest := newest_first backups in
  _ ← require (existsb (String.eqb keep) (map s_name newest)) (RetentionError "new-backup-not-committed");
  let floor := map s_name (take (Z.to_nat minimum) newest) ++ [keep] in
  '(backups, removed) ← remove_where (expired_backup floor cutoff) (sort_by by_name backups);
  '(keys, removed_keys) ← (match key_series with
    | None => mret (keys, 0%nat)
    | Some _ =>
        let remaining := List.filter (fun b => negb (Nat.eqb (length (s_present b)) 0)) backups in
        referenced ← lift (source_keys remaining);
        let paired := map s_created remaining in
        remove_where (expired_key referenced paired cutoff) (sort_by by_name keys)
    end);
  _ ← fsync;
  mret {| rt_removed := removed + removed_keys;
          rt_kept := count complete backups + count complete keys;
          rt_ignored := ignored |}.

(** What [prune_after_commit] prints: standard error, then standard output. *)
Record Report := { to_stderr : list string; to_stdout : list string }.

Definition report_of (r : RetentionResult) : Report := {|
  to_stderr := map (fun l => "retention ignored " +:+ l) (take _LOGGED_IGNORED (rt_ignored r))
    ++ (if (_LOGGED_IGNORED <? length (rt_ignored r))%nat
        then ["retention ignored " +:+ decimal_text (Z.of_nat (length (rt_ignored r) - _LOGGED_IGNORED))
              +:+ " more entries"] else []);
  to_stdout := ["retention=ok removed=" +:+ decimal_text (Z.of_nat (rt_removed r))
    +:+ " kept=" +:+ decimal_text (Z.of_nat (rt_kept r))] |}.

Definition prune_after_commit (root_owned : option bool) (series keep : string) (aware : bool) (now : Z)
    (key_series : option string) : FS (bool * Report) := fun d =>
  match prune root_owned series keep aware now key_series RETENTION_DAYS MINIMUM_KEPT d with
  | (Ok r, d') => (Ok (true, report_of r), d')
  | (Raise (RetentionError reason), d') =>
      (Ok (false, {| to_stderr := ["retention=failed reason=" +:+ reason]; to_stdout := [] |}), d')
  | (Raise e, d') => (Raise e, d')
  end.
