(* ===== verification/BackupRetentionSpec.v ===== *)
(** * Properties of backup retention

    The loops of [prune] select sets by one filter of the directory; what they
    unlink are safe files of expired sets; the newest complete sets stay; and a
    crash at any point, with any of the unlinks since the last directory sync
    lost, leaves no manifest without the files it commits. *)

From S2P Require Import Prelude Regex Json JsonParse Validation Runtime Sql Schema StorageCapacity StorageContract.
From S2P Require Import Clock BackupRetention.

(** ** Names *)

Lemma str_app_inj_r (a b s : string) : a +:+ s = b +:+ s -> a = b.
Proof.
  revert b. induction a as [|x a IH]; intros [|y b]; simpl; try done.
  - intros H. exfalso. apply (f_equal String.length) in H. simpl in H. rewrite str_length_app in H. lia.
  - intros H. exfalso. apply (f_equal String.length) in H. simpl in H. rewrite str_length_app in H. lia.
  - intros [= -> H]. f_equal. by apply IH.
Qed.

Lemma str_app_inj_l (a s t : string) : a +:+ s = a +:+ t -> s = t.
Proof. induction a; simpl; [done|]. intros [= H]. auto. Qed.

(** The last character of a text, through its list of characters. *)
Definition last_char (s : string) : option ascii := last (list_ascii_of_string s).

Lemma last_char_app a s x : last_char s = Some x -> last_char (a +:+ s) = Some x.
Proof.
  unfold last_char. rewrite list_ascii_app, last_app. intros ->. done.
Qed.

Definition is_name (x : string) : Prop := exists t, x = t +:+ ".age".

(** A file name splits in one way into the name of a set and a suffix. *)
Lemma split_once x y s t : is_name x -> is_name y -> In s _SUFFIXES -> In t _SUFFIXES ->
  x +:+ s = y +:+ t -> x = y /\ s = t.
Proof.
  intros [x' ->] [y' ->] Hs Ht H.
  assert (Hst : s = t).
  { apply (f_equal last_char) in H.
    assert (Hx : forall z u, In u _SUFFIXES -> last_char ((z +:+ ".age") +:+ u) =
      Some (if String.eqb u "" then "e" else if String.eqb u ".sha256" then "6" else "t")%char).
    { intros z u [<-|[<-|[<-|[]]]]; [rewrite str_app_nil_r| |]; by apply last_char_app. }
    rewrite (Hx _ _ Hs), (Hx _ _ Ht) in H.
    by destruct Hs as [<-|[<-|[<-|[]]]], Ht as [<-|[<-|[<-|[]]]]. }
  subst t. split; [by apply str_app_inj_r in H|done].
Qed.

(** ** The patterns *)

Lemma lit_lang s t : lang (lit s) t <-> t = s.
Proof.
  revert t. induction s as [|a s IH]; intros t; simpl; [done|]. split.
  - intros (s1 & s2 & -> & (b & -> & Hb) & ->%IH). unfold is_char in Hb. apply Ascii.eqb_eq in Hb as <-. done.
  - intros ->. exists (String a ""), s. split_and!; [done| |by apply IH]. exists a. split; [done|apply Ascii.eqb_refl].
Qed.

Lemma lit_groups s : groups (lit s) = [].
Proof. induction s; simpl; auto. Qed.

Lemma recorded_none r c c' : groups r = [] -> recorded r c c' -> c' = c.
Proof.
  intros Hr ([|g new] & -> & Hn); [done|]. apply Forall_cons_1 in Hn as [(r' & Hin & _) _]. by rewrite Hr in Hin.
Qed.

(** Matching a text without groups in front. *)
Lemma go_quiet {A} r (k : pos -> caps -> option A) p c x : groups r = [] -> go r k p c = Some x ->
  exists s p', p.2 = s +:+ p'.2 /\ lang r s /\ k p' c = Some x.
Proof.
  intros Hr (s & p' & c' & Hp & Hl & Hc & Hk)%go_sound.
  apply (recorded_none _ _ _ Hr) in Hc as ->. eauto.
Qed.

Lemma go_lit {A} s (k : pos -> caps -> option A) p c x : go (lit s) k p c = Some x ->
  exists p', p.2 = s +:+ p'.2 /\ k p' c = Some x.
Proof. intros (t & p' & Hp & ->%lit_lang & Hk)%(go_quiet _ _ _ _ _ (lit_groups s)). eauto. Qed.

Lemma go_group {A} n r (k : pos -> caps -> option A) p c x : groups r = [] -> go (Grp n r) k p c = Some x ->
  exists s p', p.2 = s +:+ p'.2 /\ lang r s /\ k p' ((n, s) :: c) = Some x.
Proof.
  simpl. intros Hr (s & p' & Hp & Hl & Hk)%(go_quiet _ _ _ _ _ Hr).
  exists s, p'. split_and!; [done|done|]. by rewrite (consumed_app _ _ _ Hp) in Hk.
Qed.

(** The set name a time stamp belongs to. *)
Definition set_name (series extension stamp : string) : string := series +:+ "-" +:+ stamp +:+ extension.

Definition finish (p : pos) (c : caps) : option caps :=
  match p.2 with EmptyString => Some c | _ => None end.

Lemma pattern_match series extension entry c :
  fullmatch_groups (_pattern series extension) entry = Some c ->
  exists stamp suffix, lang timestamp_re stamp /\ In suffix _SUFFIXES
    /\ entry = set_name series extension stamp +:+ suffix
    /\ group 1 c = Some (set_name series extension stamp) /\ group 2 c = Some stamp
    /\ default "" (group 3 c) = suffix.
Proof.
  unfold fullmatch_groups, _pattern. change (fun p c => match p.2 with EmptyString => Some c | _ => None end) with finish.
  set (B := alts [lit ".sha256"; lit ".manifest"]). set (T := timestamp_re). intros H.
  cbn [go] in H. unfold name_re in H. cbn [cats go] in H.
  apply go_lit in H as (p1 & E1 & H). apply go_lit in H as (p2 & E2 & H).
  apply (go_quiet T) in H as (stamp & p3 & E3 & Hs & H); [|done].
  rewrite (consumed_app _ _ _ E3) in H. apply go_lit in H as (p4 & E4 & H).
  assert (Hname : consumed (None, entry) p4 = set_name series extension stamp).
  { apply consumed_app. cbn [snd] in *. rewrite E1, E2, E3, E4. unfold set_name. by rewrite !str_app_assoc. }
  assert (Hentry : entry = set_name series extension stamp +:+ p4.2).
  { cbn [snd] in *. rewrite E1, E2, E3, E4. unfold set_name. by rewrite !str_app_assoc. }
  rewrite Hname in H. exists stamp. unfold Opt in H. cbn [go] in H.
  cbn [rep plus pred Nat.eqb fmap option_fmap option_map andb] in H.
  apply first_some_inv in H as [H|H].
  - apply (go_quiet B) in H as (suffix & p5 & E5 & Hb & H); [|done].
    rewrite (consumed_app _ _ _ E5) in H. destruct (Nat.eqb _ _) in H; [done|].
    assert (Hfin : finish p5 [(3%nat, suffix); (1%nat, set_name series extension stamp); (2%nat, stamp)] = Some c).
    { destruct (String.length p4.2); simpl in H; done. }
    unfold finish in Hfin. destruct p5 as [o [|]]; [|done]. injection Hfin as <-. simpl in E5.
    rewrite str_app_nil_r in E5. exists suffix. split_and!; try done.
    + simpl in Hb. destruct Hb as [Hb|Hb]; [apply (lit_lang ".sha256") in Hb|apply (lit_lang ".manifest") in Hb]; subst; simpl; auto.
    + by rewrite Hentry, E5.
  - unfold finish in H. destruct p4 as [o [|]]; [|done]. injection H as <-. exists "".
    split_and!; try done; by left.
Qed.

(** The two series of a run, with the extensions of their sets. *)
Definition specs_of (series : string) (key_series : option string) : list (string * string) :=
  (series, ".sqlite3.age")
  :: match key_series with Some k => [(k, ".tar.age")] | None => [] end.

Definition patterns_of (specs : list (string * string)) : list re :=
  map (fun se => _pattern se.1 se.2) specs.

Definition name_in (se : string * string) (stamp : string) : string := set_name se.1 se.2 stamp.

(** Every extension ends in [.age], and no name is of two series. *)
Record separate (specs : list (string * string)) : Prop := {
  sep_names : forall n se stamp, specs !! n = Some se -> is_name (name_in se stamp);
  sep_once : forall m n se se' s s', specs !! m = Some se -> specs !! n = Some se' ->
    name_in se s = name_in se' s' -> m = n;
}.

Lemma specs_separate series key_series : separate (specs_of series key_series).
Proof.
  assert (Htar : forall k s, exists t, name_in (k, ".tar.age"%string) s = (t +:+ "r") +:+ ".age").
  { intros k s. exists (k +:+ "-" +:+ s +:+ ".ta"). unfold name_in, set_name. cbn [fst snd].
    rewrite <- !str_app_assoc. reflexivity. }
  assert (Hsql : forall k s, exists t, name_in (k, ".sqlite3.age"%string) s = (t +:+ "3") +:+ ".age").
  { intros k s. exists (k +:+ "-" +:+ s +:+ ".sqlite"). unfold name_in, set_name. cbn [fst snd].
    rewrite <- !str_app_assoc. reflexivity. }
  assert (Hne : forall k k' s s', name_in (k, ".tar.age"%string) s <> name_in (k', ".sqlite3.age"%string) s').
  { intros k k' s s'. destruct (Htar k s) as [t ->], (Hsql k' s') as [t' ->].
    intros H%str_app_inj_r%(f_equal last_char). 
    by rewrite (last_char_app t "r" "r"%char eq_refl), (last_char_app t' "3" "3"%char eq_refl) in H. }
  split.
  - intros [|[|n]] se stamp H; destruct key_series; simpl in H; try done; injection H as <-.
    all: first [destruct (Htar s stamp) as [t ->] | destruct (Hsql series stamp) as [t ->]]; by eexists.
  - intros [|[|m]] [|[|n]] se se' s s' Hm Hn He; destruct key_series; simpl in *; try done;
      injection Hm as <-; injection Hn as <-; exfalso; by eapply Hne.
Qed.

Lemma name_in_inj se s s' : name_in se s = name_in se s' -> s = s'.
Proof.
  unfold name_in, set_name. intros H%str_app_inj_l%str_app_inj_l. by apply str_app_inj_r in H.
Qed.

Lemma pattern_plain series extension : plain (_pattern series extension) = true.
Proof.
  assert (Hlit : forall s, plain (lit s) = true) by (induction s; simpl; auto).
  unfold _pattern, name_re. simpl. by rewrite !Hlit.
Qed.

Lemma pattern_matches se stamp suffix : lang timestamp_re stamp -> In suffix _SUFFIXES ->
  is_Some (fullmatch_groups (_pattern se.1 se.2) (name_in se stamp +:+ suffix)).
Proof.
  intros Ht Hs. destruct se as [k e].
  assert (H : fullmatch (_pattern k e) (name_in (k, e) stamp +:+ suffix) = true).
  { apply fullmatch_iff; [apply pattern_plain|]. exists (name_in (k, e) stamp), suffix. split_and!; [done| |].
    - exists k, ("-" +:+ stamp +:+ e). split_and!; [done|by apply lit_lang|].
      exists "-", (stamp +:+ e). split_and!; [done|by apply (lit_lang "-")|].
      exists stamp, e. split_and!; [done|exact Ht|by apply lit_lang].
    - destruct Hs as [<-|Hs]; [exists []; split_and!; [done|constructor|simpl; lia|simpl; lia]|].
      exists [suffix]. split_and!; [by rewrite <- (str_app_nil_r suffix) at 1| |simpl; lia|simpl; lia].
      apply Forall_singleton. destruct Hs as [<-|[<-|[]]]; [left|right]; by apply lit_lang. }
  unfold fullmatch in H. simpl. by destruct (fullmatch_groups _ _).
Qed.

Lemma first_match_some entry patterns n c : first_match entry patterns = Some (n, c) ->
  exists p, patterns !! n = Some p /\ fullmatch_groups p entry = Some c.
Proof.
  revert n. induction patterns as [|p l IH]; intros n; simpl; [done|].
  destruct (fullmatch_groups p entry) eqn:E; [intros [= <- <-]; by exists p|].
  destruct (first_match entry l) as [[m c']|]; [|done]. intros [= <- <-]. by apply IH.
Qed.

Lemma first_match_none entry patterns n p : first_match entry patterns = None ->
  patterns !! n = Some p -> fullmatch_groups p entry = None.
Proof.
  revert n. induction patterns as [|q l IH]; intros n; simpl; [by intros _|].
  destruct (fullmatch_groups q entry) eqn:E; [done|].
  destruct (first_match entry l) as [[]|]; [done|]. destruct n; simpl; [by intros _ [= <-]|by apply IH].
Qed.

(** ** Scanning *)

Lemma nth_alter {A} (f : A -> A) m n l d : (m < length l)%nat ->
  nth n (alter f m l) d = if Nat.eqb n m then f (nth m l d) else nth n l d.
Proof.
  intros Hm. rewrite !nth_lookup. destruct (Nat.eqb_spec n m) as [->|Hne].
  - rewrite list_lookup_alter_eq. destruct (lookup_lt_is_Some_2 l m Hm) as [x Hx]. by rewrite Hx.
  - by rewrite list_lookup_alter_ne.
Qed.

Lemma in_dict_set {A} k (v : A) d j w : In (j, w) (dict_set k v d) ->
  (j = k /\ w = v) \/ In (j, w) d.
Proof.
  induction d as [|[i x] d IH]; simpl; [intros [[= -> ->]|[]]; auto|].
  destruct (String.eqb_spec k i) as [->|]; simpl; [|naive_solver].
  intros [[= -> ->]|Hin]; auto.
Qed.

Lemma dict_set_has {A} k (v : A) d : In (k, v) (dict_set k v d).
Proof.
  induction d as [|[i x] d IH]; simpl; [auto|]. destruct (String.eqb k i); simpl; auto.
Qed.

Lemma dict_set_keeps {A} k (v : A) d j w : j <> k -> In (j, w) d -> In (j, w) (dict_set k v d).
Proof.
  intros Hne. induction d as [|[i x] d IH]; simpl; [done|].
  destruct (String.eqb_spec k i) as [->|]; simpl; [|naive_solver]. intros [[= -> ->]|Hin]; auto. done.
Qed.

Lemma dict_set_nodup {A} k (v : A) d : List.NoDup (dict_keys d) -> List.NoDup (dict_keys (dict_set k v d)).
Proof.
  intros Hd. induction d as [|[i x] d IH]; simpl; [constructor; [simpl; tauto|constructor]|].
  inversion Hd as [|? ? Hi Hd']; subst. destruct (String.eqb_spec k i) as [->|]; simpl; [done|].
  constructor; [|auto]. intros ([j w] & <- & Hin)%in_map_iff.
  apply in_dict_set in Hin as [[-> _]|Hin]; [done|]. apply Hi. unfold dict_keys. by apply (in_map fst) in Hin.
Qed.

Lemma dict_get_some_in {A} k (v : A) d : dict_get k d = Some v -> In (k, v) d.
Proof.
  induction d as [|[i x] d IH]; simpl; [done|]. destruct (String.eqb_spec k i) as [->|]; [intros [= ->]; auto|auto].
Qed.

Lemma has_in suffix b : has suffix b = true <-> In suffix (s_present b).
Proof. apply one_of_words_in. Qed.

Lemma has_add suffix safe b t : has t (add_suffix suffix safe b) = has t b || String.eqb t suffix.
Proof.
  apply eq_true_iff_eq. rewrite orb_true_iff, !has_in, String.eqb_eq. unfold add_suffix. simpl.
  destruct (has suffix b) eqn:E; [apply has_in in E; naive_solver|]. rewrite in_app_iff. simpl. naive_solver.
Qed.

Section Scan.
Context (fs : list File) (specs : list (string * string)) (Hsep : separate specs).

(** What a scanned set stands for. *)
Record good_set (se : string * string) (b : _Set) : Prop := {
  gs_stamp : exists stamp, lang timestamp_re stamp /\ s_name b = name_in se stamp
    /\ strptime stamp = Some (s_created b);
  gs_files : forall suffix, In suffix (s_present b) -> In suffix _SUFFIXES /\
    exists f, file_at (s_name b +:+ suffix) fs = Some f /\ (s_unsafe b = false -> safe_file f = true);
  gs_some : s_present b <> [];
  gs_unsafe : s_unsafe b = true -> exists suffix f, In suffix _SUFFIXES /\ file_at (s_name b +:+ suffix) fs = Some f
    /\ safe_file f = false;
}.

(** Every entry seen so far that names a file of a set is in that set. *)
Definition seen_in (se : string * string) (seen : list string) (s : sets) : Prop :=
  forall stamp suffix, lang timestamp_re stamp -> strptime stamp <> None -> In suffix _SUFFIXES ->
    In (name_in se stamp +:+ suffix) seen -> file_at (name_in se stamp +:+ suffix) fs <> None ->
    exists b, In (name_in se stamp, b) s /\ has suffix b = true.

Record good_sets (se : string * string) (seen : list string) (s : sets) : Prop := {
  gd_keys : List.NoDup (dict_keys s);
  gd_sets : forall k b, In (k, b) s -> k = s_name b /\ good_set se b;
  gd_seen : seen_in se seen s;
}.

Definition scanned (seen : list string) (found : list sets) : Prop :=
  length found = length specs /\
  forall n se, specs !! n = Some se -> good_sets se seen (nth n found []).

Lemma name_last se n stamp suffix : specs !! n = Some se -> In suffix _SUFFIXES ->
  exists a, last_char (name_in se stamp +:+ suffix) = Some a /\ In a ["e"; "6"; "t"]%char.
Proof.
  intros Hn Hs. destruct (sep_names _ Hsep _ _ stamp Hn) as [t ->].
  destruct Hs as [<-|[<-|[<-|[]]]]; [rewrite str_app_nil_r|..];
    (eexists; split; [by apply last_char_app|simpl; auto]).
Qed.

(** An entry is a file of at most one set, under at most one suffix. *)
Lemma name_once m n se se' stamp stamp' suffix suffix' :
  specs !! m = Some se -> specs !! n = Some se' -> In suffix _SUFFIXES -> In suffix' _SUFFIXES ->
  name_in se stamp +:+ suffix = name_in se' stamp' +:+ suffix' ->
  m = n /\ stamp = stamp' /\ suffix = suffix'.
Proof.
  intros Hm Hn Hs Hs' H.
  apply split_once in H as [H ->]; try done; [|by eapply sep_names|by eapply sep_names].
  pose proof (sep_once _ Hsep _ _ _ _ _ _ Hm Hn H) as <-. rewrite Hm in Hn. injection Hn as <-.
  by apply name_in_inj in H as ->.
Qed.

Lemma good_add se stamp suffix created f b :
  lang timestamp_re stamp -> strptime stamp = Some created -> In suffix _SUFFIXES ->
  file_at (name_in se stamp +:+ suffix) fs = Some f ->
  (b = new_set (name_in se stamp) created \/ s_name b = name_in se stamp /\ good_set se b) ->
  good_set se (add_suffix suffix (safe_file f) b).
Proof.
  intros Hl Ht Hs Hf Hb.
  assert (Hname : s_name b = name_in se stamp) by (destruct Hb as [->|[? _]]; done).
  assert (Hold : (exists st, lang timestamp_re st /\ s_name b = name_in se st /\ strptime st = Some (s_created b))
    /\ (forall t, In t (s_present b) -> In t _SUFFIXES /\
       exists g, file_at (s_name b +:+ t) fs = Some g /\ (s_unsafe b = false -> safe_file g = true))
    /\ (s_unsafe b = true -> exists t g, In t _SUFFIXES /\ file_at (s_name b +:+ t) fs = Some g /\ safe_file g = false)).
  { destruct Hb as [->|[_ [H1 H2 _ H4]]]; [|done]. split_and!; [by exists stamp|by intros t []|done]. }
  destruct Hold as (H1 & H2 & H4). constructor; [exact H1| | |].
  3: { simpl. intros [Hu|Hu%negb_true_iff]%orb_true_iff; [by apply H4|]. exists suffix, f. by rewrite Hname. }
  2: { intros E. assert (H : has suffix (add_suffix suffix (safe_file f) b) = true)
      by (by rewrite has_add, String.eqb_refl, orb_true_r).
    unfold has in H. by rewrite E in H. }
  intros t Ht'%has_in. rewrite has_add in Ht'.
  apply orb_true_iff in Ht' as [H|H]; [apply has_in in H|apply String.eqb_eq in H as ->]; simpl.
  - destruct (H2 t H) as (? & g & ? & Hg). split; [done|]. exists g. split; [done|].
    intros [? _]%orb_false_iff. auto.
  - split; [done|]. rewrite Hname. exists f. split; [done|]. by intros [_ ?%negb_false_iff]%orb_false_iff.
Qed.

Lemma scan_entry_scanned seen entry found ignored :
  scanned seen found ->
  scanned (entry :: seen) (scan_entry fs (patterns_of specs) entry (found, ignored)).1.
Proof.
  intros [Hlen Hgood].
 
  assert (Hskip : (forall n se stamp suffix created, specs !! n = Some se -> lang timestamp_re stamp ->
      strptime stamp = Some created -> In suffix _SUFFIXES -> entry = name_in se stamp +:+ suffix ->
      file_at entry fs <> None -> False) -> scanned (entry :: seen) found).
  { intros Hno. split; [done|]. intros n se Hn. destruct (Hgood n se Hn) as [H1 H2 H3].
    constructor; [done|done|]. intros stamp suffix Hl Ht Hs [He|He] Hf; [|eauto].
    destruct (strptime stamp) as [created|] eqn:Hc; [|done]. exfalso.
    eapply (Hno n se stamp suffix created); eauto. by rewrite He. }
  unfold scan_entry. destruct (existsb _ _EXPECTED) eqn:He.
  { apply Hskip. intros n se stamp suffix created Hn _ _ Hs -> _. unfold _EXPECTED in He. simpl in He.
    rewrite orb_false_r in He. apply String.eqb_eq in He.
    destruct (name_last se n stamp suffix Hn Hs) as (a & Ha & Hin). rewrite He in Ha.
    injection Ha as <-. by destruct Hin as [|[|[|[]]]]. }
  destruct (first_match entry (patterns_of specs)) as [[m c]|] eqn:Hm.
  2: { apply Hskip. intros n se stamp suffix created Hn Hl _ Hs -> _.
    destruct (pattern_matches se stamp suffix Hl Hs) as [c Hc].
    rewrite (first_match_none _ _ n (_pattern se.1 se.2) Hm) in Hc; [done|].
    unfold patterns_of. by rewrite list_lookup_fmap, Hn. }
  apply first_match_some in Hm as (p & Hp & Hc). unfold patterns_of in Hp.
  apply list_lookup_fmap_Some in Hp as (se & -> & Hm).
  apply pattern_match in Hc as (stamp & suffix & Hl & Hs & He' & G1 & G2 & G3).
  fold (name_in se stamp) in He', G1. rewrite G1, G2, G3. simpl.
  destruct (strptime stamp) as [created|] eqn:Ht.
  2: { apply Hskip. intros n se' st sf created Hn _ Hst Hs' H _. rewrite He' in H.
    destruct (name_once _ _ _ _ _ _ _ _ Hm Hn Hs Hs' H) as (_ & <- & _). congruence. }
  destruct (file_at entry fs) as [f|] eqn:Hf.
  2: { apply Hskip. congruence. }
  assert (Hlt : (m < length found)%nat) by (rewrite Hlen; by eapply lookup_lt_Some).
  set (here := nth m found []). set (b := default _ _).
  destruct (Hgood m se Hm) as [K1 K2 K3]. fold here in K1, K2, K3.
  assert (Hb : b = new_set (name_in se stamp) created \/ s_name b = name_in se stamp /\ good_set se b).
  { unfold b. destruct (dict_get (name_in se stamp) here) as [b0|] eqn:E; [right|by left].
    apply dict_get_some_in, K2 in E as [E ?]. done. }
  assert (Hname : s_name b = name_in se stamp) by (destruct Hb as [->|[? _]]; done).
  rewrite He' in Hf. pose proof (good_add se stamp suffix created f b Hl Ht Hs Hf Hb) as Hgb.
  split; [simpl; by rewrite length_alter|]. intros n se' Hn. simpl. rewrite nth_alter by done.
  destruct (Nat.eqb_spec n m) as [->|Hne].
  - rewrite Hm in Hn. injection Hn as <-. fold here. constructor.
    + by apply dict_set_nodup.
    + intros k b' [[-> ->]|Hin]%in_dict_set; [|by apply K2]. done.
    + intros st sf Hl' Ht' Hs' Hseen Hf'.
      destruct (decide (name_in se st = name_in se stamp)) as [Hsame|Hdiff].
      * apply name_in_inj in Hsame as ->. exists (add_suffix suffix (safe_file f) b).
        split; [apply dict_set_has|]. rewrite has_add. destruct Hseen as [Heq|Hin].
        { rewrite He' in Heq. destruct (name_once _ _ _ _ _ _ _ _ Hm Hm Hs Hs' Heq) as (_ & _ & ->).
          by rewrite String.eqb_refl, orb_true_r. }
        destruct (K3 stamp sf Hl' Ht' Hs' Hin Hf') as (b0 & Hb0 & Hh).
        unfold b. rewrite (dict_get_in _ _ _ K1 Hb0). simpl. by rewrite Hh.
      * destruct Hseen as [Heq|Hin].
        { rewrite He' in Heq. destruct (name_once _ _ _ _ _ _ _ _ Hm Hm Hs Hs' Heq) as (_ & -> & _). done. }
        destruct (K3 st sf Hl' Ht' Hs' Hin Hf') as (b0 & Hb0 & Hh). exists b0. split; [by apply dict_set_keeps|done].
  - destruct (Hgood n se' Hn) as [L1 L2 L3]. constructor; [done|done|].
    intros st sf Hl' Ht' Hs' [Heq|Hin] Hf'; [|by apply L3]. rewrite He' in Heq.
    destruct (name_once _ _ _ _ _ _ _ _ Hm Hn Hs Hs' Heq) as (-> & _). done.
Qed.

Lemma scanned_incl seen seen' found : incl seen' seen -> scanned seen found -> scanned seen' found.
Proof.
  intros Hi [Hl Hg]. split; [done|]. intros n se Hn. destruct (Hg n se Hn) as [H1 H2 H3].
  constructor; [done|done|]. intros st sf Hst Ht Hs Hin. apply H3; auto.
Qed.

Lemma scan_entries_scanned entries seen found ignored :
  scanned seen found ->
  scanned (rev entries ++ seen)
    (fold_left (fun acc entry => scan_entry fs (patterns_of specs) entry acc) entries (found, ignored)).1.
Proof.
  revert seen found ignored. induction entries as [|e entries IH]; intros seen found ignored H; [done|].
  cbn [fold_left rev]. destruct (scan_entry fs (patterns_of specs) e (found, ignored)) as [found' ignored'] eqn:E.
  rewrite <- app_assoc. apply IH.
  change found' with (found', ignored').1. rewrite <- E. by apply scan_entry_scanned.
Qed.

Lemma load_manifest_same b : s_name (load_manifest fs b) = s_name b
  /\ s_created (load_manifest fs b) = s_created b /\ s_present (load_manifest fs b) = s_present b
  /\ s_unsafe (load_manifest fs b) = s_unsafe b.
Proof. unfold load_manifest. by destruct (_ && _). Qed.

Lemma good_loaded se b : good_set se b -> good_set se (load_manifest fs b).
Proof.
  intros [H1 H2 H3 H4]. destruct (load_manifest_same b) as (E1 & E2 & E3 & E4).
  constructor; rewrite ?E1, ?E2, ?E3, ?E4; done.
Qed.

Lemma scan_scanned : scanned (map f_name fs) (_scan fs (map f_name fs) (patterns_of specs)).1.
Proof.
  unfold _scan. set (start := map (fun _ => []) (patterns_of specs)).
  assert (H0 : scanned [] start).
  { split; [unfold start, patterns_of; by rewrite !length_map|]. intros n se Hn.
    assert (Hnil : nth n start [] = []).
    { rewrite nth_lookup. unfold start. rewrite list_lookup_fmap. by destruct (patterns_of specs !! n). }
    rewrite Hnil. constructor; [constructor|by intros ? ? []|]. intros st sf _ _ _ []. }
  apply (scan_entries_scanned (sort_by str_leb (map f_name fs)) _ _ []) in H0.
  destruct (fold_left _ _ _) as [found ignored]. simpl in *.
  apply (scanned_incl _ (map f_name fs)) in H0.
  2: { intros e He. apply in_or_app. left. rewrite <- in_rev.
    eapply Permutation_in; [symmetry; apply sort_by_perm|done]. }
  destruct H0 as [Hl Hg]. split; [by rewrite length_map|]. intros n se Hn.
  destruct (Hg n se Hn) as [H1 H2 H3].
  assert (Hnth : nth n (map (map (fun kv : string * _Set => (kv.1, load_manifest fs kv.2))) found) [] =
    map (fun kv => (kv.1, load_manifest fs kv.2)) (nth n found [])) by (by rewrite <- (map_nth (map _) found [])).
  rewrite Hnth. constructor.
  - unfold dict_keys in *. rewrite map_map. simpl. done.
  - intros k b ([k' b'] & [= <- <-] & Hin)%in_map_iff. apply H2 in Hin as [-> Hb]. simpl.
    split; [by rewrite (proj1 (load_manifest_same b'))|by apply good_loaded].
  - intros st sf Hst Ht Hs Hin Hf. destruct (H3 st sf Hst Ht Hs Hin Hf) as (b & Hb & Hh).
    exists (load_manifest fs b). split; [apply in_map_iff; by exists (name_in se st, b)|].
    unfold has in *. by rewrite (proj1 (proj2 (proj2 (load_manifest_same b)))).
Qed.
End Scan.

(** ** Removing *)

Definition doomed (expired : list _Set) (name : string) : bool :=
  existsb (fun b => existsb (fun s => String.eqb name (s_name b +:+ s)) (s_present b)) expired.

Definition without (expired : list _Set) (fs : list File) : list File :=
  List.filter (fun f => negb (doomed expired (f_name f))) fs.

(** The order of the unlinks of one set. *)
Definition removal (b : _Set) : list event :=
  (if has ".manifest" b then [Unlink (s_name b +:+ ".manifest"); Sync] else [])
  ++ (if has ".sha256" b then [Unlink (s_name b +:+ ".sha256")] else [])
  ++ (if has "" b then [Unlink (s_name b +:+ "")] else []).

(** A set all of whose members are files of the directory. *)
Definition intact (fs : list File) (b : _Set) : Prop :=
  is_name (s_name b) /\ forall s, In s (s_present b) -> In s _SUFFIXES /\ file_at (s_name b +:+ s) fs <> None.

Lemma doomed_in expired name : doomed expired name = true <->
  exists b s, In b expired /\ In s (s_present b) /\ name = s_name b +:+ s.
Proof.
  unfold doomed. rewrite existsb_exists. setoid_rewrite existsb_exists. setoid_rewrite String.eqb_eq.
  split; [intros (b & ? & s & ? & ?); eauto|intros (b & s & ? & ? & ?); eauto].
Qed.

Lemma without_app a b fs : without (a ++ b) fs = without b (without a fs).
Proof.
  unfold without, doomed. induction fs as [|f fs IH]; simpl; [done|].
  rewrite existsb_app, negb_orb. destruct (negb (existsb _ a)); simpl; [|done].
  by destruct (negb (existsb _ b)); rewrite IH.
Qed.

Lemma file_at_filter (p : File -> bool) name fs :
  (forall f, f_name f = name -> p f = true) -> file_at name (List.filter p fs) = file_at name fs.
Proof.
  intros Hp. unfold file_at. induction fs as [|f fs IH]; simpl; [done|].
  destruct (String.eqb_spec (f_name f) name) as [He|He].
  - rewrite (Hp f He). simpl. by rewrite He, String.eqb_refl.
  - destruct (p f); simpl; [|done]. destruct (String.eqb_spec (f_name f) name); [done|]. done.
Qed.

Lemma file_at_without expired name fs : doomed expired name = false ->
  file_at name (without expired fs) = file_at name fs.
Proof. intros H. apply file_at_filter. intros f ->. by rewrite H. Qed.

Lemma unlink_run name d : file_at name (files d) <> None ->
  unlink name d = (Ok tt, {| files := List.filter (fun f => negb (String.eqb (f_name f) name)) (files d);
                             events := events d ++ [Unlink name] |}).
Proof. unfold unlink. by destruct (file_at name (files d)). Qed.

Lemma filter_filter {A} (p q : A -> bool) l :
  List.filter p (List.filter q l) = List.filter (fun x => q x && p x) l.
Proof. induction l as [|x l IH]; simpl; [done|]. destruct (q x); simpl; [|done]. by destruct (p x); rewrite IH. Qed.

Lemma remove_suffix_run name suffix d : file_at (name +:+ suffix) (files d) <> None ->
  remove_suffix name suffix d = (Ok tt, {|
    files := List.filter (fun f => negb (String.eqb (f_name f) (name +:+ suffix))) (files d);
    events := events d ++ Unlink (name +:+ suffix) :: if String.eqb suffix ".manifest" then [Sync] else [] |}).
Proof.
  intros H. unfold remove_suffix. rewrite (bind_eq _ _ _ _ _ (unlink_run _ _ H)).
  destruct (String.eqb suffix ".manifest"); [|done]. unfold fsync. simpl. by rewrite <- app_assoc.
Qed.

Lemma remove_run b d : intact (files d) b ->
  _remove b d = (Ok tt, {| files := without [b] (files d); events := events d ++ removal b |}).
Proof.
  intros [Hname Hall]. unfold _remove.
  assert (Hloop : forall l d, List.NoDup l ->
    (forall s, In s l -> has s b = true -> file_at (s_name b +:+ s) (files d) <> None) ->
    for_each l (fun suffix => if has suffix b then remove_suffix (s_name b) suffix else mret tt) d
    = (Ok tt, {| files := List.filter (fun f => negb (existsb (fun s => has s b && String.eqb (f_name f) (s_name b +:+ s)) l)) (files d);
                 events := events d ++ concat (map (fun s => if has s b then
                   Unlink (s_name b +:+ s) :: (if String.eqb s ".manifest" then [Sync] else []) else []) l) |})).
  { clear d Hall. induction l as [|s l IH]; intros d Hnd Hin; simpl.
    - rewrite app_nil_r. destruct d; unfold mret, M_ret. simpl. do 2 f_equal. symmetry.
      by apply forallb_filter_id, forallb_forall.
    - inversion Hnd as [|? ? Hs Hnd']; subst. destruct (has s b) eqn:E.
      + rewrite (bind_eq _ _ _ _ _ (remove_suffix_run _ _ _ (Hin s (or_introl eq_refl) E))).
        rewrite IH; [|done|].
        * simpl. rewrite filter_filter, <- app_assoc. do 2 f_equal. apply filter_ext. intros f. by rewrite negb_orb.
        * intros t Ht Hb. cbn [files]. rewrite file_at_filter; [apply Hin; [by right|done]|].
          intros f ->. apply negb_true_iff, String.eqb_neq. intros ->%str_app_inj_l. done.
      + rewrite (bind_eq (mret tt) _ d tt d eq_refl). rewrite IH; [done|done|]. auto using in_cons. }
  rewrite Hloop.
  - f_equal. f_equal; simpl.
    + apply filter_ext. intros f. f_equal. apply eq_true_iff_eq. rewrite doomed_in.
      assert (Hex : existsb (fun s => has s b && String.eqb (f_name f) (s_name b +:+ s)) [".manifest"; ".sha256"; ""] = true
        <-> exists s, In s [".manifest"; ".sha256"; ""] /\ has s b = true /\ f_name f = s_name b +:+ s).
      { rewrite existsb_exists. setoid_rewrite andb_true_iff. by setoid_rewrite String.eqb_eq. }
      simpl in Hex. rewrite Hex. split.
      * intros (s & _ & Hs%has_in & ->). exists b, s. simpl. auto.
      * intros (b' & s & [<-|[]] & Hs & ->). exists s. split_and!; [|by apply has_in|done].
        destruct (Hall s Hs) as [Hs' _]. unfold _SUFFIXES in Hs'. simpl in *. tauto.
    + unfold removal. by destruct (has ".manifest" b), (has ".sha256" b), (has "" b).
  - simpl. repeat constructor; simpl; intuition discriminate.
  - intros s _ Hs%has_in. by apply Hall.
Qed.

(** Sets of a directory with names of their own. *)
Definition distinct (l : list _Set) : Prop := List.NoDup (map s_name l).

Lemma doomed_other b expired s : is_name (s_name b) -> In s _SUFFIXES ->
  Forall (fun b' => is_name (s_name b') /\ forall t, In t (s_present b') -> In t _SUFFIXES) expired ->
  ~ In (s_name b) (map s_name expired) -> doomed expired (s_name b +:+ s) = false.
Proof.
  intros Hb Hs Hall Hin. destruct (doomed expired _) eqn:E; [|done]. exfalso.
  apply doomed_in in E as (b' & t & Hb' & Ht & He). rewrite List.Forall_forall in Hall.
  destruct (Hall b' Hb') as [Hn Hp]. destruct (split_once _ _ _ _ Hb Hn Hs (Hp t Ht) He) as [Hsame _].
  apply Hin, in_map_iff. by exists b'.
Qed.

Lemma intact_names l fs : Forall (intact fs) l ->
  Forall (fun b' => is_name (s_name b') /\ forall t, In t (s_present b') -> In t _SUFFIXES) l.
Proof. intros Hl. eapply Forall_impl; [exact Hl|]. intros b [? H]. split; [done|]. intros t Ht. by apply H. Qed.

Lemma intact_without b expired fs : intact fs b ->
  Forall (fun b' => is_name (s_name b') /\ forall t, In t (s_present b') -> In t _SUFFIXES) expired ->
  ~ In (s_name b) (map s_name expired) -> intact (without expired fs) b.
Proof.
  intros [Hn Hall] He Hin. split; [done|]. intros s Hs. destruct (Hall s Hs) as [? ?]. split; [done|].
  by rewrite file_at_without by (by apply doomed_other).
Qed.

(** What the loops do: the same as removing one set after the other. *)
Lemma remove_where_run expired l d : distinct l -> Forall (intact (files d)) l ->
  remove_where expired l d =
    (Ok (map (fun b => if expired b then cleared b else b) l, length (List.filter expired l)),
     {| files := without (List.filter expired l) (files d);
        events := events d ++ concat (map removal (List.filter expired l)) |}).
Proof.
  revert d. induction l as [|b l IH]; intros d Hd Hall; simpl.
  - destruct d; unfold mret, M_ret; simpl. rewrite app_nil_r. do 2 f_equal. symmetry.
    by apply forallb_filter_id, forallb_forall.
  - inversion Hd as [|? ? Hb Hd']; subst. apply Forall_cons_1 in Hall as [Hib Hall].
    destruct (expired b) eqn:E.
    + rewrite (bind_eq _ _ _ _ _ (remove_run b d Hib)).
      erewrite bind_eq; [|apply IH; [done|]].
      * simpl. rewrite <- app_assoc. change (b :: List.filter expired l) with ([b] ++ List.filter expired l).
        by rewrite without_app.
      * simpl. rewrite List.Forall_forall in Hall |- *. intros b' Hb'. apply intact_without; [by apply Hall| |].
        { apply (intact_names _ (files d)). by apply Forall_singleton. }
        simpl. intros [He|[]]. apply Hb. rewrite He. by apply in_map.
    + by rewrite (bind_eq _ _ _ _ _ (IH _ Hd' Hall)).
Qed.

(** ** The selection

    The loops of [prune] as one filter: from the sets of the directory, the
    expired ones and the survivors.  What the filter amounts to is stated of the
    directory itself in BackupPolicySpec. *)

Definition sets_in (series : string) (key_series : option string) (fs : list File) : list sets :=
  (_scan fs (map f_name fs) (patterns_of (specs_of series key_series))).1.

Definition backups_in series key_series fs : list _Set := values_of (nth 0 (sets_in series key_series fs) []).
Definition keys_in series key_series fs : list _Set := values_of (nth 1 (sets_in series key_series fs) []).

Definition floor_in (minimum : Z) (keep : string) (backups : list _Set) : list string :=
  map s_name (take (Z.to_nat minimum) (newest_first backups)) ++ [keep].

Definition survivors (expired : _Set -> bool) (l : list _Set) : list _Set :=
  List.filter (fun b => negb (expired b)) l.

(** The expired sets, in the order of their removal, and the sets that stay. *)
Definition selection (series keep : string) (now : Z) (key_series : option string) (days minimum : Z)
    (fs : list File) : result (list _Set * list _Set) :=
  cutoff ← cutoff_of now days;
  let backups := backups_in series key_series fs in
  let sorted := sort_by by_name backups in
  let keys := sort_by by_name (keys_in series key_series fs) in
  _ ← guard_else (existsb (String.eqb keep) (map s_name (newest_first backups)))
    (RetentionError "new-backup-not-committed");
  let old := expired_backup (floor_in minimum keep backups) cutoff in
  match key_series with
  | None => Ok (List.filter old sorted, survivors old sorted ++ keys)
  | Some _ =>
      referenced ← source_keys (survivors old sorted);
      let unused := expired_key referenced (map s_created (survivors old sorted)) cutoff in
      Ok (List.filter old sorted ++ List.filter unused keys, survivors old sorted ++ survivors unused keys)
  end.

Lemma in_values se seen fs s b : good_sets fs se seen s -> In b (values_of s) ->
  In (s_name b, b) s /\ good_set fs se b.
Proof.
  intros [H1 H2 H3] ([k b'] & <- & Hin)%in_map_iff. destruct (H2 _ _ Hin) as [-> Hb]. done.
Qed.

Lemma values_distinct se seen fs s : good_sets fs se seen s -> distinct (values_of s).
Proof.
  intros [H1 H2 H3]. unfold distinct, values_of. rewrite map_map.
  assert (He : map (fun kv => s_name kv.2) s = dict_keys s).
  { apply map_ext_in. intros [k b] Hin. by destruct (H2 _ _ Hin) as [-> _]. }
  by rewrite He.
Qed.

Section Sets.
Context (series : string) (key_series : option string) (fs : list File).
Notation specs := (specs_of series key_series).

Lemma sets_scanned : scanned fs specs (map f_name fs) (sets_in series key_series fs).
Proof. apply scan_scanned, specs_separate. Qed.

(** The sets of both series: the index says of which. *)
Definition set_at (n : nat) : list _Set := values_of (nth n (sets_in series key_series fs) []).

Lemma set_at_spec n b : In b (set_at n) -> exists se, specs !! n = Some se /\ good_set fs se b.
Proof.
  intros Hb. destruct sets_scanned as [Hl Hg]. destruct (specs !! n) as [se|] eqn:E.
  - exists se. split; [done|]. exact (proj2 (in_values _ _ _ _ _ (Hg n se E) Hb)).
  - apply lookup_ge_None in E. unfold set_at in Hb. rewrite nth_overflow in Hb by lia. done.
Qed.

Lemma set_at_distinct n : distinct (set_at n).
Proof.
  destruct sets_scanned as [Hl Hg]. destruct (specs !! n) as [se|] eqn:E.
  - exact (values_distinct _ _ _ _ (Hg n se E)).
  - apply lookup_ge_None in E. unfold set_at. rewrite nth_overflow by lia. constructor.
Qed.

Lemma set_at_once m n a b : In a (set_at m) -> In b (set_at n) -> s_name a = s_name b -> m = n.
Proof.
  intros (se & Hm & [(s & _ & Hs & _) _ _])%set_at_spec (se' & Hn & [(s' & _ & Hs' & _) _ _])%set_at_spec He.
  rewrite Hs, Hs' in He. by apply (sep_once _ (specs_separate series key_series) _ _ _ _ _ _ Hm Hn) in He.
Qed.

Lemma set_at_intact n b : In b (set_at n) -> intact fs b /\ s_present b <> [].
Proof.
  intros (se & Hn & [(s & _ & Hs & _) Hf He])%set_at_spec. split; [|done]. split.
  - rewrite Hs. by eapply sep_names; [apply specs_separate|].
  - intros t Ht. destruct (Hf t Ht) as (? & f & -> & _). done.
Qed.
End Sets.

Lemma sort_distinct l : distinct l -> distinct (sort_by by_name l).
Proof. intros H. unfold distinct. eapply Permutation_NoDup; [|exact H]. apply Permutation_map. symmetry. apply sort_by_perm. Qed.

Lemma in_sorted b l : In b (sort_by by_name l) -> In b l.
Proof. apply Permutation_in, sort_by_perm. Qed.

Lemma filter_distinct p l : distinct l -> distinct (List.filter p l).
Proof.
  unfold distinct. induction l as [|b l IH]; simpl; [done|]. inversion 1 as [|? ? Hb Hl]; subst.
  destruct (p b); simpl; [|auto]. constructor; [|auto].
  intros (b' & He & [Hin _]%filter_In)%in_map_iff. apply Hb, in_map_iff. by exists b'.
Qed.

Lemma cleared_present (expired : _Set -> bool) l : Forall (fun b => s_present b <> []) l ->
  List.filter (fun b => negb (Nat.eqb (length (s_present b)) 0)) (map (fun b => if expired b then cleared b else b) l)
  = survivors expired l.
Proof.
  unfold survivors. induction 1 as [|b l Hb _ IH]; simpl; [done|]. destruct (expired b); simpl; [done|].
  destruct (s_present b); [done|]. simpl. by rewrite IH.
Qed.

Lemma cleared_complete (expired : _Set -> bool) l :
  count complete (map (fun b => if expired b then cleared b else b) l) = count complete (survivors expired l).
Proof.
  unfold count, survivors. induction l as [|b l IH]; simpl; [done|]. destruct (expired b); simpl; [|by destruct (complete b); simpl; rewrite IH].
  assert (Hc : complete (cleared b) = false) by (unfold complete, all_present; simpl; by rewrite andb_false_r).
  by rewrite Hc.
Qed.

Lemma count_app {A} (p : A -> bool) a b : count p (a ++ b) = (count p a + count p b)%nat.
Proof. unfold count. by rewrite List.filter_app, length_app. Qed.

Lemma patterns_in series key_series :
  _pattern series ".sqlite3.age" :: match key_series with Some k => [_pattern k ".tar.age"] | None => [] end
  = patterns_of (specs_of series key_series).
Proof. by destruct key_series. Qed.

(** ** The refinement *)

Lemma all_intact series key_series n fs expired : Forall (intact fs) (List.filter expired (sort_by by_name (set_at series key_series fs n))).
Proof.
  apply List.Forall_forall. intros b [Hb%in_sorted _]%filter_In. by apply set_at_intact in Hb as [? _].
Qed.

(** The key sets are whole when the backup sets have been removed. *)
Lemma keys_intact series key_series fs expired :
  Forall (intact (without (List.filter expired (sort_by by_name (set_at series key_series fs 0))) fs))
    (sort_by by_name (set_at series key_series fs 1)).
Proof.
  apply List.Forall_forall. intros b Hb%in_sorted. apply intact_without.
  - by apply set_at_intact in Hb as [? _].
  - eapply intact_names, all_intact.
  - intros (b' & He & [Hb'%in_sorted _]%filter_In)%in_map_iff.
    by pose proof (set_at_once _ _ _ _ _ _ _ Hb' Hb He).
Qed.

Lemma nothing_removed d : {| files := without [] (files d); events := events d ++ concat (map removal []) |} = d.
Proof.
  destruct d as [fs es]. simpl. rewrite app_nil_r. f_equal. unfold without. simpl.
  by apply forallb_filter_id, forallb_forall.
Qed.

Section Run.
Context (series keep : string) (now : Z) (key_series : option string) (days minimum : Z).

Lemma decompose {A B S} (m : M S (A * nat)) (f : A -> nat -> M S B) s a n s1 :
  m s = (Ok (a, n), s1) -> ('(x, y) ← m; f x y) s = f a n s1.
Proof. intros H. by rewrite (bind_eq _ _ _ _ _ H). Qed.

Lemma prune_selection d :
  0 <= days -> 1 <= minimum ->
  match selection series keep now key_series days minimum (files d) with
  | Ok (expired, kept) => exists ignored,
      prune (Some true) series keep true now key_series days minimum d =
        (Ok {| rt_removed := length expired; rt_kept := count complete kept; rt_ignored := ignored |},
         {| files := without expired (files d);
            events := events d ++ concat (map removal expired) ++ [Sync] |})
  | Raise e => exists removed,
      prune (Some true) series keep true now key_series days minimum d =
        (Raise e, {| files := without removed (files d); events := events d ++ concat (map removal removed) |})
      /\ (e <> TypeError -> removed = []) /\ distinct removed
      /\ (forall b, In b removed -> In b (backups_in series key_series (files d)))
      /\ (e = TypeError -> exists cutoff, cutoff_of now days = Ok cutoff
           /\ removed = List.filter (expired_backup (floor_in minimum keep (backups_in series key_series (files d))) cutoff)
                          (sort_by by_name (backups_in series key_series (files d))))
  end.
Proof.
  intros Hdays Hmin. unfold selection, prune.
  assert (Hargs : (days <? 0) || (minimum <? 1) || negb true = false).
  { destruct (Z.ltb_spec days 0); [lia|]. destruct (Z.ltb_spec minimum 1); [lia|]. done. }
  rewrite Hargs. clear Hargs.
  rewrite (bind_eq (require (negb false) ValueError) _ d tt d eq_refl).
  destruct (cutoff_of now days) as [cutoff|e] eqn:Hc; cbn [mbind result_bind].
  2: { exists []. rewrite nothing_removed. split; [|split_and!; [done|constructor|done|intros ->; unfold cutoff_of in Hc; by destruct (_ <? 0)]].
    by rewrite (bind_raises (lift (Raise e)) _ d e d eq_refl). }
  rewrite (bind_eq (lift (Ok cutoff)) _ d cutoff d eq_refl).
  rewrite (bind_eq (mret tt) _ d tt d eq_refl).
  rewrite (bind_eq (gets files) _ d (files d) d eq_refl).
  rewrite patterns_in. unfold backups_in, keys_in, sets_in.
  destruct (_scan (files d) (map f_name (files d)) _) as [found ignored] eqn:Hscan.
  assert (Hset : forall n, values_of (nth n found []) = set_at series key_series (files d) n)
    by (intros n; unfold set_at, sets_in; by rewrite Hscan).
  cbn [fst]. rewrite !Hset. cbv zeta.
  destruct (existsb (String.eqb keep) _) eqn:Hkeep; cbn [guard_else mbind result_bind].
  2: { exists []. rewrite nothing_removed. split; [|split_and!; [done|constructor|done|done]].
    by rewrite (bind_raises (require false _) _ d _ d eq_refl). }
  rewrite (bind_eq (require true _) _ d tt d eq_refl).
  set (backups := set_at series key_series (files d) 0). set (keys := set_at series key_series (files d) 1).
  fold (floor_in minimum keep backups). set (old := expired_backup (floor_in minimum keep backups) cutoff).
  assert (Hall : Forall (intact (files d)) (sort_by by_name backups)).
  { apply List.Forall_forall. intros b Hb%in_sorted. by apply set_at_intact in Hb as [? _]. }
  assert (Hsome : Forall (fun b => s_present b <> []) (sort_by by_name backups)).
  { apply List.Forall_forall. intros b Hb%in_sorted. by apply set_at_intact in Hb as [_ ?]. }
  rewrite (decompose _ _ _ _ _ _ (remove_where_run old _ d (sort_distinct _ (set_at_distinct _ _ _ 0)) Hall)).
  destruct key_series as [k|].
  - rewrite cleared_present by done. destruct (source_keys _) as [referenced|e] eqn:Href; cbn [mbind result_bind].
    2: { exists (List.filter old (sort_by by_name backups)).
      rewrite (bind_raises _ _ _ _ _ (bind_raises (lift (Raise e)) _ _ e _ eq_refl)).
      split_and!; [done| |by apply filter_distinct, sort_distinct, set_at_distinct| |].
      - unfold source_keys in Href. destruct (forallb _ _); [done|]. by injection Href as <-.
      - by intros b [Hb%in_sorted _]%filter_In.
      - intros _. by exists cutoff. }
    set (unused := expired_key referenced _ cutoff).
    pose (d1 := {| files := without (List.filter old (sort_by by_name backups)) (files d);
                   events := events d ++ concat (map removal (List.filter old (sort_by by_name backups))) |}).
    pose proof (remove_where_run unused (sort_by by_name keys) d1 (sort_distinct _ (set_at_distinct _ _ _ 1))
      (keys_intact _ _ (files d) old)) as Hrun.
    rewrite (decompose _ _ d1 _ _ _ (eq_trans (bind_eq (lift (Ok referenced)) _ d1 _ d1 eq_refl) Hrun)).
    exists ignored. rewrite (bind_eq fsync _ _ tt _ eq_refl). unfold mret, M_ret. simpl.
    rewrite !cleared_complete, length_app, count_app, map_app, concat_app, without_app, <- !app_assoc. done.
  - rewrite (decompose (mret (keys, 0%nat)) _ _ _ _ _ eq_refl). exists ignored.
    rewrite (bind_eq fsync _ _ tt _ eq_refl). unfold mret, M_ret. simpl.
    rewrite cleared_complete, Nat.add_0_r, count_app, <- !app_assoc. do 3 f_equal.
    assert (Hkeys : keys = []).
    { unfold keys, set_at. destruct (sets_scanned series None (files d)) as [Hl _].
      rewrite nth_overflow by (simpl in Hl; lia). done. }
    by rewrite Hkeys.
Qed.

End Run.

(** A run that returns had valid arguments, and removed the selection. *)
Lemma prune_ok root_owned series keep aware now key_series days minimum d r d' :
  prune root_owned series keep aware now key_series days minimum d = (Ok r, d') ->
  0 <= days /\ 1 <= minimum /\ root_owned = Some true /\ aware = true.
Proof.
  unfold prune. intros H. apply bind_ok in H as ([] & d1 & Hreq & H). unfold require in Hreq.
  destruct (_ || _) eqn:E in Hreq; [done|]. injection Hreq as <-.
  apply orb_false_iff in E as [[E1 E2]%orb_false_iff E3]. apply Z.ltb_ge in E1, E2.
  apply bind_ok in H as (cutoff & d1 & [_ ->]%lift_ok & H).
  apply bind_ok in H as (u & d1 & Hroot & _). destruct root_owned as [[]|]; try done.
  by destruct aware.
Qed.

Lemma prune_did root_owned series keep aware now key_series days minimum d r d' :
  prune root_owned series keep aware now key_series days minimum d = (Ok r, d') ->
  exists expired kept, selection series keep now key_series days minimum (files d) = Ok (expired, kept)
    /\ rt_removed r = length expired /\ rt_kept r = count complete kept
    /\ files d' = without expired (files d) /\ events d' = events d ++ concat (map removal expired) ++ [Sync].
Proof.
  intros H. destruct (prune_ok _ _ _ _ _ _ _ _ _ _ _ H) as (Hd & Hm & -> & ->).
  pose proof (prune_selection series keep now key_series days minimum d Hd Hm) as Hp.
  destruct (selection series keep now key_series days minimum (files d)) as [[expired kept]|e].
  - destruct Hp as (ignored & Hp). rewrite Hp in H. injection H as <- <-. by exists expired, kept.
  - destruct Hp as (removed & Hp & _). by rewrite Hp in H.
Qed.

Lemma filter_perm {A} (p : A -> bool) l l' : Permutation l l' -> Permutation (List.filter p l) (List.filter p l').
Proof.
  induction 1 as [|x l l' _ IH|x y l|l l' l'' _ IH1 _ IH2]; simpl; [done| | |by etrans].
  - destruct (p x); [by constructor|done].
  - destruct (p x), (p y); try done. apply Permutation_swap.
Qed.

Lemma count_sorted {A} (p : A -> bool) l l' : Permutation l l' -> count p l = count p l'.
Proof. intros H. unfold count. by apply Permutation_length, filter_perm. Qed.

Lemma count_floor (old : _Set -> bool) floor l : (forall b, old b = true -> ~ In (s_name b) floor) ->
  (count complete (List.filter (fun b => existsb (String.eqb (s_name b)) floor) l)
   <= count complete (survivors old l))%nat.
Proof.
  intros Hold. unfold count, survivors. rewrite !filter_filter. induction l as [|b l IH]; simpl; [done|].
  destruct (existsb (String.eqb (s_name b)) floor) eqn:E; simpl.
  - assert (Ho : old b = false).
    { destruct (old b) eqn:Eo; [|done]. destruct (Hold b Eo). by apply one_of_words_in. }
    rewrite Ho. simpl. destruct (complete b); simpl; lia.
  - destruct (negb (old b) && complete b); simpl; lia.
Qed.

(** What the selection decides about each set. *)
Lemma selection_ok series keep now key_series days minimum fs expired kept :
  selection series keep now key_series days minimum fs = Ok (expired, kept) ->
  let backups := backups_in series key_series fs in
  let floor := floor_in minimum keep backups in
  cutoff_of now days = Ok (now - days * day)
  /\ (exists b, In b (newest_first backups) /\ s_name b = keep)
  /\ (forall b, In b expired -> s_unsafe b = false /\ s_created b < now - days * day
       /\ (complete b || negb (committed b) = true)
       /\ exists n, In b (set_at series key_series fs n) /\ (n = 0%nat -> ~ In (s_name b) floor))
  /\ (forall b, In b backups -> In (s_name b) floor -> In b kept)
  /\ (count complete (List.filter (fun b => existsb (String.eqb (s_name b)) floor) backups)
      <= count complete kept)%nat.
Proof.
  unfold selection. intros H. simpl. destruct (cutoff_of now days) as [cutoff|] eqn:Hc; simpl in H; [|done].
  assert (cutoff = now - days * day) as ->.
  { unfold cutoff_of in Hc. destruct (_ <? 0); [done|]. by injection Hc as <-. }
  split; [done|]. set (backups := backups_in series key_series fs) in *.
  set (floor := floor_in minimum keep backups) in *. set (old := expired_backup floor _) in *.
  destruct (existsb _ _) eqn:Hkeep; simpl in H; [|done].
  assert (Hold : forall b, old b = true -> s_unsafe b = false /\ s_created b < now - days * day
    /\ (complete b || negb (committed b) = true) /\ ~ In (s_name b) floor).
  { intros b Hb. unfold old, expired_backup in Hb. rewrite andb_true_iff, negb_true_iff, !orb_false_iff in Hb.
    destruct Hb as [[[Hu Hf] Ht] Hcm]. apply Z.leb_gt in Ht. split_and!; try done.
    intros Hin%one_of_words_in. unfold one_of_words in Hin. congruence. }
  assert (Hstay : forall b, In b backups -> In (s_name b) floor -> In b (survivors old (sort_by by_name backups))).
  { intros b Hb Hf. apply filter_In. split; [eapply Permutation_in; [symmetry; apply sort_by_perm|done]|].
    destruct (old b) eqn:E; [|done]. by destruct (Hold b E) as (_ & _ & _ & []). }
  assert (Hcount : (count complete (List.filter (fun b => existsb (String.eqb (s_name b)) floor) backups)
    <= count complete (survivors old (sort_by by_name backups)))%nat).
  { rewrite (count_sorted complete (survivors old (sort_by by_name backups)) (survivors old backups))
      by (apply filter_perm, sort_by_perm).
    apply count_floor. intros b Hb. by apply Hold. }
  split.
  { apply existsb_exists in Hkeep as (n & Hn & ->%String.eqb_eq). apply in_map_iff in Hn as (b & <- & Hb). by exists b. }
  destruct key_series as [k|].
  - destruct (source_keys _) as [referenced|] eqn:Href; simpl in H; [|done]. injection H as <- <-.
    split_and!.
    + intros b [[Hb Ho]%filter_In|[Hb Ho]%filter_In]%in_app_or.
      * destruct (Hold b Ho) as (? & ? & ? & ?). split_and!; try done. exists 0%nat.
        split; [by apply in_sorted in Hb|done].
      * unfold expired_key in Ho. rewrite andb_true_iff, negb_true_iff, !orb_false_iff in Ho.
        destruct Ho as [[[[Hu _] _] Ht] Hcm]. apply Z.leb_gt in Ht. split_and!; try done. exists 1%nat.
        split; [by apply in_sorted in Hb|done].
    + intros b Hb Hf. apply in_or_app. left. auto.
    + rewrite count_app. lia.
  - injection H as <- <-. split_and!.
    + intros b [Hb Ho]%filter_In. destruct (Hold b Ho) as (? & ? & ? & ?). split_and!; try done. exists 0%nat.
      split; [by apply in_sorted in Hb|done].
    + intros b Hb Hf. apply in_or_app. left. auto.
    + rewrite count_app. lia.
Qed.

(** *** The newest sets stay *)

Lemma in_newest b l : In b (newest_first l) <-> In b l /\ complete b = true.
Proof.
  unfold newest_first. rewrite <- in_rev.
  assert (Hp : In b (sort_by by_name (List.filter complete l)) <-> In b (List.filter complete l))
    by (split; apply Permutation_in; [|symmetry]; apply sort_by_perm).
  by rewrite Hp, filter_In.
Qed.

Lemma complete_has b s : complete b = true -> In s _SUFFIXES -> In s (s_present b).
Proof.
  unfold complete, all_present. rewrite !andb_true_iff, forallb_forall. intros [[_ [H _]] _] Hs.
  by apply has_in, H.
Qed.

(** No expired set takes a file of a set the floor names. *)
Lemma floor_not_doomed series keep now key_series days minimum fs expired kept b s :
  selection series keep now key_series days minimum fs = Ok (expired, kept) ->
  In b (backups_in series key_series fs) ->
  In (s_name b) (floor_in minimum keep (backups_in series key_series fs)) ->
  In s _SUFFIXES -> doomed expired (s_name b +:+ s) = false.
Proof.
  intros Hp Hb Hf Hs. destruct (doomed expired _) eqn:E; [|done]. exfalso.
  apply doomed_in in E as (b' & t & Hb' & Ht & He).
  apply selection_ok in Hp as (_ & _ & Hexp & _). destruct (Hexp b' Hb') as (_ & _ & _ & n & Hn & Hnf).
  destruct (set_at_intact series key_series fs 0 b Hb) as [[Hname _] _].
  destruct (set_at_intact series key_series fs n b' Hn) as [[Hname' Hfiles] _].
  destruct (split_once _ _ _ _ Hname Hname' Hs (proj1 (Hfiles t Ht)) He) as [Hsame _].
  pose proof (set_at_once series key_series fs _ _ _ _ Hb Hn Hsame) as <-.
  apply (Hnf eq_refl). by rewrite <- Hsame.
Qed.

(** A run that returns leaves every file of the newest [minimum] complete
    backups, and of the one just written, where it was; so at least that many
    complete sets are kept, or all of them when there are fewer. *)
Theorem newest_backups_survive root_owned series keep aware now key_series days minimum d r d' :
  prune root_owned series keep aware now key_series days minimum d = (Ok r, d') ->
  let backups := backups_in series key_series (files d) in
  (forall b s, In b (newest_first backups) ->
     In b (take (Z.to_nat minimum) (newest_first backups)) \/ s_name b = keep -> In s _SUFFIXES ->
     file_at (s_name b +:+ s) (files d') = file_at (s_name b +:+ s) (files d)
     /\ file_at (s_name b +:+ s) (files d') <> None)
  /\ (exists b, In b (newest_first backups) /\ s_name b = keep)
  /\ (Nat.min (Z.to_nat minimum) (count complete backups) <= rt_kept r)%nat.
Proof.
  intros (expired & kept & Hp & _ & Hkept & Hfiles & _)%prune_did backups.
  pose proof (selection_ok _ _ _ _ _ _ _ _ _ Hp) as (_ & Hkeep & _ & _ & Hcount).
  fold backups in Hkeep, Hcount. split_and!; [|done|].
  - intros b s Hb Hfloor Hs. pose proof Hb as Hc. apply in_newest in Hc as [Hin Hc].
    assert (Hf : In (s_name b) (floor_in minimum keep backups)).
    { apply in_or_app. destruct Hfloor as [H|H]; [left; by apply in_map|right; by left]. }
    rewrite Hfiles, file_at_without by (by eapply floor_not_doomed). split; [done|].
    destruct (set_at_intact series key_series (files d) 0 b Hin) as [[_ Hall] _].
    by apply Hall, complete_has.
  - rewrite Hkept. etrans; [|exact Hcount]. unfold count. rewrite filter_filter.
    assert (Hlen : length (newest_first backups) = length (List.filter complete backups)).
    { unfold newest_first. rewrite length_rev. apply Permutation_length, sort_by_perm. }
    rewrite <- Hlen, <- length_take. apply NoDup_incl_length.
    + apply (NoDup_map_inv s_name). rewrite <- firstn_map.
      apply (NoDup_app_remove_r _ (drop (Z.to_nat minimum) (map s_name (newest_first backups)))).
      rewrite take_drop. unfold newest_first. rewrite map_rev. apply NoDup_rev, sort_distinct, filter_distinct.
      apply (set_at_distinct series key_series (files d) 0).
    + intros b Hb. assert (Hn : In b (newest_first backups)).
      { rewrite <- (take_drop (Z.to_nat minimum) (newest_first backups)). apply in_or_app. by left. }
      apply in_newest in Hn as [Hin Hc]. apply filter_In. split; [done|]. rewrite Hc, andb_true_r.
      apply one_of_words_in. apply in_or_app. left. by apply in_map.
Qed.

(** A run that returns unlinks only regular files of the current user whose
    name is that of a set of one of the two series - with a valid time stamp
    before the cutoff - under a known suffix. *)
Theorem only_expired_safe_files root_owned series keep aware now key_series days minimum d r d' f :
  prune root_owned series keep aware now key_series days minimum d = (Ok r, d') ->
  List.NoDup (map f_name (files d)) ->
  In f (files d) -> ~ In f (files d') ->
  f_regular f = true /\ f_owned f = true
  /\ exists se stamp suffix created,
       In se (specs_of series key_series) /\ f_name f = name_in se stamp +:+ suffix /\ In suffix _SUFFIXES
       /\ strptime stamp = Some created /\ created < now - days * day.
Proof.
  intros (expired & kept & Hp & _ & _ & Hfiles & _)%prune_did Hnd Hin Hout.
  assert (Hd : doomed expired (f_name f) = true).
  { destruct (doomed _ _) eqn:E; [done|]. exfalso. apply Hout. rewrite Hfiles. apply filter_In. by rewrite E. }
  apply doomed_in in Hd as (b & s & Hb & Hs & He).
  apply selection_ok in Hp as (_ & _ & Hexp & _). destruct (Hexp b Hb) as (Hu & Ht & _ & n & Hn & _).
  apply set_at_spec in Hn as (se & Hse & [(stamp & _ & Hname & Hstamp) Hfs _]).
  destruct (Hfs s Hs) as (Hs' & g & Hg & Hsafe). specialize (Hsafe Hu).
  assert (Hgf : g = f).
  { unfold file_at in Hg. apply find_some in Hg as [Hg Hgn%String.eqb_eq]. rewrite <- He in Hgn.
    clear -Hnd Hin Hg Hgn. induction (files d) as [|x l IH]; [done|]. simpl in *.
    inversion Hnd as [|? ? Hx Hl]; subst. destruct Hin as [->|Hin], Hg as [->|Hg]; try done; auto.
    - exfalso. apply Hx, in_map_iff. eauto.
    - exfalso. apply Hx, in_map_iff. eauto. }
  subst g. unfold safe_file in Hsafe. apply andb_true_iff in Hsafe as [? ?]. split_and!; [done|done|].
  exists se, stamp, s, (s_created b). split_and!; try done.
  - apply list_elem_of_lookup_2 in Hse. by apply list_elem_of_In.
  - by rewrite He, Hname.
Qed.

(** *** Crashes *)

Definition unlinked (evs : list event) : list string :=
  omap (fun e => match e with Unlink name => Some name | Sync => None end) evs.

(** The files a crash may leave missing: the run stops after some of its
    events; the unlinks up to the last sync are on disk, of those after it any. *)
Definition crash_state (evs : list event) (gone : list string) : Prop :=
  exists durable pending rest, evs = durable ++ pending ++ rest /\ ~ In Sync pending
    /\ incl (unlinked durable) gone /\ incl gone (unlinked (durable ++ pending)).

Definition after_crash (gone : list string) (fs : list File) : list File :=
  List.filter (fun f => negb (existsb (String.eqb (f_name f)) gone)) fs.

Lemma in_unlinked name evs : In name (unlinked evs) <-> In (Unlink name) evs.
Proof.
  unfold unlinked. rewrite omap_In. split; [|intros; by exists (Unlink name)].
  intros ([n|] & Hin & [= ->]). done.
Qed.

(** What precedes and follows a sync: an event after it is pending only if the
    sync is not, so that the event before the sync is durable. *)
Lemma synced_before {A} (durable pending rest before after : list A) (u sync y : A) :
  durable ++ pending ++ rest = before ++ u :: sync :: after ->
  ~ In sync pending -> In y (durable ++ pending) -> ~ In y before -> y <> u -> y <> sync ->
  In u durable.
Proof.
  intros Heq Hs Hy Hb Hu Hy'. apply list_elem_of_In, list_elem_of_lookup in Hy as [i Hi].
  assert (Hw : (durable ++ pending ++ rest) !! i = Some y).
  { rewrite app_assoc. by apply lookup_app_l_Some. }
  assert (Hge : (length before + 2 <= i)%nat).
  { rewrite Heq in Hw. destruct (decide (i < length before)%nat).
    - rewrite lookup_app_l in Hw by done. exfalso. apply Hb, list_elem_of_In. by eapply list_elem_of_lookup_2.
    - rewrite lookup_app_r in Hw by lia. destruct (i - length before)%nat as [|[|k]] eqn:E; simpl in Hw; [congruence..|lia]. }
  assert (Hsync : (durable ++ pending ++ rest) !! (length before + 1)%nat = Some sync).
  { rewrite Heq, lookup_app_r by lia. by replace (length before + 1 - length before)%nat with 1%nat by lia. }
  assert (Hlt : (length before + 1 < length durable)%nat).
  { destruct (decide (length before + 1 < length durable)%nat); [done|]. exfalso. apply Hs, list_elem_of_In.
    rewrite lookup_app_r in Hsync by lia. apply lookup_lt_Some in Hi. rewrite length_app in Hi.
    rewrite lookup_app_l in Hsync by lia. by eapply list_elem_of_lookup_2. }
  assert (Hun : (durable ++ pending ++ rest) !! length before = Some u).
  { rewrite Heq, lookup_app_r by lia. by rewrite Nat.sub_diag. }
  rewrite lookup_app_l in Hun by lia. apply list_elem_of_In. by eapply list_elem_of_lookup_2.
Qed.

Lemma in_removal name b : In (Unlink name) (removal b) ->
  exists s, In s _SUFFIXES /\ has s b = true /\ name = s_name b +:+ s.
Proof.
  unfold removal. rewrite !in_app_iff. intros [H|[H|H]].
  - destruct (has ".manifest" b) eqn:E; [|done]. destruct H as [[= <-]|[|[]]]; [|done].
    exists ".manifest". split_and!; [right; right; by left|done|done].
  - destruct (has ".sha256" b) eqn:E; [|done]. destruct H as [[= <-]|[]]. exists ".sha256".
    split_and!; [right; by left|done|done].
  - destruct (has "" b) eqn:E; [|done]. destruct H as [[= <-]|[]]. exists "". split_and!; [by left|done|done].
Qed.

(** The scan misses no member of a set it found. *)
Lemma set_has series key_series fs n b s : In b (set_at series key_series fs n) -> In s _SUFFIXES ->
  file_at (s_name b +:+ s) fs <> None -> has s b = true.
Proof.
  intros Hb Hs Hf. pose proof (set_at_spec _ _ _ _ _ Hb) as (se & Hse & [(stamp & Hl & Hname & Ht) _ _]).
  destruct (sets_scanned series key_series fs) as [_ Hg]. specialize (Hg n se Hse).
  destruct (gd_seen _ _ _ _ Hg stamp s) as (b' & Hb' & Hh); try done.
  - by rewrite Ht.
  - rewrite <- Hname. apply in_map_iff. unfold file_at in Hf. destruct (List.find _ fs) as [f|] eqn:E; [|done].
    apply find_some in E as [? ?%String.eqb_eq]. by exists f.
  - by rewrite <- Hname.
  - rewrite <- Hname in Hb'. assert (b' = b) as <-; [|done].
    destruct (in_values _ _ _ _ b Hg Hb) as [Hin _].
    pose proof (dict_get_in _ _ _ (gd_keys _ _ _ _ Hg) Hb'). pose proof (dict_get_in _ _ _ (gd_keys _ _ _ _ Hg) Hin).
    congruence.
Qed.

Lemma expired_distinct series keep now key_series days minimum fs expired kept :
  selection series keep now key_series days minimum fs = Ok (expired, kept) -> distinct expired.
Proof.
  unfold selection. destruct (cutoff_of _ _) as [cutoff|]; simpl; [|done].
  destruct (existsb _ _); simpl; [|done].
  assert (H0 : forall p, distinct (List.filter p (sort_by by_name (backups_in series key_series fs))))
    by (intros p; apply filter_distinct, sort_distinct, (set_at_distinct _ _ _ 0)).
  destruct key_series as [k|]; [|by intros [= <- _]].
  destruct (source_keys _) as [referenced|]; simpl; [|done]. intros [= <- _].
  unfold distinct. rewrite map_app. apply List.NoDup_app; [apply H0| |].
  - apply filter_distinct, sort_distinct, (set_at_distinct _ _ _ 1).
  - intros name (b & <- & [Hb%in_sorted _]%filter_In)%in_map_iff (b' & He & [Hb'%in_sorted _]%filter_In)%in_map_iff.
    by pose proof (set_at_once _ _ _ 0 1 _ _ Hb Hb' (eq_sym He)).
Qed.

(** Whatever a run's outcome, it removed some sets of the directory in order. *)
Lemma prune_trace root_owned series keep aware now key_series days minimum d out d' :
  prune root_owned series keep aware now key_series days minimum d = (out, d') ->
  exists removed tail, events d' = events d ++ concat (map removal removed) ++ tail
    /\ (forall e, In e tail -> e = Sync) /\ distinct removed
    /\ forall b, In b removed -> exists n, In b (set_at series key_series (files d) n).
Proof.
  intros H. destruct (decide (0 <= days /\ 1 <= minimum /\ root_owned = Some true /\ aware = true))
    as [(Hd & Hm & -> & ->)|Hno].
  - pose proof (prune_selection series keep now key_series days minimum d Hd Hm) as Hp.
    destruct (selection series keep now key_series days minimum (files d)) as [[expired kept]|e] eqn:E.
    + destruct Hp as (ignored & Hp). rewrite Hp in H. injection H as <- <-. exists expired, [Sync].
      split_and!; [done|by intros e [<-|[]]|by eapply expired_distinct|].
      intros b Hb. apply selection_ok in E as (_ & _ & Hexp & _).
      destruct (Hexp b Hb) as (_ & _ & _ & n & Hn & _). by exists n.
    + destruct Hp as (removed & Hp & _ & Hdist & Hin & _). rewrite Hp in H. injection H as <- <-.
      exists removed, []. simpl. rewrite app_nil_r. split_and!; [done|by intros e' []|done|].
      intros b Hb. exists 0%nat. by apply Hin.
  - assert (Hsame : d' = d).
    { unfold prune in H. destruct ((days <? 0) || (minimum <? 1) || negb aware) eqn:E.
      { rewrite (bind_raises (require (negb true) ValueError) _ d ValueError d eq_refl) in H. by injection H as _ <-. }
      rewrite (bind_eq (require (negb false) _) _ d tt d eq_refl) in H.
      destruct (cutoff_of now days) as [c|e]; [|by rewrite (bind_raises (lift (Raise e)) _ d e d eq_refl) in H; injection H as _ <-].
      rewrite (bind_eq (lift (Ok c)) _ d c d eq_refl) in H.
      destruct root_owned as [[]|]; [|by injection H as _ <-|by injection H as _ <-].
      exfalso. apply Hno. apply orb_false_iff in E as [[E1 E2]%orb_false_iff E3%negb_false_iff].
      apply Z.ltb_ge in E1, E2. done. }
    subst d'. exists [], []. simpl. rewrite app_nil_r. split_and!; [done|by intros e []|constructor|by intros b []].
Qed.

(** Crash safety: whatever a run's outcome, and wherever in it the machine
    stops - with any of the unlinks since the last directory sync lost - a
    manifest that is still there commits a set none of whose files is missing. *)
Theorem crash_leaves_no_false_backup root_owned series keep aware now key_series days minimum d out d' gone x s :
  prune root_owned series keep aware now key_series days minimum d = (out, d') ->
  events d = [] -> crash_state (events d') gone ->
  is_name x -> In s _SUFFIXES ->
  file_at (x +:+ ".manifest") (after_crash gone (files d)) <> None ->
  file_at (x +:+ s) (after_crash gone (files d)) = file_at (x +:+ s) (files d).
Proof.
  intros H He (durable & pending & rest & Hev & Hsync & Hdur & Hgone) Hx Hs Hman.
  apply prune_trace in H as (removed & tail & Htrace & Htail & Hdist & Hsets).
  rewrite He in Htrace. simpl in Htrace. rewrite Hev in Htrace. clear Hev He.
  assert (Hkept : ~ In (x +:+ ".manifest") gone /\ file_at (x +:+ ".manifest") (files d) <> None).
  { unfold file_at, after_crash in *. destruct (List.find _ (List.filter _ _)) as [f|] eqn:E; [|done].
    apply find_some in E as [[Hf Hg]%filter_In Hn]. split.
    - apply String.eqb_eq in Hn. rewrite Hn in Hg. by apply negb_true_iff, one_of_words_not in Hg.
    - destruct (List.find _ (files d)) eqn:E2; [done|]. by rewrite (find_none _ _ E2 f Hf) in Hn. }
  destruct Hkept as [Hstill Hwas].
  apply file_at_filter. intros f Hf. apply negb_true_iff, one_of_words_not. rewrite Hf. clear f Hf.
  intros Hlost. assert (Hne : s <> ".manifest") by (by intros ->).
  apply Hgone, in_unlinked in Hlost.
  (* the event is one of the removal of the set named x *)
  assert (Hall : In (Unlink (x +:+ s)) (concat (map removal removed))).
  { assert (Hin : In (Unlink (x +:+ s)) (durable ++ pending ++ rest)) by (rewrite app_assoc; apply in_or_app; by left).
    rewrite Htrace in Hin. apply in_app_or in Hin as [|Hin]; [done|]. by apply Htail in Hin. }
  apply in_concat in Hall as (l & (b & <- & Hb)%in_map_iff & Hl).
  apply in_removal in Hl as (t & Ht & Hh & Hxt). destruct (Hsets b Hb) as [n Hn].
  destruct (set_at_intact _ _ _ _ _ Hn) as [[Hname _] _].
  destruct (split_once _ _ _ _ Hx Hname Hs Ht Hxt) as [-> <-].
  assert (Hm : has ".manifest" b = true) by (eapply set_has; [exact Hn|right; right; by left|done]).
  apply List.in_split in Hb as (r1 & r2 & ->).
  rewrite map_app, concat_app in Htrace. simpl in Htrace. unfold removal at 2 in Htrace. rewrite Hm in Htrace.
  rewrite <- !app_assoc in Htrace. cbn [app] in Htrace.
  apply Hstill, Hdur, in_unlinked.
  eapply synced_before; [exact Htrace|exact Hsync|exact Hlost| | |done].
  - intros (l & (b' & <- & Hb')%in_map_iff & Hl)%in_concat.
    apply in_removal in Hl as (t & Ht' & _ & Hxt').
    destruct (Hsets b') as [n' Hn']; [apply in_or_app; by left|].
    destruct (set_at_intact _ _ _ _ _ Hn') as [[Hname' _] _].
    destruct (split_once _ _ _ _ Hname Hname' Hs Ht' Hxt') as [Hsame _].
    unfold distinct in Hdist. rewrite map_app in Hdist. apply NoDup_remove_2 in Hdist.
    apply Hdist, in_or_app. left. rewrite Hsame. by apply in_map.
  - intros [= Heq%str_app_inj_l]. done.
Qed.

(** *** A directory of four backups and a signing key *)

Definition quoted (s : string) : string := String "034" (s +:+ String "034" "").

Definition demo_file (name : string) (text : string) : File := {|
  f_name := name; f_regular := true; f_owned := true; f_size := Z.of_nat (String.length text); f_text := Some text |}.

Definition demo_backup (stamp : string) : list File :=
  let name := "controller-" +:+ stamp +:+ ".sqlite3.age" in
  [demo_file name "sealed"; demo_file (name +:+ ".sha256") "digest";
   demo_file (name +:+ ".manifest")
     ("{" +:+ quoted "name" +:+ ":" +:+ quoted name +:+ "," +:+ quoted "sourceKeys" +:+ ":"
      +:+ quoted ("keys-" +:+ stamp +:+ ".tar.age") +:+ "}")].

Definition demo_directory : Dir := {|
  files := concat (map demo_backup ["20240101T000000Z"; "20240102T000000Z"; "20241231T000000Z"; "20250101T000000Z"])
    ++ [demo_file "keys-20240101T000000Z.tar.age" "sealed"; demo_file "notes" ""];
  events := [] |}.

Definition demo_kept : string := "controller-20250101T000000Z.sqlite3.age".
Definition demo_now : Z := default 0 (strptime "20250102T000000Z").

Abbreviation demo_run :=
  (prune (Some true) "controller" demo_kept true demo_now (Some "keys") 14 2 demo_directory).

Example demo_removed : rt_removed <$> (match demo_run.1 with Ok r => Some r | Raise _ => None end) = Some 3%nat.
Proof. vm_compute. reflexivity. Qed.

Example demo_events : length (events demo_run.2) = 10%nat.
Proof. vm_compute. reflexivity. Qed.

Lemma demo_returns : exists r d', demo_run = (Ok r, d').
Proof. eexists _, _. vm_compute. reflexivity. Qed.

Lemma newest_backups_survive_witness : exists r d', demo_run = (Ok r, d') /\
  (exists b, In b (newest_first (backups_in "controller" (Some "keys") (files demo_directory)))
     /\ s_name b = demo_kept) /\
  (Nat.min (Z.to_nat 2) (count complete (backups_in "controller" (Some "keys") (files demo_directory))) <= rt_kept r)%nat.
Proof.
  destruct demo_returns as (r & d' & E). exists r, d'. split; [exact E|].
  exact (proj2 (newest_backups_survive _ _ _ _ _ _ _ _ _ _ _ E)).
Defined.

Lemma only_expired_safe_files_witness : exists r d', demo_run = (Ok r, d') /\
  forall f, In f (files demo_directory) -> ~ In f (files d') -> f_owned f = true.
Proof.
  destruct demo_returns as (r & d' & E).
  exists r, d'. split; [exact E|]. intros f Hin Hout.
  assert (Hnd : List.NoDup (map f_name (files demo_directory)))
    by (apply NoDup_ListNoDup, (bool_decide_eq_true_1 (NoDup (map f_name (files demo_directory)))); vm_compute; reflexivity).
  exact (proj1 (proj2 (only_expired_safe_files _ _ _ _ _ _ _ _ _ _ _ f E Hnd Hin Hout))).
Defined.

(** The machine stops after the first backup's manifest is unlinked and synced,
    and the next two files are unlinked but only one of them lost. *)
Lemma crash_leaves_no_false_backup_witness :
  let gone := ["controller-20240101T000000Z.sqlite3.age.manifest"; "controller-20240101T000000Z.sqlite3.age"] in
  let other := "controller-20240102T000000Z.sqlite3.age" in
  crash_state (events demo_run.2) gone
  /\ file_at (other +:+ ".sha256") (after_crash gone (files demo_directory))
     = file_at (other +:+ ".sha256") (files demo_directory).
Proof.
  intros gone other. set (evs := events demo_run.2).
  assert (Hc : crash_state evs gone).
  { exists (firstn 2 evs), (firstn 2 (skipn 2 evs)), (skipn 4 evs).
    set (x := "controller-20240101T000000Z.sqlite3.age").
    assert (firstn 2 evs = [Unlink (x +:+ ".manifest"); Sync]) as -> by (vm_compute; reflexivity).
    assert (firstn 2 (skipn 2 evs) = [Unlink (x +:+ ".sha256"); Unlink x]) as -> by (vm_compute; reflexivity).
    split_and!; [vm_compute; reflexivity|by intros [|[|[]]]| |]; intros y; simpl; tauto. }
  split; [exact Hc|].
  apply (crash_leaves_no_false_backup (Some true) "controller" demo_kept true demo_now (Some "keys") 14 2
    demo_directory demo_run.1 demo_run.2 gone other ".sha256"); [| |done| | |].
  - apply surjective_pairing.
  - done.
  - by exists "controller-20240102T000000Z.sqlite3".
  - right. by left.
  - assert (Hm : match file_at (other +:+ ".manifest") (after_crash gone (files demo_directory))
      with Some _ => true | None => false end = true) by (vm_compute; reflexivity).
    by destruct (file_at _ _).
Defined.
