(* ===== verification/BackupPolicySpec.v ===== *)
(** * The retention policy of local backups

    The policy is stated of the files of the directory alone: which names are
    sets, when a set is safe, complete and expired, which backups are the newest,
    and which key archives a remaining backup still needs.  [prune] unlinks the
    files of exactly the expired sets. *)

From S2P Require Import Prelude Regex Json JsonParse Validation Runtime Sql Schema StorageCapacity StorageContract.
From S2P Require Import Clock DeploymentConfig BackupRetention BackupRetentionSpec.

(** ** The policy *)

Section Policy.
Context (series keep : string) (now : Z) (key_series : option string) (days minimum : Z) (fs : list File).

Definition set_members : list string := [""; ".sha256"; ".manifest"].

Definition present (x suffix : string) : Prop := file_at (x +:+ suffix) fs <> None.

(** [x] names a set of a series, created at the time in its name, of which a
    file is present. *)
Definition set_of (se : string * string) (x : string) (created : Z) : Prop :=
  (exists stamp, x = se.1 +:+ "-" +:+ stamp +:+ se.2 /\ lang timestamp_re stamp /\ strptime stamp = Some created)
  /\ exists suffix, In suffix set_members /\ present x suffix.

Definition backup : string -> Z -> Prop := set_of (series, ".sqlite3.age"%string).

(** All its files are regular files of the current user. *)
Definition safe (x : string) : Prop :=
  forall suffix f, In suffix set_members -> file_at (x +:+ suffix) fs = Some f -> f_regular f = true /\ f_owned f = true.

(** The manifest of a safe set is a small file that holds the object [m]. *)
Definition manifest_reads (x : string) (m : dict) : Prop :=
  safe x /\ exists f text, file_at (x +:+ ".manifest") fs = Some f /\ f_size f <= 65536
    /\ f_text f = Some text /\ loads text = Some (JObj m).

Definition whole (x : string) : Prop :=
  (forall suffix, In suffix set_members -> present x suffix)
  /\ exists m, manifest_reads x m /\ dict_get "name" m = Some (JStr x).

(** Complete, or never committed; what is neither waits for an operator. *)
Definition finished (x : string) : Prop := whole x \/ ~ present x ".manifest".

Definition aged (created : Z) : Prop := created < now - days * day.

(** Fewer than [minimum] complete backups are later than [x]. *)
Definition among_newest (x : string) : Prop :=
  whole x /\ forall later, List.NoDup later ->
    (forall y, In y later -> (exists c, backup y c) /\ whole y /\ str_ltb x y = true) -> Z.of_nat (length later) < minimum.

Definition old_backup (x : string) (created : Z) : Prop :=
  backup x created /\ safe x /\ x <> keep /\ ~ among_newest x /\ aged created /\ finished x.

Definition remaining (x : string) (created : Z) : Prop := backup x created /\ ~ old_backup x created.

(** A key archive that no remaining backup names or shares its time with *)
Definition old_archive (x : string) (created : Z) : Prop :=
  (exists k, key_series = Some k /\ set_of (k, ".tar.age"%string) x created)
  /\ safe x /\ aged created /\ finished x
  /\ forall y c, remaining y c -> c <> created /\ forall m, manifest_reads y m -> dict_get "sourceKeys" m <> Some (JStr x).

(** ** What a run leaves *)

(** One set's unlinks: the manifest first, and the directory synced after it *)
Definition unlinks (x : string) : list event :=
  concat (map (fun suffix => match file_at (x +:+ suffix) fs with
                             | Some _ => Unlink (x +:+ suffix) :: (if String.eqb suffix ".manifest" then [Sync] else [])
                             | None => []
                             end) [".manifest"; ".sha256"; ""]).

Definition of_gone (gone : list string) (name : string) : Prop :=
  exists x suffix, In x gone /\ In suffix set_members /\ name = x +:+ suffix.

(** The files of the sets in [gone] are unlinked, set by set, and no other. *)
Definition swept (gone : list string) (tail : list event) (d d' : Dir) : Prop :=
  events d' = events d ++ concat (map unlinks gone) ++ tail
  /\ (forall name, of_gone gone name -> file_at name (files d') = None)
  /\ (forall name, ~ of_gone gone name -> file_at name (files d') = file_at name (files d)).

(** The sets with a property, each once, in the order of their names *)
Definition listed (P : string -> Prop) (l : list string) : Prop :=
  StronglySorted (fun a b => str_leb a b = true) l /\ List.NoDup l /\ forall x, In x l <-> P x.

Definition old_backups : list string -> Prop := listed (fun x => exists c, old_backup x c).
Definition old_archives : list string -> Prop := listed (fun x => exists c, old_archive x c).

Definition committed_set (x : string) : Prop :=
  ((exists c, backup x c) \/ exists k c, key_series = Some k /\ set_of (k, ".tar.age"%string) x c) /\ whole x.

(** How a run ends *)
Definition retained (d d' : Dir) (out : result RetentionResult) : Prop :=
  match out with
  | Ok r =>
      (exists c, backup keep c) /\ whole keep
      /\ exists backups archives kept, old_backups backups /\ old_archives archives
           /\ swept (backups ++ archives) [Sync] d d' /\ rt_removed r = length (backups ++ archives)
           /\ List.NoDup kept /\ (forall x, In x kept <-> committed_set x /\ ~ In x (backups ++ archives))
           /\ rt_kept r = length kept
  | Raise OverflowError => now - days * day < 0 /\ d' = d
  | Raise (RetentionError reason) =>
      reason = "new-backup-not-committed"%string /\ ~ ((exists c, backup keep c) /\ whole keep) /\ d' = d
  | Raise TypeError =>
      key_series <> None /\ (exists c, backup keep c) /\ whole keep
      /\ (exists y c m v, remaining y c /\ manifest_reads y m /\ dict_get "sourceKeys" m = Some v /\ hashable v = false)
      /\ exists backups, old_backups backups /\ swept backups [] d d'
  | Raise _ => False
  end.
End Policy.

(** ** The sets of the directory *)

Section Sets.
Context (series : string) (key_series : option string) (fs : list File).
Abbreviation specs := (specs_of series key_series).
Abbreviation sets_at := (set_at series key_series fs).

Lemma set_named n b se : In b (sets_at n) -> specs !! n = Some se -> set_of fs se (s_name b) (s_created b).
Proof.
  intros (se' & Hn & [(stamp & Hl & Hname & Ht) Hf Hsome _])%set_at_spec Hse. rewrite Hn in Hse. injection Hse as ->.
  split; [by exists stamp|]. destruct (s_present b) as [|suffix l] eqn:E; [done|].
  destruct (Hf suffix) as (Hs & f & Hat & _); [by left|]. exists suffix. split; [done|]. unfold present. by rewrite Hat.
Qed.

Lemma set_exists n se x c : specs !! n = Some se -> set_of fs se x c ->
  exists b, In b (sets_at n) /\ s_name b = x /\ s_created b = c.
Proof.
  intros Hn [(stamp & -> & Hl & Ht) (suffix & Hs & Hp)]. destruct (sets_scanned series key_series fs) as [_ Hg].
  specialize (Hg n se Hn). change (se.1 +:+ "-" +:+ stamp +:+ se.2) with (name_in se stamp) in *.
  destruct (gd_seen _ _ _ _ Hg stamp suffix) as (b & Hb & _); [done|by rewrite Ht|done| |done|].
  { unfold present, file_at in Hp. destruct (List.find _ fs) as [f|] eqn:E; [|done].
    apply find_some in E as [? <-%String.eqb_eq]. by apply in_map. }
  exists b. destruct (gd_sets _ _ _ _ Hg _ _ Hb) as [Hname [(stamp' & _ & Hname' & Ht') _ _ _]].
  split; [by apply (in_map snd) in Hb|]. split; [done|]. rewrite <- Hname in Hname'. apply name_in_inj in Hname' as <-.
  rewrite Ht in Ht'. by injection Ht'.
Qed.

Lemma same_set n a b : In a (sets_at n) -> In b (sets_at n) -> s_name a = s_name b -> a = b.
Proof.
  intros Ha Hb E. pose proof (set_at_distinct series key_series fs n) as H. unfold distinct in H.
  induction (sets_at n) as [|x l IH]; [done|]. simpl in H. inversion H as [|? ? Hx Hl]; subst.
  destruct Ha as [->|Ha], Hb as [->|Hb]; try done; [|..|by apply IH]; exfalso; apply Hx; [rewrite E|rewrite <- E]; by apply in_map.
Qed.

Lemma set_present n b suffix : In b (sets_at n) -> In suffix set_members -> has suffix b = true <-> present fs (s_name b) suffix.
Proof.
  intros Hb Hs. split; [|by eapply set_has]. intros Hh%has_in.
  destruct (set_at_intact series key_series fs n b Hb) as [[_ Hall] _]. by apply Hall.
Qed.

Lemma set_safe n b : In b (sets_at n) -> s_unsafe b = false <-> safe fs (s_name b).
Proof.
  intros Hb. pose proof (set_at_spec _ _ _ _ _ Hb) as (se & _ & [_ Hf _ Hu]). split.
  - intros E suffix f Hs Hat. assert (Hp : present fs (s_name b) suffix) by (unfold present; by rewrite Hat).
    apply (set_present n) in Hp; [|done..]. apply has_in, Hf in Hp as (_ & g & Hg & Hsafe). rewrite Hat in Hg. injection Hg as <-.
    by apply andb_true_iff, Hsafe.
  - intros H. destruct (s_unsafe b); [|done]. destruct (Hu eq_refl) as (suffix & f & Hs & Hat & Hx).
    destruct (H suffix f Hs Hat) as [H1 H2]. unfold safe_file in Hx. by rewrite H1, H2 in Hx.
Qed.

(** The scan leaves the manifests to be read after it. *)
Definition blank (found : list sets) : Prop := forall s k b, In s found -> In (k, b) s -> s_manifest b = None.

Lemma in_alter {A} (f : A -> A) n (l : list A) x : In x (alter f n l) -> In x l \/ exists y, l !! n = Some y /\ x = f y.
Proof.
  intros (i & Hi)%list_elem_of_In%list_elem_of_lookup. rewrite list_lookup_alter in Hi. case_decide as E.
  - subst i. destruct (l !! n) as [y|] eqn:E; [|done]. injection Hi as <-. right. by exists y.
  - left. apply list_elem_of_In. by eapply list_elem_of_lookup_2.
Qed.

Lemma scan_blank entries found ignored patterns : blank found ->
  blank (fold_left (fun acc entry => scan_entry fs patterns entry acc) entries (found, ignored)).1.
Proof.
  revert found ignored. induction entries as [|e l IH]; intros found ignored H; [done|]. cbn [fold_left].
  destruct (scan_entry fs patterns e (found, ignored)) as [found' ignored'] eqn:E. apply IH.
  unfold scan_entry in E. destruct (existsb _ _); [by injection E as <- _|].
  destruct (first_match _ _) as [[n c]|]; [|by injection E as <- _]. destruct (strptime _); [|by injection E as <- _].
  destruct (file_at _ _) as [f|]; [|by injection E as <- _]. injection E as <- _.
  intros s k b Hs Hb. apply in_alter in Hs as [Hs|(here & Hh & ->)]; [by eapply H|].
  assert (Hn : nth n found [] = here) by (rewrite nth_lookup; by rewrite Hh). rewrite Hn in Hb.
  apply list_elem_of_lookup_2, list_elem_of_In in Hh.
  apply in_dict_set in Hb as [[_ ->]|Hb]; [|by eapply H]. simpl.
  destruct (dict_get _ here) as [b0|] eqn:E; [|done]. apply dict_get_some_in in E. simpl. by eapply H.
Qed.

Lemma set_loaded n b : In b (sets_at n) ->
  s_manifest b = if committed b && negb (s_unsafe b) then _read_manifest fs (s_name b +:+ ".manifest") else None.
Proof.
  unfold set_at, sets_in, _scan. intros Hb. set (start := map (fun _ => []) (patterns_of specs)) in Hb.
  assert (H0 : blank start) by (intros s k x (? & <- & _)%in_map_iff []).
  apply (scan_blank (sort_by str_leb (map f_name fs)) _ [] (patterns_of specs)) in H0.
  destruct (fold_left _ _ _) as [found ignored]. simpl in H0, Hb.
  assert (Hnth : nth n (map (map (fun kv : string * _Set => (kv.1, load_manifest fs kv.2))) found) [] =
    map (fun kv => (kv.1, load_manifest fs kv.2)) (nth n found [])) by (by rewrite <- (map_nth (map _) found [])).
  rewrite Hnth in Hb. unfold values_of in Hb. rewrite map_map in Hb. apply in_map_iff in Hb as ([k x] & <- & Hx). simpl.
  assert (Hx0 : s_manifest x = None).
  { destruct (decide (n < length found)%nat) as [Hl|Hl]; [eapply H0; [by apply nth_In|exact Hx]|]. rewrite nth_overflow in Hx by lia. done. }
  destruct (load_manifest_same fs x) as (E1 & _ & E3 & E4).
  assert (Hc : committed (load_manifest fs x) = committed x) by (unfold committed, has; by rewrite E3).
  rewrite Hc, E1, E4. unfold load_manifest. by destruct (committed x && negb (s_unsafe x)).
Qed.

Lemma set_manifest n b m : In b (sets_at n) -> s_manifest b = Some m <-> manifest_reads fs (s_name b) m.
Proof.
  intros Hb. rewrite (set_loaded n b Hb). unfold manifest_reads.
  assert (Hc : committed b = true <-> present fs (s_name b) ".manifest") by (apply (set_present n); [done|right; right; by left]).
  pose proof (set_safe n b Hb) as Hs. unfold present in Hc. unfold _read_manifest. split.
  - destruct (committed b); [|done]. destruct (s_unsafe b) eqn:Eu; [done|]. cbn [andb negb].
    destruct (file_at _ fs) as [f|] eqn:E; [|done]. destruct (negb (f_regular f) || _) eqn:Er; [done|].
    apply orb_false_iff in Er as [_ Er%Z.ltb_ge]. destruct (f_text f) as [text|] eqn:Et; [|done].
    destruct (loads text) as [[| | | | |d]|] eqn:El; try done. intros [= ->]. split; [by apply Hs|]. by exists f, text.
  - intros (Hsafe & f & text & Hat & Hsize & Ht & Hl). apply Hs in Hsafe as Eu. rewrite Eu.
    destruct (committed b); [|by rewrite Hat in Hc; assert (false = true) by by apply Hc]. cbn [andb negb].
    rewrite Hat, Ht, Hl. destruct (Hsafe ".manifest"%string f) as [Hr _]; [right; right; by left|done|]. rewrite Hr. simpl.
    change _MAXIMUM_MANIFEST_BYTES with 65536. by rewrite (proj2 (Z.ltb_ge _ _) Hsize).
Qed.

Lemma set_complete n b : In b (sets_at n) -> complete b = true <-> whole fs (s_name b).
Proof.
  intros Hb. unfold complete, whole, all_present. rewrite !andb_true_iff, negb_true_iff, !forallb_forall. split.
  - intros [[_ [Hall _]] Hm]. split; [intros suffix Hs; by apply (set_present n), Hall|].
    destruct (s_manifest b) as [m|] eqn:E; [|done]. apply (set_manifest n) in E; [|done]. exists m. split; [done|].
    unfold refs_get in Hm. destruct (dict_get "name" m) as [[| | |t| |]|]; try done. simpl in Hm. apply String.eqb_eq in Hm. by subst t.
  - intros [Hall (m & Hm & Hname)]. split_and!.
    + apply (set_safe n); [done|apply Hm].
    + intros suffix Hs. by apply (set_present n), Hall.
    + intros suffix Hs. apply set_at_intact in Hb as [[_ Hp] _]. apply one_of_words_in. by apply Hp.
    + apply (set_manifest n) in Hm; [|done]. rewrite Hm. unfold refs_get. rewrite Hname. simpl. apply String.eqb_refl.
Qed.

Lemma finished_set n b : In b (sets_at n) -> complete b || negb (committed b) = true <-> finished fs (s_name b).
Proof.
  intros Hb. unfold finished. rewrite orb_true_iff, negb_true_iff, (set_complete n b Hb).
  rewrite <- (set_present n b ".manifest" Hb) by (right; right; by left). by rewrite not_true_iff_false.
Qed.
End Sets.

(** ** The newest backups *)

Lemma str_leb_trans a b c : str_leb a b = true -> str_leb b c = true -> str_leb a c = true.
Proof.
  unfold str_leb. rewrite !negb_true_iff. revert b c.
  induction a as [|x a IH]; intros [|y b] [|z c]; simpl; try done.
  destruct (code y <? code x) eqn:E1; [done|]. destruct (code z <? code y) eqn:E2; [done|].
  apply Z.ltb_ge in E1, E2. destruct (code x <? code y) eqn:E3, (code y <? code z) eqn:E4; intros H1 H2;
    rewrite (proj2 (Z.ltb_ge (code z) (code x))) by lia; destruct (code x <? code z) eqn:E5; try done;
    apply Z.ltb_ge in E5; try apply Z.ltb_lt in E3; try apply Z.ltb_lt in E4; try lia. by eapply IH.
Qed.

Lemma ascending_strong {A} (le : A -> A -> bool) l : (forall a b c, le a b = true -> le b c = true -> le a c = true) ->
  ascending le l -> StronglySorted (fun a b => le a b = true) l.
Proof.
  intros Ht. induction 1 as [|x|x y l Hxy _ IH]; [constructor|by repeat constructor|].
  constructor; [done|]. apply StronglySorted_inv in IH as IH'. destruct IH' as [_ Hy]. constructor; [done|].
  eapply Forall_impl; [exact Hy|]. intros z. by apply Ht.
Qed.

Lemma sorted_app_order {A} (P : A -> A -> Prop) l1 x l2 : StronglySorted P (l1 ++ x :: l2) ->
  (forall y, In y l1 -> P y x) /\ (forall y, In y l2 -> P x y).
Proof.
  induction l1 as [|a l1 IH]; simpl; intros H.
  - apply StronglySorted_inv in H as [_ H]. rewrite List.Forall_forall in H. by split.
  - apply StronglySorted_inv in H as [H Ha]. destruct (IH H) as [H1 H2]. rewrite List.Forall_forall in Ha.
    split; [|done]. intros y [->|Hy]; [apply Ha, in_or_app; right; by left|by apply H1].
Qed.

Lemma by_name_sorted l : StronglySorted (fun a b => by_name a b = true) (sort_by by_name l).
Proof.
  apply ascending_strong; [intros a b c; apply str_leb_trans|]. apply sort_by_ascending. intros x y. apply str_leb_total.
Qed.

Lemma str_leb_neq a b : str_leb a b = true -> a <> b -> str_ltb a b = true.
Proof.
  unfold str_leb. intros H%negb_true_iff Hne. destruct (str_ltb a b) eqn:E; [done|]. exfalso. by apply Hne, str_ltb_antisym.
Qed.

(** Before a backup in the list of the newest come exactly the later ones. *)
Lemma newest_split l p b q : distinct l -> newest_first l = p ++ b :: q ->
  (forall y, In y p -> str_ltb (s_name b) (s_name y) = true) /\ (forall y, In y q -> str_ltb (s_name y) (s_name b) = true).
Proof.
  intros Hd H. unfold newest_first in H. apply (f_equal (@rev _)) in H. rewrite rev_involutive, rev_app_distr in H. simpl in H.
  rewrite <- app_assoc in H. simpl in H. pose proof (by_name_sorted (List.filter complete l)) as Hs. rewrite H in Hs.
  assert (Hn : distinct (rev q ++ b :: rev p)) by (rewrite <- H; by apply sort_distinct, filter_distinct).
  unfold distinct in Hn. rewrite map_app in Hn. simpl in Hn. apply NoDup_remove_2 in Hn. rewrite in_app_iff, !in_map_iff in Hn.
  apply sorted_app_order in Hs as [H1 H2]. split; intros y Hy%in_rev; apply str_leb_neq.
  - by apply H2.
  - intros E. apply Hn. right. by exists y.
  - by apply H1.
  - intros E. apply Hn. left. by exists y.
Qed.

Section Newest.
Context (series : string) (key_series : option string) (fs : list File).
Abbreviation backups := (set_at series key_series fs 0).

Lemma backup_exists x c : backup series fs x c -> exists b, In b backups /\ s_name b = x /\ s_created b = c.
Proof. by apply set_exists. Qed.

Lemma backup_named b : In b backups -> backup series fs (s_name b) (s_created b).
Proof. intros Hb. by apply (set_named series key_series fs 0). Qed.

Lemma newest_iff minimum b : 1 <= minimum -> In b backups ->
  In (s_name b) (map s_name (take (Z.to_nat minimum) (newest_first backups))) <-> among_newest series minimum fs (s_name b).
Proof.
  intros Hm Hb. pose proof (set_at_distinct series key_series fs 0) as Hd. split.
  - intros (b' & E & Hin)%in_map_iff. assert (Hn : In b' (newest_first backups)).
    { rewrite <- (take_drop (Z.to_nat minimum) (newest_first backups)). apply in_or_app. by left. }
    apply in_newest in Hn as [Hb' Hc]. assert (b' = b) as -> by by apply (same_set series key_series fs 0).
    split; [by apply (set_complete series key_series fs 0)|]. intros later Hnd Hl.
    apply List.in_split in Hin as (p & q & Hp). set (rest := drop (Z.to_nat minimum) (newest_first backups)).
    assert (Hsplit : newest_first backups = p ++ b :: (q ++ rest)).
    { rewrite <- (take_drop (Z.to_nat minimum) (newest_first backups)), Hp, <- app_assoc. done. }
    destruct (newest_split _ _ _ _ Hd Hsplit) as [_ Hq].
    assert (Hincl : incl later (map s_name p)).
    { intros y Hy. destruct (Hl y Hy) as ((c & Hbk) & Hw & Hlt). apply backup_exists in Hbk as (z & Hz & <- & _).
      apply (set_complete series key_series fs 0) in Hw; [|done]. assert (Hzn : In z (newest_first backups)) by (by apply in_newest).
      rewrite Hsplit in Hzn. apply in_app_or in Hzn as [Hzn|[->|Hzn]]; [by apply in_map| |].
      - by rewrite str_ltb_irrefl in Hlt.
      - apply Hq in Hzn. by rewrite (str_ltb_irrefl_total _ _ Hzn) in Hlt. }
    apply NoDup_incl_length in Hincl; [|done]. rewrite length_map in Hincl.
    assert (Hlen : (length (take (Z.to_nat minimum) (newest_first backups)) <= Z.to_nat minimum)%nat) by (rewrite length_take; lia).
    rewrite Hp, length_app in Hlen. simpl in Hlen. lia.
  - intros [Hw Hl]. apply (set_complete series key_series fs 0) in Hw; [|done].
    assert (Hn : In b (newest_first backups)) by (by apply in_newest).
    apply List.in_split in Hn as (p & q & Hsplit). destruct (newest_split _ _ _ _ Hd Hsplit) as [Hp _].
    assert (Hcount : Z.of_nat (length (map s_name p)) < minimum).
    { apply Hl.
      - assert (Hnn : distinct (newest_first backups)).
        { unfold newest_first, distinct. rewrite map_rev. by apply NoDup_rev, sort_distinct, filter_distinct. }
        unfold distinct in Hnn. rewrite Hsplit, map_app in Hnn. by apply NoDup_app_remove_r in Hnn.
      - intros y (z & <- & Hz)%in_map_iff. assert (Hzn : In z (newest_first backups)) by (rewrite Hsplit; apply in_or_app; by left).
        apply in_newest in Hzn as [Hzb Hzc]. split_and!; [exists (s_created z); by apply backup_named|by apply (set_complete series key_series fs 0)|by apply Hp]. }
    rewrite length_map in Hcount. apply in_map. rewrite Hsplit, take_app.
    apply in_or_app. right. destruct (Z.to_nat minimum - length p)%nat eqn:E; [lia|]. by left.
Qed.
End Newest.

(** ** The selection is the policy *)

Section Selected.
Context (series keep : string) (now : Z) (key_series : option string) (days minimum : Z) (fs : list File).
Context (Hmin : 1 <= minimum).
Abbreviation sets_at := (set_at series key_series fs).
Abbreviation cutoff := (now - days * day).
Abbreviation old := (expired_backup (floor_in minimum keep (sets_at 0)) cutoff).
Abbreviation old_at := (old_backup series keep now days minimum fs).
Abbreviation archive_at := (old_archive series keep now key_series days minimum fs).

Lemma text_in_false s l : existsb (String.eqb s) l = false <-> ~ In s l.
Proof. rewrite <- not_true_iff_false. apply not_iff_compat, one_of_words_in. Qed.

Lemma aged_iff created : (cutoff <=? created) = false <-> aged now days created.
Proof. apply Z.leb_gt. Qed.

Lemma old_iff b : In b (sets_at 0) -> old b = true <-> old_at (s_name b) (s_created b).
Proof.
  intros Hb. unfold expired_backup, old_backup, floor_in.
  rewrite andb_true_iff, negb_true_iff, !orb_false_iff, (finished_set series key_series fs 0 b Hb), (set_safe series key_series fs 0 b Hb),
    aged_iff, text_in_false, in_app_iff, (newest_iff series key_series fs minimum b Hmin Hb). simpl.
  pose proof (backup_named series key_series fs b Hb). naive_solver.
Qed.

Lemma created_once x c c' : backup series fs x c -> backup series fs x c' -> c = c'.
Proof.
  intros (b & Hb & Hn & <-)%(backup_exists series key_series) (b' & Hb' & Hn' & <-)%(backup_exists series key_series).
  by rewrite (same_set series key_series fs 0 b b') by congruence.
Qed.

(** The survivors are the remaining backups. *)
Lemma survivor_named b : In b (survivors old (sort_by by_name (sets_at 0))) ->
  In b (sets_at 0) /\ remaining series keep now days minimum fs (s_name b) (s_created b).
Proof.
  intros [Hb%in_sorted Ho%negb_true_iff]%filter_In. split; [done|]. split; [by apply (backup_named series key_series)|].
  intros Hold%old_iff; [|done]. congruence.
Qed.

Lemma survivor_exists x c : remaining series keep now days minimum fs x c ->
  exists b, In b (survivors old (sort_by by_name (sets_at 0))) /\ In b (sets_at 0) /\ s_name b = x /\ s_created b = c.
Proof.
  intros [(b & Hb & <- & <-)%(backup_exists series key_series) Ho]. exists b. split_and!; try done.
  apply filter_In. split; [eapply Permutation_in; [symmetry; apply sort_by_perm|done]|].
  destruct (old b) eqn:E; [|done]. by apply old_iff in E.
Qed.

Lemma referenced_iff referenced x : source_keys (survivors old (sort_by by_name (sets_at 0))) = Ok referenced ->
  existsb (json_eqb (JStr x)) referenced = true
  <-> exists y c m, remaining series keep now days minimum fs y c /\ manifest_reads fs y m /\ dict_get "sourceKeys" m = Some (JStr x).
Proof.
  unfold source_keys. destruct (forallb _ _); [|done]. intros [= <-]. rewrite existsb_exists. setoid_rewrite omap_In. split.
  - intros (v & (b & Hb & Hv) & He). apply survivor_named in Hb as [Hb Hr]. destruct (s_manifest b) as [m|] eqn:Em; [|done].
    injection Hv as <-. apply (set_manifest series key_series fs 0) in Em; [|done]. exists (s_name b), (s_created b), m.
    split_and!; [done|done|]. unfold refs_get in He. destruct (dict_get "sourceKeys" m) as [[| | |t| |]|]; try done.
    simpl in He. apply String.eqb_eq in He. by subst t.
  - intros (y & c & m & Hr & Hm & Hk). apply survivor_exists in Hr as (b & Hs & Hb & <- & _).
    apply (set_manifest series key_series fs 0) in Hm; [|done]. exists (JStr x). split; [|simpl; apply String.eqb_refl].
    exists b. split; [done|]. rewrite Hm. simpl. unfold refs_get. by rewrite Hk.
Qed.

Lemma paired_iff c : existsb (Z.eqb c) (map s_created (survivors old (sort_by by_name (sets_at 0)))) = true
  <-> exists y, remaining series keep now days minimum fs y c.
Proof.
  rewrite existsb_exists. split.
  - intros (t & (b & <- & Hb)%in_map_iff & ->%Z.eqb_eq). apply survivor_named in Hb as [_ Hb]. by eexists.
  - intros (y & (b & Hs & _ & _ & <-)%survivor_exists). exists (s_created b). split; [by apply in_map|apply Z.eqb_refl].
Qed.

Lemma archive_iff k referenced b : key_series = Some k ->
  source_keys (survivors old (sort_by by_name (sets_at 0))) = Ok referenced -> In b (sets_at 1) ->
  expired_key referenced (map s_created (survivors old (sort_by by_name (sets_at 0)))) cutoff b = true
  <-> archive_at (s_name b) (s_created b).
Proof.
  intros Hk Href Hb. unfold expired_key, old_archive.
  rewrite andb_true_iff, negb_true_iff, !orb_false_iff, (finished_set series key_series fs 1 b Hb), (set_safe series key_series fs 1 b Hb),
    aged_iff, <- !not_true_iff_false, (referenced_iff _ _ Href), paired_iff.
  assert (Hs : set_of fs (k, ".tar.age"%string) (s_name b) (s_created b))
    by (apply (set_named series key_series fs 1); [done|by rewrite Hk]).
  split.
  - intros [[[[H1 H2] H3] H4] H5]. split_and!; [by exists k|done|done|done|]. intros y c Hr. split.
    + intros ->. apply H3. by exists y.
    + intros m Hm Hx. apply H2. by exists y, c, m.
  - intros (_ & H1 & H2 & H3 & H4). split_and!; try done.
    + intros (y & c & m & Hr & Hm & Hx). by apply (proj2 (H4 y c Hr) m).
    + intros (y & Hr). by apply (proj1 (H4 _ _ Hr)).
Qed.

(** *** Sets by name *)

Lemma filter_sorted {A} (P : A -> A -> Prop) p l : StronglySorted P l -> StronglySorted P (List.filter p l).
Proof.
  induction 1 as [|x l _ IH Hx]; simpl; [constructor|]. destruct (p x); [|done]. constructor; [done|].
  apply List.Forall_forall. intros y [Hy _]%filter_In. rewrite List.Forall_forall in Hx. by apply Hx.
Qed.

Lemma map_sorted {A B} (f : A -> B) (P : A -> A -> Prop) (Q : B -> B -> Prop) l :
  (forall x y, P x y -> Q (f x) (f y)) -> StronglySorted P l -> StronglySorted Q (map f l).
Proof.
  intros Hf. induction 1 as [|x l _ IH Hx]; simpl; [constructor|]. constructor; [done|].
  apply List.Forall_forall. intros y (z & <- & Hz)%in_map_iff. rewrite List.Forall_forall in Hx. by apply Hf, Hx.
Qed.

Lemma listed_names n p (P : string -> Z -> Prop) :
  (forall b, In b (sets_at n) -> p b = true <-> P (s_name b) (s_created b)) ->
  (forall x c, P x c -> exists b, In b (sets_at n) /\ s_name b = x /\ s_created b = c) ->
  listed (fun x => exists c, P x c) (map s_name (List.filter p (sort_by by_name (sets_at n)))).
Proof.
  intros Hp He. split_and!.
  - eapply map_sorted; [|apply filter_sorted, by_name_sorted]. done.
  - apply filter_distinct, sort_distinct, set_at_distinct.
  - intros x. rewrite in_map_iff. split.
    + intros (b & <- & [Hb%in_sorted Hx]%filter_In). exists (s_created b). by apply Hp.
    + intros (c & HP). destruct (He x c HP) as (b & Hb & <- & <-). exists b. split; [done|]. apply filter_In.
      split; [eapply Permutation_in; [symmetry; apply sort_by_perm|done]|by apply Hp].
Qed.

Lemma set_unlinks n b : In b (sets_at n) -> removal b = unlinks fs (s_name b).
Proof.
  intros Hb. unfold removal, unlinks. cbn [map concat].
  assert (Hh : forall s, In s set_members -> has s b = match file_at (s_name b +:+ s) fs with Some _ => true | None => false end).
  { intros s Hs. apply eq_true_iff_eq. rewrite (set_present series key_series fs n b s Hb Hs). unfold present.
    by destruct (file_at _ fs). }
  rewrite !Hh by (simpl; tauto). rewrite app_nil_r.
  destruct (file_at (s_name b +:+ ".manifest") fs), (file_at (s_name b +:+ ".sha256") fs), (file_at (s_name b +:+ "") fs); reflexivity.
Qed.

Lemma file_at_gone expired name l : doomed expired name = true -> file_at name (without expired l) = None.
Proof.
  intros Hd. unfold file_at, without. destruct (List.find _ _) as [f|] eqn:E; [|done].
  apply find_some in E as [[_ Hf]%filter_In Hn%String.eqb_eq]. rewrite Hn, Hd in Hf. done.
Qed.

Lemma swept_sets expired tail d d' : files d = fs -> (forall b, In b expired -> exists n, In b (sets_at n)) ->
  files d' = without expired (files d) -> events d' = events d ++ concat (map removal expired) ++ tail ->
  swept fs (map s_name expired) tail d d'.
Proof.
  intros Hd Hin Hf He. split_and!.
  - rewrite He. do 3 f_equal. rewrite map_map. apply map_ext_in. intros b Hb. destruct (Hin b Hb) as [n Hn]. by eapply set_unlinks.
  - intros name (x & suffix & (b & <- & Hb)%in_map_iff & Hs & ->). rewrite Hf, Hd.
    destruct (doomed expired (s_name b +:+ suffix)) eqn:Ed; [by apply file_at_gone|]. rewrite file_at_without by done.
    destruct (file_at (s_name b +:+ suffix) fs) eqn:E; [|done]. exfalso. destruct (Hin b Hb) as [n Hn].
    assert (Hp : has suffix b = true) by (apply (set_present series key_series fs n b); [done|done|]; unfold present; by rewrite E).
    apply has_in in Hp. assert (doomed expired (s_name b +:+ suffix) = true); [|congruence]. apply doomed_in. by exists b, suffix.
  - intros name Hn. rewrite Hf, Hd. apply file_at_without. destruct (doomed expired name) eqn:Ed; [|done]. exfalso. apply Hn.
    apply doomed_in in Ed as (b & s & Hb & Hs & ->). exists (s_name b), s. split_and!; [by apply in_map| |done].
    destruct (Hin b Hb) as [n Hbn]. apply set_at_intact in Hbn as [[_ Hall] _]. by apply Hall.
Qed.
End Selected.

(** ** The refinement *)

Section Refinement.
Context (series keep : string) (now : Z) (key_series : option string) (days minimum : Z) (d : Dir).
Context (Hdays : 0 <= days) (Hmin : 1 <= minimum).
Abbreviation fs := (files d).
Abbreviation sets_at := (set_at series key_series fs).
Abbreviation sorted n := (sort_by by_name (sets_at n)).
Abbreviation old := (expired_backup (floor_in minimum keep (sets_at 0)) (now - days * day)).

Lemma cutoff_ok cutoff : cutoff_of now days = Ok cutoff -> cutoff = now - days * day.
Proof. unfold cutoff_of. destruct (_ <? 0); [done|]. by intros [= <-]. Qed.

Lemma keep_iff : existsb (String.eqb keep) (map s_name (newest_first (sets_at 0))) = true
  <-> (exists c, backup series fs keep c) /\ whole fs keep.
Proof.
  etransitivity; [apply one_of_words_in|]. rewrite in_map_iff. split.
  - intros (b & <- & [Hb Hc]%in_newest). split; [exists (s_created b); by apply (backup_named series key_series)|].
    by apply (set_complete series key_series fs 0).
  - intros [(c & (b & Hb & <- & _)%(backup_exists series key_series)) Hw]. exists b. split; [done|]. apply in_newest.
    split; [done|]. by apply (set_complete series key_series fs 0).
Qed.

Lemma backups_listed : old_backups series keep now days minimum fs (map s_name (List.filter old (sorted 0))).
Proof.
  apply listed_names; [intros b Hb; by apply old_iff|]. intros x c [Hb _]. by apply (backup_exists series key_series).
Qed.

Lemma no_archives : key_series = None -> sets_at 1 = [].
Proof.
  intros Hk. destruct (sets_at 1) as [|b l] eqn:E; [done|]. assert (Hb : In b (sets_at 1)) by (rewrite E; by left).
  apply set_at_spec in Hb as (se & Hse & _). by rewrite Hk in Hse.
Qed.

(** What the selection is, in terms of the policy *)
Lemma selection_policy expired kept : selection series keep now key_series days minimum fs = Ok (expired, kept) ->
  existsb (String.eqb keep) (map s_name (newest_first (sets_at 0))) = true
  /\ exists unused, expired = List.filter old (sorted 0) ++ List.filter unused (sorted 1)
       /\ kept = survivors old (sorted 0) ++ survivors unused (sorted 1)
       /\ old_archives series keep now key_series days minimum fs (map s_name (List.filter unused (sorted 1))).
Proof.
  unfold selection. destruct (cutoff_of now days) as [cutoff|] eqn:Hc; simpl; [|done]. apply cutoff_ok in Hc as ->.
  change (backups_in series key_series fs) with (sets_at 0). change (keys_in series key_series fs) with (sets_at 1).
  destruct (existsb _ _); simpl; [|done]. intros H. split; [done|]. destruct key_series as [k|] eqn:Hk.
  - destruct (source_keys _) as [referenced|] eqn:Href; simpl in H; [|done]. injection H as <- <-. eexists. split_and!; [done|done|].
    apply listed_names; [intros b Hb; by eapply archive_iff|]. intros x c ((k' & Hk' & Hs) & _).
    apply (set_exists series (Some k) fs 1) in Hs; [done|]. by injection Hk' as ->.
  - injection H as <- <-. exists (fun _ => false). rewrite <- Hk, no_archives by done. simpl.
    split_and!; [by rewrite app_nil_r|by rewrite app_nil_r|]. split_and!; [constructor|constructor|].
    intros x. split; [done|]. intros (c & (k & Hk' & _) & _). congruence.
Qed.

Lemma filter_in_sets p n b : In b (List.filter p (sorted n)) -> In b (sets_at n).
Proof. by intros [?%in_sorted _]%filter_In. Qed.

Lemma kept_listed unused :
  let gone := map s_name (List.filter old (sorted 0) ++ List.filter unused (sorted 1)) in
  let kept := map s_name (List.filter complete (survivors old (sorted 0) ++ survivors unused (sorted 1))) in
  List.NoDup kept /\ forall x, In x kept <-> committed_set series key_series fs x /\ ~ In x gone.
Proof.
  cbv zeta. assert (Hone : forall m n a b, In a (sets_at m) -> In b (sets_at n) -> s_name a = s_name b -> m = n /\ a = b).
  { intros m n a b Ha Hb E. pose proof (set_at_once series key_series fs m n a b Ha Hb E) as <-.
    split; [done|]. by apply (same_set series key_series fs m). }
  split.
  - apply filter_distinct. unfold distinct, survivors. rewrite map_app. apply List.NoDup_app.
    + apply filter_distinct, sort_distinct, set_at_distinct.
    + apply filter_distinct, sort_distinct, set_at_distinct.
    + intros x (a & <- & Ha%filter_in_sets)%in_map_iff (b & E & Hb%filter_in_sets)%in_map_iff.
      by destruct (Hone 0%nat 1%nat a b) as [? _].
  - assert (Hstay : forall n p b, In b (survivors p (sorted n)) <-> In b (sets_at n) /\ p b = false).
    { intros n p b. unfold survivors. rewrite filter_In, negb_true_iff. split; [by intros [?%in_sorted ?]|].
      intros [? ?]. split; [eapply Permutation_in; [symmetry; apply sort_by_perm|done]|done]. }
    assert (Hgone : forall n p b, In b (List.filter p (sorted n)) <-> In b (sets_at n) /\ p b = true).
    { intros n p b. rewrite filter_In. split; [by intros [?%in_sorted ?]|].
      intros [? ?]. split; [eapply Permutation_in; [symmetry; apply sort_by_perm|done]|done]. }
    intros x. rewrite !in_map_iff. setoid_rewrite filter_In. setoid_rewrite in_app_iff. setoid_rewrite Hstay. setoid_rewrite Hgone. split.
    + intros (b & <- & [[Hb Hp]|[Hb Hp]] & Hc).
      * split; [split; [left; exists (s_created b); by apply (backup_named series key_series)|by apply (set_complete series key_series fs 0)]|].
        intros (b' & E & [[Hb' Hp']|[Hb' Hp']]); [destruct (Hone 0%nat 0%nat b' b) as [_ ->]|destruct (Hone 1%nat 0%nat b' b)]; congruence || done.
      * split; [split; [right|by apply (set_complete series key_series fs 1)]|].
        { pose proof (set_at_spec _ _ _ _ _ Hb) as (se & Hse & _). destruct key_series as [k|] eqn:Hk; [|done].
          simpl in Hse. injection Hse as <-. exists k, (s_created b). split; [done|].
          by apply (set_named series (Some k) fs 1). }
        intros (b' & E & [[Hb' Hp']|[Hb' Hp']]); [destruct (Hone 0%nat 1%nat b' b)|destruct (Hone 1%nat 1%nat b' b) as [_ ->]]; congruence || done.
    + intros [[Hset Hw] Hno].
      assert (Hb : exists n b, In b (sets_at n) /\ s_name b = x /\ (n = 0%nat \/ n = 1%nat)).
      { destruct Hset as [(c & Hb)|(k & c & Hk & Hs)].
        - apply (backup_exists series key_series) in Hb as (b & Hb & Hn & _). exists 0%nat, b. auto.
        - apply (set_exists series key_series fs 1) in Hs as (b & Hb & Hn & _); [|by rewrite Hk]. exists 1%nat, b. auto. }
      destruct Hb as (n & b & Hb & <- & Hn). exists b. split; [done|].
      split; [|by apply (set_complete series key_series fs n)].
      destruct Hn as [-> | ->]; [left|right]; (split; [done|]); apply not_true_is_false; intros Hp; apply Hno; exists b; auto.
Qed.

(** C39. Retention is the policy.  Whatever the directory holds, with an age of at
    least no days and a floor of at least one: a run that returns found [keep]
    among the complete backups, and unlinked the files of exactly these sets, set
    by set, each manifest first and the directory synced after it, and synced it
    once more at the end: in order of their names the old backups, which are safe,
    are complete or were never committed, were created before the last [days]
    days, are not [keep] and not among the [minimum] newest complete ones; then,
    with a key series, the old archives, which are safe, complete or never
    committed, before the last [days] days, and which no remaining backup names in
    its manifest or shares its time with.  No other file changed, and it counts
    the sets removed and the complete sets that stay.  A run that raises touched
    nothing, when the calendar does not reach back so far or [keep] is not a
    complete backup; or the manifest of a remaining backup gives an array or an
    object under [sourceKeys], and the old backups are gone but no archive. *)
Theorem prune_refines_policy out d' :
  prune (Some true) series keep true now key_series days minimum d = (out, d') ->
  retained series keep now key_series days minimum fs d d' out.
Proof.
  intros H. pose proof (prune_selection series keep now key_series days minimum d Hdays Hmin) as Hp.
  assert (Hin : forall n p b, In b (List.filter p (sorted n)) -> exists n, In b (sets_at n)) by (intros n p b Hb; exists n; by eapply filter_in_sets).
  destruct (selection _ _ _ _ _ _ _) as [[expired kept]|e] eqn:Es.
  - destruct Hp as (ignored & Hp). rewrite Hp in H. injection H as <- <-.
    apply selection_policy in Es as (Hkeep & unused & -> & -> & Harch). apply keep_iff in Hkeep as [Hk1 Hk2].
    destruct (kept_listed unused) as [Hn Hl]. split_and!; [done|done|].
    exists (map s_name (List.filter old (sorted 0))), (map s_name (List.filter unused (sorted 1))).
    eexists. rewrite <- map_app. split_and!; [exact backups_listed|exact Harch| |by rewrite length_map|exact Hn|exact Hl|by rewrite length_map].
    apply (swept_sets series key_series); [done| |done|done]. intros b [Hb|Hb]%in_app_or; by eapply Hin.
  - destruct Hp as (removed & Hp & Hnone & _ & _ & Htype). rewrite Hp in H. injection H as <- <-.
    unfold selection in Es. destruct (cutoff_of now days) as [cutoff|e'] eqn:Hc; simpl in Es.
    2: { injection Es as ->. unfold cutoff_of in Hc. destruct (_ <? 0) eqn:El; [|done]. injection Hc as <-.
      rewrite (Hnone ltac:(done)), nothing_removed. apply Z.ltb_lt in El. by split. }
    destruct (existsb _ _) eqn:Ek; simpl in Es.
    2: { injection Es as <-. rewrite (Hnone ltac:(done)), nothing_removed. split_and!; [done| |done].
      rewrite <- keep_iff. change (sets_at 0) with (backups_in series key_series fs). by rewrite Ek. }
    destruct key_series as [k|] eqn:Hk; [|done]. destruct (source_keys _) as [referenced|e'] eqn:Href; simpl in Es; [done|].
    injection Es as ->. unfold source_keys in Href. destruct (forallb _ _) eqn:Eh; [done|]. injection Href as <-.
    destruct (Htype eq_refl) as (cutoff' & [= <-] & ->). apply cutoff_ok in Hc as ->.
    rewrite <- Hk in *. change (backups_in series key_series fs) with (sets_at 0) in *.
    apply keep_iff in Ek as [Hk1 Hk2]. split_and!; [congruence|done|done| |].
    + apply not_true_iff_false in Eh. rewrite forallb_forall in Eh. 
      assert (Hex : exists v, In v (omap (fun b => refs_get "sourceKeys" <$> s_manifest b) (survivors old (sorted 0))) /\ hashable v = false).
      { clear -Eh. induction (omap _ _) as [|v l IH]; [exfalso; apply Eh; by intros ? []|].
        destruct (hashable v) eqn:Ev; [|exists v; split; [by left|done]].
        destruct IH as (w & Hw & Ew); [|exists w; split; [by right|done]]. intros Hl. apply Eh. intros x [<-|Hx]; [done|by apply Hl]. }
      destruct Hex as (v & (b & Hb & Hv)%omap_In & Hh). apply survivor_named in Hb as [Hb Hr]; [|done].
      destruct (s_manifest b) as [m|] eqn:Em; [|done]. injection Hv as <-.
      apply (set_manifest series key_series fs 0) in Em; [|done]. unfold refs_get in Hh.
      destruct (dict_get "sourceKeys" m) as [v|] eqn:Ev; [|done]. by exists (s_name b), (s_created b), m, v.
    + exists (map s_name (List.filter old (sorted 0))). split; [exact backups_listed|].
      apply (swept_sets series key_series); [done|intros b Hb; by eapply Hin|done|simpl; by rewrite app_nil_r].
Qed.
End Refinement.

(** Two of the four backups and an archive have expired. *)
Lemma prune_refines_policy_witness : exists r d',
  prune (Some true) "controller" demo_kept true demo_now (Some "keys"%string) 14 2 demo_directory = (Ok r, d')
  /\ rt_removed r = 3%nat
  /\ retained "controller" demo_kept demo_now (Some "keys"%string) 14 2 (files demo_directory) demo_directory d' (Ok r).
Proof.
  destruct demo_returns as (r & d' & E). exists r, d'. split; [exact E|]. split.
  - pose proof demo_removed as H. rewrite E in H. by injection H.
  - apply (prune_refines_policy "controller" demo_kept demo_now (Some "keys"%string) 14 2 demo_directory); [lia|lia|exact E].
Defined.
